(* ===== verification/_CoqProject ===== *)
-Q . S2P
Prelude.v
Defs.v
LinkedList.v
HalTimer.v
Digest.v
Sha2.v
Json.v
CLib.v
JsonConv.v
StringUtils.v
JsonKeys.v
HalDevice.v
MqttWire.v
MqttTopic.v
MqttState.v
HalTcp.v
Httpc.v
HttpApi.v
HttpApiSpec.v
HttpApiSafe.v
OtaLib.v
Ota.v
OtaSim.v
OtaSafe.v
ShadowDoc.v
DevModel.v
DevModelSpec.v
DevModelReply.v
DevModelSafe.v
Shadow.v
ShadowSim.v
ShadowInv.v
ShadowReply.v
MqttClient.v
MqttSession.v
MqttApi.v
MqttSim.v
MqttInv.v
MqttSend.v
MqttRequest.v
MqttRecv.v
MqttHandle.v
MqttAck.v
MqttLife.v
MqttConnect.v
MqttTcp.v
MqttRegister.v
