(* ===== verification/Prelude.v ===== *)
(** * The UIoT device SDK for RT-Thread

    This library models the core of the SDK under [src/uiot] and of its port
    under [src/ports/rtthread], and proves it correct, or shows where it is
    not.  The SDK connects a device to an MQTT 3.1.1 broker; everything above
    (device shadow, firmware update, device model) talks through that client.

    ** The parts and their files

    - [Prelude]: machine integers with their wrap-around, byte buffers with
      checked access, C strings, the error monad [res], and the tactics.
    - [Defs]: error codes, limits and enumerations of the headers.
    - [LinkedList] ([uiot/utils/utils_list.c]): the list operations on a store
      of nodes with [prev] and [next] pointers.  [linked_list_correct] is the
      refinement: every program of list operations behaves as on a sequence
      and never touches a node that is not there.  The MQTT client is modelled
      against the sequence.
    - [HalTimer] ([ports/rtthread/HAL_Timer_rtthread.c],
      [uiot/utils/utils_timer.c]): timers on the 32-bit tick counter.
    - [MqttWire] ([mqtt_client_common.c] and the (de)serializers of the publish,
      subscribe, unsubscribe and connect files): the bytes of MQTT packets.
      Module [Spec] is the layout MQTT 3.1.1 prescribes; the serializers are
      equal to it, the deserializers read it back and stay inside the buffer.
    - [MqttTopic] ([_is_topic_matched]): the topic matcher against the
      level-by-level matching of the standard.
    - [MqttState]: the client structure of [mqtt_client.h] as the record
      [Client], the state [St] around it (heap of topic strings and of records
      that leaked, environment, calls made to the application, ring of
      received packet ids), and the monad [M] with three outcomes: a value, no fuel, undefined behaviour.
      Interfaces: [Env] (clock, allocator, network), [EnvLaws] (what the code
      relies on), [NetLog] (an observer of the bytes), [Calm] (an environment
      in which nothing goes wrong).
    - [MqttClient] ([mqtt_client_common.c]): sending, reading, delivery, the
      handlers of acknowledgements, the read cycle.
    - [MqttSession] ([mqtt_client_publish.c], [mqtt_client_subscribe.c],
      [mqtt_client_unsubscribe.c], [mqtt_client_connect.c],
      [mqtt_client_yield.c]): the requests, connecting and disconnecting, the
      yield loop with keep-alive, back-off and the sweeps.
    - [MqttApi] ([mqtt_client.c]): initialisation, construction, destruction,
      the public wrappers, and the application's requests as a data type.
    - [HalTcp] ([ports/rtthread/HAL_TCP_rtthread.c], [uiot/utils/utils_net.c]):
      the network functions down to the calls of the socket layer (the
      interface [Rtos]); [tcp_env], [tcp_laws] and [tcp_log] make them an
      implementation of [Env] with its laws, and [MqttTcp] runs the client on
      it.
    - [Digest] ([uiot/utils/utils_md5.c], the buffering both digests share) and
      [Sha2] ([uiot/utils/utils_sha2.c]): MD5 of firmware images, SHA-256 and
      HMAC of HTTP requests, against RFC 1321, FIPS 180-4 and RFC 2104.
    - [Json] ([uiot/utils/json_parser.c], [LITE_json_value_of]): the scanner by
      which all layers above MQTT read messages.  A pointer is the rest of the
      text; documents are an inductive type with a printer.
    - [CLib]: the functions of the C library on strings ([strstr], [atoi],
      [snprintf] and its [%d]), and the outcome of a call that may be undefined
      or not end.
    - [JsonConv] ([uiot/utils/json_token.c]): the conversions of values.
    - [JsonKeys] ([LITE_json_keys_of], [LITE_json_keys_release]): the list of the
      keys of a document, with its theorem ([json_keys_correct]).
    - [StringUtils] ([uiot/utils/string_utils.c]): copies, formats, hexadecimal
      text and the replacement of substrings.
    - [Httpc] ([uiot/utils/utils_httpc.c]): the HTTP client on the socket port.
    - [HttpApi] ([uiot/http/http_client.c], [http_upload_file.c]): tokens,
      publishing and uploading over HTTP, on [Httpc], the digests and the
      scanner.  [HttpApiSpec] states what goes out and what the caller gets,
      [HttpApiSafe] what happens without memory, with short arrays and with
      long texts.
    - [OtaLib] ([uiot/ota/src/ota_lib.c], [ota_config.h]), [Ota]
      ([ota_client.c], [ota_fetch.c], [ota_mqtt.c], and the flash port
      [HAL_Flash_rtthread.c]): the firmware update client.  Interface: [Device]
      (what it calls of the MQTT client, of the flash and of the application).
      The message callback runs a download, which yields, which may deliver
      the next message to the callback: it is a recursive function by the depth
      of this nesting.  [OtaSim] is a device to run it on, [OtaSafe] holds the
      theorems.
    - [ShadowDoc] ([uiot/shadow/src/shadow_client_json.c], the [shadow_json_...]
      functions of [shadow_client_manager.c]): the documents of the device
      shadow and the values of properties.
    - [Shadow] ([uiot/shadow/src/shadow_client.c], [shadow_client_manager.c],
      [shadow_client_common.c]): requests that wait for their reply, replies,
      time-outs, and properties whose wanted values the cloud sends.
      Interface: [Cloud] (the clock, the allocator and the MQTT client).  The
      application's properties are objects of its own memory, its callbacks
      programs over the same state ([run_calls] lets them call the client).
      [ShadowSim] is a cloud to run it with; [ShadowInv] and [ShadowReply] hold
      the theorems.
    - [DevModel] ([uiot/dev_model/src/dm_mqtt.c], [dm_client.c]): the device
      model, which turns properties, events and the output of commands into
      JSON texts in buffers of a fixed size and hands what the cloud sends to
      callbacks.  Interface: [Channel] (the allocator and the MQTT client).
      [DevModelSpec] compares what is written with JSON and holds the theorems
      about requests, [DevModelReply] those about received messages,
      [DevModelSafe] those about memory and about texts that do not fit.
    - [HalDevice] ([ports/rtthread/HAL_OS_rtthread.c]): the names and secrets
      the device is known by.  [MqttRegister]: dynamic registration
      ([IOT_MQTT_Dynamic_Register] of [mqtt_client.c]) on the client, with the
      callback that keeps the secret, and its theorem; these arrays stand
      beside the client's environment.
    - [MqttSim]: a concrete environment that satisfies every interface; the
      witnesses run the client in it.
    - [MqttInv], [MqttSend], [MqttRequest], [MqttRecv], [MqttHandle],
      [MqttAck], [MqttLife], [MqttConnect]: the theorems about the client.

    Functions and fields keep the names of the code.  A C function that mutates
    the client is a value of [M]; its guards and early returns are the ones of
    the code, and locking is part of it (a lock counts how often it is held).
    A pointer into a buffer is an index; access outside a buffer or through a
    freed topic string is an outcome of its own, not an error value.

    ** What the theorems show

    - The client's data stays consistent and its mutexes balanced through every
      sequence of requests, with any network and callbacks that may call back
      into the client ([client_stays_consistent]).
    - Publishing, subscribing, unsubscribing, connecting, disconnecting and the
      keep-alive return, and what they leave in the state and on the wire is
      stated on every branch; in a calm environment they succeed.
    - A packet is read without leaving the receive buffer, whatever the network
      sends; a received PUBLISH is delivered, remembered and acknowledged; an
      acknowledgement settles exactly the requests of its id ([acks_correct]),
      and the sweep of the publishes removes exactly the settled and the
      timed-out ones ([pub_info_proc_correct], for callbacks that only take
      note).
    - Dynamic registration ends disconnected, and its callback stores exactly
      the password of a reply that answers it; what it returns does not tell
      whether one came ([dynamic_register_correct]).
    - The packet formats and the topic matcher are compared with MQTT 3.1.1
      ([serializers_correct], [publish_decode_correct], [topic_match_exact]).
    - Network reads and writes pass on the bytes of the connection in order and
      end by their timeout, at any tick rate up to 1000 per second, unless the
      32-bit reading of the clock in milliseconds wraps ([tcp_port_correct]).
    - The digests equal their standards for every way of feeding the message;
      the constants of SHA-256 are computed from the roots of the primes
      ([digests_correct]).  The JSON scanner finds what is at
      a path ([json_lookup_correct]) and stays inside the text
      ([json_lookup_safe]); the list of keys has the path of every member
      ([json_keys_correct]).
    - An HTTP request and a response are compared with their texts
      ([http_request_correct], [http_response_correct]).  The device is only
      reset behind a digest that matched; the partition then holds what was
      hashed, but for downloads nested in one another ([firmware_verified]).
      Update messages that arrive in a download are queued
      ([message_during_download]).
    - The HTTP services send the request that belongs to their arguments, its
      header and its JSON body spelled out,
      authorized with its HMAC, and give the caller the values of the answer
      ([http_credentials_correct], [http_transfer_correct]); what they keep,
      cut, overrun or report wrongly is [http_services_errors].  The string
      utilities are compared with reference functions
      ([string_utils_correct]).
    - No request to the shadow is lost or answered twice
      ([shadow_requests_conserved]); what each message and the clock do to the
      waiting requests ([shadow_requests_settled]);
      the document of a request is the JSON text it should be and can be read
      back ([shadow_document_correct]), and values keep the type of their
      property ([property_values_typed]).
    - What the device model sends is the JSON text of the request, on the topic
      of its kind ([dm_requests_correct]); received messages reach their
      callback with their members and are answered ([dm_replies_correct]); all
      its memory is freed ([dm_no_leak]).
    - Where the code deviates, a theorem says so: topics matched wrongly
      ([topic_match_exact]), timers at the wrap of the tick counter
      ([timer_correct]), reads that never time out ([tcp_port_correct]), names
      confused by the JSON scanner ([json_lookup_safe]), a filter freed while
      in use ([double_suback_use_after_free]), a record that leaks without memory
      for a list node ([subscribe_leaks]), buffers that a server can overrun
      ([http_limits]) or that the SDK's own texts overrun
      ([shadow_document_correct], [dm_payload_limits]), clean-up that is undefined ([ota_ends_undefined]), and
      clauses of the theorems above.

    ** Fuel and bounds

    [fuel] bounds the rounds of loops that wait for the network.
    [send_mqtt_packet] needs at most as many rounds as the packet has bytes, so
    [2048 <= fuel] (the size of the transmit buffer) is enough, and the
    theorems about requests assume just that.  Loops over the ten handles, the
    two lists, the remaining-length field and discarded packets are structural
    or have fuel computed from their bound, and are proved to end.  The wait
    for a packet and the yield loop end by time only: nothing in the code
    bounds their rounds, so theorems about them speak about runs that return,
    or about environments that answer.  The same holds for the HTTP client and
    the update client: [rounds] bounds the attempts of one socket read or write,
    [fuel] the pieces of a body, of headers and of a download, [depth] the
    nesting of the message callback.

    ** What is not modelled

    - The TLS port, the certificates, the operating system port (but for
      [HalDevice]), the samples and the tools: bindings and data.
    - Of the parts modelled: the progress bar of the update client.  What
      [printf] and [scanf] do with floating-point numbers is a parameter.
    - Concurrency: the client is used by one thread; locks are counted, so
      that balance and nesting are visible, but no interleaving is modelled.
    - Logging and the strings printed. *)

From Stdlib Require Export ZArith Lia.
From stdpp Require Export strings base tactics numbers option gmap list.
From Stdlib Require Strings.String Strings.Ascii.

#[export] Set Warnings "-clear-no-such-hyp".
Open Scope Z_scope.

(* ================================================================== *)
(** ** Machine integers *)

(** [lia] decides the wrap-arounds below once [mod] and [div] are turned into
    their Euclidean equations. *)
Ltac zmod := Z.div_mod_to_equations; lia.

(** Unsigned 8, 16 and 32-bit wrap-around ([uint8_t], [uint16_t], [uint32_t]
    and [size_t] of the ILP32 targets) and the two's complement [int]. *)
Definition u8 (z : Z) : Z := z mod 256.
Definition u16 (z : Z) : Z := z mod 65536.
Definition u32 (z : Z) : Z := z mod 4294967296.
Definition s32 (z : Z) : Z := (z + 2147483648) mod 4294967296 - 2147483648.

Lemma u8_range z : 0 <= u8 z < 256.
Proof. unfold u8. zmod. Qed.
Lemma u16_range z : 0 <= u16 z < 65536.
Proof. unfold u16. zmod. Qed.
Lemma u32_range z : 0 <= u32 z < 4294967296.
Proof. unfold u32. zmod. Qed.
Lemma s32_range z : -2147483648 <= s32 z < 2147483648.
Proof. unfold s32. zmod. Qed.
Lemma u8_small z : 0 <= z < 256 -> u8 z = z.
Proof. apply Z.mod_small. Qed.
Lemma u16_small z : 0 <= z < 65536 -> u16 z = z.
Proof. apply Z.mod_small. Qed.
Lemma u32_small z : 0 <= z < 4294967296 -> u32 z = z.
Proof. apply Z.mod_small. Qed.
Lemma s32_small z : -2147483648 <= z < 2147483648 -> s32 z = z.
Proof. intros. unfold s32. rewrite Z.mod_small; lia. Qed.

(** Remove the wrap-arounds that [lia] can show to be the identity, innermost
    ones first. *)
Ltac wrapped x :=
  match x with context [u8 _] => idtac | context [u16 _] => idtac
  | context [u32 _] => idtac | context [s32 _] => idtac end.
Ltac unwrap :=
  repeat match goal with
  | |- context [u8 ?x] => tryif wrapped x then fail else rewrite (u8_small x) by lia
  | |- context [u16 ?x] => tryif wrapped x then fail else rewrite (u16_small x) by lia
  | |- context [u32 ?x] => tryif wrapped x then fail else rewrite (u32_small x) by lia
  | |- context [s32 ?x] => tryif wrapped x then fail else rewrite (s32_small x) by lia
  end.

(** A byte, and a string of bytes ([unsigned char] arrays and C strings; a C
    string is listed without its terminating 0). *)
Abbreviation bytes := (list Z).
Definition byte (b : Z) : Prop := 0 <= b < 256.
Definition cchar (b : Z) : Prop := 0 < b < 256.

#[export] Instance byte_dec b : Decision (byte b).
Proof. unfold byte. apply _. Defined.
#[export] Instance cchar_dec b : Decision (cchar b).
Proof. unfold cchar. apply _. Defined.

(** Bytes of an ASCII literal. *)
Fixpoint bytes_of (s : String.string) : bytes :=
  match s with
  | String.EmptyString => []
  | String.String c s' => Z.of_N (Ascii.N_of_ascii c) :: bytes_of s'
  end.
Arguments bytes_of s%_string.

Abbreviation zlen l := (Z.of_nat (length l)).

Declare Scope uiot_scope.
Delimit Scope uiot_scope with uiot.
Infix "&&&" := Z.land (at level 40, left associativity) : uiot_scope.
Infix "|||" := Z.lor (at level 50, left associativity) : uiot_scope.
Infix "^^^" := Z.lxor (at level 45, left associativity) : uiot_scope.
Infix ">>>" := Z.shiftr (at level 30, no associativity) : uiot_scope.
Infix "<<<" := Z.shiftl (at level 30, no associativity) : uiot_scope.
Open Scope uiot_scope.

Lemma byte_u8 z : byte (u8 z).
Proof. apply u8_range. Qed.
Lemma land_255 z : z &&& 255 = z mod 256.
Proof. apply (Z.land_ones z 8). lia. Qed.

(** A boolean property of bytes holds when it evaluates to [true] on each of
    the 256 of them: bit-level facts about header bytes are decided so. *)
Lemma forall_byte (P : Z -> bool) :
  forallb P (Z.of_nat <$> seq 0 256) = true -> forall b, byte b -> P b = true.
Proof.
  intros H b Hb. rewrite forallb_forall in H. apply H.
  apply list_elem_of_In, list_elem_of_fmap. exists (Z.to_nat b).
  unfold byte in Hb. rewrite elem_of_seq. lia.
Qed.

Ltac byte_decide :=
  match goal with
  | |- forall b, byte b -> @?P b = true => apply (forall_byte P); vm_compute; reflexivity
  end.

(* ================================================================== *)
(** ** Results of fallible code *)

(** What a C function that works on buffers does: it returns a value, it
    returns an error code of [IoT_Error_t], or it touches memory outside the
    object it was given, which is undefined behaviour. *)
Inductive res (A : Type) : Type :=
  | Ok (a : A)
  | Err (code : Z)
  | Oob.
Arguments Ok {A} a.
Arguments Err {A} code.
Arguments Oob {A}.

#[export] Instance res_ret : MRet res := fun A a => Ok a.
#[export] Instance res_bind : MBind res := fun A B f m =>
  match m with Ok a => f a | Err c => Err c | Oob => Oob end.
#[export] Instance res_fmap : FMap res := fun A B f m =>
  match m with Ok a => Ok (f a) | Err c => Err c | Oob => Oob end.

#[export] Instance res_eq_dec `{EqDecision A} : EqDecision (res A).
Proof. solve_decision. Defined.

Local Ltac res_split :=
  split; intros;
  repeat match goal with
  | H : _ \/ _ |- _ => destruct H
  | H : exists _, _ |- _ => destruct H as (? & ? & ?)
  end; try discriminate; try congruence; eauto; left; congruence.

Lemma res_bind_ok {A B} (m : res A) (f : A -> res B) b :
  (m ≫= f) = Ok b <-> exists a, m = Ok a /\ f a = Ok b.
Proof. destruct m; cbn; res_split. Qed.
Lemma res_bind_err {A B} (m : res A) (f : A -> res B) c :
  (m ≫= f) = Err c <-> m = Err c \/ exists a, m = Ok a /\ f a = Err c.
Proof. destruct m; cbn; res_split. Qed.
Lemma res_bind_oob {A B} (m : res A) (f : A -> res B) :
  (m ≫= f) = Oob <-> m = Oob \/ exists a, m = Ok a /\ f a = Oob.
Proof. destruct m; cbn; res_split. Qed.

(** [guard_err c code k]: [if (c) return code;] and go on with [k]. *)
Definition guard_err {A} (c : bool) (code : Z) (k : res A) : res A :=
  if c then Err code else k.
Notation "'err_if' c 'code' e ; k" := (guard_err c e k)
  (at level 20, c at level 100, e at level 100, k at level 200,
   format "'err_if'  c  'code'  e ;  '//' k") : uiot_scope.

(** Split a run of a fallible function into the runs of its steps. *)
Ltac res_inv :=
  repeat match goal with
  | H : (?m ≫= _) = Ok _ |- _ =>
      apply res_bind_ok in H; destruct H as (? & ? & H)
  | H : Ok _ = Ok _ |- _ => injection H as H; try subst
  | H : Ok _ = Err _ |- _ => discriminate H
  | H : Err _ = Ok _ |- _ => discriminate H
  | H : Oob = Ok _ |- _ => discriminate H
  | H : guard_err ?c _ _ = Ok _ |- _ =>
      unfold guard_err in H; destruct c eqn:?; [discriminate H|]
  | H : mret _ = Ok _ |- _ => injection H as H; try subst
  | x : (_ * _)%type |- _ => destruct x; cbn [fst snd] in *
  end.

(* ================================================================== *)
(** ** Buffers *)

(** Reading and writing an array at an index or a range of indexes. *)
Definition get_at (b : bytes) (i : Z) : res Z :=
  if decide (0 <= i) then
    match b !! Z.to_nat i with Some v => Ok v | None => Oob end
  else Oob.

Definition slice_at (b : bytes) (i n : Z) : res bytes :=
  if decide (0 <= i /\ 0 <= n /\ i + n <= zlen b)
  then Ok (take (Z.to_nat n) (drop (Z.to_nat i) b)) else Oob.

Definition write_at (b : bytes) (i : Z) (src : bytes) : res bytes :=
  if decide (0 <= i /\ i + zlen src <= zlen b)
  then Ok (take (Z.to_nat i) b ++ src ++ drop (Z.to_nat i + length src) b)
  else Oob.

#[global] Arguments get_at : simpl never.
#[global] Arguments slice_at : simpl never.
#[global] Arguments write_at : simpl never.

Lemma get_at_ok b i v :
  get_at b i = Ok v <-> 0 <= i /\ b !! Z.to_nat i = Some v.
Proof. unfold get_at. case_decide; [destruct (b !! _)|]; naive_solver. Qed.

Lemma get_at_in b i :
  0 <= i < zlen b -> exists v, get_at b i = Ok v.
Proof.
  intros H. destruct (lookup_lt_is_Some_2 b (Z.to_nat i)) as [v Hv]; [lia|].
  exists v. apply get_at_ok. split; [lia|done].
Qed.

Lemma get_at_off (pre l : bytes) p i :
  p = zlen pre + i -> 0 <= i -> get_at (pre ++ l) p = get_at l i.
Proof.
  intros -> Hi. unfold get_at. rewrite !decide_True by lia.
  rewrite lookup_app_r by lia.
  by replace (Z.to_nat (zlen pre + i) - length pre)%nat with (Z.to_nat i) by lia.
Qed.

Lemma get_at_oob b i : get_at b i = Oob <-> ~ (0 <= i < zlen b).
Proof.
  split.
  - intros H Hi. destruct (get_at_in b i Hi). congruence.
  - intros H. unfold get_at. case_decide; [|done].
    destruct (b !! _) eqn:E; [apply lookup_lt_Some in E; lia|done].
Qed.

Lemma get_at_byte b i v : Forall byte b -> get_at b i = Ok v -> byte v.
Proof.
  intros Hb [_ H]%get_at_ok. by eapply Forall_lookup_1 in H.
Qed.

Lemma slice_at_ok b i n r :
  slice_at b i n = Ok r <->
  0 <= i /\ 0 <= n /\ i + n <= zlen b /\ r = take (Z.to_nat n) (drop (Z.to_nat i) b).
Proof. unfold slice_at. case_decide; naive_solver. Qed.

Lemma slice_at_len b i n r : slice_at b i n = Ok r -> zlen r = n.
Proof.
  intros (?&?&?&->)%slice_at_ok. rewrite length_take, length_drop. lia.
Qed.

Lemma slice_at_byte b i n r : Forall byte b -> slice_at b i n = Ok r -> Forall byte r.
Proof. intros ? (?&?&?&->)%slice_at_ok. by apply Forall_take, Forall_drop. Qed.

Lemma write_at_ok b i src r :
  write_at b i src = Ok r <->
  0 <= i /\ i + zlen src <= zlen b /\
  r = take (Z.to_nat i) b ++ src ++ drop (Z.to_nat i + length src) b.
Proof. unfold write_at. case_decide; naive_solver. Qed.

Lemma write_at_not_err b i src c : write_at b i src <> Err c.
Proof. unfold write_at. by case_decide. Qed.

Lemma write_at_len b i src r : write_at b i src = Ok r -> length r = length b.
Proof.
  intros (?&?&->)%write_at_ok.
  rewrite !length_app, length_take, length_drop. lia.
Qed.

Lemma write_at_byte b i src r :
  Forall byte b -> Forall byte src -> write_at b i src = Ok r -> Forall byte r.
Proof.
  intros ?? (?&?&->)%write_at_ok.
  rewrite !Forall_app. auto using Forall_take, Forall_drop.
Qed.

(** Two adjacent writes are one write. *)
Lemma write_at_app b i s1 s2 :
  0 <= i ->
  (b1 ← write_at b i s1; write_at b1 (i + zlen s1) s2) =
  if decide (i + zlen s1 <= zlen b) then write_at b i (s1 ++ s2) else Oob.
Proof.
  intros Hi. unfold write_at at 2. case_decide as H1; cbn.
  2: { case_decide; [lia|done]. }
  rewrite decide_True by lia. unfold write_at.
  rewrite !length_app, length_take, length_drop.
  case_decide as H2; case_decide as H3; try lia; [|done].
  f_equal. destruct H1 as [_ H1], H2 as [_ H2].
  assert (Hlt : length (take (Z.to_nat i) b) = Z.to_nat i)
    by (rewrite length_take; lia).
  replace (Z.to_nat (i + zlen s1)) with (Z.to_nat i + length s1)%nat by lia.
  assert (Ht : take (Z.to_nat i + length s1)
    (take (Z.to_nat i) b ++ s1 ++ drop (Z.to_nat i + length s1) b)
    = take (Z.to_nat i) b ++ s1).
  { rewrite app_assoc. apply take_app_length'. rewrite length_app. lia. }
  rewrite Ht, <- !app_assoc. do 2 f_equal. f_equal.
  rewrite app_assoc, drop_app_ge by (rewrite length_app; lia).
  rewrite drop_drop. f_equal. rewrite length_app. lia.
Qed.

(** What was written can be read back. *)
Lemma slice_at_write_at b i src r :
  write_at b i src = Ok r -> slice_at r i (zlen src) = Ok src.
Proof.
  intros (?&?&->)%write_at_ok. apply slice_at_ok.
  rewrite !length_app, length_take, length_drop.
  split_and!; [lia..|].
  rewrite drop_app_length' by (rewrite length_take; lia).
  rewrite take_app_length'; [done|lia].
Qed.

(** C strings in a buffer: [strlen] runs to the first 0 byte. *)
Fixpoint cstr (b : bytes) : option bytes :=
  match b with
  | [] => None
  | c :: b' => if decide (c = 0) then Some [] else cons c <$> cstr b'
  end.

Lemma cstr_text t junk : Forall (fun c => c <> 0) t -> cstr (t ++ 0 :: junk) = Some t.
Proof. induction 1 as [|c t Hc _ IH]; cbn; [done|]. by rewrite decide_False, IH. Qed.
Lemma cstr_app s b : Forall cchar s -> cstr (s ++ 0 :: b) = Some s.
Proof.
  induction 1 as [|c s Hc _ IH]; cbn; [done|].
  unfold cchar in Hc. rewrite decide_False by lia. by rewrite IH.
Qed.

Lemma cstr_spec b s : cstr b = Some s -> exists r, b = s ++ 0 :: r /\ Forall (fun c => c <> 0) s.
Proof.
  revert s. induction b as [|c b IH]; intros s; cbn; [done|].
  case_decide as Hc.
  - intros [= <-]. subst. by exists b.
  - destruct (cstr b) as [s'|]; cbn; [|done]. intros [= <-].
    destruct (IH s' eq_refl) as (r & -> & Hs). exists r. auto.
Qed.

(** Decide a closed proposition by evaluation. *)
Ltac by_eval := apply (bool_decide_unpack _); vm_compute; exact I.

Create HintDb uiot.
Create Rewrite HintDb uiot_width.
#[export] Hint Resolve byte_u8 u8_range u16_range u32_range write_at_byte
  slice_at_byte get_at_byte : uiot.
#[export] Hint Rewrite u8_small u16_small u32_small s32_small
  using (unfold byte in *; lia) : uiot_width.
