(* ===== verification/Defs.v ===== *)
(** Constants and enumerations of [uiot/sdk-impl/uiot_defs.h],
    [uiot/sdk-impl/uiot_export_mqtt.h] and [uiot/mqtt/include/mqtt_client.h].

    Enumerations the C code casts to and from wire bytes ([MessageTypes],
    [QoS]) are kept as the integers they are; the ones that only name states
    are inductive types. *)

From S2P Require Import Prelude.

(** [IoT_Error_t] *)
Definition MQTT_ALREADY_CONNECTED := 4.
Definition MQTT_CONNECTION_ACCEPTED := 3.
Definition MQTT_MANUALLY_DISCONNECTED := 2.
Definition MQTT_RECONNECTED := 1.
Definition SUCCESS_RET := 0.
Definition FAILURE_RET := -1.
Definition ERR_PARAM_INVALID := -2.
Definition ERR_HTTP_CLOSED := -3.
Definition ERR_HTTP_UNKNOWN_ERROR := -4.
Definition ERR_HTTP_PROTOCOL_ERROR := -5.
Definition ERR_HTTP_UNRESOLVED_DNS := -6.
Definition ERR_HTTP_CONN_ERROR := -8.
Definition ERR_HTTP_AUTH_ERROR := -9.
Definition ERR_HTTP_NOT_FOUND := -10.
Definition ERR_HTTP_TIMEOUT := -11.
Definition ERR_MQTT_PUSH_TO_LIST_FAILED := -102.
Definition ERR_MQTT_NO_CONN := -103.
Definition ERR_MQTT_UNKNOWN_ERROR := -104.
Definition ERR_MQTT_ATTEMPTING_RECONNECT := -105.
Definition ERR_MQTT_RECONNECT_TIMEOUT := -106.
Definition ERR_MQTT_MAX_SUBSCRIPTIONS_REACHED := -107.
Definition ERR_MQTT_SUB_FAILED := -108.
Definition ERR_MQTT_NOTHING_TO_READ := -109.
Definition ERR_MQTT_PACKET_READ_ERROR := -110.
Definition ERR_MQTT_REQUEST_TIMEOUT := -111.
Definition ERR_MQTT_CONNACK_UNKNOWN := -112.
Definition ERR_MQTT_CONNACK_UNACCEPTABLE_PROTOCOL_VERSION := -113.
Definition ERR_MQTT_CONNACK_IDENTIFIER_REJECTED := -114.
Definition ERR_MQTT_CONNACK_SERVER_UNAVAILABLE := -115.
Definition ERR_MQTT_CONNACK_BAD_USERDATA := -116.
Definition ERR_MQTT_CONNACK_NOT_AUTHORIZED := -117.
Definition ERR_MQTT_RX_MESSAGE_PACKET_TYPE_INVALID := -118.
Definition ERR_MQTT_BUFFER_TOO_SHORT := -119.
Definition ERR_MQTT_QOS_NOT_SUPPORT := -120.
Definition ERR_MQTT_UNSUB_FAILED := -121.
Definition ERR_JSON_PARSE := -132.
Definition ERR_JSON_BUFFER_TRUNCATED := -133.
Definition ERR_JSON_BUFFER_TOO_SMALL := -134.
Definition ERR_JSON := -135.
Definition ERR_MAX_APPENDING_REQUEST := -137.
Definition ERR_MAX_TOPIC_LENGTH := -138.
Definition ERR_SHADOW_PROPERTY_EXIST := -201.
Definition ERR_SHADOW_NOT_PROPERTY_EXIST := -202.
Definition ERR_OTA_GENERAL_FAILURE := -301.
Definition ERR_OTA_INVALID_PARAM := -302.
Definition ERR_OTA_INVALID_STATE := -303.
Definition ERR_OTA_STR_TOO_LONG := -304.
Definition ERR_OTA_FETCH_FAILED := -305.
Definition ERR_OTA_FILE_NOT_EXIST := -306.
Definition ERR_OTA_FETCH_AUTH_FAIL := -307.
Definition ERR_OTA_FETCH_TIMEOUT := -308.
Definition ERR_OTA_NO_MEMORY := -309.
Definition ERR_OTA_OSC_FAILED := -310.
Definition ERR_OTA_MD5_MISMATCH := -311.
Definition ERR_TCP_SOCKET_FAILED := -601.
Definition ERR_TCP_UNKNOWN_HOST := -602.
Definition ERR_TCP_CONNECT_FAILED := -603.
Definition ERR_TCP_READ_TIMEOUT := -604.
Definition ERR_TCP_WRITE_TIMEOUT := -605.
Definition ERR_TCP_READ_FAILED := -606.
Definition ERR_TCP_WRITE_FAILED := -607.
Definition ERR_TCP_PEER_SHUTDOWN := -608.
Definition ERR_TCP_NOTHING_TO_READ := -609.
Definition ERR_SSL_READ_TIMEOUT := -707.
Definition ERR_SSL_READ_FAILED := -708.
Definition ERR_SSL_NOTHING_TO_READ := -709.

(** Sizes and limits *)
Definition UIOT_MQTT_TX_BUF_LEN := 2048.
Definition UIOT_MQTT_RX_BUF_LEN := 2048.
Definition UIOT_MQTT_MAX_REMAIN_WAIT_MS := 2000.
Definition MAX_RECONNECT_WAIT_INTERVAL := 60000.
Definition MAX_PACKET_ID := 65535.
Definition MAX_SUB_TOPICS : nat := 10.
Definition MAX_REPUB_NUM := 20.
Definition MIN_RECONNECT_WAIT_INTERVAL := 1000.
Definition MIN_COMMAND_TIMEOUT := 500.
Definition MAX_COMMAND_TIMEOUT := 5000.
Definition MAX_SIZE_OF_CLOUD_TOPIC := 128.
Definition MAX_NO_OF_REMAINING_LENGTH_BYTES : nat := 4.
Definition MQTT_PING_RETRY_TIMES := 2.

(** [MessageTypes] *)
Definition RESERVED := 0.
Definition CONNECT := 1.
Definition CONNACK := 2.
Definition PUBLISH := 3.
Definition PUBACK := 4.
Definition PUBREC := 5.
Definition PUBREL := 6.
Definition PUBCOMP := 7.
Definition SUBSCRIBE := 8.
Definition SUBACK := 9.
Definition UNSUBSCRIBE := 10.
Definition UNSUBACK := 11.
Definition PINGREQ := 12.
Definition PINGRESP := 13.
Definition DISCONNECT := 14.

(** [QoS] *)
Definition QOS0 := 0.
Definition QOS1 := 1.
Definition QOS2 := 2.

Inductive ConnStatus := DISCONNECTED | CONNECTED.
Inductive MQTTNodeState := MQTT_NODE_STATE_NORMAL | MQTT_NODE_STATE_INVALID.

Inductive MQTTEventType :=
  | MQTT_EVENT_UNDEF
  | MQTT_EVENT_DISCONNECT
  | MQTT_EVENT_RECONNECT
  | MQTT_EVENT_SUBSCRIBE_SUCCESS
  | MQTT_EVENT_SUBSCRIBE_TIMEOUT
  | MQTT_EVENT_SUBSCRIBE_NACK
  | MQTT_EVENT_UNSUBSCRIBE_SUCCESS
  | MQTT_EVENT_UNSUBSCRIBE_TIMEOUT
  | MQTT_EVENT_UNSUBSCRIBE_NACK
  | MQTT_EVENT_PUBLISH_SUCCESS
  | MQTT_EVENT_PUBLISH_TIMEOUT
  | MQTT_EVENT_PUBLISH_NACK
  | MQTT_EVENT_PUBLISH_RECEIVED.

#[export] Instance ConnStatus_eq_dec : EqDecision ConnStatus.
Proof. solve_decision. Defined.
#[export] Instance MQTTNodeState_eq_dec : EqDecision MQTTNodeState.
Proof. solve_decision. Defined.
#[export] Instance MQTTEventType_eq_dec : EqDecision MQTTEventType.
Proof. solve_decision. Defined.
