(* ===== verification/LinkedList.v ===== *)
(** The doubly-linked list of [uiot/utils/utils_list.c].

    The C operations are modelled on a heap of nodes with their real pointer
    updates; a dangling or NULL dereference is [None].  [repr] relates a list
    header and the heap to the sequence of (node, value) pairs it stands for,
    and every operation is shown to refine an operation on that sequence.  The
    MQTT client is written against the sequence operations. *)

From S2P Require Import Prelude.

Module Linked.

Section linked_list.
Context {V : Type} `{EqDecision V}.

(* ------------------------------------------------------------------ *)
(** ** Data *)

Inductive ListDirection := LIST_HEAD | LIST_TAIL.

Record ListNode := mkListNode { prev : option positive; next : option positive; val : V }.

(** [free] and [match] are the callbacks of the list: [freed] of the memory
    below records the calls of [free]. *)
Record List := mkList {
  head : option positive;
  tail : option positive;
  len : Z;
  free : bool;
  match_ : option (V -> V -> bool)
}.

Record ListIterator := mkListIterator { it_next : option positive; direction : ListDirection }.

(** The nodes that are allocated, and the values given to [free] so far. *)
Record mem := mkMem { nodes : gmap positive ListNode; freed : list V }.

(* ------------------------------------------------------------------ *)
(** ** Memory accesses *)

Definition deref (m : mem) (p : option positive) : option (positive * ListNode) :=
  q ← p; n ← nodes m !! q; Some (q, n).

Definition upd (f : ListNode -> ListNode) (p : option positive) (m : mem) : option mem :=
  '(q, n) ← deref m p; Some (mkMem (<[q := f n]> (nodes m)) (freed m)).

Definition set_prev (x : option positive) (n : ListNode) := mkListNode x (next n) (val n).
Definition set_next (x : option positive) (n : ListNode) := mkListNode (prev n) x (val n).
Definition set_ends (h t : option positive) (l : List) :=
  mkList h t (len l) (free l) (match_ l).
Definition set_len (z : Z) (l : List) := mkList (head l) (tail l) z (free l) (match_ l).

(** [HAL_Free(node)] and [self->free(val)]. *)
Definition free_node (p : positive) (m : mem) : option mem :=
  _ ← nodes m !! p; Some (mkMem (delete p (nodes m)) (freed m)).
Definition free_val (self : List) (v : V) (m : mem) : mem :=
  if free self then mkMem (nodes m) (freed m ++ [v]) else m.

(* ------------------------------------------------------------------ *)
(** ** Operations

    Allocation is an argument: the address [HAL_Malloc] returned, or [None]. *)

Definition list_new (self : option positive) : option List :=
  match self with
  | None => None
  | Some _ => Some (mkList None None 0 false None)
  end.

Definition list_node_new (p : option positive) (v : V) (m : mem) : mem * option positive :=
  match p with
  | None => (m, None)
  | Some p => (mkMem (<[p := mkListNode None None v]> (nodes m)) (freed m), Some p)
  end.

Definition list_rpush (self : List) (node : option positive) (m : mem)
  : option (mem * List * option positive) :=
  match node with
  | None => Some (m, self, None)
  | Some n =>
      '(m, self) ←
        (if decide (len self <> 0) then
           m ← upd (set_prev (tail self)) (Some n) m;
           m ← upd (set_next None) (Some n) m;
           m ← upd (set_next (Some n)) (tail self) m;
           Some (m, set_ends (head self) (Some n) self)
         else
           m ← upd (set_next None) (Some n) m;
           m ← upd (set_prev None) (Some n) m;
           Some (m, set_ends (Some n) (Some n) self));
      Some (m, set_len (u32 (len self + 1)) self, Some n)
  end.

Definition list_lpush (self : List) (node : option positive) (m : mem)
  : option (mem * List * option positive) :=
  match node with
  | None => Some (m, self, None)
  | Some n =>
      '(m, self) ←
        (if decide (len self <> 0) then
           m ← upd (set_next (head self)) (Some n) m;
           m ← upd (set_prev None) (Some n) m;
           m ← upd (set_prev (Some n)) (head self) m;
           Some (m, set_ends (Some n) (tail self) self)
         else
           m ← upd (set_next None) (Some n) m;
           m ← upd (set_prev None) (Some n) m;
           Some (m, set_ends (Some n) (Some n) self));
      Some (m, set_len (u32 (len self + 1)) self, Some n)
  end.

Definition list_rpop (self : List) (m : mem) : option (mem * List * option positive) :=
  if decide (len self = 0) then Some (m, self, None)
  else
    let node := tail self in
    let self := set_len (u32 (len self - 1)) self in
    '(m, self) ←
      (if decide (len self <> 0) then
         '(_, n) ← deref m node;
         let self := set_ends (head self) (prev n) self in
         m ← upd (set_next None) (tail self) m;
         Some (m, self)
       else Some (m, set_ends None None self));
    m ← upd (set_prev None) node m;
    m ← upd (set_next None) node m;
    Some (m, self, node).

Definition list_lpop (self : List) (m : mem) : option (mem * List * option positive) :=
  if decide (len self = 0) then Some (m, self, None)
  else
    let node := head self in
    let self := set_len (u32 (len self - 1)) self in
    '(m, self) ←
      (if decide (len self <> 0) then
         '(_, n) ← deref m node;
         let self := set_ends (next n) (tail self) self in
         m ← upd (set_prev None) (head self) m;
         Some (m, self)
       else Some (m, set_ends None None self));
    m ← upd (set_prev None) node m;
    m ← upd (set_next None) node m;
    Some (m, self, node).

Definition list_remove (self : List) (node : positive) (m : mem) : option (mem * List) :=
  n ← nodes m !! node;
  '(m, self) ←
    (match prev n with
     | Some _ => m ← upd (set_next (next n)) (prev n) m; Some (m, self)
     | None => Some (m, set_ends (next n) (tail self) self)
     end);
  n ← nodes m !! node;
  '(m, self) ←
    (match next n with
     | Some _ => m ← upd (set_prev (prev n)) (next n) m; Some (m, self)
     | None => Some (m, set_ends (head self) (prev n) self)
     end);
  n ← nodes m !! node;
  let m := free_val self (val n) m in
  m ← free_node node m;
  Some (m, set_len (u32 (len self - 1)) self).

Definition list_iterator_new_from_node (alloc : bool) (node : option positive)
    (d : ListDirection) : option ListIterator :=
  if alloc then Some (mkListIterator node d) else None.

Definition list_iterator_new (alloc : bool) (l : List) (d : ListDirection)
  : option ListIterator :=
  let node := match d with LIST_HEAD => head l | LIST_TAIL => tail l end in
  list_iterator_new_from_node alloc node d.

(** Returns the current node; the outer [option] is a bad dereference. *)
Definition list_iterator_next (self : ListIterator) (m : mem)
  : option (ListIterator * option positive) :=
  match it_next self with
  | None => Some (self, None)
  | Some c =>
      n ← nodes m !! c;
      Some (mkListIterator
              (match direction self with LIST_HEAD => next n | LIST_TAIL => prev n end)
              (direction self), Some c)
  end.

(** The loop of [list_find], and [list_find] with as much fuel as needed. *)
Fixpoint list_find_loop (fuel : nat) (self : List) (v : V) (it : ListIterator)
    (node : option positive) (m : mem) : option (option positive) :=
  match fuel with
  | O => None
  | S fuel =>
      match node with
      | None => Some None
      | Some p =>
          n ← nodes m !! p;
          let hit := match match_ self with
                     | Some f => f v (val n)
                     | None => bool_decide (v = val n)
                     end in
          if hit : bool then Some (Some p)
          else
            '(it, node) ← list_iterator_next it m;
            list_find_loop fuel self v it node m
      end
  end.

Definition list_find (fuel : nat) (alloc : bool) (self : List) (v : V) (m : mem)
  : option (option positive) :=
  match list_iterator_new alloc self LIST_HEAD with
  | None => Some None
  | Some it =>
      '(it, node) ← list_iterator_next it m;
      list_find_loop fuel self v it node m
  end.

(** [while (index--) node = list_iterator_next(it);] *)
Fixpoint list_at_loop (index : nat) (it : ListIterator) (node : option positive) (m : mem)
  : option (option positive) :=
  match index with
  | O => Some node
  | S index =>
      '(it, node) ← list_iterator_next it m;
      list_at_loop index it node m
  end.

Definition list_at (alloc : bool) (self : List) (index : Z) (m : mem)
  : option (option positive) :=
  let '(d, index) :=
    if decide (index < 0) then (LIST_TAIL, Z.lnot index) else (LIST_HEAD, index) in
  if decide (u32 index < len self) then
    match list_iterator_new alloc self d with
    | None => Some None
    | Some it =>
        '(it, node) ← list_iterator_next it m;
        list_at_loop (Z.to_nat index) it node m
    end
  else Some None.

(** [while (len--) { ... }]: [len] is the loop counter of [list_destroy]. *)
Fixpoint list_destroy_loop (n : nat) (self : List) (curr : option positive) (m : mem)
  : option mem :=
  match n with
  | O => Some m
  | S n =>
      '(p, c) ← deref m curr;
      let nxt := next c in
      let m := free_val self (val c) m in
      m ← free_node p m;
      list_destroy_loop n self nxt m
  end.

Definition list_destroy (self : List) (m : mem) : option mem :=
  list_destroy_loop (Z.to_nat (len self)) self (head self) m.

(* ------------------------------------------------------------------ *)
(** ** The sequence a list stands for *)

Local Abbreviation seqv := (list (positive * V)).

(** [dseg h a hd lst b s]: from [hd] to [lst] the heap holds the nodes of [s],
    the first one pointing back to [a] and the last one forward to [b]. *)
Fixpoint dseg (h : gmap positive ListNode) (a hd lst b : option positive) (s : seqv) : Prop :=
  match s with
  | [] => hd = b /\ lst = a
  | (p, v) :: s =>
      hd = Some p /\ exists nx, h !! p = Some (mkListNode a nx v) /\ dseg h (Some p) nx lst b s
  end.

Definition ids (s : seqv) : list positive := s.*1.

Definition repr (l : List) (m : mem) (s : seqv) : Prop :=
  dseg (nodes m) None (head l) (tail l) None s /\
  NoDup (ids s) /\ len l = zlen s /\ zlen s < 4294967296.

(** The operations on sequences that the list operations implement. *)
Definition seq_remove (p : positive) (s : seqv) : seqv := filter (fun x => x.1 <> p) s.
Definition seq_find (hit : V -> bool) (s : seqv) : option positive :=
  fst <$> List.find (fun x => hit x.2) s.
Definition seq_at (i : Z) (s : seqv) : option positive :=
  fst <$> (if decide (i < 0) then reverse s !! Z.to_nat (Z.lnot i) else s !! Z.to_nat i).
(** The order in which an iterator yields the nodes. *)
Definition seq_dir (d : ListDirection) (s : seqv) : seqv :=
  match d with LIST_HEAD => s | LIST_TAIL => reverse s end.

Implicit Types (h : gmap positive ListNode) (s : seqv) (l : List) (m : mem) (p : positive).

Lemma dseg_app h a hd lst b s1 s2 :
  dseg h a hd lst b (s1 ++ s2) <->
  exists lst1 hd2, dseg h a hd lst1 hd2 s1 /\ dseg h lst1 hd2 lst b s2.
Proof.
  revert a hd. induction s1 as [|[p v] s1 IH]; intros a hd; cbn.
  - split; [intros; exists a, hd; done|]. by intros (?&?&[-> ->]&?).
  - split.
    + intros (-> & nx & Hp & (?&?&?&?)%IH). naive_solver.
    + intros (?&?&(-> & nx & Hp & ?)&?). split; [done|]. exists nx. rewrite IH. eauto.
Qed.

(** Writing to, adding or freeing a node outside a segment leaves it alone. *)
Lemma dseg_frame h h' a hd lst b s :
  (forall p, p ∈ ids s -> h' !! p = h !! p) ->
  dseg h a hd lst b s -> dseg h' a hd lst b s.
Proof.
  revert a hd. induction s as [|[p v] s IH]; intros a hd Hh; cbn; [done|].
  intros (-> & nx & Hp & Hs). split; [done|]. exists nx. split.
  - rewrite Hh; [done|]. cbn. left.
  - apply IH; [|done]. intros q Hq. apply Hh. cbn. by right.
Qed.

Lemma dseg_insert h p n a hd lst b s :
  p ∉ ids s -> dseg h a hd lst b s -> dseg (<[p := n]> h) a hd lst b s.
Proof.
  intros Hp. apply dseg_frame. intros q Hq. apply lookup_insert_ne. by intros ->.
Qed.

Lemma dseg_delete h p a hd lst b s :
  p ∉ ids s -> dseg h a hd lst b s -> dseg (delete p h) a hd lst b s.
Proof.
  intros Hp. apply dseg_frame. intros q Hq. apply lookup_delete_ne. by intros ->.
Qed.

(** The end pointers of a segment are its outer neighbours or nodes of it. *)
Lemma dseg_head h a hd lst b s :
  dseg h a hd lst b s -> hd = match s with [] => b | x :: _ => Some x.1 end.
Proof. destruct s as [|[p v] s]; cbn; naive_solver. Qed.

Lemma dseg_snoc h a hd lst b s p v :
  dseg h a hd lst b (s ++ [(p, v)]) <->
  lst = Some p /\ exists q, h !! p = Some (mkListNode q b v) /\ dseg h a hd q (Some p) s.
Proof.
  rewrite dseg_app. cbn. naive_solver.
Qed.

Lemma dseg_last h a hd lst b s :
  dseg h a hd lst b s -> lst = match last s with None => a | Some x => Some x.1 end.
Proof.
  destruct s as [|[p v] s _] using rev_ind.
  - by intros [_ ->].
  - rewrite dseg_snoc, last_snoc. by intros [-> _].
Qed.

(** Changing the outer neighbour that the last, or first, node points to. *)
Lemma dseg_set_next h a hd p b b' s v n :
  NoDup (ids (s ++ [(p, v)])) ->
  dseg h a hd (Some p) b (s ++ [(p, v)]) -> h !! p = Some n ->
  dseg (<[p := set_next b' n]> h) a hd (Some p) b' (s ++ [(p, v)]).
Proof.
  unfold ids. rewrite fmap_app, NoDup_app. intros (_ & Hd & _) [_ (q & Hp & Hs)]%dseg_snoc Hn.
  rewrite Hp in Hn. injection Hn as <-. apply dseg_snoc. split; [done|].
  exists q. rewrite lookup_insert_eq. split; [done|]. apply dseg_insert; [|done].
  intros Hi. apply (Hd p Hi). cbn. left.
Qed.

Lemma dseg_set_prev h a a' p lst b s v n :
  NoDup (ids ((p, v) :: s)) ->
  dseg h a (Some p) lst b ((p, v) :: s) -> h !! p = Some n ->
  dseg (<[p := set_prev a' n]> h) a' (Some p) lst b ((p, v) :: s).
Proof.
  cbn. rewrite NoDup_cons. intros [Hd _] [_ (nx & Hp & Hs)] Hn.
  rewrite Hp in Hn. injection Hn as <-. split; [done|].
  exists nx. rewrite lookup_insert_eq. split; [done|]. by apply dseg_insert.
Qed.

Lemma dseg_lookup h a hd lst b s p v :
  dseg h a hd lst b s -> (p, v) ∈ s -> exists n, h !! p = Some n /\ val n = v.
Proof.
  intros Hd (s1 & s2 & ->)%list_elem_of_split.
  apply dseg_app in Hd as (?&?&_&Hd). cbn in Hd. destruct Hd as (_ & nx & Hp & _). eauto.
Qed.

Lemma ids_app s1 s2 : ids (s1 ++ s2) = ids s1 ++ ids s2.
Proof. apply fmap_app. Qed.

(* ------------------------------------------------------------------ *)
(** ** The operations refine the sequence operations *)

(** An operation keeps the callbacks of the list and every node outside it. *)
Definition same_calls (l l' : List) : Prop := free l' = free l /\ match_ l' = match_ l.
Definition frames (m m' : mem) (touched : list positive) : Prop :=
  forall q, q ∉ touched -> nodes m' !! q = nodes m !! q.

Local Arguments upd : simpl never.
Local Arguments deref : simpl never.

Lemma upd_some f p m n :
  nodes m !! p = Some n -> upd f (Some p) m = Some (mkMem (<[p := f n]> (nodes m)) (freed m)).
Proof. intros H. unfold upd, deref. cbn. by rewrite H. Qed.

Lemma repr_len l m s : repr l m s -> len l = zlen s.
Proof. by intros (_&_&?&_). Qed.

(** Both ends of the push and pop operations, on segments: the new node is
    linked after the last one (before the first one). *)
Lemma dseg_push_back h hd lst s p v n q vq :
  NoDup (ids (s ++ [(q, vq)])) -> p ∉ ids (s ++ [(q, vq)]) ->
  dseg h None hd lst None (s ++ [(q, vq)]) -> h !! q = Some n ->
  h !! p = Some (mkListNode (Some q) None v) ->
  dseg (<[q := set_next (Some p) n]> h) None hd (Some p) None ((s ++ [(q, vq)]) ++ [(p, v)]).
Proof.
  intros Hnd Hp Hs Hq Hpn. apply dseg_snoc. split; [done|]. exists (Some q). split.
  - rewrite lookup_insert_ne; [done|]. intros ->. apply Hp. rewrite ids_app. set_solver.
  - assert (lst = Some q) as -> by (by apply dseg_snoc in Hs as [-> _]).
    by eapply dseg_set_next.
Qed.

Lemma dseg_push_front h hd lst s p v n q vq :
  NoDup (ids ((q, vq) :: s)) -> p ∉ ids ((q, vq) :: s) ->
  dseg h None hd lst None ((q, vq) :: s) -> h !! q = Some n ->
  h !! p = Some (mkListNode None (Some q) v) ->
  dseg (<[q := set_prev (Some p) n]> h) None (Some p) lst None ((p, v) :: (q, vq) :: s).
Proof.
  intros Hnd Hp Hs Hq Hpn. assert (hd = Some q) as -> by (by destruct Hs).
  split; [done|]. exists (Some q). split.
  - rewrite lookup_insert_ne; [done|]. intros ->. apply Hp. cbn. left.
  - by eapply dseg_set_prev.
Qed.

Lemma list_rpush_spec l m s p n :
  repr l m s -> p ∉ ids s -> nodes m !! p = Some n -> zlen s + 1 < 4294967296 ->
  exists m' l', list_rpush l (Some p) m = Some (m', l', Some p) /\
    repr l' m' (s ++ [(p, val n)]) /\ same_calls l l' /\ freed m' = freed m /\
    frames m m' (p :: ids s).
Proof.
  intros (Hs & Hnd & Hlen & Hlt) Hp Hn Hlt'. unfold list_rpush.
  assert (NoDup (ids (s ++ [(p, val n)]))) as Hnd'.
  { rewrite ids_app. apply NoDup_app. split_and!; [done| |apply NoDup_singleton]. set_solver. }
  assert (Hrlen : u32 (len l + 1) = zlen (s ++ [(p, val n)])).
  { rewrite Hlen, u32_small, length_app; cbn; lia. }
  destruct s as [|[q vq] s _] using rev_ind.
  - destruct Hs as [Hh Ht]. rewrite decide_False by (cbn in Hlen; lia).
    erewrite upd_some by done. cbn. erewrite upd_some by apply lookup_insert_eq. cbn.
    do 2 eexists. split; [done|]. split_and!; try done.
    + split_and!; cbn; [|done|done|done].
      split; [done|]. exists None. by rewrite lookup_insert_eq.
    + intros r Hr. cbn. rewrite !lookup_insert_ne; set_solver.
  - rewrite decide_True by (rewrite Hlen, length_app; cbn; lia).
    assert (tail l = Some q) as Ht by (by apply dseg_snoc in Hs as [-> _]).
    destruct (dseg_lookup _ _ _ _ _ _ q vq Hs) as (nq & Hq & _); [set_solver|].
    assert (q <> p) as Hqp by (intros ->; apply Hp; rewrite ids_app; set_solver).
    rewrite Ht. erewrite upd_some by done. cbn. erewrite upd_some by apply lookup_insert_eq.
    cbn. erewrite upd_some by (cbn; by rewrite !lookup_insert_ne). cbn.
    do 2 eexists. split; [done|]. split_and!; try done.
    + split_and!; cbn; [|done|done|rewrite !length_app in *; cbn in *; lia].
      eapply (dseg_push_back _ (head l) (tail l)); try done.
      * rewrite insert_insert_eq. by apply dseg_insert.
      * by rewrite !lookup_insert_ne.
      * by rewrite insert_insert_eq, lookup_insert_eq.
    + intros r Hr. cbn. rewrite ids_app in Hr. rewrite !lookup_insert_ne; set_solver.
Qed.

Lemma list_lpush_spec l m s p n :
  repr l m s -> p ∉ ids s -> nodes m !! p = Some n -> zlen s + 1 < 4294967296 ->
  exists m' l', list_lpush l (Some p) m = Some (m', l', Some p) /\
    repr l' m' ((p, val n) :: s) /\ same_calls l l' /\ freed m' = freed m /\
    frames m m' (p :: ids s).
Proof.
  intros (Hs & Hnd & Hlen & Hlt) Hp Hn Hlt'. unfold list_lpush.
  assert (NoDup (ids ((p, val n) :: s))) as Hnd' by (cbn; by apply NoDup_cons).
  assert (Hrlen : u32 (len l + 1) = zlen ((p, val n) :: s)).
  { rewrite Hlen, u32_small; cbn; lia. }
  destruct s as [|[q vq] s].
  - destruct Hs as [Hh Ht]. rewrite decide_False by (cbn in Hlen; lia).
    erewrite upd_some by done. cbn. erewrite upd_some by apply lookup_insert_eq. cbn.
    do 2 eexists. split; [done|]. split_and!; try done.
    + split_and!; cbn; [|done|done|done].
      split; [done|]. exists None. by rewrite lookup_insert_eq.
    + intros r Hr. cbn. rewrite !lookup_insert_ne; set_solver.
  - rewrite decide_True by (rewrite Hlen; cbn; lia).
    assert (head l = Some q) as Hh by (by destruct Hs).
    destruct (dseg_lookup _ _ _ _ _ _ q vq Hs) as (nq & Hq & _); [set_solver|].
    assert (q <> p) as Hqp by (intros ->; apply Hp; cbn; set_solver).
    rewrite Hh. erewrite upd_some by done. cbn. erewrite upd_some by apply lookup_insert_eq.
    cbn. erewrite upd_some by (cbn; by rewrite !lookup_insert_ne). cbn.
    do 2 eexists. split; [done|]. split_and!; try done.
    + split_and!; cbn -[dseg]; [|done|done|cbn in *; lia].
      eapply (dseg_push_front _ (head l) (tail l)); try done.
      * rewrite insert_insert_eq. by apply dseg_insert.
      * by rewrite !lookup_insert_ne.
      * by rewrite insert_insert_eq, lookup_insert_eq.
    + intros r Hr. cbn. cbn in Hr. rewrite !lookup_insert_ne; set_solver.
Qed.

(** Pushing NULL changes nothing. *)
Lemma list_push_null l m :
  list_rpush l None m = Some (m, l, None) /\ list_lpush l None m = Some (m, l, None).
Proof. done. Qed.

Lemma NoDup_ids_snoc s p v : NoDup (ids (s ++ [(p, v)])) -> (p ∉ ids s) /\ NoDup (ids s).
Proof. rewrite ids_app, NoDup_app. cbn. set_solver. Qed.

(** A popped node is detached: both its links are NULL. *)
Lemma list_rpop_spec l m s p v :
  repr l m (s ++ [(p, v)]) ->
  exists m' l', list_rpop l m = Some (m', l', Some p) /\ repr l' m' s /\
    nodes m' !! p = Some (mkListNode None None v) /\ same_calls l l' /\
    freed m' = freed m /\ frames m m' (p :: ids s).
Proof.
  intros (Hs & Hnd & Hlen & Hlt).
  apply NoDup_ids_snoc in Hnd as [Hp Hnd]. rewrite length_app in Hlen, Hlt. cbn in Hlen, Hlt.
  unfold list_rpop. rewrite decide_False by lia.
  apply dseg_snoc in Hs as (Ht & q & Hpn & Hs). cbn [len set_len tail].
  rewrite Ht, Hlen, u32_small by lia.
  destruct s as [|[r vr] s _] using rev_ind.
  - rewrite decide_False by (cbn; lia). cbn.
    erewrite upd_some by done. cbn. erewrite upd_some by apply lookup_insert_eq. cbn.
    do 2 eexists. split; [done|]. destruct Hs as [Hh ->]. split_and!; try done.
    + cbn. by rewrite lookup_insert_eq.
    + intros x Hx. cbn. rewrite !lookup_insert_ne; set_solver.
  - rewrite decide_True by (rewrite length_app; cbn; lia).
    assert (q = Some r) as -> by (by apply dseg_snoc in Hs as [-> _]).
    destruct (dseg_lookup _ _ _ _ _ _ r vr Hs) as (nr & Hr & _); [set_solver|].
    assert (r <> p) as Hrp by (intros ->; apply Hp; rewrite ids_app; set_solver).
    unfold deref. cbn. rewrite Hpn. cbn. erewrite upd_some by done. cbn.
    erewrite upd_some by (cbn; by rewrite lookup_insert_ne). cbn.
    erewrite upd_some by apply lookup_insert_eq. cbn.
    do 2 eexists. split; [done|]. split_and!; try done.
    + split_and!; cbn; [|done|lia|lia]. rewrite insert_insert_eq. apply dseg_insert; [done|].
      by eapply dseg_set_next.
    + cbn. by rewrite lookup_insert_eq.
    + intros x Hx. cbn. rewrite ids_app in Hx. rewrite !lookup_insert_ne; set_solver.
Qed.

Lemma list_lpop_spec l m s p v :
  repr l m ((p, v) :: s) ->
  exists m' l', list_lpop l m = Some (m', l', Some p) /\ repr l' m' s /\
    nodes m' !! p = Some (mkListNode None None v) /\ same_calls l l' /\
    freed m' = freed m /\ frames m m' (p :: ids s).
Proof.
  intros (Hs & Hnd & Hlen & Hlt).
  cbn in Hnd. apply NoDup_cons in Hnd as [Hp Hnd]. cbn in Hlen, Hlt.
  unfold list_lpop. rewrite decide_False by lia.
  destruct Hs as (Hh & q & Hpn & Hs). cbn [len set_len head].
  rewrite Hh, Hlen, u32_small by lia.
  destruct s as [|[r vr] s].
  - rewrite decide_False by (cbn; lia). cbn.
    erewrite upd_some by done. cbn. erewrite upd_some by apply lookup_insert_eq. cbn.
    do 2 eexists. split; [done|]. destruct Hs as [-> Ht]. split_and!; try done.
    + cbn. by rewrite lookup_insert_eq.
    + intros x Hx. cbn. rewrite !lookup_insert_ne; set_solver.
  - rewrite decide_True by (cbn; lia).
    assert (q = Some r) as -> by (by destruct Hs).
    destruct (dseg_lookup _ _ _ _ _ _ r vr Hs) as (nr & Hr & _); [set_solver|].
    assert (r <> p) as Hrp by (intros ->; apply Hp; cbn; set_solver).
    unfold deref. cbn -[dseg]. rewrite Hpn. cbn -[dseg]. erewrite upd_some by done. cbn -[dseg].
    erewrite upd_some by (cbn; by rewrite lookup_insert_ne). cbn -[dseg].
    erewrite upd_some by apply lookup_insert_eq. cbn -[dseg].
    do 2 eexists. split; [done|]. split_and!; try done.
    + split_and!; cbn -[dseg]; [|done|cbn in *; lia|cbn in *; lia].
      rewrite insert_insert_eq. apply dseg_insert; [done|].
      by eapply dseg_set_prev.
    + cbn. by rewrite lookup_insert_eq.
    + intros x Hx. cbn. cbn in Hx. rewrite !lookup_insert_ne; set_solver.
Qed.

Lemma list_pop_empty l m :
  repr l m [] -> list_rpop l m = Some (m, l, None) /\ list_lpop l m = Some (m, l, None).
Proof.
  intros (_ & _ & Hlen & _). unfold list_rpop, list_lpop.
  rewrite !decide_True by (by rewrite Hlen). done.
Qed.

(** The two halves of [list_remove]: the neighbours of the removed node are
    linked to each other, or the end pointers of the header are moved. *)
Lemma unlink_left h hd q p nx s :
  dseg h None hd q (Some p) s -> NoDup (ids s) ->
  match q with
  | None => s = [] /\ hd = Some p
  | Some r => exists n, h !! r = Some n /\ r ∈ ids s /\
      dseg (<[r := set_next nx n]> h) None hd q nx s
  end.
Proof.
  intros Hs Hnd. destruct s as [|[r v] s _] using rev_ind.
  - by destruct Hs as [-> ->].
  - assert (q = Some r) as -> by (by apply dseg_snoc in Hs as [-> _]).
    destruct (dseg_lookup _ _ _ _ _ _ r v Hs) as (n & Hr & _); [set_solver|].
    exists n. split; [done|]. split; [rewrite ids_app; set_solver|].
    by eapply dseg_set_next.
Qed.

Lemma unlink_right h a lst p nx s :
  dseg h (Some p) nx lst None s -> NoDup (ids s) ->
  match nx with
  | None => s = [] /\ lst = Some p
  | Some r => exists n, h !! r = Some n /\ r ∈ ids s /\
      dseg (<[r := set_prev a n]> h) a nx lst None s
  end.
Proof.
  intros Hs Hnd. destruct s as [|[r v] s].
  - by destruct Hs as [-> ->].
  - assert (nx = Some r) as -> by (by destruct Hs).
    destruct (dseg_lookup _ _ _ _ _ _ r v Hs) as (n & Hr & _); [set_solver|].
    exists n. split; [done|]. split; [cbn; set_solver|].
    by eapply dseg_set_prev.
Qed.

Lemma free_val_nodes l v m : nodes (free_val l v m) = nodes m.
Proof. unfold free_val. by destruct (free l). Qed.
Lemma free_val_freed l v m :
  freed (free_val l v m) = freed m ++ (if free l then [v] else []).
Proof. unfold free_val. destruct (free l); cbn; [done|by rewrite app_nil_r]. Qed.

(** The first conditional expression of [list_remove], and the second one. *)
Lemma remove_left l m pv nx p s1 s2 :
  dseg (nodes m) None (head l) pv (Some p) s1 -> dseg (nodes m) (Some p) nx (tail l) None s2 ->
  NoDup (ids s1) -> p ∉ ids s1 -> (forall q, q ∈ ids s1 -> q ∉ ids s2) ->
  exists h hd, (match pv with
     | Some _ => m ← upd (set_next nx) pv m; Some (m, l)
     | None => Some (m, set_ends nx (tail l) l)
     end) = Some (mkMem h (freed m), set_ends hd (tail l) l) /\
    h !! p = nodes m !! p /\ dseg h None hd pv nx s1 /\ dseg h (Some p) nx (tail l) None s2 /\
    (forall q, q ∉ ids s1 -> h !! q = nodes m !! q).
Proof.
  intros Hs1 Hs2 Hnd Hp Hd. pose proof (unlink_left _ _ _ _ nx _ Hs1 Hnd) as Hu.
  destruct pv as [r|].
  - destruct Hu as (n & Hr & Hin & Hu). erewrite upd_some by done.
    exists (<[r := set_next nx n]> (nodes m)), (head l). split; [by destruct l|].
    split; [rewrite lookup_insert_ne; [done|]; by intros ->|]. split; [done|].
    split; [apply dseg_insert; auto|].
    intros q Hq. rewrite lookup_insert_ne; [done|]. by intros ->.
  - destruct Hu as [-> _]. exists (nodes m), nx. destruct m. by split_and!.
Qed.

Lemma remove_right l h f hd pv nx p s1 s2 :
  dseg h None hd pv nx s1 -> dseg h (Some p) nx (tail l) None s2 ->
  NoDup (ids s2) -> p ∉ ids s2 -> (forall q, q ∈ ids s1 -> q ∉ ids s2) ->
  exists h' tl, (match nx with
     | Some _ => m ← upd (set_prev pv) nx (mkMem h f); Some (m, set_ends hd (tail l) l)
     | None => Some (mkMem h f, set_ends hd pv l)
     end) = Some (mkMem h' f, set_ends hd tl l) /\
    h' !! p = h !! p /\ dseg h' None hd pv nx s1 /\ dseg h' pv nx tl None s2 /\
    (forall q, q ∉ ids s2 -> h' !! q = h !! q).
Proof.
  intros Hs1 Hs2 Hnd Hp Hd. pose proof (unlink_right _ pv _ _ _ _ Hs2 Hnd) as Hu.
  destruct nx as [r|].
  - destruct Hu as (n & Hr & Hin & Hu). erewrite upd_some by done.
    exists (<[r := set_prev pv n]> h), (tail l). split; [done|].
    split; [rewrite lookup_insert_ne; [done|]; by intros ->|].
    split; [apply dseg_insert; [intros ?; by eapply Hd|done]|]. split; [done|].
    intros q Hq. rewrite lookup_insert_ne; [done|]. by intros ->.
  - destruct Hu as [-> _]. exists h, pv. by split_and!.
Qed.

Lemma ids_remove s1 p v s2 :
  NoDup (ids (s1 ++ (p, v) :: s2)) ->
  NoDup (ids s1) /\ NoDup (ids s2) /\ (p ∉ ids s1) /\ (p ∉ ids s2) /\
  (forall q, q ∈ ids s1 -> q ∉ ids s2) /\ NoDup (ids (s1 ++ s2)).
Proof.
  rewrite !ids_app, !NoDup_app. cbn. rewrite NoDup_cons. set_solver.
Qed.

Lemma list_remove_spec l m s1 p v s2 :
  repr l m (s1 ++ (p, v) :: s2) ->
  exists m' l', list_remove l p m = Some (m', l') /\ repr l' m' (s1 ++ s2) /\
    nodes m' !! p = None /\ same_calls l l' /\
    freed m' = freed m ++ (if free l then [v] else []) /\
    frames m m' (ids (s1 ++ (p, v) :: s2)).
Proof.
  intros (Hs & Hnd & Hlen & Hlt). rewrite length_app in Hlen, Hlt. cbn in Hlen, Hlt.
  apply dseg_app in Hs as (pv & ? & Hs1 & -> & nx & Hp & Hs2).
  apply ids_remove in Hnd as (Hnd1 & Hnd2 & Hp1 & Hp2 & Hd12 & Hnd').
  unfold list_remove. rewrite Hp. cbn [mbind option_bind prev next val].
  destruct (remove_left l m pv nx p s1 s2) as (h1 & hd1 & -> & Hp' & Hs1' & Hs2' & Hf1);
    [done..|].
  cbn [mbind option_bind nodes]. rewrite Hp', Hp. cbn [mbind option_bind prev next val].
  destruct (remove_right l h1 (freed m) hd1 pv nx p s1 s2)
    as (h2 & tl2 & Heq & Hp'' & Hs1'' & Hs2'' & Hf2); [done..|].
  cbn [head tail set_ends]. destruct l as [? ? ? ? ?]. cbn [set_ends head tail len free match_] in *.
  unfold set_ends in *. cbn [set_ends head tail len free match_] in *. rewrite Heq.
  cbn [mbind option_bind nodes]. rewrite Hp'', Hp', Hp. cbn [mbind option_bind val].
  unfold free_node. rewrite free_val_nodes. cbn [nodes]. rewrite Hp'', Hp', Hp.
  cbn [mbind option_bind]. do 2 eexists. split; [done|].
  split_and!; cbn; try done.
  - split_and!; cbn; [|done|rewrite u32_small, length_app; lia|rewrite length_app; lia].
    apply dseg_app. exists pv, nx. split; by apply dseg_delete.
  - apply lookup_delete_eq.
  - by rewrite free_val_freed.
  - intros q Hq. rewrite ids_app in Hq. cbn in Hq. cbn.
    rewrite lookup_delete_ne by set_solver. rewrite Hf2, Hf1; set_solver.
Qed.

(** *** Iteration

    [visits it m s]: the iterator yields the nodes of [s] one after the other,
    then NULL for ever. *)
Fixpoint visits (it : ListIterator) (m : mem) (s : seqv) : Prop :=
  match s with
  | [] => it_next it = None
  | (p, v) :: s =>
      it_next it = Some p /\ exists n, nodes m !! p = Some n /\ val n = v /\
      visits (mkListIterator
        (match direction it with LIST_HEAD => next n | LIST_TAIL => prev n end)
        (direction it)) m s
  end.

Lemma visits_next_nil it m : visits it m [] -> list_iterator_next it m = Some (it, None).
Proof. unfold list_iterator_next. by intros ->. Qed.

Lemma visits_next it m p v s :
  visits it m ((p, v) :: s) ->
  exists it', list_iterator_next it m = Some (it', Some p) /\ visits it' m s /\
    exists n, nodes m !! p = Some n /\ val n = v.
Proof.
  intros (Hn & n & Hp & Hv & Hr). unfold list_iterator_next. rewrite Hn, Hp. cbn.
  eexists. split; [done|]. split; [done|]. by exists n.
Qed.

Lemma visits_head m a hd lst s :
  dseg (nodes m) a hd lst None s -> visits (mkListIterator hd LIST_HEAD) m s.
Proof.
  revert a hd. induction s as [|[p v] s IH]; intros a hd; cbn.
  - by intros [-> _].
  - intros (-> & nx & Hp & Hs). split; [done|]. eexists. split; [done|]. split; [done|].
    cbn. by eapply IH.
Qed.

Lemma visits_tail m hd lst b s :
  dseg (nodes m) None hd lst b s -> visits (mkListIterator lst LIST_TAIL) m (reverse s).
Proof.
  revert lst b. induction s as [|[p v] s IH] using rev_ind; intros lst b.
  - by intros [_ ->].
  - intros (-> & q & Hp & Hs)%dseg_snoc. rewrite reverse_snoc.
    split; [done|]. eexists. split; [done|]. split; [done|]. cbn. by eapply IH.
Qed.

Lemma list_iterator_new_spec l m s d :
  repr l m s ->
  exists it, list_iterator_new true l d = Some it /\ visits it m (seq_dir d s).
Proof.
  intros (Hs & _). unfold list_iterator_new, list_iterator_new_from_node.
  eexists. split; [done|].
  destruct d; cbn; [by eapply visits_head|by eapply visits_tail].
Qed.

(** The iterator has read the link of the node it yielded: removing that node
    (and changing nothing else of what is still to be visited) is safe. *)
Lemma visits_frame it m m' s :
  (forall p, p ∈ ids s -> exists n n', nodes m !! p = Some n /\ nodes m' !! p = Some n' /\
     val n' = val n /\
     (match direction it with LIST_HEAD => next n' = next n | LIST_TAIL => prev n' = prev n end)) ->
  visits it m s -> visits it m' s.
Proof.
  revert it. induction s as [|[p v] s IH]; intros it Hf; cbn; [done|].
  intros (Hn & n & Hp & Hv & Hr). split; [done|].
  destruct (Hf p) as (n0 & n' & Hp0 & Hp' & Hv' & Hd); [cbn; left|].
  simplify_eq. exists n'. split; [done|]. split; [congruence|].
  apply IH; cbn.
  - intros q Hq. apply Hf. cbn. by right.
  - destruct (direction it); by rewrite Hd.
Qed.

(** *** Search *)

(** The comparison [list_find] makes on each value. *)
Definition hits (l : List) (v : V) (w : V) : bool :=
  match match_ l with Some f => f v w | None => bool_decide (v = w) end.

Lemma list_find_loop_spec l v it m s node fuel :
  match s with
  | [] => node = None
  | (p, w) :: s' => node = Some p /\ (exists n, nodes m !! p = Some n /\ val n = w) /\
      visits it m s'
  end ->
  (length s < fuel)%nat ->
  list_find_loop fuel l v it node m = Some (seq_find (hits l v) s).
Proof.
  revert it node fuel. induction s as [|[p w] s IH]; intros it node fuel Hs Hf.
  - destruct fuel as [|fuel]; [lia|]. by subst.
  - destruct fuel as [|fuel]; [lia|]. destruct Hs as (-> & (n & Hp & <-) & Hv).
    cbn -[seq_find]. rewrite Hp. cbn -[seq_find]. unfold seq_find. cbn.
    change (match match_ l with Some f => f v (val n) | None => bool_decide (v = val n) end)
      with (hits l v (val n)).
    destruct (hits l v (val n)); [done|].
    destruct s as [|[q u] s].
    + apply visits_next_nil in Hv. rewrite Hv. cbn. cbn in Hf.
      destruct fuel as [|fuel]; [lia|]. done.
    + destruct (visits_next _ _ _ _ _ Hv) as (it' & -> & Hv' & Hq). cbn.
      apply (IH it' (Some q) fuel); [done|]. cbn in *. lia.
Qed.

(** [list_find] returns the first node, from the head, whose value matches. *)
Lemma list_find_spec l m s v fuel :
  repr l m s -> (length s < fuel)%nat ->
  list_find fuel true l v m = Some (seq_find (hits l v) s).
Proof.
  intros Hr Hf. destruct (list_iterator_new_spec l m s LIST_HEAD Hr) as (it & Hit & Hv).
  unfold list_find. rewrite Hit. cbn [seq_dir] in Hv. destruct s as [|[p w] s].
  - apply visits_next_nil in Hv. rewrite Hv. cbn. destruct fuel; [lia|done].
  - destruct (visits_next _ _ _ _ _ Hv) as (it' & -> & Hv' & Hq).
    cbn [mbind option_bind]. apply list_find_loop_spec; [done|done].
Qed.

(** *** Indexing *)

Lemma list_at_loop_spec i it m s x :
  visits it m s -> s !! i = Some x ->
  ('(it, node) ← list_iterator_next it m; list_at_loop i it node m) = Some (Some x.1).
Proof.
  revert it s. induction i as [|i IH]; intros it s Hv Hi; destruct s as [|[p v] s]; try done;
    destruct (visits_next _ _ _ _ _ Hv) as (it' & -> & Hv' & _); cbn.
  - by injection Hi as <-.
  - by apply (IH it' s).
Qed.

(** [list_at] counts from the head for an index >= 0, from the tail for a
    negative one (-1 is the last node), and returns NULL outside the list. *)
Lemma list_at_spec l m s i :
  repr l m s -> -2147483648 <= i < 2147483648 ->
  list_at true l i m = Some (seq_at i s).
Proof.
  intros Hr Hi. unfold list_at, seq_at. pose proof (repr_len _ _ _ Hr) as Hlen.
  case_decide as Hneg.
  - assert (0 <= Z.lnot i < 4294967296) as Hb by (unfold Z.lnot; lia).
    rewrite u32_small by lia. case_decide as Hlt.
    + destruct (list_iterator_new_spec l m s LIST_TAIL Hr) as (it & -> & Hv). cbn in Hv.
      destruct (lookup_lt_is_Some_2 (reverse s) (Z.to_nat (Z.lnot i))) as [x Hx];
        [rewrite length_reverse; lia|].
      rewrite Hx. by eapply list_at_loop_spec.
    + rewrite lookup_ge_None_2; [done|]. rewrite length_reverse. lia.
  - rewrite u32_small by lia. case_decide as Hlt.
    + destruct (list_iterator_new_spec l m s LIST_HEAD Hr) as (it & -> & Hv). cbn in Hv.
      assert (is_Some (s !! Z.to_nat i)) as [x Hx] by (apply lookup_lt_is_Some_2; lia).
      rewrite Hx. by eapply list_at_loop_spec.
    + rewrite lookup_ge_None_2; [done|]. lia.
Qed.

(** *** Destruction *)

Lemma list_destroy_loop_spec l m a hd lst s :
  dseg (nodes m) a hd lst None s -> NoDup (ids s) ->
  exists m', list_destroy_loop (length s) l hd m = Some m' /\
    freed m' = freed m ++ (if free l then s.*2 else []) /\
    (forall p, p ∈ ids s -> nodes m' !! p = None) /\ frames m m' (ids s).
Proof.
  revert m a hd. induction s as [|[p v] s IH]; intros m a hd Hs Hnd.
  - exists m. split; [done|]. split_and!; [|set_solver|by intros ?].
    by destruct (free l); rewrite app_nil_r.
  - cbn in Hnd. apply NoDup_cons in Hnd as [Hp Hnd]. destruct Hs as (-> & nx & Hpn & Hs).
    cbn. unfold deref. cbn. rewrite Hpn. cbn. unfold free_node.
    rewrite free_val_nodes, Hpn. cbn.
    destruct (IH (mkMem (delete p (nodes m)) (freed (free_val l v m))) (Some p) nx)
      as (m' & -> & Hf & Hn & Hfr); [by apply dseg_delete|done|].
    exists m'. split; [done|]. split_and!.
    + rewrite Hf. cbn. rewrite free_val_freed, <- app_assoc. f_equal. by destruct (free l).
    + intros q [->|Hq]%elem_of_cons; [|by apply Hn].
      rewrite Hfr by done. apply lookup_delete_eq.
    + intros q Hq. rewrite Hfr by set_solver. apply lookup_delete_ne. set_solver.
Qed.

(** Every node is freed once, every value given to [free] once, in order. *)
Lemma list_destroy_spec l m s :
  repr l m s ->
  exists m', list_destroy l m = Some m' /\
    freed m' = freed m ++ (if free l then s.*2 else []) /\
    (forall p, p ∈ ids s -> nodes m' !! p = None) /\ frames m m' (ids s).
Proof.
  intros (Hs & Hnd & Hlen & _). unfold list_destroy. rewrite Hlen, Nat2Z.id.
  by eapply list_destroy_loop_spec.
Qed.

Lemma list_new_spec p m : exists l, list_new (Some p) = Some l /\ repr l m [].
Proof. eexists. split; [done|]. split_and!; cbn; try done. apply NoDup_nil_2. Qed.

(** *** Iterating and removing

    The loop shape of [uiot_mqtt_pub_info_proc] and [uiot_mqtt_sub_info_proc]:
    iterate from the tail and remove the nodes that [drop] selects; a selected
    node ([temp_node] in the code) is removed when the iterator has moved on. *)
Fixpoint sweep (fuel : nat) (drop : V -> bool) (l : List) (it : ListIterator)
    (temp_node : option positive) (m : mem) : option (mem * List) :=
  match fuel with
  | O => None
  | S fuel =>
      '(it, node) ← list_iterator_next it m;
      '(m, l) ← (match temp_node with
                 | Some t => list_remove l t m
                 | None => Some (m, l)
                 end);
      match node with
      | None => Some (m, l)
      | Some p =>
          n ← nodes m !! p;
          sweep fuel drop l it (if drop (val n) then Some p else None) m
      end
  end.

Definition keep (drop : V -> bool) (s : seqv) : seqv := filter (fun x => drop x.2 = false) s.

Lemma repr_node l m s1 p v s2 :
  repr l m (s1 ++ (p, v) :: s2) ->
  exists n, nodes m !! p = Some n /\ val n = v /\ prev n = (fst <$> last s1).
Proof.
  intros (Hs & _). apply dseg_app in Hs as (q & ? & Hs1 & Hs2). destruct Hs2 as (-> & nx & Hp & _).
  eexists. split; [done|]. split; [done|]. cbn.
  rewrite (dseg_last _ _ _ _ _ _ Hs1). by destruct (last s1).
Qed.

(** The node that waits to be removed, as a piece of the sequence. *)
Definition temp_seq (temp : option (positive * V)) : seqv :=
  match temp with Some x => [x] | None => [] end.

Lemma sweep_remove_temp l m s temp k :
  repr l m (s ++ temp_seq temp ++ k) ->
  exists m' l', (match (fst <$> temp) with Some t => list_remove l t m | None => Some (m, l) end)
    = Some (m', l') /\ repr l' m' (s ++ k) /\ same_calls l l' /\
    freed m' = freed m ++ (if free l then snd <$> temp_seq temp else []).
Proof.
  intros Hr. destruct temp as [[t v]|]; cbn in *.
  - destruct (list_remove_spec _ _ _ _ _ _ Hr) as (m' & l' & Heq & Hr' & _ & Hc & Hf & _).
    rewrite Heq. by exists m', l'.
  - exists m, l. split; [done|]. split; [done|]. split; [done|].
    by destruct (free l); rewrite app_nil_r.
Qed.

Lemma sweep_loop_spec drop fuel l m s temp k :
  repr l m (s ++ temp_seq temp ++ k) -> (length s < fuel)%nat ->
  exists m' l',
    sweep fuel drop l (mkListIterator (fst <$> last s) LIST_TAIL) (fst <$> temp) m = Some (m', l') /\
    repr l' m' (keep drop s ++ k) /\ same_calls l l' /\
    freed m' = freed m ++
      (if free l then (snd <$> temp_seq temp) ++ List.filter drop (reverse s.*2) else []).
Proof.
  revert fuel l m temp k. induction s as [|[p v] s IH] using rev_ind; intros fuel l m temp k Hr Hf.
  - destruct fuel as [|fuel]; [lia|].
    destruct (sweep_remove_temp l m [] temp k Hr) as (m' & l' & Heq & Hr' & Hc & Hfr).
    cbn. rewrite Heq. cbn. exists m', l'. rewrite app_nil_r. by split_and!.
  - rewrite length_app in Hf. cbn in Hf. destruct fuel as [|fuel]; [lia|].
    rewrite <- app_assoc in Hr. cbn in Hr.
    destruct (repr_node _ _ _ _ _ _ Hr) as (n & Hp & Hv & Hpv).
    rewrite last_snoc. cbn [sweep]. unfold list_iterator_next.
    cbn [fmap option_fmap option_map it_next fst].
    rewrite Hp. cbn [mbind option_bind direction].
    change ((p, v) :: temp_seq temp ++ k) with ([(p, v)] ++ temp_seq temp ++ k) in Hr.
    rewrite app_assoc in Hr.
    destruct (sweep_remove_temp l m _ temp k Hr) as (m1 & l1 & Heq & Hr1 & [Hc1 Hc1'] & Hfr1).
    cbn [fmap option_fmap option_map] in Heq. rewrite Heq. cbn [mbind option_bind].
    rewrite <- app_assoc in Hr1.
    destruct (repr_node _ _ _ _ _ _ Hr1) as (n1 & Hp1 & Hv1 & _). rewrite Hp1.
    cbn [mbind option_bind]. rewrite Hv1, Hpv. unfold keep. rewrite filter_app, fmap_app, reverse_app.
    cbn [fmap list_fmap snd]. rewrite filter_cons, filter_nil. cbn [snd].
    change (reverse [v]) with [v]. cbn [app List.filter]. destruct (drop v) eqn:Hd.
    + destruct (IH fuel l1 m1 (Some (p, v)) k) as (m' & l' & Hsw & Hr' & [Hc2 Hc2'] & Hfr');
        [done|lia|]. cbn [fmap option_fmap option_map fst] in Hsw. rewrite Hsw.
      exists m', l'. split; [done|]. rewrite app_nil_r. split; [done|].
      split; [split; congruence|]. rewrite Hfr', Hfr1, Hc1, <- app_assoc.
      by destruct (free l).
    + destruct (IH fuel l1 m1 None ((p, v) :: k)) as (m' & l' & Hsw & Hr' & [Hc2 Hc2'] & Hfr');
        [done|lia|]. cbn [fmap option_fmap option_map fst] in Hsw. rewrite Hsw.
      exists m', l'. split; [done|]. rewrite <- app_assoc. split; [done|].
      split; [split; congruence|]. rewrite Hfr', Hfr1, Hc1, <- app_assoc. by destruct (free l).
Qed.

Lemma sweep_spec drop fuel l m s :
  repr l m s -> (length s < fuel)%nat ->
  exists it m' l', list_iterator_new true l LIST_TAIL = Some it /\
    sweep fuel drop l it None m = Some (m', l') /\
    repr l' m' (keep drop s) /\ same_calls l l' /\
    freed m' = freed m ++ (if free l then List.filter drop (reverse s.*2) else []).
Proof.
  intros Hr Hf. assert (tail l = fst <$> last s) as Ht.
  { destruct Hr as (Hs & _). rewrite (dseg_last _ _ _ _ _ _ Hs). by destruct (last s). }
  rewrite <- (app_nil_r s) in Hr.
  destruct (sweep_loop_spec drop fuel l m s None [] Hr Hf) as (m' & l' & Hsw & Hr' & Hc & Hfr).
  eexists _, m', l'. split; [done|]. rewrite Ht. rewrite app_nil_r in Hr'. by split_and!.
Qed.

(* ------------------------------------------------------------------ *)
(** ** Programs over a list

    A client of the list is a sequence of calls.  [seq_step] is what a call
    means for the sequence; the addresses in use are the second component of
    the abstract state, and a call outside its contract (an address already in
    use, a node that is not in the list) has no meaning. *)
Inductive op :=
  | Rpush (p : positive) (v : V)
  | Lpush (p : positive) (v : V)
  | Rpop
  | Lpop
  | Remove (p : positive)
  | Find (v : V)
  | At (i : Z).

Definition conc_step (o : op) (st : List * mem) : option (List * mem * option positive) :=
  let '(l, m) := st in
  match o with
  | Rpush p v =>
      let '(m, n) := list_node_new (Some p) v m in
      '(m, l, r) ← list_rpush l n m; Some (l, m, r)
  | Lpush p v =>
      let '(m, n) := list_node_new (Some p) v m in
      '(m, l, r) ← list_lpush l n m; Some (l, m, r)
  | Rpop => '(m, l, r) ← list_rpop l m; Some (l, m, r)
  | Lpop => '(m, l, r) ← list_lpop l m; Some (l, m, r)
  | Remove p => '(m, l) ← list_remove l p m; Some (l, m, None)
  | Find v => r ← list_find (S (Z.to_nat (len l))) true l v m; Some (l, m, r)
  | At i => r ← list_at true l i m; Some (l, m, r)
  end.

Definition seq_step (hit : V -> V -> bool) (o : op) (st : seqv * gset positive)
  : option (seqv * gset positive * option positive) :=
  let '(s, live) := st in
  match o with
  | Rpush p v =>
      if decide ((p ∉ live) /\ zlen s + 1 < 4294967296)
      then Some (s ++ [(p, v)], {[p]} ∪ live, Some p) else None
  | Lpush p v =>
      if decide ((p ∉ live) /\ zlen s + 1 < 4294967296)
      then Some ((p, v) :: s, {[p]} ∪ live, Some p) else None
  | Rpop => Some (take (length s - 1) s, live, fst <$> last s)
  | Lpop => Some (drop 1 s, live, fst <$> s !! 0%nat)
  | Remove p =>
      if decide (p ∈ ids s) then Some (seq_remove p s, live ∖ {[p]}, None) else None
  | Find v => Some (s, live, seq_find (hit v) s)
  | At i =>
      if decide (-2147483648 <= i < 2147483648) then Some (s, live, seq_at i s) else None
  end.

Fixpoint run {S : Type} (step : op -> S -> option (S * option positive)) (ops : list op) (st : S)
  : option (S * list (option positive)) :=
  match ops with
  | [] => Some (st, [])
  | o :: ops => '(st, r) ← step o st; '(st, rs) ← run step ops st; Some (st, r :: rs)
  end.

(** The simulation relation of a run. *)
Definition sim (hit : V -> V -> bool) (c : List * mem) (a : seqv * gset positive) : Prop :=
  repr c.1 c.2 a.1 /\ dom (nodes c.2) = a.2 /\ hits c.1 = hit.

Lemma repr_alloc l m s p : repr l m s -> p ∈ ids s -> p ∈ dom (nodes m).
Proof.
  intros (Hs & _) ((q & v) & -> & Hp)%list_elem_of_fmap.
  destruct (dseg_lookup _ _ _ _ _ _ _ _ Hs Hp) as (n & Hn & _). by eapply elem_of_dom_2.
Qed.

(** An operation that keeps its nodes allocated keeps the addresses in use. *)
Lemma frames_dom m m' ps :
  frames m m' ps -> (forall q, q ∈ ps -> q ∈ dom (nodes m) /\ q ∈ dom (nodes m')) ->
  dom (nodes m') = dom (nodes m).
Proof.
  intros Hf Hps. apply set_eq. intros q. destruct (decide (q ∈ ps)) as [Hq|Hq].
  - split; intros _; by apply Hps.
  - by rewrite !elem_of_dom, Hf.
Qed.

Lemma hits_same l l' : same_calls l l' -> hits l' = hits l.
Proof. intros [_ H]. unfold hits. by rewrite H. Qed.

Lemma repr_fresh l m s p v :
  repr l m s -> p ∉ dom (nodes m) ->
  repr l (mkMem (<[p := mkListNode None None v]> (nodes m)) (freed m)) s /\ (p ∉ ids s).
Proof.
  intros Hr Hp. assert (p ∉ ids s) as Hps by (intros ?; eapply Hp, repr_alloc; done).
  split; [|done]. destruct Hr as (Hs & ?). split; [|done]. cbn. by apply dseg_insert.
Qed.

Lemma seq_remove_split p v s1 s2 :
  NoDup (ids (s1 ++ (p, v) :: s2)) -> seq_remove p (s1 ++ (p, v) :: s2) = s1 ++ s2.
Proof.
  intros (_ & _ & Hp1 & Hp2 & _)%ids_remove. unfold seq_remove.
  assert (forall s, p ∉ ids s -> filter (fun x : positive * V => x.1 <> p) s = s) as Hk.
  { induction s as [|[q w] s IH]; [done|]. intros Hs. change (p ∉ q :: ids s) in Hs.
    rewrite filter_cons, decide_True by (cbn; set_solver). rewrite IH; set_solver. }
  rewrite filter_app, filter_cons, decide_False by (cbn; tauto).
  by rewrite !Hk.
Qed.

Lemma push_sim hit l m s s' p v m' l' :
  sim hit (l, m) (s, dom (nodes m)) -> p ∉ dom (nodes m) ->
  frames (mkMem (<[p := mkListNode None None v]> (nodes m)) (freed m)) m' (p :: ids s) ->
  repr l' m' s' -> same_calls l l' -> (forall q, q ∈ p :: ids s -> q ∈ ids s') ->
  sim hit (l', m') (s', {[p]} ∪ dom (nodes m)).
Proof.
  intros (Hr & _ & Hh) Hp Hf Hr' Hc Hin. cbn in *. split; [done|].
  split; [|cbn [fst]; by rewrite (hits_same _ _ Hc)]. cbn.
  rewrite (frames_dom _ _ _ Hf); cbn; [apply dom_insert_L|].
  intros q Hq. split; [|by eapply repr_alloc, Hin].
  rewrite dom_insert. apply elem_of_cons in Hq as [->|Hq]; [set_solver|].
  apply elem_of_union_r. by eapply repr_alloc.
Qed.

Lemma pop_sim hit l m s s' p v m' l' :
  sim hit (l, m) (s, dom (nodes m)) -> frames m m' (p :: ids s') ->
  nodes m' !! p = Some v -> repr l' m' s' -> same_calls l l' ->
  p ∈ ids s -> (forall q, q ∈ ids s' -> q ∈ ids s) ->
  sim hit (l', m') (s', dom (nodes m)).
Proof.
  intros (Hr & _ & Hh) Hf Hp Hr' Hc Hps Hin. cbn in *. split; [done|].
  split; [|cbn [fst]; by rewrite (hits_same _ _ Hc)]. cbn.
  apply (frames_dom _ _ _ Hf). intros q [->|Hq]%elem_of_cons.
  - split; [by eapply repr_alloc|by eapply elem_of_dom_2].
  - split; eapply repr_alloc; eauto.
Qed.

#[local] Arguments list_rpush : simpl never.
#[local] Arguments list_lpush : simpl never.
#[local] Arguments list_rpop : simpl never.
#[local] Arguments list_lpop : simpl never.
#[local] Arguments list_remove : simpl never.
#[local] Arguments list_find : simpl never.
#[local] Arguments list_at : simpl never.

Lemma step_sim hit o c a a' r :
  sim hit c a -> seq_step hit o a = Some (a', r) ->
  exists c', conc_step o c = Some (c', r) /\ sim hit c' a'.
Proof.
  destruct c as [l m], a as [s live]. intros Hsim. pose proof Hsim as (Hr & Hdom & Hh).
  cbn in Hr, Hdom, Hh. subst live. destruct o as [p v|p v| | |p|v|i]; cbn.
  - case_decide as Hpre; intros; simplify_eq. destruct Hpre as [Hp Hlt].
    destruct (repr_fresh l m s p v Hr Hp) as [Hr1 Hps].
    destruct (list_rpush_spec l _ s p _ Hr1 Hps (lookup_insert_eq _ _ _) Hlt)
      as (m' & l' & -> & Hr' & Hc & _ & Hf). cbn. eexists. split; [done|].
    eapply push_sim; try done. rewrite ids_app. cbn. set_solver.
  - case_decide as Hpre; intros; simplify_eq. destruct Hpre as [Hp Hlt].
    destruct (repr_fresh l m s p v Hr Hp) as [Hr1 Hps].
    destruct (list_lpush_spec l _ s p _ Hr1 Hps (lookup_insert_eq _ _ _) Hlt)
      as (m' & l' & -> & Hr' & Hc & _ & Hf). cbn. eexists. split; [done|].
    by eapply push_sim.
  - destruct s as [|[p v] s _] using rev_ind; intros; simplify_eq.
    + destruct (list_pop_empty _ _ Hr) as [-> _]. by eexists.
    + destruct (list_rpop_spec _ _ _ _ _ Hr) as (m' & l' & -> & Hr' & Hp & Hc & _ & Hf).
      cbn. rewrite last_snoc, length_app. cbn. eexists. split; [done|].
      rewrite take_app_length' by lia.
      eapply pop_sim; try done; rewrite ids_app; cbn; set_solver.
  - destruct s as [|[p v] s]; intros; simplify_eq.
    + destruct (list_pop_empty _ _ Hr) as [_ ->]. by eexists.
    + destruct (list_lpop_spec _ _ _ _ _ Hr) as (m' & l' & -> & Hr' & Hp & Hc & _ & Hf).
      cbn. eexists. split; [done|]. rewrite drop_0.
      eapply pop_sim; try done; cbn; set_solver.
  - case_decide as Hp; intros; simplify_eq.
    apply list_elem_of_fmap in Hp as ((q & v) & -> & (s1 & s2 & ->)%list_elem_of_split).
    destruct (list_remove_spec _ _ _ _ _ _ Hr) as (m' & l' & Heq & Hr' & Hn & Hc & _ & Hf).
    cbn. rewrite Heq. cbn. eexists. split; [done|].
    rewrite seq_remove_split by (by destruct Hr as (_ & ? & _)).
    split; [done|]. split; [|cbn [fst]; by rewrite (hits_same _ _ Hc)]. cbn.
    apply set_eq. intros x. destruct (decide (x = q)) as [->|Hxq].
    + apply not_elem_of_dom in Hn. set_solver.
    + destruct (decide (x ∈ ids (s1 ++ (q, v) :: s2))) as [Hin|Hin].
      * assert (x ∈ dom (nodes m)) by (by eapply repr_alloc).
        assert (x ∈ dom (nodes m')); [|set_solver].
        eapply repr_alloc; [done|]. rewrite ids_app in *. cbn in Hin. set_solver.
      * rewrite elem_of_difference, !elem_of_dom, Hf by done. set_solver.
  - intros; simplify_eq. rewrite (list_find_spec l m s); [by eexists|done|].
    rewrite (repr_len _ _ _ Hr). lia.
  - case_decide; intros; simplify_eq. rewrite (list_at_spec l m s) by done. by eexists.
Qed.

Lemma run_sim hit ops c a a' rs :
  sim hit c a -> run (seq_step hit) ops a = Some (a', rs) ->
  exists c', run conc_step ops c = Some (c', rs) /\ sim hit c' a'.
Proof.
  revert c a rs. induction ops as [|o ops IH]; intros c a rs Hs; cbn.
  - intros [= <- <-]. by exists c.
  - destruct (seq_step hit o a) as [[a1 r]|] eqn:Ha; cbn; [|done].
    destruct (step_sim hit o c a a1 r Hs Ha) as (c1 & -> & Hs1). cbn.
    destruct (run (seq_step hit) ops a1) as [[a2 rs2]|] eqn:Hrun; cbn; [|done].
    intros [= <- <-]. destruct (IH c1 a1 rs2 Hs1 Hrun) as (c2 & -> & Hs2). by exists c2.
Qed.

(** Programs of list operations. *)
Lemma program_refines l m ops st rs :
  repr l m [] ->
  run (seq_step (hits l)) ops ([], dom (nodes m)) = Some (st, rs) ->
  exists l' m', run conc_step ops (l, m) = Some ((l', m'), rs) /\
    repr l' m' st.1 /\ dom (nodes m') = st.2.
Proof.
  intros Hr Hrun. destruct (run_sim (hits l) ops (l, m) ([], dom (nodes m)) st rs)
    as ([l' m'] & Hc & Hr' & Hd & _); [done|done|].
  by exists l', m'.
Qed.

(** Sweeps and destruction. *)
Lemma sweep_and_destroy drop l m s :
  repr l m s ->
  (exists it m' l', list_iterator_new true l LIST_TAIL = Some it /\
    sweep (S (length s)) drop l it None m = Some (m', l') /\
    repr l' m' (keep drop s) /\
    freed m' = freed m ++ (if free l then List.filter drop (reverse s.*2) else [])) /\
  (exists m', list_destroy l m = Some m' /\
    freed m' = freed m ++ (if free l then s.*2 else []) /\
    (forall p, p ∈ ids s -> nodes m' !! p = None) /\ frames m m' (ids s)).
Proof.
  intros Hr. split; [|by apply list_destroy_spec].
  destruct (sweep_spec drop (S (length s)) l m s Hr) as (it & m' & l' & ?); [lia|]. exists it, m', l'. by destruct_and!.
Qed.

(** C16: every sequence of pushes, pops, removals, searches and indexings that
    is legal for the abstract sequence (fresh addresses, nodes of the list,
    fewer than 2^32 nodes) runs on the pointer structure without a bad
    dereference, returns the same node addresses at each call, and ends with
    the pointers representing the abstract sequence, no node leaked or lost:
    [utils_list.c] refines the sequence.  Iterating from the tail and removing
    some of the nodes on the way, as the ACK-list sweeps of the MQTT client do,
    never touches a freed node; it ends, with the other nodes in their order,
    and each removed value given to [free] exactly once.  Destroying a list
    frees each of its nodes and, when a [free] callback is set, each of its
    values, once and in order; other memory is untouched. *)
Theorem linked_list_correct drop l m s :
  repr l m s ->
  (forall ops st rs, s = [] -> run (seq_step (hits l)) ops ([], dom (nodes m)) = Some (st, rs) ->
    exists l' m', run conc_step ops (l, m) = Some ((l', m'), rs) /\ repr l' m' st.1 /\ dom (nodes m') = st.2) /\
  (exists it m' l', list_iterator_new true l LIST_TAIL = Some it /\
    sweep (S (length s)) drop l it None m = Some (m', l') /\
    repr l' m' (keep drop s) /\
    freed m' = freed m ++ (if free l then List.filter drop (reverse s.*2) else [])) /\
  (exists m', list_destroy l m = Some m' /\
    freed m' = freed m ++ (if free l then s.*2 else []) /\
    (forall p, p ∈ ids s -> nodes m' !! p = None) /\ frames m m' (ids s)).
Proof.
  intros Hr. split; [|by apply sweep_and_destroy]. intros ops st rs ->. by apply program_refines.
Qed.

End linked_list.

(* ------------------------------------------------------------------ *)
(** ** Concrete runs *)

Definition list0 : List := mkList None None 0 true (Some Z.eqb).
Definition mem0 : mem := mkMem (V := Z) ∅ [].
Definition ops0 : list op :=
  [Rpush 1 10; Rpush 2 20; Lpush 3 30; Find 20; At (-1); Remove 1; Rpop; Find 20].

Definition mem3 : mem := mkMem
  (<[1%positive := mkListNode None (Some 2%positive) 10]>
    (<[2%positive := mkListNode (Some 1%positive) (Some 3%positive) 20]>
      (<[3%positive := mkListNode (Some 2%positive) None 30]> ∅))) [].
Definition list3 : List := mkList (Some 1%positive) (Some 3%positive) 3 true (Some Z.eqb).
Definition seq3 : list (positive * Z) := [(1%positive, 10); (2%positive, 20); (3%positive, 30)].

Lemma repr3 : repr list3 mem3 seq3.
Proof.
  split; [|split; [apply (bool_decide_unpack _); vm_compute; exact I|split; reflexivity]].
  repeat (split; [reflexivity|eexists; split; [vm_compute; reflexivity|]]). split; reflexivity.
Defined.

Lemma linked_list_correct_witness :
  (exists l' m', run conc_step ops0 (list0, mem0) =
    Some ((l', m'), [Some 1%positive; Some 2%positive; Some 3%positive; Some 2%positive;
      Some 2%positive; None; Some 2%positive; None]) /\
    repr l' m' [(3%positive, 30)] /\ dom (nodes m') = {[2%positive; 3%positive]}) /\
  (exists it m' l', list_iterator_new true list3 LIST_TAIL = Some it /\
    sweep (S (length seq3)) (Z.eqb 20) list3 it None mem3 = Some (m', l') /\
    repr l' m' (keep (Z.eqb 20) seq3) /\
    freed m' = freed mem3 ++
      (if free list3 then List.filter (Z.eqb 20) (reverse seq3.*2) else [])).
Proof.
  split.
  - destruct (linked_list_correct (Z.eqb 20) list0 mem0 []) as [Hrun _].
    + split_and!; try done. apply NoDup_nil_2.
    + refine (Hrun ops0 ([(3%positive, 30)], {[2%positive; 3%positive]}) _ eq_refl _). vm_compute. reflexivity.
  - destruct (linked_list_correct (Z.eqb 20) list3 mem3 seq3 repr3) as (_ & Hsweep & _). exact Hsweep.
Defined.

End Linked.
