(* ===== verification/HalTimer.v ===== *)
(** Timers: [ports/rtthread/HAL_Timer_rtthread.c] and its wrapper
    [uiot/utils/utils_timer.c].

    [rt_tick_t] is a 32-bit unsigned tick counter that wraps around.  The time
    [now] that [rt_tick_get()] returns is an argument, and
    [rt_tick_from_millisecond], a function of RT-Thread, is a parameter. *)

From S2P Require Import Prelude.

Section timer.
Variable rt_tick_from_millisecond : Z -> Z.

(** A [Timer] is its [end_time]. *)
Definition HAL_Timer_Expired (end_time now : Z) : bool := bool_decide (end_time < now).
Definition HAL_Timer_Countdown_ms (timeout_ms now : Z) : Z :=
  u32 (now + rt_tick_from_millisecond (u32 timeout_ms)).
Definition HAL_Timer_Countdown (timeout now : Z) : Z :=
  u32 (now + rt_tick_from_millisecond (u32 (timeout * 1000))).
Definition HAL_Timer_Remain_ms (end_time now : Z) : Z := u32 (end_time - now).
Definition HAL_Timer_Init : Z := 0.

Definition has_expired (end_time now : Z) : bool := HAL_Timer_Expired end_time now.
Definition countdown_ms (timeout_ms now : Z) : Z := HAL_Timer_Countdown_ms timeout_ms now.
Definition countdown (timeout now : Z) : Z := HAL_Timer_Countdown timeout now.
(** [left_ms] returns the unsigned difference as an [int]. *)
Definition left_ms (end_time now : Z) : Z := s32 (HAL_Timer_Remain_ms end_time now).
Definition init_timer : Z := HAL_Timer_Init.

(** In real time, counted in ticks without wrap-around, a timer started at
    [t0] for [ms] milliseconds has the deadline [t0 + d].  [left_ms] is the
    exact signed distance to it, whatever wraps of the 32-bit counter lie
    between (up to 2^31 ticks).  [has_expired], which compares the raw
    counters, is exact as long as the counter has not wrapped between now and
    the deadline; otherwise it is exactly wrong: a timer whose deadline lies
    behind the wrap is expired at once, and one whose deadline lay before it is
    not expired. *)
Lemma timer_correct t0 ms t :
  let d := rt_tick_from_millisecond ms in
  0 <= ms < 4294967296 -> 0 <= t0 <= t -> 0 <= d < 2147483648 -> t < t0 + d + 2147483648 ->
  let deadline := countdown_ms ms (u32 t0) in
  let epoch x := x `div` 4294967296 in
  left_ms deadline (u32 t) = t0 + d - t /\
  has_expired deadline (u32 t) =
    if decide (epoch t = epoch (t0 + d)) then bool_decide (t0 + d < t) else bool_decide (epoch t < epoch (t0 + d)).
Proof.
  intros d Hms Ht Hd Hfar deadline epoch.
  assert (Hde : deadline = u32 (t0 + d)).
  { unfold deadline, countdown_ms, HAL_Timer_Countdown_ms. rewrite (u32_small ms) by lia.
    unfold u32. apply Z.add_mod_idemp_l. lia. }
  rewrite Hde. clear Hde deadline. split.
  - unfold left_ms, HAL_Timer_Remain_ms, s32, u32. zmod.
  - unfold has_expired, HAL_Timer_Expired, epoch, u32. case_decide; apply bool_decide_ext; zmod.
Qed.

End timer.

Lemma timer_correct_witness :
  left_ms (countdown_ms (fun ms => ms) 100 4294967286) 4294967286 = 100 /\
  has_expired (countdown_ms (fun ms => ms) 100 4294967286) 4294967286 = true.
Proof.
  destruct (timer_correct (fun ms => ms) 4294967286 100 4294967286) as [Hl He]; [lia..|].
  split; [exact Hl|]. refine (eq_trans He _). vm_compute. reflexivity.
Defined.
