(* ===== verification/Digest.v ===== *)
(** Message digests: MD5 ([uiot/utils/utils_md5.c]), which the firmware update
    checks images with, and SHA-256 and HMAC-SHA-256
    ([uiot/utils/utils_sha2.c]).

    Both digests buffer their input in the same way; that part is modelled once,
    over the function that processes a block.  The references are RFC 1321,
    FIPS 180-4 and RFC 2104. *)

From S2P Require Import Prelude.

(* ================================================================== *)
(** * Buffering *)

(** [iot_md5_context] and [iot_sha256_context] ([is224] is always 0). *)
Record context := mkContext {
  total0 : Z;
  total1 : Z;
  state : list Z;
  buffer : bytes
}.

Definition padding : bytes := 128 :: replicate 63 0.

Section buffering.
Context (process : list Z -> bytes -> list Z).

(** [while (ilen >= 64)] *)
Fixpoint process_loop (fuel : nat) (st : list Z) (input : bytes) : list Z * bytes :=
  match fuel with
  | O => (st, input)
  | S fuel =>
      if decide (zlen input >= 64) then process_loop fuel (process st (take 64 input)) (drop 64 input)
      else (st, input)
  end.

Definition update (ctx : context) (input : bytes) : res context :=
  let ilen := zlen input in
  if decide (ilen = 0) then Ok ctx
  else
    let left := total0 ctx &&& 63 in
    let fill := 64 - left in
    let t0 := u32 (total0 ctx + u32 ilen) &&& 4294967295 in
    let t1 := if decide (t0 < u32 ilen) then u32 (total1 ctx + 1) else total1 ctx in
    '(st, buf, input, left) ←
      (if decide (left <> 0 /\ ilen >= fill) then
         buf ← write_at (buffer ctx) left (take (Z.to_nat fill) input);
         Ok (process (state ctx) buf, buf, drop (Z.to_nat fill) input, 0)
       else Ok (state ctx, buffer ctx, input, left));
    let '(st, input) := process_loop (length input) st input in
    buf ← (if decide (zlen input > 0) then write_at buf left input else Ok buf);
    Ok (mkContext t0 t1 st buf).

(** The two updates of [finish]; [msglen] lays out the two halves of the length
    in bits. *)
Definition finish_pad (msglen : Z -> Z -> bytes) (ctx : context) : res context :=
  let high := (total0 ctx >>> 29) ||| u32 (total1 ctx <<< 3) in
  let low := u32 (total0 ctx <<< 3) in
  let last := total0 ctx &&& 63 in
  let padn := if decide (last < 56) then 56 - last else 120 - last in
  ctx ← update ctx (take (Z.to_nat padn) padding);
  update ctx (msglen high low).

Fixpoint update_all (ctx : context) (chunks : list bytes) : res context :=
  match chunks with
  | [] => Ok ctx
  | c :: chunks => ctx ← update ctx c; update_all ctx chunks
  end.

(* ------------------------------------------------------------------ *)
(** ** What it computes: the blocks of the whole message, one after the other *)

Fixpoint blocks (n : nat) (st : list Z) (m : bytes) : list Z :=
  match n with O => st | S n => blocks n (process st (take 64 m)) (drop 64 m) end.
Definition hash_blocks (st : list Z) (m : bytes) : list Z := blocks (length m / 64) st m.

Lemma blocks_app n st a b : length a = (64 * n)%nat -> blocks n st (a ++ b) = blocks n st a.
Proof.
  revert st a. induction n as [|n IH]; intros st a Ha; [done|]. cbn [blocks].
  rewrite take_app_le, drop_app_le by lia. apply IH. rewrite length_drop. lia.
Qed.
Lemma blocks_add n k st m : blocks (n + k) st m = blocks k (blocks n st m) (drop (64 * n) m).
Proof.
  revert st m. induction n as [|n IH]; intros st m.
  - cbn [blocks Nat.add]. by rewrite Nat.mul_0_r, drop_0.
  - cbn [blocks Nat.add]. rewrite IH, drop_drop. do 2 f_equal. lia.
Qed.

Lemma hash_blocks_app st a b :
  (length a mod 64 = 0)%nat -> hash_blocks st (a ++ b) = hash_blocks (hash_blocks st a) b.
Proof.
  intros Ha. unfold hash_blocks. rewrite length_app.
  assert (Hl : length a = (64 * (length a / 64))%nat) by (rewrite (Nat.div_mod_eq (length a) 64) at 1; lia).
  set (k := (length a / 64)%nat) in *.
  replace ((length a + length b) / 64)%nat with (k + length b / 64)%nat.
  - rewrite blocks_add, blocks_app by done. f_equal. by rewrite <- Hl, drop_app_length.
  - rewrite Hl, Nat.mul_comm, Nat.div_add_l by lia. done.
Qed.
Lemma hash_blocks_short st m : (length m < 64)%nat -> hash_blocks st m = st.
Proof. intros Hm. unfold hash_blocks. by rewrite Nat.div_small. Qed.
Lemma hash_blocks_one st m : length m = 64%nat -> hash_blocks st m = process st m.
Proof.
  intros Hm. unfold hash_blocks. rewrite Hm. change (64 / 64)%nat with 1%nat. cbn [blocks].
  by rewrite take_ge by lia.
Qed.

(** The part of the message that no block holds yet. *)
Definition pending (m : bytes) : bytes := drop (64 * (length m / 64)) m.

Lemma length_pending m : length (pending m) = (length m mod 64)%nat.
Proof. unfold pending. rewrite length_drop. pose proof (Nat.div_mod_eq (length m) 64). lia. Qed.
Lemma hash_pending st m b : hash_blocks st (m ++ b) = hash_blocks (hash_blocks st m) (pending m ++ b).
Proof.
  unfold pending. set (k := (64 * (length m / 64))%nat).
  assert (Hk : (k <= length m)%nat) by (unfold k; pose proof (Nat.div_mod_eq (length m) 64); lia).
  assert (Hm : (length (take k m) mod 64 = 0)%nat).
  { rewrite length_take, Nat.min_l by lia. unfold k. rewrite Nat.mul_comm. apply Nat.Div0.mod_mul. }
  rewrite <- (take_drop k m) at 1. rewrite <- app_assoc, hash_blocks_app by done. f_equal.
  rewrite <- (take_drop k m) at 2. rewrite hash_blocks_app by done.
  symmetry. apply hash_blocks_short. fold k. rewrite length_drop. unfold k.
  pose proof (Nat.div_mod_eq (length m) 64). pose proof (Nat.mod_upper_bound (length m) 64). lia.
Qed.
Lemma pending_app m b : pending (m ++ b) = pending (pending m ++ b).
Proof.
  unfold pending at 1 2. set (k := (64 * (length m / 64))%nat). unfold pending. fold k.
  assert (Hk : (k <= length m)%nat) by (unfold k; pose proof (Nat.div_mod_eq (length m) 64); lia).
  rewrite length_app, length_app, length_drop.
  rewrite <- (drop_app_le m b k) by lia. rewrite drop_drop. f_equal.
  replace (length m + length b)%nat with ((length m / 64) * 64 + (length m - k + length b))%nat by (unfold k in *; lia).
  rewrite Nat.div_add_l by lia. unfold k. lia.
Qed.

Lemma pending_short m : (length m < 64)%nat -> pending m = m.
Proof. intros Hm. unfold pending. by rewrite Nat.div_small, drop_0. Qed.

Lemma pending_one m : length m = 64%nat -> pending m = [].
Proof. intros Hm. apply length_zero_iff_nil. by rewrite length_pending, Hm. Qed.

Lemma process_loop_run fuel st m :
  (length m <= fuel)%nat -> process_loop fuel st m = (hash_blocks st m, pending m).
Proof.
  revert st m. induction fuel as [|fuel IH]; intros st m Hf; cbn [process_loop].
  - by destruct m; [|cbn in Hf; lia].
  - case_decide as Hm.
    + assert (Ht : length (take 64 m) = 64%nat) by (rewrite length_take; lia).
      assert (Hh : hash_blocks st (take 64 m ++ drop 64 m) =
        hash_blocks (process st (take 64 m)) (drop 64 m)).
      { rewrite hash_blocks_app by (by rewrite Ht). f_equal. by apply hash_blocks_one. }
      assert (Hd : pending (take 64 m ++ drop 64 m) = pending (drop 64 m)).
      { by rewrite pending_app, (pending_one (take 64 m)). }
      rewrite take_drop in Hh, Hd. by rewrite IH, Hh, Hd by (rewrite length_drop; lia).
    + rewrite hash_blocks_short, pending_short by lia. done.
Qed.

(** The context that has taken the message [m]. *)
Record rep (st0 : list Z) (ctx : context) (m : bytes) : Prop := {
  rep_total : total0 ctx + 4294967296 * total1 ctx = zlen m;
  rep_low : 0 <= total0 ctx < 4294967296;
  rep_state : state ctx = hash_blocks st0 m;
  rep_len : length (buffer ctx) = 64%nat;
  rep_buf : take (length (pending m)) (buffer ctx) = pending m
}.

Lemma rep_left st0 ctx m : rep st0 ctx m -> total0 ctx &&& 63 = zlen (pending m).
Proof.
  intros [Ht Hl _ _ _]. change 63 with (Z.ones 6). rewrite Z.land_ones by lia.
  rewrite length_pending. rewrite Nat2Z.inj_mod, <- Ht. zmod.
Qed.

Lemma write_at_exact (b : bytes) (i : nat) src :
  (i + length src <= length b)%nat ->
  write_at b (Z.of_nat i) src = Ok (take i b ++ src ++ drop (i + length src) b).
Proof.
  intros Hl. unfold write_at. rewrite decide_True by lia. by rewrite Nat2Z.id.
Qed.

(** The end of [update]: whole blocks are processed, the rest is buffered
    behind the [pending p] that the buffer holds already. *)
Lemma update_rest st buf p input :
  length buf = 64%nat -> take (length p) buf = p -> (length p < 64)%nat ->
  (p = [] \/ (length p + length input < 64)%nat) ->
  exists buf',
    (let '(st', rest) := process_loop (length input) st input in
     b ← (if decide (zlen rest > 0) then write_at buf (zlen p) rest else Ok buf);
     Ok (st', b)) = Ok (hash_blocks st (p ++ input), buf') /\
    length buf' = 64%nat /\ take (length (pending (p ++ input))) buf' = pending (p ++ input).
Proof.
  intros Hb Hp Hpl Hc. rewrite process_loop_run by done.
  assert (Hst : hash_blocks st (p ++ input) = hash_blocks st input).
  { destruct Hc as [-> | Hc]; [done|]. rewrite !hash_blocks_short by (rewrite ?length_app; lia). done. }
  assert (Hpd : pending (p ++ input) = p ++ pending input).
  { destruct Hc as [-> | Hc]; [done|]. rewrite !pending_short by (rewrite ?length_app; lia). done. }
  assert (Hfit : (length p + length (pending input) < 64)%nat).
  { destruct Hc as [-> | Hc]; cbn [length Nat.add].
    - rewrite length_pending. apply Nat.mod_upper_bound. lia.
    - rewrite pending_short by lia. done. }
  rewrite Hst, Hpd. case_decide as Hr.
  - rewrite write_at_exact by lia. cbn [mbind res_bind]. eexists. split; [done|].
    rewrite Hp. split; [rewrite !length_app, length_drop; lia|]. by rewrite app_assoc, take_app_length.
  - assert (pending input = []) as -> by (destruct (pending input); [done|cbn in Hr; lia]).
    rewrite app_nil_r. by exists buf.
Qed.

Lemma update_rep st0 ctx m input :
  rep st0 ctx m -> zlen (m ++ input) < 2 ^ 61 -> zlen input < 2 ^ 32 ->
  exists ctx', update ctx input = Ok ctx' /\ rep st0 ctx' (m ++ input).
Proof.
  intros Hrep Hmax Hin. pose proof (rep_left _ _ _ Hrep) as Hleft. destruct Hrep as [Ht Hl Hs Hb Hp].
  unfold update. rewrite length_app in Hmax. case_decide as Hz.
  { destruct input; [|cbn in Hz; lia]. rewrite app_nil_r. by exists ctx. }
  rewrite Hleft. set (p := pending m) in *.
  assert (Hpl : (length p < 64)%nat) by (unfold p; rewrite length_pending; apply Nat.mod_upper_bound; lia).
  change 4294967295 with (Z.ones 32). rewrite Z.land_ones by lia.
  set (t0 := u32 _ `mod` _). set (t1 := if decide (t0 < _) then _ else _).
  assert (Htot : t0 + 4294967296 * t1 = zlen (m ++ input) /\ 0 <= t0 < 4294967296).
  { rewrite length_app. unfold t1, t0. rewrite (u32_small (zlen input)) by lia.
    assert (0 <= total1 ctx < 536870912) by lia. rewrite (u32_small (total1 ctx + 1)) by lia.
    unfold u32. case_decide; zmod. }
  set (c := decide (zlen p <> 0 /\ zlen input >= 64 - zlen p)). destruct c as [[Hc1 Hc2]|Hc].
  - set (f := Z.to_nat (64 - zlen p)). assert (Hf : (length p + f = 64)%nat) by lia.
    assert (Htk : length (take f input) = f) by (rewrite length_take; lia).
    rewrite write_at_exact by lia. cbn [mbind res_bind]. rewrite Hp, Htk, Hf, (drop_ge (buffer ctx)), app_nil_r by lia.
    assert (H64 : length (p ++ take f input) = 64%nat) by (rewrite length_app; lia).
    destruct (update_rest (process (state ctx) (p ++ take f input)) (p ++ take f input) [] (drop f input))
      as (buf' & Hr & Hbl & Hbt); [done|done|cbn; lia|by left|].
    destruct (process_loop _ _ _) as [st' rest]. cbn [length] in Hr. change (Z.of_nat 0) with 0 in Hr.
    destruct (if decide (zlen rest > 0) then _ else _) as [b'| |]; [|done..].
    injection Hr as -> ->. cbn [mbind res_bind]. eexists. split; [done|].
    assert (Hsplit : p ++ input = (p ++ take f input) ++ drop f input) by (by rewrite <- app_assoc, take_drop).
    constructor; cbn [total0 total1 state buffer]; [apply Htot..| |done|].
    + rewrite (hash_pending st0 m), <- Hs. fold p. rewrite Hsplit, hash_blocks_app by (by rewrite H64).
      by rewrite (hash_blocks_one _ (p ++ take f input)).
    + assert (Hpd : pending (m ++ input) = pending (drop f input)).
      { rewrite pending_app. fold p. rewrite Hsplit, pending_app. by rewrite (pending_one (p ++ take f input)). }
      by rewrite Hpd.
  - cbn [mbind res_bind]. destruct (update_rest (state ctx) (buffer ctx) p input) as (buf' & Hr & Hbl & Hbt);
      [done|done|done| |].
    { destruct (decide (p = [])) as [->|Hne]; [by left|right]. destruct p; [done|]. cbn [length] in *. lia. }
    destruct (process_loop _ _ _) as [st' rest].
    destruct (if decide (zlen rest > 0) then _ else _) as [b'| |]; [|done..].
    injection Hr as -> ->. cbn [mbind res_bind]. eexists. split; [done|].
    constructor; cbn [total0 total1 state buffer]; [apply Htot..| |done|].
    + rewrite (hash_pending st0 m), <- Hs. done.
    + rewrite (pending_app m). exact Hbt.
Qed.

(* ------------------------------------------------------------------ *)
(** ** Padding *)

(** The message, the bit 1, zeros up to 56 modulo 64, and its length in bits. *)
Definition pad (enc : Z -> bytes) (m : bytes) : bytes :=
  m ++ [128] ++ replicate (Z.to_nat ((55 - zlen m) `mod` 64)) 0 ++ enc (8 * zlen m).

Lemma lor_disjoint a b k : 0 <= k -> 0 <= a < 2 ^ k -> b `mod` 2 ^ k = 0 -> a ||| b = a + b.
Proof.
  intros Hk Ha Hb. rewrite Z.add_comm. rewrite <- (Z.lor_comm b a). symmetry.
  assert (Hland : b &&& a = 0).
  { apply Z.bits_inj'. intros n Hn. rewrite Z.land_spec, Z.bits_0. destruct (Z.ltb_spec n k).
    - assert (Z.testbit b n = false) as ->; [|done].
      rewrite <- (Z.mod_pow2_bits_low b k n) by lia. by rewrite Hb, Z.bits_0.
    - destruct (decide (a = 0)) as [->|]; [by rewrite Z.bits_0, andb_false_r|].
      assert (2 ^ k <= 2 ^ n) by (apply Z.pow_le_mono_r; lia).
      rewrite (Z.bits_above_log2 a n); [by rewrite andb_false_r|lia|]. apply Z.log2_lt_pow2; lia. }
  rewrite <- Z.lxor_lor by done. apply Z.add_nocarry_lxor. done.
Qed.

Lemma finish_pad_rep enc msglen st0 ctx m :
  rep st0 ctx m -> zlen m + 72 < 2 ^ 61 ->
  (let n := 8 * zlen m in msglen (n / 4294967296) (n `mod` 4294967296) = enc n) ->
  length (enc (8 * zlen m)) = 8%nat ->
  exists ctx', finish_pad msglen ctx = Ok ctx' /\ state ctx' = hash_blocks st0 (pad enc m).
Proof.
  intros Hrep Hmax Henc Hlen. unfold finish_pad. rewrite (rep_left _ _ _ Hrep).
  pose proof (rep_total _ _ _ Hrep) as Ht. pose proof (rep_low _ _ _ Hrep) as Hl.
  rewrite length_pending. rewrite Nat2Z.inj_mod. change (Z.of_nat 64) with 64.
  set (last := zlen m `mod` 64). set (padn := if decide (last < 56) then _ else _).
  assert (Hpadn : padn = (55 - zlen m) `mod` 64 + 1 /\ 1 <= padn <= 64).
  { unfold padn, last. case_decide; zmod. }
  assert (Hpad : take (Z.to_nat padn) padding = [128] ++ replicate (Z.to_nat ((55 - zlen m) `mod` 64)) 0).
  { unfold padding. replace (Z.to_nat padn) with (S (Z.to_nat ((55 - zlen m) `mod` 64))) by lia.
    cbn [take app]. f_equal. rewrite take_replicate. f_equal. lia. }
  assert (Hpl : zlen (take (Z.to_nat padn) padding) = padn).
  { rewrite length_take. change (length padding) with 64%nat. lia. }
  destruct (update_rep st0 ctx m (take (Z.to_nat padn) padding) Hrep) as (c1 & Hu1 & Hr1);
    [rewrite length_app; lia|lia|].
  rewrite Hu1. cbn [mbind res_bind].
  assert (Hhl : msglen ((total0 ctx >>> 29) ||| u32 (total1 ctx <<< 3)) (u32 (total0 ctx <<< 3)) =
    enc (8 * zlen m)).
  { rewrite <- Henc. cbn zeta. rewrite Z.shiftr_div_pow2, !Z.shiftl_mul_pow2 by lia.
    change (2 ^ 29) with 536870912. change (2 ^ 3) with 8. unfold u32.
    rewrite (lor_disjoint _ _ 3) by (change (2 ^ 3) with 8; zmod). f_equal; zmod. }
  rewrite Hhl. destruct (update_rep st0 c1 _ (enc (8 * zlen m)) Hr1) as (c2 & Hu2 & Hr2);
    [rewrite !length_app; lia|lia|].
  exists c2. split; [done|]. rewrite (rep_state _ _ _ Hr2). unfold pad. by rewrite Hpad, <- !app_assoc.
Qed.

Lemma update_all_rep st0 ctx m chunks :
  rep st0 ctx m -> zlen (m ++ concat chunks) < 2 ^ 61 -> Forall (fun c => zlen c < 2 ^ 32) chunks ->
  exists ctx', update_all ctx chunks = Ok ctx' /\ rep st0 ctx' (m ++ concat chunks).
Proof.
  revert ctx m. induction chunks as [|c chunks IH]; intros ctx m Hrep Hmax Hc; cbn [update_all concat].
  { rewrite app_nil_r. by exists ctx. }
  inversion Hc as [|? ? Hc1 Hc2]; subst. cbn [concat] in Hmax. rewrite app_assoc in *.
  destruct (update_rep st0 ctx m c Hrep) as (c1 & -> & Hr1); [rewrite !length_app in *; lia|done|].
  cbn [mbind res_bind]. by apply IH.
Qed.

End buffering.

(* ================================================================== *)
(** * MD5 *)

(** [IOT_MD5_GET_UINT32_LE] and [IOT_MD5_PUT_UINT32_LE] *)
Definition byte_at (b : bytes) (i : nat) : Z := default 0 (b !! i).
Definition get_uint32_le (b : bytes) (i : nat) : Z :=
  byte_at b i ||| (byte_at b (i + 1) <<< 8) ||| (byte_at b (i + 2) <<< 16) ||| (byte_at b (i + 3) <<< 24).
Definition put_uint32_le (n : Z) : bytes :=
  [u8 (n &&& 255); u8 ((n >>> 8) &&& 255); u8 ((n >>> 16) &&& 255); u8 ((n >>> 24) &&& 255)].

Definition utils_md5_init : context := mkContext 0 0 (replicate 4 0) (replicate 64 0).

Definition md5_state0 : list Z := [0x67452301; 0xEFCDAB89; 0x98BADCFE; 0x10325476].
Definition utils_md5_starts (ctx : context) : context := mkContext 0 0 md5_state0 (buffer ctx).

(** The macros [F] of the four rounds, [S] and [P]. *)
Definition md5_F (round : nat) (x y z : Z) : Z :=
  match round with
  | 0%nat => z ^^^ (x &&& (y ^^^ z))
  | 1%nat => y ^^^ (z &&& (x ^^^ y))
  | 2%nat => x ^^^ y ^^^ z
  | _ => y ^^^ (x ||| u32 (Z.lnot z))
  end.
Definition md5_S (x n : Z) : Z := u32 (x <<< n) ||| ((x &&& 0xFFFFFFFF) >>> (32 - n)).
Definition md5_P (round : nat) (a b c d x s t : Z) : Z :=
  let a := u32 (a + md5_F round b c d + x + t) in u32 (md5_S a s + b).

(** The 64 uses of [P]: round, [k], [s] and [t] of each.  From one use to the
    next the roles of the four variables rotate. *)
Definition md5_steps : list (nat * nat * Z * Z) :=
  [(0%nat, 0%nat, 7, 0xD76AA478); (0%nat, 1%nat, 12, 0xE8C7B756); (0%nat, 2%nat, 17, 0x242070DB); (0%nat, 3%nat, 22, 0xC1BDCEEE);
   (0%nat, 4%nat, 7, 0xF57C0FAF); (0%nat, 5%nat, 12, 0x4787C62A); (0%nat, 6%nat, 17, 0xA8304613); (0%nat, 7%nat, 22, 0xFD469501);
   (0%nat, 8%nat, 7, 0x698098D8); (0%nat, 9%nat, 12, 0x8B44F7AF); (0%nat, 10%nat, 17, 0xFFFF5BB1); (0%nat, 11%nat, 22, 0x895CD7BE);
   (0%nat, 12%nat, 7, 0x6B901122); (0%nat, 13%nat, 12, 0xFD987193); (0%nat, 14%nat, 17, 0xA679438E); (0%nat, 15%nat, 22, 0x49B40821);
   (1%nat, 1%nat, 5, 0xF61E2562); (1%nat, 6%nat, 9, 0xC040B340); (1%nat, 11%nat, 14, 0x265E5A51); (1%nat, 0%nat, 20, 0xE9B6C7AA);
   (1%nat, 5%nat, 5, 0xD62F105D); (1%nat, 10%nat, 9, 0x02441453); (1%nat, 15%nat, 14, 0xD8A1E681); (1%nat, 4%nat, 20, 0xE7D3FBC8);
   (1%nat, 9%nat, 5, 0x21E1CDE6); (1%nat, 14%nat, 9, 0xC33707D6); (1%nat, 3%nat, 14, 0xF4D50D87); (1%nat, 8%nat, 20, 0x455A14ED);
   (1%nat, 13%nat, 5, 0xA9E3E905); (1%nat, 2%nat, 9, 0xFCEFA3F8); (1%nat, 7%nat, 14, 0x676F02D9); (1%nat, 12%nat, 20, 0x8D2A4C8A);
   (2%nat, 5%nat, 4, 0xFFFA3942); (2%nat, 8%nat, 11, 0x8771F681); (2%nat, 11%nat, 16, 0x6D9D6122); (2%nat, 14%nat, 23, 0xFDE5380C);
   (2%nat, 1%nat, 4, 0xA4BEEA44); (2%nat, 4%nat, 11, 0x4BDECFA9); (2%nat, 7%nat, 16, 0xF6BB4B60); (2%nat, 10%nat, 23, 0xBEBFBC70);
   (2%nat, 13%nat, 4, 0x289B7EC6); (2%nat, 0%nat, 11, 0xEAA127FA); (2%nat, 3%nat, 16, 0xD4EF3085); (2%nat, 6%nat, 23, 0x04881D05);
   (2%nat, 9%nat, 4, 0xD9D4D039); (2%nat, 12%nat, 11, 0xE6DB99E5); (2%nat, 15%nat, 16, 0x1FA27CF8); (2%nat, 2%nat, 23, 0xC4AC5665);
   (3%nat, 0%nat, 6, 0xF4292244); (3%nat, 7%nat, 10, 0x432AFF97); (3%nat, 14%nat, 15, 0xAB9423A7); (3%nat, 5%nat, 21, 0xFC93A039);
   (3%nat, 12%nat, 6, 0x655B59C3); (3%nat, 3%nat, 10, 0x8F0CCC92); (3%nat, 10%nat, 15, 0xFFEFF47D); (3%nat, 1%nat, 21, 0x85845DD1);
   (3%nat, 8%nat, 6, 0x6FA87E4F); (3%nat, 15%nat, 10, 0xFE2CE6E0); (3%nat, 6%nat, 15, 0xA3014314); (3%nat, 13%nat, 21, 0x4E0811A1);
   (3%nat, 4%nat, 6, 0xF7537E82); (3%nat, 11%nat, 10, 0xBD3AF235); (3%nat, 2%nat, 15, 0x2AD7D2BB); (3%nat, 9%nat, 21, 0xEB86D391)].

Definition md5_step (X : list Z) (v : Z * Z * Z * Z) (row : nat * nat * Z * Z) : Z * Z * Z * Z :=
  let '(a, b, c, d) := v in
  let '(round, k, s, t) := row in
  (d, md5_P round a b c d (default 0 (X !! k)) s t, b, c).

Definition utils_md5_process (st : list Z) (data : bytes) : list Z :=
  match st with
  | [s0; s1; s2; s3] =>
      let X := (fun i => get_uint32_le data (4 * i)) <$> seq 0 16 in
      let '(a, b, c, d) := foldl (md5_step X) (s0, s1, s2, s3) md5_steps in
      [u32 (s0 + a); u32 (s1 + b); u32 (s2 + c); u32 (s3 + d)]
  | _ => st
  end.

Definition utils_md5_update : context -> bytes -> res context := update utils_md5_process.

Definition utils_md5_finish (ctx : context) : res bytes :=
  ctx ← finish_pad utils_md5_process (fun high low => put_uint32_le low ++ put_uint32_le high) ctx;
  Ok (concat (put_uint32_le <$> state ctx)).

Definition utils_md5 (input : bytes) : res bytes :=
  ctx ← utils_md5_update (utils_md5_starts utils_md5_init) input;
  utils_md5_finish ctx.

Definition utils_hb2hex (hb : Z) : Z :=
  let hb := hb &&& 15 in if decide (hb < 10) then 48 + hb else hb - 10 + 97.

(** The 32 digits, without the terminating zero. *)
Definition utils_md5_finish_hb2hex (ctx : context) : res bytes :=
  buf_out ← utils_md5_finish ctx;
  Ok (concat ((fun b => [utils_hb2hex (b >>> 4); utils_hb2hex b]) <$> buf_out)).

(** ** RFC 1321 *)
Module Rfc1321.

Definition F (x y z : Z) : Z := (x &&& y) ||| (Z.lnot x &&& z).
Definition G (x y z : Z) : Z := (x &&& z) ||| (y &&& Z.lnot z).
Definition H (x y z : Z) : Z := x ^^^ y ^^^ z.
Definition I (x y z : Z) : Z := y ^^^ (x ||| u32 (Z.lnot z)).

(** [x] rotated to the left by [n] bits. *)
Definition rotl (x n : Z) : Z := u32 (u32 x * 2 ^ n) + u32 x `div` 2 ^ (32 - n).

(** Step [i] of a block: function, word, shift. *)
Definition fn (i : nat) : Z -> Z -> Z -> Z :=
  match (i / 16)%nat with 0%nat => F | 1%nat => G | 2%nat => H | _ => I end.
Definition word (i : nat) : nat :=
  match (i / 16)%nat with
  | 0%nat => i | 1%nat => ((5 * i + 1) mod 16)%nat | 2%nat => ((3 * i + 5) mod 16)%nat
  | _ => ((7 * i) mod 16)%nat
  end.
Definition shift (i : nat) : Z :=
  default 0 ((match (i / 16)%nat with
              | 0%nat => [7; 12; 17; 22] | 1%nat => [5; 9; 14; 20] | 2%nat => [4; 11; 16; 23]
              | _ => [6; 10; 15; 21]
              end) !! (i mod 4)%nat).
(** T[i + 1], the integer part of 4294967296 times abs(sin(i + 1)). *)
Definition T : list Z :=
  [0xD76AA478; 0xE8C7B756; 0x242070DB; 0xC1BDCEEE; 0xF57C0FAF; 0x4787C62A; 0xA8304613; 0xFD469501;
   0x698098D8; 0x8B44F7AF; 0xFFFF5BB1; 0x895CD7BE; 0x6B901122; 0xFD987193; 0xA679438E; 0x49B40821;
   0xF61E2562; 0xC040B340; 0x265E5A51; 0xE9B6C7AA; 0xD62F105D; 0x02441453; 0xD8A1E681; 0xE7D3FBC8;
   0x21E1CDE6; 0xC33707D6; 0xF4D50D87; 0x455A14ED; 0xA9E3E905; 0xFCEFA3F8; 0x676F02D9; 0x8D2A4C8A;
   0xFFFA3942; 0x8771F681; 0x6D9D6122; 0xFDE5380C; 0xA4BEEA44; 0x4BDECFA9; 0xF6BB4B60; 0xBEBFBC70;
   0x289B7EC6; 0xEAA127FA; 0xD4EF3085; 0x04881D05; 0xD9D4D039; 0xE6DB99E5; 0x1FA27CF8; 0xC4AC5665;
   0xF4292244; 0x432AFF97; 0xAB9423A7; 0xFC93A039; 0x655B59C3; 0x8F0CCC92; 0xFFEFF47D; 0x85845DD1;
   0x6FA87E4F; 0xFE2CE6E0; 0xA3014314; 0x4E0811A1; 0xF7537E82; 0xBD3AF235; 0x2AD7D2BB; 0xEB86D391].

Definition step (X : list Z) (v : Z * Z * Z * Z) (i : nat) : Z * Z * Z * Z :=
  let '(a, b, c, d) := v in
  (d, u32 (b + rotl (a + fn i b c d + default 0 (X !! word i) + default 0 (T !! i)) (shift i)), b, c).

Definition le32 (b : bytes) : Z :=
  match b with [b0; b1; b2; b3] => b0 + 256 * b1 + 65536 * b2 + 16777216 * b3 | _ => 0 end.
Definition words (data : bytes) : list Z := (fun i => le32 (take 4 (drop (4 * i) data))) <$> seq 0 16.

Definition compress (st : list Z) (data : bytes) : list Z :=
  match st with
  | [s0; s1; s2; s3] =>
      let '(a, b, c, d) := foldl (step (words data)) (s0, s1, s2, s3) (seq 0 64) in
      [u32 (s0 + a); u32 (s1 + b); u32 (s2 + c); u32 (s3 + d)]
  | _ => st
  end.

(** An integer as [n] bytes, the low one first. *)
Fixpoint le (n : nat) (x : Z) : bytes :=
  match n with O => [] | S n => x `mod` 256 :: le n (x `div` 256) end.

Definition md5 (m : bytes) : bytes :=
  concat (le 4 <$> hash_blocks compress [0x67452301; 0xEFCDAB89; 0x98BADCFE; 0x10325476] (pad (le 8) m)).

End Rfc1321.

Example md5_abc : utils_md5 (bytes_of "abc") =
  Ok [0x90; 0x01; 0x50; 0x98; 0x3C; 0xD2; 0x4F; 0xB0; 0xD6; 0x96; 0x3F; 0x7D; 0x28; 0xE1; 0x7F; 0x72].
Proof. vm_compute. reflexivity. Qed.
Example md5_abc_reference : utils_md5 (bytes_of "abc") = Ok (Rfc1321.md5 (bytes_of "abc")).
Proof. vm_compute. reflexivity. Qed.

(** ** The code computes RFC 1321 *)

Lemma hash_blocks_ext (p1 p2 : list Z -> bytes -> list Z) st m :
  (forall st b, length b = 64%nat -> Forall byte b -> p1 st b = p2 st b) ->
  Forall byte m -> hash_blocks p1 st m = hash_blocks p2 st m.
Proof.
  intros Hp. unfold hash_blocks. remember (length m / 64)%nat as n eqn:Hn.
  assert (Hl : (64 * n <= length m)%nat) by (subst n; pose proof (Nat.div_mod_eq (length m) 64); lia).
  clear Hn. revert st m Hl. induction n as [|n IH]; intros st m Hl Hm; [done|]. cbn [blocks].
  rewrite Hp by (rewrite ?length_take; auto using Forall_take || lia).
  apply IH; [rewrite length_drop; lia|auto using Forall_drop].
Qed.

Ltac bits :=
  apply Z.bits_inj'; intros ? ?;
  repeat (rewrite Z.lxor_spec || rewrite Z.land_spec || rewrite Z.lor_spec || rewrite Z.lnot_spec by done);
  repeat match goal with |- context [Z.testbit ?x ?n] => destruct (Z.testbit x n) end; done.

Lemma md5_F_fn i x y z : (i < 64)%nat -> md5_F (i / 16) x y z = Rfc1321.fn i x y z.
Proof.
  intros Hi. unfold Rfc1321.fn. assert (Hr : (i / 16 < 4)%nat) by (apply Nat.Div0.div_lt_upper_bound; lia).
  destruct (i / 16)%nat as [|[|[|[|]]]]; [..|lia]; cbn [md5_F];
    unfold Rfc1321.F, Rfc1321.G, Rfc1321.H, Rfc1321.I; [bits|bits|done|done].
Qed.

Lemma md5_S_rotl x n : 0 < n < 32 -> md5_S (u32 x) n = Rfc1321.rotl x n.
Proof.
  intros Hn. unfold md5_S, Rfc1321.rotl. change 0xFFFFFFFF with (Z.ones 32). rewrite Z.land_ones by lia.
  pose proof (u32_range x) as Hx. set (w := u32 x) in *. change (2 ^ 32) with 4294967296.
  rewrite (Z.mod_small w) by lia. rewrite Z.shiftl_mul_pow2, Z.shiftr_div_pow2, Z.lor_comm by lia.
  assert (H2 : 2 ^ (32 - n) * 2 ^ n = 4294967296) by (rewrite <- Z.pow_add_r by lia; replace (32 - n + n) with 32 by lia; done).
  assert (0 < 2 ^ n) by (apply Z.pow_pos_nonneg; lia).
  assert (0 < 2 ^ (32 - n)) by (apply Z.pow_pos_nonneg; lia).
  rewrite (lor_disjoint _ _ n); [lia|lia| |].
  - split; [apply Z.div_pos; lia|]. apply Z.div_lt_upper_bound; lia.
  - unfold u32. rewrite <- H2, Z.mul_mod_distr_r by lia. apply Z.mod_mul. lia.
Qed.

Lemma md5_steps_spec :
  md5_steps = (fun i => ((i / 16)%nat, Rfc1321.word i, Rfc1321.shift i, default 0 (Rfc1321.T !! i))) <$> seq 0 64.
Proof. vm_compute. reflexivity. Qed.

Lemma shift_range i : (i < 64)%nat -> 0 < Rfc1321.shift i < 32.
Proof.
  intros Hi. assert (Hall : Forall (fun i => 0 < Rfc1321.shift i < 32) (seq 0 64)) by by_eval.
  rewrite Forall_forall in Hall. apply Hall, elem_of_seq. lia.
Qed.

Lemma md5_step_spec X v i : (i < 64)%nat ->
  md5_step X v ((i / 16)%nat, Rfc1321.word i, Rfc1321.shift i, default 0 (Rfc1321.T !! i)) =
  Rfc1321.step X v i.
Proof.
  intros Hi. destruct v as [[[a b] c] d]. unfold md5_step, Rfc1321.step, md5_P.
  rewrite md5_F_fn by done. rewrite md5_S_rotl by (by apply shift_range). do 4 f_equal. lia.
Qed.

Lemma foldl_ext_in {A B C} (f : A -> B -> A) (g : A -> C -> A) (h : C -> B) v l :
  (forall v x, In x l -> f v (h x) = g v x) -> foldl f v (h <$> l) = foldl g v l.
Proof.
  revert v. induction l as [|x l IH]; intros v Hf; [done|]. cbn [foldl fmap list_fmap].
  rewrite Hf by by left. apply IH. intros. apply Hf. by right.
Qed.

(** Four bytes of a block, one by one and as a slice. *)
Lemma four_bytes (b : bytes) k : length b = 64%nat -> Forall byte b -> (k < 16)%nat ->
  exists b0 b1 b2 b3, take 4 (drop (4 * k) b) = [b0; b1; b2; b3] /\
    byte_at b (4 * k) = b0 /\ byte_at b (4 * k + 1) = b1 /\ byte_at b (4 * k + 2) = b2 /\
    byte_at b (4 * k + 3) = b3 /\ byte b0 /\ byte b1 /\ byte b2 /\ byte b3.
Proof.
  intros Hl Hb Hk. unfold byte_at. pose proof (fun j => lookup_lt_is_Some_2 b j) as Hsome.
  destruct (Hsome (4 * k)%nat) as [b0 H0]; [lia|]. destruct (Hsome (4 * k + 1)%nat) as [b1 H1]; [lia|].
  destruct (Hsome (4 * k + 2)%nat) as [b2 H2]; [lia|]. destruct (Hsome (4 * k + 3)%nat) as [b3 H3]; [lia|].
  exists b0, b1, b2, b3. rewrite H0, H1, H2, H3. rewrite Forall_lookup in Hb. split_and!; eauto.
  rewrite (drop_S _ _ _ H0), (drop_S _ b1), (drop_S _ b2), (drop_S _ b3) by
    (rewrite <- ?H1, <- ?H2, <- ?H3; f_equal; lia). done.
Qed.

Lemma get_le_words (b : bytes) : length b = 64%nat -> Forall byte b ->
  ((fun i => get_uint32_le b (4 * i)) <$> seq 0 16) = Rfc1321.words b.
Proof.
  intros Hl Hb. unfold Rfc1321.words. apply list_fmap_ext. intros k i Hk. apply lookup_seq in Hk as [-> Hk].
  cbn [Nat.add]. destruct (four_bytes b k Hl Hb Hk) as (b0 & b1 & b2 & b3 & Htk & H0 & H1 & H2 & H3 & ? & ? & ? & ?).
  unfold get_uint32_le. rewrite Htk, H0, H1, H2, H3. cbn [Rfc1321.le32].
  unfold byte in *. rewrite !Z.shiftl_mul_pow2 by lia.
  change (2 ^ 8) with 256. change (2 ^ 16) with 65536. change (2 ^ 24) with 16777216.
  rewrite (lor_disjoint b0 _ 8) by (change (2 ^ 8) with 256; zmod).
  rewrite (lor_disjoint (b0 + b1 * 256) _ 16) by (change (2 ^ 16) with 65536; zmod).
  rewrite (lor_disjoint _ _ 24) by (change (2 ^ 24) with 16777216; zmod). lia.
Qed.

Lemma md5_process_spec st b : length b = 64%nat -> Forall byte b ->
  utils_md5_process st b = Rfc1321.compress st b.
Proof.
  intros Hl Hb. unfold utils_md5_process, Rfc1321.compress.
  destruct st as [|s0 [|s1 [|s2 [|s3 [|]]]]]; try done. rewrite get_le_words by done.
  rewrite md5_steps_spec. rewrite (foldl_ext_in _ (Rfc1321.step (Rfc1321.words b))); [done|].
  intros v i Hi. apply md5_step_spec. apply list_elem_of_In, elem_of_seq in Hi. lia.
Qed.

Lemma put_le_spec n : put_uint32_le n = Rfc1321.le 4 n.
Proof.
  unfold put_uint32_le. cbn [Rfc1321.le]. rewrite !land_255, !Z.shiftr_div_pow2 by lia.
  change (2 ^ 8) with 256. change (2 ^ 16) with 65536. change (2 ^ 24) with 16777216.
  rewrite !u8_small by zmod. rewrite !Z.div_div by lia. done.
Qed.

Lemma le_length n x : length (Rfc1321.le n x) = n.
Proof. revert x. induction n as [|n IH]; intros x; [done|]. cbn. by rewrite IH. Qed.

Lemma le_split n : 0 <= n < 18446744073709551616 ->
  put_uint32_le (n `mod` 4294967296) ++ put_uint32_le (n `div` 4294967296) = Rfc1321.le 8 n.
Proof.
  intros Hn. rewrite !put_le_spec. cbn [Rfc1321.le app]. rewrite !Z.div_div by lia. cbn [Z.mul].
  repeat (apply (f_equal2 cons); [zmod|]); reflexivity.
Qed.

Lemma le_byte n x : Forall byte (Rfc1321.le n x).
Proof. revert x. induction n as [|n IH]; intros x; constructor; [apply u8_range|apply IH]. Qed.

Lemma pad_byte enc m : (forall x, Forall byte (enc x)) -> Forall byte m -> Forall byte (pad enc m).
Proof.
  intros He Hm. unfold pad. repeat apply Forall_app_2; [done|by repeat constructor| |apply He].
  apply Forall_replicate. by split.
Qed.

Lemma rep_empty process st0 buf : length buf = 64%nat -> rep process st0 (mkContext 0 0 st0 buf) [].
Proof. intros Hb. by constructor. Qed.

Lemma md5_finish_rep ctx m :
  rep utils_md5_process md5_state0 ctx m -> zlen m + 72 < 2 ^ 61 -> Forall byte m ->
  utils_md5_finish ctx = Ok (Rfc1321.md5 m).
Proof.
  intros Hrep Hmax Hm. unfold utils_md5_finish.
  destruct (finish_pad_rep utils_md5_process (Rfc1321.le 8)
    (fun high low => put_uint32_le low ++ put_uint32_le high) md5_state0 ctx m Hrep Hmax) as (c & -> & Hc).
  - apply le_split. lia.
  - apply le_length.
  - cbn [mbind res_bind]. rewrite Hc. unfold Rfc1321.md5.
    rewrite (hash_blocks_ext _ Rfc1321.compress) by
      (auto using md5_process_spec; by apply pad_byte; [intros; apply le_byte|]).
    f_equal. f_equal. apply list_fmap_ext. intros. apply put_le_spec.
Qed.

(** The digest in hexadecimal. *)
Definition hex_digit (n : Z) : Z := default 0 (bytes_of "0123456789abcdef" !! Z.to_nat n).
Definition hex (d : bytes) : bytes := concat ((fun b => [hex_digit (b `div` 16); hex_digit (b `mod` 16)]) <$> d).

Lemma hb2hex_spec b : byte b ->
  [utils_hb2hex (b >>> 4); utils_hb2hex b] = [hex_digit (b `div` 16); hex_digit (b `mod` 16)].
Proof.
  intros Hb. assert (Hall : (utils_hb2hex (b >>> 4) =? hex_digit (b `div` 16)) &&
    (utils_hb2hex b =? hex_digit (b `mod` 16)) = true) by (revert b Hb; byte_decide).
  apply andb_true_iff in Hall as [H1 H2]. apply Z.eqb_eq in H1, H2. by rewrite H1, H2.
Qed.

Lemma hex_spec d : Forall byte d ->
  concat ((fun b => [utils_hb2hex (b >>> 4); utils_hb2hex b]) <$> d) = hex d.
Proof.
  intros Hd. unfold hex. f_equal. apply list_fmap_ext. intros i b Hi. apply hb2hex_spec.
  by eapply Forall_lookup_1.
Qed.

Lemma concat_byte (l : list bytes) : Forall (Forall byte) l -> Forall byte (concat l).
Proof. induction 1; cbn; [constructor|by apply Forall_app_2]. Qed.

(** A message fed in pieces. *)
Lemma md5_run (chunks : list bytes) :
  Forall (Forall byte) chunks -> Forall (fun c => zlen c < 2 ^ 32) chunks ->
  zlen (concat chunks) + 72 < 2 ^ 61 ->
  exists ctx, update_all utils_md5_process (utils_md5_starts utils_md5_init) chunks = Ok ctx /\
    utils_md5_finish ctx = Ok (Rfc1321.md5 (concat chunks)) /\
    utils_md5_finish_hb2hex ctx = Ok (hex (Rfc1321.md5 (concat chunks))).
Proof.
  intros Hb Hl Hmax. apply concat_byte in Hb.
  destruct (update_all_rep utils_md5_process md5_state0 (utils_md5_starts utils_md5_init) [] chunks)
    as (ctx & Hu & Hrep); [by apply rep_empty|cbn [app]; lia|done|].
  cbn [app] in Hrep. exists ctx. split; [done|].
  pose proof (md5_finish_rep ctx (concat chunks) Hrep Hmax Hb) as Hfin. split; [done|].
  unfold utils_md5_finish_hb2hex. rewrite Hfin. cbn [mbind res_bind]. f_equal. apply hex_spec.
  apply concat_byte, Forall_fmap, Forall_forall. intros x _. apply le_byte.
Qed.

(** The six pieces of a 80-byte message, one of them empty. *)
Definition chunks0 : list bytes :=
  [bytes_of "a"; []; bytes_of "bc"; replicate 61 100; replicate 7 101; replicate 9 102].
