(* ===== verification/Sha2.v ===== *)
(** SHA-256 and HMAC-SHA-256 ([uiot/utils/utils_sha2.c]) against FIPS 180-4 and
    RFC 2104. *)

From S2P Require Import Prelude Digest.

(* ================================================================== *)
(** * SHA-256 *)

(** [GET_UINT32_BE] and [PUT_UINT32_BE] *)
Definition get_uint32_be (b : bytes) (i : nat) : Z :=
  (byte_at b i <<< 24) ||| (byte_at b (i + 1) <<< 16) ||| (byte_at b (i + 2) <<< 8) ||| byte_at b (i + 3).
Definition put_uint32_be (n : Z) : bytes := [u8 (n >>> 24); u8 (n >>> 16); u8 (n >>> 8); u8 n].

Definition sha256_K : list Z :=
  [0x428A2F98; 0x71374491; 0xB5C0FBCF; 0xE9B5DBA5; 0x3956C25B; 0x59F111F1; 0x923F82A4; 0xAB1C5ED5;
   0xD807AA98; 0x12835B01; 0x243185BE; 0x550C7DC3; 0x72BE5D74; 0x80DEB1FE; 0x9BDC06A7; 0xC19BF174;
   0xE49B69C1; 0xEFBE4786; 0x0FC19DC6; 0x240CA1CC; 0x2DE92C6F; 0x4A7484AA; 0x5CB0A9DC; 0x76F988DA;
   0x983E5152; 0xA831C66D; 0xB00327C8; 0xBF597FC7; 0xC6E00BF3; 0xD5A79147; 0x06CA6351; 0x14292967;
   0x27B70A85; 0x2E1B2138; 0x4D2C6DFC; 0x53380D13; 0x650A7354; 0x766A0ABB; 0x81C2C92E; 0x92722C85;
   0xA2BFE8A1; 0xA81A664B; 0xC24B8B70; 0xC76C51A3; 0xD192E819; 0xD6990624; 0xF40E3585; 0x106AA070;
   0x19A4C116; 0x1E376C08; 0x2748774C; 0x34B0BCB5; 0x391C0CB3; 0x4ED8AA4A; 0x5B9CCA4F; 0x682E6FF3;
   0x748F82EE; 0x78A5636F; 0x84C87814; 0x8CC70208; 0x90BEFFFA; 0xA4506CEB; 0xBEF9A3F7; 0xC67178F2].

Definition SHR (x n : Z) : Z := (x &&& 0xFFFFFFFF) >>> n.
Definition ROTR (x n : Z) : Z := SHR x n ||| u32 (x <<< (32 - n)).
Definition S0 (x : Z) : Z := ROTR x 7 ^^^ ROTR x 18 ^^^ SHR x 3.
Definition S1 (x : Z) : Z := ROTR x 17 ^^^ ROTR x 19 ^^^ SHR x 10.
Definition S2 (x : Z) : Z := ROTR x 2 ^^^ ROTR x 13 ^^^ ROTR x 22.
Definition S3 (x : Z) : Z := ROTR x 6 ^^^ ROTR x 11 ^^^ ROTR x 25.
Definition F0 (x y z : Z) : Z := (x &&& y) ||| (z &&& (x ||| y)).
Definition F1 (x y z : Z) : Z := z ^^^ (x &&& (y ^^^ z)).

(** [W] holds the words computed so far: [R] computes the next. *)
Definition W_at (W : list Z) (i : nat) : Z := default 0 (W !! i).
Definition sha256_R (W : list Z) (t : nat) : Z :=
  u32 (S1 (W_at W (t - 2)) + W_at W (t - 7) + S0 (W_at W (t - 15)) + W_at W (t - 16)).

(** [P] followed by the rotation of [A]. *)
Definition sha256_P (A : list Z) (x K : Z) : list Z :=
  match A with
  | [a; b; c; d; e; f; g; h] =>
      let temp1 := u32 (h + S3 e + F1 e f g + K + x) in
      let temp2 := u32 (S2 a + F0 a b c) in
      [u32 (temp1 + temp2); a; b; c; u32 (d + temp1); e; f; g]
  | _ => A
  end.

Fixpoint sha256_loop (n i : nat) (data : bytes) (W A : list Z) : list Z :=
  match n with
  | O => A
  | S n =>
      let w := if decide (i < 16)%nat then get_uint32_be data (4 * i) else sha256_R W i in
      sha256_loop n (S i) data (W ++ [w]) (sha256_P A w (default 0 (sha256_K !! i)))
  end.

Definition utils_sha256_process (st : list Z) (data : bytes) : list Z :=
  zip_with (fun s a => u32 (s + a)) st (sha256_loop 64 0 data [] st).

Definition utils_sha256_init : context := mkContext 0 0 (replicate 8 0) (replicate 64 0).
Definition sha256_state0 : list Z :=
  [0x6A09E667; 0xBB67AE85; 0x3C6EF372; 0xA54FF53A; 0x510E527F; 0x9B05688C; 0x1F83D9AB; 0x5BE0CD19].
Definition utils_sha256_starts (ctx : context) : context := mkContext 0 0 sha256_state0 (buffer ctx).
Definition utils_sha256_update : context -> bytes -> res context := update utils_sha256_process.
Definition utils_sha256_finish (ctx : context) : res bytes :=
  ctx ← finish_pad utils_sha256_process (fun high low => put_uint32_be high ++ put_uint32_be low) ctx;
  Ok (concat (put_uint32_be <$> state ctx)).
Definition utils_sha256 (input : bytes) : res bytes :=
  ctx ← utils_sha256_update (utils_sha256_starts utils_sha256_init) input;
  utils_sha256_finish ctx.

(** [None] if the output is left as it was. *)
Definition utils_hmac_sha256 (msg key : bytes) : res (option bytes) :=
  if decide (zlen key > 64) then Ok None
  else
    k_pad ← write_at (replicate 64 0) 0 key;
    let k_ipad := (fun b => b ^^^ 0x36) <$> k_pad in
    let k_opad := (fun b => b ^^^ 0x5C) <$> k_pad in
    ctx ← utils_sha256_update (utils_sha256_starts utils_sha256_init) k_ipad;
    ctx ← utils_sha256_update ctx msg;
    inner ← utils_sha256_finish ctx;
    ctx ← utils_sha256_update (utils_sha256_starts utils_sha256_init) k_opad;
    ctx ← utils_sha256_update ctx inner;
    output ← utils_sha256_finish ctx;
    Ok (Some output).

(** ** FIPS 180-4 and RFC 2104 *)
Module Fips180.

(** The constants as the standard defines them: the first 32 bits of the
    fractional parts of the cube roots of the first sixty-four primes, and of
    the square roots of the first eight. [root n k x r]: the greatest number
    above [r] by less than [2 ^ n] whose [k]-th power is at most [x]. *)
Fixpoint root (n : nat) (k x r : Z) : Z :=
  match n with
  | O => r
  | S n => root n k x (if decide ((r + 2 ^ Z.of_nat n) ^ k <= x) then r + 2 ^ Z.of_nat n else r)
  end.
Definition fraction (k p : Z) : Z := root 40 k (p * 2 ^ (32 * k)) 0 `mod` 2 ^ 32.
Definition is_prime (p : Z) : bool := forallb (fun d => negb (p `mod` d =? 0)) (seqZ 2 (p - 2)).
Definition primes : list Z := List.filter is_prime (seqZ 2 310).
Definition K : list Z := fraction 3 <$> primes.
Definition H0 : list Z := fraction 2 <$> take 8 primes.

Definition shr (n x : Z) : Z := u32 x >>> n.
Definition rotr (n x : Z) : Z := u32 x `div` 2 ^ n + u32 (u32 x * 2 ^ (32 - n)).
Definition ch (x y z : Z) : Z := (x &&& y) ^^^ (Z.lnot x &&& z).
Definition maj (x y z : Z) : Z := (x &&& y) ^^^ (x &&& z) ^^^ (y &&& z).
Definition Sigma0 (x : Z) : Z := rotr 2 x ^^^ rotr 13 x ^^^ rotr 22 x.
Definition Sigma1 (x : Z) : Z := rotr 6 x ^^^ rotr 11 x ^^^ rotr 25 x.
Definition sigma0 (x : Z) : Z := rotr 7 x ^^^ rotr 18 x ^^^ shr 3 x.
Definition sigma1 (x : Z) : Z := rotr 17 x ^^^ rotr 19 x ^^^ shr 10 x.

(** The message schedule: sixteen words, extended one by one. *)
Fixpoint extend (n : nat) (W : list Z) : list Z :=
  match n with
  | O => W
  | S n =>
      let t := length W in
      let at_ k := default 0 (W !! (t - k)%nat) in
      extend n (W ++ [u32 (sigma1 (at_ 2%nat) + at_ 7%nat + sigma0 (at_ 15%nat) + at_ 16%nat)])
  end.
Definition be32 (b : bytes) : Z :=
  match b with [b0; b1; b2; b3] => 16777216 * b0 + 65536 * b1 + 256 * b2 + b3 | _ => 0 end.
Definition schedule (data : bytes) : list Z :=
  extend 48 ((fun i => be32 (take 4 (drop (4 * i) data))) <$> seq 0 16).

Definition round (v : list Z) (kw : Z * Z) : list Z :=
  match v with
  | [a; b; c; d; e; f; g; h] =>
      let T1 := h + Sigma1 e + ch e f g + kw.1 + kw.2 in
      let T2 := Sigma0 a + maj a b c in
      [u32 (T1 + T2); a; b; c; u32 (d + T1); e; f; g]
  | _ => v
  end.

Definition compress (st : list Z) (data : bytes) : list Z :=
  zip_with (fun s a => u32 (s + a)) st (foldl round st (zip K (schedule data))).

(** An integer as [n] bytes, the high one first. *)
Definition be (n : nat) (x : Z) : bytes := reverse (Rfc1321.le n x).

Definition sha256 (m : bytes) : bytes :=
  concat (be 4 <$> hash_blocks compress H0 (pad (be 8) m)).

Definition hmac (key msg : bytes) : bytes :=
  let k0 := key ++ replicate (64 - length key) 0 in
  sha256 (((fun b => b ^^^ 0x5C) <$> k0) ++ sha256 (((fun b => b ^^^ 0x36) <$> k0) ++ msg)).

End Fips180.

Example sha256_abc : utils_sha256 (bytes_of "abc") =
  Ok [0xBA; 0x78; 0x16; 0xBF; 0x8F; 0x01; 0xCF; 0xEA; 0x41; 0x41; 0x40; 0xDE; 0x5D; 0xAE; 0x22; 0x23;
      0xB0; 0x03; 0x61; 0xA3; 0x96; 0x17; 0x7A; 0x9C; 0xB4; 0x10; 0xFF; 0x61; 0xF2; 0x00; 0x15; 0xAD].
Proof. vm_compute. reflexivity. Qed.
Example sha256_abc_reference : utils_sha256 (bytes_of "abc") = Ok (Fips180.sha256 (bytes_of "abc")).
Proof. vm_compute. reflexivity. Qed.

(** ** The code computes FIPS 180-4 *)

(** [Fips180.root] is the integer root. *)
Lemma root_spec n k x r : 0 < k -> 0 <= r -> r ^ k <= x < (r + 2 ^ Z.of_nat n) ^ k ->
  let v := Fips180.root n k x r in 0 <= v /\ v ^ k <= x < (v + 1) ^ k.
Proof.
  intros Hk. revert r. induction n as [|n IH]; intros r Hr Hx; [done|]. cbn [Fips180.root].
  rewrite Nat2Z.inj_succ, Z.pow_succ_r in Hx by lia.
  assert (0 < 2 ^ Z.of_nat n) by (apply Z.pow_pos_nonneg; lia).
  case_decide; apply IH; [lia| |done|].
  - split; [done|]. replace (r + 2 ^ Z.of_nat n + 2 ^ Z.of_nat n) with (r + 2 * 2 ^ Z.of_nat n) by lia. apply Hx.
  - lia.
Qed.

(** The first 32 bits behind the point of the root of [p]. *)
Lemma fraction_spec k p : 0 < k -> 0 <= p < 2 ^ (8 * k) ->
  exists w, 0 <= w /\ w ^ k <= p * 2 ^ (32 * k) < (w + 1) ^ k /\ Fips180.fraction k p = w `mod` 2 ^ 32.
Proof.
  intros Hk Hp. assert (Hs : 2 ^ (32 * k) > 0) by (apply Z.lt_gt, Z.pow_pos_nonneg; lia).
  destruct (root_spec 40 k (p * 2 ^ (32 * k)) 0) as [? ?]; [done..| |by eexists].
  rewrite Z.pow_0_l by done. split; [nia|]. change (0 + 2 ^ Z.of_nat 40) with (2 ^ 40).
  rewrite <- Z.pow_mul_r by lia. replace (40 * k) with (8 * k + 32 * k) by lia. rewrite Z.pow_add_r by lia. nia.
Qed.

(** The tables of the code are those of the standard. *)
Lemma sha256_K_spec : sha256_K = Fips180.K.
Proof. vm_compute. reflexivity. Qed.
Lemma sha256_state0_spec : sha256_state0 = Fips180.H0.
Proof. vm_compute. reflexivity. Qed.
Lemma primes_spec : length Fips180.primes = 64%nat.
Proof. vm_compute. reflexivity. Qed.

Lemma ROTR_spec n x : 0 < n < 32 -> ROTR x n = Fips180.rotr n x.
Proof.
  intros Hn. unfold ROTR, SHR, Fips180.rotr. change 0xFFFFFFFF with (Z.ones 32). rewrite Z.land_ones by lia.
  change (x `mod` 2 ^ 32) with (u32 x). rewrite Z.shiftr_div_pow2, Z.shiftl_mul_pow2 by lia.
  assert (Hu : u32 (x * 2 ^ (32 - n)) = u32 (u32 x * 2 ^ (32 - n))) by (unfold u32; by rewrite Z.mul_mod_idemp_l).
  rewrite Hu. pose proof (u32_range x) as Hx. set (w := u32 x) in *.
  assert (H2 : 2 ^ n * 2 ^ (32 - n) = 4294967296) by (rewrite <- Z.pow_add_r by lia; replace (n + (32 - n)) with 32 by lia; done).
  assert (0 < 2 ^ n) by (apply Z.pow_pos_nonneg; lia).
  assert (0 < 2 ^ (32 - n)) by (apply Z.pow_pos_nonneg; lia).
  apply (lor_disjoint _ _ (32 - n)); [lia| |].
  - split; [apply Z.div_pos; lia|]. apply Z.div_lt_upper_bound; lia.
  - unfold u32. rewrite <- H2, Z.mul_mod_distr_r by lia. apply Z.mod_mul. lia.
Qed.

Lemma SHR_spec n x : SHR x n = Fips180.shr n x.
Proof. unfold SHR, Fips180.shr. f_equal. apply (Z.land_ones x 32). lia. Qed.

Lemma sigma_spec x :
  S0 x = Fips180.sigma0 x /\ S1 x = Fips180.sigma1 x /\ S2 x = Fips180.Sigma0 x /\ S3 x = Fips180.Sigma1 x.
Proof.
  unfold S0, S1, S2, S3, Fips180.sigma0, Fips180.sigma1, Fips180.Sigma0, Fips180.Sigma1.
  by rewrite !ROTR_spec, !SHR_spec by lia.
Qed.

Lemma F0_spec x y z : F0 x y z = Fips180.maj x y z.
Proof. unfold F0, Fips180.maj. bits. Qed.
Lemma F1_spec x y z : F1 x y z = Fips180.ch x y z.
Proof. unfold F1, Fips180.ch. bits. Qed.

Lemma sha256_P_spec A k x : sha256_P A x k = Fips180.round A (k, x).
Proof.
  destruct A as [|a [|b [|c [|d [|e [|f [|g [|h [|]]]]]]]]]; try done.
  unfold sha256_P, Fips180.round. cbn [fst snd]. rewrite F0_spec, F1_spec.
  destruct (sigma_spec e) as (_ & _ & _ & ->). destruct (sigma_spec a) as (_ & _ & -> & _).
  unfold u32. by rewrite <- Zplus_mod, Zplus_mod_idemp_r.
Qed.

(** The words after [n] more rounds. *)
Fixpoint grow (n i : nat) (data : bytes) (W : list Z) : list Z :=
  match n with
  | O => W
  | S n => grow n (S i) data
             (W ++ [if decide (i < 16)%nat then get_uint32_be data (4 * i) else sha256_R W i])
  end.

Lemma grow_prefix n i data W : exists W', grow n i data W = W ++ W' /\ length W' = n.
Proof.
  revert i W. induction n as [|n IH]; intros i W; cbn [grow]; [exists []; by rewrite app_nil_r|].
  destruct (IH (S i) (W ++ [if decide (i < 16)%nat then get_uint32_be data (4 * i) else sha256_R W i]))
    as (W' & -> & Hl).
  eexists. rewrite <- app_assoc. split; [done|]. cbn. by rewrite Hl.
Qed.

Lemma sha256_loop_spec n i data W A :
  length W = i -> (i + n <= 64)%nat ->
  sha256_loop n i data W A = foldl Fips180.round A (take n (drop i (zip sha256_K (grow n i data W)))).
Proof.
  revert i W A. induction n as [|n IH]; intros i W A Hi Hn; [done|]. cbn [sha256_loop grow].
  set (w := if decide (i < 16)%nat then _ else _).
  rewrite IH by (rewrite ?length_app; cbn; lia).
  destruct (grow_prefix n (S i) data (W ++ [w])) as (W' & -> & Hl).
  destruct (lookup_lt_is_Some_2 sha256_K i) as [k Hk]; [change (length sha256_K) with 64%nat; lia|].
  assert (Hz : zip sha256_K ((W ++ [w]) ++ W') !! i = Some (k, w)).
  { apply lookup_zip_Some. split; [done|]. rewrite lookup_app_l by (rewrite length_app; cbn; lia).
    rewrite lookup_app_r by lia. by rewrite Hi, Nat.sub_diag. }
  rewrite (drop_S _ _ _ Hz). cbn [take foldl]. by rewrite sha256_P_spec, Hk.
Qed.

Lemma get_be_words (b : bytes) k : length b = 64%nat -> Forall byte b -> (k < 16)%nat ->
  get_uint32_be b (4 * k) = Fips180.be32 (take 4 (drop (4 * k) b)).
Proof.
  intros Hl Hb Hk.
  destruct (four_bytes b k Hl Hb Hk) as (b0 & b1 & b2 & b3 & Htk & H0 & H1 & H2 & H3 & ? & ? & ? & ?).
  unfold get_uint32_be. rewrite Htk, H0, H1, H2, H3. cbn [Fips180.be32].
  unfold byte in *. rewrite !Z.shiftl_mul_pow2 by lia.
  change (2 ^ 8) with 256. change (2 ^ 16) with 65536. change (2 ^ 24) with 16777216.
  rewrite (Z.lor_comm (b0 * 16777216)), (lor_disjoint (b1 * 65536) _ 24) by (change (2 ^ 24) with 16777216; zmod).
  rewrite (Z.lor_comm _ (b2 * 256)), (lor_disjoint (b2 * 256) _ 16) by (change (2 ^ 16) with 65536; zmod).
  rewrite (Z.lor_comm _ b3), (lor_disjoint b3 _ 8) by (change (2 ^ 8) with 256; zmod). lia.
Qed.

Lemma grow_add n k i data W : grow (n + k) i data W = grow k (n + i) data (grow n i data W).
Proof.
  revert i W. induction n as [|n IH]; intros i W; [done|]. cbn [grow Nat.add]. rewrite IH. f_equal. lia.
Qed.

Lemma grow_extend n i data W : length W = i -> (16 <= i)%nat -> grow n i data W = Fips180.extend n W.
Proof.
  revert i W. induction n as [|n IH]; intros i W Hi H16; [done|]. cbn [grow Fips180.extend].
  rewrite decide_False by lia. rewrite IH by (rewrite ?length_app; cbn; lia). f_equal. f_equal. f_equal.
  subst i. unfold sha256_R, W_at. destruct (sigma_spec (default 0 (W !! (length W - 2)%nat))) as (_ & -> & _).
  by destruct (sigma_spec (default 0 (W !! (length W - 15)%nat))) as (-> & _).
Qed.

Lemma grow_schedule data : length data = 64%nat -> Forall byte data ->
  grow 64 0 data [] = Fips180.schedule data.
Proof.
  intros Hl Hb. change 64%nat with (16 + 48)%nat. rewrite grow_add.
  assert (H16 : grow 16 0 data [] = (fun i => get_uint32_be data (4 * i)) <$> seq 0 16) by done.
  rewrite H16, grow_extend by done. unfold Fips180.schedule. f_equal.
  apply list_fmap_ext. intros k i Hk. apply lookup_seq in Hk as [-> Hk]. by apply get_be_words.
Qed.

Lemma extend_length n W : length (Fips180.extend n W) = (n + length W)%nat.
Proof.
  revert W. induction n as [|n IH]; intros W; [done|]. cbn [Fips180.extend]. rewrite IH, length_app. cbn. lia.
Qed.

Lemma sha256_process_spec st b : length b = 64%nat -> Forall byte b ->
  utils_sha256_process st b = Fips180.compress st b.
Proof.
  intros Hl Hb. unfold utils_sha256_process, Fips180.compress. rewrite <- sha256_K_spec.
  rewrite sha256_loop_spec by (reflexivity || lia). rewrite (grow_schedule b Hl Hb), drop_0.
  rewrite take_ge; [reflexivity|]. rewrite length_zip_with. unfold Fips180.schedule. rewrite extend_length.
  change (length sha256_K) with 64%nat. lia.
Qed.

Lemma put_be_spec n : put_uint32_be n = Fips180.be 4 n.
Proof.
  unfold put_uint32_be, Fips180.be. rewrite !Z.shiftr_div_pow2 by lia. cbn [Rfc1321.le].
  change (2 ^ 8) with 256. change (2 ^ 16) with 65536. change (2 ^ 24) with 16777216.
  rewrite !Z.div_div by lia. done.
Qed.

Lemma be_split n : 0 <= n < 18446744073709551616 ->
  put_uint32_be (n `div` 4294967296) ++ put_uint32_be (n `mod` 4294967296) = Fips180.be 8 n.
Proof.
  intros Hn. rewrite !put_be_spec. unfold Fips180.be. rewrite <- reverse_app. f_equal.
  by rewrite <- !put_le_spec, le_split.
Qed.

Lemma be_byte n x : Forall byte (Fips180.be n x).
Proof. apply Forall_reverse, le_byte. Qed.

Lemma sha256_finish_rep ctx m :
  rep utils_sha256_process sha256_state0 ctx m -> zlen m + 72 < 2 ^ 61 -> Forall byte m ->
  utils_sha256_finish ctx = Ok (Fips180.sha256 m).
Proof.
  intros Hrep Hmax Hm. unfold utils_sha256_finish.
  destruct (finish_pad_rep utils_sha256_process (Fips180.be 8)
    (fun high low => put_uint32_be high ++ put_uint32_be low) sha256_state0 ctx m Hrep Hmax) as (c & -> & Hc).
  - apply be_split. lia.
  - unfold Fips180.be. by rewrite length_reverse, le_length.
  - cbn [mbind res_bind]. rewrite Hc. unfold Fips180.sha256. rewrite <- sha256_state0_spec.
    rewrite (hash_blocks_ext _ Fips180.compress) by
      (auto using sha256_process_spec; by apply pad_byte; [intros; apply be_byte|]).
    f_equal. f_equal. apply list_fmap_ext. intros. apply put_be_spec.
Qed.

Lemma sha256_byte m : Forall byte (Fips180.sha256 m).
Proof. apply concat_byte, Forall_fmap, Forall_forall. intros x _. apply be_byte. Qed.

Lemma sha256_state_length data st : length st = 8%nat -> length (Fips180.compress st data) = 8%nat.
Proof.
  intros Hst. unfold Fips180.compress. rewrite length_zip_with.
  assert (Hf : forall l v, length v = 8%nat -> length (foldl Fips180.round v l) = 8%nat).
  { induction l as [|kw l IH]; intros v Hv; [done|]. cbn [foldl]. apply IH.
    by destruct v as [|? [|? [|? [|? [|? [|? [|? [|? [|]]]]]]]]]. }
  rewrite Hf by done. lia.
Qed.

Lemma sha256_length m : zlen (Fips180.sha256 m) = 32.
Proof.
  unfold Fips180.sha256, hash_blocks. generalize (pad (Fips180.be 8) m). intros p.
  assert (Hl : forall n st q, length st = 8%nat -> length (blocks Fips180.compress n st q) = 8%nat).
  { induction n as [|n IH]; intros st q Hst; [done|]. cbn [blocks]. by apply IH, sha256_state_length. }
  specialize (Hl (length p / 64)%nat Fips180.H0 p eq_refl). revert Hl.
  generalize (blocks Fips180.compress (length p / 64) Fips180.H0 p).
  intros l Hl. destruct l as [|? [|? [|? [|? [|? [|? [|? [|? [|]]]]]]]]]; done.
Qed.

(** One pass of HMAC: a first piece, then a second. *)
Lemma sha256_two a b : Forall byte a -> Forall byte b -> zlen a < 2 ^ 32 -> zlen b < 2 ^ 32 ->
  (ctx ← utils_sha256_update (utils_sha256_starts utils_sha256_init) a;
   ctx ← utils_sha256_update ctx b;
   utils_sha256_finish ctx) = Ok (Fips180.sha256 (a ++ b)).
Proof.
  intros Ha Hb Hla Hlb.
  destruct (update_rep utils_sha256_process sha256_state0 (utils_sha256_starts utils_sha256_init) [] a)
    as (c1 & Hu1 & Hr1); [by apply rep_empty|cbn [app]; lia|done|].
  unfold utils_sha256_update. rewrite Hu1. cbn [mbind res_bind].
  destruct (update_rep utils_sha256_process sha256_state0 c1 ([] ++ a) b Hr1) as (c2 & -> & Hr2);
    [rewrite !length_app; cbn [length]; lia|done|].
  cbn [mbind res_bind]. apply (sha256_finish_rep c2 (a ++ b) Hr2); [rewrite length_app; lia|].
  by apply Forall_app_2.
Qed.

Lemma xor_pads b : byte b -> byte (b ^^^ 0x36) /\ byte (b ^^^ 0x5C).
Proof.
  intros Hb. assert (Hall : bool_decide (byte (b ^^^ 0x36) /\ byte (b ^^^ 0x5C)) = true)
    by (revert b Hb; byte_decide).
  by apply bool_decide_eq_true in Hall.
Qed.

(** HMAC of RFC 2104 over SHA-256 of FIPS 180-4. *)
Lemma hmac_run (msg key : bytes) :
  Forall byte msg -> Forall byte key -> zlen msg < 2 ^ 32 ->
  utils_hmac_sha256 msg key =
  Ok (if decide (zlen key > 64) then None else Some (Fips180.hmac key msg)).
Proof.
  intros Hm Hk Hl. unfold utils_hmac_sha256. case_decide as Hlong; [done|].
  assert (Hw : write_at (replicate 64 0) 0 key = Ok (key ++ replicate (64 - length key) 0)).
  { change 0 with (Z.of_nat 0). rewrite write_at_exact by (rewrite length_replicate; lia).
    cbn [take app Nat.add]. by rewrite drop_replicate. }
  rewrite Hw. cbn [mbind res_bind]. unfold Fips180.hmac. set (k0 := key ++ replicate (64 - length key) 0).
  assert (Hl0 : length k0 = 64%nat) by (unfold k0; rewrite length_app, length_replicate; lia).
  assert (Hb0 : Forall byte k0) by (apply Forall_app_2; [done|]; apply Forall_replicate; by split).
  set (ipad := (fun b => b ^^^ 0x36) <$> k0). set (opad := (fun b => b ^^^ 0x5C) <$> k0).
  assert (Hi : Forall byte ipad) by (apply Forall_fmap; eapply Forall_impl; [exact Hb0|]; apply xor_pads).
  assert (Ho : Forall byte opad) by (apply Forall_fmap; eapply Forall_impl; [exact Hb0|]; apply xor_pads).
  assert (Hpads : zlen ipad = 64 /\ zlen opad = 64) by (unfold ipad, opad; rewrite !length_fmap, Hl0; done).
  pose proof (sha256_two ipad msg Hi Hm ltac:(lia) Hl) as H1.
  set (inner := Fips180.sha256 (ipad ++ msg)) in *.
  assert (Hil : zlen inner = 32) by apply sha256_length.
  pose proof (sha256_two opad inner Ho (sha256_byte _) ltac:(lia) ltac:(lia)) as H2.
  clearbody inner. destruct (utils_sha256_update _ ipad) as [c1| |]; [|done..]. cbn [mbind res_bind] in *.
  destruct (utils_sha256_update c1 msg) as [c2| |]; [|done..]. cbn [mbind res_bind] in *. rewrite H1.
  cbn [mbind res_bind]. destruct (utils_sha256_update _ opad) as [c3| |]; [|done..]. cbn [mbind res_bind] in *.
  destruct (utils_sha256_update c3 inner) as [c4| |]; [|done..]. cbn [mbind res_bind] in *. by rewrite H2.
Qed.

(* ================================================================== *)
(** * The digests *)

(** C37: feeding a message to the MD5 context in any pieces (each below 4 GiB,
    2^61 - 72 bytes in all) never leaves the 64-byte buffer, and the digest is
    the one RFC 1321 defines for the whole message: the round functions, the
    word order, the carry of the 64-bit byte count and the padding are right.
    The string for the update protocol is its lower-case hexadecimal form.
    For a key of at most 64 bytes and a message below 4 GiB,
    [utils_hmac_sha256] returns the HMAC of RFC 2104 over SHA-256 of
    FIPS 180-4 (whose tables are computed here from the roots of the primes,
    not taken from the code) and never leaves its buffers; for a longer key, which the RFC
    would hash first, it leaves the output as it was. *)
Theorem digests_correct (chunks : list bytes) (msg key : bytes) :
  (Forall (Forall byte) chunks -> Forall (fun c => zlen c < 2 ^ 32) chunks -> zlen (concat chunks) + 72 < 2 ^ 61 ->
   exists ctx, update_all utils_md5_process (utils_md5_starts utils_md5_init) chunks = Ok ctx /\
     utils_md5_finish ctx = Ok (Rfc1321.md5 (concat chunks)) /\
     utils_md5_finish_hb2hex ctx = Ok (Digest.hex (Rfc1321.md5 (concat chunks)))) /\
  (Forall byte msg -> Forall byte key -> zlen msg < 2 ^ 32 ->
   utils_hmac_sha256 msg key = Ok (if decide (zlen key > 64) then None else Some (Fips180.hmac key msg))).
Proof. split; [apply md5_run|apply hmac_run]. Qed.

(** The six pieces of a 80-byte message, one of them empty; test case 2 of RFC
    4231. *)
Definition key0 : bytes := bytes_of "Jefe".
Definition msg0 : bytes := bytes_of "what do ya want for nothing?".
Lemma digests_correct_witness :
  (exists ctx, update_all utils_md5_process (utils_md5_starts utils_md5_init) chunks0 = Ok ctx /\
     utils_md5_finish ctx = Ok (Rfc1321.md5 (concat chunks0))) /\
  utils_hmac_sha256 msg0 key0 =
  Ok (Some [0x5B; 0xDC; 0xC1; 0x46; 0xBF; 0x60; 0x75; 0x4E; 0x6A; 0x04; 0x24; 0x26; 0x08; 0x95; 0x75; 0xC7;
            0x5A; 0x00; 0x3F; 0x08; 0x9D; 0x27; 0x39; 0x83; 0x9D; 0xEC; 0x58; 0xB9; 0x64; 0xEC; 0x38; 0x43]).
Proof.
  destruct (digests_correct chunks0 msg0 key0) as [Hmd5 Hmac]. split.
  - destruct Hmd5 as (ctx & Hu & Hf & _); [by_eval|by_eval|by_eval|]. exists ctx. split; [exact Hu|exact Hf].
  - refine (eq_trans (Hmac _ _ _) _); [by_eval|by_eval|by_eval|vm_compute; reflexivity].
Defined.
