(* ===== verification/Json.v ===== *)
(** The JSON scanner ([uiot/utils/json_parser.c]) and the lookup of a value by
    its path ([LITE_json_value_of] of [uiot/utils/json_token.c]), on which the
    layers above MQTT read every message of the cloud.

    A [char *] into a C string is the list of the bytes from it on, the
    terminating 0 and what lies behind it included; reading at [[]] is a read
    outside the object. *)

From S2P Require Import Prelude.

(* ================================================================== *)
(** * The code *)

(** ** C strings *)

Fixpoint strlen (p : bytes) : res nat :=
  match p with
  | [] => Oob
  | c :: p' => if decide (c = 0) then Ok O else n ← strlen p'; Ok (S n)
  end.

(** [strchr]; the character searched is not 0. *)
Fixpoint strchr (p : bytes) (ch : Z) : res (option bytes) :=
  match p with
  | [] => Oob
  | c :: p' => if decide (c = ch) then Ok (Some p)
               else if decide (c = 0) then Ok None else strchr p' ch
  end.

(** [!strncmp(a, b, n)] *)
Fixpoint same_n (n : nat) (a b : bytes) : res bool :=
  match n with
  | O => Ok true
  | S n =>
      match a, b with
      | x :: a', y :: b' =>
          if decide (x = y) then if decide (x = 0) then Ok true else same_n n a' b' else Ok false
      | _, _ => Oob
      end
  end.

(** A string literal. *)
Definition lit (s : String.string) : bytes := bytes_of s ++ [0].

(** ** [json_parser.c] *)

(** [enum JSONTYPE], [enum JSON_PARSE_CODE], [enum JSON_PARSE_RESULT] *)
Definition JSNONE := -1.
Definition JSSTRING := 0.
Definition JSOBJECT := 1.
Definition JSARRAY := 2.
Definition JSNUMBER := 3.
Definition JSBOOLEAN := 4.
Definition JSNULL := 5.
Inductive JSON_PARSE_CODE := JSON_PARSE_ERR | JSON_PARSE_OK | JSON_PARSE_FINISH.
Definition JSON_RESULT_ERR := -1.
Definition JSON_RESULT_OK := 0.

(** [JsonMark]: the first and the second mark of a type. *)
Definition JsonMark (ty : Z) : Z * Z :=
  if decide (ty = JSSTRING) then (34, 34)
  else if decide (ty = JSOBJECT) then (123, 125)
  else if decide (ty = JSARRAY) then (91, 93) else (48, 32).

Fixpoint json_get_object (type : Z) (str : bytes) : res (option bytes) :=
  match str with
  | [] => Oob
  | c :: str' =>
      if decide (c = 0) then Ok None
      else if decide (c = 32) then json_get_object type str'
      else if decide (c = if decide (type = JSOBJECT) then 123 else 91) then Ok (Some str)
      else Ok None
  end.

(** What [json_get_next_object] leaves in its output parameters. *)
Record entry := mkEntry {
  key : option bytes;
  key_len : nat;
  val : option bytes;
  val_len : nat;
  val_type : Z
}.

Definition is_digit (c : Z) : bool := bool_decide (48 <= c <= 57).

(** The loop that looks for the value: its type, [p_cValue], [p_cPos]. *)
Fixpoint find_value (p : bytes) : res (Z * option bytes * bytes) :=
  match p with
  | [] => Oob
  | c :: p' =>
      if decide (c = 0) then Ok (JSNONE, None, p)
      else if decide (c = 34) then Ok (JSSTRING, Some p', p')
      else if decide (c = 123) then Ok (JSOBJECT, Some p, p')
      else if decide (c = 91) then Ok (JSARRAY, Some p, p')
      else if bool_decide (c = 45) || is_digit c then Ok (JSNUMBER, Some p, p')
      else if bool_decide (c = 116 \/ c = 84 \/ c = 102 \/ c = 70)
      then Ok (JSBOOLEAN, Some p, p)
      else if bool_decide (c = 110 \/ c = 78) then Ok (JSNULL, Some p, p)
      else find_value p'
  end.

(** The guard on a literal: the first character, the length, then the lower or the upper case word. *)
Definition is_word (v : bytes) (x X : Z) (lo up : String.string) : res bool :=
  match v with
  | [] => Oob
  | c :: _ =>
      len ← strlen v;
      let n := length (bytes_of lo) in
      if bool_decide (c = x \/ c = X) && bool_decide (n <= len)%nat then
        is_lo ← same_n n v (lit lo);
        if is_lo : bool then Ok true else same_n n v (lit up)
      else Ok false
  end.

(** The loop that looks for the end of the value [v]: [n] is [p_cPos - v]; it
    yields [iValueLen]. *)
Fixpoint value_len (ty : Z) (v : bytes) (n : nat) (iMarkDepth : Z) (p : bytes) : res nat :=
  match p with
  | [] => Oob
  | c :: p' =>
      let next depth := value_len ty v (S n) depth p' in
      if decide (c = 0) then Ok O
      else if decide (ty = JSBOOLEAN) then
        is_true ← is_word v 116 84 "true" "TRUE";
        if is_true : bool then Ok 4%nat
        else
          is_false ← is_word v 102 70 "false" "FALSE";
          if is_false : bool then Ok 5%nat else next iMarkDepth
      else if decide (ty = JSNULL) then
        is_null ← is_word v 110 78 "null" "NULL";
        if is_null : bool then Ok 4%nat else next iMarkDepth
      else if decide (ty = JSNUMBER) then
        if negb (is_digit c) && negb (bool_decide (c = 46)) then Ok n else next iMarkDepth
      else if decide (c = (JsonMark ty).2) then
        if decide (iMarkDepth = 0) then Ok (if decide (ty = JSSTRING) then n else S n)
        else next (iMarkDepth - 1)
      else if decide (c = (JsonMark ty).1) then next (iMarkDepth + 1)
      else next iMarkDepth
  end.

(** The first part: the key and the position from which the value is searched. *)
Definition json_get_key (str : bytes) : res (option (bytes * nat * option bytes)) :=
  q1 ← strchr str 34;
  match q1 with
  | None => Ok None
  | Some q1 =>
      let p_cName := drop 1 q1 in
      q2 ← strchr p_cName 34;
      match q2 with
      | None => Ok None
      | Some q2 =>
          colon ← strchr q2 58;
          Ok (Some (p_cName, (length p_cName - length q2)%nat, colon))
      end
  end.

(** The second part: the value, and the pointer behind it. *)
Definition json_get_value (p_cPos : option bytes) : res (option bytes * nat * Z * option bytes) :=
  match p_cPos with
  | None => Ok (None, O, JSNONE, None)
  | Some p =>
      '(ty, p_cValue, p) ← find_value p;
      match p_cValue with
      | None => Ok (None, O, ty, None)
      | Some v =>
          n ← value_len ty v (length v - length p)%nat 0 p;
          Ok (Some v, n, ty, Some (drop (if decide (ty = JSSTRING) then n + 1 else n)%nat v))
      end
  end.

(** No entry if the function returns before it writes its outputs. *)
Definition json_get_next_object (type : Z) (str : bytes) : res (option entry * option bytes) :=
  if decide (type = JSOBJECT) then
    k ← json_get_key str;
    match k with
    | None => Ok (None, None)
    | Some (k, klen, p_cPos) =>
        '(v, vlen, ty, pos) ← json_get_value p_cPos;
        Ok (Some (mkEntry (Some k) klen v vlen ty), pos)
    end
  else
    '(v, vlen, ty, pos) ← json_get_value (Some str);
    Ok (Some (mkEntry None O v vlen ty), pos).

(** [json_object_for_each_kv] with a body that may [break] (the boolean); the
    code of the scanner yields no errors, so [OUT_OF_FUEL] is the mark of too
    little fuel. *)
Definition OUT_OF_FUEL := 1.
Fixpoint for_each_kv {A} (fuel : nat) (body : entry -> A -> res (bool * A)) (pos : option bytes) (a : A) : res A :=
  match fuel with
  | O => Err OUT_OF_FUEL
  | S fuel =>
      match pos with
      | None => Ok a
      | Some [] => Oob
      | Some ((c :: _) as p) =>
          if decide (c = 0) then Ok a
          else
            r ← json_get_next_object JSOBJECT p;
            match r with
            | (Some e, Some p') =>
                '(stop, a) ← body e a;
                if stop : bool then Ok a else for_each_kv fuel body (Some p') a
            | _ => Ok a
            end
      end
  end.
Definition json_object_for_each_kv {A} (body : entry -> A -> res (bool * A)) (str : bytes) (a : A) : res A :=
  pos ← json_get_object JSOBJECT str;
  for_each_kv (S (length str)) body pos a.

(** [json_parse_cb] *)
Abbreviation json_parse_cb A := (bytes -> nat -> bytes -> nat -> Z -> A -> res (JSON_PARSE_CODE * A)).

(** [json_str[i] = c] *)
Definition set_char (str : bytes) (i : nat) (c : Z) : res bytes := write_at str (Z.of_nat i) [c].

(** The body of the loop of [json_parse_name_value]: [ret] and the data of the
    callback. *)
Definition parse_body {A} (pfnCB : json_parse_cb A) (e : entry) (s : Z * A) : res (bool * (Z * A)) :=
  match key e, val e with
  | Some k, Some v =>
      if decide (key_len e = O \/ val_len e = O) then Ok (false, s)
      else
        '(rc, a) ← pfnCB k (key_len e) v (val_len e) (val_type e) s.2;
        Ok (match rc with JSON_PARSE_FINISH => true | _ => false end, (JSON_RESULT_OK, a))
  | _, _ => Ok (false, s)
  end.

(** The result, the data of the callback, and the string as it is left. *)
Definition json_parse_name_value {A} (p_cJsonStr : bytes) (iStrLen : nat) (pfnCB : json_parse_cb A) (a : A) :
    res (Z * A * bytes) :=
  if decide (iStrLen = O) then Ok (JSON_RESULT_ERR, a, p_cJsonStr)
  else
    len ← strlen p_cJsonStr;
    '(last_char, str) ←
      (if decide (iStrLen <> len) then
         last_char ← get_at p_cJsonStr (Z.of_nat iStrLen);
         str ← set_char p_cJsonStr iStrLen 0;
         Ok (last_char, str)
       else Ok (0, p_cJsonStr));
    '(ret, a) ← json_object_for_each_kv (parse_body pfnCB) str (JSON_RESULT_ERR, a);
    len ← strlen str;
    str ← (if decide (iStrLen <> len) then set_char str iStrLen last_char else Ok str);
    Ok (ret, a, str).

(** [JSON_NV] *)
Record JSON_NV := mkNV {
  nLen : nat;
  vLen : nat;
  vType : Z;
  pN : bytes;
  pV : option bytes
}.

Definition json_get_value_by_name_cb : json_parse_cb JSON_NV :=
  fun p_cName iNameLen p_cValue iValueLen iValueType nv =>
    same ← same_n (nLen nv) p_cName (pN nv);
    if same : bool then Ok (JSON_PARSE_FINISH, mkNV (nLen nv) iValueLen iValueType (pN nv) (Some p_cValue))
    else Ok (JSON_PARSE_OK, nv).

(** The value, [*p_iValueLen] and [*p_iValueType] where they are written, and
    the string as it is left; [want_type]: [p_iValueType] is not NULL. *)
Definition json_get_value_by_name (p_cJsonStr : bytes) (iStrLen : nat) (p_cName : bytes) (want_type : bool) :
    res (option bytes * option (nat * Z) * bytes) :=
  n ← strlen p_cName;
  '(ret, nv, str) ← json_parse_name_value p_cJsonStr iStrLen json_get_value_by_name_cb (mkNV n 0 0 p_cName None);
  if decide (ret = JSON_RESULT_OK) then
    Ok (if want_type && bool_decide (vType nv = JSNULL) then None else pV nv, Some (vLen nv, vType nv), str)
  else Ok (pV nv, None, str).

(** ** [json_token.c] *)

Section token.
(** [HAL_Malloc]: whether it finds memory. *)
Context {W : Type} (malloc : W -> bool * W).

(** [value_len] keeps its value if [json_get_value_by_name] does not write it. *)
Definition value_of (src name : bytes) (len : Z) : res (option bytes * Z) :=
  n ← strlen src;
  '(v, out, _) ← json_get_value_by_name src n name false;
  Ok (v, match out with Some (vlen, _) => Z.of_nat vlen | None => len end).

(** The loop over the components of the path: [None] if one of them is not
    found, else [src_iter], [key_iter] and [value_len].  The result of the
    first [HAL_Malloc] is used without a check. *)
Fixpoint path_loop (fuel : nat) (key_iter src_iter : bytes) (len : Z) (w : W) :
    res (option (bytes * bytes * Z) * W) :=
  match fuel with
  | O => Err OUT_OF_FUEL
  | S fuel =>
      delim ← strchr key_iter 46;
      match delim with
      | None => Ok (Some (src_iter, key_iter, len), w)
      | Some delim =>
          let key_next := take (length key_iter - length delim) key_iter ++ [0] in
          let '(got, w) := malloc w in
          if got : bool then
            '(value, len) ← value_of src_iter key_next len;
            match value with
            | None => Ok (None, w)
            | Some value => path_loop fuel (drop 1 delim) value len w
            end
          else Oob
      end
  end.

(** [HAL_Snprintf(ret, n + 1, "%s", value)] *)
Fixpoint snprintf_s (n : nat) (value : bytes) : res bytes :=
  match n with
  | O => Ok []
  | S n =>
      match value with
      | [] => Oob
      | c :: value => if decide (c = 0) then Ok [] else r ← snprintf_s n value; Ok (c :: r)
      end
  end.

(** The returned string, without its terminating 0. *)
Definition LITE_json_value_of (key src : bytes) (w : W) : res (option bytes * W) :=
  '(found, w) ← path_loop (S (length key)) key src (-1) w;
  match found with
  | None => Ok (None, w)
  | Some (src_iter, key_iter, len) =>
      '(value, len) ← value_of src_iter key_iter len;
      match value with
      | None => Ok (None, w)
      | Some value =>
          let '(got, w) := malloc w in
          if got : bool then ret ← snprintf_s (Z.to_nat len) value; Ok (Some ret, w)
          else Ok (None, w)
      end
  end.

End token.

(** ** Examples; a backquote stands for a double quote. *)
Definition mem_ok (w : unit) : bool * unit := (true, w).
Definition q (s : String.string) : bytes := (fun c => if decide (c = 96) then 34 else c) <$> bytes_of s.
Definition jget (path src : String.string) : res (option bytes) :=
  r ← LITE_json_value_of mem_ok (lit path) (q src ++ [0]) tt; Ok r.1.
Definition is_str (s : String.string) : res (option bytes) := Ok (Some (q s)).
Definition doc0 : String.string :=
  "{`Method`:`reply`,`Payload`:{`State`:{`a`:-1.5,`bc`:true},`Version`:12},`Timestamp`:null}".
Example doc0_method : jget "Method" doc0 = is_str "reply".
Proof. vm_compute. reflexivity. Qed.
Example doc0_a : jget "Payload.State.a" doc0 = is_str "-1.5".
Proof. vm_compute. reflexivity. Qed.
Example doc0_state : jget "Payload.State" doc0 = is_str "{`a`:-1.5,`bc`:true}".
Proof. vm_compute. reflexivity. Qed.
Example doc0_bc : jget "Payload.State.bc" doc0 = is_str "true".
Proof. vm_compute. reflexivity. Qed.
Example doc0_b : jget "Payload.State.b" doc0 = is_str "true".
Proof. vm_compute. reflexivity. Qed.
Example doc0_null : jget "Timestamp" doc0 = is_str "null".
Proof. vm_compute. reflexivity. Qed.
Example doc0_none : jget "Payload.x" doc0 = Ok None.
Proof. vm_compute. reflexivity. Qed.
Example doc0_escape : jget "Payload.State.Version" doc0 = is_str "12".
Proof. vm_compute. reflexivity. Qed.
Example doc0_overread : jget "b" "{`a`:`" = Oob.
Proof. vm_compute. reflexivity. Qed.

(* ================================================================== *)
(** * JSON texts *)

(** The values of JSON (RFC 8259), and their compact text. *)
Unset Elimination Schemes.
Inductive json :=
  | JString (s : bytes)
  | JNumber (s : bytes)
  | JBool (b : bool)
  | JNull
  | JObject (ms : list (bytes * json))
  | JArray (vs : list json).
Set Elimination Schemes.

Section json_ind.
Context (P : json -> Prop).
Hypothesis P_string : forall s, P (JString s).
Hypothesis P_number : forall s, P (JNumber s).
Hypothesis P_bool : forall b, P (JBool b).
Hypothesis P_null : P JNull.
Hypothesis P_object : forall ms, Forall (fun m => P m.2) ms -> P (JObject ms).
Hypothesis P_array : forall vs, Forall P vs -> P (JArray vs).

Fixpoint json_ind (v : json) : P v :=
  match v with
  | JString s => P_string s
  | JNumber s => P_number s
  | JBool b => P_bool b
  | JNull => P_null
  | JObject ms => P_object ms ((fix go (ms : list (bytes * json)) : Forall (fun m => P m.2) ms :=
      match ms with [] => Forall_nil_2 _ | m :: ms => Forall_cons_2 _ m ms (json_ind m.2) (go ms) end) ms)
  | JArray vs => P_array vs ((fix go (vs : list json) : Forall P vs :=
      match vs with [] => Forall_nil_2 _ | v :: vs => Forall_cons_2 _ v vs (json_ind v) (go vs) end) vs)
  end.
End json_ind.

(** A text between separators. *)
Fixpoint join (sep : Z) (l : list bytes) : bytes :=
  match l with
  | [] => []
  | [x] => x
  | x :: l => x ++ sep :: join sep l
  end.

Definition member (n t : bytes) : bytes := 34 :: n ++ 34 :: 58 :: t.
Fixpoint print (v : json) : bytes :=
  match v with
  | JString s => 34 :: s ++ [34]
  | JNumber s => s
  | JBool b => bytes_of (if b then "true" else "false")
  | JNull => bytes_of "null"
  | JObject ms => 123 :: join 44 (map (fun m => member m.1 (print m.2)) ms) ++ [125]
  | JArray vs => 91 :: join 44 (map print vs) ++ [93]
  end.

(** The texts the scanner is made for: strings without escapes, quotes and
    brackets, numbers without exponents. *)
Definition plain (c : Z) : bool :=
  bool_decide (cchar c) && negb (bool_decide (c = 34 \/ c = 123 \/ c = 125 \/ c = 91 \/ c = 93)).
Definition number (s : bytes) : bool :=
  match s with
  | [] => false
  | c :: s => (bool_decide (c = 45) || is_digit c) && forallb (fun c => is_digit c || bool_decide (c = 46)) s
  end.
Fixpoint well_formed (v : json) : bool :=
  match v with
  | JString s => forallb plain s
  | JNumber s => number s
  | JBool _ | JNull => true
  | JObject ms => forallb (fun m => forallb plain m.1 && well_formed m.2) ms
  | JArray vs => forallb well_formed vs
  end.

(** What a lookup of the value yields: a string without its quotes. *)
Definition text (v : json) : bytes := match v with JString s => s | _ => print v end.
Definition type_of (v : json) : Z :=
  match v with
  | JString _ => JSSTRING | JNumber _ => JSNUMBER | JBool _ => JSBOOLEAN
  | JNull => JSNULL | JObject _ => JSOBJECT | JArray _ => JSARRAY
  end.

(** The value at a path of names, as RFC 8259 reads the document (the first of
    members with the same name). *)
Fixpoint value_at (path : list bytes) (v : json) : option json :=
  match path, v with
  | [], _ => Some v
  | n :: path, JObject ms => m ← list_find (fun m => m.1 = n) ms; value_at path m.2.2
  | _, _ => None
  end.

(** Wherever the path goes, no name of the object is longer than the name
    searched and starts with it. *)
Fixpoint unambiguous (path : list bytes) (v : json) : bool :=
  match path, v with
  | n :: path, JObject ms =>
      forallb (fun m => bool_decide (n `prefix_of` m.1 -> m.1 = n)) ms &&
      match list_find (fun m => m.1 = n) ms with Some (_, m) => unambiguous path m.2 | None => true end
  | _, _ => true
  end.

(* ================================================================== *)
(** * Lookups read the document *)

(** ** C strings *)

Lemma strchr_skip t rest ch :
  Forall (fun c => c <> ch /\ c <> 0) t -> strchr (t ++ rest) ch = strchr rest ch.
Proof. induction 1 as [|c t [] _ IH]; cbn; [done|]. by rewrite !decide_False by done. Qed.
Lemma strchr_hit rest ch : strchr (ch :: rest) ch = Ok (Some (ch :: rest)).
Proof. cbn. by rewrite decide_True. Qed.

Lemma strlen_app t rest n :
  Forall (fun c => c <> 0) t -> strlen rest = Ok n -> strlen (t ++ rest) = Ok (length t + n)%nat.
Proof.
  intros Ht Hr. induction Ht as [|c t Hc _ IH]; cbn [strlen app length]; [done|].
  rewrite decide_False by done. by rewrite IH.
Qed.
Lemma strlen_lit t : Forall (fun c => c <> 0) t -> strlen (t ++ [0]) = Ok (length t).
Proof. intros Ht. rewrite (strlen_app _ _ O) by done. by rewrite Nat.add_0_r. Qed.

Lemma snprintf_text t rest :
  Forall (fun c => c <> 0) t -> snprintf_s (length t) (t ++ rest) = Ok t.
Proof.
  induction 1 as [|c t Hc _ IH]; cbn [snprintf_s app length]; [done|].
  rewrite decide_False by done. by rewrite IH.
Qed.

Lemma snprintf_take n t rest :
  Forall (fun c => c <> 0) t -> snprintf_s n (t ++ 0 :: rest) = Ok (take n t).
Proof.
  intros Ht. revert n. induction Ht as [|c t Hc _ IH]; intros [|n]; cbn [snprintf_s app take]; [done..|].
  rewrite decide_False by done. by rewrite IH.
Qed.

(** A name compared with a key: the key may go on. *)
Lemma same_n_prefix name k rest :
  Forall (fun c => c <> 0 /\ c <> 34) name -> Forall (fun c => c <> 0) k ->
  same_n (length name) (k ++ 34 :: rest) (name ++ [0]) = Ok (bool_decide (name `prefix_of` k)).
Proof.
  intros Hn. revert k. induction Hn as [|c name [Hc Hq] _ IH]; intros k Hk; cbn [same_n length app].
  { rewrite bool_decide_eq_true_2; [done|apply prefix_nil]. }
  destruct Hk as [|c' k Hc' Hk]; cbn [app].
  - rewrite decide_False by done. rewrite bool_decide_eq_false_2; [done|].
    intros H%prefix_nil_not. done.
  - destruct (decide (c' = c)) as [->|Hne].
    + rewrite decide_False by done. rewrite IH by done. f_equal. apply bool_decide_ext.
      split; [apply prefix_cons|apply prefix_cons_inv_2].
    + rewrite bool_decide_eq_false_2; [done|]. intros H%prefix_cons_inv_1. done.
Qed.

(** ** Printed values *)

Lemma plain_spec c : plain c = true -> c <> 0 /\ c <> 34 /\ c <> 123 /\ c <> 125 /\ c <> 91 /\ c <> 93.
Proof.
  unfold plain, cchar. rewrite andb_true_iff, negb_true_iff, bool_decide_eq_true, bool_decide_eq_false. lia.
Qed.
Lemma forallb_all {A} (f : A -> bool) (P : A -> Prop) l :
  (forall x, f x = true -> P x) -> forallb f l = true -> Forall P l.
Proof. intros HP Hl. rewrite forallb_forall in Hl. apply Forall_forall. intros x Hx. apply HP, Hl, list_elem_of_In, Hx. Qed.
Lemma plain_all t (P : Z -> Prop) :
  (forall c, c <> 0 /\ c <> 34 /\ c <> 123 /\ c <> 125 /\ c <> 91 /\ c <> 93 -> P c) ->
  forallb plain t = true -> Forall P t.
Proof. intros HP. apply forallb_all. intros c Hc. by apply HP, plain_spec. Qed.
Lemma is_digit_spec c : is_digit c = true <-> 48 <= c <= 57.
Proof. apply bool_decide_eq_true. Qed.
Lemma number_all t (P : Z -> Prop) :
  (forall c, c = 45 \/ c = 46 \/ 48 <= c <= 57 -> P c) -> number t = true -> Forall P t.
Proof.
  intros HP. destruct t as [|c t]; [done|]. cbn [number]. rewrite andb_true_iff, orb_true_iff, bool_decide_eq_true, is_digit_spec.
  intros [Hc Ht]. constructor; [apply HP; lia|]. revert Ht. apply forallb_all. intros x.
  rewrite orb_true_iff, bool_decide_eq_true, is_digit_spec. intros Hx. apply HP. lia.
Qed.

(** A property of texts that concatenation and brackets preserve holds of
    every printed value. *)
Definition inner (c : Z) : Prop := c <> 0 /\ c <> 123 /\ c <> 125 /\ c <> 91 /\ c <> 93.
Abbreviation members_text ms := (join 44 (map (fun m => member m.1 (print m.2)) ms)).

Section closed.
Context (T : bytes -> Prop).
Hypothesis T_nil : T [].
Hypothesis T_char : forall c, inner c -> T [c].
Hypothesis T_app : forall t u, T t -> T u -> T (t ++ u).
Hypothesis T_object : forall t, T t -> T (123 :: t ++ [125]).
Hypothesis T_array : forall t, T t -> T (91 :: t ++ [93]).

Lemma closed_cons c t : inner c -> T t -> T (c :: t).
Proof using T_char T_app. intros Hc Ht. apply (T_app [c]); auto. Qed.
Lemma closed_inner t : Forall inner t -> T t.
Proof using T_nil T_char T_app. induction 1; auto using closed_cons. Qed.
Lemma closed_join l : Forall T l -> T (join 44 l).
Proof using T_nil T_char T_app.
  induction 1 as [|x [|y l] Hx Hl IH]; cbn [join]; [done..|]. apply T_app, closed_cons; [done| |done]. unfold inner. lia.
Qed.
Lemma closed_member n t : forallb plain n = true -> T t -> T (member n t).
Proof using T_nil T_char T_app.
  intros Hn Ht. apply closed_cons; [unfold inner; lia|]. apply T_app.
  - apply closed_inner. revert Hn. apply plain_all. unfold inner. lia.
  - apply closed_cons, closed_cons; [unfold inner; lia..|done].
Qed.

Lemma print_closed v : well_formed v = true -> T (print v).
Proof using All.
  induction v as [s|s|b| |ms IH|vs IH] using json_ind; cbn [well_formed print]; intros Hw.
  - apply closed_inner. constructor; [unfold inner; lia|]. apply Forall_app. split.
    + revert Hw. apply plain_all. unfold inner. lia.
    + repeat constructor; lia.
  - apply closed_inner. revert Hw. apply number_all. unfold inner. lia.
  - apply closed_inner. destruct b; cbn; unfold inner; repeat constructor; lia.
  - apply closed_inner. cbn; unfold inner; repeat constructor; lia.
  - apply T_object, closed_join. induction IH as [|m ms Hm _ IHms]; cbn [forallb map] in *; [done|].
    apply andb_prop in Hw as [[Hn Hv]%andb_prop Hw]. auto using closed_member.
  - apply T_array, closed_join. induction IH as [|v vs Hv _ IHvs]; cbn [forallb map] in *; [done|].
    apply andb_prop in Hw as [Hw1 Hw]. auto.
Qed.

Lemma members_closed ms : well_formed (JObject ms) = true -> T (members_text ms).
Proof using All.
  cbn [well_formed]. intros Hw. apply closed_join.
  induction ms as [|m ms IH]; cbn [forallb map] in *; [done|].
  apply andb_prop in Hw as [[Hn Hv]%andb_prop Hw]. auto using closed_member, print_closed.
Qed.
Lemma elements_closed vs : well_formed (JArray vs) = true -> T (join 44 (map print vs)).
Proof using All.
  cbn [well_formed]. intros Hw. apply closed_join.
  induction vs as [|v vs IH]; cbn [forallb map] in *; [done|].
  apply andb_prop in Hw as [Hv Hw]. auto using print_closed.
Qed.

End closed.

Lemma print_nonzero v : well_formed v = true -> Forall (fun c => c <> 0) (print v).
Proof.
  apply (print_closed (Forall (fun c => c <> 0))); auto using Forall_app_2.
  intros c []. by repeat constructor.
Qed.

Lemma text_nonzero v : well_formed v = true -> Forall (fun c => c <> 0) (text v).
Proof.
  intros Hw. destruct v as [s| | | | | ]; try by apply (print_nonzero _ Hw). cbn in Hw. revert Hw. apply plain_all. lia.
Qed.

(** ** The end of a value *)

(** At any depth the scan for the closing mark of [ty] passes over [t]. *)
Definition passes (ty : Z) (t : bytes) : Prop :=
  forall v n d rest, 0 <= d -> value_len ty v n d (t ++ rest) = value_len ty v (n + length t) d rest.

Section passes.
Context (ty : Z) (Hty : ty = JSOBJECT \/ ty = JSARRAY).

Lemma value_len_cons v n d c p :
  c <> 0 ->
  value_len ty v n d (c :: p) =
    if decide (c = (JsonMark ty).2) then if decide (d = 0) then Ok (S n) else value_len ty v (S n) (d - 1) p
    else if decide (c = (JsonMark ty).1) then value_len ty v (S n) (d + 1) p
    else value_len ty v (S n) d p.
Proof using Hty. intros Hc. cbn [value_len]. rewrite decide_False by done. by destruct Hty as [-> | ->]. Qed.

Lemma passes_char c : c <> 0 -> c <> (JsonMark ty).1 -> c <> (JsonMark ty).2 -> passes ty [c].
Proof using Hty.
  intros H0 H1 H2 v n d rest Hd. cbn [app length]. rewrite value_len_cons by done.
  rewrite !decide_False by done. by rewrite Nat.add_1_r.
Qed.
Lemma passes_app t u : passes ty t -> passes ty u -> passes ty (t ++ u).
Proof using Hty. intros Ht Hu v n d rest Hd. by rewrite <- app_assoc, Ht, Hu, length_app, Nat.add_assoc. Qed.
Lemma marks_distinct : (JsonMark ty).1 <> (JsonMark ty).2.
Proof using Hty. by destruct Hty as [-> | ->]. Qed.
Lemma passes_marked t : passes ty t -> passes ty ((JsonMark ty).1 :: t ++ [(JsonMark ty).2]).
Proof using Hty.
  intros Ht v n d rest Hd. cbn [app length]. pose proof marks_distinct.
  rewrite value_len_cons by (by destruct Hty as [-> | ->]).
  rewrite (decide_False (P := _ = (JsonMark ty).2)), (decide_True (P := (JsonMark ty).1 = _)) by done.
  rewrite <- app_assoc. rewrite Ht by lia. cbn [app].
  rewrite value_len_cons by (by destruct Hty as [-> | ->]).
  rewrite decide_True, decide_False by (lia || done). rewrite length_app. cbn [length].
  f_equal; lia.
Qed.
End passes.

Lemma passes_closed ty (P : (bytes -> Prop) -> Prop) :
  ty = JSOBJECT \/ ty = JSARRAY ->
  (forall T : bytes -> Prop, T [] -> (forall c, inner c -> T [c]) -> (forall t u, T t -> T u -> T (t ++ u)) ->
    (forall t, T t -> T (123 :: t ++ [125])) -> (forall t, T t -> T (91 :: t ++ [93])) -> P T) ->
  P (passes ty).
Proof.
  intros Hty HP. apply HP; clear HP.
  - intros v n d rest _. cbn [app length]. by rewrite Nat.add_0_r.
  - intros c (?&?&?&?&?). apply passes_char; [done|done|destruct Hty as [-> | ->]; done..].
  - by apply passes_app.
  - intros t Ht. destruct Hty as [-> | ->]; [by apply (passes_marked JSOBJECT); [left|]|].
    apply (passes_app JSARRAY) with (t := [123]); [by right| |apply passes_app; [by right|done|]];
      apply passes_char; by (by right) || done.
  - intros t Ht. destruct Hty as [-> | ->]; [|by apply (passes_marked JSARRAY); [right|]].
    apply (passes_app JSOBJECT) with (t := [91]); [by left| |apply passes_app; [by left|done|]];
      apply passes_char; by (by left) || done.
Qed.
Lemma members_pass ms : well_formed (JObject ms) = true -> passes JSOBJECT (members_text ms).
Proof. intros Hw. apply (passes_closed JSOBJECT (fun T => T _)); [by left|]. intros. by apply members_closed. Qed.
Lemma elements_pass vs : well_formed (JArray vs) = true -> passes JSARRAY (join 44 (map print vs)).
Proof. intros Hw. apply (passes_closed JSARRAY (fun T => T _)); [by right|]. intros. by apply elements_closed. Qed.

(** ** One member *)

(** The pointer to the value [v] that [rest] follows. *)
Definition value_ptr (v : json) (rest : bytes) : bytes :=
  match v with JString s => s ++ 34 :: rest | _ => print v ++ rest end.
(** What may follow a value. *)
Definition follows (rest : bytes) : Prop :=
  exists c rest' k, rest = c :: rest' /\ c <> 0 /\ is_digit c = false /\ c <> 46 /\ strlen rest = Ok k.

(** Decide the closed and the arithmetic conditions. *)
Ltac dec :=
  repeat match goal with
  | |- context [decide ?P] =>
      first [rewrite (decide_True (P := P)) by (done || lia) | rewrite (decide_False (P := P)) by (done || lia)]
  end.

Lemma value_len_string v s n rest :
  Forall (fun c => c <> 34 /\ c <> 0) s -> value_len JSSTRING v n 0 (s ++ 34 :: rest) = Ok (n + length s)%nat.
Proof.
  intros Hs. revert n. induction Hs as [|c s [] _ IH]; intros n; cbn [app length value_len]; dec.
  - f_equal. lia.
  - change (JsonMark JSSTRING) with (34, 34). cbn [fst snd]. dec. rewrite IH. f_equal. lia.
Qed.
Lemma value_len_number v s n c rest :
  forallb (fun c => is_digit c || bool_decide (c = 46)) s = true -> c <> 0 -> is_digit c = false -> c <> 46 ->
  value_len JSNUMBER v n 0 (s ++ c :: rest) = Ok (n + length s)%nat.
Proof.
  intros Hs H0 Hc H46. revert n Hs. induction s as [|x s IH]; intros n Hs; cbn [app length value_len].
  - dec. rewrite Hc, bool_decide_eq_false_2 by done. cbn. f_equal. lia.
  - cbn [forallb] in Hs. apply andb_prop in Hs as [Hx Hs].
    rewrite (decide_False (P := x = 0)) by (intros ->; by cbn in Hx). dec.
    rewrite <- negb_orb, Hx. cbn [negb]. rewrite IH by done. f_equal. lia.
Qed.
Lemma value_len_marked v n t ty rest :
  ty = JSOBJECT \/ ty = JSARRAY -> passes ty t ->
  value_len ty v n 0 (t ++ (JsonMark ty).2 :: rest) = Ok (S (n + length t)).
Proof.
  intros Hty Ht. rewrite Ht by lia. rewrite value_len_cons by (done || by destruct Hty as [-> | ->]). by dec.
Qed.
(** A literal is recognised by its letters. *)
Lemma is_word_skip c v x X lo up k : strlen (c :: v) = Ok k -> c <> x -> c <> X -> is_word (c :: v) x X lo up = Ok false.
Proof. intros Hk Hx HX. unfold is_word. rewrite Hk. cbn [mbind res_bind]. by rewrite bool_decide_eq_false_2 by lia. Qed.

Lemma same_n_same t rest u : Forall (fun c => c <> 0) t -> same_n (length t) (t ++ rest) (t ++ u) = Ok true.
Proof. induction 1; cbn [same_n app length]; dec; done. Qed.
Lemma is_word_hit c t x X lo up rest k :
  bytes_of lo = c :: t -> c = x -> Forall (fun c => c <> 0) (bytes_of lo) -> strlen rest = Ok k ->
  is_word (bytes_of lo ++ rest) x X lo up = Ok true.
Proof.
  intros E -> Hnz Hk. pose proof (strlen_app _ _ _ Hnz Hk) as Hlen. pose proof (same_n_same _ rest [0] Hnz) as Hs.
  unfold is_word, lit. rewrite E in *. cbn [app] in *. rewrite Hlen. cbn [mbind res_bind].
  rewrite !bool_decide_eq_true_2 by (cbn; auto || lia). cbn [andb]. by rewrite Hs.
Qed.

Lemma value_len_true v n x p : x <> 0 -> is_word v 116 84 "true" "TRUE" = Ok true -> value_len JSBOOLEAN v n 0 (x :: p) = Ok 4%nat.
Proof. intros Hx Hw. cbn [value_len]. dec. by rewrite Hw. Qed.
Lemma value_len_false v n x p :
  x <> 0 -> is_word v 116 84 "true" "TRUE" = Ok false -> is_word v 102 70 "false" "FALSE" = Ok true ->
  value_len JSBOOLEAN v n 0 (x :: p) = Ok 5%nat.
Proof. intros Hx Ht Hw. cbn [value_len]. dec. rewrite Ht. cbn [mbind res_bind]. by rewrite Hw. Qed.
Lemma value_len_null v n x p : x <> 0 -> is_word v 110 78 "null" "NULL" = Ok true -> value_len JSNULL v n 0 (x :: p) = Ok 4%nat.
Proof. intros Hx Hw. cbn [value_len]. dec. by rewrite Hw. Qed.

Lemma json_get_value_run p ty v p' n rest :
  find_value p = Ok (ty, Some v, p') ->
  value_len ty v (length v - length p')%nat 0 p' = Ok n ->
  drop (if decide (ty = JSSTRING) then n + 1 else n)%nat v = rest ->
  json_get_value (Some p) = Ok (Some v, n, ty, Some rest).
Proof. intros Hf Hn <-. unfold json_get_value. rewrite Hf. cbn [mbind res_bind]. by rewrite Hn. Qed.

Lemma json_get_value_print v rest :
  well_formed v = true -> follows rest ->
  json_get_value (Some (58 :: print v ++ rest)) =
    Ok (Some (value_ptr v rest), length (text v), type_of v, Some rest).
Proof.
  intros Hw (c & rest' & k & -> & H0 & Hd & H46 & Hk).
  pose proof (strlen_app _ _ _ (print_nonzero v Hw) Hk) as Hlen.
  destruct v as [s|s|b| |ms|vs]; cbn [well_formed] in Hw.
  - eapply json_get_value_run; cbn [print app value_ptr text type_of].
    + cbn [find_value]. dec. by rewrite <- app_assoc.
    + cbn [app]. rewrite Nat.sub_diag, value_len_string by (revert Hw; apply plain_all; lia). done.
    + dec. by rewrite drop_app_add.
  - destruct s as [|x s]; [done|]. cbn in Hw. apply andb_prop in Hw as [Hx Hw].
    assert (x = 45 \/ 48 <= x <= 57) as Hx'.
    { apply orb_prop in Hx as [Hx|Hx]; [apply bool_decide_eq_true in Hx|apply is_digit_spec in Hx]; auto. }
    eapply json_get_value_run; cbn [print app value_ptr text type_of].
    + cbn [find_value]. dec. by rewrite Hx.
    + cbn [length]. replace (_ - _)%nat with 1%nat by lia. by rewrite value_len_number.
    + dec. cbn [length Nat.add drop]. by rewrite drop_app_length.
  - destruct b; (eapply json_get_value_run; [done| |done]); cbn [value_ptr print text].
    + apply (value_len_true _ _ 116); [done|]. by eapply (is_word_hit 116); [|done|repeat constructor|].
    + apply (value_len_false _ _ 102); [done| |].
      * by apply (is_word_skip 102 _ 116 84 _ _ _ Hlen).
      * by eapply (is_word_hit 102); [|done|repeat constructor|].
  - eapply json_get_value_run; [done| |done]. cbn [value_ptr print text].
    apply (value_len_null _ _ 110); [done|]. by eapply (is_word_hit 110); [|done|repeat constructor|].
  - eapply json_get_value_run; cbn [print app value_ptr text type_of].
    + cbn [find_value]. by dec.
    + cbn [length]. replace (S _ - _)%nat with 1%nat by lia. rewrite <- app_assoc. cbn [app].
      rewrite (value_len_marked _ _ _ JSOBJECT) by (auto using members_pass). f_equal. rewrite length_app. cbn. lia.
    + dec. apply (drop_app_length (print (JObject ms))).
  - eapply json_get_value_run; cbn [print app value_ptr text type_of].
    + cbn [find_value]. by dec.
    + cbn [length]. replace (S _ - _)%nat with 1%nat by lia. rewrite <- app_assoc. cbn [app].
      rewrite (value_len_marked _ _ _ JSARRAY) by (auto using elements_pass). f_equal. rewrite length_app. cbn. lia.
    + dec. apply (drop_app_length (print (JArray vs))).
Qed.

Lemma json_next_member pre n v rest :
  Forall (fun c => c <> 34 /\ c <> 0) pre -> forallb plain n = true -> well_formed v = true -> follows rest ->
  json_get_next_object JSOBJECT (pre ++ member n (print v) ++ rest) =
    Ok (Some (mkEntry (Some (n ++ 34 :: 58 :: print v ++ rest)) (length n) (Some (value_ptr v rest))
                (length (text v)) (type_of v)), Some rest).
Proof.
  intros Hpre Hn Hw Hr. unfold json_get_next_object. dec. unfold json_get_key, member.
  rewrite strchr_skip by done. cbn [app]. rewrite strchr_hit. cbn [mbind res_bind drop].
  rewrite <- app_assoc. cbn [app]. rewrite drop_0. rewrite strchr_skip by (revert Hn; apply plain_all; lia).
  rewrite strchr_hit. cbn [mbind res_bind].
  replace (strchr (34 :: 58 :: print v ++ rest) 58) with (Ok (Some (58 :: print v ++ rest)))
    by (cbn [strchr]; by dec).
  cbn [mbind res_bind]. rewrite json_get_value_print by done. cbn [mbind res_bind].
  rewrite length_app. do 5 f_equal. lia.
Qed.

Lemma json_next_first c n v rest :
  c <> 34 -> c <> 0 -> forallb plain n = true -> well_formed v = true -> follows rest ->
  json_get_next_object JSOBJECT (c :: member n (print v) ++ rest) =
    Ok (Some (mkEntry (Some (n ++ 34 :: 58 :: print v ++ rest)) (length n) (Some (value_ptr v rest))
                (length (text v)) (type_of v)), Some rest).
Proof. intros Hc H0. apply (json_next_member [c]). by repeat constructor. Qed.

(** ** The members of an object *)

Definition after (ms : list (bytes * json)) (rest : bytes) : bytes :=
  concat (map (fun m => 44 :: member m.1 (print m.2)) ms) ++ rest.
Lemma after_cons m ms rest : after (m :: ms) rest = 44 :: member m.1 (print m.2) ++ after ms rest.
Proof. unfold after. cbn [map concat]. by rewrite <- app_assoc, <- app_comm_cons. Qed.
Lemma print_members m ms rest :
  print (JObject (m :: ms)) ++ rest = 123 :: member m.1 (print m.2) ++ after ms (125 :: rest).
Proof.
  cbn [print map app]. f_equal. rewrite <- app_assoc. revert m. induction ms as [|m' ms IH]; intros m; [done|].
  transitivity ((member m.1 (print m.2) ++ 44 :: members_text (m' :: ms)) ++ [125] ++ rest); [done|].
  rewrite <- app_assoc. f_equal. rewrite after_cons, <- IH. done.
Qed.

Lemma length_after ms rest : (length ms + length rest <= length (after ms rest))%nat.
Proof. induction ms as [|m ms IH]; [done|]. rewrite after_cons. cbn [length]. rewrite length_app. lia. Qed.

Definition members_ok (ms : list (bytes * json)) : Prop :=
  Forall (fun m => forallb plain m.1 = true /\ well_formed m.2 = true) ms.
Lemma well_formed_members ms : well_formed (JObject ms) = true <-> members_ok ms.
Proof.
  cbn [well_formed]. unfold members_ok. rewrite <- Is_true_true, forallb_True.
  apply Forall_iff. intros m. rewrite Is_true_true. apply andb_true_iff.
Qed.
Lemma member_nonzero n v : forallb plain n = true -> well_formed v = true -> Forall (fun c => c <> 0) (member n (print v)).
Proof.
  intros Hn Hv. constructor; [lia|]. apply Forall_app. split; [revert Hn; apply plain_all; lia|].
  repeat constructor; [lia..|by apply print_nonzero].
Qed.
Lemma follows_after ms rest k : members_ok ms -> strlen rest = Ok k -> follows (after ms (125 :: rest)).
Proof.
  intros Hms Hk.
  assert (exists k, strlen (after ms (125 :: rest)) = Ok k) as [k' Hk'].
  { eexists. apply strlen_app; [|cbn [strlen]; dec; by rewrite Hk].
    induction Hms as [|m ms [Hn Hv] _ IH]; cbn [map concat]; [done|].
    constructor; [lia|]. apply Forall_app. auto using member_nonzero. }
  unfold follows. destruct ms as [|m ms].
  - exists 125, rest, k'. done.
  - exists 44, (member m.1 (print m.2) ++ after ms (125 :: rest)), k'.
    split; [apply after_cons|done].
Qed.

(** ** The search for a name *)

(** The member the search stops at: its name starts with the one searched and
    its value is not empty. *)
Definition hit (name : bytes) (m : bytes * json) : Prop := name `prefix_of` m.1 /\ text m.2 <> [].
#[export] Instance hit_dec name m : Decision (hit name m).
Proof. unfold hit. apply _. Defined.

Lemma list_find_unfold {A} (P : A -> Prop) `{!forall x, Decision (P x)} x l :
  list_find P (x :: l) = if decide (P x) then Some (O, x) else prod_map S id <$> list_find P l.
Proof. done. Qed.

Section by_name.
Context (name : bytes).
Context (Hname : forallb plain name = true) (Hne : name <> []).
Definition nv0 := mkNV (length name) 0 0 (name ++ [0]) None.
Abbreviation body := (parse_body json_get_value_by_name_cb).

Lemma parse_member m rest ret :
  forallb plain m.1 = true ->
  body (mkEntry (Some (m.1 ++ 34 :: 58 :: print m.2 ++ rest)) (length m.1) (Some (value_ptr m.2 rest))
          (length (text m.2)) (type_of m.2)) (ret, nv0) =
    if decide (hit name m)
    then Ok (true, (JSON_RESULT_OK, mkNV (length name) (length (text m.2)) (type_of m.2) (name ++ [0]) (Some (value_ptr m.2 rest))))
    else Ok (false, (if decide (m.1 = [] \/ text m.2 = []) then ret else JSON_RESULT_OK, nv0)).
Proof.
  intros Hm. unfold parse_body. cbn [key val key_len val_len val_type snd].
  rewrite (decide_ext _ (m.1 = [] \/ text m.2 = [])) by (by rewrite !length_zero_iff_nil).
  unfold hit. case_decide as He.
  - rewrite decide_False; [done|]. intros [[r Hr] Ht]. destruct He as [He|He]; [|done].
    rewrite He in Hr. by destruct name.
  - unfold json_get_value_by_name_cb, nv0. cbn [nLen pN].
    rewrite same_n_prefix.
    + cbn [mbind res_bind]. case_bool_decide; [rewrite decide_True by naive_solver|rewrite decide_False by naive_solver]; done.
    + revert Hname. apply plain_all. lia.
    + revert Hm. apply plain_all. lia.
Qed.

Lemma search_members ms rest k : members_ok ms -> strlen rest = Ok k ->
  forall fuel c m ret, (S (length ms) < fuel)%nat -> c <> 34 -> c <> 0 ->
  forallb plain m.1 = true -> well_formed m.2 = true ->
  match list_find (hit name) (m :: ms) with
  | Some (_, m') => exists rest' k',
      strlen rest' = Ok k' /\
      for_each_kv fuel body (Some (c :: member m.1 (print m.2) ++ after ms (125 :: rest))) (ret, nv0) =
        Ok (JSON_RESULT_OK, mkNV (length name) (length (text m'.2)) (type_of m'.2) (name ++ [0]) (Some (value_ptr m'.2 rest')))
  | None =>
      exists ret', for_each_kv fuel body (Some (c :: member m.1 (print m.2) ++ after ms (125 :: rest))) (ret, nv0) =
        for_each_kv (fuel - S (length ms)) body (Some (125 :: rest)) (ret', nv0)
  end.
Proof using Hname Hne.
  intros Hms Hk. induction Hms as [|m' ms [Hn' Hv'] Hms IH]; intros [|fuel] c m ret Hf Hc Hc0 Hn Hv; try lia;
    cbn [for_each_kv]; rewrite list_find_unfold, (decide_False (P := c = 0)) by done.
  - assert (Ha : follows (after [] (125 :: rest))) by (by apply (follows_after [] rest k); [constructor|]).
    rewrite json_next_first by done.
    cbn [mbind res_bind]. rewrite parse_member by done. case_decide as Hh; cbn [mbind res_bind].
    + eexists _, _. split; [|done]. unfold after. cbn [map concat app strlen]. dec. by rewrite Hk.
    + cbn [fmap option_fmap option_map]. eexists. by replace (S fuel - _)%nat with fuel by (cbn; lia).
  - assert (Ha : follows (after (m' :: ms) (125 :: rest))) by (eapply follows_after, Hk; by constructor).
    rewrite json_next_first by done.
    cbn [mbind res_bind]. rewrite parse_member by done. case_decide as Hh; cbn [mbind res_bind].
    + destruct Ha as (?&?&k'&_&_&_&_&Hk'). eexists _, _. split; [exact Hk'|done].
    + cbn [length] in Hf.
      rewrite after_cons. specialize (IH fuel 44 m' (if decide (m.1 = [] \/ text m.2 = []) then ret else JSON_RESULT_OK)).
      replace (S fuel - _)%nat with (fuel - S (length ms))%nat by (cbn; lia).
      destruct (list_find (hit name) (m' :: ms)) as [[i m'']|]; cbn [fmap option_fmap option_map prod_map]; apply IH; done || lia.
Qed.

Lemma nothing_left fuel c ret junk : (0 < fuel)%nat -> c = 123 \/ c = 125 ->
  for_each_kv fuel body (Some (c :: (if decide (c = 123) then [125] else []) ++ 0 :: junk)) (ret, nv0) = Ok (ret, nv0).
Proof. intros Hf [-> | ->]; (destruct fuel; [lia|]); done. Qed.

Lemma parse_object ms rest k :
  members_ok ms -> strlen rest = Ok k ->
  match list_find (hit name) ms with
  | Some (_, m) => exists rest' k',
      strlen rest' = Ok k' /\
      json_object_for_each_kv body (print (JObject ms) ++ rest) (JSON_RESULT_ERR, nv0) =
        Ok (JSON_RESULT_OK, mkNV (length name) (length (text m.2)) (type_of m.2) (name ++ [0]) (Some (value_ptr m.2 rest')))
  | None =>
      forall junk, rest = 0 :: junk ->
      exists ret, json_object_for_each_kv body (print (JObject ms) ++ rest) (JSON_RESULT_ERR, nv0) = Ok (ret, nv0)
  end.
Proof using Hname Hne.
  intros Hms Hk. unfold json_object_for_each_kv.
  replace (json_get_object JSOBJECT (print (JObject ms) ++ rest)) with (Ok (Some (print (JObject ms) ++ rest))) by done.
  cbn [mbind res_bind]. destruct ms as [|m ms].
  { intros junk ->. eexists. apply (nothing_left _ 123); [lia|auto]. }
  rewrite print_members. apply Forall_cons in Hms as [[Hn Hv] Hms]. pose proof (length_after ms (125 :: rest)) as Hl.
  set (n := length (123 :: _)). assert (Hn' : (length ms < n)%nat) by (unfold n; cbn [length]; rewrite length_app; lia).
  clearbody n. pose proof (search_members ms rest k Hms Hk (S n) 123 m JSON_RESULT_ERR) as Hs.
  destruct (list_find (hit name) (m :: ms)) as [[i m']|].
  - apply Hs; done || lia.
  - intros junk ->. destruct Hs as [ret ->]; [lia|done..|]. eexists. apply (nothing_left _ 125); [lia|auto].
Qed.

(** [json_get_value_by_name] on the document. *)
Lemma value_of_object ms rest k len :
  members_ok ms -> strlen rest = Ok k ->
  match list_find (hit name) ms with
  | Some (_, m) => exists rest' k',
      strlen rest' = Ok k' /\
      value_of (print (JObject ms) ++ rest) (name ++ [0]) len =
        Ok (Some (value_ptr m.2 rest'), Z.of_nat (length (text m.2)))
  | None =>
      forall junk, rest = 0 :: junk ->
      exists len', value_of (print (JObject ms) ++ rest) (name ++ [0]) len = Ok (None, len')
  end.
Proof using Hname Hne.
  intros Hms Hk. pose proof (parse_object ms rest k Hms Hk) as Hp.
  assert (Hlen : strlen (print (JObject ms) ++ rest) = Ok (length (print (JObject ms)) + k)%nat)
    by (apply strlen_app; [by apply print_nonzero, well_formed_members|done]).
  set (n := (_ + k)%nat) in *. assert (n <> O) by (unfold n; cbn; lia). clearbody n.
  set (str := print _ ++ rest) in *. clearbody str.
  assert (Hv : forall r nv, json_object_for_each_kv body str (JSON_RESULT_ERR, nv0) = Ok (r, nv) ->
    json_get_value_by_name str n (name ++ [0]) false =
      Ok (pV nv, if decide (r = JSON_RESULT_OK) then Some (vLen nv, vType nv) else None, str)).
  { intros r nv Hr. unfold json_get_value_by_name.
    rewrite strlen_lit by (revert Hname; apply plain_all; lia). cbn [mbind res_bind].
    unfold json_parse_name_value. fold nv0. rewrite decide_False, Hlen by done. cbn [mbind res_bind].
    rewrite decide_False by auto. cbn [mbind res_bind]. rewrite Hr. cbn [mbind res_bind]. rewrite Hlen. cbn [mbind res_bind].
    rewrite decide_False by auto. cbn [mbind res_bind]. by case_decide. }
  unfold value_of. rewrite Hlen. cbn [mbind res_bind].
  destruct (list_find (hit name) ms) as [[i m]|].
  - destruct Hp as (rest' & k' & Hk' & Hp). exists rest', k'. split; [done|]. by rewrite (Hv _ _ Hp).
  - intros junk Hj. destruct (Hp junk Hj) as [ret Hr]. rewrite (Hv _ _ Hr). cbn [mbind res_bind]. by eexists.
Qed.
End by_name.

(** ** Paths *)

Lemma find_hit name ms i m :
  list_find (fun m => m.1 = name) ms = Some (i, m) ->
  forallb (fun m => bool_decide (name `prefix_of` m.1 -> m.1 = name)) ms = true ->
  text m.2 <> [] -> list_find (hit name) ms = Some (i, m).
Proof.
  intros (Hi & Hm & Hbefore)%list_find_Some Hun Ht. apply list_find_Some. split_and!; [done|by rewrite <- Hm|].
  intros j y Hy Hj [Hp _]. apply (Hbefore j y Hy Hj). rewrite forallb_forall in Hun.
  specialize (Hun y (proj1 (list_elem_of_In _ _) (list_elem_of_lookup_2 _ _ _ Hy))).
  apply bool_decide_eq_true in Hun. auto.
Qed.

(** A component of a path. *)
Definition component (n : bytes) : Prop := n <> [] /\ forallb (fun c => plain c && negb (bool_decide (c = 46))) n = true.
Lemma component_plain n : component n -> forallb plain n = true.
Proof. intros [_ H]. rewrite forallb_forall in *. intros c Hc. by apply H, andb_prop in Hc as []. Qed.
Lemma component_nodot n : component n -> Forall (fun c => c <> 46 /\ c <> 0) n.
Proof.
  intros [_ H]. revert H. apply forallb_all. intros c [Hc Hd]%andb_prop. apply plain_spec in Hc.
  apply negb_true_iff, bool_decide_eq_false in Hd. lia.
Qed.
#[export] Instance component_dec n : Decision (component n).
Proof. unfold component. apply _. Defined.

Section path.
Context {W : Type} (malloc : W -> bool * W) (Hmalloc : forall w, (malloc w).1 = true).

Lemma value_of_member n path doc v rest k len :
  component n -> well_formed doc = true -> strlen rest = Ok k ->
  value_at (n :: path) doc = Some v -> unambiguous (n :: path) doc = true -> text v <> [] ->
  exists u rest' k', value_at path u = Some v /\ unambiguous path u = true /\ well_formed u = true /\
    strlen rest' = Ok k' /\
    value_of (print doc ++ rest) (n ++ [0]) len = Ok (Some (value_ptr u rest'), Z.of_nat (length (text u))).
Proof.
  intros Hc Hw Hk Hat Hun Ht. destruct doc as [s|s|b| |ms|vs]; try done. cbn [value_at unambiguous] in *.
  destruct (list_find (fun m => m.1 = n) ms) as [[i m]|] eqn:Hf; [|done]. cbn [mbind option_bind snd] in Hat.
  apply andb_prop in Hun as [Hall Hun].
  assert (text m.2 <> []) as Htm.
  { destruct path as [|n' path]; [by injection Hat as ->|]. by destruct m.2. }
  pose proof (find_hit n ms i m Hf Hall Htm) as Hh.
  apply well_formed_members in Hw.
  pose proof (value_of_object n (component_plain n Hc) (proj1 Hc) ms rest k len Hw Hk) as Hv. rewrite Hh in Hv.
  destruct Hv as (rest' & k' & Hk' & Hv). exists m.2, rest', k'. split_and!; try done.
  apply list_find_Some in Hf as (Hi & _). by apply (Forall_lookup_1 _ _ _ _ Hw) in Hi as [_ Hi].
Qed.

Lemma path_loop_run path : forall n doc v rest k w fuel len,
  Forall component (n :: path) -> well_formed doc = true -> strlen rest = Ok k ->
  value_at (n :: path) doc = Some v -> unambiguous (n :: path) doc = true -> text v <> [] ->
  (length (join 46 (n :: path)) < fuel)%nat ->
  exists src key_iter len' w' rest',
    path_loop malloc fuel (join 46 (n :: path) ++ [0]) (print doc ++ rest) len w = Ok (Some (src, key_iter, len'), w') /\
    well_formed v = true /\ value_of src key_iter len' = Ok (Some (value_ptr v rest'), Z.of_nat (length (text v))).
Proof using Hmalloc.
  induction path as [|n' path IH]; intros n doc v rest k w fuel len Hp Hw Hk Hat Hun Ht Hf;
    (destruct fuel as [|fuel]; [lia|]); apply Forall_cons in Hp as [Hn Hp];
    destruct (value_of_member n _ doc v rest k len Hn Hw Hk Hat Hun Ht) as (u & rest' & k' & Hu & Hun' & Hwu & Hk' & Hv).
  - injection Hu as ->. cbn [join path_loop]. rewrite strchr_skip by auto using component_nodot.
    eexists _, _, _, _, _. split_and!; [done|done|exact Hv].
  - change (join 46 (n :: n' :: path)) with (n ++ 46 :: join 46 (n' :: path)) in *.
    rewrite length_app in Hf. cbn [length] in Hf. cbn [path_loop]. rewrite <- app_assoc. cbn [app].
    rewrite strchr_skip, strchr_hit by auto using component_nodot. cbn [mbind res_bind].
    rewrite length_app. replace (length n + _ - _)%nat with (length n) by lia. rewrite take_app_length.
    pose proof (Hmalloc w) as Hm. destruct (malloc w) as [got w1]. cbn in Hm. subst got.
    rewrite Hv. cbn [mbind res_bind drop].
    destruct u as [s|s|b| |ms|vs]; try done.
    apply (IH n' (JObject ms) v rest' k'); done || lia.
Qed.

End path.

Lemma json_lookup_found {W} (malloc : W -> bool * W) doc junk w path v :
  (forall w, (malloc w).1 = true) -> well_formed doc = true -> path <> [] -> Forall component path ->
  value_at path doc = Some v -> unambiguous path doc = true -> text v <> [] ->
  exists w', LITE_json_value_of malloc (join 46 path ++ [0]) (print doc ++ 0 :: junk) w = Ok (Some (text v), w').
Proof.
  intros Hm Hw. destruct path as [|n path]; intros Hne Hp Hat Hun Ht; [done|]. unfold LITE_json_value_of.
  destruct (path_loop_run malloc Hm path n doc v (0 :: junk) 0 w (S (length (join 46 (n :: path) ++ [0]))) (-1))
    as (src & key & len & w' & rest & -> & Hwv & Hv); [done..|rewrite length_app; lia|].
  cbn [mbind res_bind]. rewrite Hv. cbn [mbind res_bind].
  pose proof (Hm w') as Hw'. destruct (malloc w') as [got w'']. cbn in Hw'. subst got. rewrite Nat2Z.id.
  assert (exists r, value_ptr v rest = text v ++ r) as [r ->] by (destruct v; by eexists).
  rewrite snprintf_text by by apply text_nonzero. by eexists.
Qed.

Lemma json_lookup_missing {W} (malloc : W -> bool * W) junk w ms n :
  well_formed (JObject ms) = true -> component n -> Forall (fun m => ~ n `prefix_of` m.1) ms ->
  LITE_json_value_of malloc (n ++ [0]) (print (JObject ms) ++ 0 :: junk) w = Ok (None, w).
Proof.
  intros Hw Hc Hn. unfold LITE_json_value_of. cbn [path_loop].
  rewrite strchr_skip by auto using component_nodot. cbn [mbind res_bind strchr]. dec. cbn [mbind res_bind].
  pose proof (value_of_object n (component_plain n Hc) (proj1 Hc) ms (0 :: junk) 0 (-1)) as Hv.
  replace (list_find (hit n) ms) with (@None (nat * (bytes * json))) in Hv.
  - destruct (Hv (proj1 (well_formed_members ms) Hw) eq_refl junk eq_refl) as [len' ->]. done.
  - symmetry. apply list_find_None. apply (Forall_impl _ _ _ Hn). by intros m Hp [].
Qed.

(** C33: [LITE_json_value_of] finds what RFC 8259 puts at a path: on the compact
    text of a document without escapes, exponents and brackets in strings,
    with anything behind it, and for a path of names of which none is the
    beginning of another name met on the way, the result is the text of the
    value at the path.  A name that begins no name of the document's members
    is not found.  (Memory is assumed to be there; [json_lookup_safe] shows
    what happens outside these bounds.) *)
Theorem json_lookup_correct {W} (malloc : W -> bool * W) doc junk w :
  (forall w, (malloc w).1 = true) -> well_formed doc = true ->
  (forall path v, path <> [] -> Forall component path -> value_at path doc = Some v ->
    unambiguous path doc = true -> text v <> [] ->
    exists w', LITE_json_value_of malloc (join 46 path ++ [0]) (print doc ++ 0 :: junk) w = Ok (Some (text v), w')) /\
  (forall ms n, doc = JObject ms -> component n -> Forall (fun m => ~ n `prefix_of` m.1) ms ->
    LITE_json_value_of malloc (n ++ [0]) (print doc ++ 0 :: junk) w = Ok (None, w)).
Proof.
  intros Hm Hw. split; [intros; by apply json_lookup_found|intros ms n ->; by apply json_lookup_missing].
Qed.

Lemma json_lookup_correct_witness :
  LITE_json_value_of mem_ok (lit "Payload.State.a") (q "{`Method`:`reply`,`Payload`:{`State`:{`a`:-1.5,`ok`:true}}}" ++ [0]) tt =
    Ok (Some (bytes_of "-1.5"), tt).
Proof.
  set (doc := JObject [(bytes_of "Method", JString (bytes_of "reply"));
    (bytes_of "Payload", JObject [(bytes_of "State", JObject [(bytes_of "a", JNumber (bytes_of "-1.5")); (bytes_of "ok", JBool true)])])]).
  destruct (json_lookup_correct mem_ok doc [] tt (fun _ => eq_refl) ltac:(by vm_compute)) as [Hfound _].
  destruct (Hfound [bytes_of "Payload"; bytes_of "State"; bytes_of "a"] (JNumber (bytes_of "-1.5"))) as [[] Hw];
    [done|by_eval|by vm_compute..|done|exact Hw].
Defined.

(* ================================================================== *)
(** * The scanner on any text *)

Section safe.
Context (s junk : bytes) (Hs : Forall (fun c => c <> 0) s) (Hlast : last s <> Some 34).

(** A pointer into the string [s], at most to its terminating 0. *)
Definition cptr (p : bytes) : Prop := exists a t, s = a ++ t /\ p = t ++ 0 :: junk.

Lemma cptr_start : cptr (s ++ 0 :: junk).
Proof using. by exists [], s. Qed.
Lemma cptr_cons p : cptr p -> exists c p', p = c :: p' /\ (c <> 0 -> cptr p').
Proof using.
  intros (a & [|c t] & E & ->); [by exists 0, junk|]. exists c, (t ++ 0 :: junk). split; [done|]. intros _.
  exists (a ++ [c]), t. by rewrite <- app_assoc.
Qed.
(** A quote is not the last character. *)
Lemma cptr_quote p : cptr (34 :: p) -> exists c p', p = c :: p' /\ c <> 0.
Proof using Hs Hlast.
  intros (a & [|c t] & E & Ep); [done|]. injection Ep as <- ->. destruct t as [|c t].
  - destruct Hlast. by rewrite E, last_snoc.
  - exists c, (t ++ 0 :: junk). split; [done|]. subst s. apply Forall_app in Hs as [_ Hs]. do 2 apply Forall_cons in Hs as [? Hs]. done.
Qed.
Lemma cptr_strlen p : cptr p -> exists n, strlen p = Ok n /\ (n < length p)%nat /\ forall m, (m <= n)%nat -> cptr (drop m p).
Proof using Hs Hlast.
  intros (a & t & E & ->). exists (length t). assert (Forall (fun c => c <> 0) t) by (subst s; by apply Forall_app in Hs as []).
  split; [|split; [rewrite length_app; cbn; lia|]].
  - rewrite (strlen_app _ _ O) by done. by rewrite Nat.add_0_r.
  - intros m Hm. exists (a ++ take m t), (drop m t). by rewrite <- app_assoc, take_drop, drop_app_le.
Qed.

Lemma strchr_safe p ch : ch <> 0 -> cptr p ->
  strchr p ch = Ok None \/ exists q, strchr p ch = Ok (Some (ch :: q)) /\ cptr (ch :: q) /\ (length (ch :: q) <= length p)%nat.
Proof using.
  intros Hch. induction p as [|c p IH]; intros Hp; [by apply cptr_cons in Hp as (?&?&?&_)|].
  cbn [strchr]. case_decide as Hc; [subst; right; eauto|]. case_decide as H0; [auto|].
  apply cptr_cons in Hp as (? & ? & [= <- <-] & Hp). destruct (IH (Hp H0)) as [->|(q & -> & Hq & Hl)]; [auto|].
  right. exists q. cbn in *. auto with lia.
Qed.

(** A value was found at or behind [p]. *)
Definition value_found (p : bytes) (r : res (Z * option bytes * bytes)) : Prop :=
  exists ty v q k, r = Ok (ty, Some v, q) /\ cptr v /\ q = drop k v /\ (k <= 1)%nat /\ cptr q /\
    (length v <= length p)%nat /\ (ty = JSSTRING -> exists c v', v = c :: v' /\ c <> 0).

Lemma find_value_safe p : cptr p ->
  (exists q, find_value p = Ok (JSNONE, None, q)) \/ value_found p (find_value p).
Proof using Hs Hlast.
  induction p as [|c p IH]; intros Hp; [by apply cptr_cons in Hp as (?&?&?&_)|].
  pose proof (cptr_cons _ Hp) as (? & ? & [= <- <-] & Hp'). cbn [find_value].
  case_decide as H0; [eauto|]. specialize (Hp' H0).
  case_decide as Hq.
  { right. subst. exists JSSTRING, p, p, O. cbn. split_and!; auto; try lia. intros _. by apply cptr_quote. }
  assert (Hskip : forall ty, ty <> JSSTRING -> value_found (c :: p) (Ok (ty, Some (c :: p), p))).
  { intros ty Hty. exists ty, (c :: p), p, 1%nat. cbn [drop]. rewrite drop_0. auto 10 with lia. }
  assert (Hstay : forall ty, ty <> JSSTRING -> value_found (c :: p) (Ok (ty, Some (c :: p), c :: p))).
  { intros ty Hty. exists ty, (c :: p), (c :: p), O. auto 10 with lia. }
  case_decide; [right; by apply Hskip|]. case_decide; [right; by apply Hskip|].
  destruct (_ || _); [right; by apply Hskip|]. do 2 (destruct (bool_decide _); [right; by apply Hstay|]).
  destruct (IH Hp') as [?|(ty & v & q & k & Hf & Hv & ? & Hk & Hcq & Hl & Hty)]; [eauto|].
  right. exists ty, v, q, k. cbn. auto 10 with lia.
Qed.

Lemma same_n_safe n : forall a b i j, strlen a = Ok i -> strlen b = Ok j -> exists r, same_n n a b = Ok r.
Proof using.
  induction n as [|n IH]; intros a b i j Ha Hb; [by eexists|]. destruct a as [|x a], b as [|y b]; try done.
  cbn [same_n strlen] in *. destruct (decide (x = y)) as [->|]; [|by eexists].
  destruct (decide (y = 0)) as [|H0]; [by eexists|].
  destruct (strlen a) eqn:Ea; [|done..]. destruct (strlen b) eqn:Eb; [|done..]. by eapply IH.
Qed.

Lemma is_word_safe v x X lo up : cptr v -> Forall (fun c => c <> 0) (bytes_of lo) -> Forall (fun c => c <> 0) (bytes_of up) ->
  exists b, is_word v x X lo up = Ok b /\ (b = true -> cptr (drop (length (bytes_of lo)) v)).
Proof using Hs Hlast.
  intros Hv Hlo Hup. destruct (cptr_strlen _ Hv) as (n & Hn & _ & Hd).
  destruct v as [|c v]; [done|]. unfold is_word, lit. rewrite Hn. cbn [mbind res_bind].
  destruct (bool_decide (c = x \/ c = X)); [cbn [andb]|by exists false].
  case_bool_decide as Hl; [|by exists false]. apply strlen_lit in Hlo, Hup.
  destruct (same_n_safe (length (bytes_of lo)) _ _ _ _ Hn Hlo) as [b1 ->]. cbn [mbind res_bind].
  destruct b1; [exists true; auto|]. destruct (same_n_safe (length (bytes_of lo)) _ _ _ _ Hn Hup) as [b2 ->]. exists b2. auto.
Qed.

Lemma value_len_safe ty v : cptr v -> (ty = JSSTRING -> exists c v', v = c :: v' /\ c <> 0) ->
  forall p n d, p = drop n v -> cptr p ->
  exists m, value_len ty v n d p = Ok m /\ cptr (drop m v) /\ (ty = JSSTRING -> cptr (drop (m + 1) v)).
Proof using Hs Hlast.
  intros Hv Hty. induction p as [|c p IH]; intros n d Hn Hp; [by apply cptr_cons in Hp as (?&?&?&_)|].
  pose proof (cptr_cons _ Hp) as (? & ? & [= <- <-] & Hp'). cbn [value_len].
  assert (Hend : cptr (drop 0 v) /\ (ty = JSSTRING -> cptr (drop (0 + 1) v))).
  { split; [done|]. intros (c' & v' & -> & Hc')%Hty. apply cptr_cons in Hv as (? & ? & [= <- <-] & Hv). by apply Hv. }
  case_decide as H0; [eauto|]. specialize (Hp' H0).
  assert (Hnext : p = drop (S n) v) by (by rewrite <- Nat.add_1_r, <- drop_drop, <- Hn).
  destruct (is_word_safe v 116 84 "true" "TRUE" Hv) as (b1 & -> & Hb1); [repeat constructor; done..|].
  destruct (is_word_safe v 102 70 "false" "FALSE" Hv) as (b2 & -> & Hb2); [repeat constructor; done..|].
  destruct (is_word_safe v 110 78 "null" "NULL" Hv) as (b3 & -> & Hb3); [repeat constructor; done..|].
  cbn [mbind res_bind].
  case_decide as Hbool.
  { destruct b1; [exists 4%nat; split_and!; auto; by subst|].
    destruct b2; [exists 5%nat; split_and!; auto; by subst|]. by apply IH. }
  case_decide as Hnull; [destruct b3; [exists 4%nat; split_and!; auto; by subst|by apply IH]|].
  case_decide as Hnum; [case_match; [exists n; rewrite <- Hn; split_and!; auto; by subst|by apply IH]|].
  repeat case_decide; try by apply IH.
  - exists n. rewrite <- Hn. split_and!; auto. intros _. by rewrite Nat.add_1_r, <- Hnext.
  - exists (S n). rewrite <- Hnext. split_and!; auto. done.
Qed.

Lemma json_get_value_safe p : cptr p -> exists v n ty q, json_get_value (Some p) = Ok (v, n, ty, q) /\
  (v = None /\ q = None \/
   exists v' q', v = Some v' /\ q = Some q' /\ cptr v' /\ cptr q' /\ (length q' <= length p)%nat).
Proof using Hs Hlast.
  intros Hp. unfold json_get_value.
  destruct (find_value_safe p Hp) as [[q ->]|(ty & v & q & k & -> & Hv & -> & Hk & Hq & Hl & Hty)]; cbn [mbind res_bind].
  { eexists _, _, _, _. split; [done|auto]. }
  rewrite length_drop. assert (k <= length v)%nat as Hkv.
  { destruct v; [by apply cptr_cons in Hv as (?&?&?&_)|]. cbn. lia. }
  replace (length v - _)%nat with k by lia.
  destruct (value_len_safe ty v Hv Hty (drop k v) k 0 eq_refl Hq) as (m & -> & Hm & Hm1). cbn [mbind res_bind].
  eexists _, _, _, _. split; [done|]. right. eexists _, _. split_and!; [done|done|done| |].
  - case_decide; auto.
  - rewrite length_drop. lia.
Qed.

(** One step: the entry and the position behind it lie in the string, and the
    position moves on. *)
Lemma json_next_safe p : cptr p -> exists e q, json_get_next_object JSOBJECT p = Ok (e, q) /\
  (q = None \/ exists k klen v vlen ty q', e = Some (mkEntry (Some k) klen (Some v) vlen ty) /\ q = Some q' /\
     cptr k /\ cptr v /\ cptr q' /\ (length q' < length p)%nat).
Proof using Hs Hlast.
  intros Hp. unfold json_get_next_object. rewrite decide_True by done. unfold json_get_key.
  destruct (strchr_safe p 34 ltac:(done) Hp) as [->|(q1 & -> & Hq1 & Hl1)]; cbn [mbind res_bind]; [by eexists _, _; auto|].
  pose proof (cptr_cons _ Hq1) as (? & ? & [= <- <-] & Hq1'). specialize (Hq1' ltac:(done)). cbn [drop]. rewrite drop_0.
  destruct (strchr_safe q1 34 ltac:(done) Hq1') as [->|(q2 & -> & Hq2 & Hl2)]; cbn [mbind res_bind]; [by eexists _, _; auto|].
  destruct (strchr_safe (34 :: q2) 58 ltac:(done) Hq2) as [->|(q3 & -> & Hq3 & Hl3)]; cbn [mbind res_bind].
  { eexists _, _. split; [done|auto]. }
  destruct (json_get_value_safe _ Hq3) as (v & n & ty & q & -> & [[-> ->]|(v' & q' & -> & -> & Hv & Hq & Hl)]);
    cbn [mbind res_bind]; [by eexists _, _; auto|].
  eexists _, _. split; [done|]. right. eexists _, _, _, _, _, _. split_and!; try done. cbn in *. lia.
Qed.

Lemma for_each_safe {A} (body : entry -> A -> res (bool * A)) (I : A -> Prop) :
  (forall k klen v vlen ty a, cptr k -> cptr v -> I a ->
     exists stop a', body (mkEntry (Some k) klen (Some v) vlen ty) a = Ok (stop, a') /\ I a') ->
  forall fuel p a, cptr p -> I a -> (length p < fuel)%nat -> exists a', for_each_kv fuel body (Some p) a = Ok a' /\ I a'.
Proof using Hs Hlast.
  intros Hbody. induction fuel as [|fuel IH]; intros p a Hp Ha Hf; [lia|].
  pose proof (cptr_cons _ Hp) as (c & p' & -> & _). cbn [for_each_kv]. case_decide; [eauto|].
  destruct (json_next_safe _ Hp) as (e & q & -> & [->|(k & klen & v & vlen & ty & q' & -> & -> & Hk & Hv & Hq & Hl)]);
    cbn [mbind res_bind]; [destruct e; eauto|].
  destruct (Hbody k klen v vlen ty a Hk Hv Ha) as (stop & a' & -> & Ha'). cbn [mbind res_bind].
  destruct stop; [eauto|]. apply IH; [done..|cbn in *; lia].
Qed.

Section by_name_safe.
Context (name : bytes) (Hname : Forall (fun c => c <> 0) name).

Definition nv_ok (x : Z * JSON_NV) : Prop :=
  nLen x.2 = length name /\ pN x.2 = name ++ [0] /\ forall v, pV x.2 = Some v -> cptr v.

Lemma by_name_body_safe k klen v vlen ty x : cptr k -> cptr v -> nv_ok x ->
  exists stop x', parse_body json_get_value_by_name_cb (mkEntry (Some k) klen (Some v) vlen ty) x = Ok (stop, x') /\ nv_ok x'.
Proof using Hs Hlast Hname.
  intros Hk Hv Hx. unfold parse_body. cbn [key val key_len val_len val_type]. case_decide; [eauto|].
  unfold json_get_value_by_name_cb. pose proof Hx as (-> & -> & Hpv).
  destruct (cptr_strlen _ Hk) as (n & Hn & _).
  destruct (same_n_safe (length name) k (name ++ [0]) n (length name) Hn) as [b ->]; [by apply strlen_lit|].
  cbn [mbind res_bind]. destruct b; cbn [mbind res_bind]; eexists _, _; (split; [done|]); [|done].
  split_and!; cbn; [done..|]. by intros ? [= <-].
Qed.

Lemma value_of_safe src len : cptr src ->
  exists v len', value_of src (name ++ [0]) len = Ok (v, len') /\ forall p, v = Some p -> cptr p.
Proof using Hs Hlast Hname.
  intros Hsrc. destruct (cptr_strlen _ Hsrc) as (n & Hn & Hnl & _). unfold value_of. rewrite Hn. cbn [mbind res_bind].
  unfold json_get_value_by_name. rewrite strlen_lit by done. cbn [mbind res_bind].
  unfold json_parse_name_value. case_decide as H0; cbn [mbind res_bind].
  { eexists _, _. split; [done|]. done. }
  rewrite Hn. cbn [mbind res_bind]. rewrite decide_False by auto. cbn [mbind res_bind].
  assert (Hgo : exists x, json_object_for_each_kv (parse_body json_get_value_by_name_cb) src
      (JSON_RESULT_ERR, mkNV (length name) 0 0 (name ++ [0]) None) = Ok x /\ nv_ok x).
  { assert (Hobj : json_get_object JSOBJECT src = Ok None \/ exists p, json_get_object JSOBJECT src = Ok (Some p) /\ cptr p /\
      (length p <= length src)%nat).
    { clear Hn Hnl H0. induction src as [|c src IH]; [by apply cptr_cons in Hsrc as (?&?&?&_)|]. cbn [json_get_object].
      pose proof (cptr_cons _ Hsrc) as (? & ? & [= <- <-] & Hp). case_decide as Hc; [auto|].
      case_decide; [destruct (IH (Hp Hc)) as [->|(p & -> & ? & ?)]; [auto|right; exists p; cbn; auto with lia]|].
      destruct (decide (c = _)); [right; eauto|auto]. }
    unfold json_object_for_each_kv. destruct Hobj as [->|(p & -> & Hp & Hl)]; cbn [mbind res_bind].
    - eexists. split; [done|]. split_and!; done.
    - apply (for_each_safe _ nv_ok); [exact by_name_body_safe|done| |lia]. by split_and!. }
  destruct Hgo as ([r nv] & -> & _ & _ & Hpv). cbn [mbind res_bind]. rewrite Hn. cbn [mbind res_bind].
  rewrite decide_False by auto. cbn [mbind res_bind].
  case_decide; cbn [mbind res_bind andb]; (eexists _, _; split; [done|exact Hpv]).
Qed.
End by_name_safe.

Section path_safe.
Context {W : Type} (malloc : W -> bool * W) (Hmalloc : forall w, (malloc w).1 = true).

Lemma path_loop_safe fuel : forall key src len w,
  Forall (fun c => c <> 0) key -> cptr src -> (length key < fuel)%nat ->
  exists w', path_loop malloc fuel (key ++ [0]) src len w = Ok (None, w') \/
  exists src' key' len', path_loop malloc fuel (key ++ [0]) src len w = Ok (Some (src', key' ++ [0], len'), w') /\
    Forall (fun c => c <> 0) key' /\ cptr src'.
Proof using Hs Hlast Hmalloc.
  induction fuel as [|fuel IH]; intros key src len w Hkey Hsrc Hf; [lia|]. cbn [path_loop].
  destruct (decide (46 ∈ key)) as [(k1 & k2 & -> & Hk1)%list_elem_of_split_l|Hdot].
  - apply Forall_app in Hkey as [Hz1 [_ Hz2]%Forall_cons]. rewrite length_app in Hf. cbn [length] in Hf.
    rewrite <- app_assoc. cbn [app]. rewrite strchr_skip, strchr_hit.
    2: { rewrite Forall_forall in *. intros c Hc. split; [by intros ->|auto]. }
    cbn [mbind res_bind]. rewrite length_app. replace (length k1 + _ - _)%nat with (length k1) by lia. rewrite take_app_length.
    pose proof (Hmalloc w) as Hm. destruct (malloc w) as [got w1]. cbn in Hm. subst got.
    destruct (value_of_safe k1 Hz1 src len Hsrc) as (v & len' & -> & Hv). cbn [mbind res_bind].
    destruct v as [p|]; [|eauto]. cbn [drop]. apply IH; [done|by apply Hv|lia].
  - rewrite strchr_skip. 2: { rewrite Forall_forall in *. intros c Hc. split; [by intros ->|auto]. }
    cbn. exists w. right. exists src, key, len. auto.
Qed.

End path_safe.
End safe.

(** On any text whose last character is not a quote, for any path, the
    scanner returns: it stays inside the string and its terminating 0, it does
    not run for ever, and a value it returns is a piece of the text. *)
Lemma json_lookup_in_bounds {W} (malloc : W -> bool * W) s junk key w :
  (forall w, (malloc w).1 = true) -> Forall (fun c => c <> 0) s -> last s <> Some 34 -> Forall (fun c => c <> 0) key ->
  exists r w', LITE_json_value_of malloc (key ++ [0]) (s ++ 0 :: junk) w = Ok (r, w') /\
    forall t, r = Some t -> exists a b, s = a ++ t ++ b.
Proof.
  intros Hm Hs Hl Hk. unfold LITE_json_value_of.
  destruct (path_loop_safe s junk Hs Hl malloc Hm (S (length (key ++ [0]))) key (s ++ 0 :: junk) (-1) w Hk
    (cptr_start s junk)) as [w' [->|(src & key' & len & -> & Hk' & Hsrc)]];
    [rewrite length_app; lia|cbn [mbind res_bind]..].
  { eexists _, _. by split. }
  destruct (value_of_safe s junk Hs Hl key' Hk' src len Hsrc) as (v & len' & -> & Hv). cbn [mbind res_bind].
  destruct v as [p|]; [|eexists _, _; by split].
  pose proof (Hm w') as Hm'. destruct (malloc w') as [got w'']. cbn in Hm'. subst got.
  destruct (Hv p eq_refl) as (a & t & E & ->).
  assert (Ht : Forall (fun c => c <> 0) t) by (rewrite E in Hs; by apply Forall_app in Hs as []).
  rewrite snprintf_take by done. cbn [mbind res_bind]. eexists _, _. split; [done|]. intros ? [= <-].
  exists a, (drop (Z.to_nat len') t). by rewrite E, take_drop.
Qed.


(** The lookup with the value's type asked for, on a text of which only the
    first [n] characters are meant. *)
Definition jget_n (src : String.string) (n : nat) (name : String.string) : res (option bytes * bytes) :=
  '(v, _, str) ← json_get_value_by_name (q src ++ [0]) n (lit name) true; Ok (v, str).

(** C34: On any text whose last character is not a quote, for any path, the
    scanner returns: it stays inside the string and its terminating 0, it does
    not run for ever, and a value it returns is a piece of the text.

    What it does outside these bounds and those of [json_lookup_correct]: it
    takes a member whose name only starts with the name searched, goes on
    behind the end of a nested object, counts brackets in strings, ends a
    string at an escaped quote and a number at its exponent, and does not find
    empty strings.  A text that ends in the opening quote of a value is read
    beyond its terminating 0, and so is memory at NULL when there is no memory
    for a component of a path.  A text of which only a part is meant stays cut
    there: the character overwritten by 0 is not put back. *)
Theorem json_lookup_safe :
  (forall W (malloc : W -> bool * W) s junk key w,
    (forall w, (malloc w).1 = true) -> Forall (fun c => c <> 0) s -> last s <> Some 34 -> Forall (fun c => c <> 0) key ->
    exists r w', LITE_json_value_of malloc (key ++ [0]) (s ++ 0 :: junk) w = Ok (r, w') /\
      forall t, r = Some t -> exists a b, s = a ++ t ++ b) /\
  jget "a" "{`ab`:1,`a`:2}" = is_str "1" /\
  jget "p.c" "{`p`:{`a`:1},`c`:2}" = is_str "2" /\
  jget "p" "{`p`:{`a`:`}`},`c`:2}" = is_str "{`a`:`}" /\
  jget "s" "{`s`:`x\`y`}" = is_str "x\" /\
  jget "n" "{`n`:1e5}" = is_str "1" /\
  jget "e" "{`e`:``}" = Ok None /\
  jget "b" "{`a`:`" = Oob /\
  LITE_json_value_of (fun w : unit => (false, w)) (lit "a.b") (q "{`a`:{`b`:1}}" ++ [0]) tt = Oob /\
  jget_n "{`a`:1,`b`:2}" 7 "a" = Ok (Some (q "1," ++ [0] ++ q "b`:2}" ++ [0]), q "{`a`:1," ++ [0] ++ q "b`:2}" ++ [0]).
Proof. split; [intros W; apply json_lookup_in_bounds|by_eval]. Qed.

Lemma json_lookup_safe_witness :
  exists r w', LITE_json_value_of mem_ok (lit "a.b") (q "{`a`:[1,{`b`:tru}" ++ 0 :: [7; 7]) tt = Ok (r, w') /\
    forall t, r = Some t -> exists a b, q "{`a`:[1,{`b`:tru}" = a ++ t ++ b.
Proof.
  apply (proj1 json_lookup_safe unit mem_ok (q "{`a`:[1,{`b`:tru}") [7; 7] (bytes_of "a.b") tt);
    [done|by_eval|by_eval|by_eval].
Defined.
