(* ===== verification/CLib.v ===== *)
(** What the HTTP and update clients share: outcomes of imperative code, and
    the functions of the C library they use on strings - [strstr], [atoi], [%d].

    A [char *] is the list of the bytes from it on, as in [Json]. *)

From S2P Require Import Prelude Json.

(* ================================================================== *)
(** * Outcomes *)

(** A function with an environment returns, does something undefined, or still
    runs when the fuel of its loops is used up. *)
Inductive outcome (A : Type) : Type :=
  | Done (a : A)
  | Undefined
  | Unfinished.
Arguments Done {A} a.
Arguments Undefined {A}.
Arguments Unfinished {A}.

#[export] Instance outcome_ret : MRet outcome := fun A a => Done a.
#[export] Instance outcome_bind : MBind outcome := fun A B f m =>
  match m with Done a => f a | Undefined => Undefined | Unfinished => Unfinished end.

Definition access {A} (r : res A) : outcome A :=
  match r with Ok a => Done a | _ => Undefined end.
Definition finish {A} (r : option A) : outcome A :=
  match r with Some a => Done a | None => Unfinished end.

(** [post o Q]: nothing undefined happens, and a result satisfies [Q].
    [yields o Q]: a result satisfies [Q]. *)
Definition post {A} (o : outcome A) (Q : A -> Prop) : Prop :=
  match o with Done a => Q a | Undefined => False | Unfinished => True end.
Definition yields {A} (o : outcome A) (Q : A -> Prop) : Prop :=
  match o with Done a => Q a | _ => True end.

Lemma post_bind {A B} (o : outcome A) (f : A -> outcome B) Q :
  post o (fun a => post (f a) Q) -> post (o ≫= f) Q.
Proof. by destruct o. Qed.
Lemma post_mono {A} (o : outcome A) (P Q : A -> Prop) :
  post o P -> (forall a, P a -> Q a) -> post o Q.
Proof. destruct o; cbn; auto. Qed.
Lemma post_access {A B} (r : res A) a (f : A -> outcome B) Q :
  r = Ok a -> post (f a) Q -> post (access r ≫= f) Q.
Proof. by intros ->. Qed.
Lemma yields_bind {A B} (o : outcome A) (f : A -> outcome B) Q :
  yields o (fun a => yields (f a) Q) -> yields (o ≫= f) Q.
Proof. by destruct o. Qed.
Lemma yields_mono {A} (o : outcome A) (P Q : A -> Prop) :
  yields o P -> (forall a, P a -> Q a) -> yields o Q.
Proof. destruct o; cbn; auto. Qed.
Lemma yields_access {A B} (r : res A) (f : A -> outcome B) Q :
  (forall a, r = Ok a -> yields (f a) Q) -> yields (access r ≫= f) Q.
Proof. destruct r; cbn; auto. Qed.
Lemma post_yields {A} (o : outcome A) Q : post o Q -> yields o Q.
Proof. by destruct o. Qed.

(* ================================================================== *)
(** * Strings *)

(** Whether [s] starts with [needle]; the 0 at the end of [s] is no character
    of a needle. *)
Fixpoint starts (needle s : bytes) : bool :=
  match needle, s with
  | [], _ => true
  | c :: needle, d :: s => bool_decide (c = d) && starts needle s
  | _, [] => false
  end.

Fixpoint strstr (s needle : bytes) : res (option bytes) :=
  if starts needle s then Ok (Some s)
  else match s with
       | [] => Oob
       | c :: s' => if decide (c = 0) then Ok None else strstr s' needle
       end.

(** [isspace], and the digits at the start of a string. *)
Definition is_space (c : Z) : bool := bool_decide (c = 32 \/ 9 <= c <= 13).
Fixpoint skip_space (s : bytes) : bytes :=
  match s with c :: s' => if is_space c then skip_space s' else s | [] => [] end.
Fixpoint digits (acc : Z) (s : bytes) : res Z :=
  match s with
  | [] => Oob
  | c :: s' => if is_digit c then digits (10 * acc + (c - 48)) s' else Ok acc
  end.

(** [atoi]; a number that is no [int] is undefined behaviour. *)
Definition int_of (n : Z) : res Z :=
  if decide (-2147483648 <= n < 2147483648) then Ok n else Oob.
Definition atoi (s : bytes) : res Z :=
  match skip_space s with
  | 45 :: s' => n ← digits 0 s'; int_of (- n)
  | 43 :: s' => n ← digits 0 s'; int_of n
  | s' => n ← digits 0 s'; int_of n
  end.

(** [%d]: the decimal digits of an [int]; ten are enough. *)
Fixpoint dec_digits (fuel : nat) (n : Z) : bytes :=
  match fuel with
  | O => []
  | S fuel => (if decide (n < 10) then [] else dec_digits fuel (n `div` 10)) ++ [48 + n `mod` 10]
  end.
Definition dec (n : Z) : bytes :=
  if decide (n < 0) then 45 :: dec_digits 10 (- n) else dec_digits 10 n.

(** [HAL_Snprintf(buf, size, ...)] where the format yields [text]: what is
    stored before the terminating 0. *)
Definition snprintf (size : Z) (text : bytes) : bytes := take (Z.to_nat (size - 1)) text.

Example dec_ex : dec 4096 = bytes_of "4096" /\ dec (-7) = bytes_of "-7" /\ dec 0 = bytes_of "0".
Proof. vm_compute. auto. Qed.
Example atoi_ex : atoi (bytes_of " 206 Partial" ++ [0]) = Ok 206.
Proof. vm_compute. reflexivity. Qed.

(** ** Lemmas *)

Lemma starts_app needle rest : starts needle (needle ++ rest) = true.
Proof. induction needle; cbn; [done|]. by rewrite bool_decide_true, IHneedle. Qed.
Lemma starts_spec needle s : starts needle s = true -> exists rest, s = needle ++ rest.
Proof.
  revert s. induction needle as [|c needle IH]; intros s; [by exists s|].
  destruct s as [|d s]; cbn; [done|]. intros [->%bool_decide_eq_true Hs]%andb_prop.
  destruct (IH s Hs) as [rest ->]. by exists rest.
Qed.
Lemma starts_cut needle s rest : (length needle <= length s)%nat -> starts needle (s ++ rest) = starts needle s.
Proof.
  revert s. induction needle as [|c needle IH]; intros s Hl; [done|].
  destruct s as [|d s]; cbn in *; [lia|]. by rewrite IH by lia.
Qed.

(** [free needle s rest]: no occurrence of [needle] starts in [s], read in
    front of [rest], and no 0 lies in [s]. *)
Definition free (needle s rest : bytes) : Prop :=
  forall k c, s !! k = Some c -> c <> 0 /\ starts needle (drop k s ++ rest) = false.

Lemma free_cons needle c s rest :
  free needle (c :: s) rest <-> c <> 0 /\ starts needle (c :: s ++ rest) = false /\ free needle s rest.
Proof.
  split.
  - intros Hf. pose proof (Hf O c eq_refl) as [H1 H2]. split_and!; [done|done|].
    intros k d Hk. exact (Hf (S k) d Hk).
  - intros (H1 & H2 & Hf) [|k] d Hk; [by injection Hk as <-|exact (Hf k d Hk)].
Qed.

Lemma strstr_free needle s rest : free needle s rest -> strstr (s ++ rest) needle = strstr rest needle.
Proof.
  induction s as [|c s IH]; [done|]. intros (Hc & Hs & Hf)%free_cons. cbn [app strstr].
  rewrite Hs, decide_False by done. auto.
Qed.
Lemma strstr_hit needle rest : strstr (needle ++ rest) needle = Ok (Some (needle ++ rest)).
Proof. pose proof (starts_app needle rest) as Hs. destruct (needle ++ rest); cbn [strstr]; by rewrite Hs. Qed.
Lemma strstr_end c needle rest : c <> 0 -> strstr (0 :: rest) (c :: needle) = Ok None.
Proof. intros Hc. cbn. by rewrite bool_decide_false. Qed.

(** What [strstr] finds is the first occurrence. *)
Lemma strstr_spec needle s r : strstr s needle = Ok r ->
  match r with
  | Some p => exists pre rest, s = pre ++ needle ++ rest /\ p = needle ++ rest /\ free needle pre (needle ++ rest)
  | None => exists pre rest, s = pre ++ 0 :: rest /\ free needle pre (0 :: rest)
  end.
Proof.
  revert r. induction s as [|c s IH]; intros r Hr.
  - cbn in Hr. destruct (starts needle []) eqn:Hs; [|done]. injection Hr as <-.
    apply starts_spec in Hs as [rest E]. exists [], rest. split_and!; [done|done|]. intros k c Hk. done.
  - cbn [strstr] in Hr. destruct (starts needle (c :: s)) eqn:Hs.
    { injection Hr as <-. apply starts_spec in Hs as [rest E]. exists [], rest. split_and!; [done|done|]. intros k d Hk. done. }
    case_decide as Hc.
    { injection Hr as <-. subst c. exists [], s. split; [done|]. intros k d Hk. done. }
    specialize (IH r Hr). destruct r as [p|].
    + destruct IH as (pre & rest & -> & -> & Hf). exists (c :: pre), rest. split_and!; [done|done|].
      by apply free_cons.
    + destruct IH as (pre & rest & -> & Hf). exists (c :: pre), rest. split; [done|]. by apply free_cons.
Qed.

Lemma dec_digits_spec fuel : forall n rest acc, 0 <= n < 10 ^ Z.of_nat fuel -> (0 < fuel)%nat ->
  exists k, digits acc (dec_digits fuel n ++ rest) = digits (acc * 10 ^ k + n) rest /\ 0 <= k.
Proof.
  induction fuel as [|fuel IH]; intros n rest acc Hn Hf; [lia|]. cbn [dec_digits].
  assert (Hlast : forall acc, digits acc ([48 + n `mod` 10] ++ rest) = digits (10 * acc + n `mod` 10) rest).
  { intros a. cbn [app digits]. unfold is_digit. rewrite bool_decide_true by zmod. f_equal. lia. }
  case_decide as Hd.
  - cbn [app]. exists 1. change ([48 + n `mod` 10] ++ rest) with ((48 + n `mod` 10) :: rest) in Hlast.
    rewrite Hlast, Z.mod_small by lia. split; [f_equal; lia|lia].
  - rewrite <- app_assoc. rewrite Nat2Z.inj_succ, Z.pow_succ_r in Hn by lia.
    destruct fuel as [|fuel]; [cbn in Hn; lia|].
    destruct (IH (n `div` 10) ([48 + n `mod` 10] ++ rest) acc) as (k & -> & Hk); [zmod|lia|].
    exists (k + 1). rewrite Hlast, Z.pow_add_r by lia. split; [f_equal; zmod|lia].
Qed.

(** [atoi] reads back what [%d] prints. *)
Lemma atoi_dec n c rest : 0 <= n < 2147483648 -> is_digit c = false -> atoi (dec n ++ c :: rest) = Ok n.
Proof.
  intros Hn Hc. unfold dec. rewrite decide_False by lia.
  destruct (dec_digits_spec 10 n (c :: rest) 0) as (k & Hd & _); [cbn; lia|lia|].
  cbn [digits] in Hd. rewrite Hc in Hd. cbn [Z.mul Z.add] in Hd.
  assert (Hfirst : exists d t, dec_digits 10 n = d :: t /\ 48 <= d <= 57).
  { clear. generalize 9%nat. intros f. change 10%nat with (S 9). revert n.
    assert (forall f n, exists d t, dec_digits (S f) n = d :: t /\ 48 <= d <= 57) as Hall; [|intros n; apply Hall].
    clear. induction f as [|f IH]; intros n; cbn [dec_digits].
    - case_decide; cbn; eexists _, _; (split; [done|zmod]).
    - case_decide; [cbn; eexists _, _; (split; [done|zmod])|].
      destruct (IH (n `div` 10)) as (d & t & E & Hd). cbn [dec_digits] in E. rewrite E. cbn. eauto. }
  destruct Hfirst as (d & t & E & Hd1). rewrite E in *. cbn [app] in *. unfold atoi. cbn [skip_space].
  unfold is_space at 1. rewrite bool_decide_false by lia.
  destruct d as [|d|d]; try lia. unfold int_of in *.
  repeat (destruct d as [d|d|]; try lia; try (rewrite Hd; cbn [mbind res_bind]; rewrite decide_True by lia; done)).
Qed.

(* ================================================================== *)
(** * Printing into a buffer *)

(** [HAL_Snprintf(buf + pos, size, ...)] where the format yields [text]: the
    buffer and the result.  As ISO C has it, more room than the
    text needs is as good as that, although the buffer may be smaller. *)
Definition snprintf_at (buf : bytes) (pos size : Z) (text : bytes) : res (bytes * Z) :=
  if decide (size = 0) then Ok (buf, zlen text)
  else buf ← write_at buf pos (snprintf (Z.min size (zlen text + 1)) text ++ [0]); Ok (buf, zlen text).

(** The buffer of [size] bytes holds the string [t]. *)
Definition holds (buf t : bytes) (size : Z) : Prop :=
  exists junk, buf = t ++ 0 :: junk /\ zlen buf = size /\ Forall (fun c => c <> 0) t.

Lemma holds_strlen buf t size : holds buf t size -> strlen buf = Ok (length t).
Proof. intros (junk & -> & _ & Ht). rewrite (strlen_app _ _ O) by done. by rewrite Nat.add_0_r. Qed.
Lemma holds_len buf t size : holds buf t size -> zlen t < size.
Proof. intros (junk & -> & <- & _). rewrite length_app. cbn [length]. lia. Qed.

Lemma snprintf_fits size text : zlen text < size -> snprintf (Z.min size (zlen text + 1)) text = text.
Proof. intros Hl. unfold snprintf. apply take_ge. lia. Qed.

(** Printing at the end of [t], over [old]. *)
Lemma snprintf_at_holds buf t old total size text :
  holds buf (t ++ old) total -> zlen text < size -> zlen t + zlen text < total -> Forall (fun c => c <> 0) text ->
  exists buf', snprintf_at buf (zlen t) size text = Ok (buf', zlen text) /\ holds buf' (t ++ text) total.
Proof.
  intros (junk & -> & Hl & Ht) Hs Hf Hx. unfold snprintf_at. rewrite decide_False by lia.
  rewrite snprintf_fits by done. set (r := old ++ 0 :: junk). rewrite <- app_assoc in *. fold r in Hl |- *.
  assert (Hw : write_at (t ++ r) (zlen t) (text ++ [0]) = Ok (t ++ text ++ 0 :: drop (length text + 1) r)).
  { apply write_at_ok. rewrite !length_app in *. cbn [length]. split_and!; [lia..|].
    rewrite Nat2Z.id, take_app_length, drop_app_ge, <- !app_assoc by lia. cbn [app]. do 4 f_equal. lia. }
  rewrite Hw. cbn [mbind res_bind]. eexists. split; [done|]. exists (drop (length text + 1) r). rewrite <- app_assoc. split_and!; [done| |].
  - apply write_at_ok in Hw as (_ & _ & Hw). rewrite !length_app in *. cbn [length]. rewrite length_drop. lia.
  - apply Forall_app in Ht as [Ht _]. by apply Forall_app.
Qed.
Lemma snprintf_at_end buf t total size text :
  holds buf t total -> zlen text < size -> zlen t + zlen text < total -> Forall (fun c => c <> 0) text ->
  exists buf', snprintf_at buf (zlen t) size text = Ok (buf', zlen text) /\ holds buf' (t ++ text) total.
Proof. intros Hh. apply (snprintf_at_holds _ _ []). by rewrite app_nil_r. Qed.

Lemma snprintf_at_over buf t total size text :
  holds buf t total -> zlen text < size -> total <= zlen t + zlen text -> snprintf_at buf (zlen t) size text = Oob.
Proof.
  intros (junk & -> & Hl & _) Hs Ht. unfold snprintf_at. rewrite decide_False, snprintf_fits by lia.
  unfold write_at. rewrite decide_False; [done|]. rewrite (length_app text). cbn [length]. lia.
Qed.
