(* ===== verification/JsonConv.v ===== *)
(** The conversions of [uiot/utils/json_token.c]: numbers and truth values from
    the text that [LITE_json_value_of] found.

    [sscanf] is read as ISO C defines it: no number at the start is a result of
    its own; a number that its object cannot hold is undefined. *)

From S2P Require Import Prelude Defs Json CLib.

(** ** [sscanf] *)

Definition sign_of (s : bytes) : bool * bytes :=
  match s with
  | c :: s' => if decide (c = 45) then (true, s') else if decide (c = 43) then (false, s') else (false, s)
  | [] => (false, s)
  end.

Definition digit_value (c : Z) : Z :=
  if decide (48 <= c <= 57) then c - 48
  else if decide (97 <= c <= 102) then c - 87
  else if decide (65 <= c <= 70) then c - 55 else 16.
Fixpoint number_in (base acc : Z) (s : bytes) : res Z :=
  match s with
  | [] => Oob
  | c :: s' => if decide (digit_value c < base) then number_in base (base * acc + digit_value c) s' else Ok acc
  end.

(** A number of the base that starts with a digit. *)
Definition number_at (base : Z) (s : bytes) : res (option Z) :=
  match s with
  | [] => Oob
  | c :: _ => if decide (digit_value c < base) then n ← number_in base 0 s; Ok (Some n) else Ok None
  end.

Definition within (lo hi : Z) (n : option Z) : res (option Z) :=
  match n with
  | Some n => if decide (lo <= n < hi) then Ok (Some n) else Oob
  | None => Ok None
  end.

(** [%u] into an object of [bits] bits: a minus sign negates an [unsigned long]. *)
Definition scan_u (bits : Z) (src : bytes) : res (option Z) :=
  let '(neg, s) := sign_of (skip_space src) in
  n ← number_at 10 s;
  n ← within 0 4294967296 n;
  within 0 (2 ^ bits) (option_map (fun n => if neg : bool then u32 (- n) else n) n).

(** [%i]: the base is told by the first characters. *)
Definition number_any (s : bytes) : res (option Z) :=
  match s with
  | c :: s' =>
      if decide (c = 48) then
        match s' with
        | [] => Oob
        | x :: s'' => if decide (x = 120 \/ x = 88) then number_at 16 s'' else number_at 8 s
        end
      else number_at 10 s
  | [] => Oob
  end.
Definition scan_i (bits : Z) (src : bytes) : res (option Z) :=
  let '(neg, s) := sign_of (skip_space src) in
  n ← number_any s;
  within (- 2 ^ (bits - 1)) (2 ^ (bits - 1)) (option_map (fun n => if neg : bool then - n else n) n).

(** ** [json_token.c]

    The value that is stored, or [None] for [FAILURE_RET]. *)

Definition s8 (z : Z) : Z := (z + 128) mod 256 - 128.

Definition LITE_get_int32 (src : bytes) : res (option Z) := scan_i 32 src.
Definition LITE_get_int16 (src : bytes) : res (option Z) := scan_i 16 src.
Definition LITE_get_int8 (src : bytes) : res (option Z) := temp ← scan_i 16 src; Ok (option_map s8 temp).
Definition LITE_get_uint32 (src : bytes) : res (option Z) := scan_u 32 src.
Definition LITE_get_uint16 (src : bytes) : res (option Z) := scan_u 16 src.
Definition LITE_get_uint8 (src : bytes) : res (option Z) := temp ← scan_u 16 src; Ok (option_map u8 temp).
(** [%f] and [%lf] are parameters. *)
Definition LITE_get_float {F} (scan_f : bytes -> option F) (src : bytes) : res (option F) := Ok (scan_f src).
Definition LITE_get_double {F} (scan_lf : bytes -> option F) (src : bytes) : res (option F) := Ok (scan_lf src).
Definition LITE_get_boolean (src : bytes) : res bool :=
  match cstr src with Some s => Ok (bool_decide (s <> [48])) | None => Oob end.

Example get_int32_ex :
  LITE_get_int32 (lit "-42") = Ok (Some (-42)) /\ LITE_get_int32 (lit "0x1f") = Ok (Some 31) /\
  LITE_get_int32 (lit "010") = Ok (Some 8) /\ LITE_get_int32 (lit "x") = Ok None /\
  LITE_get_int32 (lit "2147483648") = Oob /\ LITE_get_uint32 (lit "-1") = Ok (Some 4294967295) /\
  LITE_get_int8 (lit "300") = Ok (Some 44).
Proof. vm_compute. auto 10. Qed.

(** ** What [%d] prints is read back *)

Lemma digit_value_10 d : 0 <= d < 10 -> digit_value (48 + d) = d.
Proof. intros Hd. unfold digit_value. rewrite decide_True by lia. lia. Qed.
Lemma number_in_digits acc s : number_in 10 acc s = digits acc s.
Proof.
  revert acc. induction s as [|c s IH]; intros acc; [done|]. cbn [number_in digits]. unfold is_digit.
  destruct (decide (48 <= c <= 57)) as [Hc|Hc].
  - replace (digit_value c) with (c - 48) by (unfold digit_value; by rewrite decide_True).
    rewrite bool_decide_true, decide_True by lia. apply IH.
  - rewrite bool_decide_false by done. rewrite decide_False; [done|].
    unfold digit_value. rewrite decide_False by done. repeat case_decide; lia.
Qed.

(** The digits start with one that is not 0, but for the number 0. *)
Lemma dec_digits_first fuel : forall n, 0 <= n < 10 ^ Z.of_nat fuel -> (0 < fuel)%nat ->
  exists d t, dec_digits fuel n = d :: t /\ 48 <= d <= 57 /\ (d = 48 -> n = 0 /\ t = []).
Proof.
  induction fuel as [|fuel IH]; intros n Hn Hf; [lia|]. cbn [dec_digits].
  case_decide as Hd.
  - exists (48 + n), []. rewrite Z.mod_small by lia. split_and!; [done|lia..|]. intros. split; [lia|done].
  - rewrite Nat2Z.inj_succ, Z.pow_succ_r in Hn by lia. destruct fuel as [|fuel]; [cbn in Hn; lia|].
    destruct (IH (n `div` 10)) as (d & t & -> & H1 & H2); [zmod|lia|].
    exists d, (t ++ [48 + n `mod` 10]). split_and!; [done|lia..|]. intros Hd0. destruct (H2 Hd0). zmod.
Qed.
Lemma digits_dec n c rest : 0 <= n < 10000000000 -> is_digit c = false -> digits 0 (dec_digits 10 n ++ c :: rest) = Ok n.
Proof.
  intros Hn Hc. destruct (dec_digits_spec 10 n (c :: rest) 0) as (k & -> & _); [cbn; lia|lia|].
  cbn [digits]. rewrite Hc. f_equal; lia.
Qed.

(** [stops c]: no number goes on with the character [c]. *)
Definition stops (c : Z) : Prop := is_digit c = false /\ c <> 120 /\ c <> 88.

Lemma sign_digits d t : 48 <= d <= 57 -> sign_of (skip_space (d :: t)) = (false, d :: t).
Proof.
  intros Hd. cbn [skip_space]. unfold is_space. rewrite bool_decide_false by lia. unfold sign_of. by rewrite !decide_False by lia.
Qed.
Lemma sign_minus t : sign_of (skip_space (45 :: t)) = (true, t).
Proof. done. Qed.

Lemma number_at_dec n c rest : 0 <= n < 10000000000 -> stops c ->
  number_at 10 (dec_digits 10 n ++ c :: rest) = Ok (Some n).
Proof.
  intros Hn (Hc & _). pose proof (digits_dec n c rest Hn Hc) as Hd.
  destruct (dec_digits_first 10 n) as (d & t & E & Hr & _); [cbn; lia|lia|]. rewrite E in *. cbn [app] in *.
  unfold number_at. replace (digit_value d) with (d - 48) by (unfold digit_value; by rewrite decide_True).
  rewrite decide_True by lia. by rewrite number_in_digits, Hd.
Qed.

Lemma scan_u_dec bits n c rest : 0 <= n < 2 ^ bits -> bits = 8 \/ bits = 16 \/ bits = 32 -> stops c ->
  scan_u bits (dec n ++ c :: rest) = Ok (Some n).
Proof.
  intros Hn Hb Hc. assert (n < 4294967296) by (destruct Hb as [->|[-> | ->]]; cbn in Hn; lia).
  unfold scan_u, dec. rewrite decide_False by lia.
  destruct (dec_digits_first 10 n) as (d & t & E & Hr & _); [cbn; lia|lia|].
  pose proof (number_at_dec n c rest ltac:(lia) Hc) as Hs. rewrite E in *. cbn [app] in *.
  rewrite sign_digits, Hs by done. cbn [mbind res_bind within option_map]. rewrite decide_True by lia.
  cbn [mbind res_bind within option_map]. by rewrite decide_True by lia.
Qed.

Lemma number_any_dec n c rest : 0 <= n < 10000000000 -> stops c ->
  number_any (dec_digits 10 n ++ c :: rest) = Ok (Some n).
Proof.
  intros Hn Hc. pose proof (number_at_dec n c rest ltac:(lia) Hc) as Hs.
  destruct (dec_digits_first 10 n) as (d & t & E & Hr & H0); [cbn; lia|lia|]. rewrite E in *. cbn [app] in *.
  unfold number_any. case_decide as Hd; [|done]. destruct (H0 Hd) as [-> ->]. subst d. destruct Hc as (Hc & Hx & HX). cbn [app].
  rewrite decide_False by tauto. unfold number_at. change (digit_value 48) with 0. rewrite decide_True by lia.
  cbn [number_in]. change (digit_value 48) with 0. rewrite decide_True by lia. cbn [Z.mul Z.add].
  rewrite decide_False; [done|]. unfold digit_value, is_digit in *. rewrite bool_decide_eq_false in Hc.
  repeat case_decide; lia.
Qed.
Lemma scan_i_dec bits n c rest : - 2 ^ (bits - 1) <= n < 2 ^ (bits - 1) -> bits = 8 \/ bits = 16 \/ bits = 32 -> stops c ->
  scan_i bits (dec n ++ c :: rest) = Ok (Some n).
Proof.
  intros Hn Hb Hc. assert (-2147483648 <= n < 2147483648) by (destruct Hb as [->|[-> | ->]]; cbn in Hn; lia).
  unfold scan_i, dec. case_decide as Hneg.
  - cbn [app]. rewrite sign_minus. rewrite number_any_dec by (done || lia).
    cbn [mbind res_bind within option_map]. rewrite Z.opp_involutive. by rewrite decide_True by lia.
  - pose proof (number_any_dec n c rest ltac:(lia) Hc) as Hs.
    destruct (dec_digits_first 10 n) as (d & t & E & Hr & _); [cbn; lia|lia|]. rewrite E in *. cbn [app] in *.
    rewrite sign_digits, Hs by done. cbn [mbind res_bind within option_map]. by rewrite decide_True by lia.
Qed.

(** ** What [%d] prints is a JSON number *)

Lemma dec_digits_all fuel : forall n, 0 <= n -> forallb (fun c => is_digit c || bool_decide (c = 46)) (dec_digits fuel n) = true.
Proof.
  induction fuel as [|fuel IH]; intros n Hn; [done|]. cbn [dec_digits]. rewrite forallb_app. apply andb_true_iff. split.
  - case_decide; [done|]. apply IH. zmod.
  - cbn [forallb]. unfold is_digit. by rewrite bool_decide_true by zmod.
Qed.
Lemma number_dec n : -10000000000 < n < 10000000000 -> number (dec n) = true.
Proof.
  intros Hn. unfold dec. case_decide.
  - cbn [number]. rewrite bool_decide_true by done. cbn [orb andb]. apply dec_digits_all. lia.
  - destruct (dec_digits_first 10 n) as (d & t & E & Hd & _); [cbn; lia|lia|].
    pose proof (dec_digits_all 10 n ltac:(lia)) as Ha. rewrite E in *. cbn [number forallb] in *. apply andb_prop in Ha as [_ Ha].
    rewrite Ha. unfold is_digit. by rewrite (bool_decide_true (48 <= d <= 57)), orb_true_r.
Qed.
Lemma dec_digits_len fuel : forall n, (length (dec_digits fuel n) <= fuel)%nat.
Proof.
  induction fuel as [|fuel IH]; intros n; [done|]. cbn [dec_digits]. rewrite length_app. cbn [length].
  case_decide; cbn [length]; [lia|]. specialize (IH (n `div` 10)). lia.
Qed.
Lemma dec_len n : zlen (dec n) <= 11.
Proof.
  unfold dec. case_decide; cbn [length].
  - pose proof (dec_digits_len 10 (- n)). lia.
  - pose proof (dec_digits_len 10 n). lia.
Qed.
