(* ===== verification/StringUtils.v ===== *)
(** The string utilities ([uiot/utils/string_utils.c]): copies, formatted
    strings, hexadecimal text and the replacement of substrings.

    A formatted text is an argument; a block is what the allocator returns,
    with its old content, and what the allocator gets back. *)

From S2P Require Import Prelude Defs Json CLib.

Section blocks.
Context {W : Type} (malloc : Z -> W -> option bytes * W) (free : bytes -> W -> W).

(** [LITE_strdup]: the new block, or NULL. *)
Definition LITE_strdup (src : option bytes) (w : W) : res (option bytes * W) :=
  match src with
  | None => Ok (None, w)
  | Some src =>
      n ← strlen src;
      let len := Z.of_nat n + 1 in
      if decide (len > 1024) then Ok (None, w)
      else
        let '(dst, w) := malloc len w in
        match dst with
        | None => Ok (None, w)
        | Some dst => s ← slice_at src 0 len; dst ← write_at dst 0 s; Ok (Some dst, w)
        end
  end.

Definition TEMP_STRING_MAXLEN := 512.
(** The block for the text is cleared without a check for NULL. The two
    [LITE_ASSERT]s behind that only print a message and change nothing (they
    abort where the build maps them to [assert]: the second one then refuses
    texts of 1024 characters and more). *)
Definition LITE_format_string (text : bytes) (w : W) : res (option bytes * W) :=
  let '(tmp, w) := malloc TEMP_STRING_MAXLEN w in
  match tmp with
  | None => Oob
  | Some tmp =>
      '(tmp, rc) ← snprintf_at (replicate (length tmp) 0) 0 TEMP_STRING_MAXLEN text;
      '(dst, w) ← LITE_strdup (Some tmp) w;
      Ok (dst, free tmp w)
  end.

Definition LITE_format_nstring (len : Z) (text : bytes) (w : W) : res (bytes * W) :=
  let '(tmp, w) := malloc (u32 (len + 2)) w in
  match tmp with
  | None => Oob
  | Some tmp =>
      '(tmp, rc) ← snprintf_at (replicate (length tmp) 0) 0 (u32 (len + 1)) text;
      let '(dst, w) := malloc (u32 (len + 1)) w in
      match dst with
      | None => Oob
      | Some dst =>
          n ← strlen tmp;
          '(dst, _) ← snprintf_at dst 0 (u32 (len + 1)) (take n tmp);
          Ok (dst, free tmp w)
      end
  end.
End blocks.

(** ** Hexadecimal text *)

Definition zEncode (uppercase : bool) : bytes := bytes_of (if uppercase then "0123456789ABCDEF" else "0123456789abcdef").

(** The loop from [i] on; [j] is the position in [out]. *)
Fixpoint hexbuf_loop (n : nat) (digest out : bytes) (i j : Z) (uppercase : bool) : res bytes :=
  match n with
  | O => Ok out
  | S n =>
      a ← get_at digest i;
      hi ← get_at (zEncode uppercase) ((a >>> 4) &&& 15);
      out ← write_at out j [hi];
      lo ← get_at (zEncode uppercase) (a &&& 15);
      out ← write_at out (j + 1) [lo];
      hexbuf_loop n digest out (i + 1) (j + 2) uppercase
  end.
Definition LITE_hexbuf_convert (digest out : bytes) (in_len : Z) (uppercase : bool) : res bytes :=
  hexbuf_loop (Z.to_nat in_len) digest out 0 0 uppercase.

Definition _hexval_of_char (hex : Z) : Z :=
  if decide (48 <= hex <= 57) then hex - 48
  else if decide (97 <= hex <= 102) then hex - 97 + 10
  else if decide (65 <= hex <= 70) then hex - 65 + 10
  else 0.

Fixpoint hexstr_loop (n : nat) (hexstr out_buf : bytes) (i : Z) : res bytes :=
  match n with
  | O => Ok out_buf
  | S n =>
      c0 ← get_at hexstr (2 * i);
      c1 ← get_at hexstr (2 * i + 1);
      out_buf ← write_at out_buf i [u8 ((_hexval_of_char c0 <<< 4) ||| _hexval_of_char c1)];
      hexstr_loop n hexstr out_buf (i + 1)
  end.
(** [in_len] is said to be the length of the text; it counts the bytes. *)
Definition LITE_hexstr_convert (hexstr out_buf : bytes) (in_len : Z) : res bytes :=
  if decide (Z.rem in_len 2 <> 0) then Ok out_buf
  else hexstr_loop (Z.to_nat in_len) hexstr out_buf 0.

(** ** Replacement *)

(** [strcpy(dst + pos, src)] *)
Definition strcpy (dst : bytes) (pos : Z) (src : bytes) : res bytes :=
  n ← strlen src; write_at dst pos (take (S n) src).

(** The comparison of [n] characters, up to the first difference. *)
Fixpoint key_at (n : nat) (originalString : bytes) (p : Z) (key : bytes) (j : Z) : res bool :=
  match n with
  | O => Ok true
  | S n =>
      a ← get_at originalString (p + j);
      b ← get_at key j;
      if decide (a <> b) then Ok false else key_at n originalString p key (j + 1)
  end.

Section replace.
Context (key swap : bytes) (lengthOfKey lengthOfSwap : Z).
Fixpoint replace_loop (fuel : nat) (i lengthOfOriginalString : Z) (originalString tmp : bytes) : outcome bytes :=
  match fuel with
  | O => Unfinished
  | S fuel =>
      if decide (i <= lengthOfOriginalString - lengthOfKey) then
        flag ← access (key_at (Z.to_nat lengthOfKey) originalString i key 0);
        if flag : bool then
          tmp ← access (strcpy tmp 0 originalString);
          tmp ← access (strcpy tmp i swap);
          tmp ← access (strcpy tmp (i + lengthOfSwap) (drop (Z.to_nat (i + lengthOfKey)) originalString));
          originalString ← access (strcpy originalString 0 tmp);
          n ← access (strlen originalString);
          replace_loop fuel (i + (lengthOfSwap - 1) + 1) (Z.of_nat n) originalString tmp
        else replace_loop fuel (i + 1) lengthOfOriginalString originalString tmp
      else Done originalString
  end.
End replace.
(** [tmp]: the array of 512 characters on the stack. *)
Definition LITE_replace_substr (fuel : nat) (originalString key swap tmp : bytes) : outcome bytes :=
  n ← access (strlen originalString);
  lengthOfKey ← access (strlen key);
  lengthOfSwap ← access (strlen swap);
  replace_loop key swap (Z.of_nat lengthOfKey) (Z.of_nat lengthOfSwap) fuel 0 (Z.of_nat n) originalString tmp.

Definition replace_ex_of (s key swap : String.string) : outcome bytes :=
  LITE_replace_substr 20 (lit s ++ replicate 10 7) (lit key) (lit swap) (replicate 512 9).
Example replace_ex :
  (s ← replace_ex_of "a%sb%s" "%s" "xyz"; Done (cstr s)) = Done (Some (bytes_of "axyzbxyz")) /\
  (s ← replace_ex_of "aabb" "ab" ""; Done (cstr s)) = Done (Some (bytes_of "ab")) /\
  (s ← replace_ex_of "ab" "abc" "x"; Done (cstr s)) = Done (Some (bytes_of "ab")) /\
  (s ← replace_ex_of "ab" "" ""; Done (cstr s)) = Unfinished.
Proof. repeat split; vm_compute; reflexivity. Qed.
Example hex_ex :
  LITE_hexbuf_convert [0; 171; 255] (replicate 6 0) 3 false = Ok (bytes_of "00abff") /\
  LITE_hexstr_convert (bytes_of "00ABff1g") [9; 9; 9; 9; 9] 4 = Ok [0; 171; 255; 16; 9].
Proof. by_eval. Qed.

(* ================================================================== *)
(** * Hexadecimal text *)

Definition hex_pair (uppercase : bool) (a : Z) : bytes :=
  [nth (Z.to_nat (a `div` 16)) (zEncode uppercase) 0; nth (Z.to_nat (a mod 16)) (zEncode uppercase) 0].
Definition hex (uppercase : bool) (d : bytes) : bytes := concat (map (hex_pair uppercase) d).

Lemma hex_len up d : length (hex up d) = (2 * length d)%nat.
Proof. induction d as [|a d IH]; [done|]. unfold hex in *. cbn [map concat app length hex_pair] in *. lia. Qed.
Lemma hex_app up d1 d2 : hex up (d1 ++ d2) = hex up d1 ++ hex up d2.
Proof. unfold hex. by rewrite map_app, concat_app. Qed.

Definition hex_ok (a : Z) : bool := forallb (fun up =>
  bool_decide (get_at (zEncode up) ((a >>> 4) &&& 15) = Ok (nth (Z.to_nat (a `div` 16)) (zEncode up) 0)) &&
  bool_decide (get_at (zEncode up) (a &&& 15) = Ok (nth (Z.to_nat (a mod 16)) (zEncode up) 0)) &&
  bool_decide (u8 ((_hexval_of_char (nth (Z.to_nat (a `div` 16)) (zEncode up) 0) <<< 4) |||
    _hexval_of_char (nth (Z.to_nat (a mod 16)) (zEncode up) 0)) = a)) [true; false].
Lemma hex_byte : forall a, byte a -> hex_ok a = true.
Proof. byte_decide. Qed.
Lemma hex_digits up a : byte a ->
  get_at (zEncode up) ((a >>> 4) &&& 15) = Ok (nth (Z.to_nat (a `div` 16)) (zEncode up) 0) /\
  get_at (zEncode up) (a &&& 15) = Ok (nth (Z.to_nat (a mod 16)) (zEncode up) 0) /\
  u8 ((_hexval_of_char (nth (Z.to_nat (a `div` 16)) (zEncode up) 0) <<< 4) |||
    _hexval_of_char (nth (Z.to_nat (a mod 16)) (zEncode up) 0)) = a.
Proof.
  intros Ha%hex_byte. unfold hex_ok in Ha. rewrite forallb_forall in Ha. specialize (Ha up).
  rewrite !andb_true_iff, !bool_decide_eq_true in Ha. destruct Ha as [[? ?] ?]; [by destruct up; cbn; auto|]. done.
Qed.

(** Writing one byte behind a prefix. *)
Lemma put_next a x b v i : i = zlen a -> write_at (a ++ x :: b) i [v] = Ok (a ++ v :: b).
Proof.
  intros ->. apply write_at_ok. rewrite length_app. cbn [length]. split_and!; [lia..|].
  rewrite Nat2Z.id, take_app_length, drop_app_ge by lia. by replace (_ - _)%nat with 1%nat by lia.
Qed.
Lemma get_char a x b i : i = zlen a -> get_at (a ++ x :: b) i = Ok x.
Proof. intros ->. apply get_at_ok. split; [lia|]. rewrite Nat2Z.id. by apply list_lookup_middle. Qed.

Lemma hexbuf_run up : forall d pre out done rest, Forall byte d -> length rest = (2 * length d)%nat -> length out = (2 * length pre)%nat ->
  forall junk, hexbuf_loop (length d) (pre ++ d ++ done) (out ++ rest ++ junk) (zlen pre) (zlen out) up = Ok (out ++ hex up d ++ junk).
Proof.
  induction d as [|a d IH]; intros pre out done rest Hd Hl Ho junk.
  - destruct rest; [done|cbn in Hl; lia].
  - apply Forall_cons in Hd as [Ha Hd]. destruct (hex_digits up a Ha) as (E1 & E2 & _).
    destruct rest as [|r1 [|r2 rest]]; [cbn in Hl; lia..|]. cbn [length hexbuf_loop]. cbn [app].
    rewrite get_char by done. cbn [mbind res_bind]. rewrite E1. cbn [mbind res_bind]. rewrite put_next by done. cbn [mbind res_bind].
    rewrite E2. cbn [mbind res_bind]. change (out ++ ?h :: r2 :: rest ++ junk) with (out ++ [h] ++ r2 :: rest ++ junk).
    rewrite (app_assoc out). rewrite put_next by (rewrite length_app; cbn [length]; lia). cbn [mbind res_bind].
    assert (IH' := IH (pre ++ [a]) (out ++ hex_pair up a) done rest Hd ltac:(cbn in Hl; lia)
      ltac:(rewrite !length_app; cbn [length hex_pair]; lia) junk).
    rewrite !length_app in IH'. cbn [length hex_pair] in IH'. rewrite <- !app_assoc in IH'. cbn [app] in IH'. rewrite <- !app_assoc. cbn [app].
    replace (zlen pre + 1) with (Z.of_nat (length pre + 1)) by lia. replace (zlen out + 1 + 1) with (Z.of_nat (length out + 2)) by lia.
    replace (zlen out + 2) with (Z.of_nat (length out + 2)) by lia. exact IH'.
Qed.
Lemma hexbuf_correct up d out : Forall byte d -> (2 * length d <= length out)%nat ->
  LITE_hexbuf_convert d out (zlen d) up = Ok (hex up d ++ drop (2 * length d) out).
Proof.
  intros Hd Hl. unfold LITE_hexbuf_convert. rewrite Nat2Z.id.
  pose proof (hexbuf_run up d [] [] [] (take (2 * length d) out) Hd) as Hr. cbn [app length] in Hr.
  rewrite <- (Hr ltac:(rewrite length_take; lia) eq_refl (drop (2 * length d) out)). by rewrite take_drop, app_nil_r.
Qed.

Lemma hexstr_run up : forall d pre out rest, Forall byte d -> length rest = length d -> length out = length pre ->
  forall junk tail m, hexstr_loop (length d + m) (hex up (pre ++ d) ++ tail) (out ++ rest ++ junk) (zlen pre) =
    hexstr_loop m (hex up (pre ++ d) ++ tail) (out ++ d ++ junk) (zlen (pre ++ d)).
Proof.
  induction d as [|a d IH]; intros pre out rest Hd Hl Ho junk tail m.
  - destruct rest; [by rewrite app_nil_r|done].
  - apply Forall_cons in Hd as [Ha Hd]. destruct (hex_digits up a Ha) as (_ & _ & E3). destruct rest as [|r rest]; [done|].
    cbn [length hexstr_loop app Nat.add].
    assert (Hx : hex up (pre ++ a :: d) ++ tail = hex up pre ++ nth (Z.to_nat (a `div` 16)) (zEncode up) 0 ::
      nth (Z.to_nat (a mod 16)) (zEncode up) 0 :: hex up d ++ tail) by (by rewrite hex_app, <- app_assoc).
    rewrite Hx at 1. rewrite get_char by (rewrite hex_len; lia). cbn [mbind res_bind].
    rewrite Hx at 1. change (hex up pre ++ ?x :: ?y :: ?l) with (hex up pre ++ [x] ++ y :: l). rewrite (app_assoc (hex up pre)) at 1.
    rewrite get_char by (rewrite length_app, hex_len; cbn [length]; lia). cbn [mbind res_bind].
    rewrite E3. rewrite put_next by lia. cbn [mbind res_bind].
    assert (IH' := IH (pre ++ [a]) (out ++ [a]) rest Hd ltac:(cbn in Hl; lia) ltac:(rewrite !length_app; cbn [length]; lia) junk tail m).
    rewrite <- !app_assoc in IH'. cbn [app] in IH'. rewrite (length_app pre [a]) in IH'. cbn [length] in IH'.
    replace (zlen pre + 1) with (Z.of_nat (length pre + 1)) by lia. exact IH'.
Qed.
Lemma hexstr_correct up d out tail : Forall byte d -> (length d <= length out)%nat -> Z.rem (zlen d) 2 = 0 ->
  LITE_hexstr_convert (hex up d ++ tail) out (zlen d) = Ok (d ++ drop (length d) out).
Proof.
  intros Hd Hl He. unfold LITE_hexstr_convert. rewrite decide_False by auto. rewrite Nat2Z.id.
  pose proof (hexstr_run up d [] [] (take (length d) out) Hd) as Hr. cbn [app length] in Hr.
  specialize (Hr ltac:(rewrite length_take; lia) eq_refl (drop (length d) out) tail O). rewrite take_drop, Nat.add_0_r in Hr. exact Hr.
Qed.
(** With the length of the text, as the message says, the loop reads on behind it. *)
Lemma hexstr_overread up d out : Forall byte d -> d <> [] -> (length d <= length out)%nat ->
  LITE_hexstr_convert (hex up d ++ [0]) out (2 * zlen d) = Oob.
Proof.
  intros Hd Hne Hl. unfold LITE_hexstr_convert. rewrite decide_False.
  2: { rewrite Z.mul_comm, Z.rem_mul by lia. auto. }
  pose proof (hexstr_run up d [] [] (take (length d) out) Hd) as Hr. cbn [app length] in Hr.
  specialize (Hr ltac:(rewrite length_take; lia) eq_refl (drop (length d) out) [0] (length d)). rewrite take_drop in Hr.
  replace (Z.to_nat (2 * zlen d)) with (length d + length d)%nat by lia. change (Z.of_nat 0) with 0 in Hr. rewrite Hr.
  destruct (length d) as [|n] eqn:E; [by destruct d|]. cbn [hexstr_loop].
  rewrite (get_char (hex up d) 0 [] (2 * Z.of_nat (S n))) by (rewrite hex_len; lia).
  cbn [mbind res_bind]. rewrite (proj2 (get_at_oob _ _)); [done|]. rewrite length_app, hex_len. cbn [length]. lia.
Qed.

(** A buffer that is too small, or a text that is too short, is overrun. *)
Lemma get_at_cases b i : (exists v, get_at b i = Ok v) \/ get_at b i = Oob.
Proof. unfold get_at. repeat (case_decide || case_match); eauto. Qed.
Lemma write_at_cases b i v : (exists b', write_at b i v = Ok b' /\ zlen b' = zlen b /\ i + zlen v <= zlen b) \/ write_at b i v = Oob.
Proof.
  unfold write_at. case_decide as Hd; [left|by right]. eexists. split; [done|].
  rewrite !length_app, length_take, length_drop. lia.
Qed.
Ltac get_cases :=
  match goal with |- context [get_at ?b ?i ≫= _] =>
    destruct (get_at_cases b i) as [[? ->]| ->]; [cbn [mbind res_bind]|done] end.
Ltac put_cases o L :=
  match goal with |- context [write_at ?b ?i ?v ≫= _] =>
    destruct (write_at_cases b i v) as [(o & -> & L)| ->]; [cbn [mbind res_bind]|done] end.
Lemma hexbuf_room up : forall n digest out i j, j <= zlen out ->
  match hexbuf_loop n digest out i j up with Ok _ => j + 2 * Z.of_nat n <= zlen out | Err _ => False | Oob => True end.
Proof.
  induction n as [|n IH]; intros digest out i j Hj; cbn [hexbuf_loop]; [lia|].
  get_cases. get_cases. put_cases o1 L1. get_cases. put_cases o2 L2. destruct L2 as [L2 ?], L1 as [L1 ?]. cbn [length] in *.
  specialize (IH digest o2 (i + 1) (j + 2) ltac:(lia)). destruct (hexbuf_loop _ _ _ _ _ _); [lia|done|done].
Qed.
Lemma hexbuf_small up d out : (length out < 2 * length d)%nat -> LITE_hexbuf_convert d out (zlen d) up = Oob.
Proof.
  intros Hl. unfold LITE_hexbuf_convert. rewrite Nat2Z.id. pose proof (hexbuf_room up (length d) d out 0 0 ltac:(lia)) as Hr.
  destruct (hexbuf_loop _ _ _ _ _ _); [lia|done|done].
Qed.
Lemma hexstr_room : forall n hexstr out i, i <= zlen out ->
  match hexstr_loop n hexstr out i with Ok _ => i + Z.of_nat n <= zlen out | Err _ => False | Oob => True end.
Proof.
  induction n as [|n IH]; intros hexstr out i Hi; cbn [hexstr_loop]; [lia|].
  get_cases. get_cases. put_cases o1 L1. destruct L1 as [L1 ?]. cbn [length] in *.
  specialize (IH hexstr o1 (i + 1) ltac:(lia)). destruct (hexstr_loop _ _ _ _); [lia|done|done].
Qed.
Lemma hexstr_small hexstr out n : Z.rem n 2 = 0 -> zlen out < n -> LITE_hexstr_convert hexstr out n = Oob.
Proof.
  intros He Hl. unfold LITE_hexstr_convert. rewrite decide_False by auto.
  pose proof (hexstr_room (Z.to_nat n) hexstr out 0 ltac:(lia)) as Hr. destruct (hexstr_loop _ _ _ _); [lia|done|done].
Qed.
Lemma hexstr_odd hexstr out n : Z.rem n 2 <> 0 -> LITE_hexstr_convert hexstr out n = Ok out.
Proof. intros Ho. unfold LITE_hexstr_convert. by rewrite decide_True. Qed.

(* ================================================================== *)
(** * Replacement *)

(** The text with [swap] for every occurrence of the key, from the left and
    without looking into what was put in; [skip] characters belong to an
    occurrence already. *)
Fixpoint replaced (key swap : bytes) (skip : nat) (s : bytes) : bytes :=
  match s with
  | [] => []
  | c :: s' =>
      match skip with
      | S skip => replaced key swap skip s'
      | O => if starts key s then swap ++ replaced key swap (length key - 1) s' else c :: replaced key swap 0 s'
      end
  end.

Lemma replaced_skip key swap : forall n s, replaced key swap n s = replaced key swap 0 (drop n s).
Proof. induction n as [|n IH]; intros [|c s]; try done. cbn [drop]. rewrite <- IH. done. Qed.
Lemma replaced_hit key swap s : key <> [] -> replaced key swap 0 (key ++ s) = swap ++ replaced key swap 0 s.
Proof.
  intros Hk. assert (starts key (key ++ s) = true) as Hst by apply starts_app.
  assert (exists k ks, key = k :: ks) as (k & ks & E) by (destruct key; [done|by eexists _, _]). rewrite E at 2. cbn [app replaced].
  change (k :: ks ++ s) with ((k :: ks) ++ s). rewrite <- E, Hst. f_equal. rewrite replaced_skip, E. cbn [length].
  by replace (S (length ks) - 1)%nat with (length ks) by lia; rewrite drop_app_length.
Qed.
Lemma replaced_miss key swap c s : starts key (c :: s) = false -> replaced key swap 0 (c :: s) = c :: replaced key swap 0 s.
Proof. intros Hst. cbn [replaced]. by rewrite Hst. Qed.
Lemma replaced_short key swap s : (length s < length key)%nat -> replaced key swap 0 s = s.
Proof.
  induction s as [|c s IH]; [done|]. cbn [length]. intros Hl. rewrite replaced_miss.
  - f_equal. apply IH. lia.
  - destruct (starts key (c :: s)) eqn:E; [|done]. apply starts_spec in E as [rest E]. apply (f_equal length) in E.
    rewrite length_app in E. cbn [length] in E. lia.
Qed.
Lemma replaced_grows key swap : key <> [] -> (length key <= length swap)%nat -> forall n s, (length s <= n)%nat ->
  (length s <= length (replaced key swap 0 s))%nat.
Proof.
  intros Hk Hl. induction n as [|n IH]; intros s Hs; [destruct s; cbn in *; lia|]. destruct s as [|c s]; [cbn; lia|].
  destruct (starts key (c :: s)) eqn:E.
  - apply starts_spec in E as [rest E]. rewrite E, replaced_hit by done. rewrite !length_app.
    assert (length rest <= length (replaced key swap 0 rest))%nat as Hr.
    { apply IH. apply (f_equal length) in E. rewrite length_app in E. cbn [length] in *. destruct key; [done|cbn [length] in *; lia]. }
    lia.
  - rewrite replaced_miss by done. cbn [length] in *. specialize (IH s ltac:(lia)). lia.
Qed.

(** ** The loop *)

Lemma strcpy_run dst pos s junk : (Forall (fun c => c <> 0) s) -> 0 <= pos -> pos + zlen s + 1 <= zlen dst ->
  strcpy dst pos (s ++ 0 :: junk) = Ok (take (Z.to_nat pos) dst ++ (s ++ [0]) ++ drop (Z.to_nat pos + length (s ++ [0])) dst).
Proof.
  intros Hs Hp Hl. unfold strcpy. rewrite (strlen_app _ _ O) by done. rewrite Nat.add_0_r. cbn [mbind res_bind].
  apply write_at_ok. replace (take (S (length s)) (s ++ 0 :: junk)) with (s ++ [0]).
  - rewrite length_app. cbn [length]. split_and!; [done|lia|done].
  - change (0 :: junk) with ([0] ++ junk). rewrite app_assoc, take_app_length'; [done|]. rewrite length_app. cbn. lia.
Qed.

Lemma strcpy_over dst pos s junk : Forall (fun c => c <> 0) s -> zlen dst < pos + zlen s + 1 -> strcpy dst pos (s ++ 0 :: junk) = Oob.
Proof.
  intros Hs Hl. unfold strcpy. rewrite (strlen_app _ _ O) by done. rewrite Nat.add_0_r. cbn [mbind res_bind].
  unfold write_at. rewrite decide_False; [done|]. rewrite length_take, length_app. cbn [length]. lia.
Qed.

Lemma strcpy_len dst pos src dst' : strcpy dst pos src = Ok dst' -> length dst' = length dst.
Proof. unfold strcpy. destruct (strlen src); [apply write_at_len|done..]. Qed.

Lemma key_at_run : forall ks opre rs kpre kjunk p j, j = zlen kpre -> p + j = zlen opre -> (length ks <= length rs)%nat ->
  key_at (length ks) (opre ++ rs) p (kpre ++ ks ++ kjunk) j = Ok (starts ks rs).
Proof.
  induction ks as [|k ks IH]; intros opre rs kpre kjunk p j Hj Hp Hl; [done|]. destruct rs as [|r rs]; [cbn in Hl; lia|].
  cbn [length key_at app starts]. rewrite get_char by done. cbn [mbind res_bind]. rewrite get_char by done. cbn [mbind res_bind].
  case_decide as Hc; [by rewrite bool_decide_eq_false_2 by done|]. subst r. rewrite bool_decide_eq_true_2 by done.
  cbn [andb]. change (opre ++ k :: rs) with (opre ++ [k] ++ rs). change (kpre ++ k :: ks ++ kjunk) with (kpre ++ [k] ++ ks ++ kjunk).
  rewrite !(app_assoc _ [k]). apply IH; rewrite ?length_app; cbn [length] in *; lia.
Qed.

Section loop.
Context (key swap kjunk sjunk : bytes).
Hypothesis key_some : key <> [].
Hypothesis key_text : Forall (fun c => c <> 0) key.
Hypothesis swap_text : Forall (fun c => c <> 0) swap.

Lemma drop_orig before after ojunk :
  drop (Z.to_nat (zlen before + zlen key)) ((before ++ key ++ after) ++ 0 :: ojunk) = after ++ 0 :: ojunk.
Proof. rewrite <- !app_assoc, (app_assoc before). rewrite drop_app_length'; [done|]. rewrite length_app. lia. Qed.

(** The copy of one replacement, if it fits the array on the stack. *)
Lemma swap_copy before after ojunk tmp : Forall (fun c => c <> 0) (before ++ key ++ after) ->
  let orig := (before ++ key ++ after) ++ 0 :: ojunk in
  zlen tmp = 512 -> zlen (before ++ key ++ after) < 512 -> zlen (before ++ swap ++ after) < 512 ->
  exists tmp1 tmp2 rest,
    strcpy tmp 0 orig = Ok tmp1 /\ strcpy tmp1 (zlen before) (swap ++ 0 :: sjunk) = Ok tmp2 /\
    strcpy tmp2 (zlen before + zlen swap) (drop (Z.to_nat (zlen before + zlen key)) orig) =
      Ok ((before ++ swap ++ after) ++ 0 :: rest) /\ zlen ((before ++ swap ++ after) ++ 0 :: rest) = 512.
Proof using swap_text.
  intros Hn orig Htmp Hs Hr. assert (Forall (fun c => c <> 0) before /\ Forall (fun c => c <> 0) after) as [Hb Ha].
  { rewrite !Forall_app in Hn. tauto. }
  pose proof (strcpy_run tmp 0 (before ++ key ++ after) ojunk Hn) as E1. rewrite take_0 in E1. cbn [app] in E1.
  specialize (E1 ltac:(lia) ltac:(lia)). set (tmp1 := ((before ++ key ++ after) ++ [0]) ++ _) in E1.
  assert (zlen tmp1 = 512) as L1 by (unfold strcpy in E1; destruct (strlen _); [apply write_at_len in E1; lia|done..]).
  assert (take (length before) tmp1 = before) as T1 by (unfold tmp1; rewrite <- !app_assoc; by rewrite take_app_length).
  pose proof (strcpy_run tmp1 (zlen before) swap sjunk swap_text) as E2. rewrite !length_app in *.
  specialize (E2 ltac:(lia) ltac:(lia)). rewrite Nat2Z.id, T1 in E2. set (tmp2 := before ++ (swap ++ [0]) ++ _) in E2.
  assert (zlen tmp2 = 512) as L2 by (unfold strcpy in E2; destruct (strlen (swap ++ _)); [apply write_at_len in E2; lia|done..]).
  assert (take (length before + length swap) tmp2 = before ++ swap) as T2.
  { unfold tmp2. rewrite <- !app_assoc, (app_assoc before). rewrite take_app_length'; [done|]. by rewrite length_app. }
  pose proof (strcpy_run tmp2 (zlen before + zlen swap) after ojunk Ha) as E3. specialize (E3 ltac:(lia) ltac:(lia)).
  replace (Z.to_nat (zlen before + zlen swap)) with (length before + length swap)%nat in E3 by lia. rewrite T2 in E3.
  set (rest := drop _ tmp2) in E3. replace ((before ++ swap) ++ (after ++ [0]) ++ rest) with ((before ++ swap ++ after) ++ 0 :: rest) in E3
    by by rewrite <- !app_assoc.
  exists tmp1, tmp2, rest. split_and!; [exact E1|exact E2|unfold orig; rewrite drop_orig; exact E3|].
  unfold strcpy in E3. destruct (strlen (after ++ _)); [apply write_at_len in E3; rewrite !length_app in *; lia|done..].
Qed.

(** One replacement, if the result fits both arrays. *)
Lemma swap_step before after ojunk tmp cap : Forall (fun c => c <> 0) (before ++ key ++ after) ->
  let orig := (before ++ key ++ after) ++ 0 :: ojunk in
  zlen orig = cap -> zlen tmp = 512 -> zlen (before ++ key ++ after) < 512 -> zlen (before ++ swap ++ after) < 512 ->
  zlen (before ++ swap ++ after) < cap ->
  exists tmp1 tmp2 tmp3 ojunk',
    strcpy tmp 0 orig = Ok tmp1 /\ strcpy tmp1 (zlen before) (swap ++ 0 :: sjunk) = Ok tmp2 /\
    strcpy tmp2 (zlen before + zlen swap) (drop (Z.to_nat (zlen before + zlen key)) orig) = Ok tmp3 /\ zlen tmp3 = 512 /\
    strcpy orig 0 tmp3 = Ok ((before ++ swap ++ after) ++ 0 :: ojunk') /\ zlen ((before ++ swap ++ after) ++ 0 :: ojunk') = cap.
Proof using swap_text.
  intros Hn orig Hcap Htmp Hs Hr Hrc. destruct (swap_copy before after ojunk tmp Hn Htmp Hs Hr) as (tmp1 & tmp2 & rest & E1 & E2 & E3 & L3).
  assert (Forall (fun c => c <> 0) (before ++ swap ++ after)) as Hn' by (rewrite !Forall_app in *; tauto).
  pose proof (strcpy_run orig 0 (before ++ swap ++ after) rest Hn') as E4. rewrite take_0 in E4. cbn [app] in E4.
  specialize (E4 ltac:(lia) ltac:(lia)). rewrite <- (app_assoc _ [0]) in E4. cbn [app] in E4.
  eexists tmp1, tmp2, _, _. split_and!; [exact E1|exact E2|exact E3|exact L3|exact E4|].
  unfold strcpy in E4. destruct (strlen (_ ++ 0 :: rest)); [apply write_at_len in E4; lia|done..].
Qed.

(** One replacement whose result does not fit one of the arrays. *)
Lemma swap_over {A} (K : bytes -> bytes -> outcome A) before after ojunk tmp :
  Forall (fun c => c <> 0) (before ++ key ++ after) ->
  let orig := (before ++ key ++ after) ++ 0 :: ojunk in
  zlen tmp = 512 -> zlen (before ++ key ++ after) < 512 ->
  512 <= zlen (before ++ swap ++ after) \/ zlen orig <= zlen (before ++ swap ++ after) ->
  (tmp ← access (strcpy tmp 0 orig);
   tmp ← access (strcpy tmp (zlen before) (swap ++ 0 :: sjunk));
   tmp ← access (strcpy tmp (zlen before + zlen swap) (drop (Z.to_nat (zlen before + zlen key)) orig));
   originalString ← access (strcpy orig 0 tmp);
   K tmp originalString) = Undefined.
Proof using swap_text.
  intros Hn orig Htmp Hs Hbig. assert (Forall (fun c => c <> 0) (before ++ swap ++ after)) as Hn' by (rewrite !Forall_app in *; tauto).
  destruct (decide (zlen (before ++ swap ++ after) < 512)) as [Hr|Hr].
  { destruct (swap_copy before after ojunk tmp Hn Htmp Hs Hr) as (t1 & t2 & rest & E1 & E2 & E3 & L3).
    unfold orig. rewrite E1. cbn [access mbind outcome_bind]. rewrite E2. cbn [access mbind outcome_bind]. rewrite E3.
    cbn [access mbind outcome_bind]. fold orig. by rewrite strcpy_over by (done || lia). }
  destruct (strcpy tmp 0 orig) as [t1| |] eqn:E1; [|done..]. cbn [access mbind outcome_bind].
  apply strcpy_len in E1. destruct (strcpy t1 _ _) as [t2| |] eqn:E2; [|done..].
  cbn [access mbind outcome_bind]. apply strcpy_len in E2. unfold orig. rewrite drop_orig.
  rewrite strcpy_over; [done|by rewrite !Forall_app in Hn; tauto|]. rewrite !length_app in *. lia.
Qed.

Lemma replace_run : forall n fuel before rest ojunk tmp cap, (length rest <= n)%nat -> (n < fuel)%nat ->
  Forall (fun c => c <> 0) (before ++ rest) -> zlen ((before ++ rest) ++ 0 :: ojunk) = cap -> zlen tmp = 512 ->
  let result := before ++ replaced key swap 0 rest in
  zlen (before ++ rest) < 512 -> zlen result < 512 -> zlen result < cap ->
  exists buf, replace_loop (key ++ 0 :: kjunk) (swap ++ 0 :: sjunk) (zlen key) (zlen swap) fuel (zlen before) (zlen (before ++ rest))
    ((before ++ rest) ++ 0 :: ojunk) tmp = Done buf /\ holds buf result cap.
Proof using All.
  induction n as [|n IH]; intros fuel before rest ojunk tmp cap Hn Hf Hz Hcap Htmp result Hl Hr Hrc;
    (destruct fuel as [|fuel]; [lia|]); cbn [replace_loop].
  { destruct rest; [|cbn in Hn; lia]. rewrite decide_False; [|rewrite app_nil_r in *; destruct key; [done|cbn [length] in *; lia]].
    eexists. split; [done|]. exists ojunk. by split_and!. }
  destruct (decide (length rest < length key)%nat) as [Hlt|Hge].
  { rewrite decide_False by (rewrite length_app in *; lia). eexists. split; [done|]. unfold result.
    rewrite replaced_short by done. exists ojunk. by split_and!. }
  rewrite decide_True by (rewrite length_app; lia). rewrite Nat2Z.id.
  pose proof (key_at_run key before (rest ++ 0 :: ojunk) [] (0 :: kjunk) (zlen before) 0 eq_refl ltac:(lia)
    ltac:(rewrite length_app; lia)) as Ek. cbn [app] in Ek. rewrite app_assoc in Ek. rewrite Ek. cbn [access mbind outcome_bind].
  rewrite starts_cut by lia. destruct (starts key rest) eqn:Es.
  - apply starts_spec in Es as [after ->].
    assert (result = (before ++ swap) ++ replaced key swap 0 after) as Er by (unfold result; by rewrite replaced_hit, <- app_assoc).
    assert (length (before ++ swap ++ after) <= length (before ++ key ++ after) \/
            length (before ++ swap ++ after) <= length result)%nat as Hb.
    { destruct (decide (length swap <= length key)%nat); [left; rewrite !length_app; lia|right].
      rewrite Er, !length_app. pose proof (replaced_grows key swap key_some ltac:(lia) (length after) after ltac:(lia)). lia. }
    assert (zlen (before ++ key ++ after) < cap) by (rewrite length_app in Hcap; cbn [length] in Hcap; lia).
    destruct (swap_step before after ojunk tmp cap Hz Hcap Htmp Hl) as (t1 & t2 & t3 & ojunk' & E1 & E2 & E3 & L3 & E4 & Hc'); [lia|lia|].
    rewrite E1. cbn [access mbind outcome_bind]. rewrite E2. cbn [access mbind outcome_bind].
    rewrite E3. cbn [access mbind outcome_bind]. rewrite E4. cbn [access mbind outcome_bind].
    assert (Forall (fun c => c <> 0) (before ++ swap ++ after)) as Hz' by (rewrite !Forall_app in *; tauto).
    rewrite (strlen_app _ _ O) by done. rewrite Nat.add_0_r. cbn [access mbind outcome_bind].
    rewrite app_assoc in Hc', Hz' |- *. replace (zlen before + (zlen swap - 1) + 1) with (zlen (before ++ swap)) by (rewrite length_app; lia).
    destruct (IH fuel (before ++ swap) after ojunk' t3 cap) as (buf & Hrun & Hh); [|lia|done|done|done| | | |].
    + rewrite length_app in Hn. destruct key; [done|cbn [length] in *; lia].
    + rewrite <- app_assoc. lia.
    + rewrite <- Er. lia.
    + rewrite <- Er. lia.
    + exists buf. split; [exact Hrun|]. by rewrite Er.
  - destruct rest as [|c rest]; [destruct key; [done|cbn in Hge; lia]|].
    assert (result = (before ++ [c]) ++ replaced key swap 0 rest) as Er by (unfold result; by rewrite replaced_miss, <- app_assoc).
    assert (before ++ c :: rest = (before ++ [c]) ++ rest) as Eb by by rewrite <- app_assoc.
    replace (zlen before + 1) with (zlen (before ++ [c])) by (rewrite length_app; cbn; lia). rewrite Eb.
    destruct (IH fuel (before ++ [c]) rest ojunk tmp cap) as (buf & Hrun & Hh);
      [cbn [length] in Hn; lia|lia|by rewrite <- Eb|by rewrite <- Eb|done|by rewrite <- Eb|by rewrite <- Er|by rewrite <- Er|].
    exists buf. split; [exact Hrun|]. by rewrite Er.
Qed.

(** A replacement that grows past the array on the stack or the buffer. *)
Lemma replace_grown : forall n fuel before rest ojunk tmp, (length rest <= n)%nat -> (n < fuel)%nat ->
  Forall (fun c => c <> 0) (before ++ rest) -> zlen tmp = 512 ->
  let result := before ++ replaced key swap 0 rest in
  zlen (before ++ rest) < 512 -> 512 <= zlen result \/ zlen ((before ++ rest) ++ 0 :: ojunk) <= zlen result ->
  replace_loop (key ++ 0 :: kjunk) (swap ++ 0 :: sjunk) (zlen key) (zlen swap) fuel (zlen before) (zlen (before ++ rest))
    ((before ++ rest) ++ 0 :: ojunk) tmp = Undefined.
Proof using All.
  induction n as [|n IH]; intros fuel before rest ojunk tmp Hn Hf Hz Htmp result Hl Hbig;
    (destruct fuel as [|fuel]; [lia|]); cbn [replace_loop].
  { destruct rest; [|cbn in Hn; lia]. unfold result in Hbig. cbn [replaced] in Hbig. rewrite !length_app in *. cbn [length] in *. lia. }
  destruct (decide (length rest < length key)%nat) as [Hlt|Hge].
  { unfold result in Hbig. rewrite replaced_short in Hbig by done. rewrite (length_app (before ++ rest)) in Hbig. cbn [length] in Hbig. lia. }
  rewrite decide_True by (rewrite length_app; lia). rewrite Nat2Z.id.
  pose proof (key_at_run key before (rest ++ 0 :: ojunk) [] (0 :: kjunk) (zlen before) 0 eq_refl ltac:(lia)
    ltac:(rewrite length_app; lia)) as Ek. cbn [app] in Ek. rewrite app_assoc in Ek. rewrite Ek. cbn [access mbind outcome_bind].
  rewrite starts_cut by lia. destruct (starts key rest) eqn:Es.
  - apply starts_spec in Es as [after ->].
    assert (result = (before ++ swap) ++ replaced key swap 0 after) as Er by (unfold result; by rewrite replaced_hit, <- app_assoc).
    destruct (decide (512 <= zlen (before ++ swap ++ after) \/ zlen ((before ++ key ++ after) ++ 0 :: ojunk) <= zlen (before ++ swap ++ after))) as [Ho|Ho].
    { apply (swap_over (fun tmp originalString => _)); done. }
    destruct (swap_step before after ojunk tmp _ Hz eq_refl Htmp Hl) as (t1 & t2 & t3 & ojunk' & E1 & E2 & E3 & L3 & E4 & Hc'); [lia|lia|].
    rewrite E1. cbn [access mbind outcome_bind]. rewrite E2. cbn [access mbind outcome_bind].
    rewrite E3. cbn [access mbind outcome_bind]. rewrite E4. cbn [access mbind outcome_bind].
    assert (Forall (fun c => c <> 0) (before ++ swap ++ after)) as Hz' by (rewrite !Forall_app in *; tauto).
    rewrite (strlen_app _ _ O) by done. rewrite Nat.add_0_r. cbn [access mbind outcome_bind].
    rewrite app_assoc in Hc', Hz' |- *. replace (zlen before + (zlen swap - 1) + 1) with (zlen (before ++ swap)) by (rewrite length_app; lia).
    apply IH; [|lia|done|done| |].
    + rewrite length_app in Hn. destruct key; [done|cbn [length] in *; lia].
    + rewrite <- app_assoc. lia.
    + rewrite <- Er. lia.
  - destruct rest as [|c rest]; [destruct key; [done|cbn in Hge; lia]|].
    assert (result = (before ++ [c]) ++ replaced key swap 0 rest) as Er by (unfold result; by rewrite replaced_miss, <- app_assoc).
    assert (before ++ c :: rest = (before ++ [c]) ++ rest) as Eb by by rewrite <- app_assoc.
    replace (zlen before + 1) with (zlen (before ++ [c])) by (rewrite length_app; cbn; lia). rewrite Eb.
    apply IH; [cbn [length] in Hn; lia|lia|by rewrite <- Eb|done|by rewrite <- Eb|by rewrite <- Er, <- Eb].
Qed.
End loop.

(** An empty key and an empty replacement: the loop stays where it is. *)
Lemma replace_nothing kjunk sjunk fuel : forall s ojunk tmp, Forall (fun c => c <> 0) s -> zlen s < 512 -> zlen tmp = 512 ->
  replace_loop (0 :: kjunk) (0 :: sjunk) 0 0 fuel 0 (zlen s) (s ++ 0 :: ojunk) tmp = Unfinished.
Proof.
  induction fuel as [|fuel IH]; intros s ojunk tmp Hs Hl Ht; [done|]. cbn [replace_loop]. rewrite decide_True by lia.
  change (key_at (Z.to_nat 0) _ _ _ _) with (Ok true). cbn [access mbind outcome_bind].
  destruct (swap_step [] [] sjunk ltac:(by constructor) [] s ojunk tmp (zlen (s ++ 0 :: ojunk)) Hs)
    as (t1 & t2 & t3 & oj & E1 & E2 & E3 & L3 & E4 & Hc); [done|done|done|done|cbn [app]; rewrite (length_app s); cbn [length]; lia|].
  cbn [app length] in *. change (Z.of_nat 0) with 0 in *. rewrite E1. cbn [access mbind outcome_bind]. rewrite E2. cbn [access mbind outcome_bind].
  rewrite E3. cbn [access mbind outcome_bind]. rewrite E4. cbn [access mbind outcome_bind].
  rewrite (strlen_app _ _ O) by done. rewrite Nat.add_0_r. cbn [access mbind outcome_bind]. change (0 + (0 - 1) + 1) with 0. by apply IH.
Qed.

(** A text that does not fit the array on the stack. *)
Lemma replace_overrun key swap kjunk sjunk fuel after ojunk tmp : key <> [] -> Forall (fun c => c <> 0) key ->
  Forall (fun c => c <> 0) after -> zlen tmp = 512 -> 512 <= zlen (key ++ after) ->
  replace_loop (key ++ 0 :: kjunk) (swap ++ 0 :: sjunk) (zlen key) (zlen swap) (S fuel) 0 (zlen (key ++ after))
    ((key ++ after) ++ 0 :: ojunk) tmp = Undefined.
Proof.
  intros Hk Hkt Ha Ht Hl. cbn [replace_loop]. rewrite decide_True by (rewrite length_app; lia). rewrite Nat2Z.id.
  pose proof (key_at_run key [] ((key ++ after) ++ 0 :: ojunk) [] (0 :: kjunk) 0 0 eq_refl eq_refl ltac:(rewrite !length_app; lia)) as Ek.
  assert (starts key ((key ++ after) ++ 0 :: ojunk) = true) as Es by (rewrite <- app_assoc; apply starts_app).
  cbn [app] in Ek. rewrite Ek, Es. cbn [access mbind outcome_bind].
  rewrite strcpy_over; [done|by apply Forall_app|lia].
Qed.

(* ================================================================== *)
(** * Copies and formats *)

Section copies.
Context {W : Type} (malloc : Z -> W -> option bytes * W) (free : bytes -> W -> W).
Hypothesis memory : forall n w, 0 <= n -> exists b w', malloc n w = (Some b, w') /\ zlen b = n.

Lemma strdup_run s junk w : Forall (fun c => c <> 0) s ->
  exists w', LITE_strdup malloc (Some (s ++ 0 :: junk)) w = Ok (if decide (zlen s < 1024) then Some (s ++ [0]) else None, w').
Proof using memory.
  intros Hs. unfold LITE_strdup. rewrite (strlen_app _ _ O) by done. rewrite Nat.add_0_r. cbn [mbind res_bind].
  destruct (decide (zlen s < 1024)); [rewrite decide_False by lia|rewrite decide_True by lia; by eexists].
  destruct (memory (zlen s + 1) w ltac:(lia)) as (b & w' & -> & Hb). exists w'.
  assert (slice_at (s ++ 0 :: junk) 0 (zlen s + 1) = Ok (s ++ [0])) as ->.
  { apply slice_at_ok. split_and!; [lia|lia|rewrite length_app; cbn [length]; lia|]. cbn [drop Z.to_nat]. rewrite drop_0.
    change (0 :: junk) with ([0] ++ junk). rewrite app_assoc, take_app_length'; [done|]. rewrite length_app. cbn. lia. }
  cbn [mbind res_bind]. assert (write_at b 0 (s ++ [0]) = Ok (s ++ [0])) as ->; [|done].
  apply write_at_ok. rewrite length_app. cbn [length take Z.to_nat]. split_and!; [lia|lia|]. rewrite drop_ge by lia. by rewrite app_nil_r.
Qed.

Lemma snprintf_cut size text : 0 < size -> snprintf (Z.min size (zlen text + 1)) text = take (Z.to_nat (size - 1)) text.
Proof.
  intros Hs. unfold snprintf. destruct (decide (size <= zlen text + 1)); [f_equal; lia|]. rewrite !take_ge by lia. done.
Qed.
Lemma snprintf_block b size text : 0 < size -> zlen b = size \/ (b = replicate (length b) 0 /\ size <= zlen b) ->
  exists junk, snprintf_at b 0 size text = Ok (take (Z.to_nat (size - 1)) text ++ 0 :: junk, zlen text) /\
    length (take (Z.to_nat (size - 1)) text ++ 0 :: junk) = length b.
Proof.
  intros Hs Hb. unfold snprintf_at. rewrite decide_False, snprintf_cut by lia. set (t := take _ text).
  assert (zlen t < size) by (unfold t; rewrite length_take; lia).
  exists (drop (length (t ++ [0])) b). assert (write_at b 0 (t ++ [0]) = Ok (t ++ 0 :: drop (length (t ++ [0])) b)) as E.
  { apply write_at_ok. rewrite length_app. cbn [length]. split_and!; [lia|lia|]. cbn [Z.to_nat take app Nat.add]. rewrite take_0, <- app_assoc. done. }
  rewrite E. split; [done|]. apply write_at_len in E. exact E.
Qed.

Lemma format_string_run text w : Forall (fun c => c <> 0) text ->
  exists w', LITE_format_string malloc free text w = Ok (Some (take 511 text ++ [0]), w').
Proof using memory.
  intros Ht. unfold LITE_format_string. destruct (memory TEMP_STRING_MAXLEN w ltac:(done)) as (b & w1 & -> & Hb).
  destruct (snprintf_block (replicate (length b) 0) TEMP_STRING_MAXLEN text) as (junk & -> & _); [done|left; by rewrite length_replicate|].
  cbn [mbind res_bind]. change (Z.to_nat (TEMP_STRING_MAXLEN - 1)) with 511%nat.
  destruct (strdup_run (take 511 text) junk w1) as [w2 E]; [by apply Forall_take|]. rewrite E. cbn [mbind res_bind]. rewrite decide_True; [by eexists|].
  rewrite length_take. lia.
Qed.
Lemma format_nstring_run len text w : 0 <= len < 2147483646 -> Forall (fun c => c <> 0) text ->
  exists junk w', LITE_format_nstring malloc free len text w = Ok (take (Z.to_nat len) text ++ 0 :: junk, w') /\ zlen junk = len - Z.min len (zlen text).
Proof using memory.
  intros Hlen Ht. unfold LITE_format_nstring. rewrite !u32_small by lia.
  destruct (memory (len + 2) w ltac:(lia)) as (b & w1 & -> & Hb).
  destruct (snprintf_block (replicate (length b) 0) (len + 1) text) as (junk & -> & _); [lia|right; rewrite length_replicate; split; [done|lia]|].
  cbn [mbind res_bind]. replace (len + 1 - 1) with len by lia.
  destruct (memory (len + 1) w1 ltac:(lia)) as (b2 & w2 & -> & Hb2).
  replace (len + 1 - 1) with len by lia.
  rewrite (strlen_app _ _ O) by first [done|by apply Forall_take]. rewrite Nat.add_0_r. cbn [mbind res_bind]. rewrite take_app_length.
  destruct (snprintf_block b2 (len + 1) (take (Z.to_nat len) text)) as (junk2 & -> & Hl2); [lia|by left|].
  cbn [mbind res_bind]. replace (len + 1 - 1) with len in * by lia. rewrite take_take, Nat.min_id in *. eexists junk2, _. split; [done|].
  rewrite length_app, length_take in Hl2. cbn [length] in Hl2. lia.
Qed.
End copies.

(** ** Without memory *)

Section no_memory.
Context {W : Type} (malloc : Z -> W -> option bytes * W) (free : bytes -> W -> W).

(** The block for the text is cleared without a look. *)
Lemma format_string_null text w w1 : malloc TEMP_STRING_MAXLEN w = (None, w1) -> LITE_format_string malloc free text w = Oob.
Proof. intros E. unfold LITE_format_string. by rewrite E. Qed.
Lemma format_nstring_null len text w w1 : malloc (u32 (len + 2)) w = (None, w1) -> LITE_format_nstring malloc free len text w = Oob.
Proof. intros E. unfold LITE_format_nstring. by rewrite E. Qed.

Lemma strdup_none s junk w w1 : Forall (fun c => c <> 0) s -> zlen s < 1024 -> malloc (zlen s + 1) w = (None, w1) ->
  LITE_strdup malloc (Some (s ++ 0 :: junk)) w = Ok (None, w1).
Proof.
  intros Hs Hl E. unfold LITE_strdup. rewrite (strlen_app _ _ O) by done. rewrite Nat.add_0_r. cbn [mbind res_bind].
  rewrite decide_False by lia. by rewrite E.
Qed.

(** No block for the copy: the first one is given back. *)
Lemma format_string_copy_null text w b w1 w2 : Forall (fun c => c <> 0) text -> malloc TEMP_STRING_MAXLEN w = (Some b, w1) ->
  zlen b = TEMP_STRING_MAXLEN -> malloc (zlen (take 511 text) + 1) w1 = (None, w2) ->
  exists junk, LITE_format_string malloc free text w = Ok (None, free (take 511 text ++ 0 :: junk) w2).
Proof.
  intros Ht E1 Hb E2. unfold LITE_format_string. rewrite E1.
  destruct (snprintf_block (replicate (length b) 0) TEMP_STRING_MAXLEN text) as (junk & -> & _); [done|left; by rewrite length_replicate|].
  cbn [mbind res_bind]. change (Z.to_nat (TEMP_STRING_MAXLEN - 1)) with 511%nat. exists junk.
  rewrite (strdup_none _ _ _ w2); [done|by apply Forall_take|rewrite length_take; lia|done].
Qed.
(** Here the copy is written without a look. *)
Lemma format_nstring_copy_null len text w b w1 w2 : 0 <= len < 2147483646 -> malloc (len + 2) w = (Some b, w1) ->
  zlen b = len + 2 -> malloc (len + 1) w1 = (None, w2) -> LITE_format_nstring malloc free len text w = Oob.
Proof.
  intros Hlen E1 Hb E2. unfold LITE_format_nstring. rewrite !u32_small by lia. rewrite E1.
  destruct (snprintf_block (replicate (length b) 0) (len + 1) text) as (junk & -> & _); [lia|right; rewrite length_replicate; split; [done|lia]|].
  cbn [mbind res_bind]. by rewrite E2.
Qed.
End no_memory.

(* ================================================================== *)
(** * What the utilities promise *)

(** C36: hexadecimal text ([LITE_hexbuf_convert]) has two digits of the
    chosen case for every byte and leaves what is behind it in the buffer; a
    smaller buffer is overrun. [LITE_hexstr_convert] gets the bytes of an even
    number back from a text of either case; an odd length is refused and the
    buffer left alone, a buffer smaller than the length is overrun, and with
    the length of the text for its argument it reads on behind the text.
    [LITE_replace_substr] computes the reference replacement, from the left
    and not into what it put in, in place and as a terminated text, when the
    key is not empty and the text and the result are shorter than the array
    on the stack and fit the buffer; a result that outgrows the array or the
    buffer overruns it, and so does a longer text that starts with the key;
    an empty key with an empty replacement never ends. [LITE_strdup] copies
    texts up to 1023 characters and answers NULL for longer ones, for NULL and
    without memory; a formatted text is cut at 511 characters, or at the
    length asked for; without memory for the text both formats write to NULL,
    and without memory for the copy [LITE_format_string] frees the text and
    answers NULL while [LITE_format_nstring] writes to NULL. *)
Theorem string_utils_correct {W} (malloc : Z -> W -> option bytes * W) (free : bytes -> W -> W) :
  (forall n w, 0 <= n -> exists b w', malloc n w = (Some b, w') /\ zlen b = n) ->
  (forall up d out tail, Forall byte d ->
    ((2 * length d <= length out)%nat -> LITE_hexbuf_convert d out (zlen d) up = Ok (hex up d ++ drop (2 * length d) out)) /\
    ((length out < 2 * length d)%nat -> LITE_hexbuf_convert d out (zlen d) up = Oob) /\
    (forall n, Z.rem n 2 <> 0 -> LITE_hexstr_convert tail out n = Ok out) /\
    (forall n, Z.rem n 2 = 0 -> zlen out < n -> LITE_hexstr_convert tail out n = Oob) /\
    ((length d <= length out)%nat ->
      (Z.rem (zlen d) 2 = 0 -> LITE_hexstr_convert (hex up d ++ tail) out (zlen d) = Ok (d ++ drop (length d) out)) /\
      (d <> [] -> LITE_hexstr_convert (hex up d ++ [0]) out (2 * zlen d) = Oob))) /\
  (forall s key swap ojunk kjunk sjunk tmp, Forall (fun c => c <> 0) s -> Forall (fun c => c <> 0) key -> Forall (fun c => c <> 0) swap -> zlen tmp = 512 ->
    let run fuel := LITE_replace_substr fuel (s ++ 0 :: ojunk) (key ++ 0 :: kjunk) (swap ++ 0 :: sjunk) tmp in
    let result := replaced key swap 0 s in
    let cap := zlen (s ++ 0 :: ojunk) in
    (key <> [] -> zlen s < 512 -> zlen result < 512 -> zlen result < cap -> forall fuel, (length s < fuel)%nat ->
      exists buf, run fuel = Done buf /\ holds buf result cap) /\
    (key <> [] -> zlen s < 512 -> 512 <= zlen result \/ cap <= zlen result -> forall fuel, (length s < fuel)%nat ->
      run fuel = Undefined) /\
    (key = [] -> swap = [] -> zlen s < 512 -> forall fuel, run fuel = Unfinished) /\
    (key <> [] -> starts key s = true -> 512 <= zlen s -> forall fuel, run (S fuel) = Undefined)) /\
  (forall w, LITE_strdup malloc None w = Ok (None, w)) /\
  (forall s junk len w, Forall (fun c => c <> 0) s ->
    (exists w', LITE_strdup malloc (Some (s ++ 0 :: junk)) w = Ok (if decide (zlen s < 1024) then Some (s ++ [0]) else None, w')) /\
    (exists w', LITE_format_string malloc free s w = Ok (Some (take 511 s ++ [0]), w')) /\
    (0 <= len < 2147483646 -> exists junk w', LITE_format_nstring malloc free len s w = Ok (take (Z.to_nat len) s ++ 0 :: junk, w'))) /\
  (forall (alloc : Z -> W -> option bytes * W) s junk len w w1 w2 b, Forall (fun c => c <> 0) s ->
    (zlen s < 1024 -> alloc (zlen s + 1) w = (None, w1) -> LITE_strdup alloc (Some (s ++ 0 :: junk)) w = Ok (None, w1)) /\
    (alloc 512 w = (None, w1) -> LITE_format_string alloc free s w = Oob) /\
    (alloc 512 w = (Some b, w1) -> zlen b = 512 -> alloc (zlen (take 511 s) + 1) w1 = (None, w2) ->
      exists junk, LITE_format_string alloc free s w = Ok (None, free (take 511 s ++ 0 :: junk) w2)) /\
    (alloc (u32 (len + 2)) w = (None, w1) -> LITE_format_nstring alloc free len s w = Oob) /\
    (0 <= len < 2147483646 -> alloc (len + 2) w = (Some b, w1) -> zlen b = len + 2 -> alloc (len + 1) w1 = (None, w2) ->
      LITE_format_nstring alloc free len s w = Oob)).
Proof.
  intros Hm. split_and!.
  - intros up d out tail Hd. split; [by apply hexbuf_correct|]. split; [by apply hexbuf_small|].
    split; [intros; by apply hexstr_odd|]. split; [intros; by apply hexstr_small|]. intros Hl. split; [by apply hexstr_correct|].
    intros Hne. by apply hexstr_overread.
  - intros s key swap ojunk kjunk sjunk tmp Hs Hk Hsw Ht run result cap.
    assert (forall fuel, run fuel = replace_loop (key ++ 0 :: kjunk) (swap ++ 0 :: sjunk) (zlen key) (zlen swap) fuel 0 (zlen s)
      (s ++ 0 :: ojunk) tmp) as E.
    { intros fuel. unfold run, LITE_replace_substr. rewrite !(strlen_app _ _ O) by done. by rewrite !Nat.add_0_r. }
    split_and!.
    + intros Hne Hl Hr Hc fuel Hf. rewrite E. by apply (replace_run key swap kjunk sjunk Hne Hk Hsw (length s) fuel [] s ojunk tmp cap).
    + intros Hne Hl Hbig fuel Hf. rewrite E. by apply (replace_grown key swap kjunk sjunk Hne Hk Hsw (length s) fuel [] s ojunk tmp).
    + intros -> -> Hl fuel. rewrite E. by apply replace_nothing.
    + intros Hne [after ->]%starts_spec Hl fuel. rewrite E. apply replace_overrun; [done|done| |done|done].
      by apply Forall_app in Hs as [_ ?].
  - done.
  - intros s junk len w Hs. split_and!; [by apply strdup_run|by apply format_string_run|].
    intros Hl. destruct (format_nstring_run malloc free Hm len s w Hl Hs) as (j & w' & Hr & _). by exists j, w'.
  - intros alloc s junk len w w1 w2 b Hs. split_and!.
    + by apply strdup_none.
    + by apply format_string_null.
    + by apply format_string_copy_null.
    + by apply format_nstring_null.
    + by apply format_nstring_copy_null.
Qed.

(** An allocator that answers a block of zeros and counts what is not freed. *)
Definition counting (n : Z) (w : Z) : option bytes * Z := (Some (replicate (Z.to_nat n) 0), w + 1).
Lemma string_utils_correct_witness :
  LITE_hexbuf_convert [0; 171] (replicate 5 9) 2 true = Ok (bytes_of "00AB" ++ [9]) /\
  LITE_hexstr_convert (bytes_of "00AB" ++ [0]) [9; 9] 4 = Oob /\
  LITE_hexstr_convert (bytes_of "00A") [9; 9] 3 = Ok [9; 9] /\
  LITE_replace_substr 4 (bytes_of "a%s" ++ 0 :: [9]) (bytes_of "%s" ++ [0]) (bytes_of "wxyz" ++ [0]) (replicate 512 9) = Undefined /\
  (exists buf, LITE_replace_substr 8 (bytes_of "a%sb%s" ++ 0 :: replicate 9 9) (bytes_of "%s" ++ [0]) (bytes_of "xyz" ++ [0])
    (replicate 512 9) = Done buf /\ holds buf (bytes_of "axyzbxyz") 16) /\
  (exists w', LITE_strdup counting (Some (bytes_of "ab" ++ 0 :: [7])) 0 = Ok (Some (bytes_of "ab" ++ [0]), w')).
Proof.
  destruct (string_utils_correct counting (fun _ w => w - 1)) as (Hx & Hr & _ & Hc & _).
  { intros n w Hn. eexists _, _. split; [reflexivity|]. rewrite length_replicate. lia. }
  split_and!.
  - destruct (Hx true [0; 171] (replicate 5 9) [] ltac:(by_eval)) as [H _]. apply (H ltac:(cbn; lia)).
  - destruct (Hx true [0; 171] [9; 9] [] ltac:(by_eval)) as (_ & _ & _ & _ & H). apply (H ltac:(cbn; lia)). done.
  - destruct (Hx true [] [9; 9] (bytes_of "00A") ltac:(by_eval)) as (_ & _ & H & _). by apply H.
  - destruct (Hr (bytes_of "a%s") (bytes_of "%s") (bytes_of "wxyz") [9] [] [] (replicate 512 9)
      ltac:(by_eval) ltac:(by_eval) ltac:(by_eval) ltac:(by_eval)) as (_ & H & _).
    apply H; [done|by_eval|right; by_eval|vm_compute; lia].
  - destruct (Hr (bytes_of "a%sb%s") (bytes_of "%s") (bytes_of "xyz") (replicate 9 9) [] [] (replicate 512 9)
      ltac:(by_eval) ltac:(by_eval) ltac:(by_eval) ltac:(by_eval)) as [H _].
    apply H; [done|by_eval|by_eval|by_eval|vm_compute; lia].
  - destruct (Hc (bytes_of "ab") [7] 0 0 ltac:(by_eval)) as [H _]. exact H.
Defined.
