(* ===== verification/JsonKeys.v ===== *)
(** The list of the keys of a document ([LITE_json_keys_of] and
    [LITE_json_keys_release] of [uiot/utils/json_token.c]).

    The linked list with its static head is the sequence of its entries, each
    of them told by the string its [key] points to, or NULL. *)

From S2P Require Import Prelude Json CLib StringUtils.

Section keys.
Context {W : Type} (malloc : Z -> W -> option bytes * W) (free : bytes -> W -> W).

(** [json_key_t]: three pointers of four bytes; what the allocator gets back
    is taken for a cleared block. *)
Definition json_key_size := 12.
Definition json_key_block : bytes := replicate 12 0.
Abbreviation json_key_t := (option bytes).

(** [HAL_Free] *)
Definition free_string (s : option bytes) (w : W) : W := match s with Some s => free s w | None => w end.

(** [entry = HAL_Malloc(...)], cleared without a check, and appended. *)
Definition list_add_entry (key : W -> res (option bytes * W)) (keylist : list json_key_t) (w : W) : res (list json_key_t * W) :=
  let '(entry, w) := malloc json_key_size w in
  match entry with
  | None => Oob
  | Some _ => '(k, w) ← key w; Ok (keylist ++ [k], w)
  end.

(** The body of the loop over the members, for the prefix [pre]; [rec] is the
    call for a nested object. *)
Definition keys_body (rec : option bytes -> option bytes -> list json_key_t -> W -> res (bool * list json_key_t * W)) (pre : bytes)
    (e : entry) (s : list json_key_t * W) : res (bool * (list json_key_t * W)) :=
  match key e, val e with
  | Some k, Some v =>
      if decide (key_len e = O \/ val_len e = O) then Ok (false, s)
      else
        name ← snprintf_s (key_len e) k;
        '(keylist, w) ← list_add_entry (LITE_format_string malloc free (pre ++ name)) s.1 s.2;
        if decide (JSOBJECT = val_type e) then
          value ← snprintf_s (val_len e) v;
          '(iter_val, w) ← LITE_format_string malloc free value w;
          '(iter_pre, w) ← LITE_format_string malloc free (pre ++ name ++ [46]) w;
          '(_, keylist, w) ← rec iter_val iter_pre keylist w;
          Ok (false, (keylist, free_string iter_pre (free_string iter_val w)))
        else Ok (false, (keylist, w))
  | _, _ => Ok (false, s)
  end.

(** Whether it returns the list, the static list, and the environment;
    [depth] bounds the nesting of objects. *)
Fixpoint keys_of (depth : nat) (src prefix : option bytes) (keylist : list json_key_t) (w : W) : res (bool * list json_key_t * W) :=
  match depth with
  | O => Err OUT_OF_FUEL
  | S depth =>
      match src, prefix with
      | Some src, Some prefix =>
          match cstr prefix with
          | None => Oob
          | Some pre =>
              '(keylist, w) ← json_object_for_each_kv (keys_body (keys_of depth) pre) src
                               (if decide (pre = []) then [] else keylist, w);
              if decide (pre = []) then '(keylist, w) ← list_add_entry (fun w => Ok (None, w)) keylist w; Ok (true, keylist, w)
              else Ok (false, keylist, w)
          end
      | _, _ => Ok (false, keylist, w)
      end
  end.
Definition LITE_json_keys_of (src prefix : option bytes) (keylist : list json_key_t) (w : W) : res (bool * list json_key_t * W) :=
  keys_of (S (match src with Some src => length src | None => O end)) src prefix keylist w.

(** The list is empty behind it. *)
Fixpoint LITE_json_keys_release (keylist : list json_key_t) (w : W) : W :=
  match keylist with
  | [] => w
  | key :: keylist => LITE_json_keys_release keylist (free json_key_block (free_string key w))
  end.
End keys.

(* ================================================================== *)
(** * The keys of a document *)

(** Every member with a name and a value that is not an empty string, objects
    before their members, as paths behind [pre]. *)
Fixpoint keys (pre : bytes) (v : json) : list bytes :=
  match v with
  | JObject ms =>
      concat (map (fun m =>
        if decide (m.1 = [] \/ text m.2 = []) then []
        else (pre ++ m.1) :: keys (pre ++ m.1 ++ [46]) m.2) ms)
  | _ => []
  end.
(** All paths, and the texts of all nested objects, fit the 511 characters of
    a formatted string. *)
Fixpoint keys_fit (pre : bytes) (v : json) : bool :=
  match v with
  | JObject ms =>
      forallb (fun m =>
        bool_decide (zlen (pre ++ m.1) <= 510) &&
        match m.2 with JObject _ => bool_decide (zlen (print m.2) <= 511) && keys_fit (pre ++ m.1 ++ [46]) m.2 | _ => true end) ms
  | _ => true
  end.

(** ** The account of the blocks *)

Section account.
Context {W : Type} (malloc : Z -> W -> option bytes * W) (free : bytes -> W -> W) (blocks : W -> Z).
Hypothesis malloc_blocks : forall n w, blocks (malloc n w).2 = blocks w + match (malloc n w).1 with Some _ => 1 | None => 0 end.
Hypothesis free_blocks : forall b w, blocks (free b w) = blocks w - 1.

Definition string_blocks (s : option bytes) : Z := match s with Some _ => 1 | None => 0 end.
Lemma free_string_blocks s w : blocks (free_string free s w) = blocks w - string_blocks s.
Proof using free_blocks. destruct s; cbn; [apply free_blocks|lia]. Qed.

Lemma strdup_blocks src w r w' : LITE_strdup malloc src w = Ok (r, w') -> blocks w' = blocks w + string_blocks r.
Proof using malloc_blocks.
  unfold LITE_strdup. destruct src as [src|]; [|intros [= <- <-]; cbn; lia].
  destruct (strlen src) as [n|e|]; cbn [mbind res_bind]; [|done..]. case_decide; [intros [= <- <-]; cbn; lia|].
  pose proof (malloc_blocks (Z.of_nat n + 1) w) as Hm. destruct (malloc _ w) as [[b|] w1]; cbn in Hm; [|intros [= <- <-]; cbn; lia].
  destruct (slice_at _ _ _); cbn [mbind res_bind]; [|done..]. destruct (write_at _ _ _); cbn [mbind res_bind]; [|done..].
  intros [= <- <-]. done.
Qed.
Lemma format_blocks text w r w' : LITE_format_string malloc free text w = Ok (r, w') -> blocks w' = blocks w + string_blocks r.
Proof using malloc_blocks free_blocks.
  unfold LITE_format_string. pose proof (malloc_blocks TEMP_STRING_MAXLEN w) as Hm.
  destruct (malloc _ w) as [[b|] w1]; cbn in Hm; [|done]. destruct (snprintf_at _ _ _ _) as [[t rc]|e|]; cbn [mbind res_bind]; [|done..].
  destruct (LITE_strdup malloc (Some t) w1) as [[d w2]|e|] eqn:Ed; cbn [mbind res_bind]; [|done..].
  apply strdup_blocks in Ed. intros [= <- <-]. rewrite free_blocks. lia.
Qed.
Lemma add_entry_blocks key kl w kl' w' :
  (forall w k w', key w = Ok (k, w') -> blocks w' = blocks w + string_blocks k) ->
  list_add_entry malloc key kl w = Ok (kl', w') ->
  exists k, kl' = kl ++ [k] /\ blocks w' = blocks w + 1 + string_blocks k.
Proof using malloc_blocks.
  intros Hk. unfold list_add_entry. pose proof (malloc_blocks json_key_size w) as Hm.
  destruct (malloc _ w) as [[b|] w1]; cbn in Hm; [|done]. destruct (key w1) as [[k w2]|e|] eqn:Ek; cbn [mbind res_bind]; [|done..].
  apply Hk in Ek. intros [= <- <-]. exists k. split; [done|lia].
Qed.

(** The blocks that a list holds. *)
Fixpoint list_blocks (kl : list (option bytes)) : Z :=
  match kl with [] => 0 | k :: kl => 1 + string_blocks k + list_blocks kl end.
Lemma list_blocks_app kl kl' : list_blocks (kl ++ kl') = list_blocks kl + list_blocks kl'.
Proof. induction kl as [|k kl IH]; cbn [app list_blocks]; lia. Qed.
Lemma release_blocks kl w : blocks (LITE_json_keys_release free kl w) = blocks w - list_blocks kl.
Proof using free_blocks.
  revert w. induction kl as [|k kl IH]; intros w; cbn [LITE_json_keys_release list_blocks]; [lia|].
  rewrite IH, free_blocks, free_string_blocks. lia.
Qed.

Lemma for_each_invariant {A} (P : A -> Prop) body fuel : forall pos a a',
  (forall e a stop a', P a -> body e a = Ok (stop, a') -> P a') -> P a -> for_each_kv fuel body pos a = Ok a' -> P a'.
Proof using.
  induction fuel as [|fuel IH]; intros pos a a' Hb Ha E; cbn [for_each_kv] in E; [done|].
  destruct pos as [[|c p]|]; [done| |by injection E as <-]. case_decide; [by injection E as <-|].
  destruct (json_get_next_object JSOBJECT (c :: p)) as [[[e|] [p'|]]|x|]; cbn [mbind res_bind] in E; try done; try (by injection E as <-).
  destruct (body e a) as [[stop a1]|x|] eqn:Eb; cbn [mbind res_bind] in E; [|done..].
  apply (Hb _ _ _ _ Ha) in Eb. destruct stop; [by injection E as <-|]. by eapply IH.
Qed.

(** What was counted besides the list is as before. *)
Definition balanced (n : Z) (s : list (option bytes) * W) : Prop := blocks s.2 = n + list_blocks s.1.
Lemma snprintf_s_text n : forall v t, snprintf_s n v = Ok t -> Forall (fun c => c <> 0) t.
Proof using.
  induction n as [|n IH]; intros v t E; cbn [snprintf_s] in E; [by injection E as <-|].
  destruct v as [|c v]; [done|]. case_decide; [by injection E as <-|].
  destruct (snprintf_s n v) as [r|e|] eqn:Er; cbn [mbind res_bind] in E; [|done..]. injection E as <-. constructor; [done|by eapply IH].
Qed.
Lemma strdup_copy src w b w' : LITE_strdup malloc (Some src) w = Ok (Some b, w') ->
  exists n junk, strlen src = Ok n /\ b = take (S n) src ++ junk.
Proof using.
  unfold LITE_strdup. destruct (strlen src) as [n|e|]; cbn [mbind res_bind]; [|done..]. case_decide; [done|].
  destruct (malloc _ w) as [[d|] w1]; [|done]. destruct (slice_at _ _ _) as [s|e|] eqn:Es; cbn [mbind res_bind]; [|done..].
  destruct (write_at d 0 s) as [d'|e|] eqn:Ed; cbn [mbind res_bind]; [|done..]. intros [= <- _].
  apply slice_at_ok in Es as (_ & _ & _ & ->). apply write_at_ok in Ed as (_ & _ & ->).
  exists n. eexists. split; [done|]. cbn [Z.to_nat]. rewrite take_0, drop_0. cbn [app]. f_equal. f_equal. lia.
Qed.
Lemma format_text t w b w' : Forall (fun c => c <> 0) t -> LITE_format_string malloc free t w = Ok (Some b, w') ->
  cstr b = Some (take 511 t).
Proof using.
  intros Ht. unfold LITE_format_string. destruct (malloc _ w) as [[d|] w1]; [|done].
  destruct (snprintf_at _ _ _ _) as [[tmp rc]|e|] eqn:Es; cbn [mbind res_bind]; [|done..].
  destruct (LITE_strdup malloc (Some tmp) w1) as [[d' w2]|e|] eqn:Ed; cbn [mbind res_bind]; [|done..]. intros [= -> _].
  unfold snprintf_at in Es. rewrite decide_False, snprintf_cut in Es by done.
  destruct (write_at _ 0 _) as [x|e|] eqn:Ew; cbn [mbind res_bind] in Es; [|done..]. injection Es as <- _.
  apply write_at_ok in Ew as (_ & _ & ->). cbn [Z.to_nat] in Ed. rewrite take_0 in Ed. cbn [app] in Ed.
  apply strdup_copy in Ed as (n & junk & Hn & ->). change (Z.to_nat (TEMP_STRING_MAXLEN - 1)) with 511%nat in *.
  rewrite <- app_assoc in Hn |- *. cbn [app] in *. assert (Hz : Forall (fun c => c <> 0) (take 511 t)) by by apply Forall_take.
  rewrite (strlen_app _ _ O) in Hn by done. injection Hn as <-. rewrite Nat.add_0_r.
  generalize (take 511 t), Hz. clear. intros t Hz. set (rest := drop _ _). clearbody rest.
  rewrite (cons_middle 0 t rest), app_assoc, take_app_length' by (rewrite length_app; cbn; lia).
  rewrite <- app_assoc. by apply cstr_text.
Qed.

Definition unreset (prefix : option bytes) : Prop := match prefix with Some p => cstr p <> Some [] | None => True end.
Lemma body_balanced rec pre n :
  Forall (fun c => c <> 0) pre ->
  (forall n src prefix kl w r kl' w', unreset prefix -> balanced n (kl, w) -> rec src prefix kl w = Ok (r, kl', w') -> balanced n (kl', w')) ->
  forall e s stop s', balanced n s -> keys_body malloc free rec pre e s = Ok (stop, s') -> balanced n s'.
Proof using malloc_blocks free_blocks.
  intros Hpre Hrec e [kl w] stop s' Hn E. unfold keys_body in E.
  destruct (key e) as [k|]; [|by injection E as _ <-]. destruct (val e) as [v|]; [|by injection E as _ <-].
  case_decide; [by injection E as _ <-|].
  destruct (snprintf_s (key_len e) k) as [name|x|] eqn:Ename; cbn [mbind res_bind fst snd] in E; [|done..].
  apply snprintf_s_text in Ename.
  destruct (list_add_entry _ _ kl w) as [[kl1 w1]|x|] eqn:Eadd; cbn [mbind res_bind] in E; [|done..].
  apply add_entry_blocks in Eadd as (key & -> & Hb); [|intros; by eapply format_blocks]. unfold balanced in *. cbn [fst snd] in *.
  assert (H1 : blocks w1 = n + list_blocks (kl ++ [key])) by (rewrite list_blocks_app; cbn [list_blocks]; lia).
  case_decide; [|injection E as _ <-; exact H1].
  destruct (snprintf_s (val_len e) v) as [value|x|]; cbn [mbind res_bind] in E; [|done..].
  destruct (LITE_format_string malloc free value w1) as [[iv w2]|x|] eqn:E2; cbn [mbind res_bind] in E; [|done..].
  destruct (LITE_format_string malloc free (pre ++ name ++ [46]) w2) as [[ip w3]|x|] eqn:E3; cbn [mbind res_bind] in E; [|done..].
  pose proof (format_blocks _ _ _ _ E2) as H2. pose proof (format_blocks _ _ _ _ E3) as H3.
  destruct (rec iv ip (kl ++ [key]) w3) as [[[r kl4] w4]|x|] eqn:E4; cbn [mbind res_bind] in E; [|done..].
  apply (Hrec (n + string_blocks iv + string_blocks ip)) in E4.
  - injection E as _ <-. cbn [fst snd] in *. rewrite !free_string_blocks. lia.
  - unfold unreset. destruct ip as [ip|]; [|done]. apply format_text in E3; [rewrite E3; by destruct pre, name|].
    apply Forall_app. split; [done|]. apply Forall_app. split; [done|]. by repeat constructor.
  - cbn [fst snd]. lia.
Qed.

(** A call that does not begin a new list keeps the account; one that does
    accounts for the new list only. *)
Lemma keys_balanced depth : forall n src prefix kl w r kl' w',
  unreset prefix -> balanced n (kl, w) -> keys_of malloc free depth src prefix kl w = Ok (r, kl', w') -> balanced n (kl', w').
Proof using malloc_blocks free_blocks.
  induction depth as [|depth IH]; intros n src prefix kl w r kl' w' Hu Hn E; cbn [keys_of] in E; [done|].
  destruct src as [src|]; [|by injection E as <- <- <-]. destruct prefix as [p|]; [|by injection E as <- <- <-].
  destruct (cstr p) as [pre|] eqn:Ep; [|done]. assert (Hne : pre <> []) by (intros ->; by apply Hu).
  rewrite decide_False in E by done.
  destruct (json_object_for_each_kv _ src _) as [[kl1 w1]|x|] eqn:Eo; cbn [mbind res_bind] in E; [|done..].
  rewrite decide_False in E by done. injection E as _ <- <-. unfold json_object_for_each_kv in Eo.
  destruct (json_get_object JSOBJECT src) as [pos|x|]; cbn [mbind res_bind] in Eo; [|done..].
  eapply for_each_invariant; [|exact Hn|exact Eo]. intros e s stop s'. apply body_balanced; [|exact IH].
  by apply cstr_spec in Ep as (? & _ & ?).
Qed.
Lemma top_balanced src p kl w r kl' w' : cstr p = Some [] ->
  LITE_json_keys_of malloc free (Some src) (Some p) kl w = Ok (r, kl', w') ->
  r = true /\ blocks w' = blocks w + list_blocks kl' /\ last kl' = Some None.
Proof using malloc_blocks free_blocks.
  intros Ep E. unfold LITE_json_keys_of in E. cbn [keys_of] in E. rewrite Ep, decide_True in E by done.
  destruct (json_object_for_each_kv _ src _) as [[kl1 w1]|x|] eqn:Eo; cbn [mbind res_bind] in E; [|done..].
  rewrite decide_True in E by done. unfold json_object_for_each_kv in Eo.
  destruct (json_get_object JSOBJECT src) as [pos|x|]; cbn [mbind res_bind] in Eo; [|done..].
  assert (Hb : balanced (blocks w) (kl1, w1)).
  { eapply for_each_invariant; [| |exact Eo]; [|unfold balanced; cbn; lia].
    intros e s stop s'. apply body_balanced; [done|]. apply keys_balanced. }
  destruct (list_add_entry _ _ kl1 w1) as [[kl2 w2]|x|] eqn:Ea; cbn [mbind res_bind] in E; [|done..]. injection E as <- <- <-.
  split; [done|]. unfold list_add_entry in Ea. pose proof (malloc_blocks json_key_size w1) as Hm.
  destruct (malloc json_key_size w1) as [[b|] w3]; [|done]. cbn in Hm. injection Ea as <- <-.
  unfold balanced in Hb. cbn [fst snd] in Hb. rewrite list_blocks_app. cbn [list_blocks string_blocks].
  split; [lia|]. apply last_snoc.
Qed.
End account.

(* ================================================================== *)
(** * Every member, in order *)

Section members.
Context {A : Type} (body : entry -> A -> res (bool * A)).
(** What is known once the members [pre] of [all] are done. *)
Context (all : list (bytes * json)) (Q : list (bytes * json) -> A -> Prop).
Definition entry_of (m : bytes * json) (rest : bytes) : entry :=
  mkEntry (Some (m.1 ++ 34 :: 58 :: print m.2 ++ rest)) (length m.1) (Some (value_ptr m.2 rest)) (length (text m.2)) (type_of m.2).
Hypothesis body_run : forall pre m post rest a, all = pre ++ m :: post -> Q pre a ->
  exists a', body (entry_of m rest) a = Ok (false, a') /\ Q (pre ++ [m]) a'.

Lemma each_member ms rest k : members_ok ms -> strlen rest = Ok k ->
  forall fuel pre c m a, all = pre ++ m :: ms -> (S (length ms) < fuel)%nat -> c <> 34 -> c <> 0 ->
  forallb plain m.1 = true -> well_formed m.2 = true -> Q pre a ->
  exists a', Q all a' /\ for_each_kv fuel body (Some (c :: member m.1 (print m.2) ++ after ms (125 :: rest))) a =
    for_each_kv (fuel - S (length ms)) body (Some (125 :: rest)) a'.
Proof using body_run.
  intros Hms Hk. induction Hms as [|m' ms [Hn' Hv'] Hms IH]; intros [|fuel] pre c m a Hall Hf Hc Hc0 Hn Hv Hq; try lia;
    cbn [for_each_kv]; rewrite (decide_False (P := c = 0)) by done.
  - assert (Ha : follows (after [] (125 :: rest))) by (by apply (follows_after [] rest k); [constructor|]).
    rewrite json_next_first by done. cbn [mbind res_bind].
    destruct (body_run pre m [] (after [] (125 :: rest)) a Hall Hq) as (a' & E & Hq'). unfold entry_of in E. rewrite E. cbn [mbind res_bind].
    exists a'. rewrite Hall. split; [done|]. by replace (S fuel - _)%nat with fuel by (cbn; lia).
  - assert (Ha : follows (after (m' :: ms) (125 :: rest))) by (eapply follows_after, Hk; by constructor).
    rewrite json_next_first by done. cbn [mbind res_bind].
    destruct (body_run pre m (m' :: ms) (after (m' :: ms) (125 :: rest)) a Hall Hq) as (a' & E & Hq'). unfold entry_of in E. rewrite E. cbn [mbind res_bind].
    cbn [length] in Hf. rewrite after_cons. replace (S fuel - _)%nat with (fuel - S (length ms))%nat by (cbn; lia).
    apply (IH fuel (pre ++ [m])); try done; [by rewrite <- app_assoc|lia].
Qed.

Lemma object_members junk a : members_ok all -> Q [] a ->
  exists a', Q all a' /\ json_object_for_each_kv body (print (JObject all) ++ 0 :: junk) a = Ok a'.
Proof using body_run.
  intros Hms Hq. unfold json_object_for_each_kv.
  replace (json_get_object JSOBJECT (print (JObject all) ++ 0 :: junk)) with (Ok (Some (print (JObject all) ++ 0 :: junk))) by done.
  cbn [mbind res_bind].
  assert (all = [] \/ exists m ms, all = m :: ms) as [E|(m & ms & E)] by (destruct all; eauto).
  { exists a. rewrite E in *. by split. }
  rewrite E in Hms. assert (print (JObject all) = print (JObject (m :: ms))) as -> by by rewrite E. rewrite print_members.
  apply Forall_cons in Hms as [[Hn Hv] Hms]. pose proof (length_after ms (125 :: 0 :: junk)) as Hl.
  set (n := length (123 :: _)). assert (Hn' : (length ms < n)%nat) by (unfold n; cbn [length]; rewrite length_app; lia). clearbody n.
  destruct (each_member ms (0 :: junk) O Hms eq_refl (S n) [] 123 m a) as (a' & Hq' & ->); try done; [lia|].
  exists a'. split; [done|]. by replace (S n - S (length ms))%nat with (S (n - S (length ms))) by lia.
Qed.
End members.

(* ================================================================== *)
(** * The list is the one of the keys *)

Lemma length_join sep l x : x ∈ l -> (length x <= length (join sep l))%nat.
Proof.
  induction l as [|y l IH]; [by intros ?%not_elem_of_nil|]. intros Hx. destruct l as [|z l].
  - apply list_elem_of_singleton in Hx as ->. done.
  - change (join sep (y :: z :: l)) with (y ++ sep :: join sep (z :: l)). rewrite length_app. cbn [length].
    apply elem_of_cons in Hx as [->|Hx]; [lia|]. specialize (IH Hx). lia.
Qed.
Lemma print_nested ms m : m ∈ ms -> (length (print m.2) < length (print (JObject ms)))%nat.
Proof.
  intros Hm. cbn [print length]. rewrite length_app. cbn [length].
  pose proof (length_join 44 (map (fun m => member m.1 (print m.2)) ms) (member m.1 (print m.2))) as Hl.
  assert (length (member m.1 (print m.2)) = (length m.1 + length (print m.2) + 3)%nat) as E.
  { unfold member. cbn [length]. rewrite length_app. cbn [length]. lia. }
  rewrite E in Hl. unshelve (epose proof (Hl _); lia). apply list_elem_of_In, in_map_iff. exists m. split; [done|]. by apply list_elem_of_In.
Qed.

Lemma keys_app pre a b : keys pre (JObject (a ++ b)) = keys pre (JObject a) ++ keys pre (JObject b).
Proof. cbn [keys]. by rewrite map_app, concat_app. Qed.

Section listed.
Context {W : Type} (malloc : Z -> W -> option bytes * W) (free : bytes -> W -> W).
Hypothesis memory : forall n w, 0 <= n -> exists b w', malloc n w = (Some b, w') /\ zlen b = n.
Local Abbreviation key_block := (fun k : bytes => Some (k ++ [0])).

Lemma format_fits t w : Forall (fun c => c <> 0) t -> zlen t <= 511 ->
  exists w', LITE_format_string malloc free t w = Ok (Some (t ++ [0]), w').
Proof using memory.
  intros Ht Hl. destruct (format_string_run malloc free memory t w Ht) as [w' E]. exists w'. by rewrite E, take_ge by lia.
Qed.
Lemma add_key t kl w : Forall (fun c => c <> 0) t -> zlen t <= 511 ->
  exists w', list_add_entry malloc (LITE_format_string malloc free t) kl w = Ok (kl ++ [Some (t ++ [0])], w').
Proof using memory.
  intros Ht Hl. unfold list_add_entry. destruct (memory json_key_size w ltac:(done)) as (b & w1 & -> & _).
  destruct (format_fits t w1 Ht Hl) as [w2 ->]. by exists w2.
Qed.

(** What the nested calls do. *)
Definition nested_ok (rec : option bytes -> option bytes -> list (option bytes) -> W -> res (bool * list (option bytes) * W)) (pre : bytes) (v : json) : Prop :=
  forall kl w, exists w', rec (Some (print v ++ [0])) (Some (pre ++ [0])) kl w = Ok (false, kl ++ (key_block <$> keys pre v), w').

Lemma keys_body_run rec pre m rest kl w :
  Forall (fun c => c <> 0) pre -> forallb plain m.1 = true -> well_formed m.2 = true -> zlen (pre ++ m.1) <= 510 ->
  (type_of m.2 = JSOBJECT -> zlen (print m.2) <= 511 /\ nested_ok rec (pre ++ m.1 ++ [46]) m.2) ->
  exists w', keys_body malloc free rec pre (entry_of m rest) (kl, w) = Ok (false, (kl ++ (key_block <$> keys pre (JObject [m])), w')).
Proof using memory.
  intros Hpre Hn Hv Hl Hrec. assert (Hname : Forall (fun c => c <> 0) m.1) by (revert Hn; apply plain_all; lia).
  unfold keys_body, entry_of. cbn [key val key_len val_len val_type fst snd keys map concat]. rewrite app_nil_r.
  rewrite (decide_ext _ (m.1 = [] \/ text m.2 = [])) by (by rewrite !length_zero_iff_nil).
  case_decide; [exists w; by rewrite app_nil_r|]. rewrite snprintf_text by done. cbn [mbind res_bind].
  destruct (add_key (pre ++ m.1) kl w) as [w1 ->]; [by apply Forall_app|lia|]. cbn [mbind res_bind].
  destruct (decide (JSOBJECT = type_of m.2)) as [Ho|Ho].
  - destruct (Hrec (eq_sym Ho)) as [Hp Hnest]. destruct m as [n v]. destruct v as [| | | |ms|]; try done. cbn [fst snd text value_ptr] in *.
    rewrite snprintf_text by by apply print_nonzero. cbn [mbind res_bind].
    destruct (format_fits (print (JObject ms)) w1) as [w2 ->]; [by apply print_nonzero|done|]. cbn [mbind res_bind].
    destruct (format_fits (pre ++ n ++ [46]) w2) as [w3 ->].
    { apply Forall_app. split; [done|]. apply Forall_app. split; [done|]. by repeat constructor. }
    { rewrite !length_app in *. cbn [length]. lia. }
    cbn [mbind res_bind]. destruct (Hnest (kl ++ [Some ((pre ++ n) ++ [0])]) w3) as [w4 E]. rewrite E.
    eexists. cbn [mbind res_bind]. rewrite fmap_cons, <- app_assoc. done.
  - exists w1. rewrite fmap_cons. destruct m as [n v]. by destruct v.
Qed.

Lemma keys_run depth : forall ms pre junk pjunk kl w,
  well_formed (JObject ms) = true -> keys_fit pre (JObject ms) = true -> (length (print (JObject ms)) < depth)%nat ->
  Forall (fun c => c <> 0) pre -> exists w',
  keys_of malloc free depth (Some (print (JObject ms) ++ 0 :: junk)) (Some (pre ++ 0 :: pjunk)) kl w =
    if decide (pre = []) then Ok (true, (key_block <$> keys pre (JObject ms)) ++ [None], w')
    else Ok (false, kl ++ (key_block <$> keys pre (JObject ms)), w').
Proof using memory.
  induction depth as [|depth IH]; intros ms pre junk pjunk kl w Hw Hf Hd Hpre; [lia|]. cbn [keys_of].
  rewrite cstr_text by done. set (kl0 := if decide (pre = []) then [] else kl).
  assert (Hms := proj1 (well_formed_members ms) Hw). cbn [keys_fit] in Hf. rewrite forallb_forall in Hf.
  destruct (object_members (keys_body malloc free (keys_of malloc free depth) pre) ms
    (fun done s => s.1 = kl0 ++ (key_block <$> keys pre (JObject done))) ) with (junk := junk) (a := (kl0, w))
    as ((kl1 & w1) & Hq & ->).
  - intros front m back rest [kl1 w1] Hall Hq. cbn [fst] in Hq.
    assert (Hin : m ∈ ms) by (rewrite Hall; apply elem_of_app; right; by constructor).
    destruct (proj1 (Forall_forall _ _) Hms m Hin) as [Hn Hv].
    specialize (Hf m (proj1 (list_elem_of_In _ _) Hin)). apply andb_prop in Hf as [Hl Hf]. apply bool_decide_eq_true in Hl.
    destruct (keys_body_run (keys_of malloc free depth) pre m rest kl1 w1 Hpre Hn Hv Hl) as [w2 ->].
    + intros Ho. pose proof (print_nested ms m Hin) as Hlen. destruct m as [n v]. destruct v as [| | | |ms'|]; try done. cbn [fst snd] in *.
      apply andb_prop in Hf as [Hp Hf]. apply bool_decide_eq_true in Hp. split; [done|]. intros kl2 w3.
      destruct (IH ms' (pre ++ n ++ [46]) [] [] kl2 w3 Hv Hf) as [w4 E]; [lia| |].
      { apply Forall_app. split; [done|]. apply Forall_app. split; [revert Hn; apply plain_all; lia|]. by repeat constructor. }
      exists w4. rewrite E. by rewrite decide_False by by destruct pre, n.
    + eexists. split; [done|]. cbn [fst]. by rewrite keys_app, fmap_app, Hq, app_assoc.
  - done.
  - cbn [fst keys map concat]. by rewrite app_nil_r.
  - cbn [mbind res_bind fst] in *. subst kl1 kl0. case_decide as Hp; [|by exists w1].
    unfold list_add_entry. destruct (memory json_key_size w1 ltac:(done)) as (b & w2 & -> & _). by exists w2.
Qed.

Lemma listing ms junk kl w : well_formed (JObject ms) = true -> keys_fit [] (JObject ms) = true -> exists w',
  LITE_json_keys_of malloc free (Some (print (JObject ms) ++ 0 :: junk)) (Some [0]) kl w =
    Ok (true, (key_block <$> keys [] (JObject ms)) ++ [None], w').
Proof using memory.
  intros Hw Hf. unfold LITE_json_keys_of.
  destruct (keys_run (S (length (print (JObject ms) ++ 0 :: junk))) ms [] junk [] kl w Hw Hf) as [w' E];
    [rewrite length_app; lia|done|]. rewrite decide_True in E by done. by exists w'.
Qed.
End listed.

(** Every path that can be looked up is a key. *)
Lemma path_listed : forall path pre v u, path <> [] -> Forall (fun n => n <> []) path -> value_at path v = Some u -> text u <> [] ->
  pre ++ join 46 path ∈ keys pre v.
Proof.
  induction path as [|n path IH]; intros pre v u Hne Hn Hv Hu; [done|]. apply Forall_cons in Hn as [Hn Hns].
  destruct v as [| | | |ms|]; try done. cbn [value_at] in Hv. destruct (list_find (fun m => m.1 = n) ms) as [[i m]|] eqn:E; [|done].
  cbn in Hv. apply list_find_Some in E as (Hi & Hm & _). cbn [keys].
  assert (Ht : text m.2 <> []).
  { destruct path as [|n' path]; [by injection Hv as ->|]. destruct m as [? [| | | | |]]; done. }
  apply list_elem_of_In, in_concat. eexists. split.
  { apply in_map_iff. exists m. split; [done|]. apply list_elem_of_In. by eapply list_elem_of_lookup_2. }
  apply list_elem_of_In. rewrite decide_False by (intros [?|?]; [by rewrite Hm in *|done]). rewrite Hm.
  destruct path as [|n' path]; [by constructor|]. apply elem_of_cons. right.
  change (join 46 (n :: n' :: path)) with (n ++ 46 :: join 46 (n' :: path)).
  specialize (IH (pre ++ n ++ [46]) m.2 u). rewrite <- !app_assoc in IH. apply IH; done.
Qed.

(* ================================================================== *)
(** * Properties *)

(** An allocator without memory, and documents whose nested object is longer
    than a formatted string can be. *)
Definition no_memory (n : Z) (w : Z) : option bytes * Z := (None, w).
Definition uncount (b : bytes) (w : Z) : Z := w - 1.
Definition nested (ms : list (bytes * json)) : json := JObject [(bytes_of "a", JObject ms); (bytes_of "b", JNull)].
Definition keys_listed (malloc : Z -> Z -> option bytes * Z) (v : json) : res (list (option bytes)) :=
  '(_, keylist, _) ← LITE_json_keys_of malloc uncount (Some (print v ++ [0])) (Some [0]) [] 0; Ok keylist.

(** C35: the list of keys.  For a compact JSON object whose paths are at most
    510 characters long and whose nested objects take up at most 511, with
    memory, the list is that of the paths of all members that have a name and
    a value other than the empty string, an object before its members, in the
    order of the document, and an end mark.  In such a document, where
    RFC 8259 puts a value other than the empty string at a path of names none
    of which is the beginning of another one met on the way,
    [LITE_json_value_of] finds that value and [LITE_json_keys_of] lists the
    path.  (Elsewhere the lookup finds more than is listed: a name behind a
    nested object and a name by its beginning, see [json_lookup_safe].)

    Whatever the text, and whether or not there is memory: a list that is
    returned ends with its mark, and releasing it gives back exactly the
    blocks that were taken for it.  The list is static: a new one forgets the
    old one without releasing it.  Nested objects that are longer are cut: the
    keys behind the cut are missing, and when it falls behind the quote that
    opens a value, the scanner reads beyond the block.  Without memory an
    entry is cleared at NULL. *)
Theorem json_keys_correct :
  (forall W (malloc : Z -> W -> option bytes * W) free ms junk kl w,
    (forall n w, 0 <= n -> exists b w', malloc n w = (Some b, w') /\ zlen b = n) ->
    well_formed (JObject ms) = true -> keys_fit [] (JObject ms) = true ->
    exists w', LITE_json_keys_of malloc free (Some (print (JObject ms) ++ 0 :: junk)) (Some [0]) kl w =
      Ok (true, ((fun k => Some (k ++ [0])) <$> keys [] (JObject ms)) ++ [None], w')) /\
  (forall W (malloc : Z -> W -> option bytes * W) free V (memory : V -> bool * V) ms junk kl w path u x,
    (forall n w, 0 <= n -> exists b w', malloc n w = (Some b, w') /\ zlen b = n) -> (forall x, (memory x).1 = true) ->
    well_formed (JObject ms) = true -> keys_fit [] (JObject ms) = true ->
    path <> [] -> Forall component path -> value_at path (JObject ms) = Some u -> unambiguous path (JObject ms) = true -> text u <> [] ->
    let src := print (JObject ms) ++ 0 :: junk in let key := join 46 path ++ [0] in
    (exists x', LITE_json_value_of memory key src x = Ok (Some (text u), x')) /\
    (exists kl' w', LITE_json_keys_of malloc free (Some src) (Some [0]) kl w = Ok (true, kl', w') /\ Some key ∈ kl')) /\
  (forall W (malloc : Z -> W -> option bytes * W) free (blocks : W -> Z) src kl w r kl' w',
    (forall n w, blocks (malloc n w).2 = blocks w + match (malloc n w).1 with Some _ => 1 | None => 0 end) ->
    (forall b w, blocks (free b w) = blocks w - 1) ->
    LITE_json_keys_of malloc free (Some src) (Some [0]) kl w = Ok (r, kl', w') ->
    r = true /\ last kl' = Some None /\ blocks (LITE_json_keys_release free kl' w') = blocks w) /\
  (forall W (malloc : Z -> W -> option bytes * W) free src old w,
    LITE_json_keys_of malloc free (Some src) (Some [0]) old w = LITE_json_keys_of malloc free (Some src) (Some [0]) [] w) /\
  keys_listed counting (nested [(bytes_of "k", JString (replicate 504 120)); (bytes_of "z", JNumber (bytes_of "1"))]) =
    Ok [Some (lit "a"); Some (lit "a.k"); Some (lit "b"); None] /\
  keys_listed counting (nested [(replicate 506 120, JString (bytes_of "v"))]) = Oob /\
  keys_listed no_memory (nested []) = Oob.
Proof.
  split_and!; try by_eval.
  - intros W malloc free ms junk kl w Hm Hw Hf. by apply listing.
  - intros W malloc free V memory ms junk kl w path u x Hm Hmem Hw Hf Hne Hn Hv Hun Hu src key.
    split; [by apply (json_lookup_found memory (JObject ms) junk x path u)|].
    destruct (listing malloc free Hm ms junk kl w Hw Hf) as [w' E]. eexists _, w'. split; [exact E|].
    apply elem_of_app. left. apply list_elem_of_fmap. exists (join 46 path). split; [done|].
    apply (path_listed path [] (JObject ms) u); [done| |done|done]. apply (Forall_impl _ _ _ Hn). by intros n [? _].
  - intros W malloc free blocks src kl w r kl' w' Hm Hf E.
    destruct (top_balanced malloc free blocks Hm Hf src [0] kl w r kl' w' eq_refl E) as (-> & Hb & Hl).
    split_and!; [done|done|]. rewrite (release_blocks free blocks Hf). lia.
  - reflexivity.
Qed.

Definition keys_members : list (bytes * json) :=
  [(bytes_of "a", JObject [(bytes_of "k", JString (bytes_of "v")); (bytes_of "e", JString [])]); (bytes_of "b", JNull)].
Lemma json_keys_correct_witness :
  (LITE_json_value_of mem_ok (lit "a.k") (q "{`a`:{`k`:`v`,`e`:``},`b`:null}" ++ 0 :: [7]) tt = Ok (Some (bytes_of "v"), tt) /\
   exists kl w, LITE_json_keys_of counting uncount (Some (q "{`a`:{`k`:`v`,`e`:``},`b`:null}" ++ 0 :: [7])) (Some [0]) [None] 5 =
     Ok (true, kl, w) /\ Some (lit "a.k") ∈ kl) /\
  exists w, LITE_json_keys_of counting uncount (Some (q "{`a`:{`k`:`v`,`e`:``},`b`:null}" ++ 0 :: [7])) (Some [0]) [None] 5 =
      Ok (true, [Some (lit "a"); Some (lit "a.k"); Some (lit "b"); None], w) /\
    LITE_json_keys_release uncount [Some (lit "a"); Some (lit "a.k"); Some (lit "b"); None] w = 5.
Proof.
  assert (Hm : forall n w, 0 <= n -> exists b w', counting n w = (Some b, w') /\ zlen b = n).
  { intros n w Hn. eexists _, _. split; [reflexivity|]. rewrite length_replicate. lia. }
  destruct json_keys_correct as (Hrun & Hpath & Hacc & _). split.
  - destruct (Hpath Z counting uncount unit mem_ok keys_members [7] [None] 5 [bytes_of "a"; bytes_of "k"] (JString (bytes_of "v")) tt Hm
      (fun _ => eq_refl) ltac:(by_eval) ltac:(by_eval) ltac:(done) ltac:(by_eval) ltac:(by vm_compute) ltac:(by_eval) ltac:(done))
      as [[[] Hv] Hk]. split; [exact Hv|exact Hk].
  - destruct (Hrun Z counting uncount keys_members [7] [None] 5 Hm) as [w E]; [by_eval|by_eval|].
    exists w. split; [exact E|]. destruct (Hacc Z counting uncount (fun n => n) _ _ _ _ _ _ ltac:(done) ltac:(done) E) as (_ & _ & Hb). exact Hb.
Defined.
