(* ===== verification/HalDevice.v ===== *)
(** What the device knows of itself: the four static arrays of
    [ports/rtthread/HAL_OS_rtthread.c] - product, device, and their secrets -
    and the functions that read and write them (built with
    [DEBUG_DEV_INFO_USED], as the file defines it). *)

From S2P Require Import Prelude Defs CLib.

Definition IOT_PRODUCT_SN_LEN := 16.
Definition IOT_PRODUCT_SECRET_LEN := 16.
Definition IOT_DEVICE_SN_LEN := 64.
Definition IOT_DEVICE_SECRET_LEN := 16.

(** The static arrays. *)
Record DeviceInfo := mkDevice {
  sg_product_sn : bytes;
  sg_product_secret : bytes;
  sg_device_sn : bytes;
  sg_device_secret : bytes
}.

Definition set_product_sn v d := mkDevice v (sg_product_secret d) (sg_device_sn d) (sg_device_secret d).
Definition set_product_secret v d := mkDevice (sg_product_sn d) v (sg_device_sn d) (sg_device_secret d).
Definition set_device_sn v d := mkDevice (sg_product_sn d) (sg_product_secret d) v (sg_device_secret d).
Definition set_device_secret v d := mkDevice (sg_product_sn d) (sg_product_secret d) (sg_device_sn d) v.

(** An array of [len] bytes initialised with a text. *)
Definition array (len : Z) (text : bytes) : bytes := text ++ replicate (Z.to_nat len - length text) 0.
Definition device0 : DeviceInfo :=
  mkDevice (array (IOT_PRODUCT_SN_LEN + 1) (bytes_of "YOUR_PRODUCT_SN")) (array (IOT_PRODUCT_SECRET_LEN + 1) (bytes_of "PRODUCT_SECRET"))
    (array (IOT_DEVICE_SN_LEN + 1) (bytes_of "YOUR_DEVICE_SN")) (array (IOT_DEVICE_SECRET_LEN + 1) (bytes_of "DEVICE_SECRET")).

(** [memset(dst, 0, size); strncpy(dst, src, len)] with [len = strlen(src)]. *)
Definition clear_copy (size : Z) (dst text : bytes) : res bytes :=
  dst ← write_at dst 0 (replicate (Z.to_nat size) 0); write_at dst 0 text.

(** The body of the getters: the caller's array behind the call. *)
Definition get_text (size : Z) (src dst : bytes) : res (Z * bytes) :=
  match cstr src with
  | None => Oob
  | Some text => dst ← clear_copy (size + 1) dst text; Ok (SUCCESS_RET, dst)
  end.
Definition HAL_GetProductSN (d : DeviceInfo) (productSN : bytes) := get_text IOT_PRODUCT_SN_LEN (sg_product_sn d) productSN.
Definition HAL_GetProductSecret (d : DeviceInfo) (productSecret : bytes) :=
  get_text IOT_PRODUCT_SECRET_LEN (sg_product_secret d) productSecret.
Definition HAL_GetDeviceSN (d : DeviceInfo) (deviceSN : bytes) := get_text IOT_DEVICE_SN_LEN (sg_device_sn d) deviceSN.
Definition HAL_GetDeviceSecret (d : DeviceInfo) (deviceSecret : bytes) :=
  get_text IOT_DEVICE_SECRET_LEN (sg_device_secret d) deviceSecret.

(** The body of the setters, for the array [dst] of [size + 1] bytes. *)
Definition set_text (size : Z) (src dst : bytes) (put : bytes -> DeviceInfo -> DeviceInfo) (d : DeviceInfo) : res (Z * DeviceInfo) :=
  match cstr src with
  | None => Oob
  | Some text =>
      if decide (zlen text > size) then Ok (FAILURE_RET, d)
      else dst ← clear_copy (size + 1) dst text; Ok (SUCCESS_RET, put dst d)
  end.
Definition HAL_SetProductSN (pProductSN : bytes) (d : DeviceInfo) :=
  set_text IOT_PRODUCT_SN_LEN pProductSN (sg_product_sn d) set_product_sn d.
Definition HAL_SetProductSecret (pProductSecret : bytes) (d : DeviceInfo) :=
  set_text IOT_PRODUCT_SECRET_LEN pProductSecret (sg_product_secret d) set_product_secret d.
Definition HAL_SetDeviceSN (pDeviceSN : bytes) (d : DeviceInfo) :=
  set_text IOT_DEVICE_SN_LEN pDeviceSN (sg_device_sn d) set_device_sn d.
Definition HAL_SetDeviceSecret (pDeviceSecret : bytes) (d : DeviceInfo) :=
  set_text IOT_DEVICE_SECRET_LEN pDeviceSecret (sg_device_secret d) set_device_secret d.

(* ================================================================== *)
(** * What is kept *)

Inductive item := ProductSN | ProductSecret | DeviceSN | DeviceSecret.
#[export] Instance item_eq : EqDecision item.
Proof. solve_decision. Defined.

Definition item_len (i : item) : Z :=
  match i with
  | ProductSN => IOT_PRODUCT_SN_LEN
  | ProductSecret => IOT_PRODUCT_SECRET_LEN
  | DeviceSN => IOT_DEVICE_SN_LEN
  | DeviceSecret => IOT_DEVICE_SECRET_LEN
  end.
Definition item_of (d : DeviceInfo) (i : item) : bytes :=
  match i with
  | ProductSN => sg_product_sn d
  | ProductSecret => sg_product_secret d
  | DeviceSN => sg_device_sn d
  | DeviceSecret => sg_device_secret d
  end.
Definition getter (i : item) : DeviceInfo -> bytes -> res (Z * bytes) :=
  match i with
  | ProductSN => HAL_GetProductSN
  | ProductSecret => HAL_GetProductSecret
  | DeviceSN => HAL_GetDeviceSN
  | DeviceSecret => HAL_GetDeviceSecret
  end.
Definition setter (i : item) : bytes -> DeviceInfo -> res (Z * DeviceInfo) :=
  match i with
  | ProductSN => HAL_SetProductSN
  | ProductSecret => HAL_SetProductSecret
  | DeviceSN => HAL_SetDeviceSN
  | DeviceSecret => HAL_SetDeviceSecret
  end.

(** The device knows [known i] as its item [i]. *)
Definition knows (d : DeviceInfo) (known : item -> bytes) : Prop :=
  forall i, Forall (fun c => c <> 0) (known i) /\ zlen (known i) <= item_len i /\ item_of d i = array (item_len i + 1) (known i).
(** The same with one item changed. *)
Definition learned (i : item) (text : bytes) (known : item -> bytes) : item -> bytes :=
  fun j => if decide (j = i) then text else known j.

Lemma cstr_array len text : Forall (fun c => c <> 0) text -> zlen text <= len -> cstr (array (len + 1) text) = Some text.
Proof.
  intros Ht Hl. unfold array. replace (Z.to_nat (len + 1) - length text)%nat with (S (Z.to_nat (len - zlen text))) by lia.
  by apply cstr_text.
Qed.
Lemma clear_copy_run size dst text : 0 <= size -> zlen text < size -> size <= zlen dst ->
  clear_copy size dst text = Ok (array size text ++ drop (Z.to_nat size) dst).
Proof.
  intros Hs Ht Hd. unfold clear_copy, write_at.
  rewrite decide_True by (rewrite length_replicate; lia). cbn [mbind res_bind]. rewrite length_replicate.
  change (Z.to_nat 0) with 0%nat. rewrite !take_0, !app_nil_l, !Nat.add_0_l.
  rewrite decide_True by (rewrite length_app, length_replicate, length_drop; lia).
  f_equal. unfold array. rewrite <- app_assoc. f_equal.
  rewrite drop_app_le by (rewrite length_replicate; lia). rewrite drop_replicate. f_equal; f_equal; lia.
Qed.
Lemma array_len len text : zlen text <= len -> zlen (array len text) = len.
Proof. intros Hl. unfold array. rewrite length_app, length_replicate. lia. Qed.
Lemma item_bounds i : 0 < item_len i <= 64.
Proof. by destruct i. Qed.

Lemma getter_run d known i dst : knows d known -> item_len i < zlen dst ->
  getter i d dst = Ok (SUCCESS_RET, array (item_len i + 1) (known i) ++ drop (Z.to_nat (item_len i + 1)) dst).
Proof.
  intros Hk Hd. destruct (Hk i) as (Ht & Hl & E). pose proof (item_bounds i) as Hi.
  assert (getter i d dst = get_text (item_len i) (item_of d i) dst) as -> by by destruct i.
  unfold get_text. rewrite E, cstr_array by done. by rewrite clear_copy_run by lia.
Qed.
Lemma setter_run d known i src text : knows d known -> cstr src = Some text ->
  if decide (zlen text <= item_len i)
  then exists d', setter i src d = Ok (SUCCESS_RET, d') /\ knows d' (learned i text known)
  else setter i src d = Ok (FAILURE_RET, d).
Proof.
  intros Hk Hs. pose proof (item_bounds i) as Hi. destruct (Hk i) as (_ & Hl & E).
  set (put := match i with ProductSN => set_product_sn | ProductSecret => set_product_secret
    | DeviceSN => set_device_sn | DeviceSecret => set_device_secret end).
  assert (setter i src d = set_text (item_len i) src (item_of d i) put d) as -> by by destruct i.
  unfold set_text. rewrite Hs. case_decide as Hc; [|by rewrite decide_True by lia]. rewrite decide_False by lia.
  rewrite E, clear_copy_run by (rewrite ?array_len by lia; lia). cbn [mbind res_bind].
  rewrite drop_ge, app_nil_r by (pose proof (array_len (item_len i + 1) (known i)); lia).
  eexists. split; [done|]. intros j. unfold learned. destruct (decide (j = i)) as [->|Hne].
  - apply cstr_spec in Hs as (r & _ & Hz). split_and!; [done..|]. by destruct i.
  - destruct (Hk j) as (Hz & Hlj & Ej). split_and!; [done..|]. rewrite <- Ej. subst put. by destruct i, j.
Qed.

Definition known0 (i : item) : bytes :=
  match i with
  | ProductSN => bytes_of "YOUR_PRODUCT_SN"
  | ProductSecret => bytes_of "PRODUCT_SECRET"
  | DeviceSN => bytes_of "YOUR_DEVICE_SN"
  | DeviceSecret => bytes_of "DEVICE_SECRET"
  end.
Lemma device0_knows : knows device0 known0.
Proof. intros []; split_and!; by_eval. Qed.
