(* ===== verification/MqttWire.v ===== *)
(** MQTT packets: [uiot/mqtt/src/mqtt_client_common.c] (bytes, remaining
    length, headers, acknowledgements), and the serializers and deserializers
    of [mqtt_client_publish.c], [mqtt_client_subscribe.c],
    [mqtt_client_unsubscribe.c] and [mqtt_client_connect.c].

    A pointer into a buffer is an index; reading or writing outside the buffer
    is [Oob].  The pointers the C functions check against NULL and that are
    addresses of locals or of client fields at every call are not arguments
    here; the ones a caller may leave NULL are options. *)

From S2P Require Import Prelude Defs.

(* ------------------------------------------------------------------ *)
(** ** Bytes, integers and strings *)

Definition mqtt_read_char (b : bytes) (p : Z) : res (Z * Z) :=
  c ← get_at b p; Ok (c, p + 1).

Definition mqtt_read_uint16_t (b : bytes) (p : Z) : res (Z * Z) :=
  firstByte ← get_at b p;
  secondByte ← get_at b (p + 1);
  Ok (u16 (secondByte + 256 * firstByte), p + 2).

Definition mqtt_write_char (b : bytes) (p : Z) (c : Z) : res (bytes * Z) :=
  b ← write_at b p [c]; Ok (b, p + 1).

Definition mqtt_write_uint_16 (b : bytes) (p : Z) (anInt : Z) : res (bytes * Z) :=
  b ← write_at b p [u8 (anInt `div` 256)];
  b ← write_at b (p + 1) [u8 (anInt `mod` 256)];
  Ok (b, p + 2).

Definition mqtt_write_utf8_string (b : bytes) (p : Z) (string : bytes) : res (bytes * Z) :=
  let len := zlen string in
  '(b, p) ← mqtt_write_uint_16 b p (u16 len);
  b ← write_at b p string;
  Ok (b, p + len).

(** [mqtt_write_packet_rem_len]: the loop writes at most five bytes, since
    [length] is a [uint32_t]; running out of the fuel is counted as [Oob]. *)
Fixpoint write_rem_len_loop (fuel : nat) (b : bytes) (p length outLen : Z)
  : res (bytes * Z) :=
  match fuel with
  | O => Oob
  | S fuel =>
      let encodeByte := u8 (length `mod` 128) in
      let length := length `div` 128 in
      let encodeByte := if decide (0 < length) then encodeByte ||| 0x80 else encodeByte in
      b ← write_at b (p + outLen) [encodeByte];
      let outLen := outLen + 1 in
      if decide (0 < length) then write_rem_len_loop fuel b p length outLen
      else Ok (b, outLen)
  end.

Definition mqtt_write_packet_rem_len (b : bytes) (p length : Z) : res (bytes * Z) :=
  write_rem_len_loop 5 b p (u32 length) 0.

Definition get_mqtt_packet_len (rem_len : Z) : Z :=
  let rem_len := u32 (rem_len + 1) in
  if decide (rem_len < 128) then u32 (rem_len + 1)
  else if decide (rem_len < 16384) then u32 (rem_len + 2)
  else if decide (rem_len < 2097151) then u32 (rem_len + 3)
  else u32 (rem_len + 4).

(** [bufchar]: [count] reads through the static [bufptr]; the last byte read. *)
Fixpoint bufchar_loop (b : bytes) (bufptr : Z) (c : Z) (n : nat) : res (Z * Z) :=
  match n with
  | O => Ok (c, bufptr)
  | S n => c ← get_at b bufptr; bufchar_loop b (bufptr + 1) c n
  end.

Definition bufchar (b : bytes) (bufptr : Z) (c : Z) (count : Z) : res (Z * Z * Z) :=
  '(c, bufptr) ← bufchar_loop b bufptr c (Z.to_nat count);
  Ok (c, count, bufptr).

(** [_decode_packet_rem_len_from_buf_read] with [bufchar] as its reader: [n]
    counts the bytes that may still be read before [++len] exceeds
    [MAX_NO_OF_REMAINING_LENGTH_BYTES].  Returns the value and the number of
    bytes read. *)
Fixpoint decode_rem_len_loop (n : nat) (b : bytes) (bufptr : Z)
    (value multiplier len : Z) : res (Z * Z) :=
  match n with
  | O => Err ERR_MQTT_PACKET_READ_ERROR
  | S n =>
      let len := len + 1 in
      '(c, getLen, bufptr) ← bufchar b bufptr 0 1;
      if decide (1 <> getLen) then Err FAILURE_RET
      else
        let value := u32 (value + (c &&& 127) * multiplier) in
        let multiplier := u32 (multiplier * 128) in
        if decide ((c &&& 128) <> 0) then
          decode_rem_len_loop n b bufptr value multiplier len
        else Ok (value, len)
  end.

Definition mqtt_read_packet_rem_len_form_buf (b : bytes) (p : Z) : res (Z * Z) :=
  decode_rem_len_loop MAX_NO_OF_REMAINING_LENGTH_BYTES b p 0 1 0.

Definition mqtt_init_packet_header (message_type Qos dup retained : Z) : res Z :=
  type ← (match message_type with
          | 1 => Ok 0x01 | 2 => Ok 0x02 | 3 => Ok 0x03 | 4 => Ok 0x04
          | 5 => Ok 0x05 | 6 => Ok 0x06 | 7 => Ok 0x07 | 8 => Ok 0x08
          | 9 => Ok 0x09 | 10 => Ok 0x0A | 11 => Ok 0x0B | 12 => Ok 0x0C
          | 13 => Ok 0x0D | 14 => Ok 0x0E
          | _ => Err ERR_MQTT_UNKNOWN_ERROR
          end);
  let qos := match Qos with 0 => 0x00 | 1 => 0x01 | 2 => 0x02 | _ => 0x00 end in
  Ok (((type <<< 4) &&& 0xF0) ||| ((dup <<< 3) &&& 0x08) |||
      ((qos <<< 1) &&& 0x06) ||| (retained &&& 0x01)).

Definition header_type (header : Z) : Z := (header &&& 0xF0) >>> 4.
Definition header_dup (header : Z) : Z := (header &&& 0x08) >>> 3.
Definition header_qos (header : Z) : Z := (header &&& 0x06) >>> 1.
Definition header_retained (header : Z) : Z := header &&& 0x01.

(* ------------------------------------------------------------------ *)
(** ** Packets from the server *)

(** Returns the packet type, the dup flag and the packet id. *)
Definition deserialize_ack_packet (buf : bytes) (buf_len : Z) : res (Z * Z * Z) :=
  err_if (bool_decide (4 > buf_len)) code ERR_MQTT_BUFFER_TOO_SHORT;
  '(header, curdata) ← mqtt_read_char buf 0;
  let packet_type := header_type header in
  let dup := header_dup header in
  '(decodedLen, readBytesLen) ← mqtt_read_packet_rem_len_form_buf buf curdata;
  let curdata := curdata + readBytesLen in
  let enddata := curdata + decodedLen in
  err_if (bool_decide (enddata - curdata < 2)) code FAILURE_RET;
  '(packet_id, curdata) ← mqtt_read_uint16_t buf curdata;
  if decide (enddata - curdata >= 1) then
    '(ack_code, curdata) ← mqtt_read_char buf curdata;
    err_if (bool_decide (ack_code <> 0)) code FAILURE_RET;
    Ok (packet_type, dup, packet_id)
  else Ok (packet_type, dup, packet_id).

(** [while (curdata < enddata)]: [grantedQoSs] is the caller's array.  The
    loop ends within [max_count + 2] rounds. *)
Fixpoint suback_loop (fuel : nat) (buf : bytes) (curdata enddata max_count count : Z)
    (grantedQoSs : list Z) : res (Z * list Z) :=
  match fuel with
  | O => Oob
  | S fuel =>
      if decide (curdata < enddata) then
        err_if (bool_decide (count > max_count)) code FAILURE_RET;
        '(c, curdata) ← mqtt_read_char buf curdata;
        grantedQoSs ← write_at grantedQoSs count [c];
        suback_loop fuel buf curdata enddata max_count (count + 1) grantedQoSs
      else Ok (count, grantedQoSs)
  end.

(** Returns the packet id, the count and the granted QoS array. *)
Definition deserialize_suback_packet (max_count : Z) (grantedQoSs : list Z)
    (buf : bytes) (buf_len : Z) : res (Z * Z * list Z) :=
  err_if (bool_decide (5 > buf_len)) code ERR_MQTT_BUFFER_TOO_SHORT;
  '(header, curdata) ← mqtt_read_char buf 0;
  err_if (bool_decide (header_type header <> SUBACK)) code FAILURE_RET;
  '(decodedLen, readBytesLen) ← mqtt_read_packet_rem_len_form_buf buf curdata;
  let curdata := curdata + readBytesLen in
  let enddata := curdata + decodedLen in
  err_if (bool_decide (enddata - curdata < 2)) code FAILURE_RET;
  '(packet_id, curdata) ← mqtt_read_uint16_t buf curdata;
  '(count, grantedQoSs) ←
    suback_loop (Z.to_nat max_count + 3) buf curdata enddata max_count 0 grantedQoSs;
  Ok (packet_id, count, grantedQoSs).

Definition deserialize_unsuback_packet (buf : bytes) (buf_len : Z) : res Z :=
  '(type, dup, packet_id) ← deserialize_ack_packet buf buf_len;
  err_if (bool_decide (UNSUBACK <> type)) code FAILURE_RET;
  Ok packet_id.

(** [_read_string_with_len]: the string's index and length, and the cursor
    behind it. *)
Definition _read_string_with_len (buf : bytes) (p enddata : Z) : res (Z * Z * Z) :=
  if decide (enddata - p > 1) then
    '(stringLen, p) ← mqtt_read_uint16_t buf p;
    err_if (bool_decide (stringLen > UIOT_MQTT_RX_BUF_LEN)) code FAILURE_RET;
    if decide (p + stringLen <= enddata) then Ok (p, stringLen, p + stringLen)
    else Err FAILURE_RET
  else Err FAILURE_RET.

(** What [deserialize_publish_packet] returns through its pointers:
    [pk_topic] and [pk_payload] are addresses in the packet's buffer,
    [pk_id] is left unset for QoS 0. *)
Record publish_fields := mkPublish {
  pk_dup : Z;
  pk_qos : Z;
  pk_retained : Z;
  pk_id : option Z;
  pk_topic : Z;
  pk_topic_len : Z;
  pk_payload : Z;
  pk_payload_len : Z
}.

Definition deserialize_publish_packet (buf : bytes) (buf_len : Z) : res publish_fields :=
  err_if (bool_decide (4 > buf_len)) code ERR_MQTT_BUFFER_TOO_SHORT;
  '(header, curdata) ← mqtt_read_char buf 0;
  let qos := header_qos header in
  err_if (bool_decide (PUBLISH <> header_type header)) code FAILURE_RET;
  '(decodedLen, readBytesLen) ← mqtt_read_packet_rem_len_form_buf buf curdata;
  let curdata := curdata + readBytesLen in
  let enddata := curdata + decodedLen in
  '(topicName, topicNameLen, curdata) ← _read_string_with_len buf curdata enddata;
  err_if (bool_decide (0 > enddata - curdata)) code FAILURE_RET;
  '(packet_id, curdata) ←
    (if decide (QOS0 <> qos) then
       '(i, curdata) ← mqtt_read_uint16_t buf curdata; Ok (Some i, curdata)
     else Ok (None, curdata));
  Ok (mkPublish (header_dup header) qos (header_retained header) packet_id
        topicName topicNameLen curdata (u32 (enddata - curdata))).

(** Returns the session-present flag and the code of [connack_rc]. *)
Definition _deserialize_connack_packet (buf : bytes) (buflen : Z) : res (Z * Z) :=
  err_if (bool_decide (4 > buflen)) code ERR_MQTT_BUFFER_TOO_SHORT;
  '(header, curdata) ← mqtt_read_char buf 0;
  err_if (bool_decide (CONNACK <> header_type header)) code FAILURE_RET;
  '(decodedLen, readBytesLen) ← mqtt_read_packet_rem_len_form_buf buf curdata;
  let curdata := curdata + readBytesLen in
  let enddata := curdata + decodedLen in
  err_if (bool_decide (enddata - curdata <> 2)) code FAILURE_RET;
  '(flags, curdata) ← mqtt_read_char buf curdata;
  let sessionPresent := flags &&& 0x01 in
  '(connack_rc_char, curdata) ← mqtt_read_char buf curdata;
  let connack_rc :=
    match connack_rc_char with
    | 0 => MQTT_CONNECTION_ACCEPTED
    | 1 => ERR_MQTT_CONNACK_UNACCEPTABLE_PROTOCOL_VERSION
    | 2 => ERR_MQTT_CONNACK_IDENTIFIER_REJECTED
    | 3 => ERR_MQTT_CONNACK_SERVER_UNAVAILABLE
    | 4 => ERR_MQTT_CONNACK_BAD_USERDATA
    | 5 => ERR_MQTT_CONNACK_NOT_AUTHORIZED
    | _ => ERR_MQTT_CONNACK_UNKNOWN
    end in
  Ok (sessionPresent, connack_rc).

(* ------------------------------------------------------------------ *)
(** ** Packets to the server

    Each serializer returns the buffer and [*serialized_len]. *)

Definition serialize_packet_with_zero_payload (buf : bytes) (buf_len packetType : Z)
  : res (bytes * Z) :=
  err_if (bool_decide (4 > buf_len)) code ERR_MQTT_BUFFER_TOO_SHORT;
  header ← mqtt_init_packet_header packetType QOS0 0 0;
  '(buf, ptr) ← mqtt_write_char buf 0 header;
  '(buf, n) ← mqtt_write_packet_rem_len buf ptr 0;
  Ok (buf, u32 (ptr + n)).

Definition serialize_pub_ack_packet (buf : bytes) (buf_len packet_type dup packet_id : Z)
  : res (bytes * Z) :=
  let requestQoS := if decide (PUBREL = packet_type) then QOS1 else QOS0 in
  let ret := mqtt_init_packet_header packet_type requestQoS dup 0 in
  err_if (bool_decide (4 > buf_len)) code ERR_MQTT_BUFFER_TOO_SHORT;
  header ← ret;
  '(buf, ptr) ← mqtt_write_char buf 0 header;
  '(buf, n) ← mqtt_write_packet_rem_len buf ptr 2;
  '(buf, ptr) ← mqtt_write_uint_16 buf (ptr + n) packet_id;
  Ok (buf, u32 ptr).

Definition _get_publish_packet_len (qos : Z) (topicName : bytes) (payload_len : Z) : Z :=
  let len := u32 (2 + zlen topicName + payload_len) in
  let len := if decide (qos > 0) then u32 (len + 2) else len in
  u32 len.

(** [payload] is the object the pointer leads to, or NULL. *)
Definition _serialize_publish_packet (buf : bytes) (buf_len dup qos retained packet_id : Z)
    (topicName : bytes) (payload : option bytes) (payload_len : Z) : res (bytes * Z) :=
  match payload with
  | None => Err ERR_PARAM_INVALID
  | Some payload =>
      let rem_len := _get_publish_packet_len qos topicName payload_len in
      err_if (bool_decide (get_mqtt_packet_len rem_len > buf_len))
        code ERR_MQTT_BUFFER_TOO_SHORT;
      header ← mqtt_init_packet_header PUBLISH qos dup retained;
      '(buf, ptr) ← mqtt_write_char buf 0 header;
      '(buf, n) ← mqtt_write_packet_rem_len buf ptr rem_len;
      '(buf, ptr) ← mqtt_write_utf8_string buf (ptr + n) topicName;
      '(buf, ptr) ←
        (if decide (qos > 0) then mqtt_write_uint_16 buf ptr packet_id else Ok (buf, ptr));
      data ← slice_at payload 0 payload_len;
      buf ← write_at buf ptr data;
      Ok (buf, u32 (ptr + payload_len))
  end.

(** [*topicFilters + i]: the string from its i-th character on. *)
Definition topic_from (topicFilter : bytes) (i : nat) : bytes := drop i topicFilter.

Definition _get_subscribe_packet_rem_len (count : nat) (topicFilter : bytes) : Z :=
  u32 (foldl (fun len i => u32 (len + 2 + zlen (topic_from topicFilter i) + 1)) 2 (seq 0 count)).

Fixpoint write_filters_qos (idxs : list nat) (topicFilter : bytes) (requestedQoSs : list Z)
    (b : bytes) (p : Z) : res (bytes * Z) :=
  match idxs with
  | [] => Ok (b, p)
  | i :: idxs =>
      '(b, p) ← mqtt_write_utf8_string b p (topic_from topicFilter i);
      q ← get_at requestedQoSs (Z.of_nat i);
      '(b, p) ← mqtt_write_char b p (u8 q);
      write_filters_qos idxs topicFilter requestedQoSs b p
  end.

Definition _serialize_subscribe_packet (buf : bytes) (buf_len dup packet_id : Z)
    (count : nat) (topicFilter : bytes) (requestedQoSs : list Z) : res (bytes * Z) :=
  let rem_len := _get_subscribe_packet_rem_len count topicFilter in
  err_if (bool_decide (get_mqtt_packet_len rem_len > buf_len))
    code ERR_MQTT_BUFFER_TOO_SHORT;
  header ← mqtt_init_packet_header SUBSCRIBE QOS1 dup 0;
  '(buf, ptr) ← mqtt_write_char buf 0 header;
  '(buf, n) ← mqtt_write_packet_rem_len buf ptr rem_len;
  '(buf, ptr) ← mqtt_write_uint_16 buf (ptr + n) packet_id;
  '(buf, ptr) ← write_filters_qos (seq 0 count) topicFilter requestedQoSs buf ptr;
  Ok (buf, u32 ptr).

Definition _get_unsubscribe_packet_rem_len (count : nat) (topicFilter : bytes) : Z :=
  u32 (foldl (fun len i => u32 (len + 2 + zlen (topic_from topicFilter i))) 2 (seq 0 count)).

Fixpoint write_filters (idxs : list nat) (topicFilter : bytes) (b : bytes) (p : Z)
  : res (bytes * Z) :=
  match idxs with
  | [] => Ok (b, p)
  | i :: idxs =>
      '(b, p) ← mqtt_write_utf8_string b p (topic_from topicFilter i);
      write_filters idxs topicFilter b p
  end.

Definition _serialize_unsubscribe_packet (buf : bytes) (buf_len dup packet_id : Z)
    (count : nat) (topicFilter : bytes) : res (bytes * Z) :=
  let rem_len := _get_unsubscribe_packet_rem_len count topicFilter in
  err_if (bool_decide (get_mqtt_packet_len rem_len > buf_len))
    code ERR_MQTT_BUFFER_TOO_SHORT;
  header ← mqtt_init_packet_header UNSUBSCRIBE QOS1 dup 0;
  '(buf, ptr) ← mqtt_write_char buf 0 header;
  '(buf, n) ← mqtt_write_packet_rem_len buf ptr rem_len;
  '(buf, ptr) ← mqtt_write_uint_16 buf (ptr + n) packet_id;
  '(buf, ptr) ← write_filters (seq 0 count) topicFilter buf ptr;
  Ok (buf, u32 ptr).

(** [MQTTConnectParams]; the strings may be NULL. *)
Record MQTTConnectParams := mkConnectParams {
  client_id : option bytes;
  username : option bytes;
  password : option bytes;
  mqtt_version : Z;
  keep_alive_interval : Z;
  clean_session : Z;
  auto_connect_enable : Z
}.

Definition _get_packet_connect_rem_len (options : MQTTConnectParams) (client_id : bytes) : Z :=
  let len := if decide (3 = mqtt_version options) then 12
             else if decide (4 = mqtt_version options) then 10 else 0 in
  let len := u32 (len + zlen client_id + 2) in
  let len := match username options with Some s => u32 (len + zlen s + 2) | None => len end in
  let len := match password options with Some s => u32 (len + zlen s + 2) | None => len end in
  u32 len.

Definition _serialize_connect_packet (buf : bytes) (buf_len : Z) (options : MQTTConnectParams)
  : res (bytes * Z) :=
  match client_id options with
  | None => Err ERR_PARAM_INVALID
  | Some cid =>
      err_if (bool_decide (0 = zlen cid)) code ERR_PARAM_INVALID;
      let rem_len := _get_packet_connect_rem_len options cid in
      err_if (bool_decide (get_mqtt_packet_len rem_len > buf_len))
        code ERR_MQTT_BUFFER_TOO_SHORT;
      header ← mqtt_init_packet_header CONNECT QOS0 0 0;
      '(buf, ptr) ← mqtt_write_char buf 0 header;
      '(buf, n) ← mqtt_write_packet_rem_len buf ptr rem_len;
      let ptr := ptr + n in
      '(buf, ptr) ←
        (if decide (4 = mqtt_version options) then
           '(buf, ptr) ← mqtt_write_utf8_string buf ptr (bytes_of "MQTT");
           mqtt_write_char buf ptr 4
         else
           '(buf, ptr) ← mqtt_write_utf8_string buf ptr (bytes_of "MQIsdp");
           mqtt_write_char buf ptr 3);
      let flags := 0 in
      let flags := flags ||| (if decide (clean_session options <> 0) then 0x02 else 0) in
      let flags := flags ||| (match username options with Some _ => 0x80 | None => 0 end) in
      let flags := flags ||| 0x40 in
      '(buf, ptr) ← mqtt_write_char buf ptr flags;
      '(buf, ptr) ← mqtt_write_uint_16 buf ptr (keep_alive_interval options);
      '(buf, ptr) ← mqtt_write_utf8_string buf ptr cid;
      '(buf, ptr) ←
        (match username options with
         | Some s => if decide ((flags &&& 0x80) <> 0) then mqtt_write_utf8_string buf ptr s
                     else Ok (buf, ptr)
         | None => Ok (buf, ptr)
         end);
      '(buf, ptr) ←
        (match password options with
         | Some s => if decide ((flags &&& 0x40) <> 0) then mqtt_write_utf8_string buf ptr s
                     else Ok (buf, ptr)
         | None => Ok (buf, ptr)
         end);
      Ok (buf, u32 ptr)
  end.

(* ================================================================== *)
(** ** The packet formats of MQTT 3.1.1 *)

Module Spec.

Definition be16 (n : Z) : bytes := [n `div` 256; n `mod` 256].
Definition utf8 (s : bytes) : bytes := be16 (zlen s) ++ s.

(** Remaining length: seven bits a byte, least significant first. *)
Definition rem_len (x : Z) : bytes :=
  if decide (x < 128) then [x]
  else if decide (x < 16384) then [x `mod` 128 + 128; x `div` 128]
  else if decide (x < 2097152) then
    [x `mod` 128 + 128; (x `div` 128) `mod` 128 + 128; x `div` 16384]
  else if decide (x < 268435456) then
    [x `mod` 128 + 128; (x `div` 128) `mod` 128 + 128; (x `div` 16384) `mod` 128 + 128;
     x `div` 2097152]
  else
    [x `mod` 128 + 128; (x `div` 128) `mod` 128 + 128; (x `div` 16384) `mod` 128 + 128;
     (x `div` 2097152) `mod` 128 + 128; x `div` 268435456].

Definition first_byte (type dup qos retained : Z) : Z :=
  type * 16 + dup * 8 + qos * 2 + retained.

Definition packet (first : Z) (body : bytes) : bytes :=
  first :: rem_len (zlen body) ++ body.

Definition publish_body (qos id : Z) (topic payload : bytes) : bytes :=
  utf8 topic ++ (if decide (qos > 0) then be16 id else []) ++ payload.
Definition publish (dup qos retained id : Z) (topic payload : bytes) : bytes :=
  packet (first_byte 3 dup qos retained) (publish_body qos id topic payload).
Definition ack (type dup qos id : Z) : bytes := packet (first_byte type dup qos 0) (be16 id).
Definition subscribe (dup id : Z) (topic : bytes) (qos : Z) : bytes :=
  packet (first_byte 8 dup 1 0) (be16 id ++ utf8 topic ++ [qos]).
Definition unsubscribe (dup id : Z) (topic : bytes) : bytes :=
  packet (first_byte 10 dup 1 0) (be16 id ++ utf8 topic).
Definition empty (type : Z) : bytes := packet (first_byte type 0 0 0) [].

Definition opt_utf8 (s : option bytes) : bytes :=
  match s with Some s => utf8 s | None => [] end.
Definition flag (s : option bytes) (v : Z) : Z := match s with Some _ => v | None => 0 end.
(** CONNECT of protocol level 4. *)
Definition connect (clean : bool) (keep_alive : Z) (cid : bytes) (user pass : option bytes)
  : bytes :=
  packet (first_byte 1 0 0 0)
    (utf8 (bytes_of "MQTT") ++ [4] ++
     [flag user 128 + flag pass 64 + (if clean then 2 else 0)] ++
     be16 keep_alive ++ utf8 cid ++ opt_utf8 user ++ opt_utf8 pass).

End Spec.

(* ================================================================== *)
(** ** Writing *)

(** The buffer [b] after [s] was written at its start. *)
Definition wr (b s : bytes) : bytes := s ++ drop (length s) b.

Lemma wr_nil b : wr b [] = b.
Proof. done. Qed.
Lemma wr_len b s : zlen s <= zlen b -> zlen (wr b s) = zlen b.
Proof. intros. unfold wr. rewrite length_app, length_drop. lia. Qed.

Lemma write_next b s p t :
  p = zlen s -> zlen s + zlen t <= zlen b ->
  write_at (wr b s) p t = Ok (wr b (s ++ t)).
Proof.
  intros -> Hl. apply write_at_ok. split; [lia|]. split; [rewrite wr_len; lia|].
  unfold wr. rewrite Nat2Z.id, take_app_length, length_app.
  rewrite drop_app_ge by lia. rewrite drop_drop, <- app_assoc. do 2 f_equal. f_equal. lia.
Qed.

Lemma write_char_wr b s p c :
  p = zlen s -> zlen s + 1 <= zlen b ->
  mqtt_write_char (wr b s) p c = Ok (wr b (s ++ [c]), zlen (s ++ [c])).
Proof.
  intros -> Hl. unfold mqtt_write_char. rewrite write_next by (cbn; lia). cbn.
  do 2 f_equal. rewrite length_app. cbn. lia.
Qed.

Lemma write_uint_16_wr b s p n :
  p = zlen s -> 0 <= n < 65536 -> zlen s + 2 <= zlen b ->
  mqtt_write_uint_16 (wr b s) p n = Ok (wr b (s ++ Spec.be16 n), zlen (s ++ Spec.be16 n)).
Proof.
  intros -> Hn Hl. unfold mqtt_write_uint_16.
  rewrite !u8_small by zmod. rewrite write_next by (cbn; lia). cbn [mbind res_bind].
  rewrite write_next by (rewrite ?length_app; cbn; lia). cbn [mbind res_bind].
  rewrite <- app_assoc. do 2 f_equal. rewrite length_app. cbn. lia.
Qed.

Lemma write_utf8_wr b s p t :
  p = zlen s -> zlen t < 65536 -> zlen s + 2 + zlen t <= zlen b ->
  mqtt_write_utf8_string (wr b s) p t = Ok (wr b (s ++ Spec.utf8 t), zlen (s ++ Spec.utf8 t)).
Proof.
  intros -> Hn Hl. unfold mqtt_write_utf8_string. rewrite u16_small by lia.
  rewrite write_uint_16_wr by lia. cbn [mbind res_bind].
  rewrite write_next by (rewrite ?length_app; cbn; lia). cbn [mbind res_bind].
  unfold Spec.utf8. rewrite <- app_assoc. do 2 f_equal. rewrite !length_app. cbn. lia.
Qed.

(** The bytes [write_rem_len_loop] writes for [x]. *)
Fixpoint rem_bytes (fuel : nat) (x : Z) : bytes :=
  match fuel with
  | O => []
  | S fuel => if decide (0 < x `div` 128) then (x `mod` 128 + 128) :: rem_bytes fuel (x `div` 128)
              else [x `mod` 128]
  end.

Lemma lor_128 c : 0 <= c < 128 -> c ||| 128 = c + 128.
Proof.
  intros Hc. rewrite <- Z.add_lor_land. replace (c &&& 128) with 0; [lia|].
  assert (H : forall b, byte b -> (if b <? 128 then b &&& 128 =? 0 else true) = true) by byte_decide.
  specialize (H c). destruct (Z.ltb_spec c 128); [|lia].
  symmetry. apply Z.eqb_eq, H. unfold byte. lia.
Qed.

Lemma write_rem_len_loop_wr fuel b p s x n :
  (0 < fuel)%nat -> 0 <= x < 128 ^ Z.of_nat fuel -> zlen s = p + n -> zlen s + zlen (rem_bytes fuel x) <= zlen b ->
  write_rem_len_loop fuel (wr b s) p x n =
    Ok (wr b (s ++ rem_bytes fuel x), n + zlen (rem_bytes fuel x)).
Proof.
  revert s x n. induction fuel as [|fuel IH]; intros s x n Hf Hx Hs Hl; [lia|].
  rewrite Nat2Z.inj_succ, Z.pow_succ_r in Hx by lia.
  cbn [write_rem_len_loop rem_bytes] in *. rewrite u8_small by zmod.
  destruct (decide (0 < x `div` 128)) as [Hd|Hd].
  - rewrite lor_128 by zmod. cbn [length] in Hl. rewrite write_next by (cbn; lia).
    cbn [mbind res_bind].
    rewrite IH; [|destruct fuel; [change (128 ^ Z.of_nat 0) with 1 in Hx; zmod|lia]|zmod
      |rewrite length_app; cbn; lia|rewrite length_app; cbn; lia].
    rewrite <- app_assoc. do 2 f_equal. cbn. lia.
  - rewrite write_next by (cbn in *; lia). cbn [mbind res_bind]. do 2 f_equal.
Qed.

Lemma rem_bytes_spec x : 0 <= x < 4294967296 -> rem_bytes 5 x = Spec.rem_len x.
Proof.
  intros Hx. unfold Spec.rem_len. cbn [rem_bytes].
  replace ((x `div` 128) `div` 128) with (x `div` 16384) by (rewrite Zdiv_Zdiv; lia || done).
  replace ((x `div` 16384) `div` 128) with (x `div` 2097152) by (rewrite Zdiv_Zdiv; lia || done).
  replace ((x `div` 2097152) `div` 128) with (x `div` 268435456) by (rewrite Zdiv_Zdiv; lia || done).
  replace ((x `div` 268435456) `div` 128) with 0 by zmod.
  repeat case_decide; try zmod; repeat f_equal; zmod.
Qed.

Lemma rem_len_len x : 0 <= x -> 1 <= zlen (Spec.rem_len x) <= 5.
Proof. intros. unfold Spec.rem_len. repeat case_decide; cbn; lia. Qed.

Lemma write_rem_len_wr b s p x :
  p = zlen s -> 0 <= x < 4294967296 -> zlen s + zlen (Spec.rem_len x) <= zlen b ->
  mqtt_write_packet_rem_len (wr b s) p x =
    Ok (wr b (s ++ Spec.rem_len x), zlen (Spec.rem_len x)).
Proof.
  intros -> Hx Hl. unfold mqtt_write_packet_rem_len. rewrite u32_small by lia.
  rewrite <- (rem_bytes_spec x) in * by lia.
  apply (write_rem_len_loop_wr 5 b (zlen s) s x 0); lia.
Qed.

(** Room: [get_mqtt_packet_len] never underestimates the packet, and
    overestimates it by at most one byte. *)
Lemma get_mqtt_packet_len_bounds x :
  0 <= x < 4294967290 ->
  1 + zlen (Spec.rem_len x) + x <= get_mqtt_packet_len x + (if decide (x < 268435456) then 0 else 1)
  /\ get_mqtt_packet_len x <= 2 + zlen (Spec.rem_len x) + x.
Proof.
  intros Hx. unfold get_mqtt_packet_len, Spec.rem_len. rewrite (u32_small (x + 1)) by lia.
  rewrite !u32_small by lia. repeat case_decide; cbn; lia.
Qed.

(** The header byte: fields that do not fit their bits are reduced. *)
Lemma init_header_bits type qos d r :
  1 <= type <= 14 -> 0 <= qos <= 2 -> 0 <= d < 2 -> 0 <= r < 2 ->
  mqtt_init_packet_header type qos d r = Ok (Spec.first_byte type d qos r).
Proof.
  intros Ht Hq Hd Hr.
  assert (H : forallb (fun t => forallb (fun q => forallb (fun d => forallb (fun r =>
    bool_decide (mqtt_init_packet_header t q d r = Ok (Spec.first_byte t d q r)))
    [0; 1]) [0; 1]) [0; 1; 2]) (Z.of_nat <$> seq 1 14) = true) by (vm_compute; reflexivity).
  assert (Hs : forall (f : Z -> bool) l x, forallb f l = true -> In x l -> f x = true).
  { intros f l x Hf. by apply forallb_forall. }
  apply (Hs _ _ type) in H;
    [|apply list_elem_of_In, list_elem_of_fmap; exists (Z.to_nat type); rewrite elem_of_seq; lia].
  apply (Hs _ _ qos) in H; [|cbn; lia].
  apply (Hs _ _ d) in H; [|cbn; lia].
  apply (Hs _ _ r) in H; [|cbn; lia].
  by apply bool_decide_eq_true in H.
Qed.

Lemma init_header_mod type qos dup retained :
  byte dup -> byte retained ->
  mqtt_init_packet_header type qos dup retained =
  mqtt_init_packet_header type qos (dup `mod` 2) (retained `mod` 2).
Proof.
  intros Hd Hr. unfold mqtt_init_packet_header.
  assert (H1 : forall b, byte b ->
    ((b <<< 3) &&& 8 =? ((b `mod` 2) <<< 3) &&& 8) && ((b &&& 1) =? ((b `mod` 2) &&& 1)) = true)
    by byte_decide.
  pose proof (H1 _ Hd) as [Hd1 _]%andb_prop. pose proof (H1 _ Hr) as [_ Hr1]%andb_prop.
  apply Z.eqb_eq in Hd1, Hr1. by rewrite Hd1, Hr1.
Qed.

Lemma init_header type qos dup retained :
  1 <= type <= 14 -> 0 <= qos <= 2 -> byte dup -> byte retained ->
  mqtt_init_packet_header type qos dup retained =
    Ok (Spec.first_byte type (dup `mod` 2) qos (retained `mod` 2)).
Proof. intros. rewrite init_header_mod by done. apply init_header_bits; zmod. Qed.

(** Buffer sizes are far below the 2^28 of the remaining length's format. *)
Lemma packet_len first (body : bytes) :
  zlen (Spec.packet first body) = 1 + zlen (Spec.rem_len (zlen body)) + zlen body.
Proof. unfold Spec.packet. cbn. rewrite length_app. lia. Qed.

Lemma packet_fits (b : bytes) buf_len (body : bytes) first :
  buf_len <= zlen b -> zlen b < 268435456 -> zlen body < 4294967290 ->
  get_mqtt_packet_len (zlen body) <= buf_len ->
  zlen (Spec.packet first body) <= zlen b.
Proof.
  intros. rewrite packet_len. pose proof (get_mqtt_packet_len_bounds (zlen body)).
  case_decide; lia.
Qed.

(** The fixed header of a packet whose body is still to be written. *)
Lemma head_wr (b : bytes) first (body : bytes) :
  zlen (Spec.packet first body) <= zlen b -> zlen body < 4294967296 ->
  mqtt_write_char b 0 first = Ok (wr b [first], 1) /\
  mqtt_write_packet_rem_len (wr b [first]) 1 (zlen body) =
    Ok (wr b (first :: Spec.rem_len (zlen body)), zlen (Spec.rem_len (zlen body))).
Proof.
  intros Hl Hb. rewrite packet_len in Hl. pose proof (rem_len_len (zlen body)). split.
  - rewrite <- (wr_nil b) at 1. rewrite write_char_wr by (cbn; lia). done.
  - rewrite write_rem_len_wr by (cbn in *; lia). done.
Qed.

Lemma utf8_len s : zlen (Spec.utf8 s) = 2 + zlen s.
Proof. unfold Spec.utf8. rewrite length_app. cbn. lia. Qed.

Lemma publish_body_len qos id (topic payload : bytes) :
  zlen (Spec.publish_body qos id topic payload) =
  2 + zlen topic + (if decide (qos > 0) then 2 else 0) + zlen payload.
Proof.
  unfold Spec.publish_body. rewrite !length_app. pose proof (utf8_len topic).
  case_decide; cbn [length Spec.be16] in *; lia.
Qed.

Lemma get_publish_packet_len_eq qos id (topic data : bytes) :
  2 + zlen topic + 2 + zlen data < 4294967290 ->
  _get_publish_packet_len qos topic (zlen data) = zlen (Spec.publish_body qos id topic data).
Proof.
  intros H. rewrite publish_body_len. unfold _get_publish_packet_len.
  case_decide; unwrap; lia.
Qed.

Lemma serialize_publish_spec (buf : bytes) buf_len dup qos retained id
    (topic payload data : bytes) :
  buf_len <= zlen buf -> zlen buf < 268435456 ->
  0 <= qos <= 2 -> byte dup -> byte retained -> 0 <= id < 65536 ->
  2 + zlen topic + 2 + zlen data < 4294967290 -> zlen topic < 65536 ->
  take (length data) payload = data ->
  _serialize_publish_packet buf buf_len dup qos retained id topic (Some payload) (zlen data) =
  let pkt := Spec.publish (dup `mod` 2) qos (retained `mod` 2) id topic data in
  let est := get_mqtt_packet_len (zlen (Spec.publish_body qos id topic data)) in
  if decide (est > buf_len) then Err ERR_MQTT_BUFFER_TOO_SHORT
  else Ok (wr buf pkt, zlen pkt).
Proof.
  intros Hbl Hb Hq Hd Hr Hid Hsz Ht Hdata.
  unfold _serialize_publish_packet, guard_err.
  pose proof (publish_body_len qos id topic data) as Hlen.
  rewrite (get_publish_packet_len_eq qos id topic data) by lia.
  set (body := Spec.publish_body qos id topic data) in *.
  case_bool_decide as Hest; [by rewrite decide_True|]. rewrite decide_False by done.
  rewrite init_header by done. cbn [mbind res_bind]. change PUBLISH with 3.
  set (first := Spec.first_byte 3 (dup `mod` 2) qos (retained `mod` 2)).
  assert (Hfit : zlen (Spec.packet first body) <= zlen buf)
    by (eapply packet_fits; [done|done|rewrite Hlen; case_decide; lia|lia]).
  destruct (head_wr buf first body Hfit) as [-> Hrem]; [rewrite Hlen; case_decide; lia|].
  cbn [mbind res_bind]. rewrite Hrem. cbn [mbind res_bind].
  rewrite packet_len in Hfit.
  set (hd := first :: Spec.rem_len (zlen body)) in *.
  assert (Hhd : zlen hd = 1 + zlen (Spec.rem_len (zlen body))) by (unfold hd; cbn; lia).
  pose proof (utf8_len topic).
  rewrite write_utf8_wr by (case_decide; lia). cbn [mbind res_bind].
  assert (Hp : slice_at payload 0 (zlen data) = Ok data).
  { apply slice_at_ok. assert (zlen data <= zlen payload).
    { rewrite <- Hdata, length_take. lia. } rewrite Nat2Z.id, drop_0. split_and!; done || lia. }
  assert (Hpk : Spec.publish (dup `mod` 2) qos (retained `mod` 2) id topic data = hd ++ body)
    by done.
  rewrite Hpk. unfold body at 2, Spec.publish_body. clear Hpk.
  assert (Hlp : zlen (hd ++ body) < 4294967296) by (rewrite length_app; lia).
  case_decide as Hq0.
  - rewrite write_uint_16_wr by (rewrite ?length_app; lia). cbn [mbind res_bind].
    rewrite Hp. cbn [mbind res_bind].
    rewrite write_next by (try done; rewrite ?length_app; cbn [length Spec.be16]; lia).
    cbn [mbind res_bind]. unfold body, Spec.publish_body in *. rewrite decide_True in * by done.
    rewrite <- !app_assoc. do 2 f_equal.
    rewrite !length_app in *. rewrite u32_small; lia.
  - cbn [mbind res_bind]. rewrite Hp. cbn [mbind res_bind].
    rewrite write_next by (try done; rewrite ?length_app; lia).
    cbn [mbind res_bind]. unfold body, Spec.publish_body in *. rewrite decide_False in * by done.
    rewrite <- !app_assoc. do 2 f_equal.
    rewrite !length_app in *. rewrite u32_small; lia.
Qed.

(** Chain the writes of a serializer: each goes behind the ones before it. *)
Lemma utf8_length s : length (Spec.utf8 s) = (2 + length s)%nat.
Proof. pose proof (utf8_len s). lia. Qed.
Lemma be16_length n : length (Spec.be16 n) = 2%nat.
Proof. done. Qed.

Create Rewrite HintDb wire_len.
#[export] Hint Rewrite @length_app utf8_length be16_length @length_cons @length_nil : wire_len.
Ltac wlen := autorewrite with wire_len in *; lia.
Ltac wr_step :=
  first
  [ rewrite write_char_wr by wlen
  | rewrite write_utf8_wr by wlen
  | rewrite write_uint_16_wr by wlen
  | rewrite write_next by wlen ]; cbn [mbind res_bind].
Ltac wr_head Hfit :=
  let H := fresh in
  destruct (head_wr _ _ _ Hfit) as [-> H]; [wlen|]; cbn [mbind res_bind];
  rewrite H; clear H; cbn [mbind res_bind].

Lemma serialize_empty_spec (buf : bytes) buf_len type :
  4 <= buf_len <= zlen buf -> 1 <= type <= 14 ->
  serialize_packet_with_zero_payload buf buf_len type = Ok (wr buf (Spec.empty type), 2).
Proof.
  intros Hb Ht. unfold serialize_packet_with_zero_payload, guard_err, QOS0.
  rewrite bool_decide_false by lia. rewrite init_header by (done || lia).
  cbn [mbind res_bind]. change (0 `mod` 2) with 0.
  assert (Hfit : zlen (Spec.packet (Spec.first_byte type 0 0 0) []) <= zlen buf)
    by (rewrite packet_len; change (Spec.rem_len (zlen [])) with [0]; cbn; lia).
  destruct (head_wr _ _ _ Hfit) as [-> H]; [cbn [length Spec.be16]; lia|]. cbn [mbind res_bind].
  change (zlen []) with 0 in H. rewrite H. cbn [mbind res_bind].
  unfold Spec.empty, Spec.packet. by rewrite app_nil_r.
Qed.

Lemma serialize_pub_ack_spec (buf : bytes) buf_len type dup id :
  4 <= buf_len <= zlen buf -> 1 <= type <= 14 -> byte dup -> 0 <= id < 65536 ->
  serialize_pub_ack_packet buf buf_len type dup id =
  Ok (wr buf (Spec.ack type (dup `mod` 2) (if decide (PUBREL = type) then 1 else 0) id), 4).
Proof.
  intros Hb Ht Hd Hid. unfold serialize_pub_ack_packet, guard_err.
  rewrite bool_decide_false by lia.
  rewrite init_header by (try done; case_decide; done || lia). cbn [mbind res_bind].
  set (first := Spec.first_byte _ _ _ _).
  replace (if decide (PUBREL = type) then QOS1 else QOS0)
    with (if decide (PUBREL = type) then 1 else 0) in first by done.
  assert (Hfit : zlen (Spec.packet first (Spec.be16 id)) <= zlen buf)
    by (rewrite packet_len; change (Spec.rem_len (zlen (Spec.be16 id))) with [2]; cbn; lia).
  destruct (head_wr _ _ _ Hfit) as [-> H]; [cbn [length Spec.be16]; lia|]. cbn [mbind res_bind].
  change (zlen (Spec.be16 id)) with 2 in H. change (Spec.rem_len 2) with [2] in H. rewrite H. cbn [mbind res_bind].
  rewrite write_uint_16_wr by (cbn; lia). done.
Qed.

(** The client's acknowledgements (PUBACK, PUBREC, PUBREL, PUBCOMP) and
    its empty packets (PINGREQ, DISCONNECT) are the four and two bytes MQTT
    prescribes, PUBREL alone with the reserved QoS bits 01; with less than
    four bytes of buffer the serializers refuse and write nothing. *)
Lemma serialize_control_spec (buf : bytes) buf_len type dup id :
  buf_len <= zlen buf -> 1 <= type <= 14 -> byte dup -> 0 <= id < 65536 ->
  serialize_packet_with_zero_payload buf buf_len type =
    (if decide (buf_len < 4) then Err ERR_MQTT_BUFFER_TOO_SHORT
     else Ok (wr buf (Spec.empty type), 2)) /\
  serialize_pub_ack_packet buf buf_len type dup id =
    (if decide (buf_len < 4) then Err ERR_MQTT_BUFFER_TOO_SHORT
     else Ok (wr buf (Spec.ack type (dup `mod` 2) (if decide (PUBREL = type) then 1 else 0) id), 4)).
Proof.
  intros Hb Ht Hd Hid. split; destruct (decide (buf_len < 4)).
  - unfold serialize_packet_with_zero_payload, guard_err. by rewrite bool_decide_true by lia.
  - apply serialize_empty_spec; lia.
  - unfold serialize_pub_ack_packet, guard_err. by rewrite bool_decide_true by lia.
  - apply serialize_pub_ack_spec; done || lia.
Qed.

Lemma serialize_subscribe_spec (buf : bytes) buf_len dup id (topic : bytes) qos :
  buf_len <= zlen buf -> zlen buf < 65536 -> byte dup -> 0 <= id < 65536 -> byte qos ->
  zlen topic < 2147483648 ->
  _serialize_subscribe_packet buf buf_len dup id 1 topic [qos] =
    (if decide (get_mqtt_packet_len (5 + zlen topic) > buf_len)
     then Err ERR_MQTT_BUFFER_TOO_SHORT
     else let pkt := Spec.subscribe (dup `mod` 2) id topic qos in Ok (wr buf pkt, zlen pkt)) /\
  _serialize_unsubscribe_packet buf buf_len dup id 1 topic =
    (if decide (get_mqtt_packet_len (4 + zlen topic) > buf_len)
     then Err ERR_MQTT_BUFFER_TOO_SHORT
     else let pkt := Spec.unsubscribe (dup `mod` 2) id topic in Ok (wr buf pkt, zlen pkt)).
Proof.
  intros Hbl Hb Hd Hid Hq Ht. split.
  - unfold _serialize_subscribe_packet, _get_subscribe_packet_rem_len, guard_err, topic_from.
    cbn [seq foldl]. rewrite drop_0. set (body := Spec.be16 id ++ Spec.utf8 topic ++ [qos]).
    assert (Hbody : zlen body = 5 + zlen topic) by (unfold body; wlen).
    replace (u32 _) with (5 + zlen topic) by (unwrap; lia).
    case_decide as Hest; [by rewrite bool_decide_true|]. rewrite bool_decide_false by done.
    rewrite init_header by done. cbn [mbind res_bind]. rewrite <- Hbody in *.
    set (first := Spec.first_byte _ _ _ _).
    assert (Hfit : zlen (Spec.packet first body) <= zlen buf)
      by (eapply packet_fits; [exact Hbl|lia..]).
    wr_head Hfit. rewrite packet_len in Hfit.
    wr_step. cbn [write_filters_qos]. unfold topic_from. rewrite drop_0. wr_step.
    change (get_at [qos] (Z.of_nat 0)) with (Ok qos). cbn [mbind res_bind].
    rewrite u8_small by done. wr_step.
    replace ((((first :: Spec.rem_len (zlen body)) ++ Spec.be16 id) ++ Spec.utf8 topic) ++ [qos])
      with (Spec.packet first body)
      by (unfold Spec.packet, body; cbn [app]; by rewrite <- !app_assoc).
    rewrite u32_small by (rewrite packet_len; lia). done.
  - unfold _serialize_unsubscribe_packet, _get_unsubscribe_packet_rem_len, guard_err, topic_from.
    cbn [seq foldl]. rewrite drop_0. set (body := Spec.be16 id ++ Spec.utf8 topic).
    assert (Hbody : zlen body = 4 + zlen topic) by (unfold body; wlen).
    replace (u32 _) with (4 + zlen topic) by (unwrap; lia).
    case_decide as Hest; [by rewrite bool_decide_true|]. rewrite bool_decide_false by done.
    rewrite init_header by done. cbn [mbind res_bind]. rewrite <- Hbody in *.
    set (first := Spec.first_byte _ _ _ _).
    assert (Hfit : zlen (Spec.packet first body) <= zlen buf)
      by (eapply packet_fits; [exact Hbl|lia..]).
    wr_head Hfit. rewrite packet_len in Hfit.
    wr_step. cbn [write_filters]. unfold topic_from. rewrite drop_0. wr_step.
    replace (((first :: Spec.rem_len (zlen body)) ++ Spec.be16 id) ++ Spec.utf8 topic)
      with (Spec.packet first body)
      by (unfold Spec.packet, body; cbn [app]; by rewrite <- !app_assoc).
    rewrite u32_small by (rewrite packet_len; lia). done.
Qed.

Definition olen (s : option bytes) : Z := match s with Some s => zlen s | None => 0 end.
Definition connect_body (o : MQTTConnectParams) (cid : bytes) : bytes :=
  Spec.utf8 (bytes_of "MQTT") ++ [4] ++
  [Spec.flag (username o) 128 + 64 + (if decide (clean_session o <> 0) then 2 else 0)] ++
  Spec.be16 (keep_alive_interval o) ++ Spec.utf8 cid ++
  Spec.opt_utf8 (username o) ++ Spec.opt_utf8 (password o).

Lemma opt_utf8_length s :
  zlen (Spec.opt_utf8 s) = match s with Some s => zlen s + 2 | None => 0 end.
Proof. destruct s; cbn [Spec.opt_utf8]; [rewrite utf8_length; lia|done]. Qed.

Lemma connect_body_len o cid :
  zlen (connect_body o cid) = 10 + zlen cid + 2 +
    zlen (Spec.opt_utf8 (username o)) + zlen (Spec.opt_utf8 (password o)).
Proof. unfold connect_body. rewrite !length_app, !utf8_length. cbn [length Spec.be16]. cbn. lia. Qed.

Lemma connect_rem_len_eq o cid :
  mqtt_version o = 4 -> zlen cid < 65536 -> olen (username o) < 65536 -> olen (password o) < 65536 ->
  _get_packet_connect_rem_len o cid = zlen (connect_body o cid).
Proof.
  intros Hv Hc Hu Hp. rewrite connect_body_len, !opt_utf8_length.
  unfold _get_packet_connect_rem_len. rewrite Hv. rewrite decide_False, decide_True by lia.
  destruct (username o), (password o); cbn [olen] in *; unwrap; lia.
Qed.

(** An optional string field, at the end of the packet. *)
Lemma write_opt_wr (b s : bytes) p (o : option bytes) (P : Prop) `{!Decision P} :
  p = zlen s -> olen o < 65536 -> zlen s + zlen (Spec.opt_utf8 o) <= zlen b -> (o <> None -> P) ->
  (match o with
   | Some t => if decide P then mqtt_write_utf8_string (wr b s) p t else Ok (wr b s, p)
   | None => Ok (wr b s, p)
   end) = Ok (wr b (s ++ Spec.opt_utf8 o), zlen (s ++ Spec.opt_utf8 o)).
Proof.
  intros -> Hl Hf Hc. rewrite opt_utf8_length in Hf. destruct o as [t|]; cbn [olen Spec.opt_utf8] in *.
  - rewrite decide_True by (by apply Hc). apply write_utf8_wr; lia.
  - by rewrite app_nil_r.
Qed.

Lemma serialize_connect_spec (buf : bytes) buf_len o cid :
  buf_len <= zlen buf -> zlen buf < 65536 ->
  client_id o = Some cid -> 0 < zlen cid < 65536 -> mqtt_version o = 4 ->
  olen (username o) < 65536 -> olen (password o) < 65536 ->
  0 <= keep_alive_interval o < 65536 ->
  _serialize_connect_packet buf buf_len o =
  let body := connect_body o cid in
  if decide (get_mqtt_packet_len (zlen body) > buf_len) then Err ERR_MQTT_BUFFER_TOO_SHORT
  else let pkt := Spec.packet (Spec.first_byte 1 0 0 0) body in
       Ok (wr buf pkt, zlen pkt).
Proof.
  intros Hbl Hb Hcid Hc Hv Hu Hp Hk. unfold _serialize_connect_packet, guard_err.
  rewrite Hcid. rewrite (bool_decide_false (0 = zlen cid)) by lia. rewrite connect_rem_len_eq by (done || lia).
  set (body := connect_body o cid). cbn zeta.
  destruct (decide (get_mqtt_packet_len (zlen body) > buf_len)) as [Hest|Hest]; [by rewrite bool_decide_true|]. rewrite bool_decide_false by done.
  rewrite init_header by done. cbn [mbind res_bind].
  set (first := Spec.first_byte _ _ _ _). pose proof (connect_body_len o cid) as Hlen.
  rewrite !opt_utf8_length in Hlen. fold body in Hlen.
  assert (zlen body < 4294967290).
  { rewrite Hlen. destruct (username o), (password o); cbn [olen] in *; lia. }
  assert (Hfit : zlen (Spec.packet first body) <= zlen buf)
    by (eapply packet_fits; [exact Hbl|lia..]).
  wr_head Hfit. rewrite packet_len in Hfit. rewrite Hv. destruct (decide (4 = 4)) as [_|]; [|done].
  rewrite <- !opt_utf8_length in Hlen.
  set (flags := _ ||| 0x40).
  assert (Hflags : flags = Spec.flag (username o) 128 + 64 +
    (if decide (clean_session o <> 0) then 2 else 0) /\
    (username o <> None -> (flags &&& 128) <> 0) /\ (flags &&& 64) <> 0).
  { subst flags. destruct (username o); case_decide; done. }
  destruct Hflags as (Hfl & Hfu & Hfp). clearbody flags.
  assert (zlen (bytes_of "MQTT") = 4) by done.
  do 5 wr_step.
  rewrite write_opt_wr by (done || wlen). cbn [mbind res_bind].
  rewrite write_opt_wr by (done || wlen). cbn [mbind res_bind].
  assert (Hpk : Spec.packet first body = (((((((first :: Spec.rem_len (zlen body)) ++
    Spec.utf8 (bytes_of "MQTT")) ++ [4]) ++ [flags]) ++ Spec.be16 (keep_alive_interval o)) ++
    Spec.utf8 cid) ++ Spec.opt_utf8 (username o)) ++ Spec.opt_utf8 (password o)).
  { unfold Spec.packet. cbn [app]. rewrite <- !app_assoc. do 2 f_equal.
    unfold body, connect_body. by rewrite Hfl. }
  rewrite <- Hpk, u32_small by (rewrite packet_len; lia). done.
Qed.

(** C38: every packet that the client writes is laid out as MQTT 3.1.1 has it,
    at the start of the buffer and with its length returned, or refused with the
    buffer-too-short error when the size estimate exceeds the buffer, which is
    never overrun: PUBLISH (flag bits of [dup] and [retained], packet id only
    for QoS > 0), SUBSCRIBE and UNSUBSCRIBE of one topic filter, the client's
    acknowledgements of four bytes (PUBREL alone with the reserved QoS bits 01)
    and its empty packets of two, which need four bytes of buffer.  CONNECT, for
    protocol level 4 and strings that fit, carries the client id, user name,
    password, keep-alive and clean-session flag of the options, with user name
    and password present exactly when they are set; but the password flag
    itself is set in every case. *)
Theorem serializers_correct (buf : bytes) buf_len dup id :
  buf_len <= zlen buf -> byte dup -> 0 <= id < 65536 ->
  (forall qos retained (topic payload data : bytes),
    zlen buf < 268435456 -> 0 <= qos <= 2 -> byte retained ->
    2 + zlen topic + 2 + zlen data < 4294967290 -> zlen topic < 65536 -> take (length data) payload = data ->
    _serialize_publish_packet buf buf_len dup qos retained id topic (Some payload) (zlen data) =
      (let pkt := Spec.publish (dup `mod` 2) qos (retained `mod` 2) id topic data in
       if decide (get_mqtt_packet_len (zlen (Spec.publish_body qos id topic data)) > buf_len)
       then Err ERR_MQTT_BUFFER_TOO_SHORT else Ok (wr buf pkt, zlen pkt))) /\
  (zlen buf < 65536 ->
    (forall (topic : bytes) qos, byte qos -> zlen topic < 2147483648 ->
      _serialize_subscribe_packet buf buf_len dup id 1 topic [qos] =
        (if decide (get_mqtt_packet_len (5 + zlen topic) > buf_len)
         then Err ERR_MQTT_BUFFER_TOO_SHORT
         else let pkt := Spec.subscribe (dup `mod` 2) id topic qos in Ok (wr buf pkt, zlen pkt)) /\
      _serialize_unsubscribe_packet buf buf_len dup id 1 topic =
        (if decide (get_mqtt_packet_len (4 + zlen topic) > buf_len)
         then Err ERR_MQTT_BUFFER_TOO_SHORT
         else let pkt := Spec.unsubscribe (dup `mod` 2) id topic in Ok (wr buf pkt, zlen pkt))) /\
    (forall type, 1 <= type <= 14 ->
      serialize_packet_with_zero_payload buf buf_len type =
        (if decide (buf_len < 4) then Err ERR_MQTT_BUFFER_TOO_SHORT else Ok (wr buf (Spec.empty type), 2)) /\
      serialize_pub_ack_packet buf buf_len type dup id =
        (if decide (buf_len < 4) then Err ERR_MQTT_BUFFER_TOO_SHORT
         else Ok (wr buf (Spec.ack type (dup `mod` 2) (if decide (PUBREL = type) then 1 else 0) id), 4))) /\
    (forall o cid, client_id o = Some cid -> 0 < zlen cid < 65536 -> mqtt_version o = 4 ->
      olen (username o) < 65536 -> olen (password o) < 65536 -> 0 <= keep_alive_interval o < 65536 ->
      _serialize_connect_packet buf buf_len o =
        (let body := connect_body o cid in
         if decide (get_mqtt_packet_len (zlen body) > buf_len) then Err ERR_MQTT_BUFFER_TOO_SHORT
         else let pkt := Spec.packet (Spec.first_byte 1 0 0 0) body in Ok (wr buf pkt, zlen pkt)))).
Proof.
  intros Hb Hd Hid. split; [intros; by apply serialize_publish_spec|]. intros Hl. split_and!; intros.
  - by apply serialize_subscribe_spec.
  - by apply serialize_control_spec.
  - by apply serialize_connect_spec.
Qed.

(* ================================================================== *)
(** ** Reading *)

Lemma byte_bits c :
  byte c -> c &&& 127 = c `mod` 128 /\ ((c &&& 128) <> 0 <-> 128 <= c).
Proof.
  intros Hc.
  assert (H : forall c, byte c -> ((c &&& 127) =? c `mod` 128) &&
    (eqb (negb ((c &&& 128) =? 0)) (128 <=? c)) = true) by byte_decide.
  specialize (H c Hc). apply andb_prop in H as [H1 H2]. apply Z.eqb_eq in H1.
  apply eqb_prop in H2. split; [done|].
  destruct (Z.eqb_spec (c &&& 128) 0), (Z.leb_spec 128 c); cbn in H2; try done; lia.
Qed.

Lemma decode_step n b p v m len c :
  get_at b p = Ok c -> byte c ->
  decode_rem_len_loop (S n) b p v m len =
  if decide (128 <= c) then
    decode_rem_len_loop n b (p + 1) (u32 (v + c `mod` 128 * m)) (u32 (m * 128)) (len + 1)
  else Ok (u32 (v + c `mod` 128 * m), len + 1).
Proof.
  intros Hg Hc. cbn [decode_rem_len_loop]. unfold bufchar.
  change (Z.to_nat 1) with 1%nat. cbn [bufchar_loop]. rewrite Hg. cbn [mbind res_bind].
  rewrite decide_False by lia. destruct (byte_bits c Hc) as [-> Hb].
  destruct (decide (128 <= c)) as [H|H].
  - by rewrite decide_True by (by apply Hb).
  - rewrite decide_False; [done|]. by rewrite Hb.
Qed.

(** Any encoded value below 2^28 is decoded, wherever it stands. *)
Lemma read_rem_len x (pre post : bytes) p :
  0 <= x < 268435456 -> p = zlen pre ->
  mqtt_read_packet_rem_len_form_buf (pre ++ Spec.rem_len x ++ post) p =
  Ok (x, zlen (Spec.rem_len x)).
Proof.
  intros Hx ->. unfold mqtt_read_packet_rem_len_form_buf, MAX_NO_OF_REMAINING_LENGTH_BYTES.
  assert (Hs : forall l n i v m len c, get_at l i = Ok c -> 0 <= i -> byte c ->
    decode_rem_len_loop (S n) (pre ++ l) (zlen pre + i) v m len =
    if decide (128 <= c) then
      decode_rem_len_loop n (pre ++ l) (zlen pre + (i + 1)) (u32 (v + c `mod` 128 * m))
        (u32 (m * 128)) (len + 1)
    else Ok (u32 (v + c `mod` 128 * m), len + 1)).
  { intros l n i v m len c Hc Hi Hb. rewrite Z.add_assoc. apply decode_step; [|done].
    by rewrite (get_at_off _ _ _ i). }
  rewrite <- (Z.add_0_r (zlen pre)).
  unfold Spec.rem_len. repeat case_decide; cbn [app length];
    (erewrite Hs; [|reflexivity|lia|unfold byte; zmod]);
    repeat (rewrite decide_True by zmod; erewrite Hs; [|reflexivity|lia|unfold byte; zmod]);
    rewrite decide_False by zmod; unfold u32; do 2 f_equal; zmod.
Qed.

(** What a decoded remaining length can be, for any bytes. *)
Lemma decode_loop_range n b p v m len r k :
  Forall byte b -> (n <= 4)%nat -> 0 <= v < m -> m * 128 ^ Z.of_nat n <= 268435456 -> 0 < m ->
  decode_rem_len_loop n b p v m len = Ok (r, k) ->
  0 <= r < m * 128 ^ Z.of_nat n /\ len + 1 <= k <= len + Z.of_nat n.
Proof.
  intros Hb. revert p v m len. induction n as [|n IH]; intros p v m len Hn Hv Hm Hm0; [done|].
  rewrite Nat2Z.inj_succ, Z.pow_succ_r in * by lia.
  assert (0 < 128 ^ Z.of_nat n) by (apply Z.pow_pos_nonneg; lia).
  destruct (get_at b p) as [c| |] eqn:Hg;
    [|cbn [decode_rem_len_loop]; unfold bufchar; change (Z.to_nat 1) with 1%nat;
      cbn [bufchar_loop]; by rewrite Hg..].
  rewrite (decode_step _ _ _ _ _ _ _ Hg) by eauto with uiot.
  assert (Hc : 0 <= c `mod` 128 < 128) by zmod.
  assert (v + c `mod` 128 * m < m * 128) by nia.
  assert (m * 128 <= 268435456) by nia.
  rewrite !u32_small by nia. destruct (decide (128 <= c)).
  - intros Hd. apply IH in Hd; [|lia|nia|nia|lia]. nia.
  - intros [= <- <-]. nia.
Qed.

Lemma read_rem_len_range b p r k :
  Forall byte b -> mqtt_read_packet_rem_len_form_buf b p = Ok (r, k) ->
  0 <= r < 268435456 /\ 1 <= k <= 4.
Proof.
  intros Hb Hd.
  apply (decode_loop_range 4 b p 0 1 0 r k Hb) in Hd;
    change (1 * 128 ^ Z.of_nat 4) with 268435456 in *; lia.
Qed.

Lemma decode_loop_safe n b p v m len :
  Forall byte b -> 0 <= p -> p + Z.of_nat n <= zlen b ->
  decode_rem_len_loop n b p v m len <> Oob.
Proof.
  intros Hb. revert p v m len. induction n as [|n IH]; intros p v m len Hp Hn; [done|].
  destruct (get_at_in b p) as [c Hc]; [lia|].
  rewrite (decode_step _ _ _ _ _ _ _ Hc) by eauto with uiot.
  case_decide; [apply IH; lia|done].
Qed.

Lemma read_rem_len_safe b p :
  Forall byte b -> 0 <= p -> p + 4 <= zlen b -> mqtt_read_packet_rem_len_form_buf b p <> Oob.
Proof. intros. by apply decode_loop_safe. Qed.

(** For every length below 2^28 the remaining-length field written by
    [mqtt_write_packet_rem_len] takes one to four bytes, touches nothing else,
    and is read back as the same length from wherever it stands. *)
Theorem rem_len_roundtrip x (buf pre post : bytes) :
  0 <= x < 268435456 -> zlen pre + 5 <= zlen buf ->
  exists enc, 1 <= zlen enc <= 4 /\
    mqtt_write_packet_rem_len (wr buf pre) (zlen pre) x = Ok (wr buf (pre ++ enc), zlen enc) /\
    mqtt_read_packet_rem_len_form_buf (pre ++ enc ++ post) (zlen pre) = Ok (x, zlen enc).
Proof.
  intros Hx Hb. exists (Spec.rem_len x). pose proof (rem_len_len x).
  split; [|split; [apply write_rem_len_wr; lia|by apply read_rem_len]].
  unfold Spec.rem_len. repeat case_decide; cbn; lia.
Qed.

(** Reading the fields of a header byte that was built from fields. *)
Lemma first_byte_fields type dup qos retained :
  0 <= type < 16 -> 0 <= dup < 2 -> 0 <= qos <= 3 -> 0 <= retained < 2 ->
  let h := Spec.first_byte type dup qos retained in
  byte h /\ header_type h = type /\ header_dup h = dup /\ header_qos h = qos /\
  header_retained h = retained.
Proof.
  intros Ht Hd Hq Hr h.
  assert (Hh : byte h) by (unfold h, Spec.first_byte, byte; lia).
  assert (Hf : forall c, byte c -> (header_type c =? c `div` 16) && (header_dup c =? (c `div` 8) `mod` 2)
    && (header_qos c =? (c `div` 2) `mod` 4) && (header_retained c =? c `mod` 2) = true) by byte_decide.
  specialize (Hf h Hh). rewrite !andb_true_iff, !Z.eqb_eq in Hf.
  destruct Hf as [[[-> ->] ->] ->]. unfold h, Spec.first_byte. split; [done|].
  split_and!; zmod.
Qed.

(** A 16-bit field. *)
Lemma read_uint16 b p n (pre post : bytes) :
  b = pre ++ Spec.be16 n ++ post -> p = zlen pre -> 0 <= n < 65536 ->
  mqtt_read_uint16_t b p = Ok (n, p + 2).
Proof.
  intros -> -> Hn. unfold mqtt_read_uint16_t.
  rewrite (get_at_off pre _ (zlen pre) 0) by lia. rewrite (get_at_off pre _ (zlen pre + 1) 1) by lia.
  change (get_at (Spec.be16 n ++ post) 0) with (Ok (n `div` 256)).
  change (get_at (Spec.be16 n ++ post) 1) with (Ok (n `mod` 256)). cbn [mbind res_bind].
  rewrite u16_small by zmod. do 2 f_equal. zmod.
Qed.

Lemma slice_mid (pre l post : bytes) p n :
  p = zlen pre -> n = zlen l -> slice_at (pre ++ l ++ post) p n = Ok l.
Proof.
  intros -> ->. apply slice_at_ok. rewrite !length_app. split_and!; [lia..|].
  rewrite !Nat2Z.id, drop_app_length, take_app_length. done.
Qed.

(** The fixed header of a well-formed packet in a receive buffer. *)
Lemma read_head first (body rest : bytes) :
  zlen body < 268435456 ->
  let b := Spec.packet first body ++ rest in
  mqtt_read_char b 0 = Ok (first, 1) /\
  mqtt_read_packet_rem_len_form_buf b 1 = Ok (zlen body, zlen (Spec.rem_len (zlen body))) /\
  b = (first :: Spec.rem_len (zlen body)) ++ body ++ rest.
Proof.
  intros Hl b. unfold b, Spec.packet. cbn [app].
  assert (Heq : first :: (Spec.rem_len (zlen body) ++ body) ++ rest =
    [first] ++ Spec.rem_len (zlen body) ++ (body ++ rest)) by (by rewrite <- app_assoc).
  rewrite Heq. split; [done|]. split; [apply read_rem_len; [lia|done]|done].
Qed.

Lemma deserialize_publish_spec dup qos retained id (topic payload rest : bytes) buf_len :
  0 <= dup < 2 -> 0 <= qos <= 2 -> 0 <= retained < 2 -> 0 <= id < 65536 ->
  zlen topic <= UIOT_MQTT_RX_BUF_LEN -> zlen payload < 268400000 -> 4 <= buf_len ->
  let body := Spec.publish_body qos id topic payload in
  let base := 1 + zlen (Spec.rem_len (zlen body)) in
  let idn := if decide (qos > 0) then 2 else 0 in
  deserialize_publish_packet (Spec.publish dup qos retained id topic payload ++ rest) buf_len =
  Ok (mkPublish dup qos retained (if decide (qos > 0) then Some id else None)
        (base + 2) (zlen topic) (base + 2 + zlen topic + idn) (zlen payload)).
Proof.
  intros Hd Hq Hr Hid Ht Hp Hl body base idn. unfold UIOT_MQTT_RX_BUF_LEN in Ht.
  pose proof (publish_body_len qos id topic payload) as Hlen. fold body in Hlen. fold idn in Hlen.
  assert (0 <= idn <= 2) by (unfold idn; case_decide; lia).
  destruct (first_byte_fields 3 dup qos retained) as (Hh & Hty & Hdu & Hqo & Hre); [lia..|].
  set (first := Spec.first_byte 3 dup qos retained) in *.
  destruct (read_head first body rest) as (Hc & Hm & Hb); [lia|].
  unfold deserialize_publish_packet, guard_err. rewrite bool_decide_false by lia.
  unfold Spec.publish. fold body first. rewrite Hc. cbn [mbind res_bind].
  rewrite Hty. change (bool_decide (PUBLISH <> 3)) with false. rewrite Hm. cbn [mbind res_bind].
  rewrite Hb. set (hd := first :: Spec.rem_len (zlen body)).
  assert (Hhd : zlen hd = base) by (unfold hd, base; cbn [length]; lia).
  fold base. unfold _read_string_with_len. rewrite decide_True by lia.
  erewrite (read_uint16 _ base (zlen topic) hd);
    [|unfold body, Spec.publish_body, Spec.utf8; rewrite <- !app_assoc; reflexivity|done|lia].
  cbn [mbind res_bind]. unfold guard_err, UIOT_MQTT_RX_BUF_LEN. rewrite bool_decide_false by lia.
  rewrite decide_True by lia. cbn [mbind res_bind]. rewrite bool_decide_false by lia.
  rewrite Hqo, Hdu, Hre. unfold QOS0. unfold idn in *.
  destruct (decide (qos > 0)) as [Hq0|Hq0].
  - rewrite decide_True by lia.
    erewrite (read_uint16 _ _ id (hd ++ Spec.utf8 topic));
      [|unfold body, Spec.publish_body; rewrite decide_True by done; rewrite <- !app_assoc; reflexivity
      |rewrite length_app, utf8_length; lia|lia].
    cbn [mbind res_bind]. rewrite u32_small by lia. do 2 f_equal. lia.
  - rewrite decide_False by lia. cbn [mbind res_bind]. rewrite u32_small by lia.
    f_equal. f_equal; lia.
Qed.

Lemma take_wr (b s : bytes) : take (Z.to_nat (zlen s)) (wr b s) = s.
Proof. unfold wr. by rewrite Nat2Z.id, take_app_length. Qed.

(** What [_serialize_publish_packet] puts in the transmit buffer is what
    [deserialize_publish_packet] finds when those bytes arrive in a receive
    buffer (whatever follows them there): the same flags, QoS, packet id
    (unset for QoS 0), topic and payload. *)
Lemma publish_reads_back (buf : bytes) buf_len dup qos retained id (topic data rest b : bytes) n rlen :
  buf_len <= zlen buf -> zlen buf <= UIOT_MQTT_TX_BUF_LEN ->
  0 <= qos <= 2 -> byte dup -> byte retained -> 0 <= id < 65536 -> zlen data < 65536 ->
  zlen topic < 65536 -> 4 <= rlen ->
  _serialize_publish_packet buf buf_len dup qos retained id topic (Some data) (zlen data) = Ok (b, n) ->
  let rx := take (Z.to_nat n) b ++ rest in
  exists f, deserialize_publish_packet rx rlen = Ok f /\
    pk_dup f = dup `mod` 2 /\ pk_qos f = qos /\ pk_retained f = retained `mod` 2 /\
    pk_id f = (if decide (qos > 0) then Some id else None) /\
    pk_topic_len f = zlen topic /\ slice_at rx (pk_topic f) (pk_topic_len f) = Ok topic /\
    pk_payload_len f = zlen data /\ slice_at rx (pk_payload f) (pk_payload_len f) = Ok data.
Proof.
  intros Hbl Hb Hq Hd Hr Hid Hda Ht Hrl Hs rx. unfold UIOT_MQTT_TX_BUF_LEN in Hb.
  rewrite serialize_publish_spec in Hs by (done || lia || apply firstn_all).
  cbn zeta in Hs. case_decide as Hest; [done|].
  set (pkt := Spec.publish (dup `mod` 2) qos (retained `mod` 2) id topic data) in *.
  pose proof (publish_body_len qos id topic data) as Hlen.
  pose proof (get_mqtt_packet_len_bounds (zlen (Spec.publish_body qos id topic data))) as Hge.
  pose proof (rem_len_len (zlen (Spec.publish_body qos id topic data))).
  assert (zlen topic <= 2048) by (repeat case_decide; lia).
  assert (b = wr buf pkt) as -> by congruence. assert (n = zlen pkt) as -> by congruence.
  unfold rx. rewrite take_wr.
  eexists. split; [apply deserialize_publish_spec; unfold UIOT_MQTT_RX_BUF_LEN; zmod|].
  cbn [pk_dup pk_qos pk_retained pk_id pk_topic pk_topic_len pk_payload pk_payload_len].
  set (rm := Spec.rem_len _). set (first := Spec.first_byte 3 (dup `mod` 2) qos (retained `mod` 2)).
  set (idb := if decide (qos > 0) then Spec.be16 id else []).
  split_and!; try done.
  - assert (Heq : pkt ++ rest = (first :: rm ++ Spec.be16 (zlen topic)) ++ topic ++
      (idb ++ data ++ rest)).
    { unfold pkt, Spec.publish, Spec.packet, Spec.publish_body, Spec.utf8. cbn [app].
      f_equal. by rewrite <- !app_assoc. }
    rewrite Heq. apply slice_mid; [|done]. cbn [length]. rewrite length_app, be16_length. lia.
  - assert (Heq : pkt ++ rest = (first :: rm ++ Spec.utf8 topic ++ idb) ++ data ++ rest).
    { unfold pkt, Spec.publish, Spec.packet, Spec.publish_body, Spec.utf8. cbn [app].
      f_equal. by rewrite <- !app_assoc. }
    rewrite Heq. apply slice_mid; [|done]. cbn [length]. rewrite !length_app, utf8_length.
    unfold idb. destruct (decide (qos > 0)); cbn [length Spec.be16]; lia.
Qed.

(* ------------------------------------------------------------------ *)
(** ** Acknowledgements *)

(** The server's one-code acknowledgement: packet id, then a return code if
    [codes] is not empty. *)
Definition server_ack (type dup qos id : Z) (codes : bytes) : bytes :=
  Spec.packet (Spec.first_byte type dup qos 0) (Spec.be16 id ++ codes).

Lemma server_ack_read type dup qos id (codes rest : bytes) :
  0 <= type < 16 -> 0 <= dup < 2 -> 0 <= qos <= 3 -> 0 <= id < 65536 -> zlen codes < 65536 ->
  let b := server_ack type dup qos id codes ++ rest in
  let first := Spec.first_byte type dup qos 0 in
  let k := zlen (Spec.rem_len (zlen (Spec.be16 id ++ codes))) in
  mqtt_read_char b 0 = Ok (first, 1) /\
  mqtt_read_packet_rem_len_form_buf b 1 = Ok (2 + zlen codes, k) /\
  mqtt_read_uint16_t b (1 + k) = Ok (id, 1 + k + 2) /\
  (forall i, 0 <= i -> get_at b (1 + k + 2 + i) = get_at (codes ++ rest) i) /\
  header_type first = type /\ header_dup first = dup.
Proof.
  intros Ht Hd Hq Hid Hc b first k.
  destruct (first_byte_fields type dup qos 0) as (_ & Hty & Hdu & _); [lia..|].
  set (body := Spec.be16 id ++ codes) in *.
  assert (Hbl : zlen body = 2 + zlen codes) by (unfold body; wlen).
  destruct (read_head first body rest) as (H1 & H2 & Hb); [lia|].
  fold k in H2. change (Spec.packet first body ++ rest) with b in *.
  rewrite Hbl in H2. split; [done|]. split; [done|].
  set (hd := first :: Spec.rem_len (zlen body)) in *.
  assert (Hhd : zlen hd = 1 + k) by (unfold hd, k; cbn [length]; lia).
  assert (Hb' : b = hd ++ Spec.be16 id ++ (codes ++ rest)).
  { rewrite Hb. unfold body. by rewrite <- app_assoc. }
  split; [|split; [|done]].
  - by eapply read_uint16.
  - intros i Hi. rewrite Hb', app_assoc. apply get_at_off; [|done].
    rewrite length_app. cbn [length Spec.be16]. lia.
Qed.

Lemma ack_decode_run type dup qos id (codes rest : bytes) buf_len :
  0 <= type < 16 -> 0 <= dup < 2 -> 0 <= qos <= 3 -> 0 <= id < 65536 -> zlen codes < 65536 ->
  4 <= buf_len ->
  deserialize_ack_packet (server_ack type dup qos id codes ++ rest) buf_len =
  match codes with
  | [] => Ok (type, dup, id)
  | c :: _ => if decide (c = 0) then Ok (type, dup, id) else Err FAILURE_RET
  end.
Proof.
  intros Ht Hd Hq Hid Hc Hl.
  destruct (server_ack_read type dup qos id codes rest) as (H1 & H2 & H3 & H4 & H5 & H6);
    [done..|].
  set (b := server_ack type dup qos id codes ++ rest) in *.
  set (k := zlen (Spec.rem_len _)) in *.
  unfold deserialize_ack_packet, guard_err. rewrite bool_decide_false by lia.
  rewrite H1. cbn [mbind res_bind]. rewrite H2. cbn [mbind res_bind].
  rewrite bool_decide_false by lia. rewrite H3. cbn [mbind res_bind]. rewrite H5, H6.
  destruct codes as [|c codes].
  - rewrite decide_False by (cbn; lia). done.
  - rewrite decide_True by (cbn; lia). unfold mqtt_read_char.
    rewrite <- (Z.add_0_r (1 + k + 2)), H4 by lia.
    change (get_at ((c :: codes) ++ rest) 0) with (Ok c). cbn [mbind res_bind].
    destruct (decide (c = 0)) as [->|Hc0]; [done|]. by rewrite bool_decide_true.
Qed.

Lemma suback_loop_spec fuel (codes : bytes) : forall buf cur enddata maxc (done_ granted : bytes),
  (forall i, 0 <= i < zlen codes -> get_at buf (cur + i) = get_at codes i) ->
  enddata = cur + zlen codes -> 0 <= maxc ->
  zlen done_ <= maxc + 1 -> maxc + 1 <= zlen granted ->
  maxc + 3 - zlen done_ <= Z.of_nat fuel ->
  suback_loop fuel buf cur enddata maxc (zlen done_) (wr granted done_) =
  if decide (zlen done_ + zlen codes <= maxc + 1)
  then Ok (zlen (done_ ++ codes), wr granted (done_ ++ codes)) else Err FAILURE_RET.
Proof.
  revert codes. induction fuel as [|fuel IH];
    intros codes buf cur enddata maxc done_ granted Hg -> Hm Hd Hgr Hf; [lia|].
  cbn [suback_loop]. destruct codes as [|c codes].
  - rewrite decide_False by (cbn; lia). rewrite app_nil_r, decide_True by (cbn; lia). done.
  - rewrite decide_True by (cbn; lia). unfold guard_err. case_bool_decide as Hmax.
    { rewrite decide_False by (cbn [length]; lia). done. }
    unfold mqtt_read_char. rewrite <- (Z.add_0_r cur) at 1. rewrite Hg by (cbn; lia).
    change (get_at (c :: codes) 0) with (Ok c). cbn [mbind res_bind].
    rewrite write_next by (cbn [length]; lia). cbn [mbind res_bind].
    replace (zlen done_ + 1) with (zlen (done_ ++ [c])) by (rewrite length_app; cbn; lia).
    rewrite (IH codes); try lia.
    + rewrite <- app_assoc. cbn [app]. rewrite length_app. cbn [length].
      destruct (decide (zlen done_ + Z.of_nat (S (length codes)) <= maxc + 1));
        [rewrite decide_True by lia|rewrite decide_False by lia]; done.
    + intros i Hi. replace (cur + 1 + i) with (cur + (1 + i)) by lia.
      rewrite Hg by (cbn [length]; lia). exact (get_at_off [c] codes _ i eq_refl (proj1 Hi)).
    + cbn [length]. lia.
    + rewrite length_app. cbn [length]. lia.
    + rewrite length_app. cbn [length]. lia.
Qed.

Lemma suback_decode_run id (codes rest granted : bytes) max_count dup qos buf_len :
  0 <= dup < 2 -> 0 <= qos <= 3 -> 0 <= id < 65536 -> zlen codes < 65536 ->
  5 <= buf_len -> 0 <= max_count -> max_count + 1 <= zlen granted ->
  deserialize_suback_packet max_count granted (server_ack SUBACK dup qos id codes ++ rest) buf_len =
  if decide (zlen codes <= max_count + 1)
  then Ok (id, zlen codes, codes ++ drop (length codes) granted) else Err FAILURE_RET.
Proof.
  intros Hd Hq Hid Hc Hl Hm Hg.
  destruct (server_ack_read SUBACK dup qos id codes rest) as (H1 & H2 & H3 & H4 & H5 & H6);
    [unfold SUBACK; lia|done..|].
  set (b := server_ack SUBACK dup qos id codes ++ rest) in *.
  set (k := zlen (Spec.rem_len _)) in *.
  unfold deserialize_suback_packet, guard_err. rewrite bool_decide_false by lia.
  rewrite H1. cbn [mbind res_bind]. rewrite H5. change (bool_decide (SUBACK <> SUBACK)) with false.
  rewrite H2. cbn [mbind res_bind].
  rewrite bool_decide_false by lia. rewrite H3. cbn [mbind res_bind].
  rewrite <- (wr_nil granted). change 0 with (zlen (@nil Z)).
  rewrite (suback_loop_spec _ codes) by
    (try (cbn [length]; lia); intros i Hi; rewrite H4 by lia; unfold get_at;
     rewrite !decide_True by lia; rewrite lookup_app_l by lia; done).
  cbn [app length]. rewrite Z.add_0_l. case_decide; done.
Qed.

(* ------------------------------------------------------------------ *)
(** ** Arbitrary bytes *)

Lemma read_char_in b p : 0 <= p < zlen b -> exists c, mqtt_read_char b p = Ok (c, p + 1) /\
  get_at b p = Ok c.
Proof. intros H. destruct (get_at_in b p H) as [c Hc]. exists c. unfold mqtt_read_char. by rewrite Hc. Qed.

Lemma read_uint16_in b p :
  0 <= p -> p + 2 <= zlen b -> exists n, mqtt_read_uint16_t b p = Ok (n, p + 2) /\ 0 <= n < 65536.
Proof.
  intros Hp Hb. destruct (get_at_in b p) as [c Hc]; [lia|].
  destruct (get_at_in b (p + 1)) as [d Hd]; [lia|].
  eexists. unfold mqtt_read_uint16_t. rewrite Hc, Hd. split; [done|apply u16_range].
Qed.

(** The common prefix of the deserializers: first byte and remaining length. *)
Lemma read_prefix b :
  Forall byte b -> 5 <= zlen b ->
  exists c, mqtt_read_char b 0 = Ok (c, 1) /\
  (exists d k, mqtt_read_packet_rem_len_form_buf b 1 = Ok (d, k) /\ 0 <= d < 268435456 /\ 1 <= k <= 4)
  \/ mqtt_read_char b 0 = Ok (c, 1) /\ exists e, mqtt_read_packet_rem_len_form_buf b 1 = Err e.
Proof.
  intros Hb Hl. destruct (read_char_in b 0) as (c & Hc & _); [lia|]. exists c.
  destruct (mqtt_read_packet_rem_len_form_buf b 1) as [[d k]|e|] eqn:Hr.
  - left. split; [done|]. exists d, k. split; [done|]. by eapply read_rem_len_range.
  - right. eauto.
  - exfalso. apply (read_rem_len_safe b 1 Hb) in Hr; [done|lia|lia].
Qed.

Lemma suback_loop_safe fuel buf cur enddata maxc count (granted : bytes) :
  0 <= cur -> 0 <= count -> cur + (maxc + 1 - count) <= zlen buf ->
  maxc + 1 <= zlen granted -> maxc + 3 - count <= Z.of_nat fuel -> count <= maxc + 1 ->
  suback_loop fuel buf cur enddata maxc count granted <> Oob.
Proof.
  revert cur count granted. induction fuel as [|fuel IH];
    intros cur count granted Hc Hn Hb Hg Hf Hm; [lia|].
  cbn [suback_loop]. case_decide; [|done]. unfold guard_err. case_bool_decide; [done|].
  destruct (read_char_in buf cur) as (c & -> & _); [lia|]. cbn [mbind res_bind].
  destruct (write_at granted count [c]) as [g| |] eqn:Hw; cbn [mbind res_bind].
  - apply IH; try lia. apply write_at_len in Hw. lia.
  - by apply write_at_not_err in Hw.
  - unfold write_at in Hw. case_decide as Hd; [done|]. cbn in Hd. lia.
Qed.

(** An acknowledgement as the server sends it (any type and flags, packet
    id, optionally a return code) is decoded to its type, dup flag and packet
    id; a return code other than 0 makes it a failure, whatever the rest says.
    A SUBACK is decoded to its packet id and its list of return codes,
    stored in order at the start of the caller's array; a packet with more
    than [max_count + 1] codes is refused, so an array of [max_count + 1]
    elements is never overrun (the check lets one code more than [max_count]
    through). *)
Lemma ack_decode_spec dup qos id (codes rest : bytes) buf_len :
  0 <= dup < 2 -> 0 <= qos <= 3 -> 0 <= id < 65536 -> zlen codes < 65536 -> 5 <= buf_len ->
  (forall type, 0 <= type < 16 ->
     deserialize_ack_packet (server_ack type dup qos id codes ++ rest) buf_len =
     match codes with
     | [] => Ok (type, dup, id)
     | c :: _ => if decide (c = 0) then Ok (type, dup, id) else Err FAILURE_RET
     end) /\
  (forall granted max_count, 0 <= max_count -> max_count + 1 <= zlen granted ->
     deserialize_suback_packet max_count granted (server_ack SUBACK dup qos id codes ++ rest) buf_len =
     if decide (zlen codes <= max_count + 1)
     then Ok (id, zlen codes, codes ++ drop (length codes) granted) else Err FAILURE_RET).
Proof.
  intros Hd Hq Hid Hc Hl. split.
  - intros type Ht. apply ack_decode_run; lia.
  - intros granted max_count Hm Hg. by apply suback_decode_run.
Qed.

(** An UNSUBACK, and the CONNACK of the standard: flags and return code. *)
Lemma unsuback_decode_run type dup qos id (codes rest : bytes) buf_len :
  0 <= dup < 2 -> 0 <= qos <= 3 -> 0 <= id < 65536 -> zlen codes < 65536 -> 5 <= buf_len -> 0 <= type < 16 ->
  deserialize_unsuback_packet (server_ack type dup qos id codes ++ rest) buf_len =
  if decide (type = UNSUBACK /\ (codes = [] \/ head codes = Some 0)) then Ok id else Err FAILURE_RET.
Proof.
  intros Hd Hq Hid Hc Hl Ht. unfold deserialize_unsuback_packet, guard_err.
  rewrite (proj1 (ack_decode_spec dup qos id codes rest buf_len Hd Hq Hid Hc Hl) type Ht).
  assert (Hu : (err_if (bool_decide (UNSUBACK <> type)) code FAILURE_RET; Ok id) =
    (if decide (type = UNSUBACK) then Ok id else Err FAILURE_RET) :> res Z).
  { unfold guard_err. destruct (decide (type = UNSUBACK)) as [->|Hne]; [done|]. by rewrite bool_decide_eq_true_2 by auto. }
  destruct codes as [|c codes]; cbn [mbind res_bind head].
  - unfold guard_err in Hu. rewrite Hu. apply decide_ext. split; [by auto|by intros []].
  - destruct (decide (c = 0)) as [->|Hc0]; cbn [mbind res_bind].
    + unfold guard_err in Hu. rewrite Hu. apply decide_ext. split; [by auto|by intros []].
    + rewrite decide_False; [done|]. by intros [_ [?|[= ?]]].
Qed.

Definition connack (flags rc : Z) : bytes := [32; 2; flags; rc].
Definition connack_code (rc : Z) : Z :=
  if decide (rc = 0) then MQTT_CONNECTION_ACCEPTED
  else if decide (rc = 1) then ERR_MQTT_CONNACK_UNACCEPTABLE_PROTOCOL_VERSION
  else if decide (rc = 2) then ERR_MQTT_CONNACK_IDENTIFIER_REJECTED
  else if decide (rc = 3) then ERR_MQTT_CONNACK_SERVER_UNAVAILABLE
  else if decide (rc = 4) then ERR_MQTT_CONNACK_BAD_USERDATA
  else if decide (rc = 5) then ERR_MQTT_CONNACK_NOT_AUTHORIZED
  else ERR_MQTT_CONNACK_UNKNOWN.

Lemma connack_code_spec rc : byte rc -> connack_code rc =
  match rc with
  | 0 => MQTT_CONNECTION_ACCEPTED
  | 1 => ERR_MQTT_CONNACK_UNACCEPTABLE_PROTOCOL_VERSION
  | 2 => ERR_MQTT_CONNACK_IDENTIFIER_REJECTED
  | 3 => ERR_MQTT_CONNACK_SERVER_UNAVAILABLE
  | 4 => ERR_MQTT_CONNACK_BAD_USERDATA
  | 5 => ERR_MQTT_CONNACK_NOT_AUTHORIZED
  | _ => ERR_MQTT_CONNACK_UNKNOWN
  end.
Proof.
  intros Hrc. apply Z.eqb_eq. revert rc Hrc. byte_decide.
Qed.

Lemma connack_decode_run fl rc (rest : bytes) buflen : byte rc -> 4 <= buflen ->
  _deserialize_connack_packet (connack fl rc ++ rest) buflen = Ok (fl &&& 1, connack_code rc).
Proof.
  intros Hrc Hl. rewrite connack_code_spec by done. unfold _deserialize_connack_packet, guard_err.
  rewrite bool_decide_false by lia. reflexivity.
Qed.
(** Any other packet is refused. *)
Lemma connack_decode_other type dup qos id (codes rest : bytes) buflen :
  0 <= dup < 2 -> 0 <= qos <= 3 -> 0 <= id < 65536 -> zlen codes < 65536 -> 4 <= buflen -> 0 <= type < 16 -> type <> CONNACK \/ codes <> [] ->
  _deserialize_connack_packet (server_ack type dup qos id codes ++ rest) buflen = Err FAILURE_RET.
Proof.
  intros Hd Hq Hid Hc Hl Ht Hne. unfold _deserialize_connack_packet, guard_err. rewrite bool_decide_false by lia.
  destruct (server_ack_read type dup qos id codes rest Ht Hd Hq Hid Hc) as (H1 & H2 & _ & _ & H5 & _). rewrite H1. cbn [mbind res_bind].
  rewrite H5. case_bool_decide as Hty; [done|]. rewrite H2. cbn [mbind res_bind].
  rewrite bool_decide_true; [done|]. destruct codes as [|x codes]; [|cbn [length]; lia].
  destruct Hne as [Hne|Hne]; [by destruct (Hne (eq_sym Hty))|done].
Qed.

(** Whatever the bytes in the receive buffer, decoding them as a PUBACK,
    UNSUBACK, CONNACK or SUBACK reads inside the buffer (of at least
    [9 + max_count] bytes) and writes inside the array of granted QoS (of at
    least [max_count + 1] elements). *)
Lemma ack_decoders_in_bounds (buf granted : bytes) buf_len max_count :
  Forall byte buf -> 0 <= max_count -> 9 + max_count <= zlen buf ->
  max_count + 1 <= zlen granted ->
  deserialize_ack_packet buf buf_len <> Oob /\
  deserialize_unsuback_packet buf buf_len <> Oob /\
  _deserialize_connack_packet buf buf_len <> Oob /\
  deserialize_suback_packet max_count granted buf buf_len <> Oob.
Proof.
  intros Hb Hm Hl Hg.
  assert (Hack : deserialize_ack_packet buf buf_len <> Oob).
  { unfold deserialize_ack_packet, guard_err. case_bool_decide; [done|].
    destruct (read_prefix buf Hb) as (c & [(-> & d & k & Hr & Hd & Hk)|(-> & e & Hr)]); [lia| |];
      cbn [mbind res_bind]; rewrite Hr; cbn [mbind res_bind]; [|done].
    case_bool_decide; [done|]. destruct (read_uint16_in buf (1 + k)) as (n & -> & _); [lia..|].
    cbn [mbind res_bind]. case_decide; [|done].
    destruct (read_char_in buf (1 + k + 2)) as (c' & -> & _); [lia|]. cbn [mbind res_bind].
    by case_bool_decide. }
  split; [done|]. split; [|split].
  - unfold deserialize_unsuback_packet, guard_err.
    destruct (deserialize_ack_packet buf buf_len) as [[[t d] i]| |]; [|done..].
    cbn [mbind res_bind]. by case_bool_decide.
  - unfold _deserialize_connack_packet, guard_err. case_bool_decide; [done|].
    destruct (read_prefix buf Hb) as (c & [(-> & d & k & Hr & Hd & Hk)|(-> & e & Hr)]); [lia| |];
      cbn [mbind res_bind]; (case_bool_decide; [done|]); rewrite Hr; cbn [mbind res_bind]; [|done].
    case_bool_decide; [done|].
    destruct (read_char_in buf (1 + k)) as (c1 & -> & _); [lia|]. cbn [mbind res_bind].
    destruct (read_char_in buf (1 + k + 1)) as (c2 & -> & _); [lia|]. done.
  - unfold deserialize_suback_packet, guard_err. case_bool_decide; [done|].
    destruct (read_prefix buf Hb) as (c & [(-> & d & k & Hr & Hd & Hk)|(-> & e & Hr)]); [lia| |];
      cbn [mbind res_bind]; (case_bool_decide; [done|]); rewrite Hr; cbn [mbind res_bind]; [|done].
    case_bool_decide; [done|]. destruct (read_uint16_in buf (1 + k)) as (n & -> & _); [lia..|].
    cbn [mbind res_bind].
    pose proof (suback_loop_safe (Z.to_nat max_count + 3) buf (1 + k + 2) (1 + k + d) max_count 0
      granted) as Hs.
    destruct (suback_loop _ _ _ _ _ _ _) as [[? ?]| |]; [done..|].
    exfalso. apply Hs; lia || done.
Qed.


(** Where the fields of a decoded PUBLISH lie, whatever the bytes: the
    topic is inside the packet and at most 2048 bytes long; the payload runs to
    the end of the packet — except that for QoS > 0 nothing checks that the
    packet id is inside the packet, and when it is not the payload starts up to
    two bytes behind the packet's end and its length wraps around to nearly
    2^32. *)
Lemma publish_fields_in buf buf_len f d k :
  Forall byte buf ->
  mqtt_read_packet_rem_len_form_buf buf 1 = Ok (d, k) ->
  deserialize_publish_packet buf buf_len = Ok f ->
  let endp := 1 + k + d in
  0 < pk_topic f /\ 0 <= pk_topic_len f <= UIOT_MQTT_RX_BUF_LEN /\
  pk_topic f + pk_topic_len f <= endp /\ pk_topic f + pk_topic_len f <= pk_payload f /\
  (pk_payload f <= endp -> 0 <= pk_payload_len f /\ pk_payload f + pk_payload_len f = endp) /\
  (endp < pk_payload f ->
     pk_qos f <> QOS0 /\ pk_payload f <= endp + 2 /\
     pk_payload_len f = 4294967296 - (pk_payload f - endp)).
Proof.
  intros Hb Hr Hf endp. pose proof (read_rem_len_range _ _ _ _ Hb Hr) as [Hd Hk].
  unfold deserialize_publish_packet, guard_err in Hf.
  case_bool_decide; [done|]. unfold mqtt_read_char in Hf.
  destruct (get_at buf 0) as [c| |]; [|done..]. cbn [mbind res_bind] in Hf.
  case_bool_decide; [done|]. change (0 + 1) with 1 in Hf. rewrite Hr in Hf. cbn [mbind res_bind] in Hf.
  unfold _read_string_with_len in Hf. destruct (decide (1 + k + d - (1 + k) > 1)); [|done].
  destruct (mqtt_read_uint16_t buf (1 + k)) as [[tl p]| |] eqn:Htl; [|done..].
  assert (p = 1 + k + 2 /\ 0 <= tl < 65536) as [-> Htl0].
  { unfold mqtt_read_uint16_t in Htl. destruct (get_at buf (1 + k)), (get_at buf (1 + k + 1)); try done.
    cbn in Htl. simplify_eq. split; [done|apply u16_range]. }
  cbn [mbind res_bind] in Hf. unfold guard_err in Hf. case_bool_decide; [done|].
  destruct (decide (1 + k + 2 + tl <= 1 + k + d)); [|done].
  cbn [mbind res_bind] in Hf. case_bool_decide; [done|].
  unfold UIOT_MQTT_RX_BUF_LEN in *.
  destruct (decide (QOS0 <> header_qos c)) as [Hq|Hq].
  - unfold mqtt_read_uint16_t in Hf.
    destruct (get_at buf (1 + k + 2 + tl)), (get_at buf (1 + k + 2 + tl + 1)); try done.
    cbn [mbind res_bind] in Hf. injection Hf as <-.
    cbn [pk_topic pk_topic_len pk_payload pk_payload_len pk_qos].
    split_and!; try lia; intros; (split_and!; try lia); try done.
    + unfold u32. zmod.
    + rewrite u32_small; lia.
    + unfold u32. symmetry. apply (Z.mod_unique_pos _ _ (-1)); lia.
  - cbn [mbind res_bind] in Hf. injection Hf as <-.
    cbn [pk_topic pk_topic_len pk_payload pk_payload_len pk_qos].
    split_and!; try lia; intros; (split_and!; try lia); rewrite ?u32_small; lia.
Qed.

Lemma publish_rem_len buf buf_len f : deserialize_publish_packet buf buf_len = Ok f ->
  exists d k, mqtt_read_packet_rem_len_form_buf buf 1 = Ok (d, k).
Proof.
  unfold deserialize_publish_packet, guard_err. case_bool_decide; [done|]. unfold mqtt_read_char.
  destruct (get_at buf 0) as [c| |]; [|done..]. cbn [mbind res_bind]. case_bool_decide; [done|]. change (0 + 1) with 1.
  destruct (mqtt_read_packet_rem_len_form_buf buf 1) as [[d k]| |]; [|done..]. by exists d, k.
Qed.
Lemma slice_at_inside b i n : 0 <= i -> 0 <= n -> slice_at b i n <> Oob <-> i + n <= zlen b.
Proof. intros Hi Hn. unfold slice_at. case_decide; split; done || lia. Qed.
Lemma slice_at_no_err b i n e : slice_at b i n <> Err e.
Proof. unfold slice_at. by case_decide. Qed.

(** C17: what [_serialize_publish_packet] puts in the transmit buffer is what
    [deserialize_publish_packet] finds when those bytes arrive in a receive
    buffer (whatever follows them there): the same flags, QoS, packet id
    (unset for QoS 0), topic and payload.

    And whatever bytes arrive, the topic of a decoded PUBLISH is inside the
    packet, whose end the length field declares, and at most 2048 bytes long;
    the payload runs to that end - except that for QoS > 0 nothing checks that
    the packet id is inside the packet, and when it is not the payload starts
    up to two bytes behind the packet's end and its length wraps around to
    nearly 2^32.  The declared end is not compared with the buffer: when it is
    inside, so are topic and payload; when it is not, the payload reaches
    behind the buffer. *)
Theorem publish_decode_correct rlen :
  (forall (buf : bytes) buf_len dup qos retained id (topic data rest b : bytes) n,
    buf_len <= zlen buf -> zlen buf <= UIOT_MQTT_TX_BUF_LEN ->
    0 <= qos <= 2 -> byte dup -> byte retained -> 0 <= id < 65536 -> zlen data < 65536 ->
    zlen topic < 65536 -> 4 <= rlen ->
    _serialize_publish_packet buf buf_len dup qos retained id topic (Some data) (zlen data) = Ok (b, n) ->
    let rx := take (Z.to_nat n) b ++ rest in
    exists f, deserialize_publish_packet rx rlen = Ok f /\
      pk_dup f = dup `mod` 2 /\ pk_qos f = qos /\ pk_retained f = retained `mod` 2 /\
      pk_id f = (if decide (qos > 0) then Some id else None) /\
      pk_topic_len f = zlen topic /\ slice_at rx (pk_topic f) (pk_topic_len f) = Ok topic /\
      pk_payload_len f = zlen data /\ slice_at rx (pk_payload f) (pk_payload_len f) = Ok data) /\
  (forall buf f,
    Forall byte buf -> deserialize_publish_packet buf rlen = Ok f ->
    exists d k, mqtt_read_packet_rem_len_form_buf buf 1 = Ok (d, k) /\
    let endp := 1 + k + d in
    0 < pk_topic f /\ 0 <= pk_topic_len f <= UIOT_MQTT_RX_BUF_LEN /\
    pk_topic f + pk_topic_len f <= endp /\ pk_topic f + pk_topic_len f <= pk_payload f /\
    (pk_payload f <= endp -> 0 <= pk_payload_len f /\ pk_payload f + pk_payload_len f = endp /\
      (endp <= zlen buf <-> slice_at buf (pk_payload f) (pk_payload_len f) <> Oob)) /\
    (endp <= zlen buf -> exists topic, slice_at buf (pk_topic f) (pk_topic_len f) = Ok topic /\ zlen topic = pk_topic_len f) /\
    (endp < pk_payload f ->
       pk_qos f <> QOS0 /\ pk_payload f <= endp + 2 /\
       pk_payload_len f = 4294967296 - (pk_payload f - endp))).
Proof.
  split; intros; [by eapply publish_reads_back|].
  destruct (publish_rem_len buf rlen f) as (d & k & Hr); [done|]. exists d, k. split; [exact Hr|].
  destruct (publish_fields_in buf rlen f d k) as (Ht & Hl & He & Hs & Hp & Hw); [done..|].
  split_and!; [lia..| | |exact Hw].
  - intros Hin. destruct (Hp Hin) as [? ?]. split_and!; [done..|]. rewrite slice_at_inside by lia. lia.
  - intros Hin. assert (Hok : slice_at buf (pk_topic f) (pk_topic_len f) <> Oob) by (rewrite slice_at_inside by lia; lia).
    destruct (slice_at _ _ _) as [topic|e|] eqn:E; [|by apply slice_at_no_err in E|done]. exists topic. split; [done|].
    apply slice_at_ok in E as (_ & _ & ? & ->). rewrite length_take, length_drop. lia.
Qed.

(* ================================================================== *)
(** ** Concrete packets *)

Definition buf64 : bytes := repeat 0 64.
Definition topic0 : bytes := bytes_of "a/b".
Definition data0 : bytes := bytes_of "hello".

Definition options0 : MQTTConnectParams :=
  mkConnectParams (Some (bytes_of "dev")) (Some (bytes_of "u")) (Some (bytes_of "pw")) 4 240 1 1.

Lemma serializers_correct_witness :
  _serialize_publish_packet buf64 64 0 1 0 7 topic0 (Some data0) (zlen data0) =
    Ok (wr buf64 (Spec.publish 0 1 0 7 topic0 data0), 14) /\
  _serialize_subscribe_packet buf64 64 0 7 1 topic0 [1] = Ok (wr buf64 [130; 8; 0; 7; 0; 3; 97; 47; 98; 1], 10) /\
  serialize_pub_ack_packet buf64 64 PUBACK 0 7 = Ok (wr buf64 [64; 2; 0; 7], 4) /\
  _serialize_connect_packet buf64 64 options0 =
    Ok (wr buf64 (Spec.connect true 240 (bytes_of "dev") (Some (bytes_of "u")) (Some (bytes_of "pw"))), 24).
Proof.
  destruct (serializers_correct buf64 64 0 7) as [Hp Hs]; [by_eval..|]. destruct Hs as (Hs & Ha & Hc); [by_eval|]. split_and!.
  - refine (eq_trans (Hp 1 0 topic0 data0 data0 _ _ _ _ _ _) _); by_eval || reflexivity.
  - refine (eq_trans (proj1 (Hs topic0 1 _ _)) _); by_eval || reflexivity.
  - refine (eq_trans (proj2 (Ha PUBACK _)) _); by_eval || reflexivity.
  - refine (eq_trans (Hc options0 (bytes_of "dev") _ _ _ _ _ _) _); by_eval || reflexivity.
Defined.

Lemma rem_len_roundtrip_witness :
  exists enc, 1 <= zlen enc <= 4 /\
    mqtt_write_packet_rem_len (wr buf64 [48]) (zlen [48]) 321 = Ok (wr buf64 ([48] ++ enc), zlen enc) /\
    mqtt_read_packet_rem_len_form_buf ([48] ++ enc ++ [9; 9]) (zlen [48]) = Ok (321, zlen enc).
Proof. refine (rem_len_roundtrip 321 buf64 [48] [9; 9] _ _); by_eval. Defined.

(** A PUBLISH of QoS 1 whose declared length ends behind its topic. *)
Definition truncated_publish : bytes := [50; 3; 0; 1; 97; 9; 9; 9].
Definition truncated_fields : publish_fields := mkPublish 0 1 0 (Some 2313) 4 1 7 4294967294.

Lemma publish_decode_correct_witness :
  (exists f, deserialize_publish_packet (Spec.publish 0 1 0 7 topic0 data0 ++ [1; 2; 3]) 64 = Ok f /\
    pk_id f = Some 7 /\ pk_payload_len f = 5) /\
  pk_payload_len truncated_fields = 4294967296 - (pk_payload truncated_fields - (1 + 1 + 3)).
Proof.
  destruct (publish_decode_correct 64) as [Hback Hin]. split.
  - destruct (Hback buf64 64 0 1 0 7 topic0 data0 [1; 2; 3]
      (wr buf64 (Spec.publish 0 1 0 7 topic0 data0)) 14) as (f & H1 & H2 & H3 & H4 & H5 & H6 & H7 & H8 & H9);
      [by_eval..|].
    exists f. split; [exact H1|]. split; [exact H5|exact H8].
  - destruct (Hin truncated_publish truncated_fields) as (d & k & Hr & _ & _ & _ & _ & _ & _ & Hw);
      [by_eval|vm_compute; reflexivity|].
    assert (Hdk : Ok (d, k) = Ok (3, 1)) by (rewrite <- Hr; vm_compute; reflexivity). injection Hdk as -> ->.
    apply Hw. vm_compute. reflexivity.
Defined.



