(* ===== verification/MqttTopic.v ===== *)
(** Topic filters: [_is_topic_equals] and [_is_topic_matched] of
    [uiot/mqtt/src/mqtt_client_common.c], against the level-by-level matching
    of MQTT 3.1.1 (section 4.7).

    The filter is a C string, so its cursor [curf] is the list of the
    characters left; the name is an array with an explicit length, so its
    cursor [curn] is an index. *)

From S2P Require Import Prelude.

Definition slash : Z := 47.
Definition plus : Z := 43.
Definition hash : Z := 35.

(** [*curf], the terminator included. *)
Definition cur (f : bytes) : Z := match f with [] => 0 | c :: _ => c end.

Definition _is_topic_equals (topic_filter topicName : bytes) : bool :=
  bool_decide (zlen topic_filter = zlen topicName) && bool_decide (topic_filter = topicName).

(** [while (nextpos < curn_end && *nextpos != '/') nextpos = ++curn + 1;]:
    [n] counts the characters left, [nextpos] is [curn + 1]. *)
Fixpoint skip_loop (n : nat) (name : bytes) (curn : Z) : res Z :=
  match n with
  | O => Ok curn
  | S n =>
      c ← get_at name (curn + 1);
      if decide (c <> slash) then skip_loop n name (curn + 1) else Ok curn
  end.

(** The [while] loop: returns the two cursors. *)
Fixpoint match_loop (curf : bytes) (name : bytes) (curn curn_end : Z) : res (bytes * Z) :=
  match curf with
  | [] => Ok (curf, curn)
  | f :: curf' =>
      if decide (curn < curn_end) then
        n ← get_at name curn;
        if decide (f = plus /\ n = slash) then match_loop curf' name curn curn_end
        else if decide (n = slash /\ f <> slash) then Ok (curf, curn)
        else if decide (f <> plus /\ f <> hash /\ f <> n) then Ok (curf, curn)
        else
          curn ← (if decide (f = plus) then
                    skip_loop (Z.to_nat (curn_end - (curn + 1))) name curn
                  else if decide (f = hash) then Ok (curn_end - 1)
                  else Ok curn);
          match_loop curf' name (curn + 1) curn_end
      else Ok (curf, curn)
  end.

(** The [return] statements behind the loop. *)
Definition match_end (curf : bytes) (topicName : bytes) (curn curn_end : Z) : res bool :=
  match curf with
  | [] => Ok (bool_decide (curn = curn_end))
  | c :: rest =>
      if decide (c = hash) then Ok true
      else if decide (cur rest = hash) then Ok true
      else if decide (c = plus) then
        p ← get_at topicName (curn - 1); Ok (bool_decide (p = slash))
      else Ok false
  end.

Definition _is_topic_matched (topic_filter topicName : bytes) (topicNameLen : Z) : res bool :=
  '(curf, curn) ← match_loop topic_filter topicName 0 topicNameLen;
  match_end curf topicName curn topicNameLen.

(* ------------------------------------------------------------------ *)
(** ** Matching by levels *)

(** The topic levels of a name or a filter: the strings between slashes. *)
Fixpoint levels (s : bytes) : list bytes :=
  match s with
  | [] => [[]]
  | c :: s =>
      if decide (c = slash) then [] :: levels s
      else match levels s with [] => [[c]] | l :: ls => (c :: l) :: ls end
  end.

(** ["+"] matches one level, a final ["#"] any number of levels. *)
Fixpoint levels_match (fs ns : list bytes) : bool :=
  match fs with
  | [] => match ns with [] => true | _ => false end
  | f :: fs =>
      if decide (f = [hash]) then true
      else match ns with
           | [] => false
           | n :: ns => (bool_decide (f = [plus]) || bool_decide (f = n)) && levels_match fs ns
           end
  end.

Definition topic_matches (filter name : bytes) : bool := levels_match (levels filter) (levels name).

(** A well-formed filter: ["#"] only as the last level, ["+"] and ["#"] only
    as whole levels.  [start] says that a level starts here. *)
Fixpoint filter_ok (start : bool) (f : bytes) : bool :=
  match f with
  | [] => true
  | c :: f =>
      if decide (c = plus) then start && bool_decide (f = [] \/ cur f = slash) && filter_ok false f
      else if decide (c = hash) then start && bool_decide (f = [])
      else filter_ok (bool_decide (c = slash)) f
  end.

(* ------------------------------------------------------------------ *)
(** ** Matching by characters *)

(** The rest of a name behind its first level. *)
Fixpoint drop_level (n : bytes) : bytes :=
  match n with
  | [] => []
  | c :: n' => if decide (c = slash) then n else drop_level n'
  end.

Fixpoint cmatch (f n : bytes) : bool :=
  match f with
  | [] => bool_decide (n = [])
  | c :: f' =>
      if decide (c = hash) then true
      else if decide (c = plus) then cmatch f' (drop_level n)
      else match n with
           | [] => bool_decide (c = slash /\ f' = [hash])
           | d :: n' => bool_decide (c = d) && cmatch f' n'
           end
  end.

(** Inside a level: the rest of the filter's level must equal the name's. *)
Definition mid_match (f n : bytes) : bool :=
  match levels f, levels n with
  | lf :: fs, ln :: ns => bool_decide (lf = ln) && levels_match fs ns
  | _, _ => false
  end.

Lemma levels_cons s : exists l ls, levels s = l :: ls.
Proof.
  destruct s as [|c s]; cbn; [eauto|]. case_decide; [eauto|].
  destruct (levels s); eauto.
Qed.

Lemma levels_drop n : exists l, levels n = l :: (match drop_level n with [] => [] | _ :: n' => levels n' end).
Proof.
  induction n as [|c n [l IH]]; cbn; [by exists []|].
  case_decide as Hc; [by exists []|]. rewrite IH. by exists (c :: l).
Qed.

Lemma drop_level_head n : drop_level n = [] \/ exists n', drop_level n = slash :: n'.
Proof.
  induction n as [|c n IH]; cbn; [by left|]. case_decide; [subst; right; eauto|done].
Qed.

(** The filter's cursor behind a whole level, the name's behind its level. *)
Definition tail_match (f n : bytes) : bool :=
  levels_match (match f with [] => [] | _ :: f' => levels f' end)
               (match n with [] => [] | _ :: n' => levels n' end).

Lemma filter_ok_hash f : filter_ok true f = true -> levels f = [[hash]] <-> f = [hash].
Proof.
  intros Hf. split; [|by intros ->].
  destruct f as [|c f]; cbn; [done|]. case_decide; [by destruct (levels_cons f) as (?&?&->)|].
  destruct (levels_cons f) as (l & ls & Hl). rewrite Hl. intros [= -> -> ->].
  cbn in Hf. rewrite decide_False, decide_True in Hf by done.
  f_equal. by apply bool_decide_eq_true in Hf.
Qed.

Lemma levels_match_nil f : filter_ok true f = true ->
  levels_match (levels f) [] = bool_decide (f = [hash]).
Proof.
  intros Hf. destruct (levels_cons f) as (l & ls & Hl). rewrite Hl. cbn.
  case_decide as Hh; symmetry; [apply bool_decide_eq_true|apply bool_decide_eq_false].
  - subst. destruct f as [|c f]; cbn in Hl; [done|]. case_decide; [done|].
    destruct (levels_cons f) as (l & ls' & Hl'). rewrite Hl' in Hl. injection Hl as -> -> ->.
    cbn in Hf. f_equal. by apply bool_decide_eq_true in Hf.
  - intros ->. cbn in Hl. by injection Hl as <- <-.
Qed.

(** Where the filter's level has no wildcard, levels are compared as strings. *)
Lemma mid_match_ordinary c f n : c <> plus -> c <> hash ->
  levels_match (levels (c :: f)) (levels n) = mid_match (c :: f) n.
Proof.
  intros Hp Hh. unfold mid_match. destruct (levels_cons n) as (ln & ns & Hn). rewrite Hn.
  destruct (levels_cons (c :: f)) as (lf & fs & Hl). rewrite Hl.
  assert (lf <> [hash] /\ lf <> [plus]) as [H1 H2].
  { cbn in Hl. case_decide; [by injection Hl as <- <-|].
    destruct (levels f); injection Hl as <- <-; split; congruence. }
  cbn. rewrite decide_False by done. by rewrite (bool_decide_false (lf = [plus])).
Qed.

Lemma mid_match_nil n : mid_match [] n = bool_decide (n = []).
Proof.
  unfold mid_match. destruct n as [|c n]; [done|]. cbn.
  destruct (levels_cons n) as (l & ls & Hl). rewrite Hl. by case_decide.
Qed.

Lemma mid_match_cons c f n : c <> plus -> c <> hash -> filter_ok (bool_decide (c = slash)) f = true ->
  mid_match (c :: f) n =
  match n with
  | [] => bool_decide (c = slash /\ f = [hash])
  | d :: n => bool_decide (c = d) &&
      (if decide (c = slash) then levels_match (levels f) (levels n) else mid_match f n)
  end.
Proof.
  intros Hp Hh Hf. unfold mid_match. cbn [levels].
  destruct (levels_cons f) as (lf & fs & Hl).
  destruct (decide (c = slash)) as [->|Hs]; cbn [bool_decide].
  - destruct n as [|d n]; cbn [levels].
    + change (bool_decide ([] = [])) with true. cbn [andb].
      rewrite levels_match_nil by done. apply bool_decide_ext. naive_solver.
    + destruct (levels_cons n) as (ln & ns & Hn). destruct (decide (d = slash)) as [->|Hd].
      * rewrite !bool_decide_true by done. done.
      * rewrite Hn. rewrite !bool_decide_false by congruence. done.
  - rewrite Hl. destruct n as [|d n]; cbn [levels].
    + rewrite !bool_decide_false by (intros ?; naive_solver). done.
    + destruct (levels_cons n) as (ln & ns & Hn). rewrite Hn. destruct (decide (d = slash)) as [->|Hd].
      * rewrite !bool_decide_false by congruence. done.
      * destruct (decide (c = d)) as [->|Hcd].
        -- rewrite (bool_decide_true (d = d)) by done. cbn [andb]. f_equal.
           apply bool_decide_ext. naive_solver.
        -- rewrite !bool_decide_false by congruence. done.
Qed.

(** The two ways of matching agree on well-formed filters. *)
Lemma cmatch_levels f : forall n,
  (filter_ok true f = true -> cmatch f n = topic_matches f n) /\
  (filter_ok false f = true -> cmatch f n = mid_match f n).
Proof.
  unfold topic_matches. induction f as [|c f IH]; intros n.
  - assert (cmatch [] n = mid_match [] n) as H by (by rewrite mid_match_nil). split; [|done].
    intros _. rewrite H. unfold mid_match. destruct (levels_cons n) as (l & ls & ->). done.
  - cbn [filter_ok cmatch]. destruct (decide (c = hash)) as [->|Hh].
    + rewrite decide_False by done. split; cbn [andb]; [|done].
      intros Hx%bool_decide_eq_true. subst. by destruct (levels_cons n) as (l & ls & ->).
    + destruct (decide (c = plus)) as [->|Hp].
      * split; cbn [andb]; [|done]. rewrite andb_true_iff, bool_decide_eq_true.
        intros [Hsl Hok]. rewrite (proj2 (IH _)) by done.
        destruct (levels_drop n) as [l Hl]. rewrite Hl. unfold mid_match.
        assert (Hf : levels (plus :: f) = [plus] :: match f with [] => [] | _ :: f' => levels f' end).
        { destruct f as [|c f]; [done|]. destruct Hsl as [?|Hc]; [done|]. cbn in Hc. by subst. }
        rewrite Hf. cbn [levels_match]. rewrite decide_False by done.
        rewrite bool_decide_true by done. cbn [orb andb].
        destruct f as [|c f]; [|destruct Hsl as [?|Hc]; [done|]; cbn in Hc; subst c];
          destruct (drop_level_head n) as [->|[n' ->]]; cbn [levels];
          rewrite ?decide_True by done; rewrite ?(bool_decide_true ([] = [])) by done; done.
      * assert (Hb : filter_ok (bool_decide (c = slash)) f = true ->
          match n with [] => bool_decide (c = slash /\ f = [hash])
          | d :: n' => bool_decide (c = d) && cmatch f n' end = mid_match (c :: f) n).
        { intros Hok. rewrite mid_match_cons by done. destruct n as [|d n]; [done|].
          f_equal. destruct (decide (c = slash)) as [->|Hs].
          - by apply IH.
          - rewrite bool_decide_false in Hok by done. by apply IH. }
        split; intros Hok; rewrite (Hb Hok); [|done]. by rewrite mid_match_ordinary.
Qed.

(* ------------------------------------------------------------------ *)
(** ** What the code computes, without indexes

    [pre] is the part of the name behind the cursor, [r] the part in front. *)

Definition stop (c : Z) (f : bytes) (pre : bytes) : res bool :=
  if decide (c = hash) then Ok true
  else if decide (cur f = hash) then Ok true
  else if decide (c = plus) then
    match last pre with Some p => Ok (bool_decide (p = slash)) | None => Oob end
  else Ok false.

(** The characters of the first level, and of the name up to its end. *)
Fixpoint level_len (r : bytes) : nat :=
  match r with
  | [] => 0
  | c :: r => if decide (c = slash) then 0 else S (level_len r)
  end.

Fixpoint amatch (f pre r : bytes) : res bool :=
  match f with
  | [] => Ok (bool_decide (r = []))
  | c :: f' =>
      match r with
      | [] => stop c f' pre
      | d :: r' =>
          if decide (c = plus /\ d = slash) then amatch f' pre r
          else if decide (d = slash /\ c <> slash) then stop c f' pre
          else if decide (c <> plus /\ c <> hash /\ c <> d) then stop c f' pre
          else if decide (c = plus) then
            amatch f' (pre ++ take (level_len r) r) (drop_level r)
          else if decide (c = hash) then amatch f' (pre ++ r) []
          else amatch f' (pre ++ [d]) r'
      end
  end.

Lemma level_split r : r = take (level_len r) r ++ drop_level r /\ (level_len r <= length r)%nat.
Proof.
  induction r as [|c r [IH IHl]]; cbn; [done|].
  case_decide; cbn; [split; [done|lia]|]. split; [by f_equal|lia].
Qed.

Lemma skip_loop_spec r (pre post : bytes) d :
  skip_loop (length r) (pre ++ d :: r ++ post) (zlen pre) = Ok (zlen pre + Z.of_nat (level_len r)).
Proof.
  revert pre d. induction r as [|c r IH]; intros pre d; cbn [length skip_loop level_len].
  - by rewrite Z.add_0_r.
  - rewrite (get_at_off pre _ _ 1) by lia.
    change (get_at (d :: (c :: r) ++ post) 1) with (Ok c). cbn [mbind res_bind].
    destruct (decide (c = slash)) as [->|Hc].
    + rewrite decide_False by tauto. by rewrite Z.add_0_r.
    + rewrite decide_True by done. specialize (IH (pre ++ [d]) c).
      rewrite <- app_assoc in IH. cbn [app] in IH. rewrite length_app in IH. cbn [length] in IH.
      replace (zlen pre + 1) with (Z.of_nat (length pre + 1)) by lia.
      cbn [app]. rewrite IH. f_equal. lia.
Qed.

Lemma match_end_stop c f (pre r post : bytes) e :
  match_end (c :: f) (pre ++ r ++ post) (zlen pre) e = stop c f pre.
Proof.
  unfold match_end, stop. repeat (case_decide; [done|]). case_decide; [|done].
  destruct pre as [|x pre _] using rev_ind.
  - cbn [last]. unfold get_at. by rewrite decide_False by (cbn; lia).
  - rewrite last_snoc, <- app_assoc. rewrite (get_at_off pre _ _ 0) by (rewrite ?length_app; cbn; lia).
    done.
Qed.

Lemma matched_amatch f : forall pre r post : bytes,
  ('(curf, curn) ← match_loop f (pre ++ r ++ post) (zlen pre) (zlen (pre ++ r));
   match_end curf (pre ++ r ++ post) curn (zlen (pre ++ r))) = amatch f pre r.
Proof.
  induction f as [|c f IH]; intros pre r post; cbn [match_loop amatch].
  - cbn [mbind res_bind match_end]. f_equal. apply bool_decide_ext. rewrite length_app.
    destruct r; cbn [length]; split; intros; try done; lia.
  - destruct r as [|d r].
    + rewrite decide_False by (rewrite length_app; cbn; lia). cbn [mbind res_bind].
      apply match_end_stop.
    + rewrite decide_True by (rewrite length_app; cbn; lia).
      rewrite (get_at_off pre _ _ 0) by lia.
      change (get_at ((d :: r) ++ post) 0) with (Ok d). cbn [mbind res_bind].
      destruct (decide (c = plus /\ d = slash)); [apply IH|].
      destruct (decide (d = slash /\ c <> slash)); [apply match_end_stop|].
      destruct (decide (c <> plus /\ c <> hash /\ c <> d)); [apply match_end_stop|].
      destruct (decide (c = plus)) as [->|Hp]; [|destruct (decide (c = hash)) as [->|Hh]].
      * assert (Hd : d <> slash) by naive_solver.
        replace (Z.to_nat (zlen (pre ++ d :: r) - (zlen pre + 1))) with (length r)
          by (rewrite length_app; cbn [length]; lia).
        change ((d :: r) ++ post) with (d :: r ++ post).
        rewrite (skip_loop_spec r pre post d). cbn [mbind res_bind level_len drop_level].
        rewrite !decide_False by done. cbn [take].
        destruct (level_split r) as [Hr Hl].
        specialize (IH (pre ++ d :: take (level_len r) r) (drop_level r) post).
        rewrite <- !app_assoc in IH. cbn [app] in IH.
        rewrite (app_assoc (take _ _)), <- Hr in IH. rewrite <- IH.
        rewrite !length_app. cbn [length]. rewrite length_take_le by done.
        replace (zlen pre + Z.of_nat (level_len r) + 1)
          with (Z.of_nat (length pre + S (level_len r))) by lia. done.
      * cbn [mbind res_bind]. specialize (IH (pre ++ d :: r) [] post).
        rewrite app_nil_r, <- app_assoc in IH. cbn [app] in IH. rewrite <- IH.
        rewrite Z.sub_add. done.
      * cbn [mbind res_bind]. specialize (IH (pre ++ [d]) r post).
        rewrite <- !app_assoc in IH. cbn [app] in IH. rewrite <- IH.
        rewrite !length_app. cbn [length]. replace (zlen pre + 1) with (Z.of_nat (length pre + 1)) by lia.
        done.
Qed.

(* ------------------------------------------------------------------ *)
(** ** Completeness and soundness *)

Definition plain (c : Z) : Prop := c <> plus /\ c <> hash.

Lemma plain_drop_level r : Forall plain r -> Forall plain (drop_level r).
Proof. induction 1 as [|c r Hc Hr IH]; cbn; [done|]. case_decide; auto. Qed.

Lemma app_take_drop_level (pre r : bytes) :
  (pre ++ take (level_len r) r) ++ drop_level r = pre ++ r.
Proof. destruct (level_split r) as [Hr _]. by rewrite <- app_assoc, <- Hr. Qed.

Lemma amatch_complete f : forall start (pre r : bytes),
  filter_ok start f = true -> (start = true -> pre = [] \/ last pre = Some slash) ->
  pre ++ r <> [] -> Forall plain r -> cmatch f r = true -> amatch f pre r = Ok true.
Proof.
  induction f as [|c f IH]; intros start pre r Hf Hs Hne Hr Hm; cbn [amatch cmatch filter_ok] in *.
  { by rewrite Hm. }
  destruct (decide (c = hash)) as [->|Hh]; [|destruct (decide (c = plus)) as [->|Hp]].
  - rewrite decide_False in Hf by done. apply andb_prop in Hf as [_ Hf].
    apply bool_decide_eq_true in Hf as ->. destruct r as [|d r]; [done|].
    rewrite decide_False by (intros [? _]; done).
    case_decide; [done|]. rewrite decide_False by tauto. done.
  - rewrite !andb_true_iff, bool_decide_eq_true in Hf. destruct Hf as [[-> Hsl] Hf].
    destruct r as [|d r].
    + unfold stop. rewrite decide_False by done. case_decide; [done|]. rewrite decide_True by done.
      destruct (Hs eq_refl) as [Hx | Hx]; [by subst|]. rewrite Hx. by rewrite bool_decide_true.
    + destruct (decide (plus = plus /\ d = slash)) as [[_ ->]|Hd].
      * cbn [drop_level] in Hm. rewrite decide_True in Hm by done. by eapply IH.
      * rewrite decide_False by naive_solver. rewrite decide_False by tauto.
        apply (IH false); try done; [by rewrite app_take_drop_level|by apply plain_drop_level].
  - destruct r as [|d r].
    + apply bool_decide_eq_true in Hm as [-> ->]. done.
    + apply andb_prop in Hm as [Hcd%bool_decide_eq_true Hm]. subst d.
      rewrite decide_False by tauto. rewrite decide_False by tauto.
      rewrite decide_False by tauto.
      apply Forall_cons in Hr as [_ Hr].
      eapply (IH _ (pre ++ [c])); [exact Hf| |by rewrite <- app_assoc|done|done].
      intros Hcs%bool_decide_eq_true. subst c. right. apply last_snoc.
Qed.

Lemma amatch_sound f : forall start (pre r : bytes),
  filter_ok start f = true -> Forall (fun c => c <> hash) f -> last (pre ++ r) <> Some slash ->
  amatch f pre r = Ok true -> cmatch f r = true.
Proof.
  assert (Hstop : forall c f pre, Forall (fun c => c <> hash) (c :: f) ->
    stop c f pre = Ok true -> c = plus /\ last pre = Some slash).
  { intros c f' pre [Hc Hf']%Forall_cons. unfold stop. rewrite decide_False by done.
    rewrite decide_False by (destruct f'; [done|]; by apply Forall_cons in Hf' as [? _]).
    case_decide; [|done]. destruct (last pre) as [x|]; [|done].
    intros [= Hx%bool_decide_eq_true]. by subst. }
  induction f as [|c f IH]; intros start pre r Hf Hh Hl Hm; cbn [amatch cmatch filter_ok] in *.
  { by injection Hm. }
  pose proof Hh as [Hc Hh']%Forall_cons. cbn beta in Hc. rewrite !decide_False in * by done.
  destruct (decide (c = plus)) as [->|Hp].
  - rewrite !andb_true_iff in Hf. destruct Hf as [_ Hf]. destruct r as [|d r].
    + apply Hstop in Hm as [_ Hm]; [|done]. by rewrite app_nil_r in Hl.
    + destruct (decide (plus = plus /\ d = slash)) as [[_ ->]|Hd].
      * cbn [drop_level]. rewrite decide_True by done. by eapply IH.
      * rewrite decide_False in Hm by naive_solver. rewrite decide_False in Hm by tauto.
        eapply (IH _ (pre ++ take (level_len (d :: r)) (d :: r))); [done|done|by rewrite app_take_drop_level|done].
  - destruct r as [|d r].
    + by apply Hstop in Hm as [? _].
    + rewrite decide_False in Hm by tauto.
      case_decide; [by apply Hstop in Hm as [? _]|].
      case_decide; [by apply Hstop in Hm as [? _]|].
      assert (c = d) as -> by (destruct (decide (c = d)); tauto).
      rewrite bool_decide_true by done. rewrite !decide_False in Hm by done. eapply (IH _ (pre ++ [d]) r); [done|done|by rewrite <- app_assoc|done].
Qed.

Lemma amatch_defined f : forall (pre r : bytes), pre ++ r <> [] -> exists b, amatch f pre r = Ok b.
Proof.
  assert (Hstop : forall c f (pre : bytes), (c = plus -> pre <> []) -> exists b, stop c f pre = Ok b).
  { intros c f' pre Hc. unfold stop. repeat (case_decide; [by eauto|]). case_decide; [|eauto].
    destruct (last pre) eqn:Hl; [eauto|]. apply last_None in Hl. exfalso; by apply Hc. }
  induction f as [|c f IH]; intros pre r Hne; cbn [amatch]; [eauto|].
  destruct r as [|d r].
  - apply Hstop. rewrite app_nil_r in Hne. done.
  - destruct (decide (c = plus /\ d = slash)); [by apply IH|].
    case_decide; [apply Hstop; naive_solver|]. case_decide; [apply Hstop; naive_solver|].
    case_decide; [apply IH; by rewrite app_take_drop_level|].
    case_decide; apply IH; by destruct pre.
Qed.

Lemma is_topic_matched_amatch f (name post : bytes) :
  _is_topic_matched f (name ++ post) (zlen name) = amatch f [] name.
Proof. exact (matched_amatch f [] name post). Qed.

(** No subscription is missed: whenever a well-formed filter matches a
    non-empty topic name level by level as MQTT 3.1.1 prescribes ("+" one
    level, a final "#" any number of levels, the parent level included), the
    character matcher says so, without reading outside the name. *)
Lemma topic_not_missed f (name post : bytes) :
  filter_ok true f = true -> name <> [] -> Forall plain name ->
  topic_matches f name = true -> _is_topic_matched f (name ++ post) (zlen name) = Ok true.
Proof.
  intros Hf Hne Hn Hm. rewrite is_topic_matched_amatch.
  eapply amatch_complete; [exact Hf|by left|done|done|].
  by rewrite (proj1 (cmatch_levels f name)).
Qed.

Lemma topic_match_plain f (name post : bytes) :
  filter_ok true f = true -> Forall (fun c => c <> hash) f -> Forall plain name ->
  name <> [] -> last name <> Some slash ->
  _is_topic_matched f (name ++ post) (zlen name) = Ok (topic_matches f name).
Proof.
  intros Hf Hh Hn Hne Hl. rewrite is_topic_matched_amatch.
  destruct (amatch_defined f [] name) as [b Hb]; [done|]. rewrite Hb. f_equal.
  rewrite <- (proj1 (cmatch_levels f name)) by done.
  destruct b, (cmatch f name) eqn:Hc; try done.
  - by rewrite (amatch_sound f true [] name) in Hc.
  - rewrite (amatch_complete f true [] name) in Hb; try done. by left.
Qed.

(** C40: no subscription is missed: whenever a well-formed filter matches a
    non-empty topic name level by level as MQTT 3.1.1 prescribes ("+" one
    level, a final "#" any number of levels, the parent level included), the
    character matcher says so, without reading outside the name.  For filters without "#" and names that do not end in a slash the
    character matcher accepts exactly the names that match level by level; it
    always returns.  Outside those conditions it is too generous: the filter
    "a/#" accepts "abc" (the look-ahead for "#" behind the cursor is taken
    although the level differs), and "a/+/b" accepts "a/" (the name is used up
    while the filter still has a level), though neither matches level by level;
    and with an empty name a filter that starts with "+" reads the byte before
    the name. *)
Theorem topic_match_exact :
  (forall f (name post : bytes),
     filter_ok true f = true -> name <> [] -> Forall plain name ->
     topic_matches f name = true -> _is_topic_matched f (name ++ post) (zlen name) = Ok true) /\
  (forall f (name post : bytes),
     filter_ok true f = true -> Forall (fun c => c <> hash) f -> Forall plain name ->
     name <> [] -> last name <> Some slash ->
     _is_topic_matched f (name ++ post) (zlen name) = Ok (topic_matches f name)) /\
  (_is_topic_matched (bytes_of "a/#") (bytes_of "abc") 3 = Ok true /\
   topic_matches (bytes_of "a/#") (bytes_of "abc") = false) /\
  (_is_topic_matched (bytes_of "a/+/b") (bytes_of "a/") 2 = Ok true /\
   topic_matches (bytes_of "a/+/b") (bytes_of "a/") = false) /\
  _is_topic_matched (bytes_of "+") [] 0 = Oob.
Proof. split; [apply topic_not_missed|]. split; [apply topic_match_plain|]. vm_compute. repeat split. Qed.

Lemma topic_match_exact_witness :
  _is_topic_matched (bytes_of "s/+/x/#") (bytes_of "s/dev/x" ++ [0; 0]) 7 = Ok true /\
  _is_topic_matched (bytes_of "s/+/x") (bytes_of "s/dev/y" ++ []) 7 = Ok false.
Proof.
  destruct topic_match_exact as (Hall & Hplain & _). split.
  - refine (Hall (bytes_of "s/+/x/#") (bytes_of "s/dev/x") [0; 0] _ _ _ _); [reflexivity|by_eval| |reflexivity].
    repeat (constructor; [split; by_eval|]). constructor.
  - refine (eq_trans (Hplain (bytes_of "s/+/x") (bytes_of "s/dev/y") [] _ _ _ _ _) _);
      [reflexivity|by_eval| |by_eval|by_eval|reflexivity].
    repeat (constructor; [split; by_eval|]). constructor.
Defined.
