(* ===== verification/MqttState.v ===== *)
(** The state of the MQTT client ([uiot/mqtt/include/mqtt_client.h]), the
    environment it runs in, and the monad its functions are written in.

    The environment is what is not MQTT code: the tick counter, the allocator,
    the network stack behind the function pointers of [network_stack], and the
    application's callbacks.  The [topic_filter] strings are allocated objects:
    they live in a heap, so that a double free or a use after free is visible
    as undefined behaviour. *)

From S2P Require Import Prelude Defs HalTimer MqttWire.

(* ------------------------------------------------------------------ *)
(** ** The environment *)

(** What the client calls: RT-Thread's clock and sleep, [HAL_Malloc] (which
    may fail), and the four functions of [network_stack].  [net_read len t]
    returns the function's result and the bytes it stored. *)
Class Env (W : Type) := {
  rt_tick_get : W -> Z * W;
  rt_tick_from_millisecond : Z -> Z;
  HAL_SleepMs : Z -> W -> W;
  malloc_ok : W -> bool * W;
  net_connect : W -> Z * W;
  net_disconnect : W -> Z * W;
  net_read : Z -> Z -> W -> Z * bytes * W;
  net_write : bytes -> Z -> W -> Z * W
}.

(** What the client relies on: a read stores at most [len] bytes and a
    positive result counts them; a result of [net_write] is an error or the
    positive number of bytes written. *)
Class EnvLaws (W : Type) `{Env W} := {
  tick_range : forall w, 0 <= (rt_tick_get w).1 < 4294967296;
  read_law : forall len t w r data w', net_read len t w = (r, data, w') -> 0 <= len ->
    zlen data <= len /\ Forall byte data /\ (0 < r -> zlen data = r);
  write_law : forall data t w r w', net_write data t w = (r, w') -> data <> [] ->
    r < 0 \/ 0 < r <= zlen data
}.

(** What an observer of the connection sees: the bytes the network has taken
    so far, and the bytes it will still deliver. *)
Class NetLog (W : Type) `{Env W} := {
  stream : W -> bytes;
  incoming : W -> bytes;
  tick_stream : forall w, stream (rt_tick_get w).2 = stream w;
  malloc_stream : forall w, stream (malloc_ok w).2 = stream w;
  write_stream : forall data t w r w', net_write data t w = (r, w') ->
    stream w' = stream w ++ take (Z.to_nat r) data;
  tick_incoming : forall w, incoming (rt_tick_get w).2 = incoming w;
  read_incoming : forall len t w r data w', net_read len t w = (r, data, w') ->
    incoming w = data ++ incoming w'
}.

(** An environment in which nothing goes wrong for a while: memory is there,
    the network takes every write whole, no timer runs out.  [calm] is the set
    of its states, [calm_now] the time they show. *)
Class Calm (W : Type) `{Env W} := {
  calm : W -> Prop;
  calm_now : Z;
  calm_tick : forall w, calm w -> (rt_tick_get w).1 = calm_now /\ calm (rt_tick_get w).2;
  calm_malloc : forall w, calm w -> (malloc_ok w).1 = true /\ calm (malloc_ok w).2;
  calm_write : forall data t w, calm w ->
    (net_write data t w).1 = zlen data /\ calm (net_write data t w).2;
  calm_deadline : forall ms, 500 <= ms <= 5000 ->
    has_expired (countdown_ms rt_tick_from_millisecond ms calm_now) calm_now = false
}.

(* ------------------------------------------------------------------ *)
(** ** Data *)

Section data.
Context (H : Type).

(** [MQTTMessage] as it is given to a callback: [topic] points to a C string,
    [payload] is an index of the read buffer, [id] is unset for QoS 0. *)
Record MQTTMessage := mkMessage {
  qos : Z;
  retained : Z;
  dup : Z;
  id : option Z;
  topic : bytes;
  topic_len : Z;
  payload : Z;
  payload_len : Z
}.

(** [SubTopicHandle]: [topic_filter] is an address of the heap or NULL,
    [message_handler] a function of the application or NULL. *)
Record SubTopicHandle := mkHandle {
  topic_filter : option positive;
  message_handler : option H;
  message_handler_data : Z;
  handler_qos : Z
}.

(** [UIoTPubInfo] and [UIoTSubInfo] *)
Record UIoTPubInfo := mkPubInfo {
  pub_start_time : Z;
  pub_node_state : MQTTNodeState;
  pub_msg_id : Z;
  pub_len : Z;
  pub_buf : bytes
}.

Record UIoTSubInfo := mkSubInfo {
  sub_type : Z;
  sub_msg_id : Z;
  sub_start_time : Z;
  sub_node_state : MQTTNodeState;
  sub_handler : SubTopicHandle;
  sub_len : Z;
  sub_buf : bytes
}.

(** The calls of the application's callbacks. *)
Inductive note :=
  | Notified (event_type : MQTTEventType) (msg : Z)
  | NotifiedMessage (m : MQTTMessage)
  | Delivered (h : H) (m : MQTTMessage) (data : Z).

End data.

Arguments mkHandle {H} _ _ _ _.
Arguments topic_filter {H} s.
Arguments message_handler {H} s.
Arguments message_handler_data {H} s.
Arguments handler_qos {H} s.
Arguments mkSubInfo {H} _ _ _ _ _ _ _.
Arguments sub_type {H} u.
Arguments sub_msg_id {H} u.
Arguments sub_start_time {H} u.
Arguments sub_node_state {H} u.
Arguments sub_handler {H} u.
Arguments sub_len {H} u.
Arguments sub_buf {H} u.
Arguments Notified {H} _ _.
Arguments NotifiedMessage {H} _.
Arguments Delivered {H} _ _ _.

Section state.
Context {W H : Type}.

(** [UIoT_Client].  A mutex is its lock count (RT-Thread's mutexes are
    recursive); the two ACK lists are the sequences their linked lists
    represent (see [LinkedList]), each node with its address. *)
Record Client := mkClient {
  is_connected : Z;
  was_manually_disconnected : Z;
  is_ping_outstanding : Z;
  next_packet_id : Z;
  command_timeout_ms : Z;
  current_reconnect_wait_interval : Z;
  counter_network_disconnected : Z;
  write_buf_size : Z;
  read_buf_size : Z;
  write_buf : bytes;
  read_buf : bytes;
  lock_generic : Z;
  lock_write_buf : Z;
  lock_list_pub : Z;
  lock_list_sub : Z;
  list_pub_wait_ack : list (positive * UIoTPubInfo);
  list_sub_wait_ack : list (positive * UIoTSubInfo H);
  event_handler : bool;
  options : MQTTConnectParams;
  ping_timer : Z;
  reconnect_delay_timer : Z;
  sub_handles : list (SubTopicHandle H)
}.

Definition set_is_connected (v : Z) (c : Client) : Client :=
  mkClient v (was_manually_disconnected c) (is_ping_outstanding c) (next_packet_id c)
    (command_timeout_ms c) (current_reconnect_wait_interval c) (counter_network_disconnected c)
    (write_buf_size c) (read_buf_size c) (write_buf c) (read_buf c) (lock_generic c)
    (lock_write_buf c) (lock_list_pub c) (lock_list_sub c) (list_pub_wait_ack c)
    (list_sub_wait_ack c) (event_handler c) (options c) (ping_timer c) (reconnect_delay_timer c)
    (sub_handles c).
Definition set_was_manually_disconnected (v : Z) (c : Client) : Client :=
  mkClient (is_connected c) v (is_ping_outstanding c) (next_packet_id c) (command_timeout_ms c)
    (current_reconnect_wait_interval c) (counter_network_disconnected c) (write_buf_size c)
    (read_buf_size c) (write_buf c) (read_buf c) (lock_generic c) (lock_write_buf c)
    (lock_list_pub c) (lock_list_sub c) (list_pub_wait_ack c) (list_sub_wait_ack c)
    (event_handler c) (options c) (ping_timer c) (reconnect_delay_timer c) (sub_handles c).
Definition set_is_ping_outstanding (v : Z) (c : Client) : Client :=
  mkClient (is_connected c) (was_manually_disconnected c) v (next_packet_id c)
    (command_timeout_ms c) (current_reconnect_wait_interval c) (counter_network_disconnected c)
    (write_buf_size c) (read_buf_size c) (write_buf c) (read_buf c) (lock_generic c)
    (lock_write_buf c) (lock_list_pub c) (lock_list_sub c) (list_pub_wait_ack c)
    (list_sub_wait_ack c) (event_handler c) (options c) (ping_timer c) (reconnect_delay_timer c)
    (sub_handles c).
Definition set_next_packet_id (v : Z) (c : Client) : Client :=
  mkClient (is_connected c) (was_manually_disconnected c) (is_ping_outstanding c) v
    (command_timeout_ms c) (current_reconnect_wait_interval c) (counter_network_disconnected c)
    (write_buf_size c) (read_buf_size c) (write_buf c) (read_buf c) (lock_generic c)
    (lock_write_buf c) (lock_list_pub c) (lock_list_sub c) (list_pub_wait_ack c)
    (list_sub_wait_ack c) (event_handler c) (options c) (ping_timer c) (reconnect_delay_timer c)
    (sub_handles c).
Definition set_current_reconnect_wait_interval (v : Z) (c : Client) : Client :=
  mkClient (is_connected c) (was_manually_disconnected c) (is_ping_outstanding c)
    (next_packet_id c) (command_timeout_ms c) v (counter_network_disconnected c)
    (write_buf_size c) (read_buf_size c) (write_buf c) (read_buf c) (lock_generic c)
    (lock_write_buf c) (lock_list_pub c) (lock_list_sub c) (list_pub_wait_ack c)
    (list_sub_wait_ack c) (event_handler c) (options c) (ping_timer c) (reconnect_delay_timer c)
    (sub_handles c).
Definition set_counter_network_disconnected (v : Z) (c : Client) : Client :=
  mkClient (is_connected c) (was_manually_disconnected c) (is_ping_outstanding c)
    (next_packet_id c) (command_timeout_ms c) (current_reconnect_wait_interval c) v
    (write_buf_size c) (read_buf_size c) (write_buf c) (read_buf c) (lock_generic c)
    (lock_write_buf c) (lock_list_pub c) (lock_list_sub c) (list_pub_wait_ack c)
    (list_sub_wait_ack c) (event_handler c) (options c) (ping_timer c) (reconnect_delay_timer c)
    (sub_handles c).
Definition set_write_buf (v : bytes) (c : Client) : Client :=
  mkClient (is_connected c) (was_manually_disconnected c) (is_ping_outstanding c)
    (next_packet_id c) (command_timeout_ms c) (current_reconnect_wait_interval c)
    (counter_network_disconnected c) (write_buf_size c) (read_buf_size c) v (read_buf c)
    (lock_generic c) (lock_write_buf c) (lock_list_pub c) (lock_list_sub c)
    (list_pub_wait_ack c) (list_sub_wait_ack c) (event_handler c) (options c) (ping_timer c)
    (reconnect_delay_timer c) (sub_handles c).
Definition set_read_buf (v : bytes) (c : Client) : Client :=
  mkClient (is_connected c) (was_manually_disconnected c) (is_ping_outstanding c)
    (next_packet_id c) (command_timeout_ms c) (current_reconnect_wait_interval c)
    (counter_network_disconnected c) (write_buf_size c) (read_buf_size c) (write_buf c) v
    (lock_generic c) (lock_write_buf c) (lock_list_pub c) (lock_list_sub c)
    (list_pub_wait_ack c) (list_sub_wait_ack c) (event_handler c) (options c) (ping_timer c)
    (reconnect_delay_timer c) (sub_handles c).
Definition set_lock_generic (v : Z) (c : Client) : Client :=
  mkClient (is_connected c) (was_manually_disconnected c) (is_ping_outstanding c)
    (next_packet_id c) (command_timeout_ms c) (current_reconnect_wait_interval c)
    (counter_network_disconnected c) (write_buf_size c) (read_buf_size c) (write_buf c)
    (read_buf c) v (lock_write_buf c) (lock_list_pub c) (lock_list_sub c) (list_pub_wait_ack c)
    (list_sub_wait_ack c) (event_handler c) (options c) (ping_timer c) (reconnect_delay_timer c)
    (sub_handles c).
Definition set_lock_write_buf (v : Z) (c : Client) : Client :=
  mkClient (is_connected c) (was_manually_disconnected c) (is_ping_outstanding c)
    (next_packet_id c) (command_timeout_ms c) (current_reconnect_wait_interval c)
    (counter_network_disconnected c) (write_buf_size c) (read_buf_size c) (write_buf c)
    (read_buf c) (lock_generic c) v (lock_list_pub c) (lock_list_sub c) (list_pub_wait_ack c)
    (list_sub_wait_ack c) (event_handler c) (options c) (ping_timer c) (reconnect_delay_timer c)
    (sub_handles c).
Definition set_lock_list_pub (v : Z) (c : Client) : Client :=
  mkClient (is_connected c) (was_manually_disconnected c) (is_ping_outstanding c)
    (next_packet_id c) (command_timeout_ms c) (current_reconnect_wait_interval c)
    (counter_network_disconnected c) (write_buf_size c) (read_buf_size c) (write_buf c)
    (read_buf c) (lock_generic c) (lock_write_buf c) v (lock_list_sub c) (list_pub_wait_ack c)
    (list_sub_wait_ack c) (event_handler c) (options c) (ping_timer c) (reconnect_delay_timer c)
    (sub_handles c).
Definition set_lock_list_sub (v : Z) (c : Client) : Client :=
  mkClient (is_connected c) (was_manually_disconnected c) (is_ping_outstanding c)
    (next_packet_id c) (command_timeout_ms c) (current_reconnect_wait_interval c)
    (counter_network_disconnected c) (write_buf_size c) (read_buf_size c) (write_buf c)
    (read_buf c) (lock_generic c) (lock_write_buf c) (lock_list_pub c) v (list_pub_wait_ack c)
    (list_sub_wait_ack c) (event_handler c) (options c) (ping_timer c) (reconnect_delay_timer c)
    (sub_handles c).
Definition set_list_pub_wait_ack (v : list (positive * UIoTPubInfo)) (c : Client) : Client :=
  mkClient (is_connected c) (was_manually_disconnected c) (is_ping_outstanding c)
    (next_packet_id c) (command_timeout_ms c) (current_reconnect_wait_interval c)
    (counter_network_disconnected c) (write_buf_size c) (read_buf_size c) (write_buf c)
    (read_buf c) (lock_generic c) (lock_write_buf c) (lock_list_pub c) (lock_list_sub c) v
    (list_sub_wait_ack c) (event_handler c) (options c) (ping_timer c) (reconnect_delay_timer c)
    (sub_handles c).
Definition set_list_sub_wait_ack (v : list (positive * UIoTSubInfo H)) (c : Client) : Client :=
  mkClient (is_connected c) (was_manually_disconnected c) (is_ping_outstanding c)
    (next_packet_id c) (command_timeout_ms c) (current_reconnect_wait_interval c)
    (counter_network_disconnected c) (write_buf_size c) (read_buf_size c) (write_buf c)
    (read_buf c) (lock_generic c) (lock_write_buf c) (lock_list_pub c) (lock_list_sub c)
    (list_pub_wait_ack c) v (event_handler c) (options c) (ping_timer c)
    (reconnect_delay_timer c) (sub_handles c).
Definition set_options (v : MQTTConnectParams) (c : Client) : Client :=
  mkClient (is_connected c) (was_manually_disconnected c) (is_ping_outstanding c)
    (next_packet_id c) (command_timeout_ms c) (current_reconnect_wait_interval c)
    (counter_network_disconnected c) (write_buf_size c) (read_buf_size c) (write_buf c)
    (read_buf c) (lock_generic c) (lock_write_buf c) (lock_list_pub c) (lock_list_sub c)
    (list_pub_wait_ack c) (list_sub_wait_ack c) (event_handler c) v (ping_timer c)
    (reconnect_delay_timer c) (sub_handles c).
Definition set_ping_timer (v : Z) (c : Client) : Client :=
  mkClient (is_connected c) (was_manually_disconnected c) (is_ping_outstanding c)
    (next_packet_id c) (command_timeout_ms c) (current_reconnect_wait_interval c)
    (counter_network_disconnected c) (write_buf_size c) (read_buf_size c) (write_buf c)
    (read_buf c) (lock_generic c) (lock_write_buf c) (lock_list_pub c) (lock_list_sub c)
    (list_pub_wait_ack c) (list_sub_wait_ack c) (event_handler c) (options c) v
    (reconnect_delay_timer c) (sub_handles c).
Definition set_reconnect_delay_timer (v : Z) (c : Client) : Client :=
  mkClient (is_connected c) (was_manually_disconnected c) (is_ping_outstanding c)
    (next_packet_id c) (command_timeout_ms c) (current_reconnect_wait_interval c)
    (counter_network_disconnected c) (write_buf_size c) (read_buf_size c) (write_buf c)
    (read_buf c) (lock_generic c) (lock_write_buf c) (lock_list_pub c) (lock_list_sub c)
    (list_pub_wait_ack c) (list_sub_wait_ack c) (event_handler c) (options c) (ping_timer c) v
    (sub_handles c).
Definition set_sub_handles (v : list (SubTopicHandle H)) (c : Client) : Client :=
  mkClient (is_connected c) (was_manually_disconnected c) (is_ping_outstanding c)
    (next_packet_id c) (command_timeout_ms c) (current_reconnect_wait_interval c)
    (counter_network_disconnected c) (write_buf_size c) (read_buf_size c) (write_buf c)
    (read_buf c) (lock_generic c) (lock_write_buf c) (lock_list_pub c) (lock_list_sub c)
    (list_pub_wait_ack c) (list_sub_wait_ack c) (event_handler c) (options c) (ping_timer c)
    (reconnect_delay_timer c) v.

(** The whole state: client, heap of topic strings, environment, the callbacks
    made so far, and the static variables of the repeat filter. *)
Record St := mkSt {
  cl : Client;
  heap : gmap positive bytes;
  world : W;
  trace : list (note H);
  sg_repeat_packet_id_buf : list Z;
  current_packet_id_cnt : Z
}.

Definition set_cl (v : Client) (s : St) : St :=
  mkSt v (heap s) (world s) (trace s) (sg_repeat_packet_id_buf s) (current_packet_id_cnt s).
Definition set_heap (v : gmap positive bytes) (s : St) : St :=
  mkSt (cl s) v (world s) (trace s) (sg_repeat_packet_id_buf s) (current_packet_id_cnt s).
Definition set_world (v : W) (s : St) : St :=
  mkSt (cl s) (heap s) v (trace s) (sg_repeat_packet_id_buf s) (current_packet_id_cnt s).
Definition set_trace (v : list (note H)) (s : St) : St :=
  mkSt (cl s) (heap s) (world s) v (sg_repeat_packet_id_buf s) (current_packet_id_cnt s).

(* ------------------------------------------------------------------ *)
(** ** The monad *)

(** A run returns, or exhausts the fuel of a loop, or has undefined
    behaviour. *)
Inductive out (A : Type) : Type :=
  | Ret (a : A) (s : St)
  | NoFuel
  | Ub.
Arguments Ret {A} a s.
Arguments NoFuel {A}.
Arguments Ub {A}.

Definition M (A : Type) : Type := St -> out A.

#[global] Instance M_ret : MRet M := fun A a s => Ret a s.
#[global] Instance M_bind : MBind M := fun A B f m s =>
  match m s with Ret a s' => f a s' | NoFuel => NoFuel | Ub => Ub end.

Definition get : M St := fun s => Ret s s.
Definition gets {A} (f : Client -> A) : M A := fun s => Ret (f (cl s)) s.
Definition modify (f : St -> St) : M unit := fun s => Ret tt (f s).
Definition mod_cl (f : Client -> Client) : M unit := modify (fun s => set_cl (f (cl s)) s).
Definition ub {A} : M A := fun _ => Ub.
Definition no_fuel {A} : M A := fun _ => NoFuel.

(** A call of a function on buffers: its value or its error code. *)
Definition wire {A} (r : res A) : M (A + Z) := fun s =>
  match r with Ok a => Ret (inl a) s | Err c => Ret (inr c) s | Oob => Ub end.
(** A memory access that must be in bounds. *)
Definition mem_access {A} (r : res A) : M A := fun s =>
  match r with Ok a => Ret a s | _ => Ub end.

Context `{Env W}.
(** What the application does in a callback. *)
Context (app : note H -> St -> St).

Definition env {A} (f : W -> A * W) : M A := fun s =>
  let '(a, w) := f (world s) in Ret a (set_world w s).

Definition now : M Z := env rt_tick_get.
Definition malloc : M bool := env malloc_ok.
Definition expired (timer : Z) : M bool := t ← now; mret (has_expired timer t).
Definition start_ms (ms : Z) : M Z := t ← now; mret (countdown_ms rt_tick_from_millisecond ms t).
Definition start_s (s : Z) : M Z := t ← now; mret (countdown rt_tick_from_millisecond s t).
Definition left (timer : Z) : M Z := t ← now; mret (left_ms timer t).

(** Mutexes *)
Inductive mutex := Generic | WriteBuf | ListPub | ListSub.
Definition lock_add (x : mutex) (d : Z) (c : Client) : Client :=
  match x with
  | Generic => set_lock_generic (lock_generic c + d) c
  | WriteBuf => set_lock_write_buf (lock_write_buf c + d) c
  | ListPub => set_lock_list_pub (lock_list_pub c + d) c
  | ListSub => set_lock_list_sub (lock_list_sub c + d) c
  end.
Definition HAL_MutexLock (x : mutex) : M unit := mod_cl (lock_add x 1).
Definition HAL_MutexUnlock (x : mutex) : M unit := mod_cl (lock_add x (-1)).

(** Strings of the heap: [HAL_Malloc] and [strcpy], dereference, [HAL_Free]. *)
Definition new_string (str : bytes) : M (option positive) :=
  ok ← malloc;
  if ok : bool then
    s ← get;
    let p := fresh (dom (heap s)) in
    _ ← modify (set_heap (<[p := str]> (heap s)));
    mret (Some p)
  else mret None.
(** A block that its function allocated and lost: it stays in the heap, at an
    address that nothing refers to.  (A node of a list and what it holds are
    one entry of the list; the heap has the other blocks.) *)
Definition leak (block : bytes) : M unit :=
  s ← get; modify (set_heap (<[fresh (dom (heap s)) := block]> (heap s))).
Definition string_at (p : positive) : M bytes := fun s =>
  match heap s !! p with Some str => Ret str s | None => Ub end.
Definition HAL_Free (p : option positive) : M unit := fun s =>
  match p with
  | None => Ret tt s
  | Some p => match heap s !! p with
              | Some _ => Ret tt (set_heap (delete p (heap s)) s)
              | None => Ub
              end
  end.

(** A call of a callback. *)
Definition call (n : note H) : M unit :=
  modify (fun s => app n (set_trace (trace s ++ [n]) s)).
Definition notify (t : MQTTEventType) (msg : Z) : M unit :=
  h ← gets event_handler; if h : bool then call (Notified t msg) else mret tt.

(* ------------------------------------------------------------------ *)
(** ** Reasoning about runs

    [wp m Q s]: if [m] returns from [s], then with a value and a state that
    satisfy [Q].  (Runs out of fuel and runs with undefined behaviour promise
    nothing; the theorems that exclude them say so.) *)
Definition wp {A} (m : M A) (Q : A -> St -> Prop) (s : St) : Prop :=
  match m s with Ret a s' => Q a s' | NoFuel => True | Ub => True end.

Lemma wp_ret {A} (a : A) Q s : Q a s -> wp (mret a) Q s.
Proof. done. Qed.
Lemma wp_bind {A B} (m : M A) (f : A -> M B) Q s :
  wp m (fun a s' => wp (f a) Q s') s -> wp (m ≫= f) Q s.
Proof. unfold wp, mbind, M_bind. by destruct (m s). Qed.
Lemma wp_mono {A} (m : M A) (Q Q' : A -> St -> Prop) s :
  wp m Q s -> (forall a s', Q a s' -> Q' a s') -> wp m Q' s.
Proof. unfold wp. destruct (m s); auto. Qed.
Lemma wp_get Q s : Q s s -> wp get Q s.
Proof. done. Qed.
Lemma wp_gets {A} (f : Client -> A) Q s : Q (f (cl s)) s -> wp (gets f) Q s.
Proof. done. Qed.
Lemma wp_modify f Q s : Q tt (f s) -> wp (modify f) Q s.
Proof. done. Qed.
Lemma wp_mod_cl f Q s : Q tt (set_cl (f (cl s)) s) -> wp (mod_cl f) Q s.
Proof. done. Qed.
Lemma wp_ub {A} Q s : wp (@ub A) Q s.
Proof. done. Qed.
Lemma wp_no_fuel {A} Q s : wp (@no_fuel A) Q s.
Proof. done. Qed.
Lemma wp_wire {A} (r : res A) Q s :
  (forall a, r = Ok a -> Q (inl a) s) -> (forall e, r = Err e -> Q (inr e) s) -> wp (wire r) Q s.
Proof. unfold wp, wire. destruct r; auto. Qed.
Lemma wp_mem {A} (r : res A) (Q : A -> St -> Prop) s :
  (forall a, r = Ok a -> Q a s) -> wp (mem_access r) Q s.
Proof. unfold wp, mem_access. destruct r; auto. Qed.
Lemma wp_env {A} (f : W -> A * W) (Q : A -> St -> Prop) s :
  (forall a w, f (world s) = (a, w) -> Q a (set_world w s)) -> wp (env f) Q s.
Proof. unfold wp, env. destruct (f (world s)) eqn:E. auto. Qed.
Lemma wp_string_at p (Q : bytes -> St -> Prop) s :
  (forall str, heap s !! p = Some str -> Q str s) -> wp (string_at p) Q s.
Proof. unfold wp, string_at. destruct (heap s !! p); auto. Qed.

Lemma wp_elim {A} (m : M A) Q s a s' : wp m Q s -> m s = Ret a s' -> Q a s'.
Proof. unfold wp. intros Hw Hm. by rewrite Hm in Hw. Qed.

(** [twp m Q s]: [m] returns from [s] — without undefined behaviour and with
    the fuel it has — and the value and the state satisfy [Q]. *)
Definition twp {A} (m : M A) (Q : A -> St -> Prop) (s : St) : Prop :=
  match m s with Ret a s' => Q a s' | NoFuel => False | Ub => False end.

Lemma twp_elim {A} (m : M A) Q s : twp m Q s -> exists a s', m s = Ret a s' /\ Q a s'.
Proof. unfold twp. destruct (m s) as [a s'| |]; [|done..]. by exists a, s'. Qed.
Lemma twp_ret {A} (a : A) (Q : A -> St -> Prop) s : Q a s -> twp (mret a) Q s.
Proof. done. Qed.
Lemma twp_bind {A B} (m : M A) (f : A -> M B) Q s :
  twp m (fun a s' => twp (f a) Q s') s -> twp (m ≫= f) Q s.
Proof. unfold twp, mbind, M_bind. by destruct (m s). Qed.
Lemma twp_mono {A} (m : M A) (Q Q' : A -> St -> Prop) s :
  twp m Q s -> (forall a s', Q a s' -> Q' a s') -> twp m Q' s.
Proof. unfold twp. destruct (m s); auto. Qed.
(** Use the specification of [m] at the head of a sequence. *)
Lemma twp_use {A B} (m : M A) (f : A -> M B) Q0 Q s :
  twp m Q0 s -> (forall a s', Q0 a s' -> twp (f a) Q s') -> twp (m ≫= f) Q s.
Proof. intros Hm Hf. apply twp_bind. by eapply twp_mono. Qed.
Lemma twp_gets {A B} (g : Client -> A) (f : A -> M B) Q s :
  twp (f (g (cl s))) Q s -> twp (gets g ≫= f) Q s.
Proof. done. Qed.
Lemma twp_get {B} (f : St -> M B) Q s : twp (f s) Q s -> twp (get ≫= f) Q s.
Proof. done. Qed.
Lemma twp_pure {A B} (a : A) (f : A -> M B) Q s : twp (f a) Q s -> twp (mret a ≫= f) Q s.
Proof. done. Qed.
Lemma twp_modify {B} g (f : unit -> M B) Q s : twp (f tt) Q (g s) -> twp (modify g ≫= f) Q s.
Proof. done. Qed.
Lemma twp_mod_cl {B} g (f : unit -> M B) Q s :
  twp (f tt) Q (set_cl (g (cl s)) s) -> twp (mod_cl g ≫= f) Q s.
Proof. done. Qed.
Lemma twp_mod_cl_tail g (Q : unit -> St -> Prop) s :
  Q tt (set_cl (g (cl s)) s) -> twp (mod_cl g) Q s.
Proof. done. Qed.
Lemma twp_wire {A B} (r : res A) (f : A + Z -> M B) Q s :
  r <> Oob -> (forall a, r = Ok a -> twp (f (inl a)) Q s) ->
  (forall e, r = Err e -> twp (f (inr e)) Q s) -> twp (wire r ≫= f) Q s.
Proof. unfold twp, mbind, M_bind, wire. intros Hr H1 H2. destruct r; [by apply H1|by apply H2|by destruct Hr]. Qed.
Lemma twp_mem {A B} (r : res A) a (f : A -> M B) Q s :
  r = Ok a -> twp (f a) Q s -> twp (mem_access r ≫= f) Q s.
Proof. by intros ->. Qed.
Lemma twp_env {A B} (g : W -> A * W) (f : A -> M B) Q s :
  (forall a w, g (world s) = (a, w) -> twp (f a) Q (set_world w s)) -> twp (env g ≫= f) Q s.
Proof. unfold twp, mbind, M_bind, env. intros Hf. destruct (g (world s)) eqn:E. by apply Hf. Qed.
Lemma twp_lock {B} x (f : unit -> M B) Q s :
  twp (f tt) Q (set_cl (lock_add x 1 (cl s)) s) -> twp (HAL_MutexLock x ≫= f) Q s.
Proof. done. Qed.
Lemma twp_unlock {B} x (f : unit -> M B) Q s :
  twp (f tt) Q (set_cl (lock_add x (-1) (cl s)) s) -> twp (HAL_MutexUnlock x ≫= f) Q s.
Proof. done. Qed.
(** Whatever reads the clock is a function of the time read. *)
Lemma twp_expired {B} timer (f : bool -> M B) Q s :
  twp (t ← now; f (has_expired timer t)) Q s -> twp (expired timer ≫= f) Q s.
Proof. unfold twp, expired, mbind, M_bind. by destruct (now s). Qed.
Lemma twp_left {B} timer (f : Z -> M B) Q s :
  twp (t ← now; f (left_ms timer t)) Q s -> twp (left timer ≫= f) Q s.
Proof. unfold twp, left, mbind, M_bind. by destruct (now s). Qed.
Lemma twp_start_ms {B} ms (f : Z -> M B) Q s :
  twp (t ← now; f (countdown_ms rt_tick_from_millisecond ms t)) Q s -> twp (start_ms ms ≫= f) Q s.
Proof. unfold twp, start_ms, mbind, M_bind. by destruct (now s). Qed.
Lemma twp_start_s {B} t (f : Z -> M B) Q s :
  twp (n ← now; f (countdown rt_tick_from_millisecond t n)) Q s -> twp (start_s t ≫= f) Q s.
Proof. unfold twp, start_s, mbind, M_bind. by destruct (now s). Qed.
Lemma twp_assoc {A B C} (m : M A) (g : A -> M B) (f : B -> M C) Q s :
  twp (x ← m; g x ≫= f) Q s -> twp ((m ≫= g) ≫= f) Q s.
Proof.
  unfold twp, mbind, M_bind. destruct (m s) as [a s'| |]; [|done..]. by destruct (g a s').
Qed.
Lemma twp_eq {A} (m : M A) a s' (Q : A -> St -> Prop) s : m s = Ret a s' -> Q a s' -> twp m Q s.
Proof. unfold twp. by intros ->. Qed.

End state.

Arguments Ret {W H A} a s.
Arguments NoFuel {W H A}.
Arguments Ub {W H A}.
