(* ===== verification/HalTcp.v ===== *)
(** The socket port ([ports/rtthread/HAL_TCP_rtthread.c]) and the network
    binding ([uiot/utils/utils_net.c], built without TLS), down to the calls
    of RT-Thread's socket layer.  It implements the interface [Env] that the
    MQTT client is written against, and satisfies its laws. *)

From S2P Require Import Prelude Defs HalTimer MqttWire MqttState.

(* ================================================================== *)
(** * RT-Thread *)

(** What [getaddrinfo] yields. *)
Record addrinfo := mkAddr {
  ai_family : Z;
  ai_socktype : Z;
  ai_protocol : Z;
  ai_addr : Z
}.
Definition AF_INET := 2.
Definition EINTR := 4.
Definition EAGAIN := 11.

(** The calls of RT-Thread.  [sock_send fd data] and [sock_recv fd n] give the
    result and [errno], the latter also the bytes stored. *)
Class Rtos (W : Type) := {
  RT_TICK_PER_SECOND : Z;
  tick_get : W -> Z * W;
  tick_from_ms : Z -> Z;
  sleep_ms : Z -> W -> W;
  alloc_ok : W -> bool * W;
  getaddrinfo : bytes -> Z -> W -> Z * list addrinfo * W;
  sock_open : Z -> Z -> Z -> W -> Z * W;
  sock_connect : Z -> Z -> W -> Z * W;
  sock_close : Z -> W -> Z * W;
  sock_send : Z -> bytes -> W -> Z * Z * W;
  sock_recv : Z -> Z -> W -> Z * Z * bytes * W
}.

(** What can be observed of the sockets: the bytes sent, the bytes that will
    be received, the descriptors in use. *)
Record Sockets := mkSockets { sent_bytes : bytes; to_come : bytes; in_use : gset Z }.

(** The documented behaviour of the calls: a positive result of [send] and
    [recv] counts the bytes taken and stored, [socket] gives an unused
    descriptor, [close] releases one. *)
Class RtosLaws (W : Type) `{Rtos W} := {
  sockets : W -> Sockets;
  tick_value : forall w, 0 <= (tick_get w).1 < 4294967296;
  tick_quiet : forall w, sockets (tick_get w).2 = sockets w;
  sleep_quiet : forall ms w, sockets (sleep_ms ms w) = sockets w;
  alloc_quiet : forall w, sockets (alloc_ok w).2 = sockets w;
  resolve_quiet : forall host port w, sockets (getaddrinfo host port w).2 = sockets w;
  connect_quiet : forall fd a w, sockets (sock_connect fd a w).2 = sockets w;
  open_law : forall f t p w fd w', sock_open f t p w = (fd, w') ->
    fd < 2147483648 /\
    (fd < 0 /\ sockets w' = sockets w \/
     0 <= fd /\ (fd ∉ in_use (sockets w)) /\
     sockets w' = mkSockets (sent_bytes (sockets w)) (to_come (sockets w)) ({[fd]} ∪ in_use (sockets w)));
  close_law : forall fd w, sockets (sock_close fd w).2 =
    mkSockets (sent_bytes (sockets w)) (to_come (sockets w)) (in_use (sockets w) ∖ {[fd]});
  send_law : forall fd data w ret errno w', sock_send fd data w = (ret, errno, w') ->
    ret <= zlen data /\
    sockets w' = mkSockets (sent_bytes (sockets w) ++ take (Z.to_nat ret) data) (to_come (sockets w)) (in_use (sockets w));
  recv_law : forall fd n w ret errno got w', sock_recv fd n w = (ret, errno, got, w') ->
    zlen got = Z.max 0 ret /\ (0 <= n -> zlen got <= n) /\ Forall byte got /\
    sent_bytes (sockets w') = sent_bytes (sockets w) /\ in_use (sockets w') = in_use (sockets w) /\
    to_come (sockets w) = got ++ to_come (sockets w')
}.

(** Time as it passes, in processor cycles: the tick counter is its quotient,
    wrapped; a call takes no more than [slowest] ticks, a call of the socket
    layer at least a cycle. *)
Class Clock (W : Type) `{Rtos W} := {
  cycles : W -> Z;
  cycles_per_tick : Z;
  slowest : Z;
  cpt_pos : 0 < cycles_per_tick;
  slowest_pos : 0 <= slowest;
  tick_reads : forall w, (tick_get w).1 = u32 (cycles w `div` cycles_per_tick);
  tick_takes : forall w, cycles w <= cycles (tick_get w).2 <= cycles w + slowest * cycles_per_tick;
  send_takes : forall fd data w, cycles w < cycles (sock_send fd data w).2 <= cycles w + slowest * cycles_per_tick;
  recv_takes : forall fd n w, cycles w < cycles (sock_recv fd n w).2 <= cycles w + slowest * cycles_per_tick
}.

(* ================================================================== *)
(** * The code *)

Section port.
Context {W : Type} `{Rtos W}.

Definition rtthread_get_time_ms (w : W) : Z * W :=
  let '(tick, w) := tick_get w in
  (if decide (RT_TICK_PER_SECOND = 1000) then tick
   else u32 (u32 (tick * 1000) + RT_TICK_PER_SECOND - 1) `div` RT_TICK_PER_SECOND, w).

Definition rtthread_time_left (t_end t_now : Z) : Z :=
  if decide (t_end > t_now) then t_end - t_now else 0.

Definition retry (errno : Z) : bool := bool_decide (errno = EINTR \/ errno = EAGAIN).

(** The loop over the addresses; [rc] is its result so far. *)
Fixpoint connect_loop (addrs : list addrinfo) (rc : Z) (w : W) : Z * W :=
  match addrs with
  | [] => (rc, w)
  | cur :: rest =>
      if decide (ai_family cur <> AF_INET) then connect_loop rest (-1) w
      else
        let '(fd, w) := sock_open (ai_family cur) (ai_socktype cur) (ai_protocol cur) w in
        if decide (fd < 0) then connect_loop rest (-1) w
        else
          let '(r, w) := sock_connect fd (ai_addr cur) w in
          if decide (r = 0) then (fd, w)
          else let '(_, w) := sock_close fd w in connect_loop rest (-1) w
  end.

(** The handle is a [uintptr_t]. *)
Definition HAL_TCP_Connect (host : bytes) (port : Z) (w : W) : Z * W :=
  let '(rc, addrs, w) := getaddrinfo host port w in
  if decide (rc <> 0) then (u32 (-1), w)
  else let '(rc, w) := connect_loop addrs rc w in (u32 rc, w).

Definition HAL_TCP_Disconnect (fd : Z) (w : W) : Z * W :=
  let '(rc, w) := sock_close (s32 fd) w in
  (if decide (rc <> 0) then FAILURE_RET else SUCCESS_RET, w).

(** The two loops run until their data is through, the time is over or the
    socket fails; [None] if they still run when the fuel is used up. *)
Fixpoint write_loop (fuel : nat) (fd : Z) (buf : bytes) (len_sent : nat) (t_end : Z) (w : W) : option (nat * W) :=
  match fuel with
  | O => None
  | S fuel =>
      let '(_, w) := rtthread_get_time_ms w in
      let '(ret, errno, w) := sock_send fd (drop len_sent buf) w in
      let continue len_sent w :=
        if decide (len_sent < length buf)%nat then
          let '(now, w) := rtthread_get_time_ms w in
          if decide (rtthread_time_left t_end now > 0) then write_loop fuel fd buf len_sent t_end w
          else Some (len_sent, w)
        else Some (len_sent, w) in
      if decide (ret > 0) then continue (len_sent + Z.to_nat ret)%nat w
      else if retry errno then continue len_sent w
      else Some (len_sent, w)
  end.

Definition HAL_TCP_Write (fuel : nat) (fd : Z) (buf : bytes) (timeout_ms : Z) (w : W) : option (Z * W) :=
  let '(now, w) := rtthread_get_time_ms w in
  '(len_sent, w) ← write_loop fuel (s32 fd) buf 0 (now + u32 timeout_ms) w;
  Some (if decide (0 < len_sent)%nat then Z.of_nat len_sent else ERR_TCP_WRITE_FAILED, w).

Fixpoint read_loop (fuel : nat) (fd len : Z) (buf : bytes) (t_end : Z) (w : W) : option (bytes * Z * W) :=
  match fuel with
  | O => None
  | S fuel =>
      let '(now, w) := rtthread_get_time_ms w in
      if decide (rtthread_time_left t_end now = 0) then Some (buf, SUCCESS_RET, w)
      else
        let '(ret, errno, got, w) := sock_recv fd (len - zlen buf) w in
        let continue buf w :=
          if decide (zlen buf < len) then read_loop fuel fd len buf t_end w else Some (buf, SUCCESS_RET, w) in
        if decide (ret > 0) then continue (buf ++ got) w
        else if decide (ret = 0) then continue buf w
        else if retry errno then continue buf w
        else Some (buf, ERR_TCP_READ_FAILED, w)
  end.

(** The result and the bytes stored in the buffer. *)
Definition HAL_TCP_Read (fuel : nat) (fd len timeout_ms : Z) (w : W) : option (Z * bytes * W) :=
  let '(now, w) := rtthread_get_time_ms w in
  '(buf, err_code, w) ← read_loop fuel (s32 fd) len [] (now + u32 timeout_ms) w;
  Some (if decide (zlen buf <> 0) then zlen buf else err_code, buf, w).

(** ** [utils_net.c] *)

(** [struct utils_network]; the four function pointers are always the four
    functions below. *)
Record utils_network := mkNetwork {
  pHostAddress : bytes;
  net_port : Z;
  ca_crt_len : Z;
  authmode : Z;
  ca_crt : option bytes;
  handle : Z
}.

(** [None]: the host is NULL, [FAILURE_RET]. *)
Definition utils_net_init (host : option bytes) (port authmode : Z) (ca_crt : option bytes) : option utils_network :=
  host ← host;
  Some (mkNetwork host (u16 port) (match ca_crt with None => 0 | Some c => u16 (zlen c) end) (u16 authmode) ca_crt 0).
Definition uiot_mqtt_network_init := utils_net_init.
Definition set_handle (h : Z) (n : utils_network) : utils_network :=
  mkNetwork (pHostAddress n) (net_port n) (ca_crt_len n) (authmode n) (ca_crt n) h.

Definition connect_tcp (n : utils_network) (w : W) : Z * utils_network * W :=
  let '(h, w) := HAL_TCP_Connect (pHostAddress n) (net_port n) w in
  (if decide (h = u32 (-1)) then FAILURE_RET else SUCCESS_RET, set_handle h n, w).
Definition disconnect_tcp (n : utils_network) (w : W) : Z * utils_network * W :=
  let '(_, w) := HAL_TCP_Disconnect (handle n) w in (SUCCESS_RET, set_handle (u32 (-1)) n, w).
Definition read_tcp (fuel : nat) (n : utils_network) (len timeout_ms : Z) (w : W) : option (Z * bytes * W) :=
  HAL_TCP_Read fuel (handle n) len timeout_ms w.
Definition write_tcp (fuel : nat) (n : utils_network) (buf : bytes) (timeout_ms : Z) (w : W) : option (Z * W) :=
  HAL_TCP_Write fuel (handle n) buf timeout_ms w.

Definition utils_net_connect := connect_tcp.
Definition utils_net_disconnect := disconnect_tcp.
Definition utils_net_read := read_tcp.
Definition utils_net_write := write_tcp.

End port.

(** The environment of the MQTT client over this port.  A call that does not
    return within the fuel is given the result of a timeout:
    [tcp_port_ends] says when that cannot happen. *)
#[export] Instance tcp_env {W} `{Rtos W} (fuel : nat) : Env (utils_network * W) := {
  rt_tick_get s := let '(t, w) := tick_get s.2 in (t, (s.1, w));
  rt_tick_from_millisecond := tick_from_ms;
  HAL_SleepMs ms s := (s.1, sleep_ms ms s.2);
  malloc_ok s := let '(b, w) := alloc_ok s.2 in (b, (s.1, w));
  net_connect s := let '(r, n, w) := utils_net_connect s.1 s.2 in (r, (n, w));
  net_disconnect s := let '(r, n, w) := utils_net_disconnect s.1 s.2 in (r, (n, w));
  net_read len t s :=
    match utils_net_read fuel s.1 len t s.2 with
    | Some (r, data, w) => (r, data, (s.1, w))
    | None => (SUCCESS_RET, [], s)
    end;
  net_write data t s :=
    match utils_net_write fuel s.1 data t s.2 with
    | Some (r, w) => (r, (s.1, w))
    | None => (ERR_TCP_WRITE_FAILED, s)
    end
}.

(* ================================================================== *)
(** * What the calls do *)

Section laws.
Context {W : Type} `{RtosLaws W}.

(** From [w] to [w'] the sockets sent [out] and gave [inn]. *)
Record moves (out inn : bytes) (w w' : W) : Prop := {
  moves_sent : sent_bytes (sockets w') = sent_bytes (sockets w) ++ out;
  moves_come : to_come (sockets w) = inn ++ to_come (sockets w');
  moves_use : in_use (sockets w') = in_use (sockets w)
}.

Lemma moves_same w w' : sockets w' = sockets w -> moves [] [] w w'.
Proof. intros E. split; by rewrite E, ?app_nil_r. Qed.
Lemma moves_trans o1 i1 o2 i2 w1 w2 w3 : moves o1 i1 w1 w2 -> moves o2 i2 w2 w3 -> moves (o1 ++ o2) (i1 ++ i2) w1 w3.
Proof. intros [A1 A2 A3] [B1 B2 B3]. split; [by rewrite B1, A1, app_assoc|by rewrite A2, B2, app_assoc|by rewrite B3]. Qed.

Lemma time_moves w : moves [] [] w (rtthread_get_time_ms w).2.
Proof.
  apply moves_same. unfold rtthread_get_time_ms. pose proof (tick_quiet w) as Hq. by destruct (tick_get w).
Qed.
Lemma send_moves fd data w ret errno w' : sock_send fd data w = (ret, errno, w') ->
  ret <= zlen data /\ moves (take (Z.to_nat ret) data) [] w w'.
Proof. intros [Hr E]%send_law. split; [done|]. by split; rewrite E. Qed.
Lemma recv_moves fd n w ret errno got w' : sock_recv fd n w = (ret, errno, got, w') ->
  zlen got = Z.max 0 ret /\ (0 <= n -> zlen got <= n) /\ Forall byte got /\ moves [] got w w'.
Proof.
  intros Hr. destruct (recv_law _ _ _ _ _ _ _ Hr) as (H1 & H2 & H3 & H4 & H5 & H6).
  split_and!; [done..|]. split; [by rewrite app_nil_r|done|done].
Qed.

(** What was sent: the next bytes of the buffer. *)
Lemma write_loop_run fuel : forall fd buf n t_end w n' w',
  (n <= length buf)%nat -> write_loop fuel fd buf n t_end w = Some (n', w') ->
  exists m, (n' = n + m /\ n' <= length buf)%nat /\ moves (take m (drop n buf)) [] w w'.
Proof.
  induction fuel as [|fuel IH]; intros fd buf n t_end w n' w' Hn Hr; [done|]. cbn [write_loop] in Hr.
  pose proof (time_moves w) as Hq. destruct (rtthread_get_time_ms w) as [t w1]. cbn [snd] in Hq.
  destruct (sock_send fd (drop n buf) w1) as [[ret errno] w2] eqn:Hs.
  apply send_moves in Hs as [Hle Hs]. rewrite length_drop in Hle. pose proof (moves_trans _ _ _ _ _ _ _ Hq Hs) as Hm.
  cbn [app] in Hm. clear Hq Hs.
  assert (Hgo : forall m, (n + m <= length buf)%nat -> moves (take m (drop n buf)) [] w w2 ->
    (if decide (n + m < length buf)%nat then
       let '(now, w) := rtthread_get_time_ms w2 in
       if decide (rtthread_time_left t_end now > 0) then write_loop fuel fd buf (n + m) t_end w else Some ((n + m)%nat, w)
     else Some ((n + m)%nat, w2)) = Some (n', w') ->
    exists m, (n' = n + m /\ n' <= length buf)%nat /\ moves (take m (drop n buf)) [] w w').
  { intros m Hnm Hm' Hg. pose proof (time_moves w2) as Hq2.
    assert (Hq2' := moves_trans _ _ _ _ _ _ _ Hm' Hq2). rewrite app_nil_r in Hq2'. cbn [app] in Hq2'.
    case_decide; [|injection Hg as <- <-; eauto].
    destruct (rtthread_get_time_ms w2) as [now w4]. cbn [snd] in Hq2'.
    case_decide; [|injection Hg as <- <-; eauto].
    apply IH in Hg as (m' & [-> Hl] & Hw); [|done]. exists (m + m')%nat. split; [lia|].
    rewrite <- take_take_drop, drop_drop. exact (moves_trans _ _ _ _ _ _ _ Hq2' Hw). }
  destruct (decide (ret > 0)); [apply (Hgo (Z.to_nat ret)); [lia|done|exact Hr]|].
  replace (Z.to_nat ret) with O in Hm by lia.
  destruct (retry errno); [apply (Hgo O); [lia|done|by rewrite Nat.add_0_r]|].
  injection Hr as <- <-. exists O. split; [lia|done].
Qed.

(** What was received, and why the loop ended. *)
Lemma read_loop_run fuel : forall fd len buf t_end w buf' err w',
  read_loop fuel fd len buf t_end w = Some (buf', err, w') ->
  exists got, buf' = buf ++ got /\ (zlen buf <= len -> zlen buf' <= len) /\ Forall byte got /\ moves [] got w w' /\
    (err = SUCCESS_RET \/ err = ERR_TCP_READ_FAILED).
Proof.
  induction fuel as [|fuel IH]; intros fd len buf t_end w buf' err w' Hr; [done|]. cbn [read_loop] in Hr.
  pose proof (time_moves w) as Hq. destruct (rtthread_get_time_ms w) as [now w1]. cbn [snd] in Hq.
  case_decide.
  { injection Hr as <- <- <-. exists []. rewrite app_nil_r. auto 10. }
  destruct (sock_recv fd (len - zlen buf) w1) as [[[ret errno] got] w2] eqn:Hs.
  apply recv_moves in Hs as (Hret & Hn & Hb & Hs).
  pose proof (moves_trans _ _ _ _ _ _ _ Hq Hs) as Hm. cbn [app] in Hm. clear Hq Hs.
  assert (Hgo : forall got', got' = got -> (if decide (zlen (buf ++ got') < len) then read_loop fuel fd len (buf ++ got') t_end w2
      else Some (buf ++ got', SUCCESS_RET, w2)) = Some (buf', err, w') ->
    exists got, buf' = buf ++ got /\ (zlen buf <= len -> zlen buf' <= len) /\ Forall byte got /\ moves [] got w w' /\
      (err = SUCCESS_RET \/ err = ERR_TCP_READ_FAILED)).
  { intros got' -> Hg. assert (zlen buf <= len -> zlen (buf ++ got) <= len) by (rewrite length_app; lia).
    case_decide; [|injection Hg as <- <- <-; eauto 10].
    apply IH in Hg as (got' & -> & Hl' & Hb' & Hm' & He).
    exists (got ++ got'). rewrite app_assoc. split_and!; auto using Forall_app_2.
    exact (moves_trans _ _ _ _ _ _ _ Hm Hm'). }
  destruct (decide (ret > 0)); [by apply (Hgo got)|].
  assert (got = []) as -> by (apply nil_length_inv; lia).
  specialize (Hgo [] eq_refl). rewrite app_nil_r in Hgo.
  destruct (decide (ret = 0)); [by apply Hgo|]. destruct (retry errno); [by apply Hgo|].
  injection Hr as <- <- <-. exists []. rewrite app_nil_r. auto 10.
Qed.

(** [HAL_TCP_Connect] closes every socket it opens but the one it returns. *)
Lemma connect_loop_run addrs : forall rc w rc' w',
  connect_loop addrs rc w = (rc', w') ->
  sent_bytes (sockets w') = sent_bytes (sockets w) /\ to_come (sockets w') = to_come (sockets w) /\
  ((rc' = -1 \/ addrs = [] /\ rc' = rc) /\ in_use (sockets w') = in_use (sockets w) \/
   0 <= rc' < 2147483648 /\ (rc' ∉ in_use (sockets w)) /\ in_use (sockets w') = {[rc']} ∪ in_use (sockets w)).
Proof.
  induction addrs as [|cur rest IH]; intros rc w rc' w' Hr; cbn [connect_loop] in Hr.
  { injection Hr as <- <-. auto 10. }
  assert (Hrest : forall w1, sockets w1 = sockets w -> connect_loop rest (-1) w1 = (rc', w') ->
    sent_bytes (sockets w') = sent_bytes (sockets w) /\ to_come (sockets w') = to_come (sockets w) /\
    ((rc' = -1 \/ cur :: rest = [] /\ rc' = rc) /\ in_use (sockets w') = in_use (sockets w) \/
     0 <= rc' < 2147483648 /\ (rc' ∉ in_use (sockets w)) /\ in_use (sockets w') = {[rc']} ∪ in_use (sockets w))).
  { intros w1 E Hc. destruct (IH _ _ _ _ Hc) as (H1 & H2 & H3). rewrite E in *. split_and!; [done..|]. naive_solver. }
  case_decide; [by apply (Hrest w)|].
  destruct (sock_open _ _ _ w) as [fd w1] eqn:Ho. apply open_law in Ho as [Hfd [[Hneg E]|(Hpos & Hnew & E)]].
  - rewrite decide_True in Hr by lia. by apply (Hrest w1).
  - rewrite decide_False in Hr by lia.
    pose proof (connect_quiet fd (ai_addr cur) w1) as Hc. destruct (sock_connect fd (ai_addr cur) w1) as [r w2]. cbn [snd] in Hc.
    case_decide.
    + injection Hr as <- <-. rewrite Hc, E. cbn. auto 10.
    + pose proof (close_law fd w2) as Hcl. destruct (sock_close fd w2) as [r' w3]. cbn [snd] in Hcl.
      apply (Hrest w3); [|done]. rewrite Hcl, Hc, E. destruct (sockets w) as [o i u]. cbn in *. f_equal. set_solver.
Qed.

Lemma tcp_read_run fuel fd len timeout_ms w r data w' :
  HAL_TCP_Read fuel fd len timeout_ms w = Some (r, data, w') ->
  (0 <= len -> zlen data <= len) /\ Forall byte data /\ moves [] data w w' /\
  (data <> [] /\ r = zlen data \/ data = [] /\ (r = SUCCESS_RET \/ r = ERR_TCP_READ_FAILED)).
Proof.
  intros Hr. unfold HAL_TCP_Read in Hr. pose proof (time_moves w) as Hq.
  destruct (rtthread_get_time_ms w) as [now w1]. cbn [snd] in Hq.
  destruct (read_loop fuel (s32 fd) len [] (now + u32 timeout_ms) w1) as [[[buf err] w2]|] eqn:E; [|done].
  injection Hr as <- <- <-. apply read_loop_run in E as (got & -> & Hle & Hb & Hm & He). cbn [app] in *.
  split_and!; [done|done|exact (moves_trans _ _ _ _ _ _ _ Hq Hm)|].
  case_decide as Hg; [left|right]; (split; [|done]); destruct got; cbn [length] in *; done || lia.
Qed.

Lemma tcp_write_run fuel fd buf timeout_ms w r w' :
  HAL_TCP_Write fuel fd buf timeout_ms w = Some (r, w') ->
  exists m, (m <= length buf)%nat /\ (m = O /\ r = ERR_TCP_WRITE_FAILED \/ (0 < m)%nat /\ r = Z.of_nat m) /\
    moves (take m buf) [] w w'.
Proof.
  intros Hr. unfold HAL_TCP_Write in Hr. pose proof (time_moves w) as Hq.
  destruct (rtthread_get_time_ms w) as [now w1]. cbn [snd] in Hq.
  destruct (write_loop fuel (s32 fd) buf 0 (now + u32 timeout_ms) w1) as [[n w2]|] eqn:E; [|done].
  injection Hr as <- <-. apply write_loop_run in E as (m & [-> Hle] & Hm); [|lia]. cbn [drop Nat.add] in *.
  exists m. split_and!; [done| |exact (moves_trans _ _ _ _ _ _ _ Hq Hm)].
  case_decide; [by right|left]. split; [lia|done].
Qed.
End laws.

(** ** The time the loops take *)

(** The reading of the clock in milliseconds is the number of ticks times
    [tick_scale], taken modulo 2^32, over [tick_divisor], rounded up. *)
Section rate.
Context {W : Type} `{Rtos W}.
Definition tick_scale : Z := if decide (RT_TICK_PER_SECOND = 1000) then 1 else 1000.
Definition tick_divisor : Z := if decide (RT_TICK_PER_SECOND = 1000) then 1 else RT_TICK_PER_SECOND.
Lemma rate_pos : 0 < RT_TICK_PER_SECOND -> 0 < tick_scale /\ 0 < tick_divisor.
Proof using. unfold tick_scale, tick_divisor. case_decide; lia. Qed.
End rate.

Lemma div_lt_iff a b c : 0 < b -> a `div` b < c <-> a < c * b.
Proof.
  intros Hb. split; intros Hl; [|apply Z.div_lt_upper_bound; lia].
  pose proof (Z.div_mod a b ltac:(lia)). pose proof (Z.mod_pos_bound a b Hb). nia.
Qed.
Lemma div_le_iff a b c : 0 < b -> c <= a `div` b <-> c * b <= a.
Proof. intros Hb. pose proof (div_lt_iff a b c Hb). lia. Qed.

Section clock.
Context {W : Type} `{Clock W} (Hrate : 0 < RT_TICK_PER_SECOND <= 1000).

Local Abbreviation ticks w := (cycles w `div` cycles_per_tick).
Definition clock_reading (w : W) : Z := u32 (ticks w * tick_scale + tick_divisor - 1) `div` tick_divisor.

Lemma time_reads w : (rtthread_get_time_ms w).1 = clock_reading w /\
  cycles w <= cycles (rtthread_get_time_ms w).2 <= cycles w + slowest * cycles_per_tick.
Proof using.
  unfold rtthread_get_time_ms, clock_reading, tick_scale, tick_divisor. pose proof (tick_reads w) as Hr. pose proof (tick_takes w) as Ht.
  destruct (tick_get w) as [t w1]. cbn [fst snd] in *. split; [|done]. rewrite Hr. case_decide.
  - by rewrite Z.mul_1_r, Z.div_1_r, Z.add_simpl_r.
  - f_equal. unfold u32. rewrite <- !Z.add_sub_assoc, Zplus_mod_idemp_l. by rewrite <- Zplus_mod_idemp_l, Z.mul_mod_idemp_l, Zplus_mod_idemp_l by lia.
Qed.

(** An epoch: the wraps of the sum so far.  Until its last tick the reading is
    the time since its start; [deadline] is the first tick whose reading
    is [t_end]. *)
Context (epoch t_end : Z).
Definition deadline : Z := (epoch * 4294967296 + (t_end - 1) * tick_divisor + tick_scale) `div` tick_scale.
Context (Hroom : t_end * tick_divisor + (3 * slowest + 1) * tick_scale <= 4294967296).
Definition in_epoch (w : W) : Prop :=
  epoch * 4294967296 <= ticks w * tick_scale + tick_divisor - 1 /\ cycles w < (deadline + 1 + 3 * slowest) * cycles_per_tick.
Definition left_cycles (w : W) : Z := deadline * cycles_per_tick - cycles w.

Lemma time_epoch w : in_epoch w ->
  (rtthread_get_time_ms w).1 = (ticks w * tick_scale - epoch * 4294967296 + tick_divisor - 1) `div` tick_divisor.
Proof using Hrate Hroom.
  intros [Hlo Hhi]. rewrite (proj1 (time_reads w)). destruct rate_pos as [Hk Hd]; [lia|]. pose proof cpt_pos. pose proof slowest_pos.
  apply div_lt_iff in Hhi; [|done]. unfold clock_reading.
  assert (deadline * tick_scale <= epoch * 4294967296 + (t_end - 1) * tick_divisor + tick_scale) by (by apply div_le_iff).
  assert (ticks w * tick_scale + tick_divisor - 1 < (epoch + 1) * 4294967296) by nia.
  f_equal. unfold u32. symmetry. apply (Z.mod_unique _ _ epoch); lia.
Qed.
(** As long as time is left the deadline is ahead. *)
Lemma time_left_cycles w : in_epoch w ->
  rtthread_time_left t_end (rtthread_get_time_ms w).1 <> 0 <-> 0 < left_cycles w.
Proof using Hrate Hroom.
  intros Hw. rewrite time_epoch by done. unfold rtthread_time_left, left_cycles. pose proof cpt_pos. destruct rate_pos as [Hk Hd]; [lia|].
  set (now := _ `div` tick_divisor).
  assert (t_end > now <-> ticks w < deadline) as Hiff.
  { assert (now < t_end <-> ticks w * tick_scale - epoch * 4294967296 + tick_divisor - 1 < t_end * tick_divisor) by by apply div_lt_iff.
    pose proof (div_le_iff (epoch * 4294967296 + (t_end - 1) * tick_divisor + tick_scale) tick_scale (ticks w + 1) Hk) as Hdl.
    fold deadline in Hdl. lia. }
  assert (ticks w < deadline <-> 0 < deadline * cycles_per_tick - cycles w) as Hc by (rewrite div_lt_iff by done; lia).
  rewrite <- Hc, <- Hiff. case_decide; lia.
Qed.

Lemma ticks_mono w w' : cycles w <= cycles w' -> epoch * 4294967296 <= ticks w * tick_scale + tick_divisor - 1 ->
  epoch * 4294967296 <= ticks w' * tick_scale + tick_divisor - 1.
Proof using Hrate.
  intros Hc He. destruct rate_pos as [Hk _]; [lia|]. pose proof (Z.div_le_mono _ _ cycles_per_tick cpt_pos Hc). nia.
Qed.
Lemma epoch_later w w' : in_epoch w -> cycles w <= cycles w' -> - ((3 * slowest + 1) * cycles_per_tick) < left_cycles w' -> in_epoch w'.
Proof using Hrate. intros [He _] Hc Hl. split; [by apply (ticks_mono w)|]. unfold left_cycles in Hl. lia. Qed.

Lemma read_loop_ends fuel : forall fd len buf w,
  in_epoch w -> left_cycles w < Z.of_nat fuel -> (0 < fuel)%nat -> read_loop fuel fd len buf t_end w <> None.
Proof using Hrate Hroom.
  induction fuel as [|fuel IH]; intros fd len buf w Hw Hf Hpos; [lia|]. cbn [read_loop].
  pose proof (time_left_cycles w Hw) as Hleft. pose proof (time_reads w) as [_ Ht].
  destruct (rtthread_get_time_ms w) as [now w1]. cbn [fst snd] in *. case_decide as Hz; [done|].
  apply Hleft in Hz. pose proof (recv_takes fd (len - zlen buf) w1) as Hr.
  destruct (sock_recv fd (len - zlen buf) w1) as [[[ret errno] got] w2]. cbn [snd] in Hr.
  assert (Hgo : forall buf, (if decide (zlen buf < len) then read_loop fuel fd len buf t_end w2 else Some (buf, SUCCESS_RET, w2)) <> None).
  { intros buf'. case_decide; [|done]. pose proof cpt_pos. apply IH; [|unfold left_cycles in *; lia..].
    apply (epoch_later w); [done|lia|unfold left_cycles in *; nia]. }
  destruct (decide (ret > 0)); [apply Hgo|]. destruct (decide (ret = 0)); [apply Hgo|]. destruct (retry errno); [apply Hgo|done].
Qed.

Lemma write_loop_ends fuel : forall fd buf n w,
  epoch * 4294967296 <= ticks w * tick_scale + tick_divisor - 1 -> - ((slowest + 1) * cycles_per_tick) < left_cycles w ->
  Z.max 0 (left_cycles w) < Z.of_nat fuel -> write_loop fuel fd buf n t_end w <> None.
Proof using Hrate Hroom.
  induction fuel as [|fuel IH]; intros fd buf n w Hlo Hhi Hf; [lia|]. cbn [write_loop].
  pose proof (time_reads w) as [_ Ht]. destruct (rtthread_get_time_ms w) as [t w1]. cbn [fst snd] in *.
  pose proof (send_takes fd (drop n buf) w1) as Hs. destruct (sock_send fd (drop n buf) w1) as [[ret errno] w2]. cbn [snd] in Hs.
  pose proof cpt_pos. pose proof slowest_pos.
  assert (Hw2 : in_epoch w2) by (split; [apply (ticks_mono w); [lia|done]|unfold left_cycles in *; nia]).
  pose proof (time_left_cycles w2 Hw2) as Hleft. pose proof (time_reads w2) as [_ Ht2].
  assert (Hgo : forall n, (if decide (n < length buf)%nat then
      let '(now, w) := rtthread_get_time_ms w2 in
      if decide (rtthread_time_left t_end now > 0) then write_loop fuel fd buf n t_end w else Some (n, w)
    else Some (n, w2)) <> None).
  { intros n'. case_decide; [|done]. destruct (rtthread_get_time_ms w2) as [now w3]. cbn [fst snd] in *.
    case_decide as Hl; [|done]. assert (0 < left_cycles w2) by (apply Hleft; lia).
    apply IH; [apply (ticks_mono w); [lia|done]|unfold left_cycles in *; nia|unfold left_cycles in *; lia]. }
  destruct (decide (ret > 0)); [apply Hgo|]. destruct (retry errno); [apply Hgo|done].
Qed.

End clock.

(** The laws of [Env] hold over the port. *)
#[export] Instance tcp_laws {W} `{RtosLaws W} fuel : @EnvLaws (utils_network * W) (tcp_env fuel).
Proof.
  constructor.
  - intros [n w]. cbn. pose proof (tick_value w). by destruct (tick_get w).
  - intros len t [n w] r data w' Hr Hl. cbn in Hr. unfold utils_net_read, read_tcp in Hr.
    destruct (HAL_TCP_Read fuel (handle n) len t w) as [[[r' d] w1]|] eqn:E.
    + injection Hr as -> -> <-. apply tcp_read_run in E as (Hd & Hb & _ & [[Hne ->]|[-> [-> | ->]]]); (split_and!; [auto|done|]); unfold SUCCESS_RET, ERR_TCP_READ_FAILED; lia.
    + by injection Hr as <- <- <-.
  - intros data t [n w] r w' Hw Hd. cbn in Hw. unfold utils_net_write, write_tcp in Hw.
    destruct (HAL_TCP_Write fuel (handle n) data t w) as [[r' w1]|] eqn:E; [|injection Hw as <- <-; by left].
    injection Hw as -> <-. apply tcp_write_run in E as (m & Hm & [[Hz ->]|[Hz ->]] & _); [by left|right; lia].
Qed.

#[export] Program Instance tcp_log {W} `{RtosLaws W} fuel : @NetLog (utils_network * W) (tcp_env fuel) := {
  stream s := sent_bytes (sockets s.2);
  incoming s := to_come (sockets s.2)
}.
Next Obligation. intros W R L fuel [n w]. cbn. pose proof (tick_quiet w) as Hq. destruct (tick_get w). cbn in *. by rewrite Hq. Qed.
Next Obligation. intros W R L fuel [n w]. cbn. pose proof (alloc_quiet w) as Hq. destruct (alloc_ok w). cbn in *. by rewrite Hq. Qed.
Next Obligation.
  intros W R L fuel data t [n w] r w' Hw. cbn in Hw. unfold utils_net_write, write_tcp in Hw.
  destruct (HAL_TCP_Write fuel (handle n) data t w) as [[r' w1]|] eqn:E.
  - injection Hw as -> <-. apply tcp_write_run in E as (m & Hm & Hr & Hmv). cbn. rewrite (moves_sent _ _ _ _ Hmv). f_equal.
    destruct Hr as [[-> ->]|[Hz ->]]; [done|by rewrite Nat2Z.id].
  - injection Hw as <- <-. cbn. by rewrite app_nil_r.
Qed.
Next Obligation. intros W R L fuel [n w]. cbn. pose proof (tick_quiet w) as Hq. destruct (tick_get w). cbn in *. by rewrite Hq. Qed.
Next Obligation.
  intros W R L fuel len t [n w] r data w' Hr. cbn in Hr. unfold utils_net_read, read_tcp in Hr.
  destruct (HAL_TCP_Read fuel (handle n) len t w) as [[[r' d] w1]|] eqn:E.
  - injection Hr as -> -> <-. apply tcp_read_run in E as (_ & _ & Hm & _). exact (moves_come _ _ _ _ Hm).
  - by injection Hr as <- <- <-.
Qed.

(* ================================================================== *)
(** * The properties of the port *)

Section port_properties.
Context {W : Type} `{RtosLaws W}.

(** What goes through the port; see [tcp_port_correct]. *)
Lemma tcp_port_moves n w :
  (forall fuel len timeout_ms r data w', utils_net_read fuel n len timeout_ms w = Some (r, data, w') ->
     (0 <= len -> zlen data <= len) /\ moves [] data w w' /\
     (data <> [] /\ r = zlen data \/ data = [] /\ (r = SUCCESS_RET \/ r = ERR_TCP_READ_FAILED))) /\
  (forall fuel buf timeout_ms r w', utils_net_write fuel n buf timeout_ms w = Some (r, w') ->
     exists m, (m <= length buf)%nat /\ moves (take m buf) [] w w' /\
       (m = O /\ r = ERR_TCP_WRITE_FAILED \/ (0 < m)%nat /\ r = Z.of_nat m)) /\
  (forall r n1 w1, utils_net_connect n w = (r, n1, w1) ->
     pHostAddress n1 = pHostAddress n /\ net_port n1 = net_port n /\
     sent_bytes (sockets w1) = sent_bytes (sockets w) /\ to_come (sockets w1) = to_come (sockets w) /\
     (r = FAILURE_RET /\ handle n1 = u32 (-1) /\ in_use (sockets w1) = in_use (sockets w) \/
      r = SUCCESS_RET /\ handle n1 = 0 /\ (getaddrinfo (pHostAddress n) (net_port n) w).1.2 = [] /\
        in_use (sockets w1) = in_use (sockets w) \/
      r = SUCCESS_RET /\ exists fd, handle n1 = fd /\ 0 <= fd /\ (fd ∉ in_use (sockets w)) /\
        in_use (sockets w1) = {[fd]} ∪ in_use (sockets w) /\
        forall r2 n2 w2, utils_net_disconnect n1 w1 = (r2, n2, w2) ->
          r2 = SUCCESS_RET /\ handle n2 = u32 (-1) /\ in_use (sockets w2) = in_use (sockets w))).
Proof.
  split_and!.
  - intros fuel len t r data w' Hr. apply tcp_read_run in Hr as (?&?&?&?). auto.
  - intros fuel buf t r w' Hr. apply tcp_write_run in Hr as (m&?&?&?). eauto.
  - intros r n1 w1 Hc. unfold utils_net_connect, connect_tcp, HAL_TCP_Connect in Hc.
    pose proof (resolve_quiet (pHostAddress n) (net_port n) w) as Hq.
    destruct (getaddrinfo (pHostAddress n) (net_port n) w) as [[rc addrs] w2]. cbn [fst snd] in *.
    destruct (decide (rc <> 0)) as [Hrc|Hrc].
    { injection Hc as <- <- <-. cbn. rewrite Hq. auto 10. }
    destruct (connect_loop addrs rc w2) as [rc' w3] eqn:E. apply connect_loop_run in E as (Hs & Hi & Hcase).
    rewrite Hq in *. injection Hc as <- <- <-. cbn [pHostAddress net_port handle set_handle]. split_and!; [done..|].
    destruct Hcase as [[[->|[-> ->]] Hu]|(Hfd & Hnew & Hu)].
    + left. auto.
    + right; left. replace rc with 0 by lia. auto.
    + right; right. rewrite (u32_small rc') by lia. rewrite decide_False by (change (u32 (-1)) with 4294967295; lia).
      split; [done|]. exists rc'. split_and!; [done|lia|done|done|].
      intros r2 n2 w4 Hd. unfold utils_net_disconnect, disconnect_tcp, HAL_TCP_Disconnect in Hd. cbn [handle set_handle] in Hd.
      pose proof (close_law (s32 rc') w3) as Hcl. rewrite s32_small in * by lia.
      destruct (sock_close rc' w3) as [x w5]. cbn [snd] in Hcl. injection Hd as <- <- <-.
      split_and!; [done..|]. rewrite Hcl. cbn. rewrite Hu. set_solver.
Qed.

End port_properties.

(** States in which the sockets are silent, and stay so. *)
Record silent {W} `{Rtos W} (S : W -> Prop) : Prop := {
  silent_tick : forall w, S w -> S (tick_get w).2;
  silent_recv : forall fd n w, S w ->
    let '(ret, errno, _, w') := sock_recv fd n w in S w' /\ (ret = 0 \/ ret < 0 /\ retry errno = true);
  silent_send : forall fd data w, S w ->
    let '(ret, errno, w') := sock_send fd data w in S w' /\ ret <= 0 /\ retry errno = true
}.

(** States in which the sockets take whatever they are given, and stay so. *)
Record eager {W} `{Rtos W} (P : W -> Prop) : Prop := {
  eager_tick : forall w, P w -> P (tick_get w).2;
  eager_sleep : forall ms w, P w -> P (sleep_ms ms w);
  eager_alloc : forall w, P w -> P (alloc_ok w).2;
  eager_resolve : forall host port w, P w -> P (getaddrinfo host port w).2;
  eager_open : forall f t p w, P w -> P (sock_open f t p w).2;
  eager_connect : forall fd a w, P w -> P (sock_connect fd a w).2;
  eager_close : forall fd w, P w -> P (sock_close fd w).2;
  eager_send : forall fd data w, P w -> data <> [] ->
    P (sock_send fd data w).2 /\ (sock_send fd data w).1.1 = zlen data
}.
(** What every such network keeps. *)
Definition keeps {W} `{Rtos W} (w w' : W) : Prop := forall P, eager P -> P w -> P w'.
Lemma keeps_trans {W} `{Rtos W} (w1 w2 w3 : W) : keeps w1 w2 -> keeps w2 w3 -> keeps w1 w3.
Proof. intros H1 H2 P HP Hw. apply H2; [done|]. by apply H1. Qed.

Section eager_network.
Context {W : Type} `{RtosLaws W}.

Lemma time_keeps w : keeps w (rtthread_get_time_ms w).2.
Proof. intros P HP Hw. unfold rtthread_get_time_ms. pose proof (eager_tick P HP w Hw) as Ht. by destruct (tick_get w). Qed.
Lemma connect_loop_keeps addrs : forall rc w, keeps w (connect_loop addrs rc w).2.
Proof.
  induction addrs as [|cur rest IH]; intros rc w P HP Hw; cbn [connect_loop]; [done|].
  case_decide; [by apply IH|]. pose proof (eager_open P HP (ai_family cur) (ai_socktype cur) (ai_protocol cur) w Hw) as Ho.
  destruct (sock_open _ _ _ w) as [fd w1]. cbn [snd] in Ho. case_decide; [by apply IH|].
  pose proof (eager_connect P HP fd (ai_addr cur) w1 Ho) as Hc. destruct (sock_connect fd (ai_addr cur) w1) as [r w2]. cbn [snd] in Hc.
  case_decide; [done|]. pose proof (eager_close P HP fd w2 Hc) as Hcl. destruct (sock_close fd w2) as [x w3]. by apply IH.
Qed.
Lemma connect_keeps n w : keeps w (utils_net_connect n w).2.
Proof.
  intros P HP Hw. unfold utils_net_connect, connect_tcp, HAL_TCP_Connect.
  pose proof (eager_resolve P HP (pHostAddress n) (net_port n) w Hw) as Hq.
  destruct (getaddrinfo _ _ w) as [[rc addrs] w1]. cbn [snd] in Hq. case_decide; [done|].
  pose proof (connect_loop_keeps addrs rc w1 P HP Hq) as Hc. by destruct (connect_loop addrs rc w1).
Qed.
Lemma disconnect_keeps n w : keeps w (utils_net_disconnect n w).2.
Proof.
  intros P HP Hw. unfold utils_net_disconnect, disconnect_tcp, HAL_TCP_Disconnect.
  pose proof (eager_close P HP (s32 (handle n)) w Hw) as Hc. by destruct (sock_close _ w).
Qed.

(** A write takes all of it at once. *)
Lemma write_eager P fuel n buf t w r w' : eager P -> P w -> buf <> [] -> utils_net_write fuel n buf t w = Some (r, w') ->
  P w' /\ r = zlen buf /\ moves buf [] w w'.
Proof.
  intros HP Hw Hb Hr. assert (zlen buf <> 0) as Hz by (destruct buf; done).
  assert (P w' /\ r = zlen buf) as [? ->].
  { unfold utils_net_write, write_tcp, HAL_TCP_Write in Hr. pose proof (time_keeps w P HP Hw) as H1.
    destruct (rtthread_get_time_ms w) as [now w1]. cbn [snd] in H1. destruct fuel as [|fuel]; [done|]. cbn [write_loop] in Hr.
    pose proof (time_keeps w1 P HP H1) as H2. destruct (rtthread_get_time_ms w1) as [now2 w2]. cbn [snd] in H2.
    destruct (eager_send P HP (s32 (handle n)) buf w2 H2 Hb) as [H3 Hret]. change (drop 0 buf) with buf in Hr.
    destruct (sock_send _ buf w2) as [[ret errno] w3]. cbn [fst snd] in *. subst ret.
    rewrite decide_True in Hr by lia. rewrite decide_False in Hr by lia. cbn in Hr. rewrite decide_True in Hr by lia.
    injection Hr as <- <-. split; [done|lia]. }
  split_and!; [done..|]. apply tcp_write_run in Hr as (m & Hm & [[-> Hr]|[_ Hr]] & Hmv); [unfold ERR_TCP_WRITE_FAILED in Hr; lia|].
  by rewrite take_ge in Hmv by lia.
Qed.
End eager_network.

Lemma div_interval c k : 0 < k -> (c `div` k) * k <= c < (c `div` k + 1) * k.
Proof. intros Hk. pose proof (Z.div_mod c k ltac:(lia)). pose proof (Z.mod_pos_bound c k Hk). lia. Qed.

Section port_time.
Context {W : Type} `{Clock W} (Hrate : 0 < RT_TICK_PER_SECOND <= 1000).

Lemma silent_time S w : silent S -> S w -> S (rtthread_get_time_ms w).2.
Proof using. intros HS Hw. apply (silent_tick S HS) in Hw. unfold rtthread_get_time_ms. by destruct (tick_get w). Qed.

(** The milliseconds of the timeout in ticks, rounded up. *)
Definition timeout_ticks (timeout_ms : Z) : Z := (u32 timeout_ms * tick_divisor + tick_scale - 1) `div` tick_scale.

(** Where the deadline of a call lies that starts now. *)
Lemma start_epoch w timeout_ms : exists epoch,
  epoch * 4294967296 <= cycles w `div` cycles_per_tick * tick_scale + tick_divisor - 1 /\
  - cycles_per_tick < left_cycles epoch (clock_reading w + u32 timeout_ms) w <= timeout_ticks timeout_ms * cycles_per_tick.
Proof using Hrate.
  destruct rate_pos as [Hk Hd]; [lia|]. assert (Hdk : tick_divisor <= tick_scale) by (unfold tick_divisor, tick_scale; case_decide; lia).
  pose proof cpt_pos as Hc. pose proof (u32_range timeout_ms) as Hto. unfold left_cycles, deadline, timeout_ticks, clock_reading.
  pose proof (div_interval (cycles w) cycles_per_tick Hc) as Hcy. set (T := cycles w `div` cycles_per_tick) in *.
  set (epoch := (T * tick_scale + tick_divisor - 1) `div` 4294967296). exists epoch.
  pose proof (div_interval (T * tick_scale + tick_divisor - 1) 4294967296 ltac:(lia)) as He. fold epoch in He.
  assert (Hu : u32 (T * tick_scale + tick_divisor - 1) = T * tick_scale + tick_divisor - 1 - epoch * 4294967296)
    by (unfold u32; symmetry; apply (Z.mod_unique _ _ epoch); lia).
  rewrite Hu. set (f := _ `div` tick_divisor).
  pose proof (div_interval (T * tick_scale + tick_divisor - 1 - epoch * 4294967296) tick_divisor Hd) as Hf. fold f in Hf.
  split; [lia|]. set (Td := (_ + tick_scale) `div` tick_scale). set (tt := _ `div` tick_scale).
  assert (T <= Td) by (apply div_le_iff; [done|nia]).
  assert (Td - T <= tt).
  { apply div_le_iff; [done|]. assert (Td * tick_scale <= epoch * 4294967296 + (f + u32 timeout_ms - 1) * tick_divisor + tick_scale)
      by (by apply div_le_iff). nia. }
  nia.
Qed.

(** No reading reaches a deadline behind the wrap. *)
Lemma reading_below w t_end : 4294967296 <= t_end * tick_divisor -> rtthread_time_left t_end (clock_reading w) > 0.
Proof using Hrate.
  intros Ht. destruct rate_pos as [_ Hd]; [lia|]. pose proof (u32_range (cycles w `div` cycles_per_tick * tick_scale + tick_divisor - 1)).
  assert (clock_reading w < t_end) by (apply div_lt_iff; lia). unfold rtthread_time_left. rewrite decide_True by lia. lia.
Qed.

Lemma read_loop_hangs S fuel : forall fd len buf t_end w,
  silent S -> S w -> zlen buf < len -> 4294967296 <= t_end * tick_divisor -> read_loop fuel fd len buf t_end w = None.
Proof using All.
  induction fuel as [|fuel IH]; intros fd len buf t_end w HS Hw Hl Ht; [done|]. cbn [read_loop].
  pose proof (time_reads w) as [Hnow _]. apply (silent_time S) in Hw; [|done].
  destruct (rtthread_get_time_ms w) as [now w1]. cbn [fst snd] in *.
  pose proof (reading_below w t_end Ht). rewrite (decide_False (P := _ = 0)) by (subst now; lia).
  pose proof (silent_recv S HS fd (len - zlen buf) w1 Hw) as Hs.
  destruct (sock_recv fd (len - zlen buf) w1) as [[[ret errno] got] w2]. destruct Hs as [Hw2 Hs].
  rewrite (decide_False (P := ret > 0)) by lia. rewrite (decide_True (P := zlen buf < len)) by lia.
  destruct (decide (ret = 0)); [by apply IH|]. destruct Hs as [?|[_ ->]]; [done|by apply IH].
Qed.

Lemma write_loop_hangs S fuel : forall fd buf n t_end w,
  silent S -> S w -> (n < length buf)%nat -> 4294967296 <= t_end * tick_divisor -> write_loop fuel fd buf n t_end w = None.
Proof using All.
  induction fuel as [|fuel IH]; intros fd buf n t_end w HS Hw Hl Ht; [done|]. cbn [write_loop].
  apply (silent_time S) in Hw; [|done]. destruct (rtthread_get_time_ms w) as [now w1]. cbn [snd] in Hw.
  pose proof (silent_send S HS fd (drop n buf) w1 Hw) as Hs.
  destruct (sock_send fd (drop n buf) w1) as [[ret errno] w2].
  destruct Hs as (Hw2 & Hret & ->). rewrite (decide_False (P := ret > 0)) by lia. rewrite (decide_True (P := (n < length buf)%nat)) by lia.
  pose proof (time_reads w2) as [Hnow _]. apply (silent_time S) in Hw2; [|done].
  destruct (rtthread_get_time_ms w2) as [now2 w3]. cbn [fst snd] in *.
  pose proof (reading_below w2 t_end Ht). rewrite decide_True by (subst now2; lia). by apply IH.
Qed.

Lemma tcp_port_ends n w len buf timeout_ms :
  let now := clock_reading w in
  (forall fuel, (now + u32 timeout_ms) * tick_divisor + (3 * slowest + 1) * tick_scale <= 4294967296 ->
     timeout_ticks timeout_ms * cycles_per_tick < Z.of_nat fuel ->
     utils_net_read fuel n len timeout_ms w <> None /\ utils_net_write fuel n buf timeout_ms w <> None) /\
  (forall S fuel, 4294967296 <= (now + u32 timeout_ms) * tick_divisor -> silent S -> S w ->
     (0 < len -> utils_net_read fuel n len timeout_ms w = None) /\
     (buf <> [] -> utils_net_write fuel n buf timeout_ms w = None)).
Proof using All.
  intros now. pose proof (time_reads w) as [Hnow Ht].
  assert (Hquiet : forall S, silent S -> S w -> S (rtthread_get_time_ms w).2) by (intros S; apply silent_time).
  unfold utils_net_read, read_tcp, HAL_TCP_Read, utils_net_write, write_tcp, HAL_TCP_Write.
  destruct (rtthread_get_time_ms w) as [now' w1]. cbn [fst snd] in *. subst now'. fold now.
  split.
  - intros fuel Hroom Hf. destruct (start_epoch w timeout_ms) as (epoch & He & Hl1 & Hl2). fold now in Hl1, Hl2.
    pose proof cpt_pos as Hc. pose proof slowest_pos as Hsl.
    assert (He1 : epoch * 4294967296 <= cycles w1 `div` cycles_per_tick * tick_scale + tick_divisor - 1)
      by (apply (ticks_mono Hrate epoch w w1); [lia|done]).
    assert (Hl : - ((slowest + 1) * cycles_per_tick) < left_cycles epoch (now + u32 timeout_ms) w1)
      by (unfold left_cycles in *; nia).
    assert (Hfuel : left_cycles epoch (now + u32 timeout_ms) w1 < Z.of_nat fuel) by (unfold left_cycles in *; lia).
    assert (Hto : 0 <= timeout_ticks timeout_ms).
    { destruct rate_pos as [? ?]; [lia|]. pose proof (u32_range timeout_ms). apply Z.div_pos; nia. }
    split.
    + assert (Hr := read_loop_ends Hrate epoch (now + u32 timeout_ms) Hroom fuel (s32 (handle n)) len [] w1).
      destruct (read_loop _ _ _ _ _ w1) as [[[? ?] ?]|]; [done|]. exfalso.
      apply Hr; [split; [done|unfold left_cycles in *; nia]|done|nia|done].
    + assert (Hr := write_loop_ends Hrate epoch (now + u32 timeout_ms) Hroom fuel (s32 (handle n)) buf 0 w1).
      destruct (write_loop _ _ _ _ _ w1) as [[? ?]|]; [done|]. exfalso. apply Hr; [done|done|nia|done].
  - intros S fuel Hwrap HS Hw. apply (Hquiet S HS) in Hw. split.
    + intros Hl. by rewrite (read_loop_hangs S).
    + intros Hb. rewrite (write_loop_hangs S); [done..| |done]. destruct buf; [done|cbn; lia].
Qed.

End port_time.

(** C15: the four network functions over the socket calls.  A read yields at
    most the bytes asked for, exactly the next ones of the connection, and
    their number, or 0 or an error if there are none; a write sends a first
    part of the buffer and yields its length, or an error if it sent nothing.
    (A peer that has closed the connection looks like one that is silent: no
    other result exists.)  Connecting opens at most one socket, which the
    handle names on success, and closes the others; disconnecting closes it.

    Let there be at most 1000 ticks a second.  The clock of the port is read
    in milliseconds: at 1000 ticks a second it is the tick counter, at any other
    rate the ticks times 1000, in 32 bits, over the rate (rounded up).  Reads
    and writes end by their timeout, in at most a round per processor cycle of
    it, whatever the socket does - if that 32-bit number does not wrap before
    the deadline (with the time of three calls to spare).  If the deadline lies
    behind the wrap they never time out: it is computed in 64 bits and no
    reading reaches it, so as long as the socket is silent the call does not
    return.  At 1000 ticks a second that happens once in 49 days; at 100, the
    rate of [docs/rt_config.md], the product wraps every 12 hours. *)
Theorem tcp_port_correct {W} `{RtosLaws W} `{!Clock W} (Hrate : 0 < RT_TICK_PER_SECOND <= 1000) n w len buf timeout_ms :
  let now := clock_reading w in
  (forall fuel len timeout_ms r data w', utils_net_read fuel n len timeout_ms w = Some (r, data, w') ->
     (0 <= len -> zlen data <= len) /\ moves [] data w w' /\
     (data <> [] /\ r = zlen data \/ data = [] /\ (r = SUCCESS_RET \/ r = ERR_TCP_READ_FAILED))) /\
  (forall fuel buf timeout_ms r w', utils_net_write fuel n buf timeout_ms w = Some (r, w') ->
     exists m, (m <= length buf)%nat /\ moves (take m buf) [] w w' /\
       (m = O /\ r = ERR_TCP_WRITE_FAILED \/ (0 < m)%nat /\ r = Z.of_nat m)) /\
  (forall r n1 w1, utils_net_connect n w = (r, n1, w1) ->
     pHostAddress n1 = pHostAddress n /\ net_port n1 = net_port n /\
     sent_bytes (sockets w1) = sent_bytes (sockets w) /\ to_come (sockets w1) = to_come (sockets w) /\
     (r = FAILURE_RET /\ handle n1 = u32 (-1) /\ in_use (sockets w1) = in_use (sockets w) \/
      r = SUCCESS_RET /\ handle n1 = 0 /\ (getaddrinfo (pHostAddress n) (net_port n) w).1.2 = [] /\
        in_use (sockets w1) = in_use (sockets w) \/
      r = SUCCESS_RET /\ exists fd, handle n1 = fd /\ 0 <= fd /\ (fd ∉ in_use (sockets w)) /\
        in_use (sockets w1) = {[fd]} ∪ in_use (sockets w) /\
        forall r2 n2 w2, utils_net_disconnect n1 w1 = (r2, n2, w2) ->
          r2 = SUCCESS_RET /\ handle n2 = u32 (-1) /\ in_use (sockets w2) = in_use (sockets w))) /\
  (forall fuel, (now + u32 timeout_ms) * tick_divisor + (3 * slowest + 1) * tick_scale <= 4294967296 ->
     timeout_ticks timeout_ms * cycles_per_tick < Z.of_nat fuel ->
     utils_net_read fuel n len timeout_ms w <> None /\ utils_net_write fuel n buf timeout_ms w <> None) /\
  (forall S fuel, 4294967296 <= (now + u32 timeout_ms) * tick_divisor -> silent S -> S w ->
     (0 < len -> utils_net_read fuel n len timeout_ms w = None) /\
     (buf <> [] -> utils_net_write fuel n buf timeout_ms w = None)).
Proof.
  intros now. destruct (tcp_port_moves n w) as (? & ? & ?). destruct (tcp_port_ends Hrate n w len buf timeout_ms). split_and!; assumption.
Qed.

(* ================================================================== *)
(** * A socket layer *)

(** A cycle per call and per tick; a connection that delivers [t_inbox] piece
    by piece and takes everything, unless it is [t_dead]. *)
Record TcpWorld := mkTcp {
  t_cycles : Z;
  t_inbox : bytes;
  t_piece : nat;
  t_sent : bytes;
  t_open : gset Z;
  t_next : Z;
  t_dead : bool
}.
Definition step (n : Z) (w : TcpWorld) : TcpWorld :=
  mkTcp (t_cycles w + n) (t_inbox w) (t_piece w) (t_sent w) (t_open w) (t_next w) (t_dead w).

Definition sim_recv (n : Z) (w : TcpWorld) : Z * Z * bytes * TcpWorld :=
  let got := u8 <$> take (Z.to_nat n `min` t_piece w) (t_inbox w) in
  if decide (t_dead w = true \/ got = []) then (-1, EAGAIN, [], step 1 w)
  else (zlen got, 0, got, mkTcp (t_cycles w + 1) (drop (Z.to_nat n `min` t_piece w) (t_inbox w)) (t_piece w) (t_sent w)
          (t_open w) (t_next w) (t_dead w)).
Definition sim_send (data : bytes) (w : TcpWorld) : Z * Z * TcpWorld :=
  if t_dead w then (-1, EAGAIN, step 1 w)
  else (zlen data, 0, mkTcp (t_cycles w + 1) (t_inbox w) (t_piece w) (t_sent w ++ data) (t_open w) (t_next w) (t_dead w)).
Definition sim_open (w : TcpWorld) : Z * TcpWorld :=
  let fd := t_next w in
  if decide (0 <= fd < 2147483648 /\ (fd ∉ t_open w))
  then (fd, mkTcp (t_cycles w) (t_inbox w) (t_piece w) (t_sent w) ({[fd]} ∪ t_open w) (fd + 1) (t_dead w))
  else (-1, w).
Definition sim_close (fd : Z) (w : TcpWorld) : Z * TcpWorld :=
  (0, mkTcp (t_cycles w) (t_inbox w) (t_piece w) (t_sent w) (t_open w ∖ {[fd]}) (t_next w) (t_dead w)).

Definition tcp_sim_at (rate : Z) : Rtos TcpWorld := {|
  RT_TICK_PER_SECOND := rate;
  tick_get w := (u32 (t_cycles w), w);
  tick_from_ms ms := ms;
  sleep_ms ms w := step ms w;
  alloc_ok w := (true, w);
  getaddrinfo host port w := (0, [mkAddr AF_INET 1 6 7], w);
  sock_open f t p w := sim_open w;
  sock_connect fd a w := (if t_dead w then -1 else 0, w);
  sock_close fd w := sim_close fd w;
  sock_send fd data w := sim_send data w;
  sock_recv fd n w := sim_recv n w
|}.
#[export] Instance tcp_sim : Rtos TcpWorld := tcp_sim_at 1000.

#[export] Program Instance tcp_sim_laws_at rate : @RtosLaws TcpWorld (tcp_sim_at rate) := {
  sockets w := mkSockets (t_sent w) (u8 <$> t_inbox w) (t_open w)
}.
Next Obligation. intros rate w. apply u32_range. Qed.
Next Obligation. done. Qed.
Next Obligation. done. Qed.
Next Obligation. done. Qed.
Next Obligation. done. Qed.
Next Obligation. intros rate fd a w. done. Qed.
Next Obligation.
  intros rate f t p w fd w' Ho. cbn in Ho. unfold sim_open in Ho. case_decide as Hd; injection Ho as <- <-.
  - destruct Hd as [? ?]. split; [lia|]. right. cbn. auto with lia.
  - split; [lia|]. left. split; [lia|done].
Qed.
Next Obligation. done. Qed.
Next Obligation.
  intros rate fd data w ret errno w' Hs. cbn in Hs. unfold sim_send in Hs. destruct (t_dead w); injection Hs as <- <- <-; cbn.
  - split; [lia|]. by rewrite app_nil_r.
  - split; [lia|]. by rewrite Nat2Z.id, firstn_all.
Qed.
Next Obligation.
  intros rate fd n w ret errno got w' Hr. cbn in Hr. unfold sim_recv in Hr. case_decide as Hd; injection Hr as <- <- <- <-; cbn.
  - split_and!; done || lia.
  - split_and!; [lia| | |done|done|].
    + rewrite length_fmap, length_take. lia.
    + apply Forall_fmap, Forall_forall. intros x _. apply byte_u8.
    + by rewrite <- fmap_app, take_drop.
Qed.
#[export] Instance tcp_sim_laws : RtosLaws TcpWorld := tcp_sim_laws_at 1000.

#[export] Program Instance tcp_sim_clock_at rate : @Clock TcpWorld (tcp_sim_at rate) := {
  cycles := t_cycles;
  cycles_per_tick := 1;
  slowest := 1
}.
Next Obligation. intros. lia. Qed.
Next Obligation. intros. lia. Qed.
Next Obligation. intros rate w. cbn. by rewrite Z.div_1_r. Qed.
Next Obligation. intros rate w. cbn. lia. Qed.
Next Obligation. intros rate fd data w. cbn. unfold sim_send. destruct (t_dead w); cbn; lia. Qed.
Next Obligation. intros rate fd n w. cbn. unfold sim_recv. case_decide; cbn; lia. Qed.

#[export] Instance tcp_sim_clock : Clock TcpWorld := tcp_sim_clock_at 1000.

Definition tcp0 : TcpWorld := mkTcp 1000 [1; 2; 3; 4; 5] 2 [] ∅ 3 false.
Definition net0 : utils_network := mkNetwork (bytes_of "mqtt.ucloud.cn") 1883 0 0 None 0.
Example net0_init : utils_net_init (Some (bytes_of "mqtt.ucloud.cn")) 1883 0 None = Some net0.
Proof. reflexivity. Qed.
Definition dead0 : TcpWorld := mkTcp 4294967290 [] 2 [] ∅ 3 true.

(** Twelve hours after the start, at 100 ticks a second. *)
Definition late0 : TcpWorld := mkTcp 4294967 [] 2 [] ∅ 3 true.
Lemma dead_silent rate : @silent TcpWorld (tcp_sim_at rate) (fun w => t_dead w = true).
Proof.
  split; [done| |]; intros fd n w Hw; cbn.
  - unfold sim_recv. rewrite decide_True by auto. cbn. auto with lia.
  - unfold sim_send. rewrite Hw. cbn. auto with lia.
Qed.

(** The layer takes everything unless it is dead. *)
Lemma live_eager rate : @eager TcpWorld (tcp_sim_at rate) (fun w => t_dead w = false).
Proof.
  split; cbn; try done.
  - intros f t p w Hw. unfold sim_open. by case_decide.
  - intros fd data w Hw _. unfold sim_send. by rewrite Hw.
Qed.

Lemma tcp_port_correct_witness :
  (exists w', utils_net_read 100 net0 4 50 tcp0 = Some (4, [1; 2; 3; 4], w') /\ moves [] [1; 2; 3; 4] tcp0 w') /\
  utils_net_read 51 net0 4 50 tcp0 <> None /\ (forall fuel, utils_net_read fuel net0 4 50 dead0 = None) /\
  forall fuel, utils_net_read (H := tcp_sim_at 100) fuel net0 4 50 late0 = None.
Proof.
  assert (Hrate : 0 < @RT_TICK_PER_SECOND TcpWorld tcp_sim <= 1000) by by_eval.
  pose proof (tcp_port_correct (W := TcpWorld) Hrate net0) as Hport. split_and!.
  - destruct (utils_net_read 100 net0 4 50 tcp0) as [[[r data] w']|] eqn:E; [|by vm_compute in E].
    destruct (Hport tcp0 4 [] 50) as [Hread _]. destruct (Hread _ _ _ _ _ _ E) as (_ & Hm & _).
    vm_compute in E. injection E as <- <- <-. eexists. split; [done|exact Hm].
  - destruct (Hport tcp0 4 [] 50) as (_ & _ & _ & Hends & _). apply Hends; by_eval.
  - intros fuel. destruct (Hport dead0 4 [] 50) as (_ & _ & _ & _ & Hhangs).
    apply (Hhangs (fun w => t_dead w = true) fuel); [by_eval|apply (dead_silent 1000)|done|done].
  - intros fuel. assert (Hslow : 0 < @RT_TICK_PER_SECOND TcpWorld (tcp_sim_at 100) <= 1000) by by_eval.
    destruct (tcp_port_correct (H0 := tcp_sim_laws_at 100) (Clock0 := tcp_sim_clock_at 100) Hslow net0 late0 4 [] 50) as (_ & _ & _ & _ & Hhangs).
    apply (Hhangs (fun w => t_dead w = true) fuel); [by_eval|apply (dead_silent 100)|done|done].
Defined.
