(* ===== verification/Httpc.v ===== *)
(** The HTTP client ([uiot/utils/utils_httpc.c]) over the network binding of
    [HalTcp]: requests with a range, and responses read in pieces into the
    caller's buffer.  The firmware download is its main user.

    Arrays on the stack are lists of their size with checked access, so that an
    overrun is the outcome [Undefined].  [rounds] is the fuel of a network call,
    [fuel] that of the loops that wait for data: the code bounds neither. *)

From S2P Require Import Prelude Defs HalTimer Json CLib Digest MqttWire MqttState HalTcp.

(* ================================================================== *)
(** * Data *)

Definition SSL_CA_VERIFY_REQUIRED := 2.
Definition MIN_TIMEOUT := 100.
Definition MAX_RETRY_COUNT := 600.
Definition HTTP_CLIENT_READ_BUF_SIZE : nat := 1024.
Definition HTTP_CLIENT_READ_HEAD_SIZE := 32.
Definition HTTP_CLIENT_SEND_BUF_SIZE : nat := 1024.
Definition HTTP_CLIENT_REQUEST_BUF_SIZE := 300.
Definition HTTP_CLIENT_MAX_URL_LEN : nat := 256.
Definition HTTP_RETRIEVE_MORE_DATA := 1.
Definition HTTP_CLIENT_CHUNK_SIZE := 1024.

Inductive HTTP_Request_Method := HTTP_GET | HTTP_POST | HTTP_PUT | HTTP_DELETE | HTTP_HEAD.

Record http_client_t := mkHttp {
  net : utils_network;
  response_code : Z;
  header : option bytes
}.

(** [response_buf] is the caller's buffer of [response_buf_len] bytes, [None] a
    NULL pointer; [post_buf] is a string of [post_buf_len] bytes: the length
    is no field of its own, because every caller sets it to the length of the
    data it points to. *)
Record http_client_data_t := mkHttpData {
  is_more : Z;
  is_chunked : Z;
  retrieve_len : Z;
  response_content_len : Z;
  response_received_len : Z;
  response_buf_len : Z;
  post_content_type : option bytes;
  post_buf : option bytes;
  response_buf : option bytes
}.

Definition set_net (n : utils_network) (c : http_client_t) : http_client_t :=
  mkHttp n (response_code c) (header c).
Definition set_response_code (v : Z) (c : http_client_t) : http_client_t := mkHttp (net c) v (header c).
Definition set_is_more (v : Z) (d : http_client_data_t) : http_client_data_t :=
  mkHttpData v (is_chunked d) (retrieve_len d) (response_content_len d) (response_received_len d)
    (response_buf_len d) (post_content_type d) (post_buf d) (response_buf d).
Definition set_is_chunked (v : Z) (d : http_client_data_t) : http_client_data_t :=
  mkHttpData (is_more d) v (retrieve_len d) (response_content_len d) (response_received_len d)
    (response_buf_len d) (post_content_type d) (post_buf d) (response_buf d).
Definition set_retrieve_len (v : Z) (d : http_client_data_t) : http_client_data_t :=
  mkHttpData (is_more d) (is_chunked d) v (response_content_len d) (response_received_len d)
    (response_buf_len d) (post_content_type d) (post_buf d) (response_buf d).
Definition set_content_len (v : Z) (d : http_client_data_t) : http_client_data_t :=
  mkHttpData (is_more d) (is_chunked d) (retrieve_len d) v (response_received_len d)
    (response_buf_len d) (post_content_type d) (post_buf d) (response_buf d).
Definition set_received_len (v : Z) (d : http_client_data_t) : http_client_data_t :=
  mkHttpData (is_more d) (is_chunked d) (retrieve_len d) (response_content_len d) v
    (response_buf_len d) (post_content_type d) (post_buf d) (response_buf d).
Definition set_response_buf (b : option bytes) (d : http_client_data_t) : http_client_data_t :=
  mkHttpData (is_more d) (is_chunked d) (retrieve_len d) (response_content_len d) (response_received_len d)
    (response_buf_len d) (post_content_type d) (post_buf d) b.

Definition CRLF : bytes := [13; 10].
Definition blank_line : bytes := [13; 10; 13; 10].

(* ================================================================== *)
(** * The URL *)

(** [memcpy(array, src, len); array[len] = 0] for an array of 256 bytes. *)
Definition copy_string (src : bytes) (len : Z) : res bytes :=
  s ← slice_at src 0 len;
  array ← write_at (replicate HTTP_CLIENT_MAX_URL_LEN 0) 0 s;
  write_at array len [0].

(** The arrays [host] and [path]; pointers into [url] are its suffixes, their
    difference is the difference of the lengths. *)
Definition _utils_parse_url (url : bytes) : res (bytes * bytes + Z) :=
  host_ptr ← strstr url (bytes_of "://");
  match host_ptr with
  | None => Ok (inr ERR_PARAM_INVALID)
  | Some host_ptr =>
      let host_ptr := drop 3 host_ptr in
      path_ptr ← strchr host_ptr 47;
      match path_ptr with
      | None => Ok (inr ERR_PARAM_INVALID)
      | Some path_ptr =>
          host ← copy_string host_ptr (zlen host_ptr - zlen path_ptr);
          fragment_ptr ← strchr host_ptr 35;
          path_len ← match fragment_ptr with
                     | Some fragment_ptr => Ok (u32 (zlen path_ptr - zlen fragment_ptr))
                     | None => n ← strlen path_ptr; Ok (Z.of_nat n)
                     end;
          path ← copy_string path_ptr path_len;
          Ok (inl (host, path))
      end
  end.

(* ================================================================== *)
(** * Requests *)

Section client.
Context {W : Type} `{Rtos W} (rounds : nat).

(** A C string in an array. *)
Definition text_of (array : bytes) : outcome bytes :=
  match cstr array with Some s => Done s | None => Undefined end.

(** The loop that moves [buf] through the transmit buffer: the result code,
    the buffer, and the fill state, which the caller keeps only on success. *)
Fixpoint fill_loop (fuel : nat) (n : utils_network) (send_buf : bytes) (idx : Z) (buf : bytes) (w : W) :
    outcome (Z * bytes * Z * W) :=
  match fuel with
  | O => Unfinished
  | S fuel =>
      let room := Z.of_nat HTTP_CLIENT_SEND_BUF_SIZE - idx in
      let cp_len := if decide (zlen buf <= u32 room) then zlen buf else room in
      send_buf ← access (part ← slice_at buf 0 cp_len; write_at send_buf idx part);
      let idx := idx + cp_len in
      let buf := drop (Z.to_nat cp_len) buf in
      let continue idx w :=
        if decide (buf = []) then Done (SUCCESS_RET, send_buf, idx, w) else fill_loop fuel n send_buf idx buf w in
      if decide (idx = Z.of_nat HTTP_CLIENT_SEND_BUF_SIZE) then
        '(ret, w) ← finish (utils_net_write rounds n send_buf 5000 w);
        if decide (ret < 0) then Done (ret, send_buf, idx, w)
        else if decide (ret <> Z.of_nat HTTP_CLIENT_SEND_BUF_SIZE)
        then Done (if decide (ret = 0) then ERR_HTTP_CLOSED else ERR_HTTP_CONN_ERROR, send_buf, idx, w)
        else continue (idx - ret) w
      else continue idx w
  end.

Definition _utils_fill_tx_buffer (n : utils_network) (send_buf : bytes) (send_idx : Z) (buf : bytes) (w : W) :
    outcome (Z * bytes * Z * W) :=
  '(ret, send_buf, idx, w) ← fill_loop (S (length buf)) n send_buf send_idx buf w;
  Done (ret, send_buf, if decide (ret = SUCCESS_RET) then idx else send_idx, w).

Definition method_name (method : HTTP_Request_Method) : bytes :=
  match method with
  | HTTP_GET => bytes_of "GET"
  | HTTP_POST => bytes_of "POST"
  | HTTP_PUT => bytes_of "PUT"
  | HTTP_DELETE => bytes_of "DELETE"
  | HTTP_HEAD => bytes_of "HEAD"
  end.

(** The request line and its first headers. *)
Definition request_line (method : HTTP_Request_Method) (path host : bytes) : bytes :=
  method_name method ++ [32] ++ path ++ bytes_of " HTTP/1.1" ++ CRLF ++ bytes_of "Host: " ++ host ++ CRLF.
Definition range_line (size_fetched range_len : Z) : bytes :=
  bytes_of "Range: bytes=" ++ dec (s32 size_fetched) ++ [45] ++ dec (s32 (u32 (size_fetched + range_len))) ++ CRLF.

Definition _http_send_header (c : http_client_t) (host path : bytes) (method : HTTP_Request_Method)
    (size_fetched range_len : Z) (d : http_client_data_t) (w : W) : outcome (Z * W) :=
  let send_buf := replicate HTTP_CLIENT_SEND_BUF_SIZE 0 in
  host ← text_of host;
  path ← text_of path;
  let buf := snprintf HTTP_CLIENT_REQUEST_BUF_SIZE
    (request_line method path host ++ if decide (range_len <> 0) then range_line size_fetched range_len else []) in
  '(ret, send_buf, len, w) ← _utils_fill_tx_buffer (net c) send_buf 0 buf w;
  if decide (ret < 0) then Done (ERR_HTTP_CONN_ERROR, w)
  else
    '(send_buf, len, w) ←
      match header c with
      | Some h => '(_, send_buf, len, w) ← _utils_fill_tx_buffer (net c) send_buf len h w; Done (send_buf, len, w)
      | None => Done (send_buf, len, w)
      end;
    '(send_buf, len, w) ←
      match post_buf d with
      | Some p =>
          let line := snprintf HTTP_CLIENT_REQUEST_BUF_SIZE (bytes_of "Content-Length: " ++ dec (zlen p) ++ CRLF) in
          '(_, send_buf, len, w) ← _utils_fill_tx_buffer (net c) send_buf len line w;
          match post_content_type d with
          | Some t =>
              let line := snprintf HTTP_CLIENT_REQUEST_BUF_SIZE (bytes_of "Content-Type: " ++ t ++ CRLF) in
              '(_, send_buf, len, w) ← _utils_fill_tx_buffer (net c) send_buf len line w; Done (send_buf, len, w)
          | None => Done (send_buf, len, w)
          end
      | None => Done (send_buf, len, w)
      end;
    '(_, send_buf, len, w) ← _utils_fill_tx_buffer (net c) send_buf len CRLF w;
    request ← access (slice_at send_buf 0 len);
    '(ret, w) ← finish (utils_net_write rounds (net c) request 5000 w);
    Done (if decide (ret <= 0) then if decide (ret = 0) then ERR_HTTP_CLOSED else ERR_HTTP_CONN_ERROR
          else SUCCESS_RET, w).

Definition _http_send_user_data (c : http_client_t) (d : http_client_data_t) (timeout_ms : Z) (w : W) : outcome (Z * W) :=
  match post_buf d with
  | Some p =>
      if decide (p <> []) then
        '(ret, w) ← finish (utils_net_write rounds (net c) p timeout_ms w);
        Done (if decide (ret <= 0) then if decide (ret = 0) then ERR_HTTP_CLOSED else ERR_HTTP_CONN_ERROR
              else SUCCESS_RET, w)
      else Done (SUCCESS_RET, w)
  | None => Done (SUCCESS_RET, w)
  end.

Definition _http_send_request (c : http_client_t) (url : bytes) (method : HTTP_Request_Method)
    (size_fetched range_len : Z) (d : http_client_data_t) (timeout_ms : Z) (w : W) : outcome (Z * W) :=
  if decide (handle (net c) = 0) then Done (-1, w)
  else
    parsed ← access (_utils_parse_url url);
    match parsed with
    | inr rc => Done (rc, w)
    | inl (host, path) =>
        '(ret, w) ← _http_send_header c host path method size_fetched range_len d w;
        if decide (ret <> 0) then Done (ERR_HTTP_CONN_ERROR, w)
        else
          match method with
          | HTTP_POST | HTTP_PUT =>
              '(ret, w) ← _http_send_user_data c d timeout_ms w;
              Done (if decide (ret < 0) then ERR_HTTP_CONN_ERROR else ret, w)
          | _ => Done (ret, w)
          end
    end.

(* ------------------------------------------------------------------ *)
(** ** Responses *)

(** The result code, and the bytes stored in the caller's buffer; [*p_read_len]
    is their number if the code is 0, and 0 otherwise. *)
Definition _http_recv (c : http_client_t) (max_len timeout_ms : Z) (w : W) : outcome (Z * bytes * W) :=
  '(ret, data, w) ← finish (utils_net_read rounds (net c) max_len timeout_ms w);
  Done (if decide (ret > 0) then 0 else if decide (ret = 0) then FAILURE_RET else ERR_HTTP_CONN_ERROR, data, w).

(** The timer, the two counters, and whether to go on ([SUCCESS_RET]). *)
Definition _utils_check_deadloop (len timer ret dead_loop_count extend_count : Z) (w : W) : Z * Z * Z * Z * W :=
  let '(now, w) := tick_get w in
  let '(timer, extend_count, w) :=
    if decide (left_ms timer now < MIN_TIMEOUT) then
      let '(now, w) := tick_get w in (countdown_ms tick_from_ms MIN_TIMEOUT now, u32 (extend_count + 1), w)
    else (timer, extend_count, w) in
  let '(no_time, w) :=
    if decide (len = 0) then let '(now, w) := tick_get w in (bool_decide (left_ms timer now = 0), w) else (false, w) in
  let dead_loop_count := if decide (no_time = true /\ ret = FAILURE_RET) then u32 (dead_loop_count + 1) else 0 in
  if decide (no_time = true /\ ret = FAILURE_RET /\ dead_loop_count > MAX_RETRY_COUNT)
  then (ERR_HTTP_CONN_ERROR, timer, dead_loop_count, extend_count, w)
  else if decide (len = 0 /\ extend_count > 2 * MAX_RETRY_COUNT /\ ret = FAILURE_RET)
  then (ERR_HTTP_CONN_ERROR, timer, dead_loop_count, extend_count, w)
  else (SUCCESS_RET, timer, dead_loop_count, extend_count, w).

(** [Min(a, b)] *)
Definition Min (a b : Z) : Z := if decide (a < b) then a else b.

(** Moving [len] bytes of [data] into the response buffer, which then holds
    [count] of them. *)
Definition _utils_fill_rx_buf (count len : Z) (d : http_client_data_t) (data : bytes) :
    res (Z * Z * http_client_data_t) :=
  match response_buf d with
  | None => Oob
  | Some buf =>
      if decide (count + len < response_buf_len d - 1) then
        part ← slice_at data 0 len;
        buf ← write_at buf count part;
        buf ← write_at buf (count + len) [0];
        Ok (SUCCESS_RET, count + len, set_retrieve_len (retrieve_len d - len) (set_response_buf (Some buf) d))
      else
        part ← slice_at data 0 (response_buf_len d - 1 - count);
        buf ← write_at buf count part;
        buf ← write_at buf (response_buf_len d - 1) [0];
        Ok (HTTP_RETRIEVE_MORE_DATA, count,
            set_retrieve_len (retrieve_len d - (response_buf_len d - 1 - count)) (set_response_buf (Some buf) d))
  end.

(** The loop that reads the body: [data] holds [data_len] bytes that are not
    moved yet, [count] are in the response buffer. *)
Fixpoint body_loop (fuel : nat) (c : http_client_t) (data : bytes) (data_len timeout_ms count timer dead ext : Z)
    (d : http_client_data_t) (w : W) : outcome (Z * http_client_data_t * W) :=
  match fuel with
  | O => Unfinished
  | S fuel =>
      '(more, count, d) ← access (_utils_fill_rx_buf count (Min data_len (retrieve_len d)) d data);
      if decide (more = HTTP_RETRIEVE_MORE_DATA) then Done (HTTP_RETRIEVE_MORE_DATA, d, w)
      else if decide (retrieve_len d = 0) then Done (SUCCESS_RET, set_is_more 0 d, w)
      else
        let max_len := Min (HTTP_CLIENT_CHUNK_SIZE - 1) (response_buf_len d - 1 - count) in
        let max_len := Min max_len (retrieve_len d) in
        '(ret, got, w) ← _http_recv c max_len timeout_ms w;
        data ← access (write_at data 0 got);
        if decide (ret = ERR_HTTP_CONN_ERROR) then Done (ret, d, w)
        else
          let data_len := if decide (ret = 0) then zlen got else 0 in
          let '(rc, timer, dead, ext, w) := _utils_check_deadloop data_len timer ret dead ext w in
          if decide (rc = ERR_HTTP_CONN_ERROR) then Done (rc, d, w)
          else body_loop fuel c data data_len timeout_ms count timer dead ext d w
  end.

Definition _http_get_response_body (fuel : nat) (c : http_client_t) (data : bytes) (data_len timeout_ms : Z)
    (d : http_client_data_t) (w : W) : outcome (Z * http_client_data_t * W) :=
  let '(now, w) := tick_get w in
  let timer := countdown_ms tick_from_ms timeout_ms now in
  let d := set_is_more 1 d in
  if decide (response_content_len d = -1 /\ is_chunked d = 0) then Done (ERR_HTTP_CONN_ERROR, d, w)
  else body_loop fuel c data data_len timeout_ms 0 timer 0 0 d w.

(** Reading until the blank line is in [data], which holds [len] bytes; its
    place is given by what is left from there. *)
Fixpoint header_loop (fuel : nat) (c : http_client_t) (data : bytes) (len timeout_ms : Z) (w : W) :
    outcome (bytes * Z * bytes * W + W) :=
  match fuel with
  | O => Unfinished
  | S fuel =>
      ptr_body_end ← access (strstr data blank_line);
      match ptr_body_end with
      | Some p => Done (inl (data, len, p, w))
      | None =>
          '(ret, got, w) ← _http_recv c HTTP_CLIENT_READ_HEAD_SIZE timeout_ms w;
          data ← access (write_at data len got);
          if decide (ret = ERR_HTTP_CONN_ERROR) then Done (inr w)
          else
            let len := len + (if decide (ret = 0) then zlen got else 0) in
            data ← access (write_at data len [0]);
            header_loop fuel c data len timeout_ms w
      end
  end.

(** [memmove(data, &data[from], n)] *)
Definition move_down (data : bytes) (from n : Z) : res bytes :=
  part ← slice_at data from n; write_at data 0 part.

Definition _http_parse_response_header (fuel : nat) (c : http_client_t) (data : bytes) (len timeout_ms : Z)
    (d : http_client_data_t) (w : W) : outcome (Z * http_client_t * http_client_data_t * W) :=
  let d := set_content_len (-1) d in
  crlf_ptr ← access (strstr data CRLF);
  match crlf_ptr with
  | None => Done (ERR_HTTP_UNRESOLVED_DNS, c, d, w)
  | Some p =>
      let crlf_pos := zlen data - zlen p in
      data ← access (write_at data crlf_pos [0]);
      status ← access (atoi (drop 9 data));
      let c := set_response_code status c in
      data ← access (move_down data (crlf_pos + 2) (len - (crlf_pos + 2) + 1));
      let d := set_is_chunked 0 d in
      headers ← header_loop fuel c data (len - (crlf_pos + 2)) timeout_ms w;
      match headers with
      | inr w => Done (ERR_HTTP_CONN_ERROR, c, d, w)
      | inl (data, len, ptr_body_end, w) =>
          tmp_ptr ← access (strstr data (bytes_of "Content-Length"));
          match tmp_ptr with
          | None => Done (ERR_HTTP_CONN_ERROR, c, d, w)
          | Some p =>
              content_len ← access (atoi (drop 16 p));
              let d := set_retrieve_len content_len (set_content_len content_len d) in
              let body := zlen data - zlen ptr_body_end + 4 in
              let len := len - body in
              data ← access (move_down data body (len + 1));
              let d := set_received_len (response_received_len d + len) d in
              '(rc, d, w) ← _http_get_response_body fuel c data len timeout_ms d w;
              Done (rc, c, d, w)
          end
      end
  end.

Definition _http_client_recv_response (fuel : nat) (c : http_client_t) (timeout_ms : Z)
    (d : http_client_data_t) (w : W) : outcome (Z * http_client_t * http_client_data_t * W) :=
  let buf := replicate HTTP_CLIENT_READ_BUF_SIZE 0 in
  if decide (handle (net c) = 0) then Done (ERR_HTTP_CONN_ERROR, c, d, w)
  else if decide (is_more d <> 0) then
    match response_buf d with
    | None => Undefined
    | Some b =>
        b ← access (write_at b 0 [0]);
        '(rc, d, w) ← _http_get_response_body fuel c buf 0 timeout_ms (set_response_buf (Some b) d) w;
        Done (rc, c, d, w)
    end
  else
    let d := set_is_more 1 d in
    '(ret, got, w) ← _http_recv c HTTP_CLIENT_READ_HEAD_SIZE timeout_ms w;
    buf ← access (write_at buf 0 got);
    if decide (ret <> 0) then Done (ret, c, d, w)
    else
      buf ← access (write_at buf (zlen got) [0]);
      _http_parse_response_header fuel c buf (zlen got) timeout_ms d w.

(* ------------------------------------------------------------------ *)
(** ** The connection *)

Definition http_client_close (c : http_client_t) (w : W) : http_client_t * W :=
  let '(n, w) := if decide (handle (net c) > 0) then let '(_, n, w) := utils_net_disconnect (net c) w in (n, w)
                 else (net c, w) in
  (set_net (set_handle 0 n) c, w).

(** Up to [tries] attempts; the result is [SUCCESS_RET] in every case. *)
Fixpoint _http_connect (tries : nat) (n : utils_network) (w : W) : Z * utils_network * W :=
  match tries with
  | O => (SUCCESS_RET, n, w)
  | S tries =>
      let '(rc, n, w) := utils_net_connect (set_handle 0 n) w in
      if decide (rc <> 0) then
        let '(_, n, w) := utils_net_disconnect n w in _http_connect tries n (sleep_ms 1000 w)
      else (SUCCESS_RET, n, w)
  end.

Definition http_client_connect (c : http_client_t) (url : bytes) (port : Z) (ca_crt : option bytes) (w : W) :
    outcome (Z * http_client_t * W) :=
  if decide (handle (net c) <> 0) then Done (ERR_HTTP_CONN_ERROR, c, w)
  else
    parsed ← access (_utils_parse_url url);
    match parsed with
    | inr rc => Done (rc, c, w)
    | inl (host, path) =>
        host ← text_of host;
        match utils_net_init (Some host) port SSL_CA_VERIFY_REQUIRED ca_crt with
        | None => Done (FAILURE_RET, c, w)
        | Some n =>
            let '(rc, n, w) := _http_connect 3 n w in
            let c := set_net n c in
            if decide (rc <> SUCCESS_RET) then let '(c, w) := http_client_close c w in Done (rc, c, w)
            else Done (rc, c, w)
        end
    end.

Definition http_client_common (c : http_client_t) (url : bytes) (port : Z) (ca_crt : option bytes)
    (method : HTTP_Request_Method) (d : http_client_data_t) (timeout_ms : Z) (w : W) : outcome (Z * http_client_t * W) :=
  '(rc, c, w) ← (if decide (handle (net c) = 0) then http_client_connect c url port ca_crt w
                 else Done (SUCCESS_RET, c, w));
  if decide (rc <> SUCCESS_RET) then Done (rc, c, w)
  else
    '(rc, w) ← _http_send_request c url method 0 0 d timeout_ms w;
    if decide (rc <> SUCCESS_RET) then let '(c, w) := http_client_close c w in Done (rc, c, w)
    else Done (SUCCESS_RET, c, w).

Definition http_client_recv_data (fuel : nat) (c : http_client_t) (timeout_ms : Z) (d : http_client_data_t) (w : W) :
    outcome (Z * http_client_t * http_client_data_t * W) :=
  match response_buf d with
  | None => Done (SUCCESS_RET, c, d, w)
  | Some _ =>
      if decide (response_buf_len d = 0) then Done (SUCCESS_RET, c, d, w)
      else
        '(rc, c, d, w) ← _http_client_recv_response fuel c timeout_ms d w;
        if decide (rc < 0) then let '(c, w) := http_client_close c w in Done (rc, c, d, w)
        else Done (SUCCESS_RET, c, d, w)
  end.

End client.

Definition http_client_buffer_md5 (buffer : bytes) : res bytes :=
  ctx ← utils_md5_update (utils_md5_starts utils_md5_init) buffer; utils_md5_finish_hb2hex ctx.

(** The loop over the pieces of at most 1024 bytes that [fread] gives. *)
Fixpoint file_loop (fuel : nat) (ctx : context) (file : bytes) : res context :=
  match fuel with
  | O => Err OUT_OF_FUEL
  | S fuel =>
      let buffer := take 1024 file in
      if decide (buffer = []) then Ok ctx
      else ctx ← utils_md5_update ctx buffer; file_loop fuel ctx (drop 1024 file)
  end.
(** [file]: the content, [None] if it cannot be opened; [got]: whether there is
    memory for the buffer.  The text for [output], [None] if it is not
    written, and the number of blocks and files that stay in use. *)
Definition http_client_file_md5 (got : bool) (file : option bytes) : res (option bytes * Z) :=
  let ctx := utils_md5_starts utils_md5_init in
  if got then
    match file with
    | None => Ok (None, 1)
    | Some file =>
        ctx ← file_loop (S (length file)) ctx file;
        output ← utils_md5_finish_hb2hex ctx;
        Ok (Some output, 0)
    end
  else Ok (None, 0).

(* ================================================================== *)
(** * The buffers *)

(** Writing and reading at places given by the parts of an array. *)
Lemma write_mid a b c src : zlen src = zlen b -> write_at (a ++ b ++ c) (zlen a) src = Ok (a ++ src ++ c).
Proof.
  intros Hl. apply write_at_ok. rewrite !length_app. split_and!; [lia..|].
  rewrite Nat2Z.id, take_app_length. do 2 f_equal. rewrite app_assoc, drop_app_length'; [done|rewrite length_app; lia].
Qed.
Lemma slice_middle a b c i n : i = zlen a -> n = zlen b -> slice_at (a ++ b ++ c) i n = Ok b.
Proof.
  intros -> ->. apply slice_at_ok. rewrite !length_app. split_and!; [lia..|].
  by rewrite !Nat2Z.id, drop_app_length, take_app_length.
Qed.
Lemma slice_front b c n : n = zlen b -> slice_at (b ++ c) 0 n = Ok b.
Proof. exact (slice_middle [] b c 0 n eq_refl). Qed.
(** A string of [s] written over the first bytes of an array. *)
Lemma write_front (s b : bytes) : zlen s <= zlen b -> write_at b 0 s = Ok (s ++ drop (length s) b).
Proof. intros Hl. apply write_at_ok. split_and!; [lia..|done]. Qed.
Lemma write_at_place a x b i v : i = zlen a -> write_at (a ++ x :: b) i [v] = Ok (a ++ v :: b).
Proof. intros ->. exact (write_mid a [x] b [v] eq_refl). Qed.

Section strings.
Context (needle : bytes) (Hnz : Forall (fun c => c <> 0) needle).

(** [have] is what has arrived of a text in which [needle] first occurs behind
    [pre]. *)
Lemma free_ext pre r1 r2 : free needle pre (needle ++ r1) -> free needle pre (needle ++ r2).
Proof using.
  intros Hf k c Hk. destruct (Hf k c Hk) as [Hc Hs]. split; [done|].
  rewrite app_assoc in *. by rewrite starts_cut in * by (rewrite length_app; lia).
Qed.

Lemma starts_zero s junk : starts needle (s ++ 0 :: junk) = true -> starts needle s = true.
Proof using Hnz.
  clear - Hnz. revert s. induction Hnz as [|c n Hc Hn IH]; intros s Hs; [done|].
  destruct s as [|d s]; cbn in *; apply andb_prop in Hs as [Hd Hs]; apply bool_decide_eq_true in Hd; [done|].
  rewrite bool_decide_true by done. by apply IH.
Qed.

Lemma strstr_partial pre rest have more junk :
  free needle pre (needle ++ rest) -> have ++ more = pre ++ needle ++ rest -> needle <> [] ->
  (length have < length pre + length needle)%nat /\ strstr (have ++ 0 :: junk) needle = Ok None \/
  exists extra, have = pre ++ needle ++ extra /\ rest = extra ++ more /\
    strstr (have ++ 0 :: junk) needle = Ok (Some (needle ++ extra ++ 0 :: junk)).
Proof using Hnz.
  intros Hf Heq Hne. destruct (decide (length have < length pre + length needle)%nat) as [Hl|Hl]; [left|right].
  - split; [done|]. rewrite strstr_free; [destruct needle as [|c n]; [done|apply strstr_end; by inversion Hnz]|].
    intros k c Hk. assert (Hlt := lookup_lt_Some _ _ _ Hk).
    assert (Hc : (pre ++ needle ++ rest) !! k = Some c) by (rewrite <- Heq, lookup_app_l; done).
    rewrite app_assoc, lookup_app_l in Hc by (rewrite length_app; lia). split.
    + apply lookup_app_Some in Hc as [Hc|[_ Hc]]; [exact (proj1 (Hf k c Hc))|exact (Forall_lookup_1 _ _ _ _ Hnz Hc)].
    + destruct (starts needle (drop k have ++ 0 :: junk)) eqn:Hs; [|done]. apply starts_zero in Hs.
      pose proof Hs as [r Hr]%starts_spec. apply (f_equal length) in Hr as Hlen. rewrite length_drop, length_app in Hlen.
      destruct (lookup_lt_is_Some_2 pre k) as [x Hx]; [lia|].
      destruct (Hf k x Hx) as [_ Hn]. rewrite <- (drop_app_le pre (needle ++ rest)), <- Heq, drop_app_le in Hn by lia.
      rewrite starts_cut, Hs in Hn; [done|rewrite length_drop; lia].
  - assert (Hlp : (length (pre ++ needle) <= length have)%nat) by (rewrite length_app; lia).
    rewrite app_assoc in Heq. pose proof (f_equal (take (length (pre ++ needle))) Heq) as Ht.
    rewrite take_app_le, take_app_length in Ht by done.
    exists (drop (length (pre ++ needle)) have). assert (Hh : have = (pre ++ needle) ++ drop (length (pre ++ needle)) have)
      by (rewrite <- Ht at 1; by rewrite take_drop).
    split_and!; [by rewrite Hh at 1; rewrite <- app_assoc| |].
    + rewrite Hh, <- app_assoc in Heq. by apply app_inv_head in Heq.
    + rewrite Hh at 1. rewrite <- !app_assoc, strstr_free; [apply strstr_hit|]. by eapply free_ext.
Qed.
End strings.

(* ================================================================== *)
(** * What the loops do *)

Section laws.
Context {W : Type} `{RtosLaws W} (rounds : nat).

Lemma moves_then o1 i1 o2 i2 (w1 w2 w3 : W) o i :
  moves o1 i1 w1 w2 -> moves o2 i2 w2 w3 -> o = o1 ++ o2 -> i = i1 ++ i2 -> moves o i w1 w3.
Proof. intros H1 H2 -> ->. exact (moves_trans _ _ _ _ _ _ _ H1 H2). Qed.
Lemma moves_refl w : moves [] [] w w.
Proof. by apply moves_same. Qed.
Lemma tick_moves w : moves [] [] w (tick_get w).2.
Proof. apply moves_same, tick_quiet. Qed.

(** ** Requests *)

Lemma write_post n buf t w : post (finish (utils_net_write rounds n buf t w)) (fun '(r, w') =>
  exists m, (m <= length buf)%nat /\ (m = O /\ r = ERR_TCP_WRITE_FAILED \/ (0 < m)%nat /\ r = Z.of_nat m) /\
    moves (take m buf) [] w w' /\
    (forall P, eager P -> P w -> buf <> [] -> P w' /\ (0 < m)%nat /\ take m buf = buf)).
Proof.
  destruct (utils_net_write rounds n buf t w) as [[r w']|] eqn:E; [|done]. cbn.
  assert (He := fun P HP Hw Hb => write_eager P rounds n buf t w r w' HP Hw Hb E).
  apply tcp_write_run in E as (m & Hm & Hr & Hmv). exists m. split_and!; [done..|]. intros P HP Hw Hb.
  destruct (He P HP Hw Hb) as (HP' & Hrl & _). assert (zlen buf <> 0) by (by destruct buf).
  destruct Hr as [[-> ->]|[? ->]]; [unfold ERR_TCP_WRITE_FAILED in Hrl; lia|]. split_and!; [done..|]. apply take_ge. lia.
Qed.

(** A piece that fits is copied behind the others; nothing is sent. *)
Lemma fill_small n done pad buf w :
  length (done ++ pad) = HTTP_CLIENT_SEND_BUF_SIZE -> (length buf < length pad)%nat ->
  _utils_fill_tx_buffer rounds n (done ++ pad) (zlen done) buf w =
  Done (SUCCESS_RET, (done ++ buf) ++ drop (length buf) pad, zlen (done ++ buf), w).
Proof.
  unfold HTTP_CLIENT_SEND_BUF_SIZE. intros Hl Hb. rewrite length_app in *. unfold _utils_fill_tx_buffer. cbn [fill_loop].
  unfold HTTP_CLIENT_SEND_BUF_SIZE. rewrite u32_small by lia. rewrite (decide_True (P := _ <= _)) by lia.
  assert (Hs : slice_at buf 0 (zlen buf) = Ok buf).
  { pose proof (slice_front buf [] (zlen buf) eq_refl) as Hs. by rewrite app_nil_r in Hs. }
  rewrite Hs. clear Hs. cbn [mbind res_bind]. rewrite <- (take_drop (length buf) pad) at 1.
  rewrite write_mid by (rewrite length_take; lia). cbn [access mbind outcome_bind].
  rewrite (decide_False (P := _ = Z.of_nat 1024)) by lia.
  rewrite (decide_True (P := drop _ _ = [])) by (by rewrite Nat2Z.id, drop_all).
  cbn [mbind outcome_bind]. rewrite decide_True by done. rewrite <- app_assoc. do 3 f_equal. lia.
Qed.

(** ** What a request is *)

(** A GET request of HTTP/1.1 for a range of a file, with headers of the
    client's own. *)
Definition get_request (path host first last own : bytes) : bytes :=
  bytes_of "GET " ++ path ++ bytes_of " HTTP/1.1" ++ [13; 10] ++
  bytes_of "Host: " ++ host ++ [13; 10] ++
  bytes_of "Range: bytes=" ++ first ++ bytes_of "-" ++ last ++ [13; 10] ++
  own ++ [13; 10].

Lemma text_array s junk : Forall (fun c => c <> 0) s -> text_of (s ++ 0 :: junk) = Done s.
Proof.
  intros Hs. unfold text_of. assert (cstr (s ++ 0 :: junk) = Some s) as ->; [|done].
  induction Hs as [|c s Hc _ IH]; cbn; [done|]. by rewrite decide_False, IH.
Qed.

(** The pieces go through the transmit buffer into a single write. *)
Definition written (n : utils_network) (buf : bytes) (t : Z) (w : W) : outcome (Z * W) :=
  '(r, w) ← finish (utils_net_write rounds n buf t w);
  Done (if decide (r <= 0) then if decide (r = 0) then ERR_HTTP_CLOSED else ERR_HTTP_CONN_ERROR else SUCCESS_RET, w).

Lemma send_header_run c host path jh jp fetched range d w h :
  Forall (fun c => c <> 0) host -> Forall (fun c => c <> 0) path -> header c = Some h -> post_buf d = None -> range <> 0 ->
  let request := get_request path host (dec (s32 fetched)) (dec (s32 (u32 (fetched + range)))) in
  zlen (request []) < 302 -> zlen (request h) < 1024 ->
  _http_send_header rounds c (host ++ 0 :: jh) (path ++ 0 :: jp) HTTP_GET fetched range d w = written (net c) (request h) 5000 w.
Proof.
  intros Hh Hp Hhdr Hpost Hrange request Hline Htext. unfold _http_send_header. rewrite !text_array by done.
  cbn [mbind outcome_bind]. rewrite (decide_True (P := range <> 0)) by done. rewrite Hhdr, Hpost.
  set (line := request_line HTTP_GET path host ++ range_line fetched range).
  assert (E : forall own, request own = (line ++ own) ++ CRLF).
  { intros own. unfold request, get_request, line, request_line, range_line, method_name, CRLF. change (bytes_of "GET ") with (bytes_of "GET" ++ [32]).
    change (bytes_of "-") with [45]. by rewrite <- !app_assoc. }
  rewrite E in Hline, Htext. rewrite E. clear E. clearbody line. unfold HTTP_CLIENT_REQUEST_BUF_SIZE.
  rewrite app_nil_r, length_app in Hline. rewrite !length_app in Htext. cbn [length CRLF] in Hline, Htext.
  assert (snprintf 300 line = line) as -> by (apply firstn_all2; lia).
  assert (HN : HTTP_CLIENT_SEND_BUF_SIZE = 1024%nat) by done. clear Hline.
  set (z := replicate HTTP_CLIENT_SEND_BUF_SIZE 0). assert (Hz : length z = 1024%nat) by apply length_replicate. clearbody z.
  change z with ([] ++ z) at 1. change 0 with (zlen (@nil Z)) at 1. rewrite fill_small by (cbn [app]; lia).
  cbn [mbind outcome_bind app]. rewrite (decide_False (P := SUCCESS_RET < 0)) by done.
  rewrite fill_small by (rewrite ?length_app, ?length_drop; lia). cbn [mbind outcome_bind].
  rewrite drop_drop, fill_small by (rewrite ?length_app, ?length_drop; cbn [length CRLF]; lia). cbn [mbind outcome_bind].
  by rewrite slice_front by done.
Qed.
(** What is seen of such a write. *)
Lemma written_post n buf t w : buf <> [] -> post (written n buf t w) (fun '(rc, w') =>
  exists m, moves (take m buf) [] w w' /\ ((0 < m)%nat /\ rc = SUCCESS_RET \/ m = O /\ rc < 0) /\
    (forall P, eager P -> P w -> P w' /\ (0 < m)%nat /\ take m buf = buf)).
Proof.
  intros Hb. unfold written. apply post_bind. eapply post_mono; [apply write_post|]. intros [r w'] (m & Hm & Hr & Hmv & He). cbn.
  exists m. split; [done|]. split; [|by eauto]. destruct Hr as [[-> ->]|[Hm0 ->]]; [right|left]; (split; [done|]).
  - rewrite decide_True by done. by rewrite decide_False by done.
  - by rewrite decide_False by lia.
Qed.

(** ** The URL *)

Lemma zlen_pre {A} (a b : list A) : zlen (a ++ b) - zlen b = zlen a.
Proof. rewrite length_app. lia. Qed.
Lemma strchr_free s rest ch : Forall (fun c => c <> 0 /\ c <> ch) s -> strchr (s ++ rest) ch = strchr rest ch.
Proof. induction 1 as [|c s [Hc Hd] _ IH]; [done|]. cbn. by rewrite (decide_False (P := c = ch)), (decide_False (P := c = 0)) by done. Qed.

Lemma copy_string_spec s rest : zlen s < 256 ->
  copy_string (s ++ rest) (zlen s) = Ok (s ++ 0 :: replicate (255 - length s) 0).
Proof.
  intros Hs. unfold copy_string. rewrite slice_front by done. cbn [mbind res_bind].
  unfold HTTP_CLIENT_MAX_URL_LEN. rewrite write_front by (rewrite length_replicate; lia). cbn [mbind res_bind].
  rewrite drop_replicate. replace (256 - length s)%nat with (S (255 - length s)) by lia. cbn [replicate].
  by apply write_at_place.
Qed.

(** A URL: scheme, host, path and fragment. *)
Record url_parts := mkUrl { u_scheme : bytes; u_host : bytes; u_path : bytes; u_fragment : bytes }.
Definition no (x : Z) (s : bytes) : Prop := Forall (fun c => c <> 0 /\ c <> x) s.
Definition url_text (u : url_parts) : bytes :=
  u_scheme u ++ bytes_of "://" ++ u_host u ++ 47 :: u_path u ++ u_fragment u ++ [0].
Record url_ok (u : url_parts) : Prop := {
  ok_scheme : no 58 (u_scheme u);
  ok_host : no 47 (u_host u) /\ no 35 (u_host u) /\ zlen (u_host u) < 256;
  ok_path : no 35 (u_path u) /\ zlen (u_path u) < 255;
  ok_fragment : u_fragment u = [] \/ exists f, u_fragment u = 35 :: f
}.

Lemma parse_url_text u junk : url_ok u ->
  _utils_parse_url (url_text u ++ junk) = Ok (inl (u_host u ++ 0 :: replicate (255 - length (u_host u)) 0,
    (47 :: u_path u) ++ 0 :: replicate (255 - length (47 :: u_path u)) 0)).
Proof.
  intros [Hs (Hh & Hh2 & Hhl) (Hp & Hpl) Hf]. destruct u as [sch host path frag].
  unfold url_text, _utils_parse_url. cbn [u_scheme u_host u_path u_fragment] in *.
  replace ((sch ++ bytes_of "://" ++ host ++ 47 :: path ++ frag ++ [0]) ++ junk)
    with (sch ++ bytes_of "://" ++ host ++ (47 :: path) ++ frag ++ 0 :: junk) by (rewrite <- !app_assoc; cbn [app]; by rewrite <- !app_assoc).
  set (tail := host ++ (47 :: path) ++ frag ++ 0 :: junk).
  rewrite strstr_free.
  2: { intros k c Hk. split; [exact (proj1 (Forall_lookup_1 _ _ _ _ Hs Hk))|].
       destruct (drop k sch) as [|d s] eqn:Hd.
       - apply (f_equal length) in Hd. rewrite length_drop in Hd. cbn in Hd. apply lookup_lt_Some in Hk. lia.
       - change (bytes_of "://") with [58; 47; 47]. cbn [app starts]. assert (sch !! k = Some d) as Hd2 by (by rewrite <- (Nat.add_0_r k), <- lookup_drop, Hd).
         pose proof (Forall_lookup_1 _ _ _ _ Hs Hd2) as [_ Hn]. by rewrite bool_decide_false by congruence. }
  rewrite strstr_hit. cbn [mbind res_bind]. change (drop 3 (bytes_of "://" ++ tail)) with tail. unfold tail.
  rewrite (strchr_free host _ 47) by done. change (strchr ((47 :: path) ++ ?r) 47) with (Ok (Some ((47 :: path) ++ r))). cbn [mbind res_bind].
  rewrite zlen_pre.
  rewrite copy_string_spec by done. cbn [mbind res_bind]. rewrite strchr_free by done.
  assert (Hp' : Forall (fun c => c <> 0 /\ c <> 35) (47 :: path)) by (constructor; done).
  rewrite strchr_free by done. assert (Hlen : zlen (47 :: path) < 256) by (cbn [length]; lia).
  destruct Hf as [->|[f ->]].
  - change (strchr ([] ++ 0 :: junk) 35) with (Ok (@None bytes)). cbn [mbind res_bind app].
    change (47 :: path ++ 0 :: junk) with ((47 :: path) ++ 0 :: junk).
    rewrite (strlen_app _ _ O) by (done || (eapply Forall_impl; [exact Hp'|]; by intros ? [])). rewrite Nat.add_0_r. cbn [mbind res_bind].
    by rewrite copy_string_spec.
  - change (strchr ((35 :: f) ++ 0 :: junk) 35) with (Ok (Some ((35 :: f) ++ 0 :: junk))). cbn [mbind res_bind].
    rewrite zlen_pre, u32_small by lia.
    by rewrite copy_string_spec.
Qed.
Lemma parse_url_spec u : url_ok u ->
  _utils_parse_url (url_text u) = Ok (inl (u_host u ++ 0 :: replicate (255 - length (u_host u)) 0,
    (47 :: u_path u) ++ 0 :: replicate (255 - length (47 :: u_path u)) 0)).
Proof. rewrite <- (app_nil_r (url_text u)). apply parse_url_text. Qed.

(** ** Reading *)

Lemma recv_post c max_len t w : post (_http_recv rounds c max_len t w) (fun '(ret, got, w') =>
  moves [] got w w' /\ (0 <= max_len -> zlen got <= max_len) /\
  (ret = 0 /\ got <> [] \/ (ret = FAILURE_RET \/ ret = ERR_HTTP_CONN_ERROR) /\ got = [])).
Proof.
  unfold _http_recv. destruct (utils_net_read rounds (net c) max_len t w) as [[[r data] w']|] eqn:E; [|done].
  apply tcp_read_run in E as (Hl & _ & Hm & Hr). cbn. split_and!; [done|done|].
  destruct Hr as [[Hd ->]|[-> [->| ->]]]; cbn; [|auto..]. left. split; [|done].
  destruct data; [done|]. by rewrite decide_True by (cbn [length]; lia).
Qed.

Lemma deadloop_moves len timer ret dead ext w :
  let '(rc, _, _, _, w') := _utils_check_deadloop len timer ret dead ext w in
  (rc = SUCCESS_RET \/ rc = ERR_HTTP_CONN_ERROR) /\ moves [] [] w w'.
Proof.
  unfold _utils_check_deadloop. pose proof (tick_moves w) as M1. destruct (tick_get w) as [n1 w1]. cbn [snd] in M1.
  assert (M2 : forall x y, let '(_, _, w2) := if decide (left_ms timer n1 < MIN_TIMEOUT)
      then let '(now, w) := tick_get w1 in (x now, y, w) else (timer, ext, w1) in moves [] [] w w2).
  { intros x y. case_decide; [|done]. pose proof (tick_moves w1) as M. destruct (tick_get w1). by eapply moves_then. }
  specialize (M2 (fun now => countdown_ms tick_from_ms MIN_TIMEOUT now) (u32 (ext + 1))).
  destruct (if decide (left_ms timer n1 < MIN_TIMEOUT) then _ else _) as [[tm e] w2].
  assert (M3 : let '(_, w3) := if decide (len = 0)
      then let '(now, w) := tick_get w2 in (bool_decide (left_ms tm now = 0), w) else (false, w2) in moves [] [] w w3).
  { case_decide; [|done]. pose proof (tick_moves w2) as M. destruct (tick_get w2). by eapply moves_then. }
  destruct (if decide (len = 0) then _ else _) as [z w3].
  repeat case_match; simplify_eq; auto.
Qed.

(** The response buffer: what is stored in it, the terminating 0, and its size. *)
Definition stored (d : http_client_data_t) (s : bytes) : Prop :=
  exists junk, response_buf d = Some (s ++ 0 :: junk) /\ zlen (s ++ 0 :: junk) = response_buf_len d.

Definition progress (d : http_client_data_t) (more left : Z) (buf : bytes) : http_client_data_t :=
  set_is_more more (set_retrieve_len left (set_response_buf (Some buf) d)).

Lemma fill_rx_run sofar part junk left d :
  response_buf d = Some (sofar ++ junk) -> response_buf_len d = zlen (sofar ++ junk) -> zlen sofar < response_buf_len d - 1 ->
  zlen sofar + zlen part <= response_buf_len d - 1 ->
  exists count buf, _utils_fill_rx_buf (zlen sofar) (zlen part) d (part ++ left) =
    Ok (if decide (zlen sofar + zlen part < response_buf_len d - 1) then SUCCESS_RET else HTTP_RETRIEVE_MORE_DATA, count,
        set_retrieve_len (retrieve_len d - zlen part) (set_response_buf (Some ((sofar ++ part) ++ 0 :: buf)) d)) /\
    (zlen sofar + zlen part < response_buf_len d - 1 -> count = zlen (sofar ++ part)) /\
    zlen ((sofar ++ part) ++ 0 :: buf) = response_buf_len d.
Proof.
  intros Hb Hl Hs Hp. unfold _utils_fill_rx_buf. rewrite Hb, Hl. rewrite length_app in Hl.
  assert (Hj : (length part < length junk)%nat) by lia.
  destruct (drop (length part) junk) as [|x buf] eqn:Hd; [apply (f_equal length) in Hd; rewrite length_drop in Hd; cbn in Hd; lia|].
  assert (Hjunk : junk = take (length part) junk ++ x :: buf) by (by rewrite <- Hd, take_drop).
  assert (Hw : write_at (sofar ++ junk) (zlen sofar) part = Ok ((sofar ++ part) ++ x :: buf)).
  { rewrite Hjunk at 1. rewrite write_mid by (rewrite length_take; lia). by rewrite <- app_assoc. }
  assert (Hlen : (length sofar + length junk = length sofar + length part + S (length buf))%nat).
  { apply (f_equal length) in Hd. rewrite length_drop in Hd. cbn [length] in Hd. lia. }
  exists (if decide (zlen sofar + zlen part < response_buf_len d - 1) then zlen sofar + zlen part else zlen sofar), buf.
  rewrite Hl, length_app, Nat2Z.inj_add. split_and!.
  - destruct (decide (zlen sofar + zlen part < zlen sofar + zlen junk - 1)) as [Hlt|Hge].
    + rewrite slice_front by done. cbn [mbind res_bind]. rewrite Hw. cbn [mbind res_bind].
      rewrite write_at_place by (rewrite length_app; lia). done.
    + replace (zlen sofar + zlen junk - 1 - zlen sofar) with (zlen part) by lia.
      rewrite slice_front by done. cbn [mbind res_bind]. rewrite Hw. cbn [mbind res_bind].
      rewrite write_at_place by (rewrite length_app; lia). done.
  - intros Hlt. rewrite decide_True by lia. rewrite length_app. lia.
  - rewrite !length_app. cbn [length]. lia.
Qed.

(** Of the [R] bytes still expected, those that fit the response buffer are
    stored, wherever the stream is cut; the loop ends when the buffer is full
    or all are there. *)
Definition body_post (d : http_client_data_t) (sofar avail R : bytes) (w : W) (r : Z * http_client_data_t * W) : Prop :=
  let '(rc, d', w') := r in
  let n := Z.to_nat (response_buf_len d - 1 - zlen sofar) in
  exists got, moves [] got w w' /\
    (rc = ERR_HTTP_CONN_ERROR \/
     exists buf, d' = progress d (if decide (length R < n)%nat then 0 else is_more d) (zlen R - zlen (take n R)) buf /\
       stored d' (sofar ++ take n R) /\ (zlen avail <= zlen (take n R) -> avail ++ got = take n R) /\
       rc = if decide (length R < n)%nat then SUCCESS_RET else HTTP_RETRIEVE_MORE_DATA).

Lemma min_le a b : a <= b -> Min a b = a.
Proof. unfold Min. intros. case_decide; lia. Qed.

Lemma body_loop_run fuel : forall c avail j t sofar junk timer dead ext d w R rest,
  response_buf d = Some (sofar ++ junk) -> response_buf_len d = zlen (sofar ++ junk) -> zlen sofar < response_buf_len d - 1 ->
  length (avail ++ j) = HTTP_CLIENT_READ_BUF_SIZE ->
  retrieve_len d = zlen R -> avail ++ to_come (sockets w) = R ++ rest ->
  zlen sofar + Z.min (zlen avail) (zlen R) <= response_buf_len d - 1 ->
  post (body_loop rounds fuel c (avail ++ j) (zlen avail) t (zlen sofar) timer dead ext d w) (body_post d sofar avail R w).
Proof.
  unfold HTTP_CLIENT_READ_BUF_SIZE.
  induction fuel as [|fuel IH]; intros c avail j t sofar junk timer dead ext d w R rest Hb HL Hs Hdata Hr Hcome Hfit; [done|].
  cbn [body_loop]. set (n := Z.to_nat (response_buf_len d - 1 - zlen sofar)).
  assert (Hpart : exists part left R2, avail = part ++ left /\ R = part ++ R2 /\ Min (zlen avail) (retrieve_len d) = zlen part /\
    (R2 = [] \/ left = [] /\ to_come (sockets w) = R2 ++ rest)).
  { rewrite Hr. destruct (decide (zlen avail < zlen R)) as [Hlt|Hge].
    - exists avail, [], (drop (length avail) R). rewrite app_nil_r, min_le by lia.
      pose proof (f_equal (take (length avail)) Hcome) as Ht. rewrite take_app_length, take_app_le in Ht by lia.
      assert (HR : R = avail ++ drop (length avail) R) by (rewrite Ht at 1; by rewrite take_drop).
      split_and!; [done|done|done|]. right. split; [done|]. rewrite HR, <- app_assoc in Hcome. by apply app_inv_head in Hcome.
    - exists R, (drop (length R) avail), []. rewrite app_nil_r.
      pose proof (f_equal (take (length R)) Hcome) as Ht. rewrite take_app_length, take_app_le in Ht by lia.
      split_and!; [by rewrite <- Ht at 1; rewrite take_drop|done|unfold Min; case_decide; lia|by left]. }
  destruct Hpart as (part & left & R2 & -> & -> & -> & Hmore). rewrite !length_app in *.
  rewrite <- (app_assoc part left j).
  destruct (fill_rx_run sofar part junk (left ++ j) d) as (count & buf & -> & Hcount & Hbuf); [done|rewrite length_app; lia|lia|lia|].
  cbn [access mbind outcome_bind]. set (d1 := set_retrieve_len _ _).
  assert (Hrl : retrieve_len d1 = zlen R2) by (change (retrieve_len d1) with (retrieve_len d - zlen part); lia).
  destruct (decide (zlen sofar + zlen part < response_buf_len d - 1)) as [Hroom|Hfull].
  2: { rewrite (decide_True (P := HTTP_RETRIEVE_MORE_DATA = _)) by done. exists []. split; [apply moves_refl|]. right. exists ((sofar ++ part) ++ 0 :: buf).
    fold n. assert (Hn : n = length part) by lia.
    rewrite Hn, take_app_length, length_app, Nat2Z.inj_add, !decide_False by lia. split_and!.
    - unfold progress, d1. rewrite Hr. by replace (zlen part + zlen R2 - zlen part) with (Z.of_nat (length part + length R2) - zlen part) by lia.
    - exists buf. cbn. done.
    - intros Hl. rewrite ?length_app in Hl. destruct left; [by rewrite !app_nil_r|cbn [length] in Hl; lia].
    - done. }
  rewrite (decide_False (P := SUCCESS_RET = _)) by done.
  assert (Htake : take n (part ++ R2) = part ++ take (n - length part) R2) by (rewrite take_app, firstn_all2; [done|lia]).
  destruct R2 as [|r R2].
  { rewrite (decide_True (P := retrieve_len d1 = 0)) by done. exists []. split; [apply moves_refl|]. right.
    exists ((sofar ++ part) ++ 0 :: buf). fold n. rewrite Htake, take_nil, app_nil_r.
    rewrite !decide_True by lia. rewrite Z.sub_diag. unfold d1 in *. cbn [retrieve_len set_retrieve_len] in Hrl.
    rewrite Hrl. cbn [length Z.of_nat]. split_and!; [done|by exists buf| |done].
    intros Hl. rewrite ?length_app in Hl. destruct left; [by rewrite !app_nil_r|cbn [length] in Hl; lia]. }
  destruct Hmore as [?|[-> Hcome']]; [done|]. set (R' := r :: R2) in *. assert (Hpos : 0 < zlen R') by (cbn [R' length]; lia).
  rewrite (decide_False (P := retrieve_len d1 = 0)) by lia. rewrite Hcount by done.
  set (max_len := Min _ _). change (response_buf_len d1) with (response_buf_len d) in max_len.
  assert (Hmax : 1 <= max_len /\ max_len <= 1023 /\ max_len <= zlen R' /\ max_len <= response_buf_len d - 1 - zlen (sofar ++ part)).
  { unfold max_len, HTTP_CLIENT_CHUNK_SIZE, Min. rewrite length_app in *. repeat case_decide; lia. }
  clearbody max_len. apply post_bind. eapply post_mono; [apply recv_post|]. intros [[ret got] w1] (Hm & Hgl & Hret). cbn.
  specialize (Hgl ltac:(lia)). cbn [app]. rewrite app_nil_r in Hcome. cbn [length] in *.
  eapply post_access; [apply write_front; rewrite length_app; lia|].
  destruct (decide (ret = ERR_HTTP_CONN_ERROR)) as [|Hne]; [cbn; eauto|].
  assert (Hlen : (if decide (ret = 0) then zlen got else 0) = zlen got).
  { destruct Hret as [[-> _]|[_ ->]]; [done|by case_decide]. }
  rewrite Hlen. pose proof (deadloop_moves (zlen got) timer ret dead ext w1) as Hd.
  destruct (_utils_check_deadloop (zlen got) timer ret dead ext w1) as [[[[rc timer2] dead2] ext2] w2]. destruct Hd as [Hrc Hm2].
  assert (Hm3 : moves [] got w w2) by (eapply moves_then; [exact Hm|exact Hm2|done|by rewrite app_nil_r]).
  destruct (decide (rc = ERR_HTTP_CONN_ERROR)) as [|_]; [cbn; eauto|].
  assert (Hcome2 : got ++ to_come (sockets w2) = R' ++ rest) by (rewrite <- Hcome'; symmetry; apply moves_come with (1 := Hm3)).
  eapply post_mono; [apply (IH c got _ t (sofar ++ part) (0 :: buf) timer2 dead2 ext2 d1 w2 R' rest)|].
  { done. } { by rewrite Hbuf. } { cbn. rewrite length_app. lia. }
  { rewrite length_app, length_drop, length_app. lia. } { done. } { done. } { cbn. lia. }
  intros [[rc' d'] w'] (got' & Hm' & Hq). exists (got ++ got'). split; [by eapply moves_then|].
  destruct Hq as [->|(buf' & Hd' & Hst & Hgot & Hrc')]; [by left|right].
  change (response_buf_len d1) with (response_buf_len d) in *. change (is_more d1) with (is_more d) in *.
  assert (Hn : Z.to_nat (response_buf_len d - 1 - zlen (sofar ++ part)) = (n - length part)%nat) by (rewrite length_app; lia).
  rewrite Hn in *. exists buf'. fold n. rewrite Htake, app_assoc.
  assert (Hif : forall (A : Type) (x y : A), (if decide (length (part ++ R') < n)%nat then x else y) =
    if decide (length R' < n - length part)%nat then x else y).
  { intros A x y. rewrite length_app. repeat case_decide; done || lia. }
  rewrite !Hif. split_and!; [|done| |done].
  - rewrite Hd'. replace (zlen (part ++ R') - zlen (part ++ take (n - length part) R'))
      with (zlen R' - zlen (take (n - length part) R')) by (rewrite !length_app; lia). done.
  - intros _. rewrite <- Hgot; [by rewrite <- app_assoc|]. rewrite length_take. rewrite length_app in Hmax. unfold n. lia.
Qed.

(** ** The header *)

Lemma append_at (have tail got : bytes) : zlen have + zlen got < zlen (have ++ tail) ->
  exists x junk, write_at (have ++ tail) (zlen have) got = Ok ((have ++ got) ++ x :: junk) /\
    length ((have ++ got) ++ x :: junk) = length (have ++ tail).
Proof.
  rewrite length_app. intros Hl.
  destruct (drop (length got) tail) as [|x junk] eqn:Hd; apply (f_equal length) in Hd as Hn; rewrite length_drop in Hn; cbn in Hn; [lia|].
  exists x, junk. split; [|rewrite !length_app; cbn [length]; lia].
  rewrite <- (take_drop (length got) tail), Hd, write_mid by (rewrite length_take; lia). by rewrite <- app_assoc.
Qed.

Lemma blank_nonzero : Forall (fun c => c <> 0) blank_line.
Proof. by_eval. Qed.

Lemma header_loop_run fuel : forall c have junk t w hd rest,
  free blank_line hd (blank_line ++ rest) -> have ++ to_come (sockets w) = hd ++ blank_line ++ rest ->
  length (have ++ 0 :: junk) = HTTP_CLIENT_READ_BUF_SIZE -> zlen hd <= 988 -> zlen have <= zlen hd + 36 ->
  post (header_loop rounds fuel c (have ++ 0 :: junk) (zlen have) t w) (fun r =>
    match r with
    | inr w' => exists got, moves [] got w w'
    | inl (data, len, p, w') => exists got extra junk', moves [] got w w' /\
        data = (hd ++ blank_line ++ extra) ++ 0 :: junk' /\ length data = HTTP_CLIENT_READ_BUF_SIZE /\
        len = zlen (hd ++ blank_line ++ extra) /\ p = blank_line ++ extra ++ 0 :: junk' /\
        rest = extra ++ to_come (sockets w') /\ zlen extra <= 32
    end).
Proof.
  unfold HTTP_CLIENT_READ_BUF_SIZE. induction fuel as [|fuel IH]; intros c have junk t w hd rest Hf Hcome Hlen Hhd Hhave; [done|].
  cbn [header_loop].
  destruct (strstr_partial _ blank_nonzero hd rest have _ junk Hf Hcome) as [[Hshort ->]|(extra & Hh & Hr & ->)]; [done| |].
  2: { cbn [access mbind outcome_bind post]. exists [], extra, junk. rewrite <- Hh. split_and!; [apply moves_refl|done|done|done|done|done|].
       rewrite Hh, !length_app in Hhave. cbn [length blank_line] in Hhave. lia. }
  cbn [access mbind outcome_bind]. cbn [blank_line length] in Hshort. apply post_bind. eapply post_mono; [apply recv_post|].
  intros [[ret got] w1] (Hm & Hgl & Hret). cbn. unfold HTTP_CLIENT_READ_HEAD_SIZE in Hgl. specialize (Hgl ltac:(lia)).
  destruct (append_at have (0 :: junk) got) as (x & junk1 & -> & Hlen1); [rewrite Hlen; lia|]. cbn.
  destruct (decide (ret = ERR_HTTP_CONN_ERROR)); [cbn; eauto|].
  assert (Hn : (if decide (ret = 0) then zlen got else 0) = zlen got).
  { destruct Hret as [[-> _]|[_ ->]]; [done|by case_decide]. }
  rewrite Hn, write_at_place by (rewrite length_app; lia). cbn.
  replace (zlen have + zlen got) with (zlen (have ++ got)) by (rewrite length_app; lia).
  eapply post_mono; [apply (IH c (have ++ got) junk1 t w1 hd rest Hf)|].
  - rewrite <- app_assoc, <- Hcome. f_equal. symmetry. apply moves_come with (1 := Hm).
  - rewrite <- Hlen, <- Hlen1, !length_app. done.
  - done.
  - rewrite length_app. lia.
  - intros [[[[data len] p] w']|w'].
    + intros (got' & extra & junk' & Hm' & Hrest). exists (got ++ got'), extra, junk'. split; [by eapply moves_then|done].
    + intros [got' Hm']. exists (got ++ got'). by eapply moves_then.
Qed.

(** ** A response *)

Record response := mkResponse {
  r_version : bytes;
  r_code : Z;
  r_reason : bytes;
  r_before : bytes;
  r_after : bytes;
  r_content : bytes
}.
Definition content_length : bytes := bytes_of "Content-Length".
Definition status_line (r : response) : bytes := r_version r ++ dec (r_code r) ++ r_reason r.
Definition header_lines (r : response) : bytes :=
  r_before r ++ content_length ++ [58; 32] ++ dec (zlen (r_content r)) ++ r_after r.
Definition response_text (r : response) : bytes :=
  status_line r ++ CRLF ++ header_lines r ++ blank_line ++ r_content r.
Definition no_digit (s : bytes) : Prop := match s with [] => True | c :: _ => is_digit c = false end.

(** A response as the client understands it: a status line of at most 30
    characters, at most 988 bytes of headers with a Content-Length, no 0 in
    either. *)
Record response_ok (r : response) : Prop := {
  rok_version : length (r_version r) = 9%nat;
  rok_code : 0 <= r_code r < 2147483648;
  rok_reason : no_digit (r_reason r);
  rok_status : free CRLF (status_line r) CRLF;
  rok_status_len : zlen (status_line r) <= 30;
  rok_headers : free blank_line (header_lines r) blank_line;
  rok_headers_len : zlen (header_lines r) <= 988;
  rok_before : free content_length (r_before r) content_length;
  rok_after : no_digit (r_after r);
  rok_content : zlen (r_content r) < 2147483648
}.

Lemma no_digit_app s c rest : no_digit s -> is_digit c = false -> exists d r, s ++ c :: rest = d :: r /\ is_digit d = false.
Proof. destruct s; cbn; eauto. Qed.
Lemma atoi_field n s c rest : 0 <= n < 2147483648 -> no_digit s -> is_digit c = false -> atoi (dec n ++ s ++ c :: rest) = Ok n.
Proof. intros Hn Hs Hc. destruct (no_digit_app s c rest Hs Hc) as (d & r & -> & Hd). by apply atoi_dec. Qed.

Lemma move_down_spec pre s junk i n : i = zlen pre -> n = zlen s + 1 ->
  exists junk', move_down (pre ++ s ++ 0 :: junk) i n = Ok (s ++ 0 :: junk') /\
    length (s ++ 0 :: junk') = length (pre ++ s ++ 0 :: junk).
Proof.
  intros -> ->. unfold move_down. change (s ++ 0 :: junk) with (s ++ [0] ++ junk). rewrite (app_assoc s).
  rewrite slice_middle by (rewrite ?length_app; cbn [length]; lia). cbn [mbind res_bind].
  rewrite write_front by (rewrite !length_app; lia). rewrite <- app_assoc. cbn [app].
  eexists. split; [done|]. rewrite !length_app. cbn [length]. rewrite length_drop, !length_app. cbn [length]. lia.
Qed.

(** What a successful call leaves, given what was expected of the content: the
    part of it that fits the buffer, the number of bytes still to come, and
    the stream behind the part (if the buffer holds what can come along with the
    header). *)
Definition content_post (d d' : http_client_data_t) (content rest : bytes) (w' : W) : Prop :=
  let kept := take (Z.to_nat (response_buf_len d - 1)) content in
  stored d' kept /\ retrieve_len d' = zlen content - zlen kept /\
  is_more d' = (if decide (zlen content < response_buf_len d - 1) then 0 else 1) /\
  response_content_len d' = response_content_len d /\
  (33 < response_buf_len d -> rest = [] \/ 32 <= zlen content -> to_come (sockets w') = drop (length kept) content ++ rest).

(** A buffer that is smaller than what came along with the header: what does
    not fit is dropped. *)
Lemma small_buffer fuel c extra j t b timer d w content rest :
  response_buf d = Some b -> zlen b = response_buf_len d -> 1 < response_buf_len d ->
  retrieve_len d = zlen content -> extra ++ to_come (sockets w) = content ++ rest ->
  ~ Z.min (zlen extra) (zlen content) <= response_buf_len d - 1 ->
  post (body_loop rounds (S fuel) c (extra ++ j) (zlen extra) t 0 timer 0 0 d w) (fun '(rc, d', w') =>
    let kept := take (Z.to_nat (response_buf_len d - 1)) content in
    rc = HTTP_RETRIEVE_MORE_DATA /\ stored d' kept /\ retrieve_len d' = zlen content - zlen kept /\ is_more d' = is_more d /\
    response_content_len d' = response_content_len d /\ w' = w).
Proof.
  intros Hb Hl Hsize Hr Hcome Hover. cbn [body_loop]. unfold _utils_fill_rx_buf. rewrite Hb, Hr. set (n := Z.to_nat (response_buf_len d - 1)).
  assert (zlen (take n content) = response_buf_len d - 1) as Hk by (rewrite length_take; lia).
  assert (take n content ++ drop n (extra ++ j) = extra ++ j) as Hsplit.
  { pose proof (f_equal (take n) Hcome) as Ht. rewrite !take_app_le in Ht by lia. rewrite <- Ht, <- (take_app_le extra j n) by lia. apply take_drop. }
  rewrite decide_False by (unfold Min; case_decide; lia). rewrite Z.sub_0_r, <- Hsplit, slice_front by done. cbn [mbind res_bind].
  rewrite write_front by lia. cbn [mbind res_bind].
  destruct (drop (length (take n content)) b) as [|x junk] eqn:E; [apply (f_equal length) in E; rewrite length_drop in E; cbn in E; lia|].
  rewrite write_at_place by lia. cbn [access mbind res_bind outcome_bind]. rewrite decide_True by done. cbn [post].
  split_and!; [done| |cbn; lia|done|done|done]. exists junk. split; [done|]. apply (f_equal length) in E. rewrite length_drop in E.
  cbn [response_buf_len set_retrieve_len set_response_buf]. rewrite length_app. cbn [length] in *. lia.
Qed.

Lemma get_body_run fuel c extra j t d b w content rest :
  response_buf d = Some b -> zlen b = response_buf_len d -> 1 < response_buf_len d ->
  length (extra ++ j) = HTTP_CLIENT_READ_BUF_SIZE -> retrieve_len d = zlen content -> response_content_len d <> -1 ->
  extra ++ to_come (sockets w) = content ++ rest -> zlen extra <= 32 ->
  post (_http_get_response_body rounds fuel c (extra ++ j) (zlen extra) t d w) (fun '(rc, d', w') =>
    rc = ERR_HTTP_CONN_ERROR \/ 0 <= rc /\ content_post d d' content rest w').
Proof.
  intros Hb Hl Hsize Hlen Hr Hne Hcome Hx. unfold _http_get_response_body.
  pose proof (tick_moves w) as Hm. destruct (tick_get w) as [now w1]. cbn [snd] in Hm.
  pose proof (moves_come _ _ _ _ Hm) as Hc. cbn [app] in Hc. rewrite Hc in Hcome.
  rewrite decide_False by (intros [? _]; done).
  destruct (decide (Z.min (zlen extra) (zlen content) <= response_buf_len d - 1)) as [Hfit|Hover].
  2: { destruct fuel as [|fuel]; [done|]. eapply post_mono; [by apply (small_buffer fuel c extra j t b _ (set_is_more 1 d) w1 content rest)|].
    intros [[rc d'] w'] (-> & Hst & Hrl & Him & Hcl & Hw). right. split; [done|]. split_and!; [exact Hst|done| |done|intros; lia].
    rewrite Him. change (is_more (set_is_more 1 d)) with 1. by rewrite decide_False by lia. }
  eapply post_mono.
  { apply (body_loop_run fuel c extra j t [] b _ 0 0 (set_is_more 1 d) w1 content rest); try done; cbn; lia. }
  intros [[rc d'] w'] (got & Hm' & [->|(buf & -> & Hst & Hgot & ->)]); [by left|right]. split; [by case_decide|].
  cbn [app length response_buf_len set_is_more is_more] in *. change (response_buf_len (set_is_more 1 d)) with (response_buf_len d) in *.
  rewrite Z.sub_0_r in *. set (n := Z.to_nat (response_buf_len d - 1)) in *.
  split_and!; [done|done| |done|].
  - cbn. repeat case_decide; done || lia.
  - intros Hbig Hshort. pose proof (moves_come _ _ _ _ Hm') as Hc'. rewrite Hc' in Hcome.
    assert (Hle : zlen extra <= zlen (take n content)).
    { pose proof (f_equal length Hcome) as Hn. rewrite !length_app in Hn. rewrite length_take. unfold n.
      destruct Hshort as [->|]; cbn [length] in *; lia. }
    specialize (Hgot Hle). rewrite app_assoc, Hgot in Hcome.
    assert (E : content ++ rest = take n content ++ drop n content ++ rest) by (by rewrite app_assoc, take_drop).
    rewrite E in Hcome. apply app_inv_head in Hcome. rewrite Hcome. f_equal. rewrite length_take.
    destruct (decide (n <= length content)%nat); [by rewrite Nat.min_l by done|].
    by rewrite Nat.min_r, !drop_ge by lia.
Qed.

Lemma zlen_behind {A} (a b : list A) n : zlen (a ++ b) - zlen b + n = zlen a + n.
Proof. rewrite length_app. lia. Qed.
Lemma content_length_nonzero : Forall (fun c => c <> 0) content_length.
Proof. by_eval. Qed.
Lemma crlf_nonzero : Forall (fun c => c <> 0) CRLF.
Proof. by_eval. Qed.

Lemma parse_header_run fuel c have junk t d b w r rest :
  response_buf d = Some b -> zlen b = response_buf_len d -> 1 < response_buf_len d -> response_ok r ->
  have ++ to_come (sockets w) = response_text r ++ rest -> zlen have <= 32 ->
  length (have ++ 0 :: junk) = HTTP_CLIENT_READ_BUF_SIZE ->
  post (_http_parse_response_header rounds fuel c (have ++ 0 :: junk) (zlen have) t d w) (fun '(rc, c', d', w') =>
    (rc = ERR_HTTP_UNRESOLVED_DNS \/ rc = ERR_HTTP_CONN_ERROR) /\ net c' = net c \/
    0 <= rc /\ c' = set_response_code (r_code r) c /\
    content_post (set_content_len (zlen (r_content r)) d) d' (r_content r) rest w').
Proof.
  intros Hb Hl Hsize Hok Hcome Hhave Hlen. unfold _http_parse_response_header. unfold response_text in Hcome.
  rewrite <- !app_assoc in Hcome.
  destruct (strstr_partial CRLF crlf_nonzero (status_line r) (header_lines r ++ blank_line ++ r_content r ++ rest) have (to_come (sockets w)) junk)
    as [[_ ->]|(e & Hh & Hrest & ->)]; [by eapply free_ext, rok_status|done|done|cbn; auto|].
  cbn [access mbind outcome_bind]. subst have. rewrite <- !app_assoc.
  rewrite zlen_pre. change (CRLF ++ e ++ 0 :: junk) with (13 :: 10 :: e ++ 0 :: junk).
  rewrite write_at_place by done. cbn [access mbind outcome_bind].
  assert (Hatoi : atoi (drop 9 (status_line r ++ 0 :: 10 :: e ++ 0 :: junk)) = Ok (r_code r)).
  { unfold status_line. rewrite <- !app_assoc, drop_app_length' by (symmetry; apply rok_version, Hok).
    by apply atoi_field; [apply rok_code|apply rok_reason|]. }
  rewrite Hatoi. cbn [access mbind outcome_bind].
  change (status_line r ++ 0 :: 10 :: e ++ 0 :: junk) with (status_line r ++ [0; 10] ++ e ++ 0 :: junk). rewrite (app_assoc (status_line r) [0; 10]).
  rewrite !length_app in Hhave. cbn [length CRLF] in Hhave.
  assert (Hn : zlen (status_line r ++ CRLF ++ e) - (zlen (status_line r) + 2) = zlen e) by (rewrite !length_app; cbn [length CRLF]; lia).
  rewrite Hn. destruct (move_down_spec (status_line r ++ [0; 10]) e junk (zlen (status_line r) + 2) (zlen e + 1))
    as (junk1 & -> & Hlen1); [rewrite length_app; cbn [length]; lia|done|].
  cbn [access mbind outcome_bind]. apply post_bind.
  eapply post_mono; [apply (header_loop_run fuel _ e junk1 t w (header_lines r) (r_content r ++ rest))|].
  { by eapply free_ext, rok_headers. } { by rewrite <- Hrest. }
  { rewrite Hlen1, <- Hlen, !length_app. cbn [length CRLF]. lia. } { by apply rok_headers_len. } { lia. }
  intros [[[[data len] p] w1]|w1]; [|by cbn; auto]. intros (got & extra & junk2 & Hm & -> & Hdata & -> & -> & Hextra & Hx). cbv beta iota.
  assert (Hcl : forall x, strstr ((header_lines r ++ blank_line ++ extra) ++ 0 :: x) content_length =
    Ok (Some (content_length ++ [58; 32] ++ dec (zlen (r_content r)) ++ r_after r ++ blank_line ++ extra ++ 0 :: x))).
  { intros x. unfold header_lines. rewrite <- !app_assoc, strstr_free by (by eapply free_ext, rok_before). apply strstr_hit. }
  rewrite Hcl. cbn [access mbind outcome_bind].
  assert (Hatoi2 : forall x, atoi (drop 16 (content_length ++ [58; 32] ++ dec (zlen (r_content r)) ++ r_after r ++ blank_line ++ x)) = Ok (zlen (r_content r))).
  { intros x. change (drop 16 (content_length ++ [58; 32] ++ ?y)) with y. pose proof (rok_content r Hok).
    by apply atoi_field; [lia|apply rok_after|]. }
  rewrite Hatoi2. cbn [access mbind outcome_bind].
  assert (Hplace : zlen ((header_lines r ++ blank_line ++ extra) ++ 0 :: junk2) - zlen (blank_line ++ extra ++ 0 :: junk2) + 4 =
    zlen (header_lines r ++ blank_line)).
  { rewrite <- !app_assoc, zlen_behind, length_app. cbn [length blank_line]. lia. }
  rewrite Hplace.
  assert (Hrem : zlen (header_lines r ++ blank_line ++ extra) - zlen (header_lines r ++ blank_line) = zlen extra)
    by (rewrite !length_app; lia).
  rewrite Hrem. rewrite <- (app_assoc _ _ (0 :: junk2)), <- (app_assoc _ _ (0 :: junk2)), (app_assoc (header_lines r)) in *.
  destruct (move_down_spec (header_lines r ++ blank_line) extra junk2 _ (zlen extra + 1) eq_refl eq_refl) as (junk3 & -> & Hlen3).
  cbn [access mbind outcome_bind]. apply post_bind. eapply post_mono.
  { apply (get_body_run fuel _ extra (0 :: junk3) t _ b w1 (r_content r) rest); [done..|by rewrite Hlen3|done|cbn; lia|done|done]. }
  intros [[rc d'] w'] [->|[Hrc Hp]]; cbn; [by left; auto|right]. split_and!; [done|done|done].
Qed.

(* ================================================================== *)
(** * Properties *)

(** C29: a GET request for a URL whose host and path fit their arrays is
    handed to the network in one write of five seconds: the request line,
    [Host], the range from [size_fetched] to [size_fetched + range_len] (both
    ends are part of an HTTP range, so that it asks for [range_len + 1] bytes),
    the client's own headers and the blank line, if this text fits the
    transmit buffers.  Only a first part of it goes out when the network takes
    no more, and the call succeeds when that part is not empty: a request that
    is cut short counts as sent.  In a network that takes whatever it is given
    the call succeeds and exactly the whole request has gone out. *)
Theorem http_request_correct c u size_fetched range_len h d t w :
  url_ok u -> handle (net c) <> 0 -> header c = Some h -> post_buf d = None -> range_len <> 0 ->
  let request := get_request (47 :: u_path u) (u_host u) (dec (s32 size_fetched)) (dec (s32 (u32 (size_fetched + range_len)))) in
  zlen (request []) < 302 -> zlen (request h) < 1024 ->
  let sending := _http_send_request rounds c (url_text u) HTTP_GET size_fetched range_len d t w in
  sending = ('(r, w') ← finish (utils_net_write rounds (net c) (request h) 5000 w);
             Done (if decide (r <= 0) then ERR_HTTP_CONN_ERROR else SUCCESS_RET, w')) /\
  post sending (fun '(rc, w') =>
    (exists m, moves (take m (request h)) [] w w' /\ ((0 < m)%nat /\ rc = SUCCESS_RET \/ m = O /\ rc = ERR_HTTP_CONN_ERROR)) /\
    (forall P, eager P -> P w -> rc = SUCCESS_RET /\ moves (request h) [] w w')).
Proof.
  intros Hu Hh Hhdr Hpost Hrange request Hline Htext sending.
  assert (Hne : request h <> []) by done.
  assert (Hs : sending = ('(ret, w) ← written (net c) (request h) 5000 w;
    Done (if decide (ret <> 0) then ERR_HTTP_CONN_ERROR else ret, w))).
  { unfold sending, _http_send_request. rewrite (decide_False (P := handle _ = 0)) by done. rewrite (parse_url_spec u Hu). cbn [access mbind outcome_bind].
    destruct Hu as [_ (Hn1 & _) (Hn2 & _) _].
    assert (Hno : forall x s, no x s -> Forall (fun c => c <> 0) s) by (intros x s Hs; eapply Forall_impl; [exact Hs|]; by intros ? []).
    rewrite (send_header_run c (u_host u) (47 :: u_path u) _ _ size_fetched range_len d w h);
      [|by apply (Hno 47)|constructor; [done|by apply (Hno 35)]|done..].
    fold request. destruct (written _ _ _ w) as [[ret w1]| |]; [|done..]. cbn [mbind outcome_bind]. by case_decide. }
  split.
  - rewrite Hs. unfold written. destruct (utils_net_write _ _ _ _ w) as [[r w1]|]; [|done]. cbn [finish mbind outcome_bind].
    destruct (decide (r <= 0)) as [Hr|Hr]; [destruct (decide (r = 0))|]; by cbn.
  - rewrite Hs. apply post_bind. eapply post_mono; [by apply written_post|]. intros [rc w'] (m & Hm & Hrc & He). cbn. split.
    + exists m. split; [done|]. destruct Hrc as [[? ->]|[? Hrc]]; [left|right; rewrite decide_True by lia]; done.
    + intros P HP Hw. destruct (He P HP Hw) as (_ & Hm0 & Et). rewrite Et in Hm. destruct Hrc as [[_ ->]|[-> _]]; [done|lia].
Qed.

Lemma response_post fuel c t d b w r rest :
  is_more d = 0 -> handle (net c) <> 0 -> response_buf d = Some b -> zlen b = response_buf_len d -> 1 < response_buf_len d ->
  response_ok r -> to_come (sockets w) = response_text r ++ rest ->
  post (_http_client_recv_response rounds fuel c t d w) (fun '(rc, c', d', w') =>
    (rc = FAILURE_RET \/ rc = ERR_HTTP_UNRESOLVED_DNS \/ rc = ERR_HTTP_CONN_ERROR) \/
    0 <= rc /\ c' = set_response_code (r_code r) c /\
    content_post (set_content_len (zlen (r_content r)) d) d' (r_content r) rest w').
Proof.
  intros Hm Hh Hb Hl Hsize Hok Hcome. unfold _http_client_recv_response.
  rewrite (decide_False (P := handle _ = 0)) by done. rewrite (decide_False (P := is_more d <> 0)) by auto.
  apply post_bind. eapply post_mono; [apply recv_post|]. intros [[ret got] w1] (Hmv & Hgl & Hret). cbv beta iota.
  unfold HTTP_CLIENT_READ_HEAD_SIZE in Hgl. specialize (Hgl ltac:(lia)).
  assert (Hz : length (replicate HTTP_CLIENT_READ_BUF_SIZE 0) = HTTP_CLIENT_READ_BUF_SIZE) by apply length_replicate.
  set (z := replicate _ _) in *. clearbody z.
  destruct (append_at [] z got) as (x & junk & Hw & Hlen); [cbn [app length]; rewrite Hz; unfold HTTP_CLIENT_READ_BUF_SIZE; lia|].
  cbn [app length] in Hw, Hlen. change (Z.of_nat 0) with 0 in Hw. rewrite Hw. cbn [access mbind outcome_bind].
  destruct Hret as [[-> Hgot]|[Hret ->]].
  2: { rewrite decide_True by (destruct Hret as [->| ->]; done). cbn [post]. left. destruct Hret as [->| ->]; auto. }
  rewrite (decide_False (P := 0 <> 0)) by auto. rewrite write_at_place by done. cbn [access mbind outcome_bind].
  eapply post_mono.
  { apply (parse_header_run fuel c got junk t _ b w1 r rest); [done..| |done|].
    - rewrite <- Hcome. symmetry. apply moves_come with (1 := Hmv).
    - by rewrite <- Hz, <- Hlen, !length_app. }
  intros [[[rc c'] d'] w'] [[Hrc _]|?]; auto.
Qed.

(** The first call of a response, and the close after an error. *)
Lemma recv_data_post fuel c t d b w r rest :
  handle (net c) <> 0 -> response_buf d = Some b -> zlen b = response_buf_len d -> 1 < response_buf_len d ->
  is_more d = 0 -> response_ok r -> to_come (sockets w) = response_text r ++ rest ->
  post (http_client_recv_data rounds fuel c t d w) (fun '(rc, c', d', w') =>
    (rc = FAILURE_RET \/ rc = ERR_HTTP_UNRESOLVED_DNS \/ rc = ERR_HTTP_CONN_ERROR) /\ handle (net c') = 0 \/
    rc = SUCCESS_RET /\ c' = set_response_code (r_code r) c /\
    content_post (set_content_len (zlen (r_content r)) d) d' (r_content r) rest w').
Proof.
  intros Hh Hb Hl Hsize Hm Hok Hcome. unfold http_client_recv_data. rewrite Hb. rewrite (decide_False (P := _ = 0)) by lia.
  apply post_bind. eapply post_mono; [by apply (response_post fuel c t d b w r rest)|].
  intros [[[rc c'] d'] w'] [Hrc|(Hrc & -> & Hp)].
  - rewrite (decide_True (P := rc < 0)) by (destruct Hrc as [->|[->| ->]]; done).
    unfold http_client_close. destruct (if decide (handle (net c') > 0) then _ else _) as [n w2]. cbn. auto.
  - rewrite (decide_False (P := rc < 0)) by lia. cbn. auto.
Qed.

End laws.

(* ================================================================== *)
(** * Examples *)

Definition zero_data : http_client_data_t := mkHttpData 0 0 0 0 0 0 None None None.
Definition url0 : bytes := lit "http://fw.ucloud.cn/a/img.bin".
Definition response0 : bytes :=
  bytes_of "HTTP/1.1 206 Partial Content" ++ CRLF ++ bytes_of "Server: x" ++ CRLF ++
  bytes_of "Content-Length: 7" ++ blank_line ++ bytes_of "firmwar".
Definition http0 : http_client_t := mkHttp (set_handle 0 net0) 0 (Some (bytes_of "Accept: */*" ++ CRLF)).
Definition fetch0 (inbox : bytes) (buf_len : nat) : outcome (Z * Z * option bytes * Z * Z * bytes) :=
  '(rc, c, w) ← http_client_connect http0 url0 80 None (mkTcp 1000 inbox 3 [] ∅ 3 false);
  '(rc, w) ← _http_send_request 1000 c url0 HTTP_GET 0 4096 zero_data 5000 w;
  let d := mkHttpData 0 0 0 0 0 (Z.of_nat buf_len) None None (Some (replicate buf_len 0)) in
  '(rc, c, d, w) ← http_client_recv_data 2000 50 c 100 d w;
  Done (rc, response_code c, response_buf d, retrieve_len d, handle (net c), t_sent w).
Example fetch0_ok : fetch0 response0 16 =
  Done (0, 206, Some (bytes_of "firmwar" ++ replicate 9 0), 0, 3,
    bytes_of "GET /a/img.bin HTTP/1.1" ++ CRLF ++ bytes_of "Host: fw.ucloud.cn" ++ CRLF ++
    bytes_of "Range: bytes=0-4096" ++ CRLF ++ bytes_of "Accept: */*" ++ CRLF ++ CRLF).
Proof. vm_compute. reflexivity. Qed.

(** ** Witnesses and limits *)

Definition respond (status headers content : bytes) : bytes :=
  status ++ CRLF ++ headers ++ blank_line ++ content.
Definition result0 (inbox : bytes) : outcome (Z * Z * option bytes) :=
  match fetch0 inbox 40 with
  | Done (rc, status, buf, _, _, _) => Done (rc, status, option_map (take 12) buf)
  | Undefined => Undefined
  | Unfinished => Unfinished
  end.

(** What the HTTP client does beyond [http_response_correct].  A negative
    Content-Length, more than a kilobyte of headers, a host or path of 256
    characters and a fragment in front of the path overrun buffers on the
    stack - all of them chosen by the other side.  A longer status line is
    reported as a DNS failure, a lower-case header name as a broken connection.
    The body of an error page is taken for the content.  And connecting
    reports success without a connection. *)
Theorem http_limits :
  result0 (respond (bytes_of "HTTP/1.1 200 OK") (bytes_of "Content-Length: -2") []) = Undefined /\
  result0 (respond (bytes_of "HTTP/1.1 200 OK") (replicate 1100 97) []) = Undefined /\
  _utils_parse_url (lit "http://" ++ []) = Ok (inr ERR_PARAM_INVALID) /\
  _utils_parse_url (bytes_of "http://" ++ replicate 256 97 ++ lit "/") = Oob /\
  _utils_parse_url (bytes_of "http://h/" ++ replicate 255 97 ++ [0]) = Oob /\
  _utils_parse_url (lit "http://h#x/y") = Oob /\
  result0 (respond (bytes_of "HTTP/1.1 503 Service Unavailable") (bytes_of "Content-Length: 0") []) =
    Done (ERR_HTTP_UNRESOLVED_DNS, 0, Some (replicate 12 0)) /\
  result0 (respond (bytes_of "HTTP/1.1 200 OK") (bytes_of "content-length: 3") (bytes_of "abc")) =
    Done (ERR_HTTP_CONN_ERROR, 200, Some (replicate 12 0)) /\
  result0 (respond (bytes_of "HTTP/1.1 404 Not Found") (bytes_of "Content-Length: 9") (bytes_of "not found")) =
    Done (SUCCESS_RET, 404, Some (bytes_of "not found" ++ [0; 0; 0])) /\
  (exists c w, http_client_connect http0 url0 80 None dead0 = Done (SUCCESS_RET, c, w) /\ handle (net c) = u32 (-1)).
Proof. split_and!; [vm_compute; reflexivity..|]. eexists _, _. by vm_compute. Qed.

Definition conn0 : http_client_t := mkHttp (set_handle 3 net0) 0 (Some (bytes_of "Accept: */*" ++ CRLF)).
Definition u0 : url_parts := mkUrl (bytes_of "http") (bytes_of "fw.ucloud.cn") (bytes_of "a/img.bin") [].
Definition data16 : http_client_data_t := mkHttpData 0 0 0 0 0 40 None None (Some (replicate 40 0)).
Definition r0 : response :=
  mkResponse (bytes_of "HTTP/1.1 ") 206 (bytes_of " Partial Content") (bytes_of "Server: x" ++ CRLF) [] (bytes_of "firmwar").

Lemma u0_ok : url_ok u0.
Proof. split; [by_eval| | |by left]; split_and?; by_eval. Qed.
Definition free_b (needle s rest : bytes) : bool :=
  forallb (fun k => bool_decide (s !! k <> Some 0) && negb (starts needle (drop k s ++ rest))) (seq 0 (length s)).
Lemma free_by_eval needle s rest : free_b needle s rest = true -> free needle s rest.
Proof.
  intros Hf k c Hk. unfold free_b in Hf. rewrite forallb_forall in Hf.
  assert (Hin : In k (seq 0 (length s))) by (apply in_seq; apply lookup_lt_Some in Hk; lia).
  apply Hf, andb_prop in Hin as [H1 H2]. apply bool_decide_eq_true in H1. apply negb_true_iff in H2. split; [congruence|done].
Qed.
Lemma r0_ok : response_ok r0.
Proof. split; try (apply free_by_eval; vm_compute; reflexivity); try by_eval; vm_compute; done. Qed.

Lemma http_request_correct_witness :
  exists w', _http_send_request 1000 conn0 (url_text u0) HTTP_GET 0 4096 zero_data 5000 tcp0 = Done (0, w') /\
    t_sent w' = t_sent tcp0 ++ bytes_of "GET /a/img.bin HTTP/1.1" ++ [13; 10] ++ bytes_of "Host: fw.ucloud.cn" ++ [13; 10] ++
      bytes_of "Range: bytes=0-4096" ++ [13; 10] ++ bytes_of "Accept: */*" ++ [13; 10; 13; 10].
Proof.
  destruct (http_request_correct 1000 conn0 u0 0 4096 (bytes_of "Accept: */*" ++ CRLF) zero_data 5000 tcp0 u0_ok) as [_ Hp]; [done || by_eval..|].
  destruct (_http_send_request 1000 conn0 (url_text u0) HTTP_GET 0 4096 zero_data 5000 tcp0) as [[rc w']| |] eqn:E.
  - exists w'. destruct Hp as [_ Hall]. destruct (Hall _ (live_eager 1000) eq_refl) as [-> Hm]. split; [done|].
    refine (eq_trans (moves_sent _ _ _ _ Hm) _). vm_compute. reflexivity.
  - by vm_compute in E.
  - by vm_compute in E.
Defined.

(** Two calls of a client whose buffer takes one byte and the 0. *)
Definition fetch_small : outcome (Z * option bytes * Z * Z * option bytes * Z) :=
  let d := mkHttpData 0 0 0 0 0 2 None None (Some [9; 9]) in
  '(rc1, c, d1, w) ← http_client_recv_data 2000 50 conn0 100 d (mkTcp 1000 response0 3 [] ∅ 3 false);
  '(rc2, c, d2, w) ← http_client_recv_data 2000 50 c 100 d1 w;
  Done (rc1, response_buf d1, retrieve_len d1, rc2, response_buf d2, zlen (t_inbox w)).


