(* ===== verification/HttpApi.v ===== *)
(** The HTTP services ([uiot/http/http_client.c], [uiot/http/http_upload_file.c]):
    a token for a device, a message published over HTTP, the place and the
    authorization for an upload, and the upload itself.

    They run over the HTTP client of [Httpc].  The state has the device and the
    number of the blocks of memory in use; a block that is cleared at once is
    its content, the arrays of the caller are arguments and come back with the
    result.  What a failure prints is left out. *)

From S2P Require Import Prelude Defs HalTimer Json CLib Digest Sha2 StringUtils MqttWire MqttState HalTcp Httpc.

Section api.
(** [iot_https_ca_crt]: the certificate that [iot_https_ca_get] gives. *)
Context {W : Type} `{Rtos W} (rounds fuel : nat) (iot_https_ca_crt : option bytes).

Record HSt := mkHSt { dev : W; live : Z }.

Definition HM (A : Type) : Type := HSt -> outcome (A * HSt).
#[export] Instance HM_ret : MRet HM := fun A a s => Done (a, s).
#[export] Instance HM_bind : MBind HM := fun A B f m s =>
  match m s with Done (a, s) => f a s | Undefined => Undefined | Unfinished => Unfinished end.

Definition undefined {A} : HM A := fun _ => Undefined.
Definition must {A} (r : res A) : HM A := match r with Ok a => mret a | _ => undefined end.
(** A call of the layers below. *)
Definition run {A} (f : W -> outcome (A * W)) : HM A := fun s =>
  match f (dev s) with Done (a, w) => Done (a, mkHSt w (live s)) | Undefined => Undefined | Unfinished => Unfinished end.
Definition count (d : Z) : HM unit := fun s => Done (tt, mkHSt (dev s) (live s + d)).

Definition HAL_Malloc : HM bool :=
  got ← run (fun w => Done (alloc_ok w));
  (if got : bool then count 1;; mret true else mret false).
Definition HAL_Free : HM unit := count (-1).
(** A block for [body], or [failure] without one. *)
Definition with_block {A} (failure : A) (body : HM A) : HM A :=
  got ← HAL_Malloc;
  if got : bool then r ← body; HAL_Free;; mret r else mret failure.

(** [LITE_json_value_of] on the response; a result is a block of its own. *)
Definition json_value (key : String.string) (d : http_client_data_t) : HM (option bytes) :=
  match response_buf d with
  | None => undefined
  | Some buf => fun s =>
      match LITE_json_value_of alloc_ok (lit key) buf (dev s) with
      | Ok (v, w) => Done (v, mkHSt w (live s + match v with Some _ => 1 | None => 0 end))
      | Oob => Undefined
      | Err _ => Unfinished
      end
  end.

(** [%s] *)
Definition str (s : bytes) : HM bytes := match cstr s with Some s => mret s | None => undefined end.
(** A cleared block of [size] bytes with a text printed to it. *)
Definition printed (size : Z) (text : bytes) : HM bytes :=
  '(buf, _) ← must (snprintf_at (replicate (Z.to_nat size) 0) 0 size text); mret buf.

(** A client and its data after [memset]. *)
Definition new_client (header : bytes) : http_client_t := mkHttp (mkNetwork [] 0 0 0 None 0) 0 (Some header).
Definition new_data (response_buf_len : Z) (content_type : String.string) (post_buf : bytes) : http_client_data_t :=
  mkHttpData 0 0 0 0 0 response_buf_len (Some (bytes_of content_type)) (Some post_buf)
    (Some (replicate (Z.to_nat response_buf_len) 0)).

Definition common (c : http_client_t) (url : bytes) (method : HTTP_Request_Method) (d : http_client_data_t) (timeout_ms : Z) :
    HM (Z * http_client_t) :=
  run (http_client_common rounds c url 443 iot_https_ca_crt method d timeout_ms).
Definition recv_data (c : http_client_t) (timeout_ms : Z) (d : http_client_data_t) : HM (Z * http_client_t * http_client_data_t) :=
  run (http_client_recv_data rounds fuel c timeout_ms d).
Definition close (c : http_client_t) : HM http_client_t := run (fun w => Done (http_client_close c w)).

(** What every service does with its request, down to the close behind the
    label [end]: [requested] is what it frees when the request went out,
    [answer] what it makes of the response, [outs] what it has without one. *)
Definition exchange {R} (c : http_client_t) (url : bytes) (method : HTTP_Request_Method) (d : http_client_data_t) (timeout_ms : Z)
    (requested : HM unit) (outs : R) (answer : http_client_data_t -> HM R) : HM (Z * R) :=
  '(ret, c) ← common c url method d timeout_ms;
  '(ret, c, outs) ←
    (if decide (SUCCESS_RET <> ret) then mret (ret, c, outs)
     else
       requested;;
       '(ret, c, d) ← recv_data c timeout_ms d;
       if decide (SUCCESS_RET <> ret) then mret (ret, c, outs)
       else outs ← answer d; mret (ret, c, outs));
  _ ← close c;
  mret (ret, outs).

(** The digest of the request under the secret, in hexadecimal text; a secret
    that is too long leaves the zeros. *)
Definition mac_of (post_buf device_sercret : bytes) : HM bytes :=
  key ← str device_sercret;
  mac ← must (utils_hmac_sha256 post_buf key);
  let mac_output_hex := match mac with Some m => m | None => replicate 32 0 end in
  mac_output_char ← must (LITE_hexbuf_convert mac_output_hex (replicate 65 0) 32 false);
  str mac_output_char.

(** [strncpy(dst, value, strlen(value)); dst[strlen(value) + 1] = 0] *)
Definition copy_value (dst value : bytes) : HM bytes :=
  dst ← must (write_at dst 0 value);
  must (write_at dst (zlen value + 1) [0]).

(* ------------------------------------------------------------------ *)
(** ** [http_client.c] *)

Definition token_request (product_sn device_sn : bytes) : bytes :=
  q "{`ProductSN`:`" ++ product_sn ++ q "`,`DeviceSN`:`" ++ device_sn ++ q "`}".
Definition token_header (mac_output_char post_buf : bytes) : bytes :=
  bytes_of "Content-Type: application/json" ++ CRLF ++ bytes_of "Authorization: " ++ mac_output_char ++ CRLF ++
  bytes_of "body: " ++ post_buf ++ CRLF.

(** From the answer to the label [end]. *)
Definition take_token (d : http_client_data_t) (token : bytes) : HM bytes :=
  temp ← json_value "Token" d;
  match temp with
  | None =>
      temp_message ← json_value "Message" d;
      match temp_message with Some _ => HAL_Free;; mret token | None => mret token end
  | Some temp => token ← copy_value token temp; HAL_Free;; mret token
  end.

(** The result and the array for the token. *)
Definition IOT_HTTP_Get_Token (product_sn device_sn device_sercret token : bytes) : HM (Z * bytes) :=
  let failure := (FAILURE_RET, token) in
  with_block failure (with_block failure (with_block failure (with_block failure (
    product ← str product_sn;
    device ← str device_sn;
    post_buf ← printed 1024 (token_request product device);
    post_buf ← str post_buf;
    mac_output_char ← mac_of post_buf device_sercret;
    with_block failure (
      header ← printed 1024 (token_header mac_output_char post_buf);
      header ← str header;
      let d := new_data 1024 "application/json" post_buf in
      exchange (new_client header) (lit "https://http-cn-sh2.iot.ucloud.cn/auth") HTTP_POST d 5000
        (mret tt) token (fun d => take_token d token)))))).

Definition publish_header (token post_buf : bytes) : bytes :=
  bytes_of "Password: " ++ token ++ CRLF ++ bytes_of "Content-Type: application/octet-stream" ++ CRLF ++
  bytes_of "body: " ++ post_buf ++ CRLF.

(** The message of the answer is only printed. *)
Definition take_message (d : http_client_data_t) : HM unit :=
  temp_message ← json_value "Message" d;
  match temp_message with Some _ => HAL_Free | None => mret tt end.

(** [timeout_ms] is not used; the block of the URL is freed when the request
    went out, and only then. *)
Definition IOT_HTTP_Publish (token topic data : bytes) (timeout_ms : Z) : HM Z :=
  with_block FAILURE_RET (with_block FAILURE_RET (with_block FAILURE_RET (with_block FAILURE_RET (
    data ← str data;
    post_buf ← printed 1024 data;
    post_buf ← str post_buf;
    with_block FAILURE_RET (
      token ← str token;
      header ← printed 1024 (publish_header token post_buf);
      header ← str header;
      let c := new_client header in
      got ← HAL_Malloc;
      if got : bool then
        topic ← str topic;
        url ← printed 256 (bytes_of "https://http-cn-sh2.iot.ucloud.cn/topic/" ++ topic);
        let d := new_data 1024 "application/octet-stream" post_buf in
        '(ret, _) ← exchange c url HTTP_POST d 5000 HAL_Free tt take_message;
        mret ret
      else
        _ ← close c;
        mret SUCCESS_RET))))).

(* ------------------------------------------------------------------ *)
(** ** [http_upload_file.c] *)

(** The length is printed as an [int]. *)
Definition url_request (product_sn device_sn file_name : bytes) (upload_buffer_len : Z) (md5 : bytes) : bytes :=
  q "{`ProductSN`:`" ++ product_sn ++ q "`,`DeviceSN`:`" ++ device_sn ++ q "`,`FileName`:`" ++ file_name ++
  q "`,`FileSize`:" ++ dec (s32 upload_buffer_len) ++ q ",`MD5`:`" ++ md5 ++ q "`,`Content-Type`:`plain/text`}".
Definition url_header (mac_output_char : bytes) : bytes :=
  bytes_of "Content-Type: application/json" ++ CRLF ++ bytes_of "Authorization:" ++ mac_output_char ++ CRLF.

Definition take_auth (d : http_client_data_t) (authorization put_url : bytes) : HM (bytes * bytes) :=
  temp_auth ← json_value "Authorization" d;
  match temp_auth with
  | None => mret (authorization, put_url)
  | Some temp_auth =>
      authorization ← copy_value authorization temp_auth;
      HAL_Free;;
      temp_url ← json_value "URL" d;
      match temp_url with
      | None => mret (authorization, put_url)
      | Some temp_url => put_url ← copy_value put_url temp_url; HAL_Free;; mret (authorization, put_url)
      end
  end.

Definition IOT_GET_URL_AND_AUTH (product_sn device_sn device_sercret file_name upload_buffer : bytes) (upload_buffer_len : Z)
    (md5 authorization put_url : bytes) : HM (Z * (bytes * bytes)) :=
  let failure := (FAILURE_RET, (authorization, put_url)) in
  with_block failure (with_block failure (with_block failure (with_block failure (
    product ← str product_sn;
    device ← str device_sn;
    file ← str file_name;
    md5 ← str md5;
    post_buf ← printed 1024 (url_request product device file upload_buffer_len md5);
    post_buf ← str post_buf;
    mac_output_char ← mac_of post_buf device_sercret;
    with_block failure (
      header ← printed 1024 (url_header mac_output_char);
      header ← str header;
      let d := new_data 1024 "application/json" post_buf in
      exchange (new_client header) (lit "https://file-cn-sh2.iot.ucloud.cn/api/v1/url") HTTP_POST d 5000
        (mret tt) (authorization, put_url) (fun d => take_auth d authorization put_url)))))).

Definition upload_header (authorization md5 : bytes) : bytes :=
  bytes_of "Authorization:" ++ authorization ++ CRLF ++ bytes_of "Content-Type:plain/text" ++ CRLF ++
  bytes_of "Content-MD5:" ++ md5 ++ CRLF.

(** [strncpy(dst, src, n)]: up to the first 0, and zeros for the rest. *)
Fixpoint strncpy_loop (n : nat) (src : bytes) : res bytes :=
  match n with
  | O => Ok []
  | S n =>
      match src with
      | [] => Oob
      | c :: src => if decide (c = 0) then Ok (replicate (S n) 0) else r ← strncpy_loop n src; Ok (c :: r)
      end
  end.

(** Two of the blocks are used without a check: the conditions look at a
    pointer that was checked before. *)
Definition IOT_HTTP_UPLOAD_FILE (file_name upload_buffer : bytes) (upload_buffer_len : Z) (md5 authorization url : bytes)
    (timeout_ms : Z) : HM Z :=
  with_block FAILURE_RET (with_block FAILURE_RET (
    got ← HAL_Malloc;
    (if got : bool then
      got ← HAL_Malloc;
      if got : bool then
        auth ← str authorization;
        md5 ← str md5;
        header ← printed 1024 (upload_header auth md5);
        header ← str header;
        ret ← with_block FAILURE_RET (
          let post_buf := replicate (Z.to_nat (u32 (upload_buffer_len + 1))) 0 in
          copied ← must (strncpy_loop (Z.to_nat upload_buffer_len) upload_buffer);
          post_buf ← must (write_at post_buf 0 copied);
          post_buf ← must (write_at post_buf upload_buffer_len [0]);
          let d := new_data 512 "plain/text" (take (Z.to_nat upload_buffer_len) post_buf) in
          '(ret, _) ← exchange (new_client header) url HTTP_PUT d timeout_ms (mret tt) tt (fun _ => mret tt);
          mret ret);
        HAL_Free;; HAL_Free;; mret ret
      else undefined
    else undefined))).
End api.
