(* ===== verification/HttpApiSpec.v ===== *)
(** What the HTTP services do when there is memory: what goes out, and what
    the caller gets of the answer. *)

From S2P Require Import Prelude Defs HalTimer Json CLib JsonConv Digest Sha2 StringUtils MqttWire MqttState HalTcp Httpc HttpApi.

(* ================================================================== *)
(** * What the requests are *)

(** The header of a request with [n] bytes of a type, and headers of the
    client's own. *)
Definition verb (method : HTTP_Request_Method) : bytes :=
  match method with
  | HTTP_GET => bytes_of "GET" | HTTP_POST => bytes_of "POST" | HTTP_PUT => bytes_of "PUT"
  | HTTP_DELETE => bytes_of "DELETE" | HTTP_HEAD => bytes_of "HEAD"
  end.
Definition post_head (method : HTTP_Request_Method) (path host own content_type : bytes) (n : Z) : bytes :=
  verb method ++ bytes_of " " ++ path ++ bytes_of " HTTP/1.1" ++ [13; 10] ++
  bytes_of "Host: " ++ host ++ [13; 10] ++
  own ++
  bytes_of "Content-Length: " ++ dec n ++ [13; 10] ++
  bytes_of "Content-Type: " ++ content_type ++ [13; 10] ++ [13; 10].

(** The request for a token, and the headers that authorize it. *)
Definition token_body (product device : bytes) : bytes :=
  print (JObject [(bytes_of "ProductSN", JString product); (bytes_of "DeviceSN", JString device)]).
Definition token_own (mac body : bytes) : bytes :=
  bytes_of "Content-Type: application/json" ++ [13; 10] ++ bytes_of "Authorization: " ++ mac ++ [13; 10] ++
  bytes_of "body: " ++ body ++ [13; 10].
(** The request for the place of a file. *)
Definition place_body (product device file : bytes) (len : Z) (md5 : bytes) : bytes :=
  print (JObject [(bytes_of "ProductSN", JString product); (bytes_of "DeviceSN", JString device);
    (bytes_of "FileName", JString file); (bytes_of "FileSize", JNumber (dec (s32 len)));
    (bytes_of "MD5", JString md5); (bytes_of "Content-Type", JString (bytes_of "plain/text"))]).
Definition place_own (mac : bytes) : bytes :=
  bytes_of "Content-Type: application/json" ++ [13; 10] ++ bytes_of "Authorization:" ++ mac ++ [13; 10].

(** The code writes these texts. *)
Lemma post_head_lines method path host own ty n : post_head method path host own ty n =
  request_line method path host ++ own ++ (bytes_of "Content-Length: " ++ dec n ++ CRLF) ++
  (bytes_of "Content-Type: " ++ ty ++ CRLF) ++ CRLF.
Proof.
  unfold post_head, request_line. assert (verb method = method_name method) as -> by by destruct method. unfold CRLF.
  change (bytes_of " ") with [32]. by rewrite <- !app_assoc.
Qed.
Ltac literal_texts :=
  repeat match goal with
  | |- context [q ?s] => let v := eval vm_compute in (q s) in change (q s) with v
  | |- context [bytes_of ?s] => let v := eval vm_compute in (bytes_of s) in change (bytes_of s) with v
  end; cbn [print map fst snd join]; unfold member; repeat (rewrite <- ?app_assoc; cbn [app]); reflexivity.
Lemma token_body_spec product device : token_request product device = token_body product device.
Proof. unfold token_request, token_body. literal_texts. Qed.
Lemma place_body_spec product device file len md5 : url_request product device file len md5 = place_body product device file len md5.
Proof. unfold url_request, place_body. literal_texts. Qed.

Section client.
Context {W : Type} `{RtosLaws W} (rounds : nat).

Local Abbreviation sent w := (sent_bytes (sockets w)).
Local Abbreviation coming w := (to_come (sockets w)).

(* ================================================================== *)
(** * Requests with a body *)

Lemma send_post_header c host path jh jp method d w h p ty :
  Forall (fun c => c <> 0) host -> Forall (fun c => c <> 0) path -> header c = Some h -> post_buf d = Some p ->
  post_content_type d = Some ty -> zlen (request_line method path host) < 300 -> zlen ty < 280 -> zlen (dec (zlen p)) < 100 ->
  zlen (post_head method path host h ty (zlen p)) < 1024 ->
  _http_send_header rounds c (host ++ 0 :: jh) (path ++ 0 :: jp) method 0 0 d w =
    written rounds (net c) (post_head method path host h ty (zlen p)) 5000 w.
Proof.
  intros Hh Hp Hhdr Hpost Hty Hline Htl Hdl Htext. unfold _http_send_header. rewrite !text_array by done.
  cbn [mbind outcome_bind]. rewrite (decide_False (P := 0 <> 0)) by auto. rewrite Hhdr, Hpost, Hty, app_nil_r.
  rewrite post_head_lines in *.
  set (line := request_line method path host) in *. set (l1 := bytes_of "Content-Length: " ++ dec (zlen p) ++ CRLF) in *.
  set (l2 := bytes_of "Content-Type: " ++ ty ++ CRLF) in *.
  assert (E : line ++ h ++ l1 ++ l2 ++ CRLF = (((line ++ h) ++ l1) ++ l2) ++ CRLF) by (by rewrite <- !app_assoc).
  rewrite E in *. clear E. unfold HTTP_CLIENT_REQUEST_BUF_SIZE in *.
  assert (zlen l1 < 300) as H1 by (unfold l1; rewrite !length_app; cbn [length CRLF]; change (length (bytes_of "Content-Length: ")) with 16%nat; lia).
  assert (zlen l2 < 300) as H2 by (unfold l2; rewrite !length_app; cbn [length CRLF]; change (length (bytes_of "Content-Type: ")) with 14%nat; lia).
  assert (snprintf 300 line = line) as -> by (apply firstn_all2; lia).
  assert (snprintf 300 l1 = l1) as -> by (apply firstn_all2; lia).
  assert (snprintf 300 l2 = l2) as -> by (apply firstn_all2; lia).
  assert (HN : HTTP_CLIENT_SEND_BUF_SIZE = 1024%nat) by done. clearbody line l1 l2.
  rewrite !length_app in Htext. cbn [length CRLF] in Htext.
  set (z := replicate HTTP_CLIENT_SEND_BUF_SIZE 0). assert (Hz : length z = 1024%nat) by apply length_replicate. clearbody z.
  change z with ([] ++ z) at 1. change 0 with (zlen (@nil Z)) at 1. rewrite fill_small by (cbn [app]; lia).
  cbn [mbind outcome_bind app]. rewrite (decide_False (P := SUCCESS_RET < 0)) by done.
  do 4 (rewrite ?drop_drop, fill_small by (rewrite ?length_app, ?length_drop; cbn [length CRLF]; lia); cbn [mbind outcome_bind]).
  by rewrite slice_front by done.
Qed.

(** Only these two methods send the body. *)
Definition with_body (method : HTTP_Request_Method) : Prop := method = HTTP_POST \/ method = HTTP_PUT.

(** [eagerly w w' out]: a network that takes everything has taken [out]. *)
Definition eagerly (w w' : W) (out : bytes) : Prop := forall P, eager P -> P w -> sent w' = sent w ++ out.

Lemma send_post c u uj method d t w h p ty :
  url_ok u -> header c = Some h -> post_buf d = Some p -> p <> [] -> post_content_type d = Some ty -> with_body method ->
  let head := post_head method (47 :: u_path u) (u_host u) h ty (zlen p) in
  zlen (request_line method (47 :: u_path u) (u_host u)) < 300 -> zlen ty < 280 -> zlen (dec (zlen p)) < 100 -> zlen head < 1024 ->
  post (_http_send_request rounds c (url_text u ++ uj) method 0 0 d t w) (fun '(rc, w') =>
    exists m k, moves (take m head ++ take k p) [] w w' /\
      (rc = SUCCESS_RET /\ (0 < m)%nat /\ (0 < k)%nat /\ handle (net c) <> 0 /\ eagerly w w' (head ++ p) \/ rc < 0 /\ k = O)).
Proof.
  intros Hu Hhdr Hpost Hne Hty Hm head Hl1 Hl2 Hl3 Htext. unfold _http_send_request.
  destruct (decide (handle (net c) = 0)) as [Hz|Hh].
  { cbn. exists O, O. split; [apply moves_refl|by right]. }
  rewrite (parse_url_text u uj Hu). cbn [access mbind outcome_bind]. destruct Hu as [_ (Hn1 & _) (Hn2 & _) _].
  assert (Hno : forall x s, no x s -> Forall (fun c => c <> 0) s) by (intros x s Hs; eapply Forall_impl; [exact Hs|]; by intros ? []).
  rewrite (send_post_header c (u_host u) (47 :: u_path u) _ _ method d w h p ty);
    [|by apply (Hno 47)|constructor; [done|by apply (Hno 35)]|done..].
  fold head. apply post_bind. eapply post_mono; [apply written_post; unfold head, post_head; by destruct method|].
  intros [rc w1] (m & Hmv & Hrc & He). cbv beta iota. destruct Hrc as [[Hm0 ->]|[-> Hrc]].
  2: { rewrite decide_True by lia. cbn. exists O, O. split; [by rewrite app_nil_r|by right]. }
  rewrite decide_False by auto. assert (post ('(ret, w) ← _http_send_user_data rounds c d t w1;
      Done (if decide (ret < 0) then ERR_HTTP_CONN_ERROR else ret, w)) (fun '(rc, w') =>
    exists m k, moves (take m head ++ take k p) [] w w' /\
      (rc = SUCCESS_RET /\ (0 < m)%nat /\ (0 < k)%nat /\ handle (net c) <> 0 /\ eagerly w w' (head ++ p) \/ rc < 0 /\ k = O))) as Hd.
  { unfold _http_send_user_data. rewrite Hpost, decide_True by done. fold (written rounds (net c) p t w1). apply post_bind.
    eapply post_mono; [by apply written_post|]. intros [r w2] (k & Hmv2 & Hr & He2). cbn [post].
    assert (Hmv3 : moves (take m head ++ take k p) [] w w2) by (by apply (moves_then _ _ _ _ _ _ _ _ _ Hmv Hmv2)).
    exists m, k. split; [exact Hmv3|]. destruct Hr as [[Hk0 ->]|[-> Hr]]; [left|right].
    - rewrite decide_False by done. split_and!; [done..|]. intros P HP Hw. destruct (He P HP Hw) as (Hw1 & _ & E1).
      destruct (He2 P HP Hw1) as (_ & _ & E2). rewrite E1, E2 in Hmv3. apply Hmv3.
    - rewrite decide_True by done. done. }
  destruct Hm as [-> | ->]; exact Hd.
Qed.

(* ================================================================== *)
(** * Connections *)

(** What connecting and closing leave alone. *)
Definition same_streams (w w' : W) : Prop := sent w' = sent w /\ coming w' = coming w.
Lemma streams_trans w1 w2 w3 : same_streams w1 w2 -> same_streams w2 w3 -> same_streams w1 w3.
Proof. intros [? ?] [? ?]. split; congruence. Qed.

Lemma disconnect_streams n w : same_streams w (utils_net_disconnect n w).2.
Proof.
  unfold utils_net_disconnect, disconnect_tcp, HAL_TCP_Disconnect. pose proof (close_law (s32 (handle n)) w) as Hc.
  destruct (sock_close _ w) as [x w']. cbn [snd] in *. split; by rewrite Hc.
Qed.
Lemma close_streams c w : same_streams w (http_client_close c w).2.
Proof.
  unfold http_client_close. pose proof (disconnect_streams (net c) w) as Hd. case_decide; [|done].
  by destruct (utils_net_disconnect (net c) w) as [[x n] w'].
Qed.
Lemma connect_streams tries : forall n w, let '(rc, n', w') := _http_connect tries n w in
  rc = SUCCESS_RET /\ same_streams w w' /\ keeps w w'.
Proof.
  induction tries as [|tries IH]; intros n w; cbn [_http_connect]; [by split_and!; [|split|intros P]|].
  destruct (tcp_port_moves (set_handle 0 n) w) as (_ & _ & Hc). pose proof (connect_keeps (set_handle 0 n) w) as Hk.
  destruct (utils_net_connect (set_handle 0 n) w) as [[rc n1] w1]. destruct (Hc _ _ _ eq_refl) as (_ & _ & Hs & Hi & _).
  cbn [snd] in Hk. case_decide; [|by split_and!; [|split|]]. pose proof (disconnect_streams n1 w1) as Hd. pose proof (disconnect_keeps n1 w1) as Hk2.
  destruct (utils_net_disconnect n1 w1) as [[x n2] w2]. cbn [snd] in *.
  specialize (IH n2 (sleep_ms 1000 w2)). destruct (_http_connect tries n2 (sleep_ms 1000 w2)) as [[rc' n'] w'].
  destruct IH as (-> & IH & Hk3). split; [done|]. unfold same_streams in IH. rewrite sleep_quiet in IH. split.
  - eapply streams_trans; [by split; [exact Hs|exact Hi]|]. by eapply streams_trans.
  - intros P HP Hw. apply Hk3; [done|]. apply (eager_sleep P HP). apply Hk2; [done|]. by apply Hk.
Qed.

(** A request over a connection of its own. *)
Lemma common_run c u uj port ca method d t w h p ty :
  handle (net c) = 0 -> url_ok u -> header c = Some h -> post_buf d = Some p -> p <> [] -> post_content_type d = Some ty ->
  with_body method -> let head := post_head method (47 :: u_path u) (u_host u) h ty (zlen p) in
  zlen (request_line method (47 :: u_path u) (u_host u)) < 300 -> zlen ty < 280 -> zlen (dec (zlen p)) < 100 -> zlen head < 1024 ->
  post (http_client_common rounds c (url_text u ++ uj) port ca method d t w) (fun '(rc, c', w') =>
    exists m k, sent w' = sent w ++ take m head ++ take k p /\ coming w' = coming w /\
      (rc = SUCCESS_RET /\ (0 < m)%nat /\ (0 < k)%nat /\ handle (net c') <> 0 /\ eagerly w w' (head ++ p) \/ rc <> SUCCESS_RET /\ k = O)).
Proof.
  intros Hh Hu Hhdr Hpost Hne Hty Hm head Hl1 Hl2 Hl3 Htext. unfold http_client_common. rewrite (decide_True (P := handle _ = 0)) by done.
  unfold http_client_connect. rewrite decide_False by auto. rewrite (parse_url_text u uj Hu). cbn [access mbind outcome_bind].
  assert (Forall (fun c => c <> 0) (u_host u)) as Hho.
  { destruct Hu as [_ (Hn1 & _) _ _]. eapply Forall_impl; [exact Hn1|]. by intros ? []. }
  rewrite text_array by done. cbn [mbind outcome_bind]. cbn [utils_net_init mbind option_bind].
  match goal with |- context [_http_connect 3 ?n w] => pose proof (connect_streams 3 n w) as Hc; destruct (_http_connect 3 n w) as [[rc n'] w1] end.
  destruct Hc as (-> & [Hs Hi] & Hk). rewrite decide_False by auto. cbn [mbind outcome_bind]. rewrite decide_False by auto.
  apply post_bind. eapply post_mono; [by apply (send_post (set_net n' c) u uj method d t w1 h p ty)|].
  intros [rc w2] (m & k & Hmv & Hrc). cbv beta iota. pose proof (moves_sent _ _ _ _ Hmv) as Hs2. pose proof (moves_come _ _ _ _ Hmv) as Hi2.
  cbn [app] in Hi2. rewrite Hs in Hs2. rewrite Hi in Hi2. destruct Hrc as [(-> & ? & ? & ? & He)|[Hrc ->]].
  - rewrite decide_False by auto. exists m, k. split_and!; [done..|]. left. split_and!; [done..|].
    intros P HP Hw. rewrite <- Hs. apply (He P HP). by apply Hk.
  - rewrite decide_True by (unfold SUCCESS_RET; lia). pose proof (close_streams (set_net n' c) w2) as [Hs3 Hi3].
    destruct (http_client_close (set_net n' c) w2) as [c3 w3]. cbn [fst snd post] in *. exists m, O. rewrite Hs3, Hi3, Hi2, Hs2.
    split_and!; [done|done|right]. split; [unfold SUCCESS_RET; lia|done].
Qed.

(* ================================================================== *)
(** * Reading sends nothing *)

Lemma recv_sends c max_len t w : yields (_http_recv rounds c max_len t w) (fun '(_, w') => sent w' = sent w).
Proof.
  eapply yields_mono; [apply post_yields, recv_post|]. intros [[r got] w'] (Hm & _). pose proof (moves_sent _ _ _ _ Hm) as E.
  by rewrite app_nil_r in E.
Qed.
Lemma tick_sent w : sent (tick_get w).2 = sent w.
Proof. by rewrite tick_quiet. Qed.
Lemma deadloop_sent len timer ret dead ext w :
  let '(_, w') := _utils_check_deadloop len timer ret dead ext w in sent w' = sent w.
Proof.
  pose proof (deadloop_moves len timer ret dead ext w) as Hm. destruct (_utils_check_deadloop len timer ret dead ext w) as [x w'].
  destruct x as [[[? ?] ?] ?]. destruct Hm as [_ Hm]. pose proof (moves_sent _ _ _ _ Hm) as E. by rewrite app_nil_r in E.
Qed.

Lemma body_sends fuel : forall c data len t count timer dead ext d w,
  yields (body_loop rounds fuel c data len t count timer dead ext d w) (fun '(_, w') => sent w' = sent w).
Proof.
  induction fuel as [|fuel IH]; intros c data len t count timer dead ext d w; [done|]. cbn [body_loop].
  apply yields_access. intros [[more count'] d'] _. case_decide; [done|]. case_decide; [done|].
  apply yields_bind. eapply yields_mono; [apply recv_sends|]. intros [[ret got] w1] E. apply yields_access. intros data' _.
  case_decide; [done|]. set (n := if decide (ret = 0) then _ else _). pose proof (deadloop_sent n timer ret dead ext w1) as Ed.
  destruct (_utils_check_deadloop n timer ret dead ext w1) as [[[[rc timer'] dead'] ext'] w2].
  case_decide; [cbn; congruence|]. eapply yields_mono; [apply IH|]. intros [x w3] E3. congruence.
Qed.
Lemma get_body_sends fuel c data len t d w :
  yields (_http_get_response_body rounds fuel c data len t d w) (fun '(_, w') => sent w' = sent w).
Proof.
  unfold _http_get_response_body. pose proof (tick_sent w) as E. destruct (tick_get w) as [now w1]. case_decide; [done|].
  eapply yields_mono; [apply body_sends|]. intros [x w2] E2. cbn in E. congruence.
Qed.
Lemma headers_send fuel : forall c data len t w,
  yields (header_loop rounds fuel c data len t w) (fun r => sent (match r with inl (_, w') | inr w' => w' end) = sent w).
Proof.
  induction fuel as [|fuel IH]; intros c data len t w; [done|]. cbn [header_loop]. apply yields_access. intros [p|] _; [done|].
  apply yields_bind. eapply yields_mono; [apply recv_sends|]. intros [[ret got] w1] E. apply yields_access. intros data1 _.
  case_decide; [done|]. apply yields_access. intros data2 _. eapply yields_mono; [apply IH|]. intros r E2. cbv beta in E2. congruence.
Qed.
Lemma parse_sends fuel c data len t d w :
  yields (_http_parse_response_header rounds fuel c data len t d w) (fun '(_, w') => sent w' = sent w).
Proof.
  unfold _http_parse_response_header. apply yields_access. intros [p|] _; [|done].
  do 3 (apply yields_access; intros ? _). apply yields_bind. eapply yields_mono; [apply headers_send|].
  intros [[[[data' len'] p'] w1]|w1] E; [|done]. apply yields_access. intros [p2|] _; [|done].
  do 2 (apply yields_access; intros ? _). apply yields_bind. eapply yields_mono; [apply get_body_sends|].
  intros [[rc d'] w2] E2. cbn in *. congruence.
Qed.
Lemma recv_data_sends fuel c t d w : yields (http_client_recv_data rounds fuel c t d w) (fun '(_, w') => sent w' = sent w).
Proof.
  unfold http_client_recv_data. destruct (response_buf d) as [b|] eqn:Eb; [|done]. case_decide; [done|].
  apply yields_bind. eapply (yields_mono _ (fun '(_, w') => sent w' = sent w)).
  - unfold _http_client_recv_response. case_decide; [done|]. case_decide.
    + rewrite Eb. apply yields_access. intros b' _. apply yields_bind. eapply yields_mono; [apply get_body_sends|].
      by intros [[rc d'] w'] E.
    + apply yields_bind. eapply yields_mono; [apply recv_sends|]. intros [[ret got] w1] E. apply yields_access. intros b1 _.
      case_decide; [done|]. apply yields_access. intros b2 _. eapply yields_mono; [apply parse_sends|].
      intros [x w2] E2. cbn in *. congruence.
  - intros [[[rc c'] d'] w1] E. case_decide; [|done]. pose proof (close_streams c' w1) as [Hs _].
    destruct (http_client_close c' w1) as [c2 w2]. cbn in *. congruence.
Qed.

(** [LITE_json_value_of] only allocates. *)
Lemma json_value_frame (P : W -> Prop) key src w r w' : (forall w, P w -> P (alloc_ok w).2) -> P w ->
  LITE_json_value_of alloc_ok key src w = Ok (r, w') -> P w'.
Proof.
  intros HP Hw. assert (forall fuel key src len w r w', P w -> path_loop alloc_ok fuel key src len w = Ok (r, w') -> P w') as Hpath.
  { clear -HP. induction fuel as [|fuel IH]; intros key src len w r w' Hw E; [done|]. cbn [path_loop] in E.
    destruct (strchr key 46) as [[delim|]|e|]; cbn [mbind res_bind] in E; [|by injection E as <- <-|done..].
    pose proof (HP w Hw) as Hw1. destruct (alloc_ok w) as [[] w1]; [|done].
    destruct (value_of src _ len) as [[[v|] len']|e|]; cbn [mbind res_bind] in E; [by apply IH in E|by injection E as <- <-|done..]. }
  unfold LITE_json_value_of. intros E.
  destruct (path_loop alloc_ok _ key src (-1) w) as [[found w1]|e|] eqn:Ep; cbn [mbind res_bind] in E; [|done..].
  apply Hpath in Ep; [|done]. destruct found as [[[src' key'] len]|]; [|by injection E as <- <-].
  destruct (value_of src' key' len) as [[[v|] len']|e|]; cbn [mbind res_bind] in E; [|by injection E as <- <-|done..].
  pose proof (HP w1 Ep) as Hw2. destruct (alloc_ok w1) as [[] w2]; [|by injection E as <- <-].
  destruct (snprintf_s _ _) as [t|e|]; cbn [mbind res_bind] in E; [by injection E as <- <-|done..].
Qed.
End client.

(* ================================================================== *)
(** * The steps of the services *)


Section services.
Context {W : Type} `{RtosLaws W} (rounds fuel : nat) (ca : option bytes).
Hypothesis memory : forall w, (alloc_ok w).1 = true.

Local Abbreviation HM := (@HttpApi.HM W).
Local Abbreviation net_of s := (sockets (dev s)).
Local Abbreviation text t := (Forall (fun c : Z => c <> 0) t).

Lemma hm_bind {A B} (m : HM A) (f : A -> HM B) s Q :
  post (m s) (fun '(a, s') => post (f a s') Q) -> post ((m ≫= f) s) Q.
Proof using. unfold mbind, HM_bind. by destruct (m s) as [[a s']| |]. Qed.
Lemma hm_step {A B} (m : HM A) (f : A -> HM B) s a s' Q : m s = Done (a, s') -> post (f a s') Q -> post ((m ≫= f) s) Q.
Proof using. unfold mbind, HM_bind. by intros ->. Qed.

Lemma malloc_run s : exists s', HAL_Malloc s = Done (true, s') /\ net_of s' = net_of s /\ live s' = live s + 1 /\ keeps (dev s) (dev s').
Proof using memory.
  unfold HAL_Malloc, mbind, HM_bind, run. pose proof (memory (dev s)) as Hm. pose proof (alloc_quiet (dev s)) as Hq.
  assert (keeps (dev s) (alloc_ok (dev s)).2) as Hk by (intros P HP; apply (eager_alloc P HP)).
  destruct (alloc_ok (dev s)) as [b w]. cbn in *. subst b. by eexists.
Qed.
Lemma with_block_post {A} (failure : A) (body : HM A) s Q :
  (forall s1, net_of s1 = net_of s -> live s1 = live s + 1 -> keeps (dev s) (dev s1) -> post (body s1) (fun '(a, s2) => Q (a, mkHSt (dev s2) (live s2 - 1)))) ->
  post (with_block failure body s) Q.
Proof using memory.
  intros Hb. unfold with_block. destruct (malloc_run s) as (s1 & E & Hn & Hl & Hk). eapply hm_step; [exact E|]. cbv beta iota.
  apply hm_bind. eapply post_mono; [by apply Hb|]. intros [a s2] HQ. exact HQ.
Qed.

Lemma string_run t junk (s : @HSt W) : text t -> str (t ++ 0 :: junk) s = Done (t, s).
Proof using. intros Ht. unfold str. by rewrite cstr_text. Qed.
Lemma printed_run size t (s : @HSt W) : 0 < size -> exists junk, printed size t s = Done (take (Z.to_nat (size - 1)) t ++ 0 :: junk, s).
Proof using.
  intros Hs. unfold printed. destruct (snprintf_block (replicate (Z.to_nat size) 0) size t) as (junk & -> & _); [done|left|].
  - rewrite length_replicate. lia.
  - by exists junk.
Qed.
(** A text printed and taken for a string again. *)
Lemma printed_str {B} size t (f : bytes -> HM B) s Q : 0 < size -> text t ->
  post (f (take (Z.to_nat (size - 1)) t) s) Q -> post ((buf ← printed size t; str buf ≫= f) s) Q.
Proof using.
  intros Hs Ht Hf. destruct (printed_run size t s Hs) as [junk E]. eapply hm_step; [exact E|]. cbv beta.
  eapply hm_step; [apply string_run; by apply Forall_take|exact Hf].
Qed.

(** The digest text that goes into the header. *)
Definition mac_text (secret body : bytes) : bytes :=
  hex false (if decide (zlen secret > 64) then replicate 32 0 else Fips180.hmac secret body).
Lemma hex_text d : Forall byte d -> text (hex false d) .
Proof using.
  induction 1 as [|a d Ha _ IH]; [constructor|]. unfold hex. cbn [map concat]. apply Forall_app_2; [|exact IH].
  assert (bool_decide (text (hex_pair false a)) = true) as Hp; [|by apply bool_decide_eq_true in Hp].
  revert a Ha. byte_decide.
Qed.
Lemma hmac_shape secret body : zlen (Fips180.hmac secret body) = 32 /\ Forall byte (Fips180.hmac secret body).
Proof using. unfold Fips180.hmac. split; [apply sha256_length|apply sha256_byte]. Qed.
Lemma mac_run body secret junk (s : @HSt W) : Forall byte body -> Forall byte secret -> zlen body < 2 ^ 32 -> text secret ->
  mac_of body (secret ++ 0 :: junk) s = Done (mac_text secret body, s) /\ text (mac_text secret body) /\ zlen (mac_text secret body) = 64.
Proof using.
  intros Hb Hs Hl Ht. unfold mac_of, mbind, HM_bind. rewrite string_run by done. rewrite hmac_run by done. cbn [must mret HM_ret].
  set (m := match if decide (zlen secret > 64) then None else Some (Fips180.hmac secret body) with Some m => m | None => replicate 32 0 end).
  assert (m = if decide (zlen secret > 64) then replicate 32 0 else Fips180.hmac secret body) as Em by (unfold m; by case_decide).
  assert (zlen m = 32 /\ Forall byte m) as [Hm Hbm].
  { rewrite Em. case_decide; [|apply hmac_shape]. split; [done|]. apply Forall_replicate. by split. }
  unfold mac_text. rewrite <- Em. clearbody m. clear Em.
  pose proof (hexbuf_correct false m (replicate 65 0) Hbm) as Hx. rewrite length_replicate, Hm in Hx. rewrite Hx by lia.
  replace (2 * length m)%nat with 64%nat by lia. change (drop 64 (replicate 65 0)) with [0]. split_and!.
  - cbn [must mret HM_ret]. apply string_run. by apply hex_text.
  - by apply hex_text.
  - rewrite hex_len. lia.
Qed.

(** ** What is made of the answer *)

(** The array of the caller: the value, one byte as it was, and a 0. *)
Definition copied (dst value : bytes) : bytes :=
  value ++ take 1 (drop (length value) dst) ++ 0 :: drop (length value + 2) dst.
Lemma copy_run dst value (s : @HSt W) : zlen value + 2 <= zlen dst -> copy_value dst value s = Done (copied dst value, s).
Proof using.
  intros Hl. unfold copy_value, mbind, HM_bind. rewrite write_front by lia. cbn [must mret HM_ret].
  rewrite <- (take_drop 1 (drop (length value) dst)) at 1. rewrite drop_drop.
  assert (zlen (take 1 (drop (length value) dst)) = 1) as H1 by (rewrite length_take, length_drop; lia).
  destruct (drop (length value + 1) dst) as [|x rest] eqn:E.
  { apply (f_equal length) in E. rewrite length_drop in E. cbn in E. lia. }
  rewrite app_assoc, write_at_place by (rewrite length_app; lia). cbn [must mret HM_ret]. rewrite <- app_assoc. unfold copied.
  replace (length value + 2)%nat with ((length value + 1) + 1)%nat by lia. rewrite <- (drop_drop _ 1 (length value + 1)), E. done.
Qed.

(** What the document says of a member: a string, or no name that begins so. *)
Definition answers (n : String.string) (ms : list (bytes * json)) (a : option bytes) : Prop :=
  match a with
  | Some v => value_at [bytes_of n] (JObject ms) = Some (JString v) /\ unambiguous [bytes_of n] (JObject ms) = true /\ v <> []
  | None => Forall (fun m => ~ bytes_of n `prefix_of` m.1) ms
  end.
Lemma json_value_run key d ms a s : stored d (print (JObject ms)) -> well_formed (JObject ms) = true -> component (bytes_of key) ->
  answers key ms a ->
  exists s', json_value key d s = Done (a, s') /\ net_of s' = net_of s /\ live s' = live s + match a with Some _ => 1 | None => 0 end.
Proof using memory.
  intros (junk & Hb & _) Hw Hc Ha. unfold json_value. rewrite Hb.
  assert (exists w', LITE_json_value_of alloc_ok (lit key) (print (JObject ms) ++ 0 :: junk) (dev s) = Ok (a, w')) as [w' E].
  { destruct a as [v|]; cbn [answers] in Ha.
    - destruct Ha as (Hv & Hu & Hne).
      apply (json_lookup_found alloc_ok (JObject ms) junk (dev s) [bytes_of key] (JString v) memory Hw); [done| |done..].
      by constructor.
    - eexists. by apply json_lookup_missing. }
  rewrite E. eexists. split; [reflexivity|]. split; [|done]. cbn [dev].
  apply (json_value_frame (fun w => sockets w = net_of s)) in E; [done| |done]. intros w Ew. by rewrite alloc_quiet.
Qed.
Lemma json_value_any key d t s : stored d t -> text t -> last t <> Some 34 -> text (bytes_of key) ->
  exists a s', json_value key d s = Done (a, s') /\ net_of s' = net_of s /\ live s' = live s + match a with Some _ => 1 | None => 0 end.
Proof using memory.
  intros (junk & Hb & _) Ht Hl Hk. unfold json_value. rewrite Hb.
  destruct (json_lookup_in_bounds alloc_ok t junk (bytes_of key) (dev s) memory Ht Hl Hk) as (a & w' & E & _).
  unfold lit. rewrite E. eexists a, _. split; [reflexivity|]. split; [|done]. cbn [dev].
  apply (json_value_frame (fun w => sockets w = net_of s)) in E; [done| |done]. intros w Ew. by rewrite alloc_quiet.
Qed.

(** ** The exchange *)

Lemma run_post {A} (f : W -> outcome (A * W)) (s : @HSt W) Q :
  post (f (dev s)) (fun '(a, w) => Q (a, mkHSt w (live s))) -> post (run f s) Q.
Proof using. unfold run. by destruct (f (dev s)) as [[a w]| |]. Qed.
Lemma close_run c (s : @HSt W) : exists c' s', close c s = Done (c', s') /\ same_streams (dev s) (dev s') /\ live s' = live s.
Proof using memory.
  unfold close, run. pose proof (close_streams c (dev s)) as Hc. destruct (http_client_close c (dev s)) as [c' w]. by eexists _, _.
Qed.

(** What is behind a request and its answer: everything that came before the
    response stays, and the caller's part is done on the content. *)
Record fits (u : url_parts) (method : HTTP_Request_Method) (h p ty : bytes) : Prop := {
  fits_url : url_ok u;
  fits_body : p <> [];
  fits_method : with_body method;
  fits_line : zlen (request_line method (47 :: u_path u) (u_host u)) < 300;
  fits_type : zlen ty < 280;
  fits_length : zlen (dec (zlen p)) < 100;
  fits_head : zlen (post_head method (47 :: u_path u) (u_host u) h ty (zlen p)) < 1024
}.

Lemma exchange_post {R} h u uj method p ty len t requested released (outs : R) answer s r rest (K : R -> Prop) :
  let head := post_head method (47 :: u_path u) (u_host u) h (bytes_of ty) (zlen p) in
  fits u method h p (bytes_of ty) -> 33 < len ->
  (forall s, exists s', requested s = Done (tt, s') /\ dev s' = dev s /\ live s' = live s - released) ->
  response_ok r -> to_come (net_of s) = response_text r ++ rest ->
  (forall d s1, stored d (take (Z.to_nat (len - 1)) (r_content r)) ->
    post (answer d s1) (fun '(y, s2) => live s2 = live s1 /\ net_of s2 = net_of s1 /\ K y)) ->
  post (exchange rounds fuel ca (new_client h) (url_text u ++ uj) method (new_data len ty p) t requested outs answer s) (fun '((ret, y), s') =>
    exists m k, sent_bytes (net_of s') = sent_bytes (net_of s) ++ take m head ++ take k p /\
      (ret = SUCCESS_RET /\ (0 < m)%nat /\ (0 < k)%nat /\ K y /\ live s' = live s - released /\ eagerly (dev s) (dev s') (head ++ p) \/
       ret <> SUCCESS_RET /\ y = outs /\ (k = O /\ live s' = live s \/ (0 < m)%nat /\ (0 < k)%nat /\ live s' = live s - released))).
Proof using memory.
  intros head [Hu Hne Hm Hl1 Hl2 Hl3 Hl4] Hlen Hreq Hok Hcome Hans. unfold exchange. apply hm_bind, run_post.
  eapply post_mono.
  { apply (common_run rounds (new_client h) u uj 443 ca method (new_data len ty p) t (dev s) h p (bytes_of ty)); done. }
  intros [[rc c1] w1] (m & k & Hs1 & Hi1 & Hrc). apply hm_bind. destruct Hrc as [(-> & Hm0 & Hk0 & Hh & He)|[Hrc ->]].
  2: { rewrite decide_True by auto. cbn [post mret HM_ret].
       destruct (close_run c1 (mkHSt w1 (live s))) as (c2 & s2 & E & [Hs2 _] & Hv2). eapply hm_step; [exact E|]. cbn in Hs2, Hv2 |- *.
       exists m, O. rewrite Hs2, Hv2. split; [exact Hs1|]. right. auto. }
  rewrite decide_False by auto. destruct (Hreq (mkHSt w1 (live s))) as (s2 & E2 & Hd2 & Hv2). cbn [dev live] in Hd2, Hv2.
  eapply hm_step; [exact E2|]. apply hm_bind, run_post. rewrite Hd2.
  pose proof (recv_data_sends rounds fuel c1 t (new_data len ty p) w1) as Hsend.
  assert (zlen (replicate (Z.to_nat len) 0) = len) as Hrl by (rewrite length_replicate; lia).
  pose proof (recv_data_post rounds fuel c1 t (new_data len ty p) _ w1 r rest Hh eq_refl Hrl ltac:(cbn; lia) eq_refl Hok ltac:(by rewrite Hi1)) as Hrecv.
  destruct (http_client_recv_data rounds fuel c1 t (new_data len ty p) w1) as [[[[rc c3] d3] w3]| |]; [|done..].
  cbn [post yields] in *. destruct Hrecv as [[Hrc _]|(-> & Hc3 & Hcont & _)].
  - rewrite decide_True by (destruct Hrc as [->|[->| ->]]; done). cbn [post mret HM_ret].
    destruct (close_run c3 (mkHSt w3 (live s2))) as (c4 & s4 & E4 & [Hs4 _] & Hv4). eapply hm_step; [exact E4|]. cbn in Hs4, Hv4 |- *.
    exists m, k. rewrite Hs4, Hv4, Hsend. split; [exact Hs1|]. right. split; [by destruct Hrc as [->|[->| ->]]|]. auto.
  - rewrite decide_False by auto. apply hm_bind. eapply post_mono; [apply (Hans d3); exact Hcont|].
    intros [y s4] (Hv4 & Hn4 & HK). cbn [post mret HM_ret]. cbn [dev live] in Hv4, Hn4.
    destruct (close_run c3 s4) as (c5 & s5 & E5 & [Hs5 _] & Hv5). eapply hm_step; [exact E5|]. cbn [post mret HM_ret].
    exists m, k. rewrite Hs5, Hn4, Hv5, Hv4. cbn [dev live] in *. rewrite Hsend. split; [exact Hs1|]. left. split_and!; try done; try lia.
    intros P HP Hw. rewrite Hs5, Hn4, Hsend. by apply (He P).
Qed.
End services.

(* ================================================================== *)
(** * What the services promise *)

Lemma head_len method path host h ty n : zlen (post_head method path host h ty n) =
  zlen (request_line method path host) + zlen h + zlen (dec n) + zlen ty + 36.
Proof.
  rewrite post_head_lines, !length_app. change (length (bytes_of "Content-Length: ")) with 16%nat.
  change (length (bytes_of "Content-Type: ")) with 14%nat. cbn [length CRLF]. lia.
Qed.
Lemma print_last ms : last (print (JObject ms)) <> Some 34.
Proof. cbn [print]. change (?a :: ?b ++ [125]) with ((a :: b) ++ [125]). by rewrite last_snoc. Qed.

(** The places the services ask. *)
Definition auth_url : url_parts := mkUrl (bytes_of "https") (bytes_of "http-cn-sh2.iot.ucloud.cn") (bytes_of "auth") [].
Definition place_url : url_parts := mkUrl (bytes_of "https") (bytes_of "file-cn-sh2.iot.ucloud.cn") (bytes_of "api/v1/url") [].
Definition topic_url (topic : bytes) : url_parts :=
  mkUrl (bytes_of "https") (bytes_of "http-cn-sh2.iot.ucloud.cn") (bytes_of "topic/" ++ topic) [].

Lemma no_literal x (s : String.string) : forallb (fun c => negb (bool_decide (c = 0)) && negb (bool_decide (c = x))) (bytes_of s) = true -> no x (bytes_of s).
Proof. apply forallb_all. intros c [Hc Hd]%andb_prop. apply negb_true_iff, bool_decide_eq_false in Hc, Hd. done. Qed.
Lemma url_literals host path : forallb (fun c => negb (bool_decide (c = 0)) && negb (bool_decide (c = 47))) (bytes_of host) = true ->
  forallb (fun c => negb (bool_decide (c = 0)) && negb (bool_decide (c = 35))) (bytes_of host) = true ->
  no 35 path -> zlen (bytes_of host) < 256 -> zlen path < 255 -> url_ok (mkUrl (bytes_of "https") (bytes_of host) path []).
Proof.
  intros H1 H2 H3 H4 H5. split; cbn [u_scheme u_host u_path u_fragment].
  - by apply no_literal.
  - split_and!; [by apply no_literal..|done].
  - done.
  - by left.
Qed.

(** Lengths of texts with literals, and texts without a 0. *)
Ltac text_length :=
  rewrite ?length_app; cbn [length CRLF];
  repeat match goal with
  | |- context [length (q ?s)] => let n := eval vm_compute in (Z.of_nat (length (q s))) in
      lazymatch n with Zpos _ => change (length (q s)) with (Z.to_nat n) end
  | |- context [length (bytes_of ?s)] => let n := eval vm_compute in (Z.of_nat (length (bytes_of s))) in
      lazymatch n with Zpos _ => change (length (bytes_of s)) with (Z.to_nat n) end
  end; try lia.
Ltac free_and_return := eapply hm_step; [reflexivity|]; cbn [post mret HM_ret dev live].
Ltac no_zeros := repeat first [assumption | apply Forall_app_2 | by_eval].

Section promises.
Context {W : Type} `{RtosLaws W} (rounds fuel : nat) (ca : option bytes).
Hypothesis memory : forall w, (alloc_ok w).1 = true.

Local Abbreviation net_of s := (sockets (dev s)).
Local Abbreviation text t := (Forall (fun c : Z => c <> 0) t).

(** A call that sent (parts of) a header and a body: a success means that
    something of both went out, and gives the result; no block is kept. *)
Definition served {R} (head body : bytes) (outs result : R) (s : @HSt W) (ret : Z) (y : R) (s' : @HSt W) : Prop :=
  live s' = live s /\ exists m k, sent_bytes (net_of s') = sent_bytes (net_of s) ++ take m head ++ take k body /\
    (ret = SUCCESS_RET /\ (0 < m)%nat /\ (0 < k)%nat /\ y = result /\ eagerly (dev s) (dev s') (head ++ body) \/
     ret <> SUCCESS_RET /\ y = outs).
Lemma eagerly_inside s s1 w2 out : net_of s1 = net_of s -> keeps (dev s) (dev s1) -> eagerly (dev s1) w2 out ->
  eagerly (dev s) w2 out.
Proof using. intros Hn Hk He P HP Hw. rewrite (He P HP (Hk P HP Hw)). by rewrite Hn. Qed.

Lemma served_inside {R} head body (outs result : R) s s1 ret y s2 : net_of s1 = net_of s -> live s1 = live s + 1 -> keeps (dev s) (dev s1) ->
  served head body outs result s1 ret y s2 -> served head body outs result s ret y (mkHSt (dev s2) (live s2 - 1)).
Proof using.
  intros Hn Hl Hk [Hv (m & k & Hs & Hr)]. split; [cbn [live]; lia|]. exists m, k. cbn [dev]. rewrite Hs, Hn. split; [done|].
  destruct Hr as [(? & ? & ? & ? & He)|?]; [left|by right]. split_and!; [done..|]. by eapply eagerly_inside.
Qed.
Lemma with_block_served {A R} (f : A -> Z * R) failure (m : HttpApi.HM A) head body outs result s :
  (forall s1, net_of s1 = net_of s -> post (m s1) (fun '(a, s2) => served head body outs result s1 (f a).1 (f a).2 s2)) ->
  post (with_block failure m s) (fun '(a, s2) => served head body outs result s (f a).1 (f a).2 s2).
Proof using memory.
  intros Hm. apply with_block_post; [exact memory|]. intros s1 Hn Hl Hk. eapply post_mono; [by apply Hm|].
  intros [a s2] Hs. by eapply served_inside.
Qed.

Lemma exchange_served {R} h u uj method p ty len t (outs result : R) answer s r rest :
  fits u method h p (bytes_of ty) -> 33 < len -> response_ok r -> to_come (net_of s) = response_text r ++ rest ->
  (forall d s1, stored d (take (Z.to_nat (len - 1)) (r_content r)) ->
    post (answer d s1) (fun '(y, s2) => live s2 = live s1 /\ net_of s2 = net_of s1 /\ y = result)) ->
  post (exchange rounds fuel ca (new_client h) (url_text u ++ uj) method (new_data len ty p) t (mret tt) outs answer s)
    (fun '(a, s') => served (post_head method (47 :: u_path u) (u_host u) h (bytes_of ty) (zlen p)) p outs result s a.1 a.2 s').
Proof using memory.
  intros Hf Hl Hok Hcome Hans. eapply post_mono.
  { apply (exchange_post rounds fuel ca memory h u uj method p ty len t (mret tt) 0 outs answer s r rest (fun y => y = result)); try done.
    intros s'. exists s'. split_and!; [done|done|lia]. }
  intros [[ret y] s'] (m & k & Hs & Hcase). cbn [fst snd].
  assert (live s' = live s) as Hv by (destruct Hcase as [(? & ? & ? & ? & -> & _)|(? & ? & [[? ->]|(? & ? & ->)])]; lia).
  split; [done|]. exists m, k. split; [done|]. destruct Hcase as [(-> & ? & ? & -> & _ & ?)|(Hne & -> & _)]; auto 10.
Qed.

Lemma exchange_fits u h p ty : url_ok u -> p <> [] -> zlen (u_host u) + zlen (u_path u) <= 240 -> zlen (bytes_of ty) < 100 ->
  zlen h + zlen (u_host u) + zlen (u_path u) + zlen (bytes_of ty) <= 950 ->
  forall method, with_body method -> fits u method h p (bytes_of ty).
Proof using.
  intros Hu Hp Hl Ht Hh method Hm. pose proof (dec_len (zlen p)).
  assert (zlen (method_name method) <= 4) by (destruct Hm as [-> | ->]; by_eval).
  assert (zlen (request_line method (47 :: u_path u) (u_host u)) = zlen (method_name method) + zlen (u_host u) + zlen (u_path u) + 21) as Hr
    by (unfold request_line; text_length).
  split; try done; rewrite ?head_len, ?Hr; lia.
Qed.

Definition token_result (token : bytes) (a : option bytes) : bytes :=
  match a with Some v => copied token v | None => token end.
Lemma take_token_run d ms token a s : stored d (print (JObject ms)) -> well_formed (JObject ms) = true ->
  answers "Token" ms a -> (forall v, a = Some v -> zlen v + 2 <= zlen token) ->
  post (take_token d token s) (fun '(y, s2) => live s2 = live s /\ net_of s2 = net_of s /\ y = token_result token a).
Proof using memory.
  intros Hd Hw Ha Hfit. unfold take_token.
  destruct (json_value_run memory "Token" d ms a s Hd Hw ltac:(by_eval) Ha) as (s1 & E & Hn & Hv). eapply hm_step; [exact E|].
  destruct a as [v|].
  - eapply hm_step; [by apply copy_run, Hfit|]. free_and_return. split_and!; [lia|done..].
  - destruct (json_value_any memory "Message" d (print (JObject ms)) s1 Hd ltac:(by apply print_nonzero) (print_last ms) ltac:(by_eval))
      as (a & s2 & E2 & Hn2 & Hv2). eapply hm_step; [exact E2|].
    destruct a as [v|]; [free_and_return|cbn [post mret HM_ret]]; rewrite ?Hn2; (split_and!; [lia|done..]).
Qed.

Definition token_head (product device secret : bytes) : bytes :=
  let body := token_body product device in
  post_head HTTP_POST (bytes_of "/auth") (bytes_of "http-cn-sh2.iot.ucloud.cn") (token_own (mac_text secret body) body)
    (bytes_of "application/json") (zlen body).

Lemma get_token_run product device secret j1 j2 j3 token s r rest ms a :
  text product -> text device -> text secret -> Forall byte product -> Forall byte device -> Forall byte secret ->
  zlen product + zlen device <= 600 -> response_ok r -> to_come (net_of s) = response_text r ++ rest ->
  r_content r = print (JObject ms) -> well_formed (JObject ms) = true -> zlen (r_content r) <= 1023 ->
  answers "Token" ms a -> (forall v, a = Some v -> zlen v + 2 <= zlen token) ->
  post (IOT_HTTP_Get_Token rounds fuel ca (product ++ 0 :: j1) (device ++ 0 :: j2) (secret ++ 0 :: j3) token s)
    (fun '(a', s') => served (token_head product device secret) (token_body product device) token (token_result token a) s a'.1 a'.2 s').
Proof using memory.
  intros Ht1 Ht2 Ht3 Hb1 Hb2 Hb3 Hlen Hok Hcome Hc Hw Hcl Ha Hfit. unfold IOT_HTTP_Get_Token.
  do 4 (apply (with_block_served (fun a => a)); intros ? ?).
  do 2 (eapply hm_step; [by apply string_run|]; cbv beta). unfold token_head. rewrite <- token_body_spec. set (body := token_request product device).
  assert (text body) as Htb by (unfold body, token_request; no_zeros).
  assert (Forall byte body) as Hbb by (unfold body, token_request; no_zeros).
  assert (zlen body <= 700 /\ 0 < zlen body) as [Hbl Hb0] by (unfold body, token_request; text_length).
  apply printed_str; [done|done|]. rewrite take_ge by lia.
  destruct (mac_run body secret j3 s3 Hbb Hb3 ltac:(lia) Ht3) as (E & Htm & Hlm). eapply hm_step; [exact E|]. cbv beta zeta.
  apply (with_block_served (fun a => a)). intros s4 ?. set (mac := mac_text secret body) in *.
  assert (text (token_header mac body)) as Hth by (unfold token_header; no_zeros).
  assert (zlen (token_header mac body) <= 850) as Hhl by (unfold token_header; text_length).
  apply printed_str; [done|done|]. rewrite take_ge by lia. cbv zeta.
  change (lit "https://http-cn-sh2.iot.ucloud.cn/auth") with (url_text auth_url ++ []).
  change (token_own mac body) with (token_header mac body).
  apply (exchange_served (token_header mac body) auth_url [] HTTP_POST body "application/json" 1024 5000 token _ _ s4 r rest); [|done|done|congruence|].
  - apply exchange_fits; [by apply url_literals; [..|apply no_literal| |]|by destruct body|by_eval|by_eval| |by left].
    assert (zlen (u_host auth_url) + zlen (u_path auth_url) + zlen (bytes_of "application/json") <= 60) by by_eval. lia.
  - intros d s1' Hst. rewrite take_ge, Hc in Hst by lia. by apply (take_token_run d ms).
Qed.

(** The second value is looked for only when there is the first. *)
Definition place_result (authorization put_url : bytes) (a b : option bytes) : bytes * bytes :=
  (token_result authorization a, match a with Some _ => token_result put_url b | None => put_url end).
Lemma take_auth_run d ms authorization put_url a b s : stored d (print (JObject ms)) -> well_formed (JObject ms) = true ->
  answers "Authorization" ms a -> answers "URL" ms b -> (forall v, a = Some v -> zlen v + 2 <= zlen authorization) ->
  (forall v, b = Some v -> zlen v + 2 <= zlen put_url) ->
  post (take_auth d authorization put_url s) (fun '(y, s2) => live s2 = live s /\ net_of s2 = net_of s /\
    y = place_result authorization put_url a b).
Proof using memory.
  intros Hd Hw Ha Hb Hfa Hfb. unfold take_auth.
  destruct (json_value_run memory "Authorization" d ms a s Hd Hw ltac:(by_eval) Ha) as (s1 & E & Hn & Hv). eapply hm_step; [exact E|].
  destruct a as [v|]; [|cbn [post mret HM_ret]; split_and!; [lia|done..]].
  eapply hm_step; [by apply copy_run, Hfa|]. eapply hm_step; [reflexivity|].
  destruct (json_value_run memory "URL" d ms b (mkHSt (dev s1) (live s1 + -1)) Hd Hw ltac:(by_eval) Hb) as (s2 & E2 & Hn2 & Hv2).
  eapply hm_step; [exact E2|]. cbn [dev live] in *. destruct b as [v2|].
  - eapply hm_step; [by apply copy_run, Hfb|]. free_and_return. split_and!; [lia|congruence|done].
  - cbn [post mret HM_ret]. split_and!; [lia|congruence|done].
Qed.

Definition place_head (product device secret file : bytes) (len : Z) (md5 : bytes) : bytes :=
  let body := place_body product device file len md5 in
  post_head HTTP_POST (bytes_of "/api/v1/url") (bytes_of "file-cn-sh2.iot.ucloud.cn") (place_own (mac_text secret body))
    (bytes_of "application/json") (zlen body).

Lemma dec_text n : text (dec n) /\ Forall byte (dec n).
Proof using.
  assert (forall f n, Forall (fun c => 48 <= c <= 57) (dec_digits f n)) as Hd.
  { induction f as [|f IH]; intros m; [constructor|]. cbn [dec_digits]. apply Forall_app_2; [by case_decide; [constructor|]|].
    constructor; [|constructor]. pose proof (Z.mod_pos_bound m 10 ltac:(lia)). lia. }
  unfold dec. case_decide; split; repeat (constructor; [unfold byte; lia|]); eapply Forall_impl; try apply Hd; unfold byte; cbn; lia.
Qed.

Lemma get_place_run product device secret file md5 j1 j2 j3 j4 j5 buf len authorization put_url s r rest ms a b :
  text product -> text device -> text secret -> text file -> text md5 ->
  Forall byte product -> Forall byte device -> Forall byte secret -> Forall byte file -> Forall byte md5 ->
  zlen product + zlen device + zlen file + zlen md5 <= 800 -> response_ok r -> to_come (net_of s) = response_text r ++ rest ->
  r_content r = print (JObject ms) -> well_formed (JObject ms) = true -> zlen (r_content r) <= 1023 ->
  answers "Authorization" ms a -> answers "URL" ms b -> (forall v, a = Some v -> zlen v + 2 <= zlen authorization) ->
  (forall v, b = Some v -> zlen v + 2 <= zlen put_url) ->
  post (IOT_GET_URL_AND_AUTH rounds fuel ca (product ++ 0 :: j1) (device ++ 0 :: j2) (secret ++ 0 :: j3) (file ++ 0 :: j4) buf len
      (md5 ++ 0 :: j5) authorization put_url s)
    (fun '(a', s') => served (place_head product device secret file len md5) (place_body product device file len md5)
       (authorization, put_url) (place_result authorization put_url a b) s a'.1 a'.2 s').
Proof using memory.
  intros Ht1 Ht2 Ht3 Ht4 Ht5 Hb1 Hb2 Hb3 Hb4 Hb5 Hlen Hok Hcome Hc Hw Hcl Ha Hb Hfa Hfb. unfold IOT_GET_URL_AND_AUTH.
  do 4 (apply (with_block_served (fun a => a)); intros ? ?).
  do 4 (eapply hm_step; [by apply string_run|]; cbv beta). unfold place_head. rewrite <- place_body_spec. set (body := url_request product device file len md5).
  destruct (dec_text (s32 len)) as [Hdt Hdb]. pose proof (dec_len (s32 len)) as Hdl.
  assert (text body) as Htb by (unfold body, url_request; no_zeros).
  assert (Forall byte body) as Hbb by (unfold body, url_request; no_zeros).
  assert (zlen body <= 1000 /\ 0 < zlen body) as [Hbl Hb0] by (unfold body, url_request; text_length).
  apply printed_str; [done|done|]. rewrite take_ge by lia.
  destruct (mac_run body secret j3 s3 Hbb Hb3 ltac:(lia) Ht3) as (E & Htm & Hlm). eapply hm_step; [exact E|]. cbv beta zeta.
  apply (with_block_served (fun a => a)). intros s4 ?. set (mac := mac_text secret body) in *.
  assert (text (url_header mac)) as Hth by (unfold url_header; no_zeros).
  assert (zlen (url_header mac) <= 200) as Hhl by (unfold url_header; text_length).
  apply printed_str; [done|done|]. rewrite take_ge by lia. cbv zeta.
  change (lit "https://file-cn-sh2.iot.ucloud.cn/api/v1/url") with (url_text place_url ++ []).
  change (place_own mac) with (url_header mac).
  apply (exchange_served (url_header mac) place_url [] HTTP_POST body "application/json" 1024 5000 (authorization, put_url) _ _ s4 r rest);
    [|done|done|congruence|].
  - apply exchange_fits; [by apply url_literals; [..|apply no_literal| |]|by destruct body|by_eval|by_eval| |by left].
    assert (zlen (u_host place_url) + zlen (u_path place_url) + zlen (bytes_of "application/json") <= 60) by by_eval. lia.
  - intros d s1' Hst. rewrite take_ge, Hc in Hst by lia. by apply (take_auth_run d ms).
Qed.

(** Publishing: the block of the URL stays in use when the request failed. *)
Definition publish_head (token topic data : bytes) : bytes :=
  post_head HTTP_POST (bytes_of "/topic/" ++ topic) (bytes_of "http-cn-sh2.iot.ucloud.cn") (publish_header token data)
    (bytes_of "application/octet-stream") (zlen data).
Definition published (token topic data : bytes) (s : @HSt W) (ret : Z) (s' : @HSt W) : Prop :=
  exists m k, sent_bytes (net_of s') = sent_bytes (net_of s) ++ take m (publish_head token topic data) ++ take k data /\
    (ret = SUCCESS_RET /\ (0 < m)%nat /\ (0 < k)%nat /\ live s' = live s /\ eagerly (dev s) (dev s') (publish_head token topic data ++ data) \/
     ret <> SUCCESS_RET /\ (k = O /\ live s' = live s + 1 \/ (0 < m)%nat /\ (0 < k)%nat /\ live s' = live s)).
Lemma published_inside token topic data s s1 ret s2 : net_of s1 = net_of s -> live s1 = live s + 1 -> keeps (dev s) (dev s1) ->
  published token topic data s1 ret s2 -> published token topic data s ret (mkHSt (dev s2) (live s2 - 1)).
Proof using.
  intros Hn Hl Hk (m & k & Hs & Hr). exists m, k. cbn [dev live]. rewrite Hs, Hn. split; [done|].
  destruct Hr as [(? & ? & ? & -> & He)|[? [[? ->]|(? & ? & ->)]]]; [left|right..].
  - split_and!; [done..|lia|by eapply eagerly_inside].
  - split; [done|]. left. split; [done|lia].
  - split; [done|]. right. split_and!; [done..|lia].
Qed.
Lemma block_published token topic data m s :
  (forall s1, net_of s1 = net_of s -> post (m s1) (fun '(ret, s2) => published token topic data s1 ret s2)) ->
  post (with_block FAILURE_RET m s) (fun '(ret, s2) => published token topic data s ret s2).
Proof using memory.
  intros Hm. apply with_block_post; [exact memory|]. intros s1 Hn Hl Hk. eapply post_mono; [by apply Hm|].
  intros [a s2] Hs. by eapply published_inside.
Qed.

Lemma take_message_run d t s : stored d t -> text t -> last t <> Some 34 ->
  post (take_message d s) (fun '(y, s2) => live s2 = live s /\ net_of s2 = net_of s /\ y = tt).
Proof using memory.
  intros Hd Ht Hl. unfold take_message.
  destruct (json_value_any memory "Message" d t s Hd Ht Hl ltac:(by_eval)) as (a & s1 & E & Hn & Hv).
  eapply hm_step; [exact E|]. destruct a as [v|]; cbn [post mret HM_ret HAL_Free count dev live]; (split_and!; [lia|done..]).
Qed.
Lemma url_of_topic topic junk : (bytes_of "https://http-cn-sh2.iot.ucloud.cn/topic/" ++ topic) ++ 0 :: junk = url_text (topic_url topic) ++ junk.
Proof using.
  change (bytes_of "https://http-cn-sh2.iot.ucloud.cn/topic/")
    with (bytes_of "https" ++ bytes_of "://" ++ bytes_of "http-cn-sh2.iot.ucloud.cn" ++ (47 :: bytes_of "topic/")).
  unfold url_text, topic_url. cbn [u_scheme u_host u_path u_fragment]. rewrite <- !app_assoc. cbn [app]. by rewrite <- !app_assoc.
Qed.

Lemma http_publish_run token topic data j1 j2 j3 t s r rest :
  text token -> text data -> data <> [] -> no 35 topic -> zlen topic <= 150 -> zlen token + zlen data <= 550 ->
  response_ok r -> to_come (net_of s) = response_text r ++ rest -> text (r_content r) -> last (r_content r) <> Some 34 ->
  zlen (r_content r) <= 1023 ->
  post (IOT_HTTP_Publish rounds fuel ca (token ++ 0 :: j1) (topic ++ 0 :: j2) (data ++ 0 :: j3) t s)
    (fun '(ret, s') => published token topic data s ret s').
Proof using memory.
  intros Ht1 Ht2 Hne Hno Hl1 Hl2 Hok Hcome Hct Hcl Hclen. unfold IOT_HTTP_Publish.
  assert (text topic) as Ht3 by (eapply Forall_impl; [exact Hno|]; by intros ? []).
  do 4 (apply block_published; intros ? ?).
  eapply hm_step; [by apply string_run|]. apply printed_str; [done|done|]. rewrite take_ge by lia.
  apply block_published. intros s4 ?. eapply hm_step; [by apply string_run|].
  assert (text (publish_header token data)) as Hth by (unfold publish_header; no_zeros).
  assert (zlen (publish_header token data) <= 650) as Hhl by (unfold publish_header; text_length).
  apply printed_str; [done|done|]. rewrite take_ge by lia. cbv zeta.
  destruct (malloc_run memory s4) as (s5 & E5 & Hn5 & Hv5 & Hk5). eapply hm_step; [exact E5|]. cbv beta iota.
  eapply hm_step; [by apply string_run|]. cbv beta.
  destruct (printed_run 256 (bytes_of "https://http-cn-sh2.iot.ucloud.cn/topic/" ++ topic) s5 ltac:(done)) as [junk E6].
  eapply hm_step; [exact E6|]. cbv beta. rewrite take_ge by text_length. rewrite url_of_topic. apply hm_bind.
  eapply post_mono.
  { apply (exchange_post rounds fuel ca memory (publish_header token data) (topic_url topic) junk HTTP_POST data "application/octet-stream"
      1024 5000 HAL_Free 1 tt take_message s5 r rest (fun y => y = tt)).
    - apply exchange_fits; [|done|cbn [topic_url u_host u_path]; text_length|by_eval|cbn [topic_url u_host u_path]; text_length|by left].
      apply url_literals; [done|done| |by_eval|text_length]. apply Forall_app_2; [by apply no_literal|exact Hno].
    - done.
    - intros s'. by eexists.
    - done.
    - congruence.
    - intros d s1' Hst. rewrite take_ge in Hst by lia. by apply (take_message_run d (r_content r)). }
  intros [[ret y] s'] (m & k & Hs & Hcase). cbn [post mret HM_ret]. exists m, k.
  split; [by rewrite Hs, Hn5|]. destruct Hcase as [(-> & ? & ? & _ & Hv & He)|(Hr & _ & [[-> Hv]|(? & ? & Hv)])]; [left|right..].
  - split_and!; [done..|lia|]. intros P HP Hw. rewrite (He P HP (Hk5 P HP Hw)). by rewrite Hn5.
  - split; [done|]. left. split; [done|lia].
  - split; [done|]. right. split_and!; [done..|lia].
Qed.

(** Uploading: the bytes up to the first 0, and zeros up to the length. *)
Definition upload_body (t : bytes) (len : Z) : bytes := take (Z.to_nat len) (t ++ replicate (Z.to_nat len) 0).
Definition upload_head (u : url_parts) (authorization md5 body : bytes) : bytes :=
  post_head HTTP_PUT (47 :: u_path u) (u_host u) (upload_header authorization md5) (bytes_of "plain/text") (zlen body).

Lemma strncpy_run n : forall t more, text t -> ((exists m, more = 0 :: m) \/ (n <= length t)%nat) ->
  strncpy_loop n (t ++ more) = Ok (take n (t ++ replicate n 0)).
Proof using.
  induction n as [|n IH]; intros t more Ht Hm; [done|]. destruct t as [|c t].
  - destruct Hm as [[m ->]|Hm]; [|cbn in Hm; lia]. cbn [app strncpy_loop]. rewrite decide_True by done.
    by rewrite take_ge by (rewrite length_replicate; lia).
  - apply Forall_cons in Ht as [Hc Ht]. cbn [app strncpy_loop]. rewrite decide_False by done.
    rewrite IH; [|done|destruct Hm as [?|Hm]; [by left|right; cbn in Hm; lia]]. cbn [mbind res_bind take]. do 2 f_equal.
    change (S n) with (1 + n)%nat. rewrite Nat.add_comm, replicate_add, app_assoc.
    by rewrite (take_app_le _ (replicate 1 0)) by (rewrite length_app, length_replicate; lia).
Qed.
Lemma upload_body_len t len : 0 <= len -> zlen (upload_body t len) = len.
Proof using. intros Hl. unfold upload_body. rewrite length_take, length_app, length_replicate. lia. Qed.

Lemma upload_run file md5 authorization j1 j2 t more len u uj tmo s r rest :
  text md5 -> text authorization -> text t -> ((exists m, more = 0 :: m) \/ len <= zlen t) -> 0 < len < 2147483648 ->
  url_ok u -> zlen (u_host u) + zlen (u_path u) <= 240 -> zlen md5 + zlen authorization <= 550 ->
  response_ok r -> to_come (net_of s) = response_text r ++ rest ->
  post (IOT_HTTP_UPLOAD_FILE rounds fuel ca file (t ++ more) len (md5 ++ 0 :: j1) (authorization ++ 0 :: j2) (url_text u ++ uj) tmo s)
    (fun '(ret, s') => let body := upload_body t len in served (upload_head u authorization md5 body) body tt tt s ret tt s').
Proof using memory.
  intros Ht1 Ht2 Ht3 Hm Hlen Hu Hul Hl Hok Hcome. unfold IOT_HTTP_UPLOAD_FILE.
  apply (with_block_served (fun ret => (ret, tt))). intros s0 ?. apply (with_block_served (fun ret => (ret, tt))). intros s1 ?. cbn [fst snd].
  destruct (malloc_run memory s1) as (s2 & E2 & Hn2 & Hv2 & Hk2). eapply hm_step; [exact E2|]. cbv beta iota.
  destruct (malloc_run memory s2) as (s3 & E3 & Hn3 & Hv3 & Hk3). eapply hm_step; [exact E3|]. cbv beta iota.
  do 2 (eapply hm_step; [by apply string_run|]; cbv beta).
  assert (text (upload_header authorization md5)) as Hth by (unfold upload_header; no_zeros).
  assert (zlen (upload_header authorization md5) <= 620) as Hhl by (unfold upload_header; text_length).
  apply printed_str; [done|done|]. rewrite take_ge by lia. apply hm_bind.
  set (body := upload_body t len). assert (zlen body = len) as Hbl by (apply upload_body_len; lia).
  eapply post_mono.
  { apply (with_block_served (fun ret => (ret, tt)) _ _ (upload_head u authorization md5 body) body tt tt). intros s4 Hn4. cbn [fst snd].
    rewrite (u32_small (len + 1)) by lia.
    rewrite (strncpy_run (Z.to_nat len) t more Ht3) by (destruct Hm as [?|?]; [by left|right; lia]). fold (upload_body t len). fold body.
    assert (write_at (replicate (Z.to_nat (len + 1)) 0) 0 body = Ok (body ++ [0])) as Ew.
    { rewrite write_front by (rewrite length_replicate; lia). rewrite drop_replicate. by replace (Z.to_nat (len + 1) - length body)%nat with 1%nat by lia. }
    eapply hm_step; [reflexivity|]. cbv beta. rewrite Ew. eapply hm_step; [reflexivity|]. cbv beta.
    rewrite (write_at_place body 0 [] len 0) by lia. eapply hm_step; [reflexivity|]. cbv beta zeta.
    rewrite take_app_length' by lia. apply hm_bind. eapply post_mono.
    - apply (exchange_served (upload_header authorization md5) u uj HTTP_PUT body "plain/text" 512 tmo tt tt _ s4 r rest);
        [|done|done|congruence|intros d s5 _; done].
      apply exchange_fits; [done|intros ->; cbn in Hbl; lia|done|by_eval| |by right].
      assert (zlen (bytes_of "plain/text") <= 10) by by_eval. lia.
    - intros [[ret []] s5] Hs5. exact Hs5. }
  intros [ret s4] Hs4. cbn [fst snd] in Hs4. cbn [post mbind HM_bind HAL_Free count mret HM_ret dev live].
  destruct Hs4 as [Hv4 (m & k & Hs & Hr)]. split; [cbn [live]; lia|]. exists m, k. cbn [dev]. rewrite Hs.
  assert (net_of s3 = net_of s1) as En by congruence. rewrite En. split; [done|].
  destruct Hr as [(? & ? & ? & ? & He)|?]; [left|by right]. split_and!; [done..|].
  apply (eagerly_inside s1 s3); [done|by eapply keeps_trans|done].
Qed.
End promises.

(** The digest of a file, as it goes with an upload. *)
Fixpoint pieces (fuel : nat) (file : bytes) : list bytes :=
  match fuel with
  | O => []
  | S fuel => if decide (take 1024 file = []) then [] else take 1024 file :: pieces fuel (drop 1024 file)
  end.
Lemma pieces_concat fuel : forall file, (length file < fuel)%nat -> concat (pieces fuel file) = file.
Proof.
  induction fuel as [|fuel IH]; intros file Hf; [lia|]. cbn [pieces]. destruct file as [|c file]; [done|].
  rewrite decide_False by done. cbn [concat]. rewrite IH by (rewrite length_drop; cbn [length] in *; lia). by rewrite take_drop.
Qed.
Lemma pieces_small fuel : forall file, Forall (fun c => zlen c < 2 ^ 32) (pieces fuel file).
Proof.
  induction fuel as [|fuel IH]; intros file; [constructor|]. cbn [pieces]. case_decide; constructor; [|apply IH].
  rewrite length_take. lia.
Qed.
Lemma pieces_bytes fuel : forall file, Forall byte file -> Forall (Forall byte) (pieces fuel file).
Proof.
  induction fuel as [|fuel IH]; intros file Hb; [constructor|]. cbn [pieces].
  case_decide; constructor; [by apply Forall_take|apply IH; by apply Forall_drop].
Qed.
Lemma file_loop_pieces fuel : forall ctx file, (length file < fuel)%nat ->
  file_loop fuel ctx file = update_all utils_md5_process ctx (pieces fuel file).
Proof.
  induction fuel as [|fuel IH]; intros ctx file Hf; [lia|]. cbn [file_loop pieces]. case_decide as Hd; [done|]. cbn [update_all].
  unfold utils_md5_update. destruct (update _ ctx _) as [c|e|]; [|done..]. cbn [mbind res_bind]. apply IH. rewrite length_drop.
  destruct file; [done|]. cbn [length] in *. lia.
Qed.
Lemma file_md5_run file : Forall byte file -> zlen file + 72 < 2 ^ 61 ->
  http_client_file_md5 true (Some file) = Ok (Some (Digest.hex (Rfc1321.md5 file)), 0).
Proof.
  intros Hb Hl. unfold http_client_file_md5. rewrite file_loop_pieces by lia. set (ps := pieces _ file).
  assert (concat ps = file) as Hc by (apply pieces_concat; lia).
  destruct (md5_run ps) as (ctx & -> & _ & E); [by apply pieces_bytes|apply pieces_small|by rewrite Hc|].
  cbn [mbind res_bind]. rewrite E, Hc. done.
Qed.
Lemma buffer_md5_run buf : Forall byte buf -> zlen buf < 2 ^ 32 -> http_client_buffer_md5 buf = Ok (Digest.hex (Rfc1321.md5 buf)).
Proof.
  intros Hb Hl. destruct (md5_run [buf]) as (ctx & Hu & _ & E); [by repeat constructor|by repeat constructor|cbn [concat]; rewrite app_nil_r; lia|].
  cbn [update_all concat] in Hu, E. rewrite app_nil_r in E. unfold http_client_buffer_md5, utils_md5_update.
  destruct (update _ _ buf) as [c|e|]; [|done..]. cbn [mbind res_bind] in Hu |- *. injection Hu as ->. exact E.
Qed.

(** A text as the application gives it. *)
Definition ctext (t : bytes) : Prop := Forall (fun c => c <> 0) t /\ Forall byte t.


(** C31: with memory and a server that answers, whatever the network does:
    [IOT_HTTP_Publish] sends a POST request with the data to the path of the
    topic, with the token for a password, and keeps one block when the request
    did not go out; [IOT_HTTP_UPLOAD_FILE] sends a PUT request with the
    authorization and the digest to the URL; its body has the length of the
    file, but its bytes only up to the first 0, and zeros from there on.
    Success means that something of the header and of the body went out, and
    exactly both in a network that takes whatever it is given.  The digest for an upload, of a buffer below 4 GiB or of a file, is the MD5 of
    all its bytes, also of those that the upload loses; of a file that cannot
    be opened no digest is written, and the buffer stays in use. *)
Theorem http_transfer_correct {W} `{RtosLaws W} rounds fuel ca s r rest :
  (forall w, (alloc_ok w).1 = true) -> response_ok r -> to_come (sockets (dev s)) = response_text r ++ rest ->
  (forall token topic data j1 j2 j3 t, ctext token -> ctext data -> data <> [] -> no 35 topic ->
    zlen topic <= 150 -> zlen token + zlen data <= 550 ->
    Forall (fun c => c <> 0) (r_content r) -> last (r_content r) <> Some 34 -> zlen (r_content r) <= 1023 ->
    post (IOT_HTTP_Publish rounds fuel ca (token ++ 0 :: j1) (topic ++ 0 :: j2) (data ++ 0 :: j3) t s)
      (fun '(ret, s') => published token topic data s ret s')) /\
  (forall file md5 authorization j1 j2 t more len u uj tmo, ctext md5 -> ctext authorization -> ctext t ->
    (exists m, more = 0 :: m) \/ len <= zlen t -> 0 < len < 2147483648 ->
    url_ok u -> zlen (u_host u) + zlen (u_path u) <= 240 -> zlen md5 + zlen authorization <= 550 ->
    let body := upload_body t len in
    post (IOT_HTTP_UPLOAD_FILE rounds fuel ca file (t ++ more) len (md5 ++ 0 :: j1) (authorization ++ 0 :: j2) (url_text u ++ uj) tmo s)
      (fun '(ret, s') => served (upload_head u authorization md5 body) body tt tt s ret tt s')) /\
  (forall file, Forall byte file ->
    (zlen file < 2 ^ 32 -> http_client_buffer_md5 file = Ok (Digest.hex (Rfc1321.md5 file))) /\
    (zlen file + 72 < 2 ^ 61 -> http_client_file_md5 true (Some file) = Ok (Some (Digest.hex (Rfc1321.md5 file)), 0))) /\
  http_client_file_md5 true None = Ok (None, 1).
Proof.
  intros Hm Hok Hcome. split_and!.
  - intros token topic data j1 j2 j3 t [? ?] [? ?] ???????. by apply (http_publish_run rounds fuel ca Hm) with (r := r) (rest := rest).
  - intros file md5 authorization j1 j2 t more len u uj tmo [? ?] [? ?] [? ?] ?????.
    by apply (upload_run rounds fuel ca Hm) with (r := r) (rest := rest).
  - intros file Hb. split; [by apply buffer_md5_run|by apply file_md5_run].
  - done.
Qed.

(* ================================================================== *)
(** * A server *)

Definition answer_of (content : bytes) : response :=
  mkResponse (bytes_of "HTTP/1.1 ") 200 (bytes_of " OK") (bytes_of "Server: x" ++ CRLF) [] content.
(** The device at the start, with all of the answer on its way. *)
Definition http_start (inbox : bytes) : @HSt TcpWorld := mkHSt (mkTcp 1000 inbox 50 [] ∅ 3 false) 0.
Definition token_doc : list (bytes * json) := [(bytes_of "RetCode", JNumber [48]); (bytes_of "Token", JString (bytes_of "abc"))].
Definition token_answer : response := answer_of (print (JObject token_doc)).
Lemma token_answer_ok : response_ok token_answer.
Proof. split; try (apply free_by_eval; vm_compute; reflexivity); try by_eval; vm_compute; done. Qed.

(** A run and what can be seen of it. *)
Definition seen {A} (o : outcome (A * @HSt TcpWorld)) : option (A * Z * bytes) :=
  match o with Done (a, s) => Some (a, live s, t_sent (dev s)) | _ => None end.
Lemma seen_done {A} (o : outcome (A * HSt)) v l out : seen o = Some (v, l, out) -> exists s, o = Done (v, s).
Proof. destruct o as [[a s]| |]; [|done..]. intros [= -> _ _]. by exists s. Qed.
Local Abbreviation get_token0 :=
  (IOT_HTTP_Get_Token 1000 50 None (bytes_of "product" ++ [0]) (bytes_of "device" ++ [0]) (bytes_of "secret" ++ [0]) (replicate 8 120) (http_start (response_text token_answer))).
Lemma get_token0_run : seen get_token0 = Some ((0, bytes_of "abcx" ++ 0 :: replicate 3 120), 0,
  token_head (bytes_of "product") (bytes_of "device") (bytes_of "secret") ++ token_body (bytes_of "product") (bytes_of "device")).
Proof. vm_compute. reflexivity. Qed.


Local Abbreviation upload0 :=
  (IOT_HTTP_UPLOAD_FILE 1000 50 None [] (bytes_of "ab" ++ 0 :: bytes_of "cd") 5 (bytes_of "m" ++ [0]) (bytes_of "k" ++ [0]) (url_text u0 ++ []) 100
    (http_start (response_text token_answer))).
Lemma upload0_run : seen upload0 = Some (0, 0, upload_head u0 (bytes_of "k") (bytes_of "m") (upload_body (bytes_of "ab") 5) ++ bytes_of "ab" ++ [0; 0; 0]).
Proof. vm_compute. reflexivity. Qed.

Lemma http_transfer_correct_witness :
  exists s', upload0 = Done (0, s') /\
    served (upload_head u0 (bytes_of "k") (bytes_of "m") (bytes_of "ab" ++ [0; 0; 0])) (bytes_of "ab" ++ [0; 0; 0]) tt tt
      (http_start (response_text token_answer)) 0 tt s'.
Proof.
  destruct (seen_done _ _ _ _ upload0_run) as [s' E]. exists s'. split; [exact E|].
  destruct (http_transfer_correct 1000 50 None (http_start (response_text token_answer)) token_answer []) as (_ & Hupload & _);
    [done|exact token_answer_ok|by_eval|].
  specialize (Hupload [] (bytes_of "m") (bytes_of "k") [] [] (bytes_of "ab") (0 :: bytes_of "cd") 5 u0 [] 100
    ltac:(split; by_eval) ltac:(split; by_eval) ltac:(split; by_eval) ltac:(left; by eexists) ltac:(lia) u0_ok ltac:(by_eval) ltac:(by_eval)).
  rewrite E in Hupload. exact Hupload.
Defined.
