(* ===== verification/HttpApiSafe.v ===== *)
(** The HTTP services when something is missing: the blocks of memory they
    keep, allocations that fail, arrays that are too short, and texts that are
    too long. *)

From S2P Require Import Prelude Defs HalTimer Json CLib JsonConv Digest Sha2 StringUtils MqttWire MqttState HalTcp Httpc HttpApi HttpApiSpec.

(* ================================================================== *)
(** * The account of the blocks *)

Section account.
Context {W : Type} `{Rtos W} (rounds fuel : nat) (ca : option bytes).

(** How many blocks a computation takes and does not give back, for each of
    its results. *)
Definition keeps {A} (P : A -> Z -> Prop) (m : @HM W A) : Prop :=
  forall s r s', m s = Done (r, s') -> P r (live s' - live s).
Definition nothing {A} (a : A) (d : Z) : Prop := d = 0.

Lemma account_ret {A} P (a : A) : P a 0 -> keeps P (mret a).
Proof. intros HP s r s' [= <- <-]. by rewrite Z.sub_diag. Qed.
Lemma account_bind {A B} P Q (m : HM A) (f : A -> HM B) :
  keeps P m -> (forall a d, P a d -> keeps (fun b e => Q b (d + e)) (f a)) -> keeps Q (m ≫= f).
Proof.
  intros Hm Hf s r s' E. unfold mbind, HM_bind in E. destruct (m s) as [[a s1]| |] eqn:Em; [|done..].
  apply Hm in Em. apply (Hf a _ Em) in E. by replace (live s' - live s) with (live s1 - live s + (live s' - live s1)) by lia.
Qed.
Lemma keeps_mono {A} (P Q : A -> Z -> Prop) m : keeps P m -> (forall a d, P a d -> Q a d) -> keeps Q m.
Proof. intros Hm HQ s r s' E. by apply HQ, Hm. Qed.
(** What keeps nothing is no matter to what follows. *)
Lemma keeps_then {A B} Q (m : HM A) (f : A -> HM B) : keeps nothing m -> (forall a, keeps Q (f a)) -> keeps Q (m ≫= f).
Proof.
  intros Hm Hf. apply (account_bind nothing); [done|]. intros a d ->. eapply keeps_mono; [apply Hf|]. intros b e He. by rewrite Z.add_0_l.
Qed.
Lemma account_must {A} (r : res A) : keeps nothing (must r).
Proof. destruct r; [by apply account_ret|done..]. Qed.
Lemma keeps_run {A} (f : W -> outcome (A * W)) : keeps nothing (run f).
Proof. intros s r s' E. unfold run in E. destruct (f (dev s)) as [[a w]| |]; [|done..]. injection E as <- <-. unfold nothing. cbn. lia. Qed.
Lemma keeps_str t : keeps nothing (str t).
Proof. unfold str. destruct (cstr t); [by apply account_ret|done]. Qed.
Lemma keeps_printed size t : keeps nothing (printed size t).
Proof. unfold printed. apply keeps_then; [apply account_must|]. intros [b n]. by apply account_ret. Qed.
Lemma account_malloc : keeps (fun (got : bool) d => d = if got then 1 else 0) HAL_Malloc.
Proof.
  unfold HAL_Malloc. apply keeps_then; [apply keeps_run|]. intros []; [|by apply account_ret].
  intros s r s' [= <- <-]. cbn. lia.
Qed.
Lemma account_free : keeps (fun _ d => d = -1) HAL_Free.
Proof. intros s r s' [= <- <-]. cbn. lia. Qed.
Lemma keeps_block {A} P (failure : A) body : keeps P body -> P failure 0 -> keeps P (with_block failure body).
Proof.
  intros Hb Hf. unfold with_block. eapply account_bind; [apply account_malloc|]. intros [] d ->; [|by apply account_ret].
  eapply account_bind; [exact Hb|]. intros a d Hd. eapply account_bind; [apply account_free|]. intros [] e ->. apply account_ret.
  by replace (1 + (d + (-1 + 0))) with d by lia.
Qed.
Lemma keeps_value key d : keeps (fun (v : option bytes) n => n = match v with Some _ => 1 | None => 0 end) (json_value key d).
Proof.
  unfold json_value. destruct (response_buf d) as [b|]; [|done]. intros s r s' E.
  destruct (LITE_json_value_of _ _ _ _) as [[v w]|e|]; [|done..]. injection E as <- <-. cbn. lia.
Qed.
(** A value that is given back. *)
Lemma keeps_with_value {A} key d (some : bytes -> HM A) (none : HM A) :
  (forall v, keeps (fun _ e => e = -1) (some v)) -> keeps nothing none ->
  keeps nothing (json_value key d ≫= fun v => match v with Some v => some v | None => none end).
Proof.
  intros Hs Hn. eapply account_bind; [apply keeps_value|]. intros [v|] n ->; (eapply keeps_mono; [apply Hs || apply Hn|]);
    unfold nothing; intros a e ->; lia.
Qed.

Lemma keeps_copy dst v : keeps nothing (copy_value dst v).
Proof. unfold copy_value. apply keeps_then; [apply account_must|]. intros. apply account_must. Qed.
Lemma keeps_mac body secret : keeps nothing (mac_of body secret).
Proof. unfold mac_of. repeat (apply keeps_then; [apply keeps_str || apply account_must|]; intros). apply keeps_str. Qed.
Lemma keeps_free_ret {A} (a : A) : keeps (fun _ e => e = -1) (HAL_Free;; mret a).
Proof. eapply account_bind; [apply account_free|]. intros [] d ->. apply account_ret. lia. Qed.

Lemma keeps_take_token d token : keeps nothing (take_token d token).
Proof.
  unfold take_token. eapply account_bind; [apply keeps_value|]. intros [v|] n ->.
  - eapply account_bind; [apply keeps_copy|]. intros t e ->. eapply keeps_mono; [apply keeps_free_ret|]. unfold nothing. intros a e ->. lia.
  - eapply keeps_mono; [apply (keeps_with_value _ _ (fun _ => HAL_Free;; mret token)); [intros; apply keeps_free_ret|by apply account_ret]|].
    unfold nothing. intros a e ->. lia.
Qed.
Lemma keeps_take_message d : keeps nothing (take_message d).
Proof. unfold take_message. apply keeps_with_value; [intros; apply account_free|by apply account_ret]. Qed.
Lemma keeps_take_auth d authorization put_url : keeps nothing (take_auth d authorization put_url).
Proof.
  unfold take_auth. eapply account_bind; [apply keeps_value|]. intros [v|] n ->; [|by apply account_ret].
  eapply account_bind; [apply keeps_copy|]. intros t e ->. eapply account_bind; [apply account_free|]. intros [] e ->.
  eapply account_bind; [apply keeps_value|]. intros [v2|] n ->; [|by apply account_ret].
  eapply account_bind; [apply keeps_copy|]. intros t2 e ->. eapply keeps_mono; [apply keeps_free_ret|]. unfold nothing. intros a e ->. lia.
Qed.

(** What the exchange frees only when the request went out. *)
Lemma keeps_exchange {R} c url method d t requested released (outs : R) answer :
  keeps (fun _ n => n = - released) requested -> (forall d, keeps nothing (answer d)) ->
  keeps (fun '(ret, _) n => n = - released \/ n = 0 /\ ret <> SUCCESS_RET) (exchange rounds fuel ca c url method d t requested outs answer).
Proof.
  intros Hr Ha. unfold exchange. apply keeps_then; [apply keeps_run|]. intros [ret c1].
  apply (account_bind (fun '(ret, _, _) n => n = - released \/ n = 0 /\ ret <> SUCCESS_RET)).
  - case_decide as Hret; [apply account_ret; right; split; [done|congruence]|].
    eapply account_bind; [exact Hr|]. intros [] n ->. apply keeps_then; [apply keeps_run|]. intros [[ret2 c2] d2].
    case_decide; [apply account_ret; left; lia|]. apply keeps_then; [apply Ha|]. intros y. apply account_ret. left. lia.
  - intros [[ret2 c2] y] n Hn. apply keeps_then; [apply keeps_run|]. intros c3. apply account_ret. by rewrite Z.add_0_r.
Qed.
Lemma keeps_exchange_nothing {R} c url method d t (outs : R) answer :
  (forall d, keeps nothing (answer d)) -> keeps nothing (exchange rounds fuel ca c url method d t (mret tt) outs answer).
Proof.
  intros Ha. eapply keeps_mono; [apply (keeps_exchange c url method d t (mret tt) 0); [by apply account_ret|exact Ha]|].
  intros [ret y] n [->|[-> _]]; done.
Qed.

Lemma get_token_keeps product device secret token : keeps nothing (IOT_HTTP_Get_Token rounds fuel ca product device secret token).
Proof.
  unfold IOT_HTTP_Get_Token. do 4 (apply keeps_block; [|done]).
  repeat (apply keeps_then; [apply keeps_str || apply keeps_printed || apply keeps_mac|]; intros). apply keeps_block; [|done].
  repeat (apply keeps_then; [apply keeps_str || apply keeps_printed|]; intros). apply keeps_exchange_nothing. intros. apply keeps_take_token.
Qed.
Lemma get_place_keeps product device secret file buf len md5 authorization put_url :
  keeps nothing (IOT_GET_URL_AND_AUTH rounds fuel ca product device secret file buf len md5 authorization put_url).
Proof.
  unfold IOT_GET_URL_AND_AUTH. do 4 (apply keeps_block; [|done]).
  repeat (apply keeps_then; [apply keeps_str || apply keeps_printed || apply keeps_mac|]; intros). apply keeps_block; [|done].
  repeat (apply keeps_then; [apply keeps_str || apply keeps_printed|]; intros). apply keeps_exchange_nothing. intros. apply keeps_take_auth.
Qed.
Lemma upload_keeps file buf len md5 authorization url t :
  keeps nothing (IOT_HTTP_UPLOAD_FILE rounds fuel ca file buf len md5 authorization url t).
Proof.
  unfold IOT_HTTP_UPLOAD_FILE. do 2 (apply keeps_block; [|done]).
  eapply account_bind; [apply account_malloc|]. intros [] n ->; [|done]. eapply account_bind; [apply account_malloc|]. intros [] n ->; [|done].
  repeat (apply keeps_then; [apply keeps_str || apply keeps_printed|]; intros). apply keeps_then.
  - apply keeps_block; [|done]. cbv zeta. repeat (apply keeps_then; [apply account_must|]; intros).
    apply keeps_then; [apply keeps_exchange_nothing; intros; by apply account_ret|]. intros [ret []]. by apply account_ret.
  - intros ret. eapply account_bind; [apply account_free|]. intros [] n ->. eapply account_bind; [apply account_free|]. intros [] n ->.
    apply account_ret. done.
Qed.
(** Publishing keeps the block of the URL if the request failed. *)
Lemma publish_keeps token topic data t :
  keeps (fun ret n => n = 0 \/ n = 1 /\ ret <> SUCCESS_RET) (IOT_HTTP_Publish rounds fuel ca token topic data t).
Proof.
  unfold IOT_HTTP_Publish. do 4 (apply keeps_block; [|by left]).
  repeat (apply keeps_then; [apply keeps_str || apply keeps_printed|]; intros). apply keeps_block; [|by left].
  repeat (apply keeps_then; [apply keeps_str || apply keeps_printed|]; intros).
  eapply account_bind; [apply account_malloc|]. intros [] n ->.
  - repeat (apply keeps_then; [apply keeps_str || apply keeps_printed|]; intros).
    eapply account_bind; [apply (keeps_exchange _ _ _ _ _ HAL_Free 1); [apply account_free|intros; apply keeps_take_message]|].
    intros [ret []] n [->|[-> Hr]]; apply account_ret; [left; lia|right; split; [lia|done]].
  - apply keeps_then; [apply keeps_run|]. intros c. apply account_ret. by left.
Qed.
End account.

(* ================================================================== *)
(** * Allocations that fail *)

Section missing.
Context {W : Type} `{Rtos W} (rounds fuel : nat) (ca : option bytes).

(** The answers of the allocator, one after the other. *)
Fixpoint asks (bs : list bool) (w w' : W) : Prop :=
  match bs with
  | [] => w' = w
  | b :: bs => (alloc_ok w).1 = b /\ asks bs (alloc_ok w).2 w'
  end.
(** Without its block number [n] (counted from 0) the computation gives back
    the others and fails. *)
Definition fails {A} (m : @HM W A) (failure : A) (n : nat) : Prop :=
  forall s w', asks (replicate n true ++ [false]) (dev s) w' -> m s = Done (failure, mkHSt w' (live s)).

Lemma malloc_gets (s : @HSt W) b : (alloc_ok (dev s)).1 = b ->
  HAL_Malloc s = Done (b, mkHSt (alloc_ok (dev s)).2 (if b then live s + 1 else live s)).
Proof.
  intros <-. unfold HAL_Malloc, run, mbind, HM_bind. destruct (alloc_ok (dev s)) as [[] w]; reflexivity.
Qed.
Lemma with_block_missing {A} (failure : A) body : fails (with_block failure body) failure 0.
Proof. intros s w' [Hb ->]. unfold with_block, mbind, HM_bind. by rewrite (malloc_gets s false). Qed.
Lemma with_block_gets {A} (failure : A) body s : (alloc_ok (dev s)).1 = true ->
  with_block failure body s = match body (mkHSt (alloc_ok (dev s)).2 (live s + 1)) with
    | Done (a, s') => Done (a, mkHSt (dev s') (live s' - 1)) | Undefined => Undefined | Unfinished => Unfinished end.
Proof.
  intros Hb. unfold with_block, mbind, HM_bind. rewrite (malloc_gets s true) by done.
  by destruct (body _) as [[a s']| |].
Qed.
Lemma with_block_fails {A} (failure : A) body n : fails body failure n -> fails (with_block failure body) failure (S n).
Proof.
  intros Hf s w' [Hb Ha]. rewrite with_block_gets by done. rewrite (Hf (mkHSt (alloc_ok (dev s)).2 (live s + 1)) w' Ha). cbn [dev live]. do 3 f_equal. lia.
Qed.
Lemma hm_run {A B} (m : @HM W A) (f : A -> HM B) s a s' r : m s = Done (a, s') -> f a s' = r -> (m ≫= f) s = r.
Proof. unfold mbind, HM_bind. by intros ->. Qed.
Lemma with_block_passes {A} (failure : A) body s a w' : (alloc_ok (dev s)).1 = true ->
  body (mkHSt (alloc_ok (dev s)).2 (live s + 1)) = Done (a, mkHSt w' (live s + 1)) -> with_block failure body s = Done (a, mkHSt w' (live s)).
Proof. intros Hb E. rewrite with_block_gets, E by done. cbn [dev live]. do 3 f_equal. lia. Qed.
Lemma close_unconnected h (s : @HSt W) : close (new_client h) s = Done (new_client h, s).
Proof. by destruct s. Qed.
(** Four blocks, one in the other. *)
Lemma blocks_fail {A} (failure : A) body n : (n < 4)%nat ->
  fails (with_block failure (with_block failure (with_block failure (with_block failure body)))) failure n.
Proof.
  intros Hn. destruct n as [|[|[|[|n]]]]; [..|lia]; repeat (apply with_block_missing || apply with_block_fails).
Qed.

(** Publishing without a block for the URL: nothing is sent, and the call
    succeeds. *)
Lemma publish_no_url token topic data j1 j3 t s w' : Forall (fun c => c <> 0) token -> Forall (fun c => c <> 0) data ->
  asks [true; true; true; true; true; false] (dev s) w' ->
  IOT_HTTP_Publish rounds fuel ca (token ++ 0 :: j1) topic (data ++ 0 :: j3) t s = Done (SUCCESS_RET, mkHSt w' (live s)).
Proof.
  intros Ht Hd (H1 & H2 & H3 & H4 & H5 & H6 & ->). unfold IOT_HTTP_Publish.
  do 4 (apply with_block_passes; [done|]; cbn [dev live]).
  eapply hm_run; [by apply string_run|]. cbv beta.
  match goal with |- _ ?s = _ => destruct (printed_run 1024 data s ltac:(done)) as [junk E] end. eapply hm_run; [exact E|]. cbv beta.
  eapply hm_run; [apply string_run; by apply Forall_take|]. cbv beta. set (body := take _ data).
  assert (Forall (fun c => c <> 0) body) as Hb by by apply Forall_take.
  apply with_block_passes; [done|]. cbn [dev live]. eapply hm_run; [by apply string_run|]. cbv beta.
  match goal with |- _ ?s = _ => destruct (printed_run 1024 (publish_header token body) s ltac:(done)) as [junk2 E2] end.
  eapply hm_run; [exact E2|]. cbv beta.
  eapply hm_run; [apply string_run; apply Forall_take; unfold publish_header; no_zeros|]. cbv beta zeta.
  eapply hm_run; [by apply (malloc_gets _ false)|]. cbv beta iota. eapply hm_run; [apply close_unconnected|]. reflexivity.
Qed.
(** The two blocks that are used without a check. *)
Lemma upload_missing file buf len md5 authorization url t s w' n : (n = 2 \/ n = 3)%nat ->
  asks (replicate n true ++ [false]) (dev s) w' -> IOT_HTTP_UPLOAD_FILE rounds fuel ca file buf len md5 authorization url t s = Undefined.
Proof.
  intros [-> | ->] Ha; cbn in Ha; unfold IOT_HTTP_UPLOAD_FILE.
  - destruct Ha as (H1 & H2 & H3 & _). do 2 (rewrite with_block_gets by done; cbn [dev live]).
    unfold mbind at 1, HM_bind at 1. by rewrite (malloc_gets _ false).
  - destruct Ha as (H1 & H2 & H3 & H4 & _). do 2 (rewrite with_block_gets by done; cbn [dev live]).
    unfold mbind at 1, HM_bind at 1. rewrite (malloc_gets _ true) by done. cbn [dev live].
    unfold mbind at 1, HM_bind at 1. by rewrite (malloc_gets _ false).
Qed.

(* ================================================================== *)
(** * Arrays and texts *)

(** An array with room for the value and its 0, and no more. *)
Lemma copy_overrun dst v (s : @HSt W) : zlen dst = zlen v + 1 -> copy_value dst v s = Undefined.
Proof.
  intros Hl. unfold copy_value, mbind, HM_bind. rewrite write_front by lia. cbn [must mret HM_ret].
  unfold write_at. rewrite decide_False; [done|]. rewrite length_app, length_drop. cbn [length]. lia.
Qed.
End missing.

(** The text that is in the array afterwards. *)
Lemma copied_text dst v x : Forall (fun c => c <> 0) v -> dst !! length v = Some x ->
  cstr (copied dst v) = Some (if decide (x = 0) then v else v ++ [x]).
Proof.
  intros Hv Hx. unfold copied. rewrite <- (take_drop_middle dst _ x Hx) at 1.
  assert (length (take (length v) dst) = length v) as Hl by (rewrite length_take; apply lookup_lt_Some in Hx; lia).
  rewrite drop_app_length' by done. cbn [take app]. rewrite take_0. cbn [app]. case_decide as Hz.
  - subst x. by apply cstr_text.
  - set (rest := 0 :: drop _ dst). change (x :: rest) with ([x] ++ rest). rewrite app_assoc. apply cstr_text. apply Forall_app_2; [done|by constructor].
Qed.
Lemma long_secret secret body : 64 < zlen secret -> mac_text secret body = replicate 64 48.
Proof. intros Hl. unfold mac_text. rewrite decide_True by lia. reflexivity. Qed.

(** Publishing to a server that answers with a message. *)
Definition publish0 (topic data : bytes) : outcome (Z * @HSt TcpWorld) :=
  IOT_HTTP_Publish 2000 50 None (lit "k") (topic ++ [0]) (data ++ [0]) 100
    (http_start (response_text (answer_of (q "{`Message`:`ok`}")))).

(** C32: whatever the network does and whichever allocations fail, a token, an
    upload place and an upload that come to an end give every block back;
    publishing keeps one when it fails behind the allocation of the URL.
    Without one of their first blocks the services fail before anything is
    sent; without the block for the URL, publishing sends nothing and
    succeeds; without the block for its answer or for its header, uploading
    writes to NULL.  A caller's array that has just room for a value and its 0
    is overrun; in a longer one the value is followed by the byte that was
    there.  With a secret of more than 64 bytes the authorization is 64 zeros,
    whatever the request.  A topic of more than 215 characters is cut: the
    message goes to another topic; data that do not fit the header together
    with the token leave it without its end, so that the length of the body
    is no header of its own; and data of more than 1023 characters are cut;
    all of these succeed. *)
Theorem http_services_errors {W} `{Rtos W} rounds fuel ca :
  (forall product device secret token s r s',
    IOT_HTTP_Get_Token rounds fuel ca product device secret token s = Done (r, s') -> live s' = live s) /\
  (forall product device secret file buf len md5 authorization put_url s r s',
    IOT_GET_URL_AND_AUTH rounds fuel ca product device secret file buf len md5 authorization put_url s = Done (r, s') -> live s' = live s) /\
  (forall file buf len md5 authorization url t s r s',
    IOT_HTTP_UPLOAD_FILE rounds fuel ca file buf len md5 authorization url t s = Done (r, s') -> live s' = live s) /\
  (forall token topic data t s ret s', IOT_HTTP_Publish rounds fuel ca token topic data t s = Done (ret, s') ->
    live s' = live s \/ live s' = live s + 1 /\ ret <> SUCCESS_RET) /\
  (forall product device secret token n, (n < 4)%nat ->
    fails (IOT_HTTP_Get_Token rounds fuel ca product device secret token) (FAILURE_RET, token) n) /\
  (forall product device secret file buf len md5 authorization put_url n, (n < 4)%nat ->
    fails (IOT_GET_URL_AND_AUTH rounds fuel ca product device secret file buf len md5 authorization put_url)
      (FAILURE_RET, (authorization, put_url)) n) /\
  (forall token topic data t n, (n < 4)%nat -> fails (IOT_HTTP_Publish rounds fuel ca token topic data t) FAILURE_RET n) /\
  (forall token topic data j1 j3 t s w', Forall (fun c => c <> 0) token -> Forall (fun c => c <> 0) data ->
    asks [true; true; true; true; true; false] (dev s) w' ->
    IOT_HTTP_Publish rounds fuel ca (token ++ 0 :: j1) topic (data ++ 0 :: j3) t s = Done (SUCCESS_RET, mkHSt w' (live s))) /\
  (forall file buf len md5 authorization url t s w' n, (n = 2 \/ n = 3)%nat -> asks (replicate n true ++ [false]) (dev s) w' ->
    IOT_HTTP_UPLOAD_FILE rounds fuel ca file buf len md5 authorization url t s = Undefined) /\
  (forall dst v (s : @HSt W), zlen dst = zlen v + 1 -> copy_value dst v s = Undefined) /\
  (forall dst v x, Forall (fun c => c <> 0) v -> dst !! length v = Some x ->
    cstr (copied dst v) = Some (if decide (x = 0) then v else v ++ [x])) /\
  (forall secret body, 64 < zlen secret -> mac_text secret body = replicate 64 48) /\
  (let topic := replicate 230 97 in let data := bytes_of "x" in
    seen (publish0 topic data) = Some (0, 0, publish_head (bytes_of "k") (take 215 topic) data ++ data)) /\
  (let data := replicate 1000 97 in
    seen (publish0 (bytes_of "t") data) = Some (0, 0, request_line HTTP_POST (bytes_of "/topic/t") (bytes_of "http-cn-sh2.iot.ucloud.cn") ++
      bytes_of "Password: k" ++ CRLF ++ bytes_of "Content-Type: application/octet-stream" ++ CRLF ++ bytes_of "body: " ++ replicate 964 97 ++
      bytes_of "Content-Length: 1000" ++ CRLF ++ bytes_of "Content-Type: application/octet-stream" ++ CRLF ++ CRLF ++ data)) /\
  (let data := replicate 1030 97 in
    match seen (publish0 (bytes_of "t") data) with Some (ret, _, out) => ret = 0 /\ drop (length out - 1025) out = CRLF ++ take 1023 data | None => False end).
Proof.
  assert (forall A (m : @HM W A), keeps nothing m -> forall s r s', m s = Done (r, s') -> live s' = live s) as Hk.
  { intros A m Hm s r s' E. apply Hm in E. unfold nothing in E. lia. }
  split_and!.
  - intros ????. apply Hk, get_token_keeps.
  - intros ?????????. apply Hk, get_place_keeps.
  - intros ???????. apply Hk, upload_keeps.
  - intros token topic data t s ret s' E. apply publish_keeps in E as [E|[E Hr]]; [left; lia|right; split; [lia|done]].
  - intros. by apply blocks_fail.
  - intros. by apply blocks_fail.
  - intros. by apply blocks_fail.
  - intros. by apply publish_no_url.
  - intros. by eapply upload_missing.
  - intros. by apply copy_overrun.
  - intros. by apply copied_text.
  - intros. by apply long_secret.
  - vm_compute. reflexivity.
  - vm_compute. reflexivity.
  - vm_compute. auto.
Qed.

(** The socket layer of [HalTcp] with memory for a number of blocks. *)
Local Abbreviation Scarce := (nat * TcpWorld)%type.
Definition on_sockets {A} (f : TcpWorld -> A * TcpWorld) (w : Scarce) : A * Scarce := let '(a, t) := f w.2 in (a, (w.1, t)).
#[export] Instance scarce : Rtos Scarce := {
  RT_TICK_PER_SECOND := 1000;
  tick_get := on_sockets tick_get;
  tick_from_ms ms := ms;
  sleep_ms ms w := (w.1, sleep_ms ms w.2);
  alloc_ok w := match w.1 with O => (false, w) | S n => (true, (n, w.2)) end;
  getaddrinfo host port := on_sockets (getaddrinfo host port);
  sock_open f t p := on_sockets (sock_open f t p);
  sock_connect fd a := on_sockets (sock_connect fd a);
  sock_close fd := on_sockets (sock_close fd);
  sock_send fd data := on_sockets (sock_send fd data);
  sock_recv fd n := on_sockets (sock_recv fd n)
}.
Definition with_memory (n : nat) : @HSt Scarce := mkHSt (n, tcp0) 0.

Lemma http_services_errors_witness :
  IOT_HTTP_Publish 10 10 None (bytes_of "k" ++ [0]) (lit "t") (bytes_of "x" ++ [0]) 100 (with_memory 5) = Done (SUCCESS_RET, with_memory 0) /\
  IOT_HTTP_UPLOAD_FILE 10 10 None [] (lit "x") 1 (lit "m") (lit "k") (lit "u") 100 (with_memory 3) = Undefined /\
  IOT_HTTP_Get_Token 10 10 None (lit "p") (lit "d") (lit "s") [7] (with_memory 2) = Done ((FAILURE_RET, [7]), with_memory 0) /\
  copy_value (replicate 4 120) (bytes_of "abc") (with_memory 0) = Undefined.
Proof.
  destruct (http_services_errors (W := Scarce) 10 10 None) as (_ & _ & _ & _ & Htoken & _ & _ & Hpublish & Hupload & Hcopy & _).
  split_and!.
  - by apply (Hpublish (bytes_of "k") (lit "t") (bytes_of "x") [] [] 100 (with_memory 5) (0%nat, tcp0)); [by_eval|by_eval|].
  - by apply (Hupload [] (lit "x") 1 (lit "m") (lit "k") (lit "u") 100 (with_memory 3) (0%nat, tcp0) 3%nat); [right|].
  - by apply (Htoken (lit "p") (lit "d") (lit "s") [7] 2%nat ltac:(lia) (with_memory 2) (0%nat, tcp0)).
  - by apply Hcopy.
Defined.
