(* ===== verification/OtaLib.v ===== *)
(** The pure part of the firmware update client: the messages it reads and
    writes ([uiot/ota/src/ota_lib.c], the templates of
    [uiot/ota/include/ota_config.h]) and its topic names ([ota_mqtt.c]).

    In literals with quotes a backquote stands for a double quote. *)

From S2P Require Import Prelude Defs Json CLib JsonConv Digest.

Definition TYPE_FIELD : bytes := lit "Method".
Definition MD5_FIELD : bytes := lit "Payload.MD5".
Definition MODULE_FIELD : bytes := lit "Payload.Module".
Definition VERSION_FIELD : bytes := lit "Payload.Version".
Definition URL_FIELD : bytes := lit "Payload.URL".
Definition SIZE_FIELD : bytes := lit "Payload.Size".
Definition UPDATE_FIRMWARE_METHOD : bytes := bytes_of "update_firmware".
Definition CANCEL_UPDATE_METHOD : bytes := bytes_of "cancel_update".
Definition OTA_VERSION_STR_LEN_MIN := 1.
Definition OTA_VERSION_STR_LEN_MAX := 32.
Definition OTA_UPSTREAM_MSG_BUF_LEN := 129.
Definition OTA_TOPIC_BUF_LEN := 129.
Definition OTA_UPSTREAM_TOPIC_TYPE : bytes := bytes_of "upstream".
Definition OTA_DOWNSTREAM_TOPIC_TYPE : bytes := bytes_of "downstream".
Definition OTA_REPORT_PROGRESS_INTERVAL := 5.

(** [IOT_OTA_UpstreamMsgType]; the codes below 0 are those of
    [IOT_OTA_ReportErrCode], 1 and 2 those of [IOT_OTA_ProgressState]. *)
Definition OTA_REPORT_UNDEFINED_ERROR := -6.
Definition OTA_REPORT_FIRMWARE_BURN_FAILED := -5.
Definition OTA_REPORT_MD5_MISMATCH := -4.
Definition OTA_REPORT_DOWNLOAD_TIMEOUT := -3.
Definition OTA_REPORT_SIGNATURE_EXPIRED := -2.
Definition OTA_REPORT_FIRMWARE_NOT_EXIST := -1.
Definition OTA_REPORT_DOWNLOADING := 1.
Definition OTA_REPORT_BURNING := 2.
Definition OTA_REPORT_SUCCESS := 3.
Definition OTA_REQUEST_FIRMWARE := 4.
Definition OTA_REPORT_VERSION := 5.

(** ** Messages to the server *)

Definition REPORT_PROGRESS_MSG (state_name : bytes) (progress : Z) (module_ version : bytes) : bytes :=
  q "{`Method`: `report_progress`, `Payload`: {`State`:`" ++ state_name ++ q "`, `Percent`:" ++ dec progress ++
  q ", `Module`:`" ++ module_ ++ q "`, `Version`:`" ++ version ++ q "` }}".
Definition REPORT_SUCCESS_MSG (module_ version : bytes) : bytes :=
  q "{`Method`: `report_success`, `Payload`:{`Module`:`" ++ module_ ++ q "`, `Version`:`" ++ version ++ q "`}}".
Definition REPORT_VERSION_MSG (module_ version : bytes) : bytes :=
  q "{`Method`: `report_version`, `Payload`:{`Module`:`" ++ module_ ++ q "`, `Version`:`" ++ version ++ q "`}}".
Definition REQUEST_FIRMWARE_MSG (module_ version : bytes) : bytes :=
  q "{`Method`: `request_firmware`, `Payload`:{`Module`:`" ++ module_ ++ q "`, `Version`:`" ++ version ++ q "`}}".

(** The string, or an error code.  Printing a NULL string is undefined, and so
    is [REPORT_FAIL_MSG_TEMPLATE], which has three conversions and is given
    one argument. *)
Definition ota_lib_gen_upstream_msg (bufLen : Z) (module_ version : option bytes) (progress reportType : Z) : res (bytes + Z) :=
  let str (s : option bytes) : res bytes := match s with Some s => Ok s | None => Oob end in
  let msg :=
    if decide (-6 <= reportType <= -1) then Some Oob
    else if decide (reportType = OTA_REPORT_DOWNLOADING) then
      Some (m ← str module_; v ← str version; Ok (REPORT_PROGRESS_MSG (bytes_of "downloading") progress m v))
    else if decide (reportType = OTA_REPORT_BURNING) then
      Some (m ← str module_; v ← str version; Ok (REPORT_PROGRESS_MSG (bytes_of "burning") progress m v))
    else if decide (reportType = OTA_REPORT_SUCCESS) then
      Some (m ← str module_; v ← str version; Ok (REPORT_SUCCESS_MSG m v))
    else if decide (reportType = OTA_REQUEST_FIRMWARE) then
      Some (m ← str module_; v ← str version; Ok (REQUEST_FIRMWARE_MSG m v))
    else if decide (reportType = OTA_REPORT_VERSION) then
      Some (m ← str module_; v ← str version; Ok (REPORT_VERSION_MSG m v))
    else None in
  match msg with
  | None => Ok (inr ERR_OTA_GENERAL_FAILURE)
  | Some text => t ← text; Ok (if decide (zlen t >= bufLen) then inr ERR_OTA_STR_TOO_LONG else inl t)
  end.

(** [OTA_TOPIC_TEMPLATE]; the name or an error code. *)
Definition _ota_mqtt_gen_topic_name (buf_len : Z) (ota_topic_type product_sn device_sn : bytes) : bytes + Z :=
  let name := bytes_of "/$system/" ++ product_sn ++ [47] ++ device_sn ++ bytes_of "/ota/" ++ ota_topic_type in
  if decide (zlen name >= buf_len) then inr ERR_OTA_GENERAL_FAILURE else inl name.

(** ** Messages from the server *)

(** A string that is a literal of the program, or was allocated. *)
Inductive storage := Literal | Allocated.
Record c_string := mkString { where_ : storage; chars : bytes }.

(** [HAL_Download_Name_Set] ([ports/rtthread/HAL_Flash_rtthread.c]) *)
Definition DOWNLOAD_PARTITION : bytes := bytes_of "download".
Definition HAL_Download_Name_Set (url : bytes) : c_string := mkString Literal DOWNLOAD_PARTITION.

(** The fields of [OTA_Struct_t] that an update message sets: pointers to
    allocated strings, or NULL. *)
Record ota_params := mkParams {
  url : option bytes;
  module_ : option bytes;
  download_name : option c_string;
  version : option bytes;
  md5sum : option bytes;
  size_file : Z
}.

Section json.
Context {W : Type} (malloc : W -> bool * W).

Definition ota_lib_get_msg_type (json : bytes) (w : W) : res (option bytes * W) :=
  LITE_json_value_of malloc TYPE_FIELD json w.

(** The module, the version, and whether both were found. *)
Definition ota_lib_get_msg_module_ver (json : bytes) (w : W) : res (option bytes * option bytes * Z * W) :=
  '(m, w) ← LITE_json_value_of malloc MODULE_FIELD json w;
  match m with
  | None => Ok (None, None, ERR_OTA_GENERAL_FAILURE, w)
  | Some m =>
      '(v, w) ← LITE_json_value_of malloc VERSION_FIELD json w;
      match v with
      | None => Ok (Some m, None, ERR_OTA_GENERAL_FAILURE, w)
      | Some v => Ok (Some m, Some v, SUCCESS_RET, w)
      end
  end.

(** What was found before a field is missing stays set. *)
Definition ota_lib_get_params (json : bytes) (p : ota_params) (w : W) : res (Z * ota_params * W) :=
  '(m, w) ← LITE_json_value_of malloc MODULE_FIELD json w;
  match m with
  | None => Ok (ERR_OTA_GENERAL_FAILURE, p, w)
  | Some m =>
      let p := mkParams (url p) (Some m) (download_name p) (version p) (md5sum p) (size_file p) in
      '(v, w) ← LITE_json_value_of malloc VERSION_FIELD json w;
      match v with
      | None => Ok (ERR_OTA_GENERAL_FAILURE, p, w)
      | Some v =>
          let p := mkParams (url p) (module_ p) (download_name p) (Some v) (md5sum p) (size_file p) in
          '(u, w) ← LITE_json_value_of malloc URL_FIELD json w;
          match u with
          | None => Ok (ERR_OTA_GENERAL_FAILURE, p, w)
          | Some u =>
              let p := mkParams (Some u) (module_ p) (Some (HAL_Download_Name_Set u)) (version p) (md5sum p) (size_file p) in
              '(h, w) ← LITE_json_value_of malloc MD5_FIELD json w;
              match h with
              | None => Ok (ERR_OTA_GENERAL_FAILURE, p, w)
              | Some h =>
                  let p := mkParams (url p) (module_ p) (download_name p) (version p) (Some h) (size_file p) in
                  '(z, w) ← LITE_json_value_of malloc SIZE_FIELD json w;
                  match z with
                  | None => Ok (ERR_OTA_GENERAL_FAILURE, p, w)
                  | Some z =>
                      n ← LITE_get_uint32 (z ++ [0]);
                      match n with
                      | None => Ok (ERR_OTA_GENERAL_FAILURE, p, w)
                      | Some n => Ok (SUCCESS_RET, mkParams (url p) (module_ p) (download_name p) (version p) (md5sum p) n, w)
                      end
                  end
              end
          end
      end
  end.
End json.

(** [ota_lib_md5_init]: the context in fresh memory; [ota_lib_md5_update] and
    [ota_lib_md5_finalize] on a context or NULL. *)
Definition ota_lib_md5_init (got : bool) : option context :=
  if got then Some (utils_md5_starts utils_md5_init) else None.
Definition ota_lib_md5_update (md5 : option context) (buf : bytes) : res context :=
  match md5 with Some ctx => utils_md5_update ctx buf | None => Oob end.
(** The digits, and the context that [utils_md5_finish] leaves. *)
Definition ota_lib_md5_finalize (md5 : option context) : res (bytes * context) :=
  match md5 with
  | Some ctx =>
      ctx' ← finish_pad utils_md5_process (fun high low => put_uint32_le low ++ put_uint32_le high) ctx;
      digits ← utils_md5_finish_hb2hex ctx;
      Ok (digits, ctx')
  | None => Oob
  end.
