(* ===== verification/Ota.v ===== *)
(** The firmware update client ([uiot/ota/src/ota_client.c], [ota_fetch.c],
    [ota_mqtt.c]) and the flash port ([ports/rtthread/HAL_Flash_rtthread.c]).

    An update message starts a download inside the message callback; between
    two pieces the download yields to the MQTT client, which may deliver the
    next message to the same callback.  The model keeps this nesting: the
    callback is a recursive function whose fuel is the depth of the nesting.

    HTTP clients are allocated objects: they live in a heap, so that a use
    after free is undefined.  The flash port ends a successful update by a
    reset of the processor: a computation continues or ends in [Restart]. *)

From S2P Require Import Prelude Defs HalTimer Json CLib Digest MqttWire MqttState HalTcp Httpc OtaLib.

(* ================================================================== *)
(** * The environment *)

(** What the update client calls besides the sockets: the MQTT client (the
    result of a publish or subscribe; the next message of the update topic
    that [IOT_MQTT_Yield] hands to the callback, as the bytes from its payload
    on and the payload's length, or the result of the yield), FAL, a mutex, and
    the application's [fetch_callback_func]. *)
Class Device (W : Type) `{Rtos W} := {
  IOT_MQTT_Publish : bytes -> Z -> bytes -> W -> Z * W;
  IOT_MQTT_Subscribe : bytes -> Z -> W -> Z * W;
  yield_event : Z -> W -> (bytes * Z + Z) * W;
  HAL_MutexCreate : W -> bool * W;
  fal_partition_find : bytes -> W -> option Z * W;
  fal_partition_erase_all : Z -> W -> Z * W;
  fal_partition_write : Z -> Z -> bytes -> W -> Z * W;
  fetch_callback : Z -> W -> W
}.

(* ================================================================== *)
(** * The state *)

Inductive IOT_OTA_State := OTA_STATE_UNINITED | OTA_STATE_INITED | OTA_STATE_FETCHING | OTA_STATE_FETCHED
  | OTA_STATE_DISCONNECTED.
#[export] Instance IOT_OTA_State_eq_dec : EqDecision IOT_OTA_State.
Proof. solve_decision. Defined.

(** [url] is the string [OTA_Struct_t] owns; it is only read while a download
    runs, when nobody replaces it. *)
Record OTA_Http_Client := mkOfc {
  ofc_url : bytes;
  http : http_client_t;
  http_data : http_client_data_t
}.

(** [OTA_MQTT_Struct_t]: the names and the queue of update messages (each an
    [OTA_UPLOAD_Msg], a string and its length); [None] is a NULL list. *)
Record OTA_MQTT_Struct_t := mkOsc {
  product_sn : bytes;
  device_sn : bytes;
  topic_upgrade : bytes;
  msg_list : option (list (bytes * Z))
}.

Record OTA_Struct_t := mkOta {
  ota_state : IOT_OTA_State;
  size_last_fetched : Z;
  size_fetched : Z;
  params : ota_params;
  md5 : option context;
  ch_signal : OTA_MQTT_Struct_t;
  ch_fetch : option positive;
  err : Z;
  report_timer : Z;
  fetch_callback_func : bool
}.

(** What happens to the outside and to the digest, for the theorems: data fed
    to the MD5 context, a new context, an erased partition, data written to an
    address of it, a message published. *)
Inductive event :=
  | Hashed (data : bytes)
  | Cleared
  | Erased
  | Written (addr : Z) (data : bytes)
  | Published (qos : Z) (payload : bytes).

(** A computation goes on with a value or ends in a reset of the processor. *)
Inductive exit (A : Type) : Type := Go (a : A) | Restart.
Arguments Go {A} a.
Arguments Restart {A}.

Section state.
Context {W : Type} `{Device W}.

Record OSt := mkOSt {
  h_ota : OTA_Struct_t;
  clients : gmap positive OTA_Http_Client;
  dev : W;
  events : list event
}.

Definition OM (A : Type) : Type := OSt -> outcome (exit A * OSt).
#[export] Instance OM_ret : MRet OM := fun A a s => Done (Go a, s).
#[export] Instance OM_bind : MBind OM := fun A B f m s =>
  match m s with
  | Done (Go a, s) => f a s
  | Done (Restart, s) => Done (Restart, s)
  | Undefined => Undefined
  | Unfinished => Unfinished
  end.

Definition gets {A} (f : OTA_Struct_t -> A) : OM A := fun s => Done (Go (f (h_ota s)), s).
Definition modify (f : OTA_Struct_t -> OTA_Struct_t) : OM unit := fun s =>
  Done (Go tt, mkOSt (f (h_ota s)) (clients s) (dev s) (events s)).
Definition undefined {A} : OM A := fun _ => Undefined.
Definition unfinished {A} : OM A := fun _ => Unfinished.
Definition log (e : event) : OM unit := fun s => Done (Go tt, mkOSt (h_ota s) (clients s) (dev s) (e :: events s)).
Definition lift {A} (f : W -> A * W) : OM A := fun s =>
  let '(a, w) := f (dev s) in Done (Go a, mkOSt (h_ota s) (clients s) w (events s)).
Definition effect (f : W -> W) : OM unit := lift (fun w => (tt, f w)).
(** A call that may be undefined or not end. *)
Definition attempt {A} (f : W -> outcome (A * W)) : OM A := fun s =>
  match f (dev s) with
  | Done (a, w) => Done (Go a, mkOSt (h_ota s) (clients s) w (events s))
  | Undefined => Undefined
  | Unfinished => Unfinished
  end.
Definition restart {A} : OM A := fun s => Done (Restart, s).
Definition must {A} (r : res A) : OM A := match r with Ok a => mret a | _ => undefined end.
(** The difference of two values of type [int]. *)
Definition int_sub (a b : Z) : OM Z := must (int_of (a - b)).
Definition malloc : OM bool := lift alloc_ok.

Definition set_state (v : IOT_OTA_State) : OM unit := modify (fun h =>
  mkOta v (size_last_fetched h) (size_fetched h) (params h) (md5 h) (ch_signal h) (ch_fetch h) (err h) (report_timer h) (fetch_callback_func h)).
Definition set_err (v : Z) : OM unit := modify (fun h =>
  mkOta (ota_state h) (size_last_fetched h) (size_fetched h) (params h) (md5 h) (ch_signal h) (ch_fetch h) v (report_timer h) (fetch_callback_func h)).
Definition set_sizes (last fetched : Z) : OM unit := modify (fun h =>
  mkOta (ota_state h) last fetched (params h) (md5 h) (ch_signal h) (ch_fetch h) (err h) (report_timer h) (fetch_callback_func h)).
Definition set_params (p : ota_params) : OM unit := modify (fun h =>
  mkOta (ota_state h) (size_last_fetched h) (size_fetched h) p (md5 h) (ch_signal h) (ch_fetch h) (err h) (report_timer h) (fetch_callback_func h)).
Definition set_md5 (c : option context) : OM unit := modify (fun h =>
  mkOta (ota_state h) (size_last_fetched h) (size_fetched h) (params h) c (ch_signal h) (ch_fetch h) (err h) (report_timer h) (fetch_callback_func h)).
Definition set_ch_fetch (p : option positive) : OM unit := modify (fun h =>
  mkOta (ota_state h) (size_last_fetched h) (size_fetched h) (params h) (md5 h) (ch_signal h) p (err h) (report_timer h) (fetch_callback_func h)).
Definition set_msg_list (l : option (list (bytes * Z))) : OM unit := modify (fun h =>
  mkOta (ota_state h) (size_last_fetched h) (size_fetched h) (params h) (md5 h)
    (mkOsc (product_sn (ch_signal h)) (device_sn (ch_signal h)) (topic_upgrade (ch_signal h)) l)
    (ch_fetch h) (err h) (report_timer h) (fetch_callback_func h)).
Definition set_report_timer (t : Z) : OM unit := modify (fun h =>
  mkOta (ota_state h) (size_last_fetched h) (size_fetched h) (params h) (md5 h) (ch_signal h) (ch_fetch h) (err h) t (fetch_callback_func h)).

(** The HTTP client behind a pointer. *)
Definition client_at (p : option positive) : OM (positive * OTA_Http_Client) := fun s =>
  match p with
  | None => Undefined
  | Some p => match clients s !! p with Some c => Done (Go (p, c), s) | None => Undefined end
  end.
Definition store_client (p : positive) (c : OTA_Http_Client) : OM unit := fun s =>
  Done (Go tt, mkOSt (h_ota s) (<[p := c]> (clients s)) (dev s) (events s)).
Definition free_client (p : positive) : OM unit := fun s =>
  Done (Go tt, mkOSt (h_ota s) (delete p (clients s)) (dev s) (events s)).
Definition new_client (c : OTA_Http_Client) : OM positive := fun s =>
  let p := fresh (dom (clients s)) in Done (Go p, mkOSt (h_ota s) (<[p := c]> (clients s)) (dev s) (events s)).

(* ================================================================== *)
(** * [HAL_Flash_rtthread.c] *)

Definition HAL_Download_Init (name : c_string) : OM (option Z) :=
  dl_part ← lift (fal_partition_find (chars name));
  match dl_part with
  | None => mret None
  | Some part =>
      r ← lift (fal_partition_erase_all part);
      if decide (r < 0) then mret None else log Erased;; mret (Some part)
  end.

Definition HAL_Download_Write (part : option Z) (total_length : Z) (data : bytes) : OM Z :=
  match part with
  | None => mret FAILURE_RET
  | Some part =>
      r ← lift (fal_partition_write part total_length data);
      if decide (r < 0) then mret FAILURE_RET else log (Written total_length data);; mret SUCCESS_RET
  end.

(** The processor is reset: the call does not return. *)
Definition HAL_Download_End : OM Z := effect (sleep_ms 5);; restart.

(* ================================================================== *)
(** * [ota_fetch.c] *)

Definition accept_header : bytes :=
  bytes_of "Accept: text/html,application/xhtml+xml,application/xml;q=0.9,*/*;q=0.8" ++ CRLF ++
  bytes_of "Accept-Encoding: gzip, deflate" ++ CRLF.
Definition zero_network : utils_network := mkNetwork [] 0 0 0 None 0.

Definition ofc_init (u : option bytes) : OM (option positive) :=
  got ← malloc;
  if got : bool then
    match u with
    | None => undefined
    | Some u => p ← new_client (mkOfc u (mkHttp zero_network 0 (Some accept_header)) zero_data); mret (Some p)
    end
  else mret None.

(** Built without TLS. *)
Definition ofc_connect (handle : option positive) : OM Z :=
  '(p, c) ← client_at handle;
  '(rc, h) ← attempt (fun w => '(rc, h, w) ← http_client_connect (http c) (ofc_url c ++ [0]) 80 None w; Done (rc, h, w));
  store_client p (mkOfc (ofc_url c) h (http_data c));; mret rc.

Definition ofc_deinit (handle : option positive) : OM Z :=
  '(p, c) ← client_at handle;
  effect (fun w => (http_client_close (http c) w).2);; free_client p;; mret SUCCESS_RET.

Section fetch.
Context (rounds fuel : nat).

(** The result and the contents of the caller's buffer afterwards. *)
Definition ofc_fetch (handle : option positive) (fetched : Z) (buf : bytes) (range_len timeout_s : Z) : OM (Z * bytes) :=
  '(p, c) ← client_at handle;
  rc ← attempt (_http_send_request rounds (http c) (ofc_url c ++ [0]) HTTP_GET fetched range_len (http_data c) 5000);
  if decide (rc <> SUCCESS_RET) then mret (rc, buf)
  else
    let d := http_data c in
    let d := mkHttpData (is_more d) (is_chunked d) (retrieve_len d) 0 0 (zlen buf) (post_content_type d) (post_buf d) (Some buf) in
    diff ← int_sub (response_content_len d) (retrieve_len d);
    '(rc, h, d) ← attempt (fun w =>
      '(rc, h, d, w) ← http_client_recv_data rounds fuel (http c) (u32 (timeout_s * 1000)) d w; Done (rc, h, d, w));
    store_client p (mkOfc (ofc_url c) h d);;
    let buf := default buf (response_buf d) in
    if decide (rc <> SUCCESS_RET) then
      mret (if decide (rc = ERR_HTTP_NOT_FOUND) then ERR_OTA_FILE_NOT_EXIST
            else if decide (rc = ERR_HTTP_AUTH_ERROR) then ERR_OTA_FETCH_AUTH_FAIL
            else if decide (rc = ERR_HTTP_TIMEOUT) then ERR_OTA_FETCH_TIMEOUT else rc, buf)
    else n ← int_sub (response_content_len d) (retrieve_len d); n ← int_sub n diff; mret (n, buf).

End fetch.
(* ================================================================== *)
(** * [ota_mqtt.c] *)

Definition _ota_mqtt_publish (topic_type : bytes) (qos : Z) (msg : bytes) : OM Z :=
  let qos := if decide (qos = 0) then QOS0 else QOS1 in
  osc ← gets ch_signal;
  match _ota_mqtt_gen_topic_name OTA_TOPIC_BUF_LEN topic_type (product_sn osc) (device_sn osc) with
  | inr _ => mret ERR_OTA_GENERAL_FAILURE
  | inl topic =>
      ret ← lift (IOT_MQTT_Publish topic qos msg);
      if decide (ret < 0) then mret ERR_OTA_OSC_FAILED else log (Published qos msg);; mret ret
  end.
Definition osc_report_progress (msg : bytes) : OM Z := _ota_mqtt_publish OTA_UPSTREAM_TOPIC_TYPE QOS0 msg.
Definition osc_upstream_publish (msg : bytes) : OM Z := _ota_mqtt_publish OTA_UPSTREAM_TOPIC_TYPE QOS1 msg.

(* ================================================================== *)
(** * [ota_client.c] *)

(** ** Reports *)

(** Generating and publishing a report; [None] for the result of a failed
    [HAL_Malloc]. *)
Definition report (module_ version : option bytes) (progress reportType : Z) (publish : bytes -> OM Z) : OM Z :=
  got ← malloc;
  if got : bool then
    msg ← must (ota_lib_gen_upstream_msg OTA_UPSTREAM_MSG_BUF_LEN module_ version progress reportType);
    match msg with
    | inr ret => set_err ret;; mret ret
    | inl msg =>
        ret ← publish msg;
        if decide (ret < 0) then set_err ret;; mret ret else mret ret
    end
  else set_err ERR_OTA_NO_MEMORY;; mret ERR_OTA_NO_MEMORY.

Definition IOT_OTA_ReportProgress (progress state : Z) : OM Z :=
  s ← gets ota_state;
  if decide (s = OTA_STATE_UNINITED) then set_err ERR_OTA_INVALID_STATE;; mret ERR_OTA_INVALID_STATE
  else if decide (progress < 0 \/ progress > 100) then set_err ERR_OTA_INVALID_PARAM;; mret ERR_OTA_INVALID_PARAM
  else
    p ← gets params;
    report (module_ p) (version p) progress state osc_report_progress.

(** [version] is not NULL. *)
Definition send_upstream_msg_with_version (module_ : option bytes) (version : bytes) (reportType : Z) : OM Z :=
  s ← gets ota_state;
  if decide (s = OTA_STATE_UNINITED) then set_err ERR_OTA_INVALID_STATE;; mret ERR_OTA_INVALID_STATE
  else if decide (zlen version < OTA_VERSION_STR_LEN_MIN \/ zlen version > OTA_VERSION_STR_LEN_MAX)
  then set_err ERR_OTA_INVALID_PARAM;; mret ERR_OTA_INVALID_PARAM
  else report module_ (Some version) 0 reportType osc_upstream_publish.

Definition IOT_OTA_ReportVersion (module_ version : option bytes) : OM Z :=
  match version with
  | None => mret ERR_OTA_INVALID_PARAM
  | Some v => send_upstream_msg_with_version module_ v OTA_REPORT_VERSION
  end.
Definition IOT_OTA_RequestFirmware (module_ version : option bytes) : OM Z :=
  match version with
  | None => mret ERR_OTA_INVALID_PARAM
  | Some v => send_upstream_msg_with_version module_ v OTA_REQUEST_FIRMWARE
  end.

Definition IOT_OTA_ReportSuccess (version : option bytes) : OM Z :=
  cb ← gets fetch_callback_func;
  (if cb : bool then effect (fetch_callback OTA_REPORT_SUCCESS) else mret tt);;
  m ← gets (fun h => module_ (params h));
  match version with
  | None => mret ERR_OTA_INVALID_PARAM
  | Some v => send_upstream_msg_with_version m v OTA_REPORT_SUCCESS
  end.

Definition IOT_OTA_ReportFail (err_code : Z) : OM Z :=
  s ← gets ota_state;
  if decide (s = OTA_STATE_UNINITED) then set_err ERR_OTA_INVALID_STATE;; mret ERR_OTA_INVALID_STATE
  else
    m ← gets (fun h => module_ (params h));
    ret ← report m (Some []) 0 err_code osc_upstream_publish;
    cb ← gets fetch_callback_func;
    if decide (0 <= ret) then (if cb : bool then effect (fetch_callback err_code) else mret tt);; mret ret else mret ret.

Definition IOT_OTA_IsFetching : OM bool :=
  s ← gets ota_state;
  if decide (s = OTA_STATE_UNINITED) then set_err ERR_OTA_INVALID_STATE;; mret false
  else mret (bool_decide (s = OTA_STATE_FETCHING)).
Definition IOT_OTA_IsFetchFinish : OM bool :=
  s ← gets ota_state;
  if decide (s = OTA_STATE_UNINITED) then set_err ERR_OTA_INVALID_STATE;; mret false
  else mret (bool_decide (s = OTA_STATE_FETCHED)).
Definition IOT_OTA_GetLastError : OM Z := gets err.

(** ** Control *)

Inductive IOT_OTA_CmdType := OTA_IOCTL_FETCHED_SIZE | OTA_IOCTL_FILE_SIZE | OTA_IOCTL_MD5SUM | OTA_IOCTL_VERSION
  | OTA_IOCTL_CHECK_FIRMWARE.
(** What is stored in the caller's buffer: a 32-bit word, or [buf_len] bytes. *)
Inductive stored_value := Nothing | Word (v : Z) | Array (a : bytes).

(** [strncpy(buf, s, n); buf[n - 1] = 0] *)
Definition strncpy (s : option bytes) (n : Z) : OM bytes :=
  match s with
  | None => undefined
  | Some s => mret (take (Z.to_nat (n - 1)) (s ++ replicate (Z.to_nat n) 0) ++ [0])
  end.

(** [before_fetching]: the states below [OTA_STATE_FETCHING].  [aligned]: the
    address of the buffer is a multiple of 4. *)
Definition before_fetching (s : IOT_OTA_State) : bool :=
  match s with OTA_STATE_UNINITED | OTA_STATE_INITED => true | _ => false end.

Definition IOT_OTA_Ioctl (type : IOT_OTA_CmdType) (buf_len : Z) (aligned : bool) : OM (Z * stored_value) :=
  if decide (buf_len = 0) then mret (ERR_OTA_INVALID_PARAM, Nothing)
  else
    s ← gets ota_state;
    if before_fetching s then set_err ERR_OTA_INVALID_STATE;; mret (ERR_OTA_INVALID_STATE, Nothing)
    else
      let word (k : OM (Z * stored_value)) : OM (Z * stored_value) :=
        if decide (buf_len <> 4 \/ aligned = false)
        then set_err ERR_OTA_INVALID_PARAM;; mret (FAILURE_RET, Nothing) else k in
      match type with
      | OTA_IOCTL_FETCHED_SIZE => word (n ← gets size_fetched; mret (SUCCESS_RET, Word n))
      | OTA_IOCTL_FILE_SIZE => word (n ← gets (fun h => size_file (params h)); mret (SUCCESS_RET, Word n))
      | OTA_IOCTL_VERSION =>
          v ← gets (fun h => version (params h)); a ← strncpy v buf_len; mret (SUCCESS_RET, Array a)
      | OTA_IOCTL_MD5SUM =>
          v ← gets (fun h => md5sum (params h)); a ← strncpy v buf_len; mret (SUCCESS_RET, Array a)
      | OTA_IOCTL_CHECK_FIRMWARE =>
          word (if decide (s <> OTA_STATE_FETCHED) then set_err ERR_OTA_INVALID_STATE;; mret (FAILURE_RET, Nothing)
                else
                  ctx ← gets md5;
                  '(md5_str, ctx) ← must (ota_lib_md5_finalize ctx);
                  set_md5 (Some ctx);;
                  expected ← gets (fun h => md5sum (params h));
                  match expected with
                  | None => undefined
                  | Some expected =>
                      if decide (expected = md5_str) then mret (SUCCESS_RET, Word 1)
                      else set_err ERR_OTA_MD5_MISMATCH;; IOT_OTA_ReportFail OTA_REPORT_MD5_MISMATCH;;
                           mret (SUCCESS_RET, Word 0)
                  end)
      end.

(** [memset(s, 0, strlen(s))] *)
Definition wipe (s : option bytes) : option bytes := (fun _ => []) <$> s.

Definition IOT_OTA_Clear : OM unit :=
  p ← gets ch_fetch;
  ofc_deinit p;;
  a ← gets params;
  match download_name a with
  | Some (mkString Literal (_ :: _)) => undefined
  | name =>
      set_params (mkParams (wipe (url a)) (wipe (module_ a)) ((fun n => mkString (where_ n) []) <$> name)
        (wipe (version a)) (wipe (md5sum a)) 0);;
      set_sizes 0 0;;
      got ← malloc;
      set_md5 (ota_lib_md5_init got);; log Cleared;;
      set_state OTA_STATE_INITED
  end.

Definition osc_deinit : OM Z :=
  l ← gets (fun h => msg_list (ch_signal h));
  match l with None => undefined | Some _ => mret SUCCESS_RET end.

(** A literal is not memory that can be freed. *)
Definition IOT_OTA_Destroy : OM Z :=
  s ← gets ota_state;
  if decide (s = OTA_STATE_UNINITED) then mret FAILURE_RET
  else
    osc_deinit;;
    p ← gets ch_fetch;
    ofc_deinit p;;
    a ← gets params;
    match download_name a with
    | Some (mkString Literal _) => undefined
    | _ => mret SUCCESS_RET
    end.

(** ** The download *)

Section download.
Context (rounds fuel : nat).

(** What [_ota_callback] does with a message that arrives in a yield. *)
Context (callback : bytes -> Z -> OM unit).

Fixpoint yield_loop (n : nat) (timeout_ms : Z) : OM Z :=
  match n with
  | O => unfinished
  | S n =>
      e ← lift (yield_event timeout_ms);
      match e with
      | inr ret => mret ret
      | inl (msg, msg_len) => callback msg msg_len;; yield_loop n timeout_ms
      end
  end.
Definition IOT_OTA_Yield (timeout_ms : Z) : OM Z := yield_loop fuel timeout_ms.

(** The loop over the attempts: the last result, the buffer. *)
Fixpoint fetch_loop (tries : nat) (ret : Z) (buf : bytes) (range_len timeout_s : Z) : OM (Z * bytes) :=
  match tries with
  | O => mret (ret, buf)
  | S tries =>
      p ← gets ch_fetch;
      n ← gets size_fetched;
      '(ret, buf) ← ofc_fetch rounds fuel p n buf range_len timeout_s;
      s ← gets ota_state;
      if decide (ret = ERR_HTTP_CONN_ERROR /\ s <> OTA_STATE_DISCONNECTED) then
        p ← gets ch_fetch;
        ofc_deinit p;;
        u ← gets (fun h => url (params h));
        p ← ofc_init u;
        set_ch_fetch p;;
        ofc_connect p;;
        set_state OTA_STATE_FETCHING;;
        fetch_loop tries ret buf range_len timeout_s
      else if decide (ret < 0) then
        set_state OTA_STATE_FETCHED;;
        set_err ret;;
        (if decide (ret = ERR_OTA_FETCH_AUTH_FAIL) then IOT_OTA_ReportFail OTA_REPORT_SIGNATURE_EXPIRED;; mret tt
         else if decide (ret = ERR_OTA_FILE_NOT_EXIST) then IOT_OTA_ReportFail OTA_REPORT_FIRMWARE_NOT_EXIST;; mret tt
         else if decide (ret = ERR_OTA_FETCH_TIMEOUT) then IOT_OTA_ReportFail OTA_REPORT_DOWNLOAD_TIMEOUT;; mret tt
         else set_err ERR_OTA_FETCH_FAILED);;
        effect (sleep_ms 1000);;
        fetch_loop tries ret buf range_len timeout_s
      else if decide (n = 0) then
        IOT_OTA_ReportProgress 0 OTA_REPORT_DOWNLOADING;;
        set_report_timer init_timer;;
        now ← lift tick_get;
        set_report_timer (countdown tick_from_ms OTA_REPORT_PROGRESS_INTERVAL now);;
        mret (ret, buf)
      else mret (ret, buf)
  end.

Definition report_percent (percent : Z) : OM unit :=
  if decide (percent = 100) then IOT_OTA_ReportProgress percent OTA_REPORT_DOWNLOADING;; mret tt
  else
    last ← gets size_last_fetched;
    if decide (last > 0) then
      now ← lift tick_get;
      t ← gets report_timer;
      if has_expired t now then
        IOT_OTA_ReportProgress percent OTA_REPORT_DOWNLOADING;;
        now ← lift tick_get;
        set_report_timer (countdown tick_from_ms OTA_REPORT_PROGRESS_INTERVAL now);;
        effect (sleep_ms 100)
      else mret tt
    else mret tt.

(** The result and the buffer; the bar that [print_progress] draws is left
    out. *)
Definition IOT_OTA_FetchYield (buf : bytes) (range_len timeout_s : Z) : OM (Z * bytes) :=
  if decide (zlen buf = 0) then mret (ERR_OTA_INVALID_PARAM, buf)
  else
    s ← gets ota_state;
    if decide (s <> OTA_STATE_FETCHING) then set_err ERR_OTA_INVALID_STATE;; mret (ERR_OTA_INVALID_STATE, buf)
    else
      '(ret, buf) ← fetch_loop 5 0 buf range_len timeout_s;
      if decide (ret > 0) then
        data ← must (slice_at buf 0 ret);
        ctx ← gets md5;
        ctx ← must (ota_lib_md5_update ctx data);
        set_md5 (Some ctx);; log (Hashed data);;
        n ← gets size_fetched;
        set_sizes ret (u32 (n + ret));;
        n ← gets size_fetched;
        size ← gets (fun h => size_file (params h));
        if decide (size = 0) then undefined
        else
          report_percent (u32 (n * 100) `div` size);;
          n ← gets size_fetched;
          (if decide (n >= size) then set_state OTA_STATE_FETCHED else mret tt);;
          mret (ret, buf)
      else mret (ret, buf).

Definition HTTP_OTA_BUFF_LEN := 4100.
Definition HTTP_OTA_RANGE_LEN := 4096.

(** The loop over the pieces: the pieces' total length, or the error that ends
    the download. *)
Fixpoint download_loop (n : nat) (part : option Z) (total_length : Z) (buf : bytes) : OM (Z + Z) :=
  match n with
  | O => unfinished
  | S n =>
      '(length, buf) ← IOT_OTA_FetchYield buf HTTP_OTA_RANGE_LEN 10;
      if decide (length > 0) then
        data ← must (slice_at buf 0 length);
        r ← HAL_Download_Write part (u32 total_length) data;
        if decide (r = FAILURE_RET) then mret (inr FAILURE_RET)
        else
          total_length ← must (int_of (total_length + length));
          IOT_OTA_Yield 100;;
          finished ← IOT_OTA_IsFetchFinish;
          if finished : bool then mret (inl total_length) else download_loop n part total_length buf
      else mret (inr ERR_OTA_FETCH_FAILED)
  end.

(** Checking, reporting and starting the firmware. *)
Definition finish_download (file_size total_length : Z) : OM Z :=
  if decide (total_length = file_size) then
    '(_, firmware_valid) ← IOT_OTA_Ioctl OTA_IOCTL_CHECK_FIRMWARE 4 true;
    match firmware_valid with
    | Word v =>
        if decide (v = 0) then IOT_OTA_GetLastError
        else
          '(_, msg_version) ← IOT_OTA_Ioctl OTA_IOCTL_VERSION 33 true;
          match msg_version with
          | Array a => v ← must (match cstr a with Some v => Ok v | None => Oob end);
                       IOT_OTA_ReportSuccess (Some v);;
                       r ← HAL_Download_End;
                       mret (if decide (r <> 0) then FAILURE_RET else SUCCESS_RET)
          | _ => undefined
          end
    | _ => undefined
    end
  else mret 0.

Definition IOT_OTA_fw_download : OM Z :=
  '(_, size) ← IOT_OTA_Ioctl OTA_IOCTL_FILE_SIZE 4 true;
  let file_size := match size with Word n => s32 n | _ => 0 end in
  a ← gets params;
  part ← (match download_name a with Some name => HAL_Download_Init name | None => undefined end);
  ret ←
    (match part with
     | None => mret FAILURE_RET
     | Some _ =>
         got ← malloc;
         if got : bool then
           r ← download_loop fuel part 0 (replicate (Z.to_nat HTTP_OTA_BUFF_LEN) 0);
           match r with
           | inl total_length => finish_download file_size total_length
           | inr ret => mret ret
           end
         else mret FAILURE_RET
     end);
  IOT_OTA_Clear;;
  mret ret.

(** ** The message callback *)

Definition _ota_push_upload_msg (msg : bytes) (msg_len : Z) : OM unit :=
  push_msg ← malloc;
  if push_msg : bool then
    payload ← malloc;
    if payload : bool then
      node ← malloc;
      if node : bool then
        l ← gets (fun h => msg_list (ch_signal h));
        match l with
        | None => undefined
        | Some l => set_msg_list (Some (l ++ [(take (Z.to_nat msg_len) msg, msg_len)]))
        end
      else mret tt
    else mret tt
  else undefined.

(** [again]: [msg_callback], which is [_ota_callback]. *)
Definition _ota_pop_upload_msg (again : bytes -> Z -> OM unit) : OM unit :=
  l ← gets (fun h => msg_list (ch_signal h));
  match l with
  | None => undefined
  | Some [] => mret tt
  | Some ((m, len) :: l) => set_msg_list (Some l);; again (m ++ replicate (S (Z.to_nat len - length m)) 0) len
  end.

Definition json_call {A} (f : bytes -> W -> res (A * W)) (json : bytes) : OM A := fun s =>
  match f json (dev s) with
  | Ok (a, w) => Done (Go a, mkOSt (h_ota s) (clients s) w (events s))
  | Oob => Undefined
  | Err _ => Unfinished
  end.

Definition start_update (msg_str : bytes) (msg_len : Z) : OM unit :=
  s ← gets ota_state;
  if decide (s = OTA_STATE_FETCHING) then _ota_push_upload_msg msg_str msg_len
  else
    p ← gets params;
    '(rc, p) ← json_call (fun json w => '(rc, p, w) ← ota_lib_get_params alloc_ok json p w; Ok ((rc, p), w)) (msg_str ++ [0]);
    set_params p;;
    if decide (rc <> SUCCESS_RET) then mret tt
    else
      p ← ofc_init (url p);
      set_ch_fetch p;;
      match p with
      | None => mret tt
      | Some _ =>
          rc ← ofc_connect p;
          if decide (rc <> SUCCESS_RET) then set_state OTA_STATE_DISCONNECTED
          else
            set_state OTA_STATE_FETCHING;;
            rc ← IOT_OTA_fw_download;
            (if decide (rc <> SUCCESS_RET) then set_state OTA_STATE_DISCONNECTED else mret tt);;
            _ota_pop_upload_msg callback
      end.

Definition cancel_update (msg_str : bytes) : OM unit :=
  '(m, v, rc) ← json_call (fun json w => '(m, v, rc, w) ← ota_lib_get_msg_module_ver alloc_ok json w; Ok ((m, v, rc), w)) (msg_str ++ [0]);
  if decide (rc <> SUCCESS_RET) then mret tt
  else
    p ← gets params;
    match module_ p, version p with
    | Some hm, Some hv =>
        if decide (m = Some hm /\ v = Some hv) then
          f ← gets ch_fetch;
          '(f, c) ← client_at f;
          h ← lift (http_client_close (http c));
          store_client f (mkOfc (ofc_url c) h (http_data c));;
          set_state OTA_STATE_DISCONNECTED
        else mret tt
    | Some hm, None => if decide (m = Some hm) then undefined else mret tt
    | None, _ => undefined
    end.

Definition handle_message (msg : bytes) (msg_len : Z) : OM unit :=
  got ← malloc;
  if got : bool then
    msg_str ← must (snprintf_s (Z.to_nat msg_len) msg);
    msg_method ← json_call (ota_lib_get_msg_type alloc_ok) (msg_str ++ [0]);
    match msg_method with
    | None => mret tt
    | Some method =>
        f ← gets ch_fetch;
        if decide (f = None /\ method = CANCEL_UPDATE_METHOD) then mret tt
        else if decide (method = UPDATE_FIRMWARE_METHOD) then start_update msg_str msg_len
        else if decide (method = CANCEL_UPDATE_METHOD) then cancel_update msg_str
        else mret tt
    end
  else mret tt.

End download.

(** [msg] and the context are not NULL. *)
Fixpoint _ota_callback (rounds fuel depth : nat) (msg : bytes) (msg_len : Z) : OM unit :=
  match depth with
  | O => unfinished
  | S depth => handle_message rounds fuel (_ota_callback rounds fuel depth) msg msg_len
  end.

(** ** Initialisation *)

(** [osc_init]: the handle, or NULL; a failed [list_new] is not noticed here. *)
Definition osc_init (psn dsn : bytes) (w : W) : option OTA_MQTT_Struct_t * W :=
  let '(got, w) := alloc_ok w in
  if got then
    let '(list_ok, w) := alloc_ok w in
    let '(mutex_ok, w) := HAL_MutexCreate w in
    if mutex_ok then
      match _ota_mqtt_gen_topic_name OTA_TOPIC_BUF_LEN OTA_DOWNSTREAM_TOPIC_TYPE psn dsn with
      | inr _ => (None, w)
      | inl topic =>
          let '(ret, w) := IOT_MQTT_Subscribe topic QOS1 w in
          if decide (ret < 0) then (None, w) else (Some (mkOsc psn dsn topic (if list_ok : bool then Some [] else None)), w)
      end
    else (None, w)
  else (None, w).

(** When [ota_lib_md5_init] fails, [osc_deinit] uses the list. *)
Definition IOT_OTA_Init (psn dsn : option bytes) (w : W) : outcome (option OSt * W) :=
  match psn, dsn with
  | Some psn, Some dsn =>
      let '(got, w) := alloc_ok w in
      if got then
        let '(osc, w) := osc_init psn dsn w in
        match osc with
        | None => Done (None, w)
        | Some osc =>
            let '(got, w) := alloc_ok w in
            match ota_lib_md5_init got with
            | None => match msg_list osc with Some _ => Done (None, w) | None => Undefined end
            | Some ctx =>
                Done (Some (mkOSt (mkOta OTA_STATE_INITED 0 0 (mkParams None None None None None 0) (Some ctx) osc None 0 0 false)
                         ∅ w [Cleared]), w)
            end
        end
      else Done (None, w)
  | _, _ => Done (None, w)
  end.

End state.
