(* ===== verification/OtaSim.v ===== *)
(** A device that runs the update client: the socket layer of [HalTcp], a
    mailbox of update messages, a partition, and what was published. *)

From S2P Require Import Prelude Defs HalTimer Json CLib Digest MqttWire MqttState HalTcp Httpc OtaLib Ota.

Record DevWorld := mkDev {
  d_tcp : TcpWorld;
  d_mail : list bytes;
  d_server : list bytes;
  d_memory : Z;
  d_flash : list (Z * bytes);
  d_published : list (Z * bytes)
}.
Definition on_tcp {A} (f : TcpWorld -> A * TcpWorld) (w : DevWorld) : A * DevWorld :=
  let '(a, t) := f (d_tcp w) in (a, mkDev t (d_mail w) (d_server w) (d_memory w) (d_flash w) (d_published w)).

Definition deliver (data : bytes) (t : TcpWorld) : TcpWorld :=
  mkTcp (t_cycles t) (t_inbox t ++ data) (t_piece t) (t_sent t) (t_open t) (t_next t) (t_dead t).

(** The server answers each request with the next response; a read of an empty
    socket takes five seconds.  [HAL_Malloc] succeeds [d_memory] times. *)
#[export] Instance dev_rtos : Rtos DevWorld := {
  RT_TICK_PER_SECOND := 1000;
  tick_get := on_tcp tick_get;
  tick_from_ms ms := ms;
  sleep_ms ms w := (on_tcp (fun t => (tt, sleep_ms ms t)) w).2;
  alloc_ok w := (bool_decide (0 < d_memory w),
    mkDev (d_tcp w) (d_mail w) (d_server w) (d_memory w - 1) (d_flash w) (d_published w));
  getaddrinfo host port := on_tcp (getaddrinfo host port);
  sock_open f t p := on_tcp (sock_open f t p);
  sock_connect fd a := on_tcp (sock_connect fd a);
  sock_close fd := on_tcp (sock_close fd);
  sock_send fd data w :=
    let '(ret, errno, w) := on_tcp (sock_send fd data) w in
    (ret, errno, mkDev (deliver (default [] (head (d_server w))) (d_tcp w)) (d_mail w) (tail (d_server w)) (d_memory w)
       (d_flash w) (d_published w));
  sock_recv fd n w :=
    let '(ret, errno, got, w) := on_tcp (sock_recv fd n) w in
    (ret, errno, got, if decide (ret < 0) then (on_tcp (fun t => (tt, sleep_ms 5000 t)) w).2 else w)
}.

#[export] Instance dev_device : Device DevWorld := {
  IOT_MQTT_Publish topic qos payload w :=
    (1, mkDev (d_tcp w) (d_mail w) (d_server w) (d_memory w) (d_flash w) (d_published w ++ [(qos, payload)]));
  IOT_MQTT_Subscribe topic qos w := (1, w);
  yield_event t w :=
    match d_mail w with
    | [] => (inr 0, w)
    | m :: mail => (inl (m ++ [0], zlen m), mkDev (d_tcp w) mail (d_server w) (d_memory w) (d_flash w) (d_published w))
    end;
  HAL_MutexCreate w := (true, w);
  fal_partition_find name w := (if decide (name = bytes_of "download") then Some 1 else None, w);
  fal_partition_erase_all p w := (0, mkDev (d_tcp w) (d_mail w) (d_server w) (d_memory w) [] (d_published w));
  fal_partition_write p a data w := (0, mkDev (d_tcp w) (d_mail w) (d_server w) (d_memory w) (d_flash w ++ [(a, data)]) (d_published w));
  fetch_callback c w := w
}.

Definition image : bytes := bytes_of "new firmware".
Definition update_message (size : String.string) (digest : bytes) : bytes :=
  q "{`Method`:`update_firmware`,`Payload`:{`Module`:`app`,`Version`:`1.2`,`URL`:`http://fw.ucloud.cn/a/img.bin`,`MD5`:`" ++
  digest ++ q "`,`Size`:" ++ bytes_of size ++ q "}}".
Definition image_md5 : bytes := match http_client_buffer_md5 image with Ok d => d | _ => [] end.
Definition piece (content : bytes) : bytes :=
  bytes_of "HTTP/1.1 206 Partial Content" ++ CRLF ++ bytes_of "Content-Length: " ++ dec (zlen content) ++ blank_line ++ content.

Definition dev0 (mail responses : list bytes) : DevWorld :=
  mkDev (mkTcp 1000 [] 40 [] ∅ 3 false) mail responses 1000 [] [].
Definition boot (w : DevWorld) : outcome (exit Z * @OSt DevWorld) :=
  match IOT_OTA_Init (Some (bytes_of "psn")) (Some (bytes_of "dsn")) w with
  | Done (Some s, _) => IOT_OTA_Yield 20 (_ota_callback 300 20 4) 1000 s
  | _ => Undefined
  end.

(** An image in two pieces: written, checked, reported, and the device reset. *)
Example update_run :
  match boot (dev0 [update_message "12" image_md5] [piece (bytes_of "new firm"); piece (bytes_of "ware")]) with
  | Done (Restart, s) =>
      d_flash (dev s) = [(0, bytes_of "new firm"); (8, bytes_of "ware")] /\
      (d_published (dev s)) =
        [(0, REPORT_PROGRESS_MSG (bytes_of "downloading") 0 (bytes_of "app") (bytes_of "1.2"));
         (0, REPORT_PROGRESS_MSG (bytes_of "downloading") 100 (bytes_of "app") (bytes_of "1.2"));
         (1, REPORT_SUCCESS_MSG (bytes_of "app") (bytes_of "1.2"))]
  | _ => False
  end.
Proof. vm_compute. auto. Qed.
