(* ===== verification/OtaSafe.v ===== *)
(** What the update client guarantees: only firmware whose MD5 digest is the
    announced one is started - and what becomes of the client afterwards. *)

From S2P Require Import Prelude Defs HalTimer Json CLib Digest MqttWire MqttState HalTcp Httpc OtaLib Ota OtaSim.

(* ================================================================== *)
(** * What the events say *)

(** The data in the current MD5 context; the data written to the partition
    since it was last erased, and whether it lies there in order; how often
    the partition was erased since the context is new. *)
Fixpoint hashed (ev : list event) : bytes :=
  match ev with
  | [] => []
  | Hashed d :: ev => hashed ev ++ d
  | Cleared :: _ => []
  | _ :: ev => hashed ev
  end.
Fixpoint flashed (ev : list event) : bytes :=
  match ev with
  | [] => []
  | Written _ d :: ev => flashed ev ++ d
  | Erased :: _ => []
  | _ :: ev => flashed ev
  end.
Fixpoint in_order (ev : list event) : bool :=
  match ev with
  | [] => true
  | Written a d :: ev => bool_decide (a = u32 (zlen (flashed ev))) && in_order ev
  | Erased :: _ => true
  | _ :: ev => in_order ev
  end.
Fixpoint erasures (ev : list event) : nat :=
  match ev with
  | [] => O
  | Erased :: ev => S (erasures ev)
  | Cleared :: _ => O
  | _ :: ev => erasures ev
  end.
Definition view (ev : list event) : bytes * bytes * bool * nat := (hashed ev, flashed ev, in_order ev, erasures ev).

Section safe.
Context {W : Type} `{Device W}.

(* ================================================================== *)
(** * Programs *)

(** [ends m Q R s]: if [m] returns, [Q] holds; if the processor is reset, [R]. *)
Definition ends {A} (m : OM A) (Q : A -> OSt -> Prop) (R : OSt -> Prop) (s : @OSt W) : Prop :=
  match m s with
  | Done (Go a, s') => Q a s'
  | Done (Restart, s') => R s'
  | _ => True
  end.

Lemma ends_ret {A} (a : A) (Q : A -> OSt -> Prop) R s : Q a s -> ends (mret a) Q R s.
Proof. done. Qed.
Lemma ends_bind {A B} (m : OM A) (f : A -> OM B) Q R s :
  ends m (fun a s' => ends (f a) Q R s') R s -> ends (m ≫= f) Q R s.
Proof. unfold ends, mbind, OM_bind. by destruct (m s) as [[[a|] s']| |]. Qed.
Lemma ends_mono {A} (m : OM A) (Q Q' : A -> OSt -> Prop) (R R' : OSt -> Prop) s :
  ends m Q R s -> (forall a s', Q a s' -> Q' a s') -> (forall s', R s' -> R' s') -> ends m Q' R' s.
Proof. unfold ends. destruct (m s) as [[[a|] s']| |]; auto. Qed.
Lemma ends_gets {A B} (g : OTA_Struct_t -> A) (f : A -> OM B) Q R s :
  ends (f (g (h_ota s))) Q R s -> ends (gets g ≫= f) Q R s.
Proof. done. Qed.
Lemma ends_must {A B} (r : res A) (f : A -> OM B) Q R s :
  (forall a, r = Ok a -> ends (f a) Q R s) -> ends (must r ≫= f) Q R s.
Proof. intros Hf. apply ends_bind. unfold must. destruct r; cbn; auto. Qed.

(** ** Frames *)

(** [keeps R m]: [m] returns, if it does, in a state related to the first. *)
Definition keeps {A} (R : relation OSt) (m : OM A) : Prop := forall s, ends m (fun _ s' => R s s') (fun _ => False) s.

(** Nothing but the outside, the error code, the timer and the HTTP clients
    changed. *)
Record still (s s' : @OSt W) : Prop := {
  st_params : params (h_ota s') = params (h_ota s);
  st_fetch : ch_fetch (h_ota s') = ch_fetch (h_ota s);
  st_md5 : md5 (h_ota s') = md5 (h_ota s);
  st_fetched : size_fetched (h_ota s') = size_fetched (h_ota s);
  st_state : ota_state (h_ota s') = ota_state (h_ota s);
  st_signal : ch_signal (h_ota s') = ch_signal (h_ota s);
  st_view : view (events s') = view (events s)
}.

(** The name of the partition is the literal of the port. *)
Definition named (s : @OSt W) : Prop := download_name (params (h_ota s)) = Some (mkString Literal DOWNLOAD_PARTITION).
(** It is set when there is a fetch client, and it is never another one. *)
Definition owned (s : @OSt W) : Prop :=
  (ch_fetch (h_ota s) <> None -> named s) /\ (download_name (params (h_ota s)) <> None -> named s).

(** What a download keeps, and what a message that starts none keeps. *)
Record kept (s s' : @OSt W) : Prop := {
  k_params : params (h_ota s') = params (h_ota s);
  k_md5 : md5 (h_ota s') = md5 (h_ota s);
  k_fetched : size_fetched (h_ota s') = size_fetched (h_ota s);
  k_state : ota_state (h_ota s) <> OTA_STATE_UNINITED -> ota_state (h_ota s') <> OTA_STATE_UNINITED;
  k_view : view (events s') = view (events s)
}.
Record heard (s s' : @OSt W) : Prop := {
  h_named : named s -> named s';
  h_owned : owned s -> owned s';
  h_md5 : md5 (h_ota s') = md5 (h_ota s);
  h_fetched : size_fetched (h_ota s') = size_fetched (h_ota s);
  h_state : ota_state (h_ota s') = ota_state (h_ota s) \/ ota_state (h_ota s') = OTA_STATE_DISCONNECTED;
  h_view : view (events s') = view (events s)
}.

Class Frame (R : relation (@OSt W)) : Prop := {
  frame_trans : forall s1 s2 s3, R s1 s2 -> R s2 s3 -> R s1 s3;
  frame_still : forall s s', still s s' -> R s s'
}.
#[export] Instance still_frame : Frame still.
Proof. split; [|done]. intros s1 s2 s3 [] []. split; congruence. Qed.
#[export] Instance kept_frame : Frame kept.
Proof. split; [intros s1 s2 s3 [] []; split; try congruence; auto|]. intros s s' []. split; congruence. Qed.
#[export] Instance heard_frame : Frame heard.
Proof.
  split.
  - intros s1 s2 s3 [? ? ? ? E1 ?] [? ? ? ? E2 ?]. split; try congruence; auto.
    destruct E2 as [->| ->]; auto.
  - intros s s' [E1 E2 ? ? ? ? ?].
    split; [unfold named; by rewrite E1|unfold owned, named; by rewrite E1, E2|done|done|by left|done].
Qed.

Section frame.
Context (R : relation (@OSt W)) `{!Frame R}.

Lemma frame_refl s : R s s.
Proof. apply (frame_still (R := R)). by split. Qed.
Lemma keeps_ret {A} (a : A) : keeps R (mret a).
Proof. intros s. apply frame_refl. Qed.
Lemma keeps_bind {A B} (m : OM A) (f : A -> OM B) : keeps R m -> (forall a, keeps R (f a)) -> keeps R (m ≫= f).
Proof.
  intros Hm Hf s. apply ends_bind. eapply ends_mono; [apply Hm|cbv beta|done]. intros a s1 H1.
  eapply ends_mono; [apply Hf|cbv beta|done]. intros b s2 H2. exact (frame_trans _ _ _ H1 H2).
Qed.
Lemma keeps_gets {A} (g : OTA_Struct_t -> A) : keeps R (gets g).
Proof. intros s. apply frame_refl. Qed.
Lemma keeps_modify f : (forall h, params (f h) = params h /\ ch_fetch (f h) = ch_fetch h /\ md5 (f h) = md5 h /\
  size_fetched (f h) = size_fetched h /\ ota_state (f h) = ota_state h /\ ch_signal (f h) = ch_signal h) -> keeps R (modify f).
Proof. intros Hf s. apply (frame_still (R := R)). destruct (Hf (h_ota s)) as (?&?&?&?&?&?). by split. Qed.
Lemma keeps_lift {A} (f : W -> A * W) : keeps R (lift f).
Proof. intros s. unfold ends, lift. destruct (f (dev s)). apply (frame_still (R := R)). by split. Qed.
Lemma keeps_attempt {A} (f : W -> outcome (A * W)) : keeps R (attempt f).
Proof. intros s. unfold ends, attempt. destruct (f (dev s)) as [[a w]| |]; [|done..]. apply (frame_still (R := R)). by split. Qed.
Lemma keeps_json {A} (f : bytes -> W -> res (A * W)) json : keeps R (json_call f json).
Proof. intros s. unfold ends, json_call. destruct (f json (dev s)) as [[a w]| |]; [|done..]. apply (frame_still (R := R)). by split. Qed.
Lemma keeps_undefined {A} : keeps R (undefined (A := A)).
Proof. done. Qed.
Lemma keeps_unfinished {A} : keeps R (unfinished (A := A)).
Proof. done. Qed.
Lemma keeps_must {A} (r : res A) : keeps R (must r).
Proof. destruct r; [apply keeps_ret|apply keeps_undefined..]. Qed.
Lemma keeps_published q m : keeps R (log (Published q m)).
Proof. intros s. apply (frame_still (R := R)). by split. Qed.
Lemma keeps_client_at p : keeps R (client_at p).
Proof. intros s. unfold ends, client_at. destruct p as [p|]; [|done]. destruct (clients s !! p); [|done]. apply frame_refl. Qed.
Lemma keeps_store p c : keeps R (store_client p c).
Proof. intros s. apply (frame_still (R := R)). by split. Qed.
Lemma keeps_free p : keeps R (free_client p).
Proof. intros s. apply (frame_still (R := R)). by split. Qed.
Lemma keeps_new c : keeps R (new_client c).
Proof. intros s. apply (frame_still (R := R)). by split. Qed.
End frame.

Create HintDb frames.
#[local] Hint Resolve keeps_ret keeps_gets keeps_lift keeps_attempt keeps_json keeps_undefined keeps_unfinished keeps_must
  keeps_published keeps_client_at keeps_store keeps_free keeps_new : frames.

(** Frames of compound programs: step by step, case by case. *)
Ltac keeps_step :=
  match goal with
  | |- forall _, _ => intros ?
  | |- keeps _ (match ?x with _ => _ end) => destruct x
  | |- keeps _ (let _ := _ in _) => cbv zeta
  | |- keeps _ (_ ≫= _) => apply keeps_bind; [apply _| |]
  | |- keeps _ (modify _) => apply keeps_modify; [apply _|by intros ?]
  end.
Ltac keeps := repeat (keeps_step || solve [auto with frames typeclass_instances]).

Section reports.
Context (R : relation (@OSt W)) `{!Frame R}.

Lemma keeps_publish t q m : keeps R (_ota_mqtt_publish t q m).
Proof. unfold _ota_mqtt_publish. keeps. Qed.
Lemma keeps_report m v p t f : (forall b, keeps R (f b)) -> keeps R (report m v p t f).
Proof. intros Hf. unfold report, malloc, set_err. keeps. Qed.
Lemma keeps_progress p t : keeps R (IOT_OTA_ReportProgress p t).
Proof. unfold IOT_OTA_ReportProgress, set_err. keeps. apply keeps_report. intros. apply keeps_publish. Qed.
Lemma keeps_send m v t : keeps R (send_upstream_msg_with_version m v t).
Proof. unfold send_upstream_msg_with_version, set_err. keeps. apply keeps_report. intros. apply keeps_publish. Qed.
Lemma keeps_success v : keeps R (IOT_OTA_ReportSuccess v).
Proof. unfold IOT_OTA_ReportSuccess, effect. keeps. apply keeps_send. Qed.
Lemma keeps_fail c : keeps R (IOT_OTA_ReportFail c).
Proof. unfold IOT_OTA_ReportFail, set_err, effect. keeps. apply keeps_report. intros. apply keeps_publish. Qed.
Lemma keeps_push m l : (forall q, keeps R (set_msg_list (Some (q ++ [(take (Z.to_nat l) m, l)])))) -> keeps R (_ota_push_upload_msg m l).
Proof. intros Hq. unfold _ota_push_upload_msg, malloc. keeps. Qed.
Lemma keeps_finished : keeps R IOT_OTA_IsFetchFinish.
Proof. unfold IOT_OTA_IsFetchFinish, set_err. keeps. Qed.
Lemma keeps_malloc : keeps R malloc.
Proof. apply keeps_lift, _. Qed.
Lemma keeps_file_size len al : keeps R (IOT_OTA_Ioctl OTA_IOCTL_FILE_SIZE len al).
Proof. unfold IOT_OTA_Ioctl, set_err. keeps. Qed.
Lemma keeps_version len al : keeps R (IOT_OTA_Ioctl OTA_IOCTL_VERSION len al).
Proof. unfold IOT_OTA_Ioctl, set_err, strncpy. keeps. Qed.
End reports.

(* ================================================================== *)
(** * The download *)

Lemma ends_and {A} (m : OM A) (Q1 Q2 : A -> OSt -> Prop) R1 R2 s :
  ends m Q1 R1 s -> ends m Q2 R2 s -> ends m (fun a s' => Q1 a s' /\ Q2 a s') (fun s' => R1 s' /\ R2 s') s.
Proof. unfold ends. destruct (m s) as [[[a|] s']| |]; auto. Qed.

Section fetching.
Context (rounds fuel : nat).

Lemma keeps_ofc_init R `{!Frame R} u : keeps R (ofc_init u).
Proof. unfold ofc_init, malloc. keeps. Qed.
Lemma keeps_ofc_connect R `{!Frame R} p : keeps R (ofc_connect p).
Proof. unfold ofc_connect. keeps. Qed.
Lemma keeps_ofc_deinit R `{!Frame R} p : keeps R (ofc_deinit p).
Proof. unfold ofc_deinit, effect. keeps. Qed.
Lemma keeps_ofc_fetch R `{!Frame R} p n buf len t : keeps R (ofc_fetch rounds fuel p n buf len t).
Proof. unfold ofc_fetch, int_sub. keeps. Qed.

Lemma keeps_set_state v : v <> OTA_STATE_UNINITED -> keeps kept (set_state v).
Proof. intros Hv s. by split. Qed.
Lemma keeps_set_ch_fetch p : keeps kept (set_ch_fetch p).
Proof. intros s. by split. Qed.
#[local] Hint Resolve keeps_ofc_init keeps_ofc_connect keeps_ofc_deinit keeps_ofc_fetch keeps_set_ch_fetch keeps_progress
  keeps_fail keeps_success : frames.

Lemma keeps_fetch_loop tries : forall ret buf len t, keeps kept (fetch_loop rounds fuel tries ret buf len t).
Proof.
  induction tries as [|tries IH]; intros ret buf len t; cbn [fetch_loop]; [keeps|].
  unfold set_err, set_report_timer, effect. keeps; try apply IH; by apply keeps_set_state.
Qed.
Lemma keeps_percent R `{!Frame R} p : keeps R (report_percent p).
Proof. unfold report_percent, set_report_timer, effect. keeps. Qed.

(** The result of a fetch is an [int]. *)
Lemma parse_url_err u rc : _utils_parse_url u = Ok (inr rc) -> rc = ERR_PARAM_INVALID.
Proof.
  unfold _utils_parse_url. intros Hu. apply res_bind_ok in Hu as ([p|] & _ & Hu); [|congruence].
  apply res_bind_ok in Hu as ([p2|] & _ & Hu); [|congruence].
  repeat (apply res_bind_ok in Hu as (? & _ & Hu)). congruence.
Qed.
Lemma send_get_code c u n len d t w :
  yields (_http_send_request rounds c u HTTP_GET n len d t w) (fun '(rc, _) => rc <= 0).
Proof.
  unfold _http_send_request. destruct (decide (handle (net c) = 0)); [done|]. apply yields_bind.
  destruct (access (_utils_parse_url u)) as [[[h p]|rc]| |] eqn:E; [|cbn|done..].
  - apply yields_bind. destruct (_http_send_header _ _ _ _ _ _ _ _ _) as [[rc w']| |]; [|done..]. cbn.
    destruct (decide (rc <> 0)); cbn; [done|]. lia.
  - destruct (_utils_parse_url u) as [p| |] eqn:Hp; [|done..]. cbn in E. injection E as ->.
    by rewrite (parse_url_err _ _ Hp).
Qed.
Lemma recv_code c t d w : yields (http_client_recv_data rounds fuel c t d w) (fun '(rc, _, _, _) => rc <= 0).
Proof.
  unfold http_client_recv_data. destruct (response_buf d); [|done]. case_decide; [done|].
  destruct (_http_client_recv_response rounds fuel c t d w) as [[[[rc c'] d'] w']| |]; [|done..]. cbn.
  case_decide; [|done]. destruct (http_client_close c' w'). cbn. lia.
Qed.

Lemma ofc_fetch_int p n buf len t s :
  ends (ofc_fetch rounds fuel p n buf len t) (fun r _ => r.1 < 2147483648) (fun _ => True) s.
Proof.
  unfold ofc_fetch. apply ends_bind. unfold ends at 1. destruct (client_at p s) as [[[[q c]|] s1]| |]; [|done..].
  apply ends_bind. unfold attempt at 1, ends at 1.
  pose proof (send_get_code (http c) (ofc_url c ++ [0]) n len (http_data c) 5000 (dev s1)) as Hc.
  destruct (_http_send_request _ _ _ _ _ _ _ _ _) as [[rc w]| |]; [|done..]. cbn in Hc.
  destruct (decide (rc <> SUCCESS_RET)); [cbn; lia|]. apply ends_bind. unfold int_sub at 1.
  unfold ends at 1. destruct (must _ _) as [[[diff|] s2]| |]; [|done..].
  apply ends_bind. unfold attempt, ends at 1. set (d := mkHttpData _ _ _ _ _ _ _ _ _).
  pose proof (recv_code (http c) (u32 (t * 1000)) d (dev s2)) as Hr.
  destruct (http_client_recv_data _ _ _ _ _ _) as [[[[rc2 h2] d2] w2]| |]; [|done..]. cbn in Hr. cbn [mbind outcome_bind].
  apply ends_bind. unfold ends at 1. cbn [store_client].
  destruct (decide (rc2 <> SUCCESS_RET)).
  - repeat case_decide; cbn; unfold ERR_OTA_FILE_NOT_EXIST, ERR_OTA_FETCH_AUTH_FAIL, ERR_OTA_FETCH_TIMEOUT; lia.
  - apply ends_bind. unfold int_sub at 1, ends at 1. destruct (must _ _) as [[[k1|] s3]| |]; [|done..].
    apply ends_must. unfold int_of. intros n2 Hn. case_decide; [|done]. injection Hn as <-. cbn. lia.
Qed.

Lemma fetch_loop_int tries : forall ret buf len t s, ret < 2147483648 ->
  ends (fetch_loop rounds fuel tries ret buf len t) (fun r _ => r.1 < 2147483648) (fun _ => True) s.
Proof.
  assert (Hany : forall A (m : OM A) (f : A -> OM (Z * bytes)) s, (forall a s', ends (f a) (fun r _ => r.1 < 2147483648) (fun _ => True) s') ->
    ends (m ≫= f) (fun r _ => r.1 < 2147483648) (fun _ => True) s).
  { intros A m f s Hf. apply ends_bind. unfold ends at 1. destruct (m s) as [[[a|] s']| |]; auto. }
  induction tries as [|tries IH]; intros ret buf len t s Hr; cbn [fetch_loop]; [done|].
  apply Hany; intros p s1. apply Hany; intros n s2. apply ends_bind. eapply ends_mono; [apply ofc_fetch_int| |done].
  intros [ret' buf'] s3 Hr'. cbn in Hr'. apply Hany; intros st s4.
  repeat first [apply Hany; intros ? ? | by apply IH | by cbn | case_decide].
Qed.

(* ------------------------------------------------------------------ *)
(** ** Invariants *)

Record Inv (s : @OSt W) : Prop := {
  i_md5 : forall ctx, md5 (h_ota s) = Some ctx -> Forall byte (hashed (events s)) -> zlen (hashed (events s)) < 2 ^ 61 ->
    rep utils_md5_process md5_state0 ctx (hashed (events s));
  i_none : erasures (events s) = O -> hashed (events s) = [];
  i_state : ota_state (h_ota s) <> OTA_STATE_UNINITED;
  i_owned : owned s
}.

Lemma view_inv ev ev' : view ev' = view ev ->
  hashed ev' = hashed ev /\ flashed ev' = flashed ev /\ in_order ev' = in_order ev /\ erasures ev' = erasures ev.
Proof. by intros [=]. Qed.

Lemma kept_inv s s' : kept s s' -> Inv s -> named s -> Inv s' /\ named s'.
Proof.
  intros [Hp Hm Hf Hs (Hh & _ & _ & He)%view_inv] [I1 I2 I3 I4] Hn.
  assert (Hn' : named s') by (unfold named in *; by rewrite Hp). split; [|done].
  split; [rewrite Hm, Hh; auto|rewrite He, Hh; auto|auto|by split].
Qed.
Lemma heard_inv s s' : heard s s' -> Inv s -> Inv s'.
Proof.
  intros [Hn Ho Hm Hf Hs (Hh & _ & _ & He)%view_inv] [I1 I2 I3 I4].
  split; [rewrite Hm, Hh; auto|rewrite He, Hh; auto|destruct Hs as [->| ->]; done|auto].
Qed.

(** A piece was fetched and hashed, or nothing was. *)
Lemma fetch_yield_run buf len t s : Inv s -> named s -> erasures (events s) <> O ->
  ends (IOT_OTA_FetchYield rounds fuel buf len t) (fun '(ret, buf') s' =>
    Inv s' /\ named s' /\ flashed (events s') = flashed (events s) /\ in_order (events s') = in_order (events s) /\
    erasures (events s') = erasures (events s) /\
    (ret > 0 -> exists data, slice_at buf' 0 ret = Ok data /\ hashed (events s') = hashed (events s) ++ data))
  (fun _ => False) s.
Proof.
  intros HI Hn He. unfold IOT_OTA_FetchYield. destruct (decide (zlen buf = 0)); [by apply ends_ret; auto 10|].
  apply ends_gets. destruct (decide (ota_state (h_ota s) <> OTA_STATE_FETCHING)).
  { unfold ends. cbn. split_and!; [|done..]. by destruct HI. }
  apply ends_bind. eapply ends_mono; [eapply ends_and; [apply keeps_fetch_loop|by apply fetch_loop_int]| |by intros ? [? _]].
  intros [ret buf'] s1 [Hk Hint]. cbn in Hint.
  destruct (kept_inv _ _ Hk HI Hn) as [HI1 Hn1]. destruct (view_inv _ _ (k_view _ _ Hk)) as (Eh & Ef & Eo & Ee). clear Hk.
  destruct (decide (ret > 0)) as [Hpos|]; [|by apply ends_ret; rewrite Ef, Eo, Ee; auto 10].
  apply ends_must. intros data Hdata. apply ends_gets, ends_must. intros ctx Hctx.
  assert (Hlen : zlen data = ret) by (by apply slice_at_len in Hdata).
  set (s2 := mkOSt (mkOta (ota_state (h_ota s1)) ret (u32 (size_fetched (h_ota s1) + ret)) (params (h_ota s1)) (Some ctx)
    (ch_signal (h_ota s1)) (ch_fetch (h_ota s1)) (err (h_ota s1)) (report_timer (h_ota s1)) (fetch_callback_func (h_ota s1)))
    (clients s1) (dev s1) (Hashed data :: events s1)).
  assert (HI2 : Inv s2).
  { destruct HI1 as [I1 I2 I3 I4]. split; [|cbn; congruence|done|done]. cbn. intros c [= <-] Hb Hmax.
    apply Forall_app in Hb as [Hb1 Hb2].
    destruct (md5 (h_ota s1)) as [c0|]; [|done]. cbn in Hctx.
    destruct (update_rep utils_md5_process md5_state0 c0 (hashed (events s1)) data) as (c1 & Hu & Hrep).
    - apply I1; [done|done|]. rewrite length_app in Hmax. lia.
    - done.
    - lia.
    - unfold utils_md5_update in Hctx. congruence. }
  change (ends (size ← gets (fun h => size_file (params h));
    if decide (size = 0) then undefined
    else report_percent (u32 (size_fetched (h_ota s2) * 100) `div` size);;
         n ← gets size_fetched;
         (if decide (n >= size) then set_state OTA_STATE_FETCHED else mret tt);; mret (ret, buf'))
    (fun '(ret, buf') s' => Inv s' /\ named s' /\ flashed (events s') = flashed (events s) /\ in_order (events s') = in_order (events s) /\
      erasures (events s') = erasures (events s) /\
      (ret > 0 -> exists data, slice_at buf' 0 ret = Ok data /\ hashed (events s') = hashed (events s) ++ data))
    (fun _ => False) s2).
  apply ends_gets. case_decide; [done|].
  match goal with |- ends ?m _ _ _ => assert (Hk : keeps kept m) end.
  { keeps; [apply keeps_percent, _|by apply keeps_set_state]. }
  specialize (Hk s2). match goal with |- ends ?m _ _ _ => assert (Hv : ends m (fun r _ => r = (ret, buf')) (fun _ => True) s2) end.
  { apply ends_bind. unfold ends at 1. destruct (report_percent _ s2) as [[[u|] s3]| |]; [|done..].
    apply ends_gets. apply ends_bind. case_decide; done. }
  eapply ends_mono; [exact (ends_and _ _ _ _ _ _ Hk Hv)| |by intros ? [? _]].
  intros r s3 [Hk3 ->]. destruct (kept_inv _ _ Hk3 HI2) as [HI3 Hn3]; [done|].
  destruct (view_inv _ _ (k_view _ _ Hk3)) as (Eh3 & Ef3 & Eo3 & Ee3).
  rewrite Eh3, Ef3, Eo3, Ee3. cbn. rewrite Eh, Ef, Eo, Ee. split_and!; eauto.
Qed.
End fetching.

(* ------------------------------------------------------------------ *)
(** ** From a message to the reset *)

(** What holds when the processor is reset: the partition holds, in order, the
    data whose digest was compared with the announced one.  [pre] is what the
    MD5 context had seen before the partition was erased: nothing, unless the
    download was started inside another one. *)
Definition verified (s : @OSt W) : Prop :=
  let ev := events s in
  exists pre m, hashed ev = pre ++ flashed ev /\ in_order ev = true /\ (erasures ev = 1%nat -> pre = []) /\
    md5sum (params (h_ota s)) = Some m /\
    (Forall byte (hashed ev) -> zlen (hashed ev) + 72 < 2 ^ 61 -> m = hex (Rfc1321.md5 (hashed ev))).

(** The state in the middle of a download that wrote [total] bytes. *)
Record loading (pre : bytes) (total : Z) (s : @OSt W) : Prop := {
  l_inv : Inv s;
  l_named : named s;
  l_hashed : hashed (events s) = pre ++ flashed (events s);
  l_total : zlen (flashed (events s)) = total;
  l_order : in_order (events s) = true;
  l_erased : erasures (events s) <> O;
  l_pre : erasures (events s) = 1%nat -> pre = []
}.

Lemma heard_loading pre total s s' : heard s s' -> loading pre total s -> loading pre total s'.
Proof.
  intros Hh [I1 I2 I3 I4 I5 I6 I7]. pose proof (heard_inv _ _ Hh I1) as HI. destruct Hh as [Hn _ _ _ _ (Eh & Ef & Eo & Ee)%view_inv].
  split; rewrite ?Eh, ?Ef, ?Eo, ?Ee; auto.
Qed.

Lemma finish_hex ctx m : rep utils_md5_process md5_state0 ctx m -> zlen m + 72 < 2 ^ 61 -> Forall byte m ->
  utils_md5_finish_hb2hex ctx = Ok (hex (Rfc1321.md5 m)).
Proof.
  intros Hrep Hmax Hm. unfold utils_md5_finish_hb2hex. rewrite (md5_finish_rep ctx m) by done.
  cbn [mbind res_bind]. f_equal. apply hex_spec.
  apply concat_byte, Forall_fmap, Forall_forall. intros x _. apply le_byte.
Qed.

(** [IOT_OTA_Clear] wipes a string literal. *)
Lemma clear_undefined s (Q : unit -> OSt -> Prop) R : named s -> ends IOT_OTA_Clear Q R s.
Proof.
  intros Hn. unfold IOT_OTA_Clear. apply ends_gets, ends_bind.
  eapply ends_mono; [apply (keeps_ofc_deinit still)|cbv beta|done]. intros r s1 Hs. apply ends_gets.
  unfold named in Hn. by rewrite (st_params _ _ Hs), Hn.
Qed.

Section callback.
Context (rounds fuel : nat) (callback : bytes -> Z -> @OM W unit).
Context (Hcallback : forall msg len s, Inv s -> ends (callback msg len) (fun _ s' => heard s s') verified s).

Lemma yield_run n t : forall s, Inv s -> ends (yield_loop callback n t) (fun _ s' => heard s s') verified s.
Proof using Hcallback.
  induction n as [|n IH]; intros s HI; [done|]. cbn [yield_loop]. apply ends_bind.
  eapply ends_mono; [apply (keeps_lift heard)|cbv beta|done]. intros [[msg len]|ret] s1 Hs1; [|by apply ends_ret].
  pose proof (heard_inv _ _ Hs1 HI) as HI1. apply ends_bind. eapply ends_mono; [by apply Hcallback|cbv beta|done]. intros u s2 Hs2.
  eapply ends_mono; [apply IH; by eapply heard_inv|cbv beta|done]. intros r s3 Hs3.
  exact (frame_trans _ _ _ Hs1 (frame_trans _ _ _ Hs2 Hs3)).
Qed.

Lemma download_run n part pre : forall total buf s, loading pre total s ->
  ends (download_loop rounds fuel callback n part total buf) (fun r s' =>
    match r with inl total' => loading pre total' s' | inr _ => named s' end) verified s.
Proof using Hcallback.
  induction n as [|n IH]; intros total buf s Hl; [done|]. cbn [download_loop]. apply ends_bind.
  destruct Hl as [HI Hn Hh Ht Ho He Hp].
  eapply ends_mono; [by apply fetch_yield_run|cbv beta|done]. intros [len buf'] s1 (HI1 & Hn1 & Ef & Eo & Ee & Hdata).
  destruct (decide (len > 0)) as [Hpos|]; [|by apply ends_ret]. destruct (Hdata Hpos) as (data & Hs & Eh).
  apply ends_must. intros data' Hs'. assert (data' = data) as -> by congruence. clear Hs'.
  apply ends_bind. unfold HAL_Download_Write. destruct part as [part|]; [|by apply ends_ret; rewrite decide_True by done].
  apply ends_bind. eapply ends_mono; [apply (keeps_lift still)|cbv beta|done]. intros r s2 Hst.
  assert (Hk : kept s1 s2) by (by apply frame_still). destruct (kept_inv _ _ Hk HI1 Hn1) as [HI2 Hn2].
  destruct (view_inv _ _ (st_view _ _ Hst)) as (Eh2 & Ef2 & Eo2 & Ee2).
  destruct (decide (r < 0)); [by apply ends_ret; rewrite decide_True by done|].
  apply ends_bind. unfold log, ends at 1. cbn [mbind]. apply ends_ret. rewrite decide_False by done.
  apply ends_must. intros total' Htot. unfold int_of in Htot. case_decide; [|done]. injection Htot as <-.
  set (s3 := mkOSt _ _ _ _). assert (Hl3 : loading pre (total + len) s3).
  { apply slice_at_len in Hs. destruct HI2 as [I1 I2 I3 I4]. split; [by split|done|..]; cbn; try congruence.
    - by rewrite Eh2, Eh, Hh, Ef2, Ef, app_assoc.
    - rewrite Ef2, Ef, length_app. lia.
    - rewrite Eo2, Eo, Ho, andb_true_r. apply bool_decide_eq_true. by rewrite Ef2, Ef, Ht.
    - rewrite Ee2, Ee. auto. }
  clearbody s3. apply ends_bind. eapply ends_mono; [apply yield_run, Hl3|cbv beta|done]. intros u s4 Hs4.
  pose proof (heard_loading _ _ _ _ Hs4 Hl3) as Hl4. apply ends_bind.
  eapply ends_mono; [apply (keeps_finished still)|cbv beta|done]. intros f s5 Hs5.
  assert (Hl5 : loading pre (total + len) s5) by (eapply heard_loading; [by apply (frame_still (R := heard))|done]).
  destruct f; [by apply ends_ret|by apply IH].
Qed.

Lemma finish_download_run file_size total pre s : loading pre total s ->
  ends (finish_download file_size total) (fun _ s' => named s') verified s.
Proof using.
  intros [HI Hn Hh Ht Ho He Hp]. unfold finish_download. destruct (decide (total = file_size)); [|by apply ends_ret].
  apply ends_bind. unfold IOT_OTA_Ioctl at 1. rewrite (decide_False (P := 4 = 0)) by done. apply ends_gets.
  destruct (before_fetching _); [done|]. rewrite (decide_False (P := 4 <> 4 \/ true = false)) by (by intros [?|?]).
  destruct (decide (_ <> OTA_STATE_FETCHED)); [done|]. apply ends_gets, ends_must. intros [digits ctx'] Hfin.
  apply ends_bind. unfold set_md5, modify, ends at 1. apply ends_gets. cbn [h_ota params].
  destruct (md5sum (params (h_ota s))) as [m|] eqn:Hm; [|done].
  destruct (decide (m = digits)) as [->|Hne].
  2: { apply ends_bind. unfold ends at 1. cbn. apply ends_bind.
       eapply ends_mono; [apply (keeps_fail still)|cbv beta|done]. intros r s2 Hst. apply ends_ret.
       refine (ends_ret _ _ verified _ _). cbv beta iota. rewrite (decide_True (P := 0 = 0)) by done.
       unfold ends. cbn. unfold named in *. by rewrite (st_params _ _ Hst). }
  apply ends_ret. rewrite (decide_False (P := 1 = 0)) by done. set (s1 := mkOSt _ _ _ _).
  assert (Hv : verified s1).
  { exists pre, digits. split_and!; [done|done|done|done|]. cbn. intros Hb Hmax.
    destruct (md5 (h_ota s)) as [c|] eqn:Hc; [|done]. cbn in Hfin.
    destruct (finish_pad _ _ c); cbn in Hfin; [|done..].
    rewrite (finish_hex c (hashed (events s))) in Hfin; [by injection Hfin as <- _|apply HI; [done|done|lia]|done|done]. }
  assert (Hst : forall s2, still s1 s2 -> verified s2 /\ named s2).
  { intros s2 Hst. destruct (view_inv _ _ (st_view _ _ Hst)) as (Eh & Ef & Eo & Ee). split.
    - unfold verified. by rewrite Eh, Ef, Eo, Ee, (st_params _ _ Hst).
    - unfold named. by rewrite (st_params _ _ Hst). }
  clearbody s1. clear - Hst. apply ends_bind.
  eapply ends_mono; [apply (keeps_version still)|cbv beta|done]. intros [rc out] s2 Hs2.
  destruct out as [|v|a]; [done|done|]. apply ends_must. intros v _. apply ends_bind.
  eapply ends_mono; [apply (keeps_success still)|cbv beta|done]. intros r s3 Hs3. apply ends_bind.
  unfold HAL_Download_End. apply ends_bind. unfold effect.
  eapply ends_mono; [apply (keeps_lift still)|cbv beta|done]. intros u s4 Hs4.
  apply (Hst s4). exact (frame_trans _ _ _ Hs2 (frame_trans _ _ _ Hs3 Hs4)).
Qed.

(** A download does not return. *)
Lemma fw_download_run s : Inv s -> named s -> ends (IOT_OTA_fw_download rounds fuel callback) (fun _ _ => False) verified s.
Proof using Hcallback.
  intros HI Hn. unfold IOT_OTA_fw_download. apply ends_bind.
  eapply ends_mono; [apply (keeps_file_size still)|cbv beta|done]. intros [rc size] s1 Hst. apply ends_gets.
  pose proof (kept_inv _ _ (frame_still _ _ Hst) HI Hn) as [HI1 Hn1]. unfold named in Hn1. rewrite Hn1. clear Hst HI Hn.
  apply ends_bind. unfold HAL_Download_Init. apply ends_bind.
  eapply ends_mono; [apply (keeps_lift still)|cbv beta|done]. intros part s2 Hst.
  pose proof (kept_inv _ _ (frame_still _ _ Hst) HI1 Hn1) as [HI2 Hn2]. clear Hst HI1 Hn1.
  assert (Hend : forall ret s, named s -> ends (IOT_OTA_Clear;; mret ret) (fun (_ : Z) _ => False) verified s).
  { intros ret s' Hn. apply ends_bind. by apply clear_undefined. }
  destruct part as [part|]; [|by apply ends_ret; cbv beta iota; apply ends_bind, ends_ret; cbv beta; apply Hend]. apply ends_bind.
  eapply ends_mono; [apply (keeps_lift still)|cbv beta|done]. intros r s3 Hst.
  pose proof (kept_inv _ _ (frame_still _ _ Hst) HI2 Hn2) as [HI3 Hn3]. clear Hst HI2 Hn2.
  destruct (decide (r < 0)); [by apply ends_ret; cbv beta iota; apply ends_bind, ends_ret; cbv beta; apply Hend|].
  apply ends_bind. unfold log, ends at 1. apply ends_ret. cbv beta iota. apply ends_bind, ends_bind. set (s4 := mkOSt _ _ _ _).
  assert (Hl : loading (hashed (events s3)) 0 s4).
  { destruct HI3 as [I1 I2 I3 I4]. split; [by split|done|..]; cbn; auto; by rewrite app_nil_r. }
  clearbody s4. eapply ends_mono; [apply (keeps_malloc still)|cbv beta|done]. intros got s5 Hst.
  assert (Hl5 : loading (hashed (events s3)) 0 s5) by (eapply heard_loading; [by apply (frame_still (R := heard))|done]).
  destruct got; [|apply ends_ret; cbv beta; apply Hend, (l_named _ _ _ Hl5)]. apply ends_bind. eapply ends_mono; [by apply (download_run _ _ (hashed (events s3)))| |done].
  intros [total'|ret] s6 Hs6; [|by apply ends_ret; cbv beta; apply Hend].
  eapply ends_mono; [by eapply finish_download_run|cbv beta|done]. intros ret s7 Hs7. by apply Hend.
Qed.
End callback.

(* ------------------------------------------------------------------ *)
(** ** The callback *)

Lemma get_params_name json p w rc p' w' : ota_lib_get_params (W := W) alloc_ok json p w = Ok (rc, p', w') ->
  download_name p' = Some (mkString Literal DOWNLOAD_PARTITION) \/ rc <> SUCCESS_RET /\ download_name p' = download_name p.
Proof.
  unfold ota_lib_get_params. intros Hg.
  repeat match type of Hg with
  | (_ ≫= _) = Ok _ => apply res_bind_ok in Hg as (? & _ & Hg)
  | (let '(_, _) := ?x in _) = _ => destruct x
  | match ?x with Some _ => _ | None => _ end = _ => destruct x
  end; injection Hg as <- <- <-; cbn; auto.
Qed.

Lemma keeps_cancel msg : keeps heard (cancel_update msg).
Proof.
  assert (Hst : keeps heard (set_state (W := W) OTA_STATE_DISCONNECTED)) by (intros s; split; auto; by right).
  unfold cancel_update. keeps.
Qed.

Section handle.
Context (rounds fuel : nat) (callback : bytes -> Z -> @OM W unit).
Context (Hcallback : forall msg len s, Inv s -> ends (callback msg len) (fun _ s' => heard s s') verified s).

Lemma start_run msg len s : Inv s -> ends (start_update rounds fuel callback msg len) (fun _ s' => heard s s') verified s.
Proof using Hcallback.
  intros HI. unfold start_update. apply ends_gets.
  destruct (decide (_ = OTA_STATE_FETCHING)); [by eapply ends_mono; [apply (keeps_push heard); intros q s'; by split; auto|..]|].
  apply ends_gets, ends_bind. unfold json_call, ends at 1.
  destruct (ota_lib_get_params alloc_ok (msg ++ [0]) (params (h_ota s)) (dev s)) as [[[rc p] w]| |] eqn:Hg; [|done..].
  apply get_params_name in Hg. cbn [mbind res_bind]. apply ends_bind. unfold set_params, modify, ends at 1. set (s1 := mkOSt _ _ _ _).
  assert (H1 : heard s s1).
  { split; try done; [|intros [Ho1 Ho2]; unfold owned, named in *; cbn; destruct Hg as [?|[_ ->]]; by split|by left].
    unfold named. cbn. by destruct Hg as [?|[_ ->]]. }
  destruct (decide (rc <> SUCCESS_RET)); [by apply ends_ret|].
  assert (Hn1 : named s1) by (by destruct Hg as [?|[? _]]). clearbody s1. clear Hg.
  apply ends_bind. eapply ends_mono; [apply (keeps_ofc_init heard)|cbv beta|done]. intros f s2 H2.
  apply ends_bind. unfold set_ch_fetch, modify, ends at 1. set (s3 := mkOSt _ _ _ _).
  assert (Hn3 : named s3) by (apply (h_named _ _ H2), Hn1).
  assert (H3 : heard s s3).
  { destruct (frame_trans _ _ _ H1 H2) as [A1 A2 A3 A4 A5 A6]. split; auto. by split. }
  clearbody s3. destruct f as [f|]; [|by apply ends_ret]. apply ends_bind.
  eapply ends_mono; [apply (keeps_ofc_connect heard)|cbv beta|done]. intros rc2 s4 H4.
  pose proof (frame_trans _ _ _ H3 H4) as H5. apply (h_named _ _ H4) in Hn3.
  destruct (decide (rc2 <> SUCCESS_RET)).
  { destruct H5. unfold set_state, modify, ends. split; auto; by right. }
  apply ends_bind. unfold set_state at 1, modify at 1, ends at 1. set (s5 := mkOSt _ _ _ _).
  assert (HI5 : Inv s5).
  { pose proof (heard_inv _ _ H5 HI) as [I1 I2 I3 I4]. by split. }
  assert (Hn5 : named s5) by done. clearbody s5. clear H5. apply ends_bind.
  eapply ends_mono; [by apply (fw_download_run _ _ _ Hcallback)|done|done].
Qed.

Lemma handle_run msg len s : Inv s -> ends (handle_message rounds fuel callback msg len) (fun _ s' => heard s s') verified s.
Proof using Hcallback.
  intros HI. unfold handle_message. apply ends_bind.
  eapply ends_mono; [apply (keeps_malloc heard)|cbv beta|done]. intros got s1 H1.
  destruct got; [|by apply ends_ret]. apply ends_must. intros text _. apply ends_bind.
  eapply ends_mono; [apply (keeps_json heard)|cbv beta|done]. intros m s2 H2. pose proof (frame_trans _ _ _ H1 H2) as H3.
  destruct m as [m|]; [|by apply ends_ret]. apply ends_gets.
  destruct (decide (_ /\ _)); [by apply ends_ret|]. destruct (decide (m = UPDATE_FIRMWARE_METHOD)).
  - eapply ends_mono; [apply start_run; by eapply heard_inv|cbv beta|done]. intros u s3 H4. exact (frame_trans _ _ _ H3 H4).
  - destruct (decide (m = CANCEL_UPDATE_METHOD)); [|by apply ends_ret].
    eapply ends_mono; [apply keeps_cancel|cbv beta|done]. intros u s3 H4. exact (frame_trans _ _ _ H3 H4).
Qed.
End handle.

Lemma callback_run rounds fuel depth : forall msg len s, Inv s ->
  ends (_ota_callback rounds fuel depth msg len) (fun _ s' => heard s s') verified s.
Proof. induction depth as [|depth IH]; intros msg len s HI; [done|]. by apply handle_run. Qed.

(* ------------------------------------------------------------------ *)
(** ** The application *)

(** What the application may call: every function of [ota_client.c] it is
    given. *)
Inductive api :=
  | Yield (timeout_ms : Z)
  | ReportVersion (module_ version : option bytes)
  | RequestFirmware (module_ version : option bytes)
  | ReportProgress (progress state : Z)
  | ReportSuccess (version : option bytes)
  | ReportFail (err_code : Z)
  | IsFetching
  | IsFetchFinish
  | Ioctl (type : IOT_OTA_CmdType) (buf_len : Z) (aligned : bool)
  | GetLastError
  | FetchYield (buf : bytes) (range_len timeout_s : Z)
  | FwDownload
  | Clear
  | Destroy.

Definition api_call (rounds fuel depth : nat) (c : api) : @OM W unit :=
  match c with
  | Yield t => IOT_OTA_Yield fuel (_ota_callback rounds fuel depth) t;; mret tt
  | ReportVersion m v => IOT_OTA_ReportVersion m v;; mret tt
  | RequestFirmware m v => IOT_OTA_RequestFirmware m v;; mret tt
  | ReportProgress p st => IOT_OTA_ReportProgress p st;; mret tt
  | ReportSuccess v => IOT_OTA_ReportSuccess v;; mret tt
  | ReportFail c => IOT_OTA_ReportFail c;; mret tt
  | IsFetching => IOT_OTA_IsFetching;; mret tt
  | IsFetchFinish => IOT_OTA_IsFetchFinish;; mret tt
  | Ioctl ty len al => IOT_OTA_Ioctl ty len al;; mret tt
  | GetLastError => IOT_OTA_GetLastError;; mret tt
  | FetchYield buf len t => IOT_OTA_FetchYield rounds fuel buf len t;; mret tt
  | FwDownload => IOT_OTA_fw_download rounds fuel (_ota_callback rounds fuel depth);; mret tt
  | Clear => IOT_OTA_Clear
  | Destroy => IOT_OTA_Destroy;; mret tt
  end.
Fixpoint application (rounds fuel depth : nat) (calls : list api) : @OM W unit :=
  match calls with
  | [] => mret tt
  | c :: calls => api_call rounds fuel depth c;; application rounds fuel depth calls
  end.

(** No download runs. *)
Definition idle (s : @OSt W) : Prop :=
  ota_state (h_ota s) = OTA_STATE_INITED \/ ota_state (h_ota s) = OTA_STATE_DISCONNECTED.

Lemma heard_idle s s' : heard s s' -> idle s -> idle s'.
Proof. intros Hh Hi. unfold idle in *. destruct (h_state _ _ Hh) as [->| ->]; auto. Qed.

Lemma ioctl_idle R `{!Frame R} ty len al s : idle s -> ends (IOT_OTA_Ioctl ty len al) (fun _ s' => R s s') (fun _ => False) s.
Proof.
  intros Hi. unfold IOT_OTA_Ioctl. case_decide; [apply keeps_ret, _|]. apply ends_gets.
  destruct Hi as [-> | ->]; cbn [before_fetching].
  - unfold set_err. revert s. change (keeps R (modify (fun h => mkOta (ota_state h) (size_last_fetched h) (size_fetched h) (params h) (md5 h)
      (ch_signal h) (ch_fetch h) ERR_OTA_INVALID_STATE (report_timer h) (fetch_callback_func h));;
      mret (ERR_OTA_INVALID_STATE, Nothing))). keeps.
  - rewrite (decide_True (P := OTA_STATE_DISCONNECTED <> OTA_STATE_FETCHED)) by done. unfold set_err, strncpy.
    match goal with |- ends ?m _ _ _ => assert (Hk : keeps R m) by keeps end. apply Hk.
Qed.

(** Outside a download there is nothing to fetch. *)
Lemma fetch_idle rounds fuel buf len t s : idle s ->
  ends (IOT_OTA_FetchYield rounds fuel buf len t) (fun _ s' => heard s s') (fun _ => False) s.
Proof.
  intros Hi. unfold IOT_OTA_FetchYield. case_decide; [apply keeps_ret, _|]. apply ends_gets.
  rewrite decide_True by (by destruct Hi as [-> | ->]). unfold set_err.
  match goal with |- ends ?m _ _ _ => assert (Hk : keeps heard m) by keeps end. apply Hk.
Qed.

(** Whether there is a fetch client or not, [IOT_OTA_Clear] and
    [IOT_OTA_Destroy] are undefined: they close a client that is not there, or
    wipe or free the partition name, which is a string literal. *)
Lemma no_clear (Q : unit -> OSt -> Prop) R s : Inv s -> ends IOT_OTA_Clear Q R s.
Proof.
  intros HI. destruct (ch_fetch (h_ota s)) eqn:E; [apply clear_undefined, (proj1 (i_owned _ HI)); by rewrite E|].
  unfold IOT_OTA_Clear. apply ends_gets, ends_bind. by rewrite E.
Qed.
Lemma no_destroy (Q : Z -> OSt -> Prop) R s : Inv s -> ends IOT_OTA_Destroy Q R s.
Proof.
  intros HI. unfold IOT_OTA_Destroy. apply ends_gets. rewrite decide_False by apply HI. apply ends_bind.
  unfold osc_deinit. apply ends_gets. destruct (msg_list _); [|done]. apply ends_ret, ends_gets, ends_bind.
  destruct (ch_fetch (h_ota s)) eqn:E; [|done]. pose proof (proj1 (i_owned _ HI)) as Hn. rewrite E in Hn. specialize (Hn ltac:(done)).
  eapply ends_mono; [apply (keeps_ofc_deinit still)|cbv beta|done]. intros r s1 Hs. apply ends_gets.
  unfold named in Hn. by rewrite (st_params _ _ Hs), Hn.
Qed.

(** A download that the application starts itself does not return either; with
    no partition name, before any update message, it is undefined. *)
Lemma download_call_run rounds fuel depth s (Q : Z -> OSt -> Prop) : Inv s ->
  ends (IOT_OTA_fw_download rounds fuel (_ota_callback rounds fuel depth)) Q verified s.
Proof.
  intros HI. destruct (download_name (params (h_ota s))) as [n|] eqn:E.
  - eapply ends_mono; [apply (fw_download_run rounds fuel _ (fun msg len s => callback_run rounds fuel depth msg len s) s HI)|done|done].
    apply (proj2 (i_owned _ HI)). by rewrite E.
  - unfold IOT_OTA_fw_download. apply ends_bind.
    eapply ends_mono; [apply (keeps_file_size still)|cbv beta|done]. intros [rc size] s1 Hs. apply ends_gets.
    by rewrite (st_params _ _ Hs), E.
Qed.

Lemma api_run rounds fuel depth c s : Inv s -> idle s ->
  ends (api_call rounds fuel depth c) (fun _ s' => Inv s' /\ idle s') verified s.
Proof.
  intros HI Hi. apply (ends_mono _ (fun _ s' => heard s s') _ verified);
    [|intros u s' Hh; split; [by eapply heard_inv|by eapply heard_idle]|done].
  destruct c; cbn [api_call]; [..|by apply no_clear|by apply ends_bind, no_destroy]; apply ends_bind.
  12: by apply download_call_run.
  1: { eapply ends_mono; [apply yield_run; [|done]|cbv beta; intros ? ? Hh; by apply ends_ret|done].
       intros. by apply callback_run. }
  all: apply (ends_mono _ (fun _ s' => heard s s') _ (fun _ => False)); [|intros ? ? Hh; apply ends_ret, Hh|done].
  10: { by apply fetch_idle. }
  8: { by apply (ioctl_idle heard). }
  all: match goal with |- ends ?m _ _ _ => assert (Hk : keeps heard m) end; [|by apply Hk].
  - unfold IOT_OTA_ReportVersion. keeps. apply keeps_send, _.
  - unfold IOT_OTA_RequestFirmware. keeps. apply keeps_send, _.
  - apply keeps_progress, _.
  - apply keeps_success, _.
  - apply keeps_fail, _.
  - unfold IOT_OTA_IsFetching, set_err. keeps.
  - apply keeps_finished, _.
  - apply keeps_gets, _.
Qed.

Lemma application_run rounds fuel depth calls : forall s, Inv s -> idle s ->
  ends (application rounds fuel depth calls) (fun _ s' => Inv s' /\ idle s') verified s.
Proof.
  induction calls as [|c calls IH]; intros s HI Hi; cbn [application]; [by apply ends_ret|]. apply ends_bind.
  eapply ends_mono; [by apply api_run|cbv beta|done]. intros u s' [HI' Hi']. by apply IH.
Qed.

Lemma init_inv psn dsn w s w' : IOT_OTA_Init psn dsn w = Done (Some s, w') -> Inv s /\ idle s.
Proof.
  unfold IOT_OTA_Init. intros Hi. destruct psn as [psn|], dsn as [dsn|]; try done.
  destruct (alloc_ok w) as [[|] w1]; [|done]. destruct (osc_init psn dsn w1) as [[osc|] w2]; [|done].
  destruct (alloc_ok w2) as [[|] w3]; [|cbn in Hi; by destruct (msg_list osc)]. injection Hi as <- <-. split; [|by left].
  split; [|done|done|by split]. intros ctx [= <-] _ _. cbn. by apply rep_empty.
Qed.

(* ================================================================== *)
(** * Properties *)

(** C18: the device is only reset behind a digest that matched.  Whatever the
    application calls after a successful [IOT_OTA_Init] (a call that is
    undefined ends the run), and whatever messages, responses, timeouts and
    failures come from outside - updates, cancellations and messages nested in
    the yields of a download included: when the processor is reset, the MD5
    digest of all the data fetched since the context is new equals the
    announced string, and the partition holds, written in order from its
    start, the part of that data that was fetched since it was last erased.
    If it was erased once, that is all of the data, and the firmware is the
    announced one.  A download that starts inside another one goes on with the
    digest of the first: then the partition holds only the rest of what was
    hashed, which is not what the digest vouches for. *)
Theorem firmware_verified rounds fuel depth calls psn dsn w s w' :
  IOT_OTA_Init psn dsn w = Done (Some s, w') ->
  ends (application rounds fuel depth calls) (fun _ _ => True) verified s.
Proof.
  intros [HI Hi]%init_inv. eapply ends_mono; [by apply application_run|done|done].
Qed.

(** Nothing ends well but a reset.  In every state the application can
    reach, [IOT_OTA_Destroy] and [IOT_OTA_Clear] are undefined (they close a
    fetch client that is not there, or free or wipe the partition name, which
    is a string literal); so every download that fails is undefined, and none
    returns.  Reporting any failure is undefined unless the allocation fails:
    the template takes three arguments and is given one. *)
Lemma ota_ends_undefined rounds fuel depth calls psn dsn w s w' :
  IOT_OTA_Init psn dsn w = Done (Some s, w') ->
  ends (application rounds fuel depth calls) (fun _ s' =>
    ends IOT_OTA_Destroy (fun _ _ => False) (fun _ => False) s' /\
    ends IOT_OTA_Clear (fun _ _ => False) (fun _ => False) s' /\
    (named s' -> ends (IOT_OTA_fw_download rounds fuel (_ota_callback rounds fuel depth)) (fun _ _ => False) verified s') /\
    (forall c, -6 <= c <= -1 -> ends (IOT_OTA_ReportFail c) (fun ret _ => ret = ERR_OTA_NO_MEMORY) (fun _ => False) s'))
  (fun _ => True) s.
Proof.
  intros [HI Hi]%init_inv. eapply ends_mono; [by apply application_run|cbv beta|done]. clear. intros _ s [HI Hi].
  split_and!.
  - by apply no_destroy.
  - by apply no_clear.
  - intros Hn. apply fw_download_run; [|done|done]. intros. by apply callback_run.
  - intros c Hc. unfold IOT_OTA_ReportFail. apply ends_gets. rewrite decide_False by apply HI. apply ends_gets, ends_bind.
    unfold report. apply ends_bind. unfold malloc, lift, ends at 1. destruct (alloc_ok (dev s)) as [[|] w1].
    + apply ends_must. unfold ota_lib_gen_upstream_msg. by rewrite decide_True by done.
    + apply ends_bind. unfold set_err, modify, ends at 1. apply ends_ret. apply ends_gets.
      by rewrite (decide_False (P := 0 <= ERR_OTA_NO_MEMORY)) by (unfold ERR_OTA_NO_MEMORY; lia).
Qed.

(** What a message that arrives during a download may change: the state, to
    [OTA_STATE_DISCONNECTED], and the end of the queue. *)
Record spared (s s' : @OSt W) : Prop := {
  sp_params : params (h_ota s') = params (h_ota s);
  sp_fetch : ch_fetch (h_ota s') = ch_fetch (h_ota s);
  sp_md5 : md5 (h_ota s') = md5 (h_ota s);
  sp_fetched : size_fetched (h_ota s') = size_fetched (h_ota s);
  sp_view : view (events s') = view (events s);
  sp_state : ota_state (h_ota s') = ota_state (h_ota s) \/ ota_state (h_ota s') = OTA_STATE_DISCONNECTED
}.
#[export] Instance spared_frame : Frame spared.
Proof.
  split; [|intros s s' []; split; auto].
  intros s1 s2 s3 [? ? ? ? ? E1] [? ? ? ? ? E2]. split; try congruence. destruct E2 as [->| ->]; auto.
Qed.

(** The state [s] with the queue [l] and the outside [w]. *)
Definition queued (l : list (bytes * Z)) (w : W) (s : @OSt W) : @OSt W :=
  let h := h_ota s in
  mkOSt (mkOta (ota_state h) (size_last_fetched h) (size_fetched h) (params h) (md5 h)
    (mkOsc (product_sn (ch_signal h)) (device_sn (ch_signal h)) (topic_upgrade (ch_signal h)) (Some l))
    (ch_fetch h) (err h) (report_timer h) (fetch_callback_func h)) (clients s) w (events s).

Lemma update_is_queued rounds fuel callback msg len s text w1 w2 w3 w4 w5 l :
  ota_state (h_ota s) = OTA_STATE_FETCHING ->
  alloc_ok (dev s) = (true, w1) -> snprintf_s (Z.to_nat len) msg = Ok text ->
  ota_lib_get_msg_type alloc_ok (text ++ [0]) w1 = Ok (Some UPDATE_FIRMWARE_METHOD, w2) ->
  alloc_ok w2 = (true, w3) -> alloc_ok w3 = (true, w4) -> alloc_ok w4 = (true, w5) ->
  msg_list (ch_signal (h_ota s)) = Some l ->
  handle_message rounds fuel callback msg len s =
    Done (Go tt, queued (l ++ [(take (Z.to_nat len) text, len)]) w5 s).
Proof.
  intros Hs Ha1 Ht Hm Ha2 Ha3 Ha4 Hl.
  unfold handle_message, malloc, lift, mbind, OM_bind. rewrite Ha1, Ht. cbn [must mret OM_ret].
  unfold json_call. cbn [dev]. rewrite Hm. unfold gets. cbn [h_ota clients events dev].
  rewrite decide_False by (by intros [_ ?]). rewrite (decide_True (P := UPDATE_FIRMWARE_METHOD = _)) by done.
  unfold start_update, gets, mbind, OM_bind. cbn [h_ota]. rewrite decide_True by done.
  unfold _ota_push_upload_msg, malloc, lift, mbind, OM_bind, gets. cbn [dev h_ota clients events].
  rewrite Ha2. cbn [dev h_ota clients events]. rewrite Ha3. cbn [dev h_ota clients events]. rewrite Ha4.
  cbn [dev h_ota clients events]. by rewrite Hl.
Qed.


End safe.

(* ------------------------------------------------------------------ *)
(** ** Witnesses *)

Definition psn0 : bytes := bytes_of "psn".
Definition dsn0 : bytes := bytes_of "dsn".
Definition world0 : DevWorld :=
  dev0 [update_message "12" image_md5] [piece (bytes_of "new firm"); piece (bytes_of "ware")].
Definition restarts (o : outcome (exit unit * @OSt DevWorld)) : bool :=
  match o with Done (Restart, _) => true | _ => false end.

Lemma firmware_verified_witness : exists s0 w' s,
  IOT_OTA_Init (Some psn0) (Some dsn0) world0 = Done (Some s0, w') /\
  application 300 20 4 [Yield 1000] s0 = Done (Restart, s) /\ verified s.
Proof.
  assert (Hc : match IOT_OTA_Init (Some psn0) (Some dsn0) world0 with
    | Done (Some s0, _) => restarts (application 300 20 4 [Yield 1000] s0) | _ => false end = true) by (vm_compute; reflexivity).
  destruct (IOT_OTA_Init (Some psn0) (Some dsn0) world0) as [[[s0|] w']| |] eqn:Ei; try done.
  pose proof (firmware_verified 300 20 4 [Yield 1000] _ _ _ _ _ Ei) as Hv. unfold ends in Hv.
  destruct (application 300 20 4 [Yield 1000] s0) as [[[u|] s]| |] eqn:Ea; try done. eauto 10.
Defined.

Lemma ota_ends_undefined_witness : exists s0 w' s,
  IOT_OTA_Init (Some psn0) (Some dsn0) (dev0 [] []) = Done (Some s0, w') /\
  application 300 20 4 [ReportVersion (Some psn0) (Some dsn0); Yield 1000] s0 = Done (Go tt, s) /\
  IOT_OTA_Destroy s = Undefined.
Proof.
  assert (Hc : match IOT_OTA_Init (Some psn0) (Some dsn0) (dev0 [] []) with
    | Done (Some s0, _) => match application 300 20 4 [ReportVersion (Some psn0) (Some dsn0); Yield 1000] s0 with
                      | Done (Go tt, s) => match IOT_OTA_Destroy s with Unfinished => false | _ => true end
                      | _ => false end
    | _ => false end = true) by (vm_compute; reflexivity).
  destruct (IOT_OTA_Init (Some psn0) (Some dsn0) (dev0 [] [])) as [[[s0|] w']| |] eqn:Ei; try done.
  pose proof (ota_ends_undefined 300 20 4 [ReportVersion (Some psn0) (Some dsn0); Yield 1000] _ _ _ _ _ Ei) as Hv. unfold ends at 1 in Hv.
  destruct (application 300 20 4 [ReportVersion (Some psn0) (Some dsn0); Yield 1000] s0) as [[[[]|] s]| |] eqn:Ea; try done.
  destruct Hv as [Hd _]. unfold ends in Hd. exists s0, w', s. split_and!; [done|done|].
  by destruct (IOT_OTA_Destroy s) as [[[r|] s1]| |].
Defined.

(** A client in the middle of a download. *)
Definition fetching0 : @OSt DevWorld :=
  mkOSt (mkOta OTA_STATE_FETCHING 0 5 (mkParams (Some url0) (Some (bytes_of "app")) (Some (HAL_Download_Name_Set []))
      (Some (bytes_of "1.2")) (Some image_md5) 12) (Some utils_md5_init) (mkOsc psn0 dsn0 [] (Some [])) None 0 0 false)
    ∅ (dev0 [] []) [].
Local Abbreviation m0 := (update_message "12" image_md5).
Local Abbreviation w1 := (alloc_ok (dev fetching0)).2.
Local Abbreviation w2 := (match ota_lib_get_msg_type alloc_ok (m0 ++ [0]) w1 with Ok (_, w) => w | _ => w1 end).
Local Abbreviation w3 := (alloc_ok w2).2.
Local Abbreviation w4 := (alloc_ok w3).2.
