(* ===== verification/ShadowDoc.v ===== *)
(** The documents of the device shadow: the text of a request
    ([uiot/shadow/src/shadow_client_json.c] and the [shadow_json_...] functions
    of [shadow_client_manager.c]), the fields of a reply, and the values of
    properties ([IOT_Shadow_Direct_Update_Value]).

    In literals with quotes a backquote stands for a double quote. *)

From S2P Require Import Prelude Defs Json CLib JsonConv.

(* ================================================================== *)
(** * Data *)

Inductive Method := GET | UPDATE | UPDATE_AND_RESET_VER | DELETE | DELETE_ALL | REPLY_CONTROL_UPDATE | REPLY_CONTROL_DELETE.
#[export] Instance Method_eq_dec : EqDecision Method.
Proof. solve_decision. Defined.

Inductive JsonDataType :=
  JINT32 | JINT16 | JINT8 | JUINT32 | JUINT16 | JUINT8 | JFLOAT | JDOUBLE | JBOOL | JSTRING | JOBJECT.
#[export] Instance JsonDataType_eq_dec : EqDecision JsonDataType.
Proof. solve_decision. Defined.

(** [DeviceProperty]: its data is a pointer into the application's memory. *)
Record DeviceProperty := mkProperty {
  prop_key : option bytes;
  prop_data : option positive;
  prop_type : JsonDataType
}.

Definition METHOD_FIELD : bytes := lit "Method".
Definition PAYLOAD_RESULT_FIELD : bytes := lit "Payload.RetCode".
Definition PAYLOAD_STATE_DESIRED_FIELD : bytes := lit "Payload.State.Desired".
Definition PAYLOAD_STATE_REPORTED_FIELD : bytes := lit "Payload.State.Reported".
Definition STATE_FIELD : bytes := lit "State".
Definition STATE_REPORTED_FIELD : bytes := lit "State.Reported".
Definition STATE_DESIRED_FIELD : bytes := lit "State.Desired".
Definition VERSION_FIELD : bytes := lit "Version".
Definition METHOD_CONTROL : bytes := bytes_of "control".
Definition METHOD_GET : bytes := bytes_of "get".
Definition METHOD_UPDATE : bytes := bytes_of "update".
Definition METHOD_DELETE : bytes := bytes_of "delete".
Definition METHOD_REPLY : bytes := bytes_of "reply".
Definition METHOD_GET_REPLY : bytes := bytes_of "get_reply".

(* ================================================================== *)
(** * Values *)

Section float.
(** Floating-point numbers, and what the C library prints and reads for them. *)
Context {F : Type} (print_f : F -> bytes) (scan_f scan_lf : bytes -> option F).

(** What lies behind a data pointer. *)
Inductive cell := Int (n : Z) | Real (f : F) | Str (s : bytes).

(** The cell holds a value of the type. *)
Definition has_type (type : JsonDataType) (c : cell) : bool :=
  match type, c with
  | JINT32, Int n => bool_decide (-2147483648 <= n < 2147483648)
  | JINT16, Int n => bool_decide (-32768 <= n < 32768)
  | JINT8, Int n => bool_decide (-128 <= n < 128)
  | JUINT32, Int n => bool_decide (0 <= n < 4294967296)
  | JUINT16, Int n => bool_decide (0 <= n < 65536)
  | JUINT8, Int n => bool_decide (0 <= n < 256)
  | JBOOL, Int n => bool_decide (0 <= n < 2)
  | JFLOAT, Real _ | JDOUBLE, Real _ => true
  | JSTRING, Str s | JOBJECT, Str s => forallb (fun c => bool_decide (c <> 0)) s
  | _, _ => false
  end.

(** The text of a value in a document; reading a value of another type
    through the pointer is undefined. *)
Definition node_text (type : JsonDataType) (c : cell) : res bytes :=
  if has_type type c then
    Ok match type, c with
       | JSTRING, Str s => 34 :: s ++ [34]
       | _, Int n => dec n
       | _, Real f => print_f f
       | _, Str s => s
       end
  else Oob.

(** [IOT_Shadow_Direct_Update_Value]: the result and what is stored. *)
Definition stored {A} (mk : A -> cell) (r : res (option A)) : res (Z * option cell) :=
  v ← r; Ok match v with Some v => (SUCCESS_RET, Some (mk v)) | None => (FAILURE_RET, None) end.
Definition IOT_Shadow_Direct_Update_Value (value : bytes) (type : JsonDataType) : res (Z * option cell) :=
  match type with
  | JBOOL => stored (fun b : bool => Int (if b then 1 else 0)) (b ← LITE_get_boolean value; Ok (Some b))
  | JINT32 => stored Int (LITE_get_int32 value)
  | JINT16 => stored Int (LITE_get_int16 value)
  | JINT8 => stored Int (LITE_get_int8 value)
  | JUINT32 => stored Int (LITE_get_uint32 value)
  | JUINT16 => stored Int (LITE_get_uint16 value)
  | JUINT8 => stored Int (LITE_get_uint8 value)
  | JFLOAT => stored Real (LITE_get_float scan_f value)
  | JDOUBLE => stored Real (LITE_get_double scan_lf value)
  | JSTRING | JOBJECT => Ok (SUCCESS_RET, None)
  end.

(* ================================================================== *)
(** * Documents *)

(** The comparison with a [size_t] makes a negative result a large one. *)
Definition _check_snprintf_return (returnCode maxSizeOfWrite : Z) : Z :=
  if decide (u32 returnCode >= maxSizeOfWrite) then ERR_JSON_BUFFER_TRUNCATED
  else if decide (returnCode < 0) then ERR_JSON else SUCCESS_RET.

(** The buffer and the result. *)
Definition put_json_node (jsonBuffer : bytes) (sizeOfBuffer : Z) (pKey : option bytes) (pData : option cell)
    (type : JsonDataType) : res (bytes * Z) :=
  match pKey with
  | None => Ok (jsonBuffer, ERR_PARAM_INVALID)
  | Some pKey =>
      n ← strlen jsonBuffer;
      let remain_size := u32 (sizeOfBuffer - Z.of_nat n) in
      if decide (remain_size <= 1) then Ok (jsonBuffer, ERR_JSON_BUFFER_TOO_SMALL)
      else
        '(jsonBuffer, r) ← snprintf_at jsonBuffer (Z.of_nat n) remain_size (34 :: pKey ++ [34; 58]);
        let ret := _check_snprintf_return r remain_size in
        if decide (ret <> SUCCESS_RET) then Ok (jsonBuffer, ret)
        else
          n ← strlen jsonBuffer;
          let remain_size := u32 (sizeOfBuffer - Z.of_nat n) in
          if decide (remain_size <= 1) then Ok (jsonBuffer, ERR_JSON_BUFFER_TOO_SMALL)
          else
            text ← match pData with None => Ok (bytes_of "null") | Some c => node_text type c end;
            '(jsonBuffer, r) ← snprintf_at jsonBuffer (Z.of_nat n) remain_size (text ++ [44]);
            Ok (jsonBuffer, _check_snprintf_return r remain_size)
  end.

(** ** [shadow_json_init], [_set_content], [_finalize] *)

(** [has_delta]: [property_delta_list] is not empty. *)
Definition json_head (method : Method) (has_delta : bool) : bytes :=
  match method with
  | GET => q "{`Method`:`" ++ METHOD_GET ++ q "`"
  | UPDATE | UPDATE_AND_RESET_VER => q "{`Method`:`" ++ METHOD_UPDATE ++ q "`,`State`:{`Reported`:{"
  | REPLY_CONTROL_UPDATE =>
      q "{`Method`:`" ++ METHOD_UPDATE ++ if has_delta then q "`,`State`:{`Reported`:{" else q "`,`State`:{"
  | DELETE | REPLY_CONTROL_DELETE =>
      q "{`Method`:`" ++ METHOD_DELETE ++ if has_delta then q "`,`State`:{`Reported`:{" else q "`,`State`:{"
  | DELETE_ALL => q "{`Method`:`" ++ METHOD_DELETE ++ q "`,`State`:{`Reported`:"
  end.
Definition shadow_json_init (pJsonDoc : bytes) (sizeOfBuffer : Z) (method : Method) (has_delta : bool) : res (bytes * Z) :=
  '(pJsonDoc, _) ← snprintf_at pJsonDoc 0 sizeOfBuffer (json_head method has_delta); Ok (pJsonDoc, SUCCESS_RET).

Section memory.
(** The application's memory, and the allocator. *)
Context (mem : gmap positive cell) {W : Type} (malloc : W -> bool * W).

Definition load (p : option positive) : res (option cell) :=
  match p with
  | None => Ok None
  | Some p => match mem !! p with Some c => Ok (Some c) | None => Oob end
  end.

(** The results of [put_json_node] are not looked at. *)
Fixpoint content_loop (sizeOfBuffer : Z) (method : Method) (nodes : list DeviceProperty) (pJsonDoc : bytes) (remain_size : Z) : res bytes :=
  match nodes with
  | [] => Ok pJsonDoc
  | DevProperty :: nodes =>
      '(pJsonDoc, _) ←
        match prop_key DevProperty with
        | None => Ok (pJsonDoc, SUCCESS_RET)
        | Some key =>
            match method with
            | UPDATE | UPDATE_AND_RESET_VER | REPLY_CONTROL_UPDATE =>
                c ← load (prop_data DevProperty);
                put_json_node pJsonDoc remain_size (Some key) c (prop_type DevProperty)
            | DELETE | REPLY_CONTROL_DELETE => put_json_node pJsonDoc remain_size (Some key) None JSTRING
            | _ => Ok (pJsonDoc, SUCCESS_RET)
            end
        end;
      json_len ← strlen pJsonDoc;
      content_loop sizeOfBuffer method nodes pJsonDoc (u32 (sizeOfBuffer - Z.of_nat json_len))
  end.

Definition shadow_json_set_content (pJsonDoc : bytes) (sizeOfBuffer : Z) (method : Method) (delta : list DeviceProperty) (w : W) :
    res (bytes * Z * W) :=
  json_len ← strlen pJsonDoc;
  let remain_size := u32 (sizeOfBuffer - Z.of_nat json_len) in
  match method with
  | GET => Ok (pJsonDoc, SUCCESS_RET, w)
  | DELETE_ALL =>
      '(pJsonDoc, r) ← snprintf_at pJsonDoc (Z.of_nat json_len) remain_size (bytes_of "null");
      Ok (pJsonDoc, _check_snprintf_return r remain_size, w)
  | _ =>
      if decide (delta = []) then Ok (pJsonDoc, SUCCESS_RET, w)
      else
        let '(iter, w) := malloc w in
        if iter : bool then
          pJsonDoc ← content_loop sizeOfBuffer method (reverse delta) pJsonDoc remain_size;
          Ok (pJsonDoc, SUCCESS_RET, w)
        else Ok (pJsonDoc, ERR_PARAM_INVALID, w)
  end.

(** What is written last, and how many characters before the end of the text. *)
Definition json_tail (method : Method) (has_delta : bool) (version : Z) : Z * bytes :=
  match method with
  | GET => (0, bytes_of "}")
  | DELETE_ALL => (0, q "},`Version`:" ++ dec (s32 version) ++ bytes_of "}")
  | UPDATE_AND_RESET_VER => (1, q "}},`Version`:-1}")
  | REPLY_CONTROL_UPDATE | REPLY_CONTROL_DELETE =>
      if has_delta then (1, q "},`Desired`:null},`Version`:" ++ dec (s32 version) ++ bytes_of "}")
      else (0, q "`Desired`:null},`Version`:" ++ dec (s32 version) ++ bytes_of "}")
  | UPDATE | DELETE => (1, q "}},`Version`:" ++ dec (s32 version) ++ bytes_of "}")
  end.
Definition shadow_json_finalize (version : Z) (pJsonDoc : bytes) (sizeOfBuffer : Z) (method : Method) (has_delta : bool) :
    res (bytes * Z) :=
  n ← strlen pJsonDoc;
  let remain_size := u32 (sizeOfBuffer - Z.of_nat n) in
  if decide (remain_size <= 1) then Ok (pJsonDoc, ERR_JSON_BUFFER_TOO_SMALL)
  else
    let '(back, tail) := json_tail method has_delta version in
    '(pJsonDoc, r) ← snprintf_at pJsonDoc (Z.of_nat n - back) remain_size tail;
    Ok (pJsonDoc, _check_snprintf_return r remain_size).

(** The three in turn, as [uiot_shadow_make_request] calls them. *)
Definition make_document (pJsonDoc : bytes) (sizeOfBuffer : Z) (method : Method) (delta : list DeviceProperty) (version : Z) (w : W) :
    res (bytes * Z * W) :=
  let has_delta := negb (bool_decide (delta = [])) in
  '(doc, ret) ← shadow_json_init pJsonDoc sizeOfBuffer method has_delta;
  if decide (ret <> SUCCESS_RET) then Ok (doc, ret, w)
  else
    '(doc, ret, w) ← shadow_json_set_content doc sizeOfBuffer method delta w;
    if decide (ret <> SUCCESS_RET) then Ok (doc, ret, w)
    else '(doc, ret) ← shadow_json_finalize version doc sizeOfBuffer method has_delta; Ok (doc, ret, w).
End memory.

End float.
Arguments cell F : clear implicits.
Arguments Int {F} n.
Arguments Real {F} f.
Arguments Str {F} s.

(* ================================================================== *)
(** * Replies *)

Section replies.
Context {W : Type} (malloc : W -> bool * W).

(** The number of a field, or [None] if it cannot be read. *)
Definition field_num (field pJsonDoc : bytes) (w : W) : res (option Z * W) :=
  '(text, w) ← LITE_json_value_of malloc field pJsonDoc w;
  match text with
  | None => Ok (None, w)
  | Some text => n ← scan_u 32 (text ++ [0]); Ok (n, w)
  end.
Definition parse_version_num (pJsonDoc : bytes) (w : W) : res (option Z * W) := field_num VERSION_FIELD pJsonDoc w.
Definition parse_shadow_payload_retcode_type (pJsonDoc : bytes) (w : W) : res (option Z * W) :=
  field_num PAYLOAD_RESULT_FIELD pJsonDoc w.
Definition parse_shadow_payload_state_reported_state (pJsonDoc : bytes) (w : W) : res (option bytes * W) :=
  LITE_json_value_of malloc PAYLOAD_STATE_REPORTED_FIELD pJsonDoc w.
Definition parse_shadow_payload_state_desired_state (pJsonDoc : bytes) (w : W) : res (option bytes * W) :=
  LITE_json_value_of malloc PAYLOAD_STATE_DESIRED_FIELD pJsonDoc w.
Definition parse_shadow_method_type (pJsonDoc : bytes) (w : W) : res (option bytes * W) :=
  LITE_json_value_of malloc METHOD_FIELD pJsonDoc w.
Definition parse_shadow_state_reported_type (pJsonDoc : bytes) (w : W) : res (option bytes * W) :=
  LITE_json_value_of malloc STATE_REPORTED_FIELD pJsonDoc w.
Definition parse_shadow_state_desired_type (pJsonDoc : bytes) (w : W) : res (option bytes * W) :=
  LITE_json_value_of malloc STATE_DESIRED_FIELD pJsonDoc w.
Definition parse_shadow_state_type (pJsonDoc : bytes) (w : W) : res (option bytes * W) :=
  LITE_json_value_of malloc STATE_FIELD pJsonDoc w.

(** A value that starts with null or NULL counts as none. *)
Definition find_value_if_key_match (pJsonDoc key : bytes) (w : W) : res (option bytes * W) :=
  '(data, w) ← LITE_json_value_of malloc (key ++ [0]) pJsonDoc w;
  match data with
  | None => Ok (None, w)
  | Some d =>
      is_null ← same_n 4 (d ++ [0]) (lit "null");
      is_NULL ← same_n 4 (d ++ [0]) (lit "NULL");
      Ok (if is_null || is_NULL : bool then None else Some d, w)
  end.
End replies.

(* ================================================================== *)
(** * Types of values *)

Section typed.
Context {F : Type} (print_f : F -> bytes) (scan_f scan_lf : bytes -> option F).

Lemma within_some lo hi n v : within lo hi n = Ok (Some v) -> lo <= v < hi.
Proof. destruct n as [n|]; cbn [within]; [|done]. case_decide; [|done]. by intros [= <-]. Qed.
Lemma scan_u_range bits s v : scan_u bits s = Ok (Some v) -> 0 <= v < 2 ^ bits.
Proof.
  unfold scan_u. destruct (sign_of _) as [neg r]. destruct (number_at 10 r) as [n| |]; [|done..].
  cbn [mbind res_bind]. destruct (within _ _ n) as [m| |]; [|done..]. apply within_some.
Qed.
Lemma scan_i_range bits s v : scan_i bits s = Ok (Some v) -> - 2 ^ (bits - 1) <= v < 2 ^ (bits - 1).
Proof.
  unfold scan_i. destruct (sign_of _) as [neg r]. destruct (number_any r) as [n| |]; [|done..]. apply within_some.
Qed.

(** What is stored through a data pointer has the declared type. *)
Lemma stored_typed {A} (mk : A -> cell F) (P : cell F -> Prop) (r : res (option A)) rc c :
  stored mk r = Ok (rc, Some c) -> (forall v, r = Ok (Some v) -> P (mk v)) -> P c.
Proof. unfold stored. destruct r as [[v|]| |]; try done. intros [= _ <-] HP. by apply HP. Qed.
Lemma direct_update_typed value type rc c :
  IOT_Shadow_Direct_Update_Value scan_f scan_lf value type = Ok (rc, Some c) -> has_type type c = true.
Proof.
  destruct type; cbn [IOT_Shadow_Direct_Update_Value]; try done; intros Hs;
    match goal with |- has_type ?ty _ = true => refine (stored_typed _ (fun c => has_type ty c = true) _ _ _ Hs _) end;
    intros v Hv; cbn [has_type]; try done; rewrite ?bool_decide_eq_true.
  - by apply scan_i_range in Hv.
  - by apply scan_i_range in Hv.
  - unfold LITE_get_int8 in Hv. destruct (scan_i 16 value) as [[n|]| |]; try done.
    injection Hv as <-. unfold s8. zmod.
  - by apply scan_u_range in Hv.
  - by apply scan_u_range in Hv.
  - unfold LITE_get_uint8 in Hv. destruct (scan_u 16 value) as [[n|]| |]; try done.
    injection Hv as <-. apply u8_range.
  - destruct v; lia.
Qed.

(** Numbers and truth values are read back from their text. *)
Lemma stops_0 : stops 0.
Proof. by split. Qed.
Lemma direct_update_reads_back type c n text junk :
  c = Int n -> node_text print_f type c = Ok text ->
  IOT_Shadow_Direct_Update_Value scan_f scan_lf (text ++ 0 :: junk) type = Ok (SUCCESS_RET, Some c).
Proof.
  intros -> Ht. unfold node_text in Ht. destruct (has_type type (Int n)) eqn:Hty; [|done].
  destruct type; cbn [has_type] in Hty; try done; apply bool_decide_eq_true in Hty; injection Ht as <-;
    cbn [IOT_Shadow_Direct_Update_Value]; unfold LITE_get_int32, LITE_get_int16, LITE_get_int8, LITE_get_uint32, LITE_get_uint16, LITE_get_uint8;
    rewrite ?scan_i_dec, ?scan_u_dec by (first [exact stops_0|by right; right|by right; left|cbn; lia]); try done.
  - cbn [mbind res_bind option_map stored]. do 3 f_equal. unfold s8. f_equal. zmod.
  - cbn [mbind res_bind option_map stored]. do 3 f_equal. f_equal. apply u8_small. lia.
  - assert (n = 0 \/ n = 1) as [-> | ->] by lia; done.
Qed.
Lemma direct_update_reads_real type f text junk : node_text print_f type (Real f) = Ok text ->
  IOT_Shadow_Direct_Update_Value scan_f scan_lf (text ++ 0 :: junk) type = Ok (SUCCESS_RET, Some (Real f)) <->
  (if decide (type = JFLOAT) then scan_f else scan_lf) (print_f f ++ 0 :: junk) = Some f.
Proof.
  unfold node_text. destruct type; cbn [has_type]; try done; intros [= <-];
    [rewrite decide_True by done|rewrite decide_False by done]; cbn [IOT_Shadow_Direct_Update_Value];
    unfold LITE_get_float, LITE_get_double, stored; cbn [mbind res_bind].
  - destruct (scan_f _); split; intros E; simplify_eq; done.
  - destruct (scan_lf _); split; intros E; simplify_eq; done.
Qed.
(** A call that stores succeeds; one that does not fails, but for strings and
    objects. *)
Lemma direct_update_result value type rc c : IOT_Shadow_Direct_Update_Value scan_f scan_lf value type = Ok (rc, Some c) -> rc = SUCCESS_RET.
Proof.
  assert (forall A (mk : A -> cell F) r, stored mk r = Ok (rc, Some c) -> rc = SUCCESS_RET) as Hs.
  { intros A mk [[v|]| |]; try done. by intros [= <- _]. }
  destruct type; cbn [IOT_Shadow_Direct_Update_Value]; try done; apply Hs.
Qed.
Lemma direct_update_nothing value type rc : IOT_Shadow_Direct_Update_Value scan_f scan_lf value type = Ok (rc, None) ->
  rc = if decide (type = JSTRING \/ type = JOBJECT) then SUCCESS_RET else FAILURE_RET.
Proof.
  assert (forall A (mk : A -> cell F) r, stored mk r = Ok (rc, None) -> rc = FAILURE_RET) as Hs.
  { intros A mk [[v|]| |]; try done. by intros [= <-]. }
  destruct type; cbn [IOT_Shadow_Direct_Update_Value]; intros E;
    try (rewrite decide_False by (by intros [|]); by apply Hs in E); rewrite decide_True by auto; by injection E as <-.
Qed.
End typed.

Definition no_float (s : bytes) : option Empty_set := None.


(** Reals with two decimals, printed with one. *)
Definition tenths (s : bytes) : option Z :=
  match LITE_get_int32 s with Ok (Some n) => Some (10 * n) | _ => None end.

(* ================================================================== *)
(** * The text of a document *)

Lemma check_success r max : 0 <= r < max -> r < 4294967296 -> _check_snprintf_return r max = SUCCESS_RET.
Proof. intros Hr Hm. unfold _check_snprintf_return. rewrite u32_small, !decide_False by lia. done. Qed.

(** The document of a request as RFC 8259 has it. *)
Definition method_text (method : Method) : bytes :=
  match method with
  | GET => METHOD_GET
  | UPDATE | UPDATE_AND_RESET_VER | REPLY_CONTROL_UPDATE => METHOD_UPDATE
  | DELETE | DELETE_ALL | REPLY_CONTROL_DELETE => METHOD_DELETE
  end.
Definition reported (v : json) : bytes * json := (bytes_of "Reported", v).
Definition version_member (v : Z) : bytes * json := (bytes_of "Version", JNumber (dec v)).
Definition document (method : Method) (version : Z) (ms : list (bytes * json)) : json :=
  let doc rest := JObject ((bytes_of "Method", JString (method_text method)) :: rest) in
  let state ms := (bytes_of "State", JObject ms) in
  match method with
  | GET => doc []
  | UPDATE | DELETE => doc [state [reported (JObject ms)]; version_member (s32 version)]
  | UPDATE_AND_RESET_VER => doc [state [reported (JObject ms)]; version_member (-1)]
  | DELETE_ALL => doc [state [reported JNull]; version_member (s32 version)]
  | REPLY_CONTROL_UPDATE | REPLY_CONTROL_DELETE =>
      doc [state ((if decide (ms = []) then [] else [reported (JObject ms)]) ++ [(bytes_of "Desired", JNull)]); version_member (s32 version)]
  end.

(** The requests that are made for one property or more. *)
Definition needs_properties (method : Method) : bool :=
  match method with UPDATE | UPDATE_AND_RESET_VER | DELETE => true | _ => false end.
Definition deletes (method : Method) : bool :=
  match method with DELETE | REPLY_CONTROL_DELETE => true | _ => false end.

Section documents.
Context {F : Type} (print_f : F -> bytes) (mem : gmap positive (cell F)).

(** The value of a cell, and the member of the document for a property. *)
Definition denotes (type : JsonDataType) (c : cell F) (v : json) : Prop :=
  has_type type c = true /\
  match type, c with
  | JSTRING, Str s => v = JString s
  | _, Int n => v = JNumber (dec n)
  | _, Real f => v = JNumber (print_f f)
  | _, Str s => print v = s
  end.
Definition reports (method : Method) (p : DeviceProperty) (m : bytes * json) : Prop :=
  prop_key p = Some m.1 /\
  if deletes method then m.2 = JNull
  else match prop_data p with
       | None => m.2 = JNull
       | Some a => exists c, mem !! a = Some c /\ denotes (prop_type p) c m.2
       end.

Lemma denotes_text type c v : denotes type c v -> node_text print_f type c = Ok (print v).
Proof. unfold denotes, node_text. intros [-> Hv]. by destruct type, c; subst. Qed.

Lemma put_json_node_holds buf t total key data type text :
  holds buf t total -> total < 2147483648 ->
  match data with None => text = bytes_of "null" | Some c => node_text print_f type c = Ok text end ->
  Forall (fun c => c <> 0) (member key text) -> 2 * zlen t + zlen (member key text) + 1 < total ->
  exists buf', put_json_node print_f buf (total - zlen t) (Some key) data type = Ok (buf', SUCCESS_RET) /\
    holds buf' (t ++ member key text ++ [44]) total.
Proof.
  intros Hh Ht Htext Hnz Hl. unfold member in *. rewrite app_comm_cons in *. rewrite Forall_app in Hnz. destruct Hnz as [Hk Hv].
  change (34 :: 58 :: text) with ([34; 58] ++ text) in *. rewrite app_assoc in *. apply Forall_app in Hv as [Hq Hv].
  rewrite !length_app in Hl. cbn [length] in Hl. unfold put_json_node.
  change (34 :: key ++ [34; 58]) with ((34 :: key) ++ [34; 58]). set (k := 34 :: key) in *.
  assert (Hkl : length k = S (length key)) by done. clearbody k.
  rewrite (holds_strlen _ _ _ Hh). cbn [mbind res_bind].
  rewrite u32_small, decide_False by lia.
  destruct (snprintf_at_end buf t total (total - zlen t - zlen t) (k ++ [34; 58])) as (b1 & -> & Hb1);
    [done|rewrite length_app; cbn [length]; lia..|by apply Forall_app|]. cbn [mbind res_bind].
  rewrite check_success, decide_False by (rewrite ?length_app; cbn [length]; first [lia|done]).
  rewrite (holds_strlen _ _ _ Hb1). cbn [mbind res_bind]. rewrite length_app, length_app. cbn [length].
  rewrite u32_small, decide_False by lia.
  assert (Hd : match data with None => Ok (bytes_of "null") | Some c => node_text print_f type c end = Ok text)
    by (destruct data; [done|by subst]). rewrite Hd. cbn [mbind res_bind].
  replace (Z.of_nat (length t + (length k + 2))) with (zlen (t ++ k ++ [34; 58])) by (rewrite !length_app; done).
  destruct (snprintf_at_end b1 (t ++ k ++ [34; 58]) total (total - zlen t - zlen (t ++ k ++ [34; 58])) (text ++ [44])) as (b2 & -> & Hb2);
    [done|rewrite !length_app; cbn [length]; lia..|by apply Forall_app; split; [|repeat constructor]|]. cbn [mbind res_bind].
  exists b2. split; [by rewrite check_success by (rewrite !length_app; cbn [length]; lia)|].
  rewrite <- !app_assoc in *. done.
Qed.

(** The members as they are appended, each with a comma behind it. *)
Fixpoint nodes_text (ms : list (bytes * json)) : bytes :=
  match ms with
  | [] => []
  | m :: ms => (member m.1 (print m.2) ++ [44]) ++ nodes_text ms
  end.

Lemma content_loop_holds method total ps ms : forall buf t,
  method <> GET -> method <> DELETE_ALL -> Forall2 (reports method) ps ms ->
  holds buf t total -> total < 2147483648 -> Forall (fun c => c <> 0) (nodes_text ms) -> 2 * zlen (t ++ nodes_text ms) <= total ->
  exists buf', content_loop print_f mem total method ps buf (total - zlen t) = Ok buf' /\ holds buf' (t ++ nodes_text ms) total.
Proof.
  intros buf t Hg Ha Hr. revert buf t. induction Hr as [|p [k v] ps ms [Hk Hp] Hr IH]; intros buf t Hh Htot Hnz Hl.
  - exists buf. cbn. by rewrite app_nil_r.
  - cbn [nodes_text] in *. apply Forall_app in Hnz as [Hn1 Hn2]. pose proof Hn1 as [Hn1' _]%Forall_app.
    rewrite !length_app in Hl. cbn [length fst snd] in *.
    cbn [content_loop]. rewrite Hk.
    assert (exists buf', (match method with
              | UPDATE | UPDATE_AND_RESET_VER | REPLY_CONTROL_UPDATE =>
                  c ← load mem (prop_data p); put_json_node print_f buf (total - zlen t) (Some k) c (prop_type p)
              | DELETE | REPLY_CONTROL_DELETE => put_json_node print_f buf (total - zlen t) (Some k) None JSTRING
              | _ => Ok (buf, SUCCESS_RET)
              end) = Ok (buf', SUCCESS_RET) /\ holds buf' (t ++ member k (print v) ++ [44]) total) as (b1 & E & Hb1).
    { assert (Hdel : v = JNull -> exists buf', put_json_node print_f buf (total - zlen t) (Some k) None JSTRING = Ok (buf', SUCCESS_RET) /\
          holds buf' (t ++ member k (print v) ++ [44]) total).
      { intros ->. apply put_json_node_holds; try done. lia. }
      assert (Hupd : match prop_data p with None => v = JNull | Some a => exists c, mem !! a = Some c /\ denotes (prop_type p) c v end ->
          exists buf', (c ← load mem (prop_data p); put_json_node print_f buf (total - zlen t) (Some k) c (prop_type p)) = Ok (buf', SUCCESS_RET) /\
          holds buf' (t ++ member k (print v) ++ [44]) total).
      { intros Hpd. destruct (prop_data p) as [a|]; cbn [load].
        - destruct Hpd as (c & -> & Hc%denotes_text). cbn [mbind res_bind]. apply put_json_node_holds; try done. lia.
        - subst v. cbn [mbind res_bind]. apply put_json_node_holds; try done. lia. }
      destruct method; cbn [deletes] in Hp; try done; auto. }
    rewrite E. cbn [mbind res_bind]. rewrite (holds_strlen _ _ _ Hb1). cbn [mbind res_bind].
    pose proof (holds_len _ _ _ Hb1). rewrite u32_small by lia.
    destruct (IH b1 (t ++ member k (print v) ++ [44])) as (b2 & -> & Hb2); [done|done|done|rewrite !length_app; cbn [length]; lia|].
    exists b2. split; [done|]. by rewrite <- !app_assoc in *.
Qed.
End documents.

(** ** The three steps *)

Lemma nodes_text_join ms : ms <> [] ->
  nodes_text ms = join 44 (map (fun m => member m.1 (print m.2)) ms) ++ [44].
Proof.
  induction ms as [|m ms IH]; intros Hne; [done|]. cbn [nodes_text map]. destruct ms as [|m2 ms]; [by rewrite app_nil_r|].
  rewrite IH by done. cbn [map join]. by rewrite <- !app_assoc.
Qed.

Lemma init_holds buf total text : zlen buf = total -> zlen text < total -> Forall (fun c => c <> 0) text ->
  exists buf', snprintf_at buf 0 total text = Ok (buf', zlen text) /\ holds buf' text total.
Proof.
  intros Hb Ht Hnz. unfold snprintf_at. rewrite decide_False by lia. rewrite snprintf_fits by done.
  assert (Hw : write_at buf 0 (text ++ [0]) = Ok ((text ++ [0]) ++ drop (length (text ++ [0])) buf)).
  { apply write_at_ok. rewrite length_app. cbn [length]. split_and!; [lia..|done]. }
  rewrite Hw. cbn [mbind res_bind]. eexists. split; [done|]. rewrite <- app_assoc. cbn [app]. eexists. split_and!; [done| |done].
  rewrite length_app. cbn [length]. rewrite length_drop, length_app. cbn [length]. lia.
Qed.

Lemma finalize_holds buf t over total method has_delta version tail :
  holds buf (t ++ over) total -> total < 2147483648 -> json_tail method has_delta version = (zlen over, tail) ->
  zlen t + zlen tail + zlen over + 1 < total -> Forall (fun c => c <> 0) tail -> 0 < zlen tail ->
  exists buf', shadow_json_finalize version buf total method has_delta = Ok (buf', SUCCESS_RET) /\ holds buf' (t ++ tail) total.
Proof.
  intros Hh Ht Htail Hl Hnz Hpos. unfold shadow_json_finalize. rewrite (holds_strlen _ _ _ Hh). cbn [mbind res_bind].
  rewrite length_app. rewrite u32_small, decide_False, Htail by lia.
  replace (Z.of_nat (length t + length over) - zlen over) with (zlen t) by lia.
  destruct (snprintf_at_holds buf t over total (total - Z.of_nat (length t + length over)) tail) as (b1 & -> & Hb1); [done|lia..|done|].
  cbn [mbind res_bind]. exists b1. by rewrite check_success by lia.
Qed.

(** The text between head and tail, and the part of the head that the tail overwrites. *)
Definition over (method : Method) (ms : list (bytes * json)) : bytes :=
  match method with
  | UPDATE | UPDATE_AND_RESET_VER | DELETE => [44]
  | REPLY_CONTROL_UPDATE | REPLY_CONTROL_DELETE => if decide (ms = []) then [] else [44]
  | _ => []
  end.
Definition middle (method : Method) (ms : list (bytes * json)) : bytes :=
  match method with GET => [] | DELETE_ALL => bytes_of "null" | _ => nodes_text ms end.

(** A document is its head, the members, and its tail, which overwrites the last comma. *)
Lemma document_parts method version ms :
  (needs_properties method = true -> ms <> []) ->
  exists t tail, json_tail method (negb (bool_decide (ms = []))) version = (zlen (over method ms), tail) /\
    json_head method (negb (bool_decide (ms = []))) ++ middle method ms = t ++ over method ms /\
    t ++ tail = print (document method version ms) /\ 0 < zlen tail.
Proof.
  intros Hne. unfold over, middle.
  destruct (decide (ms = [])) as [->|Hms].
  - rewrite bool_decide_true by done. destruct method; try (by destruct (Hne eq_refl)); cbn [json_tail negb];
      eexists _, _; (split; [done|]); rewrite ?app_nil_r; (split; [done|]); (split; [|cbn; lia]); cbn [document print map join member fst snd];
      reflexivity.
  - rewrite bool_decide_false by done. rewrite nodes_text_join by done.
    set (body := join 44 (map (fun m => member m.1 (print m.2)) ms)).
    assert (Hd : forall t m : bytes, t ++ m = (t ++ m) ++ []) by (intros; by rewrite app_nil_r).
    destruct method; cbn [json_tail negb json_head];
      (eexists _, _; split; [done|]; split; [first [by rewrite app_assoc|apply Hd]|]; split; [|cbn; lia]);
      cbn [document]; rewrite ?decide_False by done; unfold reported, version_member, method_text;
      cbn [app print map join member fst snd]; fold body;
      rewrite ?app_nil_r; repeat first [rewrite <- app_assoc|progress cbn [app]]; reflexivity.
Qed.

Lemma forallb_reverse {A} (f : A -> bool) l : forallb f (reverse l) = forallb f l.
Proof.
  induction l as [|x l IH]; [done|]. rewrite reverse_cons, forallb_app, IH. cbn [forallb]. by rewrite andb_true_r, andb_comm.
Qed.

Lemma document_well_formed method version ms : well_formed (JObject ms) = true -> well_formed (document method version ms) = true.
Proof.
  intros Hw. pose proof (s32_range version). pose proof (number_dec (s32 version) ltac:(lia)) as Hv.
  destruct method; cbn [document]; try case_decide; unfold reported, version_member;
    cbn [well_formed forallb app fst snd] in *; rewrite ?Hv, ?Hw; vm_compute; reflexivity.
Qed.

Section run.
Context {F : Type} (print_f : F -> bytes) (mem : gmap positive (cell F)) {W : Type} (malloc : W -> bool * W).
Context (Hmalloc : forall w, (malloc w).1 = true).

Lemma set_content_holds method delta members buf t total w :
  holds buf t total -> total < 2147483648 -> Forall2 (reports print_f mem method) delta members ->
  Forall (fun c => c <> 0) (middle method (reverse members)) -> 2 * zlen (t ++ middle method (reverse members)) <= total ->
  0 < zlen t ->
  exists buf' w', shadow_json_set_content print_f mem malloc buf total method delta w = Ok (buf', SUCCESS_RET, w') /\
    holds buf' (t ++ middle method (reverse members)) total.
Proof using Hmalloc.
  intros Hh Ht Hr Hnz Hl Hpos. unfold shadow_json_set_content. rewrite (holds_strlen _ _ _ Hh). cbn [mbind res_bind].
  pose proof (holds_len _ _ _ Hh). rewrite u32_small by lia. rewrite length_app in Hl.
  assert (Hloop : method <> GET -> method <> DELETE_ALL -> middle method (reverse members) = nodes_text (reverse members) ->
    exists buf' w', (if decide (delta = []) then Ok (buf, SUCCESS_RET, w)
      else let '(iter, w) := malloc w in
        if iter : bool then
          pJsonDoc ← content_loop print_f mem total method (reverse delta) buf (total - zlen t); Ok (pJsonDoc, SUCCESS_RET, w)
        else Ok (buf, ERR_PARAM_INVALID, w)) = Ok (buf', SUCCESS_RET, w') /\
    holds buf' (t ++ middle method (reverse members)) total).
  { intros Hg Ha Hmid. rewrite Hmid in *. destruct (decide (delta = [])) as [->|Hne].
    - apply Forall2_nil_inv_l in Hr as ->. eexists _, _. split; [done|]. cbn. by rewrite app_nil_r.
    - pose proof (Hmalloc w) as Hm. destruct (malloc w) as [got w1]. cbn in Hm. subst got.
      destruct (content_loop_holds print_f mem method total (reverse delta) (reverse members) buf t) as (b1 & -> & Hb1);
        [done|done|by apply Forall2_reverse|done|done|done|rewrite length_app; lia|]. by eexists _, _. }
  destruct method; try by apply Hloop.
  - eexists _, _. split; [done|]. cbn. by rewrite app_nil_r.
  - cbn [middle] in *. destruct (snprintf_at_end buf t total (total - zlen t) (bytes_of "null")) as (b1 & -> & Hb1); [done|lia..|done|].
    cbn [mbind res_bind]. eexists _, _. split; [by rewrite check_success by lia|done].
Qed.

Lemma make_document_holds method delta members buf total version w :
  zlen buf = total -> total < 2147483648 -> Forall2 (reports print_f mem method) delta members ->
  well_formed (JObject members) = true -> (needs_properties method = true -> delta <> []) ->
  2 * zlen (print (document method version (reverse members))) <= total ->
  exists buf' w', make_document print_f mem malloc buf total method delta version w = Ok (buf', SUCCESS_RET, w') /\
    holds buf' (print (document method version (reverse members))) total.
Proof using Hmalloc.
  intros Hb Ht Hr Hw Hne Hl. set (ms := reverse members) in *.
  assert (Hwr : well_formed (JObject ms) = true) by (cbn [well_formed]; unfold ms; by rewrite forallb_reverse).
  assert (Hempty : bool_decide (delta = []) = bool_decide (ms = [])).
  { apply bool_decide_ext. unfold ms. destruct Hr; [done|]. rewrite reverse_cons. split; [done|]. intros E. by apply app_nil in E as []. }
  destruct (document_parts method version ms) as (t & tail & Htail & Hmid & Hdoc & Hpos).
  { intros Hn%Hne E. apply Hn. rewrite (bool_decide_true (ms = []) E) in Hempty. by apply bool_decide_eq_true in Hempty. }
  pose proof (print_nonzero _ (document_well_formed method version ms Hwr)) as Hnz. rewrite <- Hdoc in Hnz, Hl |- *.
  apply Forall_app in Hnz as [Hnt Hntail]. rewrite length_app in Hl.
  assert (Hover : zlen (over method ms) <= 1 /\ Forall (fun c => c <> 0) (over method ms)).
  { unfold over. destruct method; try case_decide; cbn; (split; [lia|repeat constructor; done]). }
  set (head := json_head method (negb (bool_decide (ms = [])))) in *.
  assert (Hh5 : 5 < zlen head) by (unfold head; destruct (negb (bool_decide (ms = []))), method; vm_compute; done).
  assert (Hnm : Forall (fun c => c <> 0) (head ++ middle method ms)) by (rewrite Hmid; apply Forall_app; split; [done|apply Hover]).
  apply Forall_app in Hnm as [Hnh Hnm]. pose proof (f_equal length Hmid) as Hlen. rewrite !length_app in Hlen.
  unfold make_document. rewrite Hempty. fold head. unfold shadow_json_init. fold head.
  destruct (init_holds buf total head Hb) as (b1 & -> & Hb1); [lia|done|]. cbn [mbind res_bind].
  rewrite decide_False by (intros E; by apply E).
  destruct (set_content_holds method delta members b1 head total w) as (b2 & w2 & -> & Hb2); [done..| |lia|].
  { fold ms. rewrite Hmid, length_app. lia. }
  cbn [mbind res_bind]. rewrite decide_False by (intros E; by apply E). fold ms in Hb2. rewrite Hmid in Hb2.
  destruct (finalize_holds b2 t (over method ms) total method (negb (bool_decide (ms = []))) version tail) as (b3 & -> & Hb3);
    [done|done|done|lia|done|done|]. cbn [mbind res_bind]. by eexists _, _.
Qed.
End run.

(** The document of a request that fits. *)
Lemma request_document {F} (print_f : F -> bytes) mem {W} (malloc : W -> bool * W) buf method delta members version w :
  (forall w, (malloc w).1 = true) -> zlen buf < 2147483648 ->
  Forall2 (reports print_f mem method) delta members -> well_formed (JObject members) = true ->
  (needs_properties method = true -> delta <> []) ->
  let doc := document method version (reverse members) in
  2 * zlen (print doc) <= zlen buf ->
  exists junk w', make_document print_f mem malloc buf (zlen buf) method delta version w = Ok (print doc ++ 0 :: junk, SUCCESS_RET, w') /\
    forall path v w, path <> [] -> Forall component path -> value_at path doc = Some v -> unambiguous path doc = true -> text v <> [] ->
      exists w', LITE_json_value_of malloc (join 46 path ++ [0]) (print doc ++ 0 :: junk) w = Ok (Some (text v), w').
Proof.
  intros Hm Hb Hr Hw Hne doc Hl.
  destruct (make_document_holds print_f mem malloc Hm method delta members buf (zlen buf) version w) as (b & w' & -> & junk & -> & _ & _);
    [done..|]. exists junk, w'. split; [done|]. intros. apply json_lookup_found; try done.
  apply document_well_formed. cbn [well_formed] in *. by rewrite forallb_reverse.
Qed.

(* ================================================================== *)
(** * Documents that do not fit *)

(** Behind the middle of the buffer the size left is computed below 0 and
    wraps: nothing holds the text back. *)
Lemma put_json_node_overruns {F} (print_f : F -> bytes) buf t total key data type text :
  holds buf t total -> total < 2147483648 ->
  match data with None => text = bytes_of "null" | Some c => node_text print_f type c = Ok text end ->
  Forall (fun c => c <> 0) key -> zlen (member key text) < 1073741824 ->
  total < 2 * zlen t -> total <= zlen (t ++ member key text ++ [44]) ->
  put_json_node print_f buf (total - zlen t) (Some key) data type = Oob.
Proof.
  intros Hh Ht Htext Hk Hsmall Hhalf Hl. pose proof (holds_len _ _ _ Hh) as Hlt.
  unfold member in *. rewrite !length_app in Hl. cbn [length] in *. rewrite length_app in *. cbn [length] in *. unfold put_json_node.
  rewrite (holds_strlen _ _ _ Hh). cbn [mbind res_bind].
  assert (Hwrap : forall k, 0 <= k < 1073741824 + 8 -> u32 (total - zlen t - (zlen t + k)) = total - zlen t - (zlen t + k) + 4294967296).
  { intros k Hk'. unfold u32. symmetry. apply Z.mod_unique with (-1); lia. }
  pose proof (Hwrap 0) as H0. rewrite Z.add_0_r in H0. rewrite H0, decide_False by lia.
  set (k := 34 :: key ++ [34; 58]). assert (Hkl : zlen k = zlen key + 3) by (unfold k; cbn; rewrite length_app; cbn; lia).
  assert (Hknz : Forall (fun c => c <> 0) k) by (unfold k; constructor; [done|]; apply Forall_app; split; [done|repeat constructor; done]).
  clearbody k. destruct (decide (total <= zlen t + zlen k)) as [Hov|Hov].
  { rewrite (snprintf_at_over _ _ total) by (done || lia). done. }
  destruct (snprintf_at_end buf t total (total - zlen t - zlen t + 4294967296) k) as (b1 & -> & Hb1); [done|lia..|done|].
  cbn [mbind res_bind]. rewrite check_success, decide_False by first [lia|done].
  rewrite (holds_strlen _ _ _ Hb1). cbn [mbind res_bind]. rewrite length_app, Nat2Z.inj_add, Hwrap, decide_False by lia.
  assert (Hd : match data with None => Ok (bytes_of "null") | Some c => node_text print_f type c end = Ok text)
    by (destruct data; [done|by subst]). rewrite Hd. cbn [mbind res_bind].
  replace (zlen t + zlen k) with (zlen (t ++ k)) by (rewrite length_app; lia).
  rewrite (snprintf_at_over _ _ total); [done|done|..]; rewrite ?length_app; cbn [length]; lia.
Qed.

Definition no_text (f : Empty_set) : bytes := [].
Definition cells0 : gmap positive (cell Empty_set) := {[1%positive := Int 21; 2%positive := Str (bytes_of "on")]}.
Definition temp0 : DeviceProperty := mkProperty (Some (bytes_of "temp")) (Some 1%positive) JINT16.
Definition lamp0 : DeviceProperty := mkProperty (Some (bytes_of "lamp")) (Some 2%positive) JSTRING.
(** The text that a request for the two properties leaves in a buffer. *)
Definition written (size : nat) (method : Method) (delta : list DeviceProperty) : res (option bytes * Z) :=
  '(b, ret, _) ← make_document no_text cells0 mem_ok (replicate size 0) (Z.of_nat size) method delta 5 tt; Ok (cstr b, ret).

Example written_ex :
  written 256 UPDATE [temp0; lamp0] =
    Ok (Some (q "{`Method`:`update`,`State`:{`Reported`:{`lamp`:`on`,`temp`:21}},`Version`:5}"), SUCCESS_RET).
Proof. vm_compute. reflexivity. Qed.

(** C22: the document of a request.  If every property has a key and a value of
    its type, there is one where the request is made for properties, memory is
    there, and the text takes up at most half of the buffer, then what is
    written is the compact JSON text of the request - its method, the
    properties, last one first, with their values or null, and the version -
    whatever the buffer held.  The SDK's own scanner finds every field of it
    (under the conditions of [json_lookup_correct]).

    What happens to larger documents, and to requests for no property: once the
    text has passed the middle of the buffer, the room that [put_json_node]
    computes is a wrapped number, and a property that does not fit is written
    past the end.  Just in front of the middle a property is cut off or
    dropped; the error is not looked at, and the broken text counts as made.
    Updating or deleting without properties makes a text that is no JSON: the
    brace of the object is overwritten as if it were a comma. *)
Theorem shadow_document_correct {F} (print_f : F -> bytes) :
  (forall mem W (malloc : W -> bool * W) buf method delta members version w,
    (forall w, (malloc w).1 = true) -> zlen buf < 2147483648 ->
    Forall2 (reports print_f mem method) delta members -> well_formed (JObject members) = true ->
    (needs_properties method = true -> delta <> []) ->
    let doc := document method version (reverse members) in
    2 * zlen (print doc) <= zlen buf ->
    exists junk w', make_document print_f mem malloc buf (zlen buf) method delta version w = Ok (print doc ++ 0 :: junk, SUCCESS_RET, w') /\
      forall path v w, path <> [] -> Forall component path -> value_at path doc = Some v -> unambiguous path doc = true -> text v <> [] ->
        exists w', LITE_json_value_of malloc (join 46 path ++ [0]) (print doc ++ 0 :: junk) w = Ok (Some (text v), w')) /\
  (forall buf t key data type text,
    holds buf t (zlen buf) -> zlen buf < 2147483648 ->
    match data with None => text = bytes_of "null" | Some c => node_text print_f type c = Ok text end ->
    Forall (fun c => c <> 0) key -> zlen (member key text) < 1073741824 ->
    zlen buf < 2 * zlen t -> zlen buf <= zlen (t ++ member key text ++ [44]) ->
    put_json_node print_f buf (zlen buf - zlen t) (Some key) data type = Oob) /\
  written 60 UPDATE [temp0; lamp0] = Oob /\
  written 85 UPDATE [temp0; lamp0] =
    Ok (Some (q "{`Method`:`update`,`State`:{`Reported`:{`lam`temp`:21}},`Version`:5}"), SUCCESS_RET) /\
  written 80 UPDATE [temp0; lamp0] =
    Ok (Some (q "{`Method`:`update`,`State`:{`Reported`:}},`Version`:5}"), SUCCESS_RET) /\
  written 256 UPDATE [] = Ok (Some (q "{`Method`:`update`,`State`:{`Reported`:}},`Version`:5}"), SUCCESS_RET) /\
  written 256 DELETE [] = Ok (Some (q "{`Method`:`delete`,`State`:}},`Version`:5}"), SUCCESS_RET).
Proof.
  split; [intros; by apply request_document|]. split; [intros; by eapply put_json_node_overruns|]. repeat split; vm_compute; reflexivity.
Qed.

Lemma shadow_document_correct_witness :
  (exists junk,
    make_document no_text cells0 mem_ok (replicate 256 7) 256 UPDATE [temp0; lamp0] 5 tt =
      Ok (q "{`Method`:`update`,`State`:{`Reported`:{`lamp`:`on`,`temp`:21}},`Version`:5}" ++ 0 :: junk, SUCCESS_RET, tt) /\
    LITE_json_value_of mem_ok (lit "State.Reported.temp")
      (q "{`Method`:`update`,`State`:{`Reported`:{`lamp`:`on`,`temp`:21}},`Version`:5}" ++ 0 :: junk) tt = Ok (Some (bytes_of "21"), tt)) /\
  put_json_node no_text (json_head UPDATE true ++ replicate 10 0) (50 - 40) (Some (bytes_of "temperature")) (Some (Int 21)) JINT16 = Oob.
Proof.
  destruct (shadow_document_correct no_text) as (Hdoc & Hover & _). split.
  - destruct (Hdoc cells0 unit mem_ok (replicate 256 7) UPDATE [temp0; lamp0]
      [(bytes_of "temp", JNumber (bytes_of "21")); (bytes_of "lamp", JString (bytes_of "on"))] 5 tt)
      as (junk & [] & Hm & Hl); [done|by_eval| |by vm_compute|done|by_eval|].
    { repeat constructor; [eexists|eexists]; (split; [done|by vm_compute]). }
    exists junk. split; [exact Hm|].
    destruct (Hl [bytes_of "State"; bytes_of "Reported"; bytes_of "temp"] (JNumber (bytes_of "21")) tt) as [[] Hf];
      [done|by_eval|by vm_compute..|done|exact Hf].
  - refine (Hover (json_head UPDATE true ++ replicate 10 0) (json_head UPDATE true)
      (bytes_of "temperature") (Some (Int 21)) JINT16 (bytes_of "21") _ _ _ _ _ _ _); [|by_eval..].
    exists (replicate 9 0). split_and!; [done|done|]. repeat constructor; done.
Defined.
