(* ===== verification/DevModel.v ===== *)
(** The device model ([uiot/dev_model/src/dm_mqtt.c], [dm_client.c]): properties,
    events and commands of the device as JSON texts over MQTT topics.

    Buffers are what [HAL_Malloc] returns, with their old content; [live] counts
    the blocks that are not freed.  Where the code jumps to [do_exit], which
    frees what was allocated, each block is freed behind the code that uses it.

    In literals with quotes a backquote stands for a double quote. *)

From S2P Require Import Prelude Defs Json CLib JsonConv.

(* ================================================================== *)
(** * Data *)

Inductive DM_Type := PROPERTY_RESTORE | PROPERTY_POST | PROPERTY_SET | PROPERTY_DESIRED_GET | PROPERTY_DESIRED_DELETE | EVENT_POST | COMMAND.
#[export] Instance DM_Type_eq_dec : EqDecision DM_Type.
Proof. solve_decision. Defined.
Inductive DM_Base_Type := TYPE_INT | TYPE_FLOAT | TYPE_DOUBLE | TYPE_BOOL | TYPE_ENUM | TYPE_STRING | TYPE_DATE.
Inductive DM_Parse_Type := TYPE_NODE | TYPE_STRUCT | TYPE_ARRAY_BASE | TYPE_ARRAY_STRUCT.

Definition DM_TOPIC_BUF_LEN := 128.
Definition DM_MSG_REPLY_BUF_LEN := 128.
Definition DM_MSG_REPORT_BUF_LEN := 2048.
Definition DM_EVENT_POST_BUF_LEN := 2048.
Definition DM_CMD_REPLY_BUF_LEN := 2048.

(** [F]: floating-point numbers.  An array is the list of its elements, apart
    from the number that stands beside it. *)
Inductive DM_Base_Value_U (F : Type) :=
  | int32_value (n : Z)
  | float32_value (f : F)
  | float64_value (f : F)
  | bool_value (n : Z)
  | enum_value (n : Z)
  | string_value (s : bytes)
  | date_value (n : Z).
Arguments int32_value {F} n.
Arguments float32_value {F} f.
Arguments float64_value {F} f.
Arguments bool_value {F} n.
Arguments enum_value {F} n.
Arguments string_value {F} s.
Arguments date_value {F} n.

Record DM_Node_t (F : Type) := mkNode { base_type : DM_Base_Type; node_key : option bytes; node_value : DM_Base_Value_U F }.
Arguments mkNode {F} _ _ _.
Arguments base_type {F} d.
Arguments node_key {F} d.
Arguments node_value {F} d.
Record DM_Type_Struct_t (F : Type) := mkStruct { struct_key : option bytes; struct_value : list (DM_Node_t F); struct_num : Z }.
Arguments mkStruct {F} _ _ _.
Arguments struct_key {F} d.
Arguments struct_value {F} d.
Arguments struct_num {F} d.
Record DM_Array_Base_t (F : Type) := mkArrayBase { array_key : option bytes; array_value : list (DM_Node_t F); array_num : Z }.
Arguments mkArrayBase {F} _ _ _.
Arguments array_key {F} d.
Arguments array_value {F} d.
Arguments array_num {F} d.
Record DM_Array_Struct_t (F : Type) := mkArrayStruct { structs_key : option bytes; structs_value : list (DM_Type_Struct_t F); structs_num : Z }.
Arguments mkArrayStruct {F} _ _ _.
Arguments structs_key {F} d.
Arguments structs_value {F} d.
Arguments structs_num {F} d.
Inductive DM_Property_Value_U (F : Type) :=
  | dm_node (n : DM_Node_t F)
  | dm_struct (s : DM_Type_Struct_t F)
  | dm_array_base (a : DM_Array_Base_t F)
  | dm_array_struct (a : DM_Array_Struct_t F).
Arguments dm_node {F} n.
Arguments dm_struct {F} s.
Arguments dm_array_base {F} a.
Arguments dm_array_struct {F} a.
Record DM_Property_t (F : Type) := mkProp { parse_type : DM_Parse_Type; prop_value : DM_Property_Value_U F; desired_ver : Z }.
Arguments mkProp {F} _ _ _.
Arguments parse_type {F} d.
Arguments prop_value {F} d.
Arguments desired_ver {F} d.
Record DM_Event_t (F : Type) := mkEvent { event_identy : bytes; dm_property : option (list (DM_Property_t F)); property_num : Z }.
Arguments mkEvent {F} _ _ _.
Arguments event_identy {F} d.
Arguments dm_property {F} d.
Arguments property_num {F} d.

(** ** Topics *)

(** A format whose conversions are all [%s]; an argument that is missing is
    undefined. *)
Fixpoint format_s (template : bytes) (args : list bytes) : res bytes :=
  match template with
  | 37 :: 115 :: template =>
      match args with
      | a :: args => r ← format_s template args; Ok (a ++ r)
      | [] => Oob
      end
  | c :: template => r ← format_s template args; Ok (c :: r)
  | [] => Ok []
  end.

Definition upstream_topic_template (type : DM_Type) : bytes := bytes_of
  match type with
  | PROPERTY_RESTORE => "/$system/%s/%s/tmodel/property/restore"
  | PROPERTY_POST => "/$system/%s/%s/tmodel/property/post"
  | PROPERTY_SET => "/$system/%s/%s/tmodel/property/set_reply"
  | PROPERTY_DESIRED_GET => "/$system/%s/%s/tmodel/property/desired/get"
  | PROPERTY_DESIRED_DELETE => "/$system/%s/%s/tmodel/property/desired/delete"
  | EVENT_POST => "/$system/%s/%s/tmodel/event/post"
  | COMMAND => "/$system/%s/%s/tmodel/command_reply/%s"
  end.
Definition downstream_topic_template (type : DM_Type) : bytes := bytes_of
  match type with
  | PROPERTY_RESTORE => "/$system/%s/%s/tmodel/property/restore_reply"
  | PROPERTY_POST => "/$system/%s/%s/tmodel/property/post_reply"
  | PROPERTY_SET => "/$system/%s/%s/tmodel/property/set"
  | PROPERTY_DESIRED_GET => "/$system/%s/%s/tmodel/property/desired/get_reply"
  | PROPERTY_DESIRED_DELETE => "/$system/%s/%s/tmodel/property/desired/delete_reply"
  | EVENT_POST => "/$system/%s/%s/tmodel/event/post_reply"
  | COMMAND => "/$system/%s/%s/tmodel/command"
  end.

(* ================================================================== *)
(** * State *)

(** A message: the bytes from its payload on, and its length. *)
Record dm_message := mkDmMsg { dm_payload : bytes; dm_payload_len : Z }.

(** What the device model calls: the allocator (the JSON library's calls apart),
    and the MQTT client.  [dm_next_message]: the next message that
    [IOT_MQTT_Yield] hands to the handler of a type, or the result of the
    yield. *)
Class Channel (W : Type) := {
  heap_alloc : Z -> W -> option bytes * W;
  json_alloc : W -> bool * W;
  dm_mqtt_publish : bytes -> Z -> bytes -> W -> Z * W;
  dm_mqtt_subscribe : bytes -> Z -> DM_Type -> W -> Z * W;
  dm_next_message : Z -> W -> (DM_Type * dm_message + Z) * W
}.

(** What the application and the cloud see. *)
Inductive dm_event :=
  | Called (type : DM_Type) (request_id : bytes) (ret_code : option Z) (texts : list bytes)
  | Sent (topic : bytes) (qos : Z) (msg : bytes).

Section model.
(** [CB]: pointers to functions of the application. *)
Context {W : Type} `{Channel W} {CB F : Type} (print_f : F -> bytes).

(** A template that is not set is NULL. *)
Record DM_MQTT_Struct_t := mkDMMqtt {
  dm_product_sn : bytes;
  dm_device_sn : bytes;
  callbacks : DM_Type -> option CB;
  upstream_topic_templates : DM_Type -> option bytes;
  downstream_topic_templates : DM_Type -> option bytes
}.
Record DmSt := mkDmSt { handle : DM_MQTT_Struct_t; channel : W; live : Z; dm_events : list dm_event }.

Definition DM (A : Type) : Type := DmSt -> outcome (A * DmSt).
#[export] Instance DM_ret : MRet DM := fun A a s => Done (a, s).
#[export] Instance DM_bind : MBind DM := fun A B f m s =>
  match m s with Done (a, s) => f a s | Undefined => Undefined | Unfinished => Unfinished end.

Definition gets {A} (f : DmSt -> A) : DM A := fun s => Done (f s, s).
Definition undefined {A} : DM A := fun _ => Undefined.
Definition found {A} (a : option A) : DM A := match a with Some a => mret a | None => undefined end.
Definition must {A} (r : res A) : DM A := match r with Ok a => mret a | _ => undefined end.
Definition lift {A} (f : W -> A * W) : DM A := fun s =>
  let '(a, w) := f (channel s) in Done (a, mkDmSt (handle s) w (live s) (dm_events s)).
Definition log (e : dm_event) : DM unit := fun s => Done (tt, mkDmSt (handle s) (channel s) (live s) (e :: dm_events s)).
Definition set_handle (h : DM_MQTT_Struct_t) : DM unit := fun s => Done (tt, mkDmSt h (channel s) (live s) (dm_events s)).
Definition count (d : Z) : DM unit := fun s => Done (tt, mkDmSt (handle s) (channel s) (live s + d) (dm_events s)).

Definition HAL_Malloc (size : Z) : DM (option bytes) :=
  p ← lift (heap_alloc size);
  match p with Some b => count 1;; mret (Some b) | None => mret None end.
Definition HAL_Free : DM unit := count (-1).
(** A block for [body], or [failure] without one. *)
Definition with_block {A} (size : Z) (failure : A) (body : bytes -> DM A) : DM A :=
  p ← HAL_Malloc size;
  match p with
  | None => mret failure
  | Some b => r ← body b; HAL_Free;; mret r
  end.

(** A value of a JSON text, in a block of its own. *)
Definition json_value (key : String.string) (msg : bytes) : DM (option bytes) := fun s =>
  match LITE_json_value_of json_alloc (lit key) msg (channel s) with
  | Ok (v, w) => Done (v, mkDmSt (handle s) w (live s + match v with Some _ => 1 | None => 0 end) (dm_events s))
  | Oob => Undefined
  | Err _ => Unfinished
  end.
Definition with_value (key : String.string) (msg : bytes) (body : bytes -> DM unit) : DM unit :=
  v ← json_value key msg;
  match v with
  | None => mret tt
  | Some v => body v;; HAL_Free
  end.

(** Printing at the start of a buffer, and behind the string in it. *)
Definition print_to (buf : bytes) (size : Z) (text : bytes) : DM (bytes * Z) := must (snprintf_at buf 0 size text).
Definition append_to (buf : bytes) (size : Z) (text : bytes) : DM (bytes * Z) :=
  n ← must (strlen buf); must (snprintf_at buf (Z.of_nat n) (u32 size) text).
(** [%s] *)
Definition str (buf : bytes) : DM bytes := found (cstr buf).

(* ================================================================== *)
(** * Payloads *)

(** Reading a member of the union that was not stored is undefined. *)
Definition base_text (type : DM_Base_Type) (v : DM_Base_Value_U F) : res bytes :=
  match type, v with
  | TYPE_INT, int32_value n | TYPE_BOOL, bool_value n | TYPE_ENUM, enum_value n | TYPE_DATE, date_value n => Ok (dec (s32 n))
  | TYPE_FLOAT, float32_value f | TYPE_DOUBLE, float64_value f => Ok (print_f f)
  | TYPE_STRING, string_value s => Ok (34 :: s ++ [34])
  | _, _ => Oob
  end.

(** What stands around a value: its key, and an object with the member Value. *)
Definition head_text (key : option bytes) (value_key : bool) : bytes :=
  match key with Some k => 34 :: k ++ q "`: " ++ (if value_key then q "{`Value`: " else []) | None => [] end.
Definition tail_text (key : option bytes) (value_key : bool) : bytes :=
  match key with Some _ => if value_key then [125] else [] | None => [] end.

Definition dm_gen_node_payload (dm_node : DM_Node_t F) (value_key : bool) (node_payload : bytes) : DM (bytes * Z) :=
  text ← must (base_text (base_type dm_node) (node_value dm_node));
  let key := node_key dm_node in
  '(node_payload, ret) ← print_to node_payload DM_MSG_REPORT_BUF_LEN (head_text key value_key ++ text ++ tail_text key value_key);
  mret (node_payload, if decide (ret < 0 \/ ret >= DM_MSG_REPORT_BUF_LEN) then FAILURE_RET else SUCCESS_RET).

(** The loop over the elements of a structure or array, from [loop] on: the
    buffer, the buffer of an element, the room left, and the result. *)
Section elements.
Context {A : Type} (gen : A -> bytes -> DM (bytes * Z)) (opening closing : bytes) (items : list A) (num : Z).
Fixpoint element_loop (n : nat) (loop : Z) (payload item_payload : bytes) (remain_size : Z) : DM (bytes * bytes * Z * Z) :=
  match n with
  | O => mret (payload, item_payload, remain_size, SUCCESS_RET)
  | S n =>
      item ← found (items !! Z.to_nat loop);
      '(item_payload, ret) ← gen item item_payload;
      if decide (ret <> SUCCESS_RET) then mret (payload, item_payload, remain_size, ret)
      else
        text ← str item_payload;
        '(payload, remain_size) ←
          (if decide (loop = 0) then
             '(payload, write_size) ← print_to payload DM_MSG_REPORT_BUF_LEN (opening ++ text);
             mret (payload, DM_MSG_REPORT_BUF_LEN - write_size)
           else
             '(payload, write_size) ←
               append_to payload remain_size (bytes_of ", " ++ text ++ if decide (loop = num - 1) then closing else []);
             mret (payload, remain_size - write_size));
        element_loop n (loop + 1) payload item_payload remain_size
  end.
(** A single element is written at once, however long it is. *)
Definition gen_elements (payload : bytes) : DM (bytes * Z) :=
  with_block DM_MSG_REPORT_BUF_LEN (payload, FAILURE_RET) (fun item_payload =>
    if decide (num = 1) then
      item ← found (items !! O);
      '(item_payload, ret) ← gen item item_payload;
      if decide (ret <> SUCCESS_RET) then mret (payload, ret)
      else
        text ← str item_payload;
        '(payload, _) ← print_to payload DM_MSG_REPORT_BUF_LEN (opening ++ text ++ closing);
        mret (payload, SUCCESS_RET)
    else
      '(payload, _, remain_size, ret) ← element_loop (Z.to_nat num) 0 payload item_payload 0;
      if decide (ret <> SUCCESS_RET) then mret (payload, ret)
      else mret (payload, if decide (remain_size < 0) then FAILURE_RET else SUCCESS_RET)).
End elements.

Definition dm_gen_struct_payload (dm_struct : DM_Type_Struct_t F) (value_key : bool) (struct_payload : bytes) : DM (bytes * Z) :=
  let key := struct_key dm_struct in
  gen_elements (fun node => dm_gen_node_payload node false) (head_text key value_key ++ [123]) (125 :: tail_text key value_key)
    (struct_value dm_struct) (struct_num dm_struct) struct_payload.

(** The arrays need a key: [%s] of NULL is undefined. *)
Definition dm_gen_array_base_payload (dm_array_base : DM_Array_Base_t F) (value_key : bool) (array_base_payload : bytes) : DM (bytes * Z) :=
  let key := array_key dm_array_base in
  let keyed node buf := r ← dm_gen_node_payload node false buf; (if decide (r.2 = SUCCESS_RET) then found key;; mret r else mret r) in
  gen_elements keyed (head_text key value_key ++ [91]) (93 :: tail_text key value_key)
    (array_value dm_array_base) (array_num dm_array_base) array_base_payload.

Definition dm_gen_array_struct_payload (dm_array_struct : DM_Array_Struct_t F) (value_key : bool) (array_struct_payload : bytes) : DM (bytes * Z) :=
  let key := structs_key dm_array_struct in
  let keyed item buf := r ← dm_gen_struct_payload item false buf; (if decide (r.2 = SUCCESS_RET) then found key;; mret r else mret r) in
  gen_elements keyed (head_text key value_key ++ [91]) (93 :: tail_text key value_key)
    (structs_value dm_array_struct) (structs_num dm_array_struct) array_struct_payload.

Definition dm_gen_property_post_payload (property : DM_Property_t F) (value_key : bool) (property_payload : bytes) : DM (bytes * Z) :=
  match parse_type property, prop_value property with
  | TYPE_NODE, dm_node n => dm_gen_node_payload n value_key property_payload
  | TYPE_STRUCT, dm_struct s => dm_gen_struct_payload s value_key property_payload
  | TYPE_ARRAY_BASE, dm_array_base a => dm_gen_array_base_payload a value_key property_payload
  | TYPE_ARRAY_STRUCT, dm_array_struct a => dm_gen_array_struct_payload a value_key property_payload
  | _, _ => undefined
  end.

(** The key of a property. *)
Definition property_key (property : DM_Property_t F) : DM bytes :=
  match parse_type property, prop_value property with
  | TYPE_NODE, dm_node n => found (node_key n)
  | TYPE_STRUCT, dm_struct s => found (struct_key s)
  | TYPE_ARRAY_BASE, dm_array_base a => found (array_key a)
  | TYPE_ARRAY_STRUCT, dm_array_struct a => found (structs_key a)
  | _, _ => undefined
  end.
Definition dm_gen_property_desired_payload (property : DM_Property_t F) (desired_payload : bytes) : DM (bytes * Z) :=
  key ← property_key property;
  '(desired_payload, _) ← print_to desired_payload DM_MSG_REPORT_BUF_LEN (34 :: key ++ [34]);
  mret (desired_payload, SUCCESS_RET).
Definition dm_gen_property_delete_payload (property : DM_Property_t F) (delete_payload : bytes) : DM (bytes * Z) :=
  key ← property_key property;
  '(delete_payload, _) ← print_to delete_payload DM_MSG_REPORT_BUF_LEN
    (34 :: key ++ q "`: {`version`: " ++ dec (s32 (desired_ver property)) ++ [125]);
  mret (delete_payload, SUCCESS_RET).

Definition gen_property (type : DM_Type) (value_key : bool) (property : DM_Property_t F) (payload : bytes) : DM (bytes * Z) :=
  match type with
  | PROPERTY_POST => dm_gen_property_post_payload property value_key payload
  | PROPERTY_DESIRED_GET => dm_gen_property_desired_payload property payload
  | PROPERTY_DESIRED_DELETE => dm_gen_property_delete_payload property payload
  | _ => mret (payload, SUCCESS_RET)
  end.
(** The properties with commas between them; those of other types leave the
    buffer of a property as it is.  [None] is NULL. *)
Definition dm_gen_properties_payload (property : option (list (DM_Property_t F))) (num : Z) (type : DM_Type) (value_key : bool)
    (properties_payload : bytes) : DM (bytes * Z) :=
  match property with
  | None => mret (properties_payload, FAILURE_RET)
  | Some property =>
      with_block DM_MSG_REPORT_BUF_LEN (properties_payload, FAILURE_RET) (fun payload =>
        '(properties_payload, _, remain_size, ret) ←
          element_loop (gen_property type value_key) [] [] property num (Z.to_nat num) 0 properties_payload payload 0;
        if decide (ret <> SUCCESS_RET) then mret (properties_payload, ret)
        else mret (properties_payload, if decide (remain_size < 0) then FAILURE_RET else SUCCESS_RET))
  end.

(* ================================================================== *)
(** * Messages *)

Definition _dm_mqtt_gen_topic_name (buf : bytes) (buf_len : Z) (topic_template : option bytes) : DM (bytes * Z) :=
  h ← gets handle;
  template ← found topic_template;
  text ← must (format_s template [dm_product_sn h; dm_device_sn h]);
  '(buf, ret) ← print_to buf buf_len text;
  mret (buf, if decide (ret < 0 \/ ret >= buf_len) then FAILURE_RET else SUCCESS_RET).

(** [payload]: what a pointer points to, read only by the formats that have it. *)
Definition _dm_mqtt_gen_property_payload (buf : bytes) (buf_len : Z) (type : DM_Type) (request_id : Z) (payload : option bytes) : DM (bytes * Z) :=
  let id := q "{`RequestID`: `" ++ dec (s32 request_id) in
  let with_payload opening closing :=
    p ← found payload; text ← str p; mret (Some (id ++ q opening ++ text ++ q closing)) in
  text ←
    match type with
    | PROPERTY_RESTORE => mret (Some (id ++ q "`}"))
    | PROPERTY_POST => with_payload "`, `Property`: {" "}}"
    | PROPERTY_DESIRED_GET => with_payload "`, `Require`: [" "]}"
    | PROPERTY_DESIRED_DELETE => with_payload "`, `Delete`: {" "}}"
    | _ => mret None
    end;
  match text with
  | None => mret (buf, FAILURE_RET)
  | Some text =>
      '(buf, ret) ← print_to buf buf_len text;
      mret (buf, if decide (ret < 0 \/ ret >= buf_len) then FAILURE_RET else SUCCESS_RET)
  end.

Definition _dm_mqtt_gen_event_payload (buf : bytes) (buf_len request_id : Z) (identifier : bytes) (payload : option bytes) : DM (bytes * Z) :=
  p ← found payload;
  text ← str p;
  '(buf, ret) ← print_to buf buf_len
    (q "{`RequestID`: `" ++ dec (s32 request_id) ++ q "`, `Identifier`: `" ++ identifier ++ q "`, `Output`: {" ++ text ++ q "}}");
  mret (buf, if decide (ret < 0 \/ ret >= buf_len) then FAILURE_RET else SUCCESS_RET).

Definition _dm_mqtt_publish (topic_name : bytes) (qos : Z) (msg : bytes) : DM Z :=
  topic ← str topic_name;
  payload ← str msg;
  let qos := if decide (qos = 0) then QOS0 else QOS1 in
  ret ← lift (dm_mqtt_publish topic qos payload);
  if decide (ret < 0) then mret FAILURE_RET else log (Sent topic qos payload);; mret ret.

(** ** What the cloud sends *)

Context (restore_cb : CB -> bytes -> Z -> bytes -> DM Z).
Context (set_cb : CB -> bytes -> bytes -> DM Z).
Context (desired_get_cb : CB -> bytes -> Z -> bytes -> DM Z).
Context (command_cb : CB -> bytes -> bytes -> bytes -> bytes -> DM (Z * bytes)).
Context (reply_cb : CB -> bytes -> Z -> DM Z).

(** The payload as a string of its own: [%s] stops at its length only after
    having looked for the end of the string. *)
Definition with_message (message : dm_message) (body : bytes -> DM unit) : DM unit :=
  let size := u32 (dm_payload_len message + 1) in
  with_block size tt (fun msg =>
    text ← str (dm_payload message);
    '(msg, _) ← print_to msg size text;
    body msg).
Definition with_ret_code (msg : bytes) (body : Z -> DM unit) : DM unit :=
  with_value "RetCode" msg (fun ret_code_char =>
    ret_code ← must (LITE_get_int8 (ret_code_char ++ [0]));
    match ret_code with None => mret tt | Some ret_code => body ret_code end).
Definition callback_of (type : DM_Type) : DM (option CB) := h ← gets handle; mret (callbacks h type).
Definition if_registered (type : DM_Type) (body : CB -> DM unit) : DM unit :=
  cb ← callback_of type;
  match cb with None => mret tt | Some cb => body cb end.

Definition _dm_mqtt_common_reply_cb (type : DM_Type) (message : dm_message) (cb : CB) : DM unit :=
  with_message message (fun msg =>
    with_ret_code msg (fun ret_code =>
      with_value "RequestID" msg (fun request_id =>
        log (Called type request_id (Some ret_code) []);;
        reply_cb cb request_id ret_code;; mret tt))).

Definition dm_mqtt_property_restore_cb (message : dm_message) : DM unit :=
  if_registered PROPERTY_RESTORE (fun cb =>
    with_message message (fun msg =>
      with_ret_code msg (fun ret_code =>
        with_value "RequestID" msg (fun request_id =>
          with_value "Property" msg (fun property =>
            log (Called PROPERTY_RESTORE request_id (Some ret_code) [property]);;
            restore_cb cb request_id ret_code property;; mret tt))))).

Definition dm_mqtt_property_post_cb (message : dm_message) : DM unit :=
  if_registered PROPERTY_POST (_dm_mqtt_common_reply_cb PROPERTY_POST message).

(** Its part behind the callback: the reply. *)
Definition set_reply (request_id : bytes) (cb_ret : Z) : DM unit :=
  with_block DM_MSG_REPLY_BUF_LEN tt (fun msg_reply =>
    with_block DM_TOPIC_BUF_LEN tt (fun topic =>
      h ← gets handle;
      '(topic, ret) ← _dm_mqtt_gen_topic_name topic DM_TOPIC_BUF_LEN (upstream_topic_templates h PROPERTY_SET);
      if decide (ret <> SUCCESS_RET) then mret tt
      else
        '(msg_reply, ret) ← print_to msg_reply DM_MSG_REPLY_BUF_LEN
          (q "{`RequestID`: `" ++ request_id ++ q "`, `RetCode`: " ++ dec (s32 cb_ret) ++ [125]);
        if decide (ret < 0 \/ ret >= DM_MSG_REPLY_BUF_LEN) then mret tt
        else _dm_mqtt_publish topic 1 msg_reply;; mret tt)).
Definition dm_mqtt_property_set_cb (message : dm_message) : DM unit :=
  if_registered PROPERTY_SET (fun cb =>
    with_message message (fun msg =>
      with_value "RequestID" msg (fun request_id =>
        with_value "Property" msg (fun property =>
          log (Called PROPERTY_SET request_id None [property]);;
          cb_ret ← set_cb cb request_id property;
          set_reply request_id cb_ret)))).

Definition dm_mqtt_property_desired_get_cb (message : dm_message) : DM unit :=
  if_registered PROPERTY_DESIRED_GET (fun cb =>
    with_message message (fun msg =>
      with_ret_code msg (fun ret_code =>
        with_value "RequestID" msg (fun request_id =>
          with_value "Desired" msg (fun desired =>
            log (Called PROPERTY_DESIRED_GET request_id (Some ret_code) [desired]);;
            desired_get_cb cb request_id ret_code desired;; mret tt))))).

Definition dm_mqtt_property_desired_delete_cb (message : dm_message) : DM unit :=
  if_registered PROPERTY_DESIRED_DELETE (_dm_mqtt_common_reply_cb PROPERTY_DESIRED_DELETE message).

Definition dm_mqtt_event_post_cb (message : dm_message) : DM unit :=
  if_registered EVENT_POST (_dm_mqtt_common_reply_cb EVENT_POST message).

(** The part behind the callback.  The lengths are compared with [>], so that a
    text one byte too long is cut off and sent. *)
Definition command_reply (request_id identifier : bytes) (cb_ret : Z) (output : bytes) : DM unit :=
  with_block DM_CMD_REPLY_BUF_LEN tt (fun cmd_reply =>
    with_block DM_TOPIC_BUF_LEN tt (fun topic =>
      h ← gets handle;
      template ← found (upstream_topic_templates h COMMAND);
      name ← must (format_s template [dm_product_sn h; dm_device_sn h; request_id]);
      '(topic, ret) ← print_to topic DM_TOPIC_BUF_LEN name;
      if decide (ret < 0 \/ ret > DM_TOPIC_BUF_LEN) then mret tt
      else
        text ← str output;
        '(cmd_reply, ret) ← print_to cmd_reply DM_CMD_REPLY_BUF_LEN
          (q "{`RequestID`: `" ++ request_id ++ q "`, `RetCode`: " ++ dec (s32 cb_ret) ++ q ", `Identifier`: `" ++ identifier ++
           q "`, `Output`: {" ++ text ++ q "}}");
        if decide (ret < 0 \/ ret > DM_CMD_REPLY_BUF_LEN) then mret tt
        else _dm_mqtt_publish topic 1 cmd_reply;; mret tt)).
Definition dm_mqtt_command_cb (message : dm_message) : DM unit :=
  if_registered COMMAND (fun cb =>
    with_message message (fun msg =>
      with_value "RequestID" msg (fun request_id =>
        with_value "Identifier" msg (fun identifier =>
          with_value "Input" msg (fun input =>
            with_block DM_MSG_REPORT_BUF_LEN tt (fun output =>
              log (Called COMMAND request_id None [identifier; input]);;
              '(cb_ret, output) ← command_cb cb request_id identifier input output;
              command_reply request_id identifier cb_ret output)))))).

Definition dm_handler (type : DM_Type) (message : dm_message) : DM unit :=
  match type with
  | PROPERTY_RESTORE => dm_mqtt_property_restore_cb message
  | PROPERTY_POST => dm_mqtt_property_post_cb message
  | PROPERTY_SET => dm_mqtt_property_set_cb message
  | PROPERTY_DESIRED_GET => dm_mqtt_property_desired_get_cb message
  | PROPERTY_DESIRED_DELETE => dm_mqtt_property_desired_delete_cb message
  | EVENT_POST => dm_mqtt_event_post_cb message
  | COMMAND => dm_mqtt_command_cb message
  end.

(** ** What the application asks for *)

Definition set_at {A} (type : DM_Type) (a : A) (f : DM_Type -> option A) : DM_Type -> option A :=
  fun t => if decide (t = type) then Some a else f t.
(** [None] for a callback is NULL. *)
Definition _dsc_mqtt_register_callback (dm_type : DM_Type) (callback : option CB) : DM Z :=
  match callback with
  | None => mret FAILURE_RET
  | Some callback =>
      h ← gets handle;
      set_handle (mkDMMqtt (dm_product_sn h) (dm_device_sn h) (set_at dm_type callback (callbacks h))
        (set_at dm_type (upstream_topic_template dm_type) (upstream_topic_templates h))
        (set_at dm_type (downstream_topic_template dm_type) (downstream_topic_templates h)));;
      '(topic, ret) ← _dm_mqtt_gen_topic_name (replicate (Z.to_nat DM_TOPIC_BUF_LEN) 0) DM_TOPIC_BUF_LEN
        (Some (downstream_topic_template dm_type));
      if decide (ret < 0) then mret FAILURE_RET
      else
        topic ← str topic;
        ret ← lift (dm_mqtt_subscribe topic QOS1 dm_type);
        mret (if decide (ret < 0) then FAILURE_RET else SUCCESS_RET)
  end.
(** [uiot_register_for_...]: the result is not passed on. *)
Definition uiot_register_for (type : DM_Type) (cb : option CB) : DM Z := _dsc_mqtt_register_callback type cb;; mret 0.

Definition dm_mqtt_property_report_publish (type : DM_Type) (request_id : Z) (payload : option bytes) : DM Z :=
  with_block DM_MSG_REPORT_BUF_LEN FAILURE_RET (fun msg_report =>
    with_block DM_TOPIC_BUF_LEN FAILURE_RET (fun topic =>
      h ← gets handle;
      '(topic, ret) ← _dm_mqtt_gen_topic_name topic DM_TOPIC_BUF_LEN (upstream_topic_templates h type);
      if decide (ret <> SUCCESS_RET) then mret FAILURE_RET
      else
        '(msg_report, ret) ← _dm_mqtt_gen_property_payload msg_report DM_MSG_REPORT_BUF_LEN type request_id payload;
        if decide (ret < 0) then mret FAILURE_RET else _dm_mqtt_publish topic 1 msg_report)).

Definition dm_mqtt_property_report_publish_Ex (type : DM_Type) (request_id : Z) (property : option (list (DM_Property_t F))) (num : Z) : DM Z :=
  with_block DM_MSG_REPORT_BUF_LEN FAILURE_RET (fun payload =>
    '(payload, ret) ← dm_gen_properties_payload property num type true payload;
    if decide (ret = FAILURE_RET) then mret FAILURE_RET
    else dm_mqtt_property_report_publish type request_id (Some payload)).

Definition dm_mqtt_event_publish (request_id : Z) (identifier : bytes) (payload : option bytes) : DM Z :=
  with_block DM_EVENT_POST_BUF_LEN FAILURE_RET (fun msg_report =>
    with_block DM_TOPIC_BUF_LEN FAILURE_RET (fun topic =>
      h ← gets handle;
      '(topic, ret) ← _dm_mqtt_gen_topic_name topic DM_TOPIC_BUF_LEN (upstream_topic_templates h EVENT_POST);
      if decide (ret <> SUCCESS_RET) then mret FAILURE_RET
      else
        '(msg_report, ret) ← _dm_mqtt_gen_event_payload msg_report DM_EVENT_POST_BUF_LEN request_id identifier payload;
        if decide (ret < 0) then mret ret else _dm_mqtt_publish topic 1 msg_report)).

Definition dm_mqtt_event_publish_Ex (request_id : Z) (event : DM_Event_t F) : DM Z :=
  with_block DM_MSG_REPORT_BUF_LEN FAILURE_RET (fun properties_payload =>
    '(properties_payload, ret) ← dm_gen_properties_payload (dm_property event) (property_num event) PROPERTY_POST false properties_payload;
    if decide (ret = FAILURE_RET) then mret FAILURE_RET
    else dm_mqtt_event_publish request_id (event_identy event) (Some properties_payload)).

(* ================================================================== *)
(** * [dm_client.c] *)

(** The array of [num] properties that the variable arguments are copied into;
    copying into NULL is undefined. *)
Definition sizeof_property := 12.
Definition with_properties (args : list (DM_Property_t F)) (body : option (list (DM_Property_t F)) -> DM Z) : DM Z :=
  p ← HAL_Malloc (u32 (zlen args * sizeof_property));
  match p with
  | Some _ => ret ← body (Some args); HAL_Free;; mret ret
  | None => if decide (args = []) then body None else undefined
  end.

Definition IOT_DM_Property_Report (type : DM_Type) (request_id : Z) (payload : option bytes) : DM Z :=
  dm_mqtt_property_report_publish type request_id payload.
Definition IOT_DM_Property_ReportEx (type : DM_Type) (request_id : Z) (args : list (DM_Property_t F)) : DM Z :=
  with_properties args (fun property => dm_mqtt_property_report_publish_Ex type request_id property (zlen args)).
Definition IOT_DM_TriggerEvent (request_id : Z) (identifier : bytes) (payload : option bytes) : DM Z :=
  dm_mqtt_event_publish request_id identifier payload.
Definition IOT_DM_TriggerEventEx (request_id : Z) (event : DM_Event_t F) : DM Z := dm_mqtt_event_publish_Ex request_id event.
(** The new content of [output], and the result. *)
Definition IOT_DM_GenCommandOutput (output : option bytes) (args : list (DM_Property_t F)) : DM (option bytes * Z) :=
  match output with
  | None => mret (None, FAILURE_RET)
  | Some output =>
      p ← HAL_Malloc (u32 (zlen args * sizeof_property));
      match p with
      | Some _ => '(output, ret) ← dm_gen_properties_payload (Some args) (zlen args) PROPERTY_POST false output; HAL_Free;; mret (Some output, ret)
      | None => if decide (args = []) then mret (Some output, FAILURE_RET) else undefined
      end
  end.

(** [IOT_MQTT_Yield]: messages are handled until it returns. *)
Fixpoint IOT_DM_Yield (fuel : nat) (timeout_ms : Z) : DM Z :=
  match fuel with
  | O => fun _ => Unfinished
  | S fuel =>
      e ← lift (dm_next_message timeout_ms);
      match e with
      | inr ret => mret ret
      | inl (type, message) => dm_handler type message;; IOT_DM_Yield fuel timeout_ms
      end
  end.

Definition IOT_DM_Destroy : DM Z := HAL_Free;; HAL_Free;; mret SUCCESS_RET.
End model.

(** The sizes of the two structures on a 32-bit target. *)
Definition sizeof_dm := 4.
Definition sizeof_dm_mqtt := 100.
(** [IOT_DM_Init], with [dsc_init]: the state of a new client. *)
Definition IOT_DM_Init {W} `{Channel W} {CB} (product_sn device_sn : option bytes) (w : W) : option (@DmSt W CB) * W :=
  match product_sn, device_sn with
  | Some psn, Some dsn =>
      let '(h_dm, w) := heap_alloc sizeof_dm w in
      match h_dm with
      | None => (None, w)
      | Some _ =>
          let '(h_dsc, w) := heap_alloc sizeof_dm_mqtt w in
          match h_dsc with
          | None => (None, w)
          | Some _ => (Some (mkDmSt (mkDMMqtt psn dsn (fun _ => None) (fun _ => None) (fun _ => None)) w 2 []), w)
          end
      end
  | _, _ => (None, w)
  end.
