(* ===== verification/DevModelSpec.v ===== *)
(** The payloads of the device model against JSON: what the generators write is
    the text of the value that the properties stand for, with a blank behind
    every colon and comma. *)

From S2P Require Import Prelude Defs Json CLib JsonConv DevModel.

(* ================================================================== *)
(** * JSON with blanks *)

Fixpoint joined (l : list bytes) : bytes :=
  match l with
  | [] => []
  | [x] => x
  | x :: l => x ++ 44 :: 32 :: joined l
  end.
Definition entry_text (n t : bytes) : bytes := 34 :: n ++ 34 :: 58 :: 32 :: t.
Fixpoint show (v : json) : bytes :=
  match v with
  | JString s => 34 :: s ++ [34]
  | JNumber s => s
  | JBool b => bytes_of (if b then "true" else "false")
  | JNull => bytes_of "null"
  | JObject ms => 123 :: joined (map (fun m => entry_text m.1 (show m.2)) ms) ++ [125]
  | JArray vs => 91 :: joined (map show vs) ++ [93]
  end.

(** The text without the blanks that are not part of a string. *)
Fixpoint squeeze (in_string : bool) (s : bytes) : bytes :=
  match s with
  | [] => []
  | c :: s =>
      if decide (c = 34) then c :: squeeze (negb in_string) s
      else if decide (c = 32 /\ in_string = false) then squeeze in_string s
      else c :: squeeze in_string s
  end.

Lemma squeeze_string s rest : forallb plain s = true -> squeeze true (s ++ 34 :: rest) = s ++ 34 :: squeeze false rest.
Proof.
  induction s as [|c s IH]; cbn [app squeeze forallb]; [by rewrite decide_True|]. intros [Hc Hs]%andb_prop.
  apply plain_spec in Hc. rewrite decide_False by lia. rewrite decide_False by (by intros [_ ?]). by rewrite IH.
Qed.
Lemma squeeze_plain s rest : Forall (fun c => c <> 34 /\ c <> 32) s -> squeeze false (s ++ rest) = s ++ squeeze false rest.
Proof.
  induction 1 as [|c s [H1 H2] _ IH]; [done|]. cbn [app squeeze]. rewrite !decide_False by (done || lia). by rewrite IH.
Qed.
Lemma squeeze_joined {A} (f g : A -> bytes) l rest :
  Forall (fun a => forall rest, squeeze false (f a ++ rest) = g a ++ squeeze false rest) l ->
  squeeze false (joined (map f l) ++ rest) = join 44 (map g l) ++ squeeze false rest.
Proof.
  induction 1 as [|a l Ha Hl IH]; [done|]. destruct l as [|b l]; [apply Ha|].
  change (joined (map f (a :: b :: l))) with (f a ++ 44 :: 32 :: joined (map f (b :: l))).
  change (join 44 (map g (a :: b :: l))) with (g a ++ 44 :: join 44 (map g (b :: l))).
  rewrite <- !app_assoc, Ha. cbn [app]. f_equal. cbn [squeeze]. rewrite !decide_False by lia.
  rewrite decide_True by done. f_equal. exact IH.
Qed.
Lemma squeeze_entry n t u rest : forallb plain n = true -> squeeze false (t ++ rest) = u ++ squeeze false rest ->
  squeeze false (entry_text n t ++ rest) = member n u ++ squeeze false rest.
Proof.
  intros Hn Ht. unfold entry_text, member. cbn [app squeeze]. rewrite decide_True by done. rewrite <- !app_assoc. cbn [negb app].
  rewrite squeeze_string by done. do 2 f_equal. cbn [app squeeze]. rewrite !decide_False by lia.
  rewrite decide_True by done. do 2 f_equal. exact Ht.
Qed.
Lemma number_plain s : number s = true -> Forall (fun c => c <> 34 /\ c <> 32) s.
Proof.
  destruct s as [|c s]; [done|]. cbn [number]. unfold is_digit. rewrite andb_true_iff, orb_true_iff, !bool_decide_eq_true. intros [Hc Hs].
  constructor; [lia|]. revert Hs. apply forallb_all. intros d. rewrite orb_true_iff, !bool_decide_eq_true. lia.
Qed.

(** The text with blanks is the compact text, but for the blanks. *)
Lemma squeeze_show v : forall rest, well_formed v = true -> squeeze false (show v ++ rest) = print v ++ squeeze false rest.
Proof.
  induction v as [s|s|b| |ms IH|vs IH] using json_ind; intros rest Hw; cbn [show print well_formed] in *.
  - cbn [app squeeze]. rewrite decide_True by done. rewrite <- app_assoc. cbn [negb app]. rewrite squeeze_string by done.
    by rewrite <- app_assoc.
  - by apply squeeze_plain, number_plain.
  - apply squeeze_plain. destruct b; repeat constructor; done.
  - apply squeeze_plain. repeat constructor; done.
  - cbn [app squeeze]. rewrite !decide_False by lia. rewrite <- !app_assoc. f_equal.
    rewrite (squeeze_joined _ (fun m => member m.1 (print m.2))); [by cbn [app squeeze]; rewrite !decide_False by lia|].
    rewrite forallb_forall in Hw. apply Forall_forall. intros m Hm rest'. rewrite Forall_forall in IH.
    specialize (Hw m (proj1 (list_elem_of_In _ _) Hm)). apply andb_prop in Hw as [Hn Hv]. apply squeeze_entry; [done|]. by apply IH.
  - cbn [app squeeze]. rewrite !decide_False by lia. rewrite <- !app_assoc. f_equal.
    rewrite (squeeze_joined _ print); [by cbn [app squeeze]; rewrite !decide_False by lia|].
    rewrite forallb_forall in Hw. apply Forall_forall. intros v Hv rest'. rewrite Forall_forall in IH.
    apply IH; [done|]. by apply Hw, list_elem_of_In.
Qed.

Lemma joined_snoc l x : l <> [] -> joined (l ++ [x]) = joined l ++ 44 :: 32 :: x.
Proof.
  induction l as [|a l IH]; [done|]. intros _. destruct l as [|b l]; [done|].
  change (joined ((a :: b :: l) ++ [x])) with (a ++ 44 :: 32 :: joined ((b :: l) ++ [x])).
  rewrite IH by done. change (joined (a :: b :: l)) with (a ++ 44 :: 32 :: joined (b :: l)). by rewrite <- app_assoc.
Qed.
Lemma joined_cons a l : joined (a :: l) = a ++ match l with [] => [] | _ => 44 :: 32 :: joined l end.
Proof. destruct l as [|b l]; cbn [joined]; [by rewrite app_nil_r|done]. Qed.
Lemma joined_len pre x rest : zlen (joined pre) <= zlen (joined (pre ++ rest)) /\ zlen x <= zlen (joined (pre ++ x :: rest)).
Proof.
  induction pre as [|a pre [IH1 IH2]].
  - cbn [app]. split; [cbn [joined length]; lia|]. rewrite joined_cons, length_app. lia.
  - cbn [app]. rewrite !joined_cons, !length_app. destruct pre as [|b pre]; cbn [app] in *.
    + rewrite joined_cons. cbn [length]. rewrite length_app. destruct rest; cbn [length] in *; lia.
    + cbn [length] in *. lia.
Qed.

(* ================================================================== *)
(** * Runs of the generators *)

(** Equality of texts that are put together from literals. *)
Ltac literals :=
  repeat match goal with
  | |- context [q ?s] => let v := eval vm_compute in (q s) in change (q s) with v
  | |- context [bytes_of ?s] => let v := eval vm_compute in (bytes_of s) in change (bytes_of s) with v
  end;
  cbn [show map joined app fst snd]; repeat (rewrite <- app_assoc; cbn [app]); done.

Section runs.
Context {W : Type} `{Channel W} {CB F : Type} (print_f : F -> bytes).
Abbreviation DmSt := (@DmSt W CB).
Abbreviation DM := (@DM W CB).
Implicit Types s : DmSt.

Lemma dm_bind {A B} (m : DM A) (f : A -> DM B) s a s1 : m s = Done (a, s1) -> (m ≫= f) s = f a s1.
Proof. intros Hm. unfold mbind, DM_bind. by rewrite Hm. Qed.
Lemma must_ok {A} (r : res A) a s : r = Ok a -> must r s = Done (a, s).
Proof. by intros ->. Qed.
Lemma found_some {A} (r : option A) a s : r = Some a -> found r s = Done (a, s).
Proof. by intros ->. Qed.

(** Nothing changes but the environment. *)
Definition same (s s' : DmSt) : Prop := handle s' = handle s /\ live s' = live s /\ dm_events s' = dm_events s.
Lemma same_refl s : same s s.
Proof. done. Qed.
Lemma same_trans s1 s2 s3 : same s1 s2 -> same s2 s3 -> same s1 s3.
Proof. intros (? & ? & ?) (? & ? & ?). unfold same. split_and!; congruence. Qed.

(** There is memory: every block is granted, with any content. *)
Hypothesis memory : forall n w, 0 <= n -> exists b w', heap_alloc n w = (Some b, w') /\ zlen b = n.

Lemma with_block_run {A} size (failure : A) body s : 0 <= size ->
  exists b s1, zlen b = size /\ handle s1 = handle s /\ live s1 = live s + 1 /\ dm_events s1 = dm_events s /\
    with_block size failure body s =
      match body b s1 with
      | Done (r, s2) => Done (r, mkDmSt (handle s2) (channel s2) (live s2 - 1) (dm_events s2))
      | Undefined => Undefined | Unfinished => Unfinished
      end.
Proof.
  intros Hsize. destruct (memory size (channel s) Hsize) as (b & w' & Hm & Hb). exists b, (mkDmSt (handle s) w' (live s + 1) (dm_events s)).
  split_and!; [done..|]. unfold with_block, HAL_Malloc, lift, mbind, DM_bind. rewrite Hm. done.
Qed.
(** A run in a block. *)
Lemma with_block_same {A} size (failure : A) body s (Q : A -> Prop) : 0 <= size ->
  (forall b s1, zlen b = size -> same (mkDmSt (handle s) (channel s1) (live s + 1) (dm_events s)) s1 ->
    exists r s2, body b s1 = Done (r, s2) /\ same s1 s2 /\ Q r) ->
  exists r s', with_block size failure body s = Done (r, s') /\ same s s' /\ Q r.
Proof.
  intros Hsize Hb. destruct (with_block_run size failure body s Hsize) as (b & s1 & Hl & H1 & H2 & H3 & ->).
  destruct (Hb b s1 Hl) as (r & s2 & -> & (? & ? & ?) & HQ); [done|]. exists r. eexists. split; [done|]. split; [|done].
  unfold same. cbn. split_and!; try congruence. lia.
Qed.

(** ** Printing *)

Definition nonzero (t : bytes) : Prop := Forall (fun c => c <> 0) t.
Lemma nonzero_app a b : nonzero (a ++ b) <-> nonzero a /\ nonzero b.
Proof. apply Forall_app. Qed.

Lemma print_to_run buf size t s : zlen t < size <= zlen buf -> nonzero t ->
  exists buf', print_to buf size t s = Done ((buf', zlen t), s) /\ holds buf' t (zlen buf).
Proof.
  intros Hl Ht. unfold print_to, snprintf_at. rewrite decide_False by lia. rewrite snprintf_fits by lia.
  assert (Hw : write_at buf 0 (t ++ [0]) = Ok (t ++ 0 :: drop (length t + 1) buf)).
  { apply write_at_ok. rewrite length_app. cbn [length]. split_and!; [lia..|]. cbn. by rewrite <- app_assoc. }
  rewrite Hw. cbn [mbind res_bind must]. eexists. split; [done|]. eexists. split_and!; [done| |done].
  rewrite length_app. cbn [length]. rewrite length_drop. lia.
Qed.
Lemma append_to_run buf t total size x s : holds buf t total -> zlen x < size < 4294967296 -> zlen t + zlen x < total -> nonzero x ->
  exists buf', append_to buf size x s = Done ((buf', zlen x), s) /\ holds buf' (t ++ x) total.
Proof.
  intros Hh Hl Ht Hx. destruct (snprintf_at_end buf t total size x) as (buf' & Hs & Hh'); [done|lia..|done|].
  exists buf'. split; [|done]. unfold append_to. rewrite (dm_bind _ _ _ (length t) s) by by rewrite (holds_strlen _ _ _ Hh).
  rewrite u32_small by lia. by rewrite Hs.
Qed.
Lemma str_run buf t total s : holds buf t total -> str buf s = Done (t, s).
Proof.
  intros (junk & -> & _ & Ht). unfold str. replace (cstr (t ++ 0 :: junk)) with (Some t); [done|].
  induction Ht as [|c t Hc _ IH]; cbn; [done|]. rewrite decide_False by done. by rewrite <- IH.
Qed.

(** The program fills a buffer of the size that all payloads have with [t]. *)
Definition writes (m : bytes -> DM (bytes * Z)) (t : bytes) : Prop := forall buf s, zlen buf = DM_MSG_REPORT_BUF_LEN ->
  exists buf' s', m buf s = Done ((buf', SUCCESS_RET), s') /\ same s s' /\ holds buf' t DM_MSG_REPORT_BUF_LEN.

Lemma with_block_writes size failure body t s : 0 <= size ->
  (forall b s1, zlen b = size -> exists buf' s2, body b s1 = Done ((buf', SUCCESS_RET), s2) /\ same s1 s2 /\ holds buf' t DM_MSG_REPORT_BUF_LEN) ->
  exists buf' s', with_block size failure body s = Done ((buf', SUCCESS_RET), s') /\ same s s' /\ holds buf' t DM_MSG_REPORT_BUF_LEN.
Proof using memory.
  intros Hsize Hb. destruct (with_block_same size failure body s (fun r => r.2 = SUCCESS_RET /\ holds r.1 t DM_MSG_REPORT_BUF_LEN) Hsize)
    as ([buf' ret] & s' & Hr & Hs & Hq1 & Hq2); [|exists buf', s'; cbn in Hq1; by subst ret].
  intros b s1 Hl _. destruct (Hb b s1 Hl) as (buf' & s2 & Hr & Hs & Hh). by exists (buf', SUCCESS_RET), s2.
Qed.

Lemma writes_node n vk t : base_text print_f (base_type n) (node_value n) = Ok t ->
  let text := head_text (node_key n) vk ++ t ++ tail_text (node_key n) vk in
  zlen text < DM_MSG_REPORT_BUF_LEN -> nonzero text -> writes (dm_gen_node_payload print_f n vk) text.
Proof.
  intros Ht text Hl Hn buf s Hb. unfold dm_gen_node_payload. rewrite (dm_bind _ _ _ t s) by by apply must_ok. fold text.
  destruct (print_to_run buf DM_MSG_REPORT_BUF_LEN text s) as (buf' & Hp & Hh); [lia|done|].
  rewrite (dm_bind _ _ _ _ _ Hp). rewrite decide_False by lia. exists buf', s. rewrite Hb in Hh. by split_and!.
Qed.

(** A case distinction on a decision in the goal alone. *)
Ltac case_goal := match goal with |- context [@decide ?P ?d] => destruct (@decide P d) end.

Section elements.
Context {A : Type} (gen : A -> bytes -> DM (bytes * Z)) (opening closing : bytes) (items : list A) (ts : list bytes).
Hypothesis gen_writes : Forall2 (fun x t => writes (gen x) t) items ts.
Hypothesis fits : zlen (opening ++ joined ts ++ closing) < DM_MSG_REPORT_BUF_LEN.
Hypothesis opening_ok : nonzero opening.
Hypothesis closing_ok : nonzero closing.

Lemma element_text pre x rest tpre t trest : items = pre ++ x :: rest -> ts = tpre ++ t :: trest -> length pre = length tpre ->
  items !! length pre = Some x /\ writes (gen x) t /\ zlen (joined tpre) <= zlen (joined ts) /\ zlen (joined (tpre ++ [t])) <= zlen (joined ts).
Proof using gen_writes.
  intros Hi Ht Hl. assert (Hx : items !! length pre = Some x) by (rewrite Hi; by apply list_lookup_middle).
  split; [done|]. split.
  - refine (Forall2_lookup_lr (fun x t => writes (gen x) t) items ts (length pre) x t gen_writes Hx _).
    rewrite Hl, Ht. by apply list_lookup_middle.
  - split; [rewrite Ht; apply (joined_len tpre []%list)|]. rewrite Ht. replace (tpre ++ t :: trest) with ((tpre ++ [t]) ++ trest) by by rewrite <- app_assoc.
    apply (joined_len (tpre ++ [t]) []%list).
Qed.

Lemma element_loop_run : forall rest pre tpre trest payload item s,
  items = pre ++ rest -> ts = tpre ++ trest -> length pre = length tpre -> pre <> [] ->
  holds payload (opening ++ joined tpre) DM_MSG_REPORT_BUF_LEN -> zlen item = DM_MSG_REPORT_BUF_LEN ->
  exists payload' item' remain s',
    element_loop gen opening closing items (zlen items) (length rest) (zlen pre) payload item
      (DM_MSG_REPORT_BUF_LEN - zlen (opening ++ joined tpre)) s = Done ((payload', item', remain, SUCCESS_RET), s') /\
    same s s' /\ remain = DM_MSG_REPORT_BUF_LEN - zlen (opening ++ joined ts ++ if decide (rest = []) then [] else closing) /\
    holds payload' (opening ++ joined ts ++ if decide (rest = []) then [] else closing) DM_MSG_REPORT_BUF_LEN /\
    zlen item' = DM_MSG_REPORT_BUF_LEN.
Proof using gen_writes fits opening_ok closing_ok.
  induction rest as [|x rest IH]; intros pre tpre trest payload item s Hi Ht Hl Hne Hh Hitem.
  - assert (trest = []) as ->.
    { apply Forall2_length in gen_writes. rewrite Hi, Ht, !length_app in gen_writes. apply nil_length_inv. cbn in *. lia. }
    rewrite app_nil_r in Ht. subst tpre. cbn [element_loop length]. eexists _, _, _, s. split; [done|]. split; [done|].
    rewrite decide_True by done. rewrite app_nil_r. by split_and!.
  - destruct trest as [|t trest].
    { exfalso. apply Forall2_length in gen_writes. rewrite Hi, Ht, !length_app in gen_writes. cbn in *. lia. }
    destruct (element_text pre x rest tpre t trest Hi Ht Hl) as (Hx & Hw & Hle1 & Hle2).
    assert (tpre <> []) as Htne by (destruct tpre; [destruct pre; done|done]).
    cbn [element_loop length]. rewrite (dm_bind _ _ _ x s) by (apply found_some; by rewrite Nat2Z.id).
    destruct (Hw item s Hitem) as (item' & s1 & Hg & Hs1 & Hh1). rewrite (dm_bind _ _ _ _ _ Hg). rewrite decide_False by auto.
    rewrite (dm_bind _ _ _ _ _ (str_run _ _ _ _ Hh1)). rewrite (decide_False (P := zlen pre = 0)) by (destruct pre; cbn in *; [done|lia]).
    pose proof Hh1 as (_ & _ & Hitem' & Htn). rewrite joined_snoc in Hle2 by done. rewrite !length_app in *. cbn [length] in *.
    set (add := bytes_of ", " ++ t ++ (if decide (zlen pre = zlen items - 1) then closing else [])).
    assert (zlen add <= zlen t + 2 + zlen closing /\ nonzero add) as [Hadd Haddn].
    { unfold add. split.
      - rewrite !length_app. change (length (bytes_of ", ")) with 2%nat. case_goal; cbn [length]; lia.
      - rewrite !nonzero_app. split_and!; [repeat constructor; done|done|case_goal; [done|constructor]]. }
    destruct (append_to_run payload (opening ++ joined tpre) DM_MSG_REPORT_BUF_LEN
      (DM_MSG_REPORT_BUF_LEN - zlen (opening ++ joined tpre)) add s1) as (payload' & Ha & Hh');
      [done|rewrite ?length_app; unfold DM_MSG_REPORT_BUF_LEN in *; lia..|done|]. rewrite length_app in Ha.
    set (left := DM_MSG_REPORT_BUF_LEN - Z.of_nat (length opening + length (joined tpre))) in *.
    match goal with |- context [(?m ≫= ?f) s1] => rewrite (dm_bind m f s1 (payload', left - zlen add) s1) by by rewrite (dm_bind _ _ _ _ _ Ha) end.
    assert (Hi' : items = (pre ++ [x]) ++ rest) by by rewrite <- app_assoc.
    assert (Ht' : ts = (tpre ++ [t]) ++ trest) by by rewrite <- app_assoc.
    rewrite (decide_False (P := x :: rest = [])) by done.
    destruct rest as [|y rest].
    + assert (trest = []) as ->.
      { apply Forall2_length in gen_writes. rewrite Hi, Ht, !length_app in gen_writes. apply nil_length_inv. cbn in *. lia. }
      assert (opening ++ joined ts ++ closing = (opening ++ joined tpre) ++ add) as E.
      { unfold add. rewrite decide_True by (rewrite Hi, length_app; cbn [length]; lia). rewrite Ht, joined_snoc by done.
        change (bytes_of ", ") with [44; 32]. by rewrite <- !app_assoc. }
      cbn [element_loop length]. eexists _, _, _, s1. split; [done|]. split; [done|]. rewrite E.
      split; [|by split]. apply (f_equal length) in E. rewrite !length_app in E. unfold left. lia.
    + assert (add = 44 :: 32 :: t) as E.
      { unfold add. rewrite decide_False; [by rewrite app_nil_r|]. rewrite Hi, length_app. cbn [length]. lia. }
      rewrite E in Hh'.
      assert (Hj : (opening ++ joined tpre) ++ 44 :: 32 :: t = opening ++ joined (tpre ++ [t])) by (rewrite joined_snoc by done; by rewrite <- app_assoc).
      rewrite Hj in Hh'.
      destruct (IH (pre ++ [x]) (tpre ++ [t]) trest payload' item' s1) as (p2 & i2 & r2 & s2 & Hr & Hs2 & Hr2 & Hh2 & Hi2);
        [done|done|rewrite !length_app; cbn [length]; lia|by destruct pre|done|done|].
      exists p2, i2, r2, s2. split; [|split; [by eapply same_trans|by split_and!]].
      rewrite <- Hr. f_equal; [rewrite length_app; cbn [length]; lia|]. rewrite <- Hj, E. unfold left. rewrite !length_app. cbn [length]. lia.
Qed.

(** The whole loop, from the first element on. *)
Lemma element_loop_all payload item s : items <> [] -> closing = [] \/ (1 < length items)%nat ->
  zlen payload = DM_MSG_REPORT_BUF_LEN -> zlen item = DM_MSG_REPORT_BUF_LEN ->
  exists payload' item' remain s',
    element_loop gen opening closing items (zlen items) (length items) 0 payload item 0 s = Done ((payload', item', remain, SUCCESS_RET), s') /\
    same s s' /\ remain = DM_MSG_REPORT_BUF_LEN - zlen (opening ++ joined ts ++ closing) /\
    holds payload' (opening ++ joined ts ++ closing) DM_MSG_REPORT_BUF_LEN /\
    zlen item' = DM_MSG_REPORT_BUF_LEN.
Proof using gen_writes fits opening_ok closing_ok.
  intros Hne Hc Hp Hitem. assert (exists x rest, items = x :: rest) as (x & rest & Hi) by (destruct items; [done|by eexists _, _]).
  assert (exists t trest, ts = t :: trest) as (t & trest & Ht).
  { pose proof (Forall2_length _ _ _ gen_writes) as Hl. rewrite Hi in Hl. destruct ts; [done|by eexists _, _]. }
  destruct (element_text [] x rest [] t trest) as (Hx & Hw & _ & Hle); [done|done|done|].
  assert (length items = S (length rest)) as Hl by by rewrite Hi.
  replace (element_loop gen opening closing items (zlen items) (length items))
    with (element_loop gen opening closing items (zlen items) (S (length rest))) by by rewrite Hl.
  cbn [element_loop]. rewrite (dm_bind _ _ _ x s) by by apply found_some.
  destruct (Hw item s Hitem) as (item' & s1 & Hg & Hs1 & Hh1). rewrite (dm_bind _ _ _ _ _ Hg). rewrite decide_False by auto.
  rewrite (dm_bind _ _ _ _ _ (str_run _ _ _ _ Hh1)). rewrite (decide_True (P := 0 = 0)) by done.
  pose proof Hh1 as (_ & _ & Hitem' & Htn). cbn [app joined] in Hle. pose proof fits as Hfits. rewrite !length_app in Hfits.
  destruct (print_to_run payload DM_MSG_REPORT_BUF_LEN (opening ++ t) s1) as (payload' & Ha & Hh');
    [rewrite length_app; lia|by apply nonzero_app|]. rewrite Hp in Hh'.
  match goal with |- context [(?m ≫= ?f) s1] =>
    rewrite (dm_bind m f s1 (payload', DM_MSG_REPORT_BUF_LEN - zlen (opening ++ t)) s1) by by rewrite (dm_bind _ _ _ _ _ Ha) end.
  destruct (element_loop_run rest [x] [t] trest payload' item' s1) as (p2 & i2 & r2 & s2 & Hr & Hs2 & Hr2 & Hh2 & Hi2); [done..|].
  exists p2, i2, r2, s2. split; [exact Hr|]. split; [by eapply same_trans|].
  destruct (decide (rest = [])) as [->|]; [|done]. destruct Hc as [->|Hc]; [done|]. rewrite Hi in Hc. cbn in Hc. lia.
Qed.

Lemma writes_elements : items <> [] -> writes (gen_elements gen opening closing items (zlen items)) (opening ++ joined ts ++ closing).
Proof using gen_writes fits opening_ok closing_ok memory.
  intros Hne payload s Hp. apply with_block_writes; [done|]. intros item s1 Hitem. case_goal.
  - assert (exists x, items = [x]) as [x Hi] by (destruct items as [|x [|]]; try done; [by exists x|cbn in *; lia]).
    assert (exists t, ts = [t]) as [t Ht].
    { pose proof (Forall2_length _ _ _ gen_writes) as Hl. rewrite Hi in Hl. destruct ts as [|t [|]]; try done. by exists t. }
    destruct (element_text [] x [] [] t []) as (Hx & Hw & _); [done..|]. rewrite (dm_bind _ _ _ x s1) by by apply found_some.
    destruct (Hw item s1 Hitem) as (item' & s2 & Hg & Hs1 & Hh1). rewrite (dm_bind _ _ _ _ _ Hg). rewrite decide_False by auto.
    rewrite (dm_bind _ _ _ _ _ (str_run _ _ _ _ Hh1)). pose proof Hh1 as (_ & _ & _ & Htn). pose proof fits as Hfits. rewrite Ht in Hfits.
    cbn [joined] in Hfits.
    destruct (print_to_run payload DM_MSG_REPORT_BUF_LEN (opening ++ t ++ closing) s2) as (payload' & Ha & Hh');
      [lia|by rewrite !nonzero_app|]. rewrite Hp in Hh'. rewrite (dm_bind _ _ _ _ _ Ha). exists payload', s2. by rewrite Ht.
  - destruct (element_loop_all payload item s1) as (p2 & i2 & r2 & s2 & Hr & Hs2 & Hr2 & Hh2 & Hi2); [done| |done|done|].
    { right. destruct items as [|x [|]]; cbn in *; [done|done|lia]. }
    rewrite Nat2Z.id. rewrite (dm_bind _ _ _ _ _ Hr). rewrite decide_False by auto. rewrite decide_False by lia. by exists p2, s2.
Qed.
End elements.

(* ================================================================== *)
(** * What the properties stand for *)

Definition base_json (type : DM_Base_Type) (v : DM_Base_Value_U F) : option json :=
  match type, v with
  | TYPE_INT, int32_value n | TYPE_BOOL, bool_value n | TYPE_ENUM, enum_value n | TYPE_DATE, date_value n => Some (JNumber (dec (s32 n)))
  | TYPE_FLOAT, float32_value f | TYPE_DOUBLE, float64_value f => Some (JNumber (print_f f))
  | TYPE_STRING, string_value s => Some (JString s)
  | _, _ => None
  end.
Definition wrap (value_key : bool) (j : json) : json := if value_key then JObject [(bytes_of "Value", j)] else j.
Definition entry_of (value_key : bool) (m : bytes * json) : bytes := entry_text m.1 (show (wrap value_key m.2)).

(** Nodes with a key are members of an object, nodes without one are elements
    of an array; the number beside an array is that of its elements. *)
Definition node_member (n : DM_Node_t F) (m : bytes * json) : Prop :=
  node_key n = Some m.1 /\ base_json (base_type n) (node_value n) = Some m.2.
Definition node_element (n : DM_Node_t F) (j : json) : Prop :=
  node_key n = None /\ base_json (base_type n) (node_value n) = Some j.
Definition struct_members (st : DM_Type_Struct_t F) (ms : list (bytes * json)) : Prop :=
  Forall2 node_member (struct_value st) ms /\ struct_num st = zlen (struct_value st) /\ ms <> [].
Definition struct_element (st : DM_Type_Struct_t F) (j : json) : Prop :=
  struct_key st = None /\ exists ms, struct_members st ms /\ j = JObject ms.
Definition prop_member (p : DM_Property_t F) (m : bytes * json) : Prop :=
  match parse_type p, prop_value p with
  | TYPE_NODE, dm_node n => node_member n m
  | TYPE_STRUCT, dm_struct st => struct_key st = Some m.1 /\ exists ms, struct_members st ms /\ m.2 = JObject ms
  | TYPE_ARRAY_BASE, dm_array_base a => array_key a = Some m.1 /\
      exists vs, Forall2 node_element (array_value a) vs /\ array_num a = zlen (array_value a) /\ vs <> [] /\ m.2 = JArray vs
  | TYPE_ARRAY_STRUCT, dm_array_struct a => structs_key a = Some m.1 /\
      exists vs, Forall2 struct_element (structs_value a) vs /\ structs_num a = zlen (structs_value a) /\ vs <> [] /\ m.2 = JArray vs
  | _, _ => False
  end.

Lemma base_json_text type v j : base_json type v = Some j -> base_text print_f type v = Ok (show j).
Proof. destruct type, v; try done; intros [= <-]; done. Qed.
Lemma around_key k vk j : head_text (Some k) vk ++ show j ++ tail_text (Some k) vk = entry_of vk (k, j).
Proof.
  unfold entry_of, entry_text, head_text, tail_text, wrap. destruct vk; cbn [fst snd].
  - cbn [show map joined entry_text]. unfold entry_text. cbn [fst snd app]. rewrite <- !app_assoc. cbn [app]. done.
  - rewrite !app_nil_r. cbn [app]. rewrite <- !app_assoc. done.
Qed.

Lemma plain_nonzero (t : bytes) : forallb plain t = true -> nonzero t.
Proof. apply forallb_all. intros c Hc%plain_spec. lia. Qed.
Lemma joined_nonzero ts : Forall nonzero ts -> nonzero (joined ts).
Proof.
  induction 1 as [|t ts Ht _ IH]; [constructor|]. rewrite joined_cons, nonzero_app. split; [done|]. destruct ts; [constructor|].
  constructor; [done|]. constructor; [done|exact IH].
Qed.
Lemma entry_nonzero n t : nonzero n -> nonzero t -> nonzero (entry_text n t).
Proof. intros Hn Ht. unfold entry_text. constructor; [done|]. apply nonzero_app. split; [done|]. repeat (constructor; [done|]). done. Qed.
Lemma show_nonzero v : well_formed v = true -> nonzero (show v).
Proof.
  induction v as [s|s|b| |ms IH|vs IH] using json_ind; intros Hw; cbn [show well_formed] in *.
  - constructor; [done|]. apply nonzero_app. split; [by apply plain_nonzero|]. by repeat constructor.
  - destruct s as [|c s]; [done|]. cbn [number] in Hw. unfold is_digit in Hw.
    rewrite andb_true_iff, orb_true_iff, !bool_decide_eq_true in Hw. destruct Hw as [Hc Hs].
    constructor; [lia|]. revert Hs. apply forallb_all. intros d. rewrite orb_true_iff, !bool_decide_eq_true. lia.
  - destruct b; by repeat constructor.
  - by repeat constructor.
  - constructor; [done|]. apply nonzero_app. split; [|by repeat constructor]. apply joined_nonzero, Forall_map, Forall_forall.
    rewrite forallb_forall in Hw. intros m Hm. rewrite Forall_forall in IH.
    specialize (Hw m (proj1 (list_elem_of_In _ _) Hm)). apply andb_prop in Hw as [Hn Hv]. apply entry_nonzero; [by apply plain_nonzero|by apply IH].
  - constructor; [done|]. apply nonzero_app. split; [|by repeat constructor]. apply joined_nonzero, Forall_map, Forall_forall.
    rewrite forallb_forall in Hw. intros v Hv. rewrite Forall_forall in IH. apply IH; [done|]. by apply Hw, list_elem_of_In.
Qed.
Lemma joined_fits ts t : t ∈ ts -> zlen t <= zlen (joined ts).
Proof. intros (pre & post & ->)%list_elem_of_split. apply joined_len. Qed.

Definition wf_member (m : bytes * json) : bool := forallb plain m.1 && well_formed m.2.
Lemma entry_of_nonzero vk m : wf_member m = true -> nonzero (entry_of vk m).
Proof.
  intros [Hn Hv]%andb_prop. apply entry_nonzero; [by apply plain_nonzero|]. apply show_nonzero. destruct vk; [|done].
  cbn [wrap well_formed forallb fst snd]. by rewrite Hv.
Qed.

Lemma writes_member n vk m : node_member n m -> wf_member m = true -> zlen (entry_of vk m) < DM_MSG_REPORT_BUF_LEN ->
  writes (dm_gen_node_payload print_f n vk) (entry_of vk m).
Proof.
  intros [Hk Hj] Hw Hl. pose proof (around_key m.1 vk m.2) as E. rewrite <- surjective_pairing, <- Hk in E. rewrite <- E in *.
  apply writes_node; [by apply base_json_text|done|]. rewrite E. by apply entry_of_nonzero.
Qed.
Lemma writes_element n j : node_element n j -> well_formed j = true -> zlen (show j) < DM_MSG_REPORT_BUF_LEN ->
  writes (dm_gen_node_payload print_f n false) (show j).
Proof.
  intros [Hk Hj] Hw Hl. pose proof (writes_node n false (show j) (base_json_text _ _ _ Hj)) as Hn. cbn zeta in Hn.
  rewrite Hk in Hn. cbn [head_text tail_text] in Hn. rewrite app_nil_r in Hn. apply Hn; [done|by apply show_nonzero].
Qed.

(** The elements of a list in front of and behind which something stands. *)
Lemma forall2_writes {A B} (R : A -> B -> Prop) (wf : B -> bool) (g : B -> bytes) (gen : A -> bytes -> DM (bytes * Z)) xs ys bound :
  Forall2 R xs ys -> forallb wf ys = true -> zlen (joined (map g ys)) < bound ->
  (forall x y, R x y -> wf y = true -> zlen (g y) < bound -> writes (gen x) (g y)) ->
  Forall2 (fun x t => writes (gen x) t) xs (map g ys).
Proof.
  intros HR Hw Hl Hg. apply Forall2_fmap_r. apply Forall2_same_length_lookup. split; [by apply Forall2_length in HR|].
  intros i x y Hx Hy. apply Hg.
  - by eapply Forall2_lookup_lr.
  - rewrite forallb_forall in Hw. apply Hw, list_elem_of_In. by eapply list_elem_of_lookup_2.
  - eapply Z.le_lt_trans; [|exact Hl]. apply joined_fits, list_elem_of_fmap. exists y. split; [done|by eapply list_elem_of_lookup_2].
Qed.

Lemma around_nonzero key vk : (forall k, key = Some k -> forallb plain k = true) -> nonzero (head_text key vk) /\ nonzero (tail_text key vk).
Proof.
  intros Hk. destruct key as [k|]; cbn [head_text tail_text]; [|by split; constructor]. split; [|destruct vk; by repeat constructor].
  constructor; [done|]. apply nonzero_app. split; [by apply plain_nonzero, Hk|]. apply nonzero_app. split; [by repeat constructor|].
  destruct vk; [by repeat constructor|constructor].
Qed.

Lemma writes_struct st ms vk : struct_members st ms -> well_formed (JObject ms) = true ->
  (forall k, struct_key st = Some k -> forallb plain k = true) ->
  let text := head_text (struct_key st) vk ++ show (JObject ms) ++ tail_text (struct_key st) vk in
  zlen text < DM_MSG_REPORT_BUF_LEN -> writes (dm_gen_struct_payload print_f st vk) text.
Proof.
  intros (Hms & Hnum & Hne) Hw Hk text Hl. destruct (around_nonzero (struct_key st) vk Hk) as [Hh Ht].
  assert (E : text = (head_text (struct_key st) vk ++ [123]) ++ joined (map (entry_of false) ms) ++ 125 :: tail_text (struct_key st) vk).
  { unfold text. cbn [show]. rewrite <- !app_assoc. cbn [app]. by rewrite <- app_assoc. }
  rewrite E in *. unfold dm_gen_struct_payload. rewrite Hnum. apply writes_elements; [|done| | |].
  - eapply (forall2_writes node_member wf_member); [done|done| |intros; by apply writes_member].
    rewrite !length_app in Hl. lia.
  - apply nonzero_app. split; [done|by repeat constructor].
  - by constructor.
  - intros E0. rewrite E0 in Hms. by apply Forall2_nil_inv_l in Hms.
Qed.
Lemma writes_struct_element st j : struct_element st j -> well_formed j = true -> zlen (show j) < DM_MSG_REPORT_BUF_LEN ->
  writes (dm_gen_struct_payload print_f st false) (show j).
Proof.
  intros (Hk & ms & Hms & ->) Hw Hl. pose proof (writes_struct st ms false Hms Hw) as Hs. rewrite Hk in Hs. cbn [head_text tail_text] in Hs.
  rewrite app_nil_r in Hs. by apply Hs.
Qed.

(** An array with the key [k], of elements of either kind. *)
Lemma writes_array {A} (gen : A -> bytes -> DM (bytes * Z)) (R : A -> json -> Prop) items num k vs vk :
  (forall x j, R x j -> well_formed j = true -> zlen (show j) < DM_MSG_REPORT_BUF_LEN -> writes (gen x) (show j)) ->
  Forall2 R items vs -> num = zlen items -> vs <> [] -> wf_member (k, JArray vs) = true ->
  zlen (entry_of vk (k, JArray vs)) < DM_MSG_REPORT_BUF_LEN ->
  writes (gen_elements (fun x buf => r ← gen x buf; if decide (r.2 = SUCCESS_RET) then found (Some k);; mret r else mret r)
    (head_text (Some k) vk ++ [91]) (93 :: tail_text (Some k) vk) items num) (entry_of vk (k, JArray vs)).
Proof.
  intros Hg HR -> Hne [Hk Hw]%andb_prop Hl. cbn [fst snd] in Hk, Hw.
  destruct (around_nonzero (Some k) vk) as [Hh Ht]; [by intros k' [= <-]|]. rewrite <- around_key in *.
  assert (E : head_text (Some k) vk ++ show (JArray vs) ++ tail_text (Some k) vk =
    (head_text (Some k) vk ++ [91]) ++ joined (map show vs) ++ 93 :: tail_text (Some k) vk).
  { cbn [show]. rewrite <- !app_assoc. cbn [app]. by rewrite <- app_assoc. }
  rewrite E in *. apply writes_elements; [|done| | |].
  - eapply (forall2_writes R well_formed); [done|done| |].
    { instantiate (1 := DM_MSG_REPORT_BUF_LEN). rewrite !length_app in Hl. lia. }
    intros x j Hx Hj Hf buf s Hb. destruct (Hg x j Hx Hj Hf buf s Hb) as (buf' & s' & Hr & Hs & Hh'). exists buf', s'.
    rewrite (dm_bind _ _ _ _ _ Hr). cbn [snd]. by rewrite decide_True.
  - apply nonzero_app. split; [done|by repeat constructor].
  - by constructor.
  - intros E0. rewrite E0 in HR. by apply Forall2_nil_inv_l in HR.
Qed.

Lemma writes_property p vk m : prop_member p m -> wf_member m = true -> zlen (entry_of vk m) < DM_MSG_REPORT_BUF_LEN ->
  writes (dm_gen_property_post_payload print_f p vk) (entry_of vk m).
Proof.
  destruct m as [k j]. unfold prop_member, dm_gen_property_post_payload. destruct (parse_type p), (prop_value p) as [n|st|a|a]; try done;
    cbn [fst snd].
  - intros Hn. by apply writes_member.
  - intros (Hk & ms & Hms & ->) Hw Hl. pose proof (writes_struct st ms vk Hms) as Hs. rewrite Hk in Hs. rewrite <- around_key in *.
    apply andb_prop in Hw as [Hw1 Hw2]. apply Hs; [done|by intros ? [= <-]|done].
  - intros (Hk & vs & Hvs & Hnum & Hne & ->) Hw Hl. unfold dm_gen_array_base_payload. rewrite Hk.
    by apply (writes_array (fun n => dm_gen_node_payload print_f n false) node_element); [intros; by apply writes_element|..].
  - intros (Hk & vs & Hvs & Hnum & Hne & ->) Hw Hl. unfold dm_gen_array_struct_payload. rewrite Hk.
    by apply (writes_array (fun st => dm_gen_struct_payload print_f st false) struct_element); [intros; by apply writes_struct_element|..].
Qed.

(** ** Lists of properties *)

Definition prop_keyed (p : DM_Property_t F) (k : bytes) : Prop :=
  match parse_type p, prop_value p with
  | TYPE_NODE, dm_node n => node_key n = Some k
  | TYPE_STRUCT, dm_struct st => struct_key st = Some k
  | TYPE_ARRAY_BASE, dm_array_base a => array_key a = Some k
  | TYPE_ARRAY_STRUCT, dm_array_struct a => structs_key a = Some k
  | _, _ => False
  end.
Lemma property_key_run p k s : prop_keyed p k -> property_key p s = Done (k, s).
Proof. unfold prop_keyed, property_key. by destruct (parse_type p), (prop_value p); try done; intros ->. Qed.

(** What a list of properties contributes to a request: members with values,
    names, or members with versions. *)
Inductive contents (vk : bool) : DM_Type -> list (DM_Property_t F) -> list bytes -> json -> Prop :=
  | contents_post ps ms : Forall2 prop_member ps ms ->
      contents vk PROPERTY_POST ps (entry_of vk <$> ms) (JObject ((fun m => (m.1, wrap vk m.2)) <$> ms))
  | contents_get ps ks : Forall2 prop_keyed ps ks ->
      contents vk PROPERTY_DESIRED_GET ps ((fun k => show (JString k)) <$> ks) (JArray (JString <$> ks))
  | contents_delete ps ms :
      Forall2 (fun p m => prop_keyed p m.1 /\ m.2 = JObject [(bytes_of "version", JNumber (dec (s32 (desired_ver p))))]) ps ms ->
      contents vk PROPERTY_DESIRED_DELETE ps (entry_of false <$> ms) (JObject ms).

Lemma print_writes buf t s : zlen t < DM_MSG_REPORT_BUF_LEN -> nonzero t -> zlen buf = DM_MSG_REPORT_BUF_LEN ->
  exists buf', print_to buf DM_MSG_REPORT_BUF_LEN t s = Done ((buf', zlen t), s) /\ holds buf' t DM_MSG_REPORT_BUF_LEN.
Proof. intros Hl Ht Hb. destruct (print_to_run buf DM_MSG_REPORT_BUF_LEN t s) as (b & Hr & Hh); [lia|done|]. rewrite Hb in Hh. by exists b. Qed.
Lemma writes_desired p k : prop_keyed p k -> forallb plain k = true -> zlen (show (JString k)) < DM_MSG_REPORT_BUF_LEN ->
  writes (dm_gen_property_desired_payload p) (show (JString k)).
Proof.
  intros Hk Hp Hl buf s Hb. unfold dm_gen_property_desired_payload. rewrite (dm_bind _ _ _ _ _ (property_key_run _ _ _ Hk)).
  destruct (print_writes buf (show (JString k)) s) as (b & Hr & Hh); [done|by apply show_nonzero|done|].
  rewrite (dm_bind _ _ _ _ _ Hr). by exists b, s.
Qed.
Lemma writes_delete p k : prop_keyed p k -> forallb plain k = true ->
  let m := (k, JObject [(bytes_of "version", JNumber (dec (s32 (desired_ver p))))]) in
  nonzero (entry_of false m) -> zlen (entry_of false m) < DM_MSG_REPORT_BUF_LEN ->
  writes (dm_gen_property_delete_payload p) (entry_of false m).
Proof.
  intros Hk Hp m Hn Hl buf s Hb. unfold dm_gen_property_delete_payload. rewrite (dm_bind _ _ _ _ _ (property_key_run _ _ _ Hk)).
  assert (E : 34 :: k ++ q "`: {`version`: " ++ dec (s32 (desired_ver p)) ++ [125] = entry_of false m).
  { unfold entry_of, entry_text, m. cbn [wrap fst snd show map joined app]. unfold entry_text. cbn [app]. done. }
  rewrite E. destruct (print_writes buf (entry_of false m) s) as (b & Hr & Hh); [done..|].
  rewrite (dm_bind _ _ _ _ _ Hr). by exists b, s.
Qed.

Lemma writes_properties vk type ps ts j : contents vk type ps ts j -> ps <> [] -> well_formed j = true ->
  zlen (joined ts) < DM_MSG_REPORT_BUF_LEN ->
  writes (dm_gen_properties_payload print_f (Some ps) (zlen ps) type vk) (joined ts).
Proof.
  intros Hc Hne Hw Hl.
  assert (Hg : Forall2 (fun p t => writes (gen_property print_f type vk p) t) ps ts).
  { destruct Hc as [ps ms HR|ps ks HR|ps ms HR].
    - apply (forall2_writes prop_member wf_member (entry_of vk) _ _ _ DM_MSG_REPORT_BUF_LEN); [done| |done|intros; by apply writes_property].
      cbn [well_formed] in Hw. rewrite forallb_forall in Hw |- *. intros m Hm.
      specialize (Hw (m.1, wrap vk m.2)). cbn [fst snd] in Hw. unfold wf_member.
      assert (Hin : forallb plain m.1 && well_formed (wrap vk m.2) = true) by (apply Hw, list_elem_of_In, list_elem_of_fmap; exists m; by rewrite list_elem_of_In).
      destruct vk; [|done]. cbn [wrap well_formed forallb fst snd] in Hin. by rewrite andb_true_r in Hin.
    - apply (forall2_writes prop_keyed (forallb plain) (fun k => show (JString k)) _ _ _ DM_MSG_REPORT_BUF_LEN); [done| |done|intros; by apply writes_desired].
      cbn [well_formed] in Hw. rewrite forallb_forall in Hw |- *. intros k Hk.
      apply (Hw (JString k)), list_elem_of_In, list_elem_of_fmap. exists k. by rewrite list_elem_of_In.
    - apply (forall2_writes _ wf_member (entry_of false) _ _ _ DM_MSG_REPORT_BUF_LEN HR); [exact Hw|done|].
      intros p [k v] [Hk Hv] Hwm Hf. cbn [fst snd] in *. subst v. pose proof Hwm as [Hp _]%andb_prop. apply writes_delete; [done|done| |done].
      by apply entry_of_nonzero. }
  intros buf s Hb. cbn [dm_gen_properties_payload]. apply with_block_writes; [done|]. intros item s1 Hitem.
  destruct (element_loop_all (gen_property print_f type vk) [] [] ps ts Hg) with (payload := buf) (item := item) (s := s1)
    as (p2 & i2 & r2 & s2 & Hr & Hs2 & Hr2 & Hh2 & Hi2); [by rewrite app_nil_r|constructor|constructor|done|by left|done|done|].
  rewrite Nat2Z.id. rewrite (dm_bind _ _ _ _ _ Hr). rewrite decide_False by auto.
  rewrite decide_False by (pose proof (holds_len _ _ _ Hh2); lia). rewrite app_nil_r in Hh2.
  by exists p2, s2.
Qed.

(* ================================================================== *)
(** * Requests *)

Definition request_id_member (id : Z) : bytes * json := (bytes_of "RequestID", JString (dec (s32 id))).
(** The name under which a request carries its contents. *)
Definition contents_name (type : DM_Type) : bytes := bytes_of
  match type with PROPERTY_POST => "Property" | PROPERTY_DESIRED_GET => "Require" | _ => "Delete" end.
Definition report_doc (type : DM_Type) (id : Z) (j : json) : json := JObject [request_id_member id; (contents_name type, j)].
Definition event_doc (id : Z) (identifier : bytes) (j : json) : json :=
  JObject [request_id_member id; (bytes_of "Identifier", JString identifier); (bytes_of "Output", j)].

(** The text of the contents between the brackets of their array or object. *)
Lemma contents_text vk type ps ts j : contents vk type ps ts j ->
  show j = match type with PROPERTY_DESIRED_GET => 91 :: joined ts ++ [93] | _ => 123 :: joined ts ++ [125] end.
Proof.
  destruct 1 as [ps ms HR|ps ks HR|ps ms HR]; cbn [show]; do 2 f_equal; f_equal; change (@map) with (fun A B (f : A -> B) (l : list A) => f <$> l);
    cbn beta; by rewrite <- ?list_fmap_compose.
Qed.

(** The MQTT client takes the message of QoS 1. *)
Definition published (topic text : bytes) (s : DmSt) (ret : Z) (s' : DmSt) : Prop := exists w r w',
  dm_mqtt_publish topic QOS1 text w = (r, w') /\ ret = (if decide (r < 0) then FAILURE_RET else r) /\
  handle s' = handle s /\ live s' = live s /\ channel s' = w' /\
  dm_events s' = (if decide (r < 0) then [] else [Sent topic QOS1 text]) ++ dm_events s.

Lemma publish_run topic msg t x size size' s : holds topic t size -> holds msg x size' ->
  exists ret s', _dm_mqtt_publish topic 1 msg s = Done (ret, s') /\ published t x s ret s'.
Proof.
  intros Ht Hx. unfold _dm_mqtt_publish. rewrite (dm_bind _ _ _ _ _ (str_run _ _ _ _ Ht)), (dm_bind _ _ _ _ _ (str_run _ _ _ _ Hx)).
  rewrite decide_False by done. unfold published. unfold mbind at 1, DM_bind at 1, lift.
  destruct (dm_mqtt_publish t QOS1 x (channel s)) as [r w'] eqn:Hp. case_goal.
  - eexists _, _. split; [done|]. exists (channel s), r, w'. by rewrite !decide_True by done.
  - eexists _, _. split; [done|]. exists (channel s), r, w'. by rewrite !decide_False by done.
Qed.
Lemma published_same t x s s1 ret s' : same s s1 -> published t x s1 ret s' -> published t x s ret s'.
Proof. intros (H1 & H2 & H3) (w & r & w' & ? & ? & ? & ? & ? & He). exists w, r, w'. split_and!; try congruence. Qed.
Lemma with_block_published t x size failure body s : 0 <= size ->
  (forall b s1, zlen b = size -> handle s1 = handle s -> exists ret s2, body b s1 = Done (ret, s2) /\ published t x s1 ret s2) ->
  exists ret s', with_block size failure body s = Done (ret, s') /\ published t x s ret s'.
Proof using memory.
  intros Hsize Hb. destruct (with_block_run size failure body s Hsize) as (b & s1 & Hl & H1 & H2 & H3 & ->).
  destruct (Hb b s1 Hl H1) as (ret & s2 & -> & w & r & w' & ? & ? & ? & ? & ? & ?). eexists ret, _. split; [done|].
  exists w, r, w'. cbn. split_and!; try congruence. lia.
Qed.

Definition topic_of (s : DmSt) (type : DM_Type) (name : bytes) : Prop := exists template,
  upstream_topic_templates (handle s) type = Some template /\
  format_s template [dm_product_sn (handle s); dm_device_sn (handle s)] = Ok name /\ zlen name < DM_TOPIC_BUF_LEN /\ nonzero name.
Lemma gen_topic_run buf s type name : topic_of s type name -> zlen buf = DM_TOPIC_BUF_LEN ->
  exists buf', _dm_mqtt_gen_topic_name buf DM_TOPIC_BUF_LEN (upstream_topic_templates (handle s) type) s = Done ((buf', SUCCESS_RET), s) /\
    holds buf' name DM_TOPIC_BUF_LEN.
Proof.
  intros (tpl & Ht & Hf & Hl & Hn) Hb. destruct (print_to_run buf DM_TOPIC_BUF_LEN name s) as (b & Hr & Hh); [lia|done|]. rewrite Hb in Hh.
  exists b. split; [|done]. unfold _dm_mqtt_gen_topic_name, gets. unfold mbind at 1, DM_bind at 1. rewrite Ht.
  rewrite (dm_bind _ _ _ tpl s) by done. rewrite (dm_bind _ _ _ name s) by by apply must_ok. rewrite (dm_bind _ _ _ _ _ Hr).
  rewrite decide_False by lia. done.
Qed.

Lemma report_text vk type ps ts j id : contents vk type ps ts j ->
  show (report_doc type id j) = q "{`RequestID`: `" ++ dec (s32 id) ++
    match type with
    | PROPERTY_POST => q "`, `Property`: {" ++ joined ts ++ q "}}"
    | PROPERTY_DESIRED_GET => q "`, `Require`: [" ++ joined ts ++ q "]}"
    | _ => q "`, `Delete`: {" ++ joined ts ++ q "}}"
    end.
Proof.
  intros Hc. unfold report_doc, request_id_member. cbn [show map joined fst snd]. rewrite (contents_text _ _ _ _ _ Hc).
  destruct Hc; unfold entry_text, contents_name; literals.
Qed.

Lemma report_publish_run vk type ps ts j id p s name : contents vk type ps ts j -> topic_of s type name ->
  well_formed (report_doc type id j) = true -> zlen (show (report_doc type id j)) < DM_MSG_REPORT_BUF_LEN ->
  holds p (joined ts) DM_MSG_REPORT_BUF_LEN ->
  exists ret s', dm_mqtt_property_report_publish type id (Some p) s = Done (ret, s') /\
    published name (show (report_doc type id j)) s ret s'.
Proof using memory.
  intros Hc Htop Hw Hl Hp. apply with_block_published; [done|]. intros msg s1 Hmsg H1. apply with_block_published; [done|]. intros topic s2 Htopic H2.
  unfold mbind at 1, DM_bind at 1. cbn [gets].
  destruct (gen_topic_run topic s2 type name) as (topic' & Hr & Hh); [unfold topic_of; by rewrite H2, H1|done|].
  rewrite (dm_bind _ _ _ _ _ Hr). rewrite decide_False by auto.
  destruct (print_writes msg (show (report_doc type id j)) s2) as (msg' & Hpr & Hhm); [done|by apply show_nonzero|done|].
  assert (Hgen : _dm_mqtt_gen_property_payload msg DM_MSG_REPORT_BUF_LEN type id (Some p) s2 = Done ((msg', SUCCESS_RET), s2)).
  { pose proof (report_text _ _ _ _ _ id Hc) as E. unfold _dm_mqtt_gen_property_payload. clear Hw.
    revert E Hpr Hl. generalize (show (report_doc type id j)). intros doc E Hpr Hl.
    destruct Hc; cbn [found]; (rewrite (dm_bind _ _ _ (Some doc) s2);
      [rewrite (dm_bind _ _ _ _ _ Hpr); by rewrite decide_False by lia|]);
      unfold mbind at 1, DM_bind at 1, mret at 1, DM_ret at 1; rewrite (dm_bind _ _ _ _ _ (str_run _ _ _ _ Hp)); by rewrite E. }
  rewrite (dm_bind _ _ _ _ _ Hgen). rewrite decide_False by done.
  by eapply publish_run.
Qed.

Lemma with_properties_run (ps : list (DM_Property_t F)) body t x s :
  (forall s1, handle s1 = handle s -> exists ret s2, body (Some ps) s1 = Done (ret, s2) /\ published t x s1 ret s2) ->
  exists ret s', with_properties ps body s = Done (ret, s') /\ published t x s ret s'.
Proof using memory.
  intros Hb. unfold with_properties. destruct (memory (u32 (zlen ps * sizeof_property)) (channel s)) as (b & w' & Hm & _); [by apply Z.mod_pos_bound|].
  unfold HAL_Malloc, lift, mbind, DM_bind. rewrite Hm. cbn [count mret DM_ret].
  match goal with |- context [body (Some ps) ?s1] => destruct (Hb s1) as (ret & s2 & Hr & w & r & w2 & ? & ? & ? & ? & ? & ?); [done|] end.
  unfold mret, DM_ret. rewrite Hr. eexists ret, _. split; [done|]. exists w, r, w2. cbn in *. split_and!; try congruence. lia.
Qed.

Lemma report_ex_run type ps ts j id s name : contents true type ps ts j -> ps <> [] -> topic_of s type name ->
  well_formed (report_doc type id j) = true -> zlen (show (report_doc type id j)) < DM_MSG_REPORT_BUF_LEN ->
  exists ret s', IOT_DM_Property_ReportEx print_f type id ps s = Done (ret, s') /\ published name (show (report_doc type id j)) s ret s'.
Proof using memory.
  intros Hc Hne Htop Hw Hl. apply with_properties_run. intros s1 H1. apply with_block_published; [done|]. intros p s2 Hp H2.
  assert (Hwj : well_formed j = true).
  { cbn [report_doc well_formed forallb] in Hw. repeat (apply andb_prop in Hw as [? Hw]). cbn [snd] in *.
    repeat match goal with Hx : _ && _ = true |- _ => apply andb_prop in Hx as [? ?] end. done. }
  assert (Hts : zlen (joined ts) < DM_MSG_REPORT_BUF_LEN).
  { rewrite (report_text _ _ _ _ _ id Hc) in Hl. destruct Hc; rewrite !length_app in Hl; lia. }
  destruct (writes_properties _ _ _ _ _ Hc Hne Hwj Hts p s2 Hp) as (p' & s3 & Hr & Hs3 & Hh).
  rewrite (dm_bind _ _ _ _ _ Hr). rewrite decide_False by done.
  destruct (report_publish_run true type ps ts j id p' s3 name) as (ret & s' & Hr' & Hpub); try done.
  { destruct Hs3 as (E & _). unfold topic_of. by rewrite E, H2, H1. }
  exists ret, s'. split; [exact Hr'|]. by eapply published_same.
Qed.

Lemma event_text ps ts j id name : contents false PROPERTY_POST ps ts j ->
  show (event_doc id name j) =
    q "{`RequestID`: `" ++ dec (s32 id) ++ q "`, `Identifier`: `" ++ name ++ q "`, `Output`: {" ++ joined ts ++ q "}}".
Proof.
  intros Hc. unfold event_doc, request_id_member. cbn [show map joined fst snd]. rewrite (contents_text _ _ _ _ _ Hc).
  unfold entry_text. literals.
Qed.

Lemma event_ex_run ev ps ts j id s name : dm_property ev = Some ps -> property_num ev = zlen ps ->
  contents false PROPERTY_POST ps ts j -> ps <> [] -> topic_of s EVENT_POST name ->
  well_formed (event_doc id (event_identy ev) j) = true -> zlen (show (event_doc id (event_identy ev) j)) < DM_MSG_REPORT_BUF_LEN ->
  exists ret s', IOT_DM_TriggerEventEx print_f id ev s = Done (ret, s') /\ published name (show (event_doc id (event_identy ev) j)) s ret s'.
Proof using memory.
  intros Hps Hnum Hc Hne Htop Hw Hl. unfold IOT_DM_TriggerEventEx, dm_mqtt_event_publish_Ex. rewrite Hps, Hnum.
  apply with_block_published; [done|]. intros p s2 Hp H2.
  assert (Hwj : well_formed j = true).
  { cbn [event_doc well_formed forallb] in Hw. repeat (apply andb_prop in Hw as [? Hw]). cbn [snd] in *.
    repeat match goal with Hx : _ && _ = true |- _ => apply andb_prop in Hx as [? ?] end. done. }
  pose proof (event_text _ _ _ id (event_identy ev) Hc) as E.
  assert (Hts : zlen (joined ts) < DM_MSG_REPORT_BUF_LEN) by (rewrite E in Hl; rewrite !length_app in Hl; lia).
  destruct (writes_properties _ _ _ _ _ Hc Hne Hwj Hts p s2 Hp) as (p' & s3 & Hr & Hs3 & Hh).
  rewrite (dm_bind _ _ _ _ _ Hr). rewrite decide_False by done.
  set (doc := show (event_doc id (event_identy ev) j)) in *.
  assert (Hpub : exists ret s', dm_mqtt_event_publish id (event_identy ev) (Some p') s3 = Done (ret, s') /\ published name doc s3 ret s').
  { apply with_block_published; [done|]. intros msg s4 Hmsg H4. apply with_block_published; [done|]. intros topic s5 Htopic H5.
    unfold mbind at 1, DM_bind at 1. cbn [gets].
    destruct (gen_topic_run topic s5 EVENT_POST name) as (topic' & Ht & Hht); [|done|].
    { destruct Hs3 as (E3 & _). unfold topic_of. by rewrite H5, H4, E3, H2. }
    rewrite (dm_bind _ _ _ _ _ Ht). rewrite decide_False by auto.
    destruct (print_writes msg doc s5) as (msg' & Hpr & Hhm); [done|by apply show_nonzero|done|].
    assert (Hgen : _dm_mqtt_gen_event_payload msg DM_EVENT_POST_BUF_LEN id (event_identy ev) (Some p') s5 = Done ((msg', SUCCESS_RET), s5)).
    { unfold _dm_mqtt_gen_event_payload. rewrite (dm_bind _ _ _ p' s5) by done. rewrite (dm_bind _ _ _ _ _ (str_run _ _ _ _ Hh)).
      rewrite <- E. rewrite (dm_bind _ _ _ _ _ Hpr). rewrite decide_False by (unfold DM_EVENT_POST_BUF_LEN, DM_MSG_REPORT_BUF_LEN in *; lia). done. }
    rewrite (dm_bind _ _ _ _ _ Hgen). rewrite decide_False by done. by eapply publish_run. }
  destruct Hpub as (ret & s' & Hr' & Hpub). exists ret, s'. split; [exact Hr'|]. by eapply published_same.
Qed.

Lemma restore_run id payload s name : topic_of s PROPERTY_RESTORE name ->
  exists ret s', IOT_DM_Property_Report PROPERTY_RESTORE id payload s = Done (ret, s') /\
    published name (show (JObject [request_id_member id])) s ret s'.
Proof using memory.
  intros Htop. apply with_block_published; [done|]. intros msg s1 Hmsg H1. apply with_block_published; [done|]. intros topic s2 Htopic H2.
  unfold mbind at 1, DM_bind at 1. cbn [gets].
  destruct (gen_topic_run topic s2 PROPERTY_RESTORE name) as (topic' & Hr & Hh); [unfold topic_of; by rewrite H2, H1|done|].
  rewrite (dm_bind _ _ _ _ _ Hr). rewrite decide_False by auto.
  pose proof (s32_range id) as Hid. pose proof (dec_len (s32 id)) as Hdec. set (doc := show (JObject [request_id_member id])).
  assert (E : doc = q "{`RequestID`: `" ++ dec (s32 id) ++ q "`}") by (unfold doc, request_id_member; cbn [show map joined fst snd]; unfold entry_text; literals).
  assert (Hlen : zlen doc < DM_MSG_REPORT_BUF_LEN).
  { rewrite E, !length_app. change (length (q "{`RequestID`: `")) with 15%nat. change (length (q "`}")) with 2%nat.
    unfold DM_MSG_REPORT_BUF_LEN. lia. }
  destruct (print_writes msg doc s2) as (msg' & Hpr & Hhm); [done| |done|].
  { rewrite E. rewrite !nonzero_app. split_and!; [by repeat constructor|apply (show_nonzero (JNumber _)), number_dec; lia|by repeat constructor]. }
  assert (Hgen : _dm_mqtt_gen_property_payload msg DM_MSG_REPORT_BUF_LEN PROPERTY_RESTORE id payload s2 = Done ((msg', SUCCESS_RET), s2)).
  { unfold _dm_mqtt_gen_property_payload. rewrite (dm_bind _ _ _ (Some doc) s2) by by rewrite E.
    rewrite (dm_bind _ _ _ _ _ Hpr). by rewrite decide_False by lia. }
  rewrite (dm_bind _ _ _ _ _ Hgen). rewrite decide_False by done. by eapply publish_run.
Qed.
End runs.

(* ================================================================== *)
(** * A channel, and the claims *)

(** The topics of a device: those of its requests but for the command's, which
    names the request, and those of what it is sent. *)
Definition topic_tail (type : DM_Type) : bytes := bytes_of
  match type with
  | PROPERTY_RESTORE => "/tmodel/property/restore"
  | PROPERTY_POST => "/tmodel/property/post"
  | PROPERTY_SET => "/tmodel/property/set_reply"
  | PROPERTY_DESIRED_GET => "/tmodel/property/desired/get"
  | PROPERTY_DESIRED_DELETE => "/tmodel/property/desired/delete"
  | EVENT_POST => "/tmodel/event/post"
  | COMMAND => "/tmodel/command_reply/"
  end.
Definition reply_tail (type : DM_Type) : bytes := bytes_of
  match type with
  | PROPERTY_SET => "/tmodel/property/set"
  | COMMAND => "/tmodel/command"
  | PROPERTY_RESTORE => "/tmodel/property/restore_reply"
  | PROPERTY_POST => "/tmodel/property/post_reply"
  | PROPERTY_DESIRED_GET => "/tmodel/property/desired/get_reply"
  | PROPERTY_DESIRED_DELETE => "/tmodel/property/desired/delete_reply"
  | EVENT_POST => "/tmodel/event/post_reply"
  end.
Definition device_topic (psn dsn tail : bytes) : bytes := bytes_of "/$system/" ++ psn ++ 47 :: dsn ++ tail.

Lemma upstream_name type psn dsn : type <> COMMAND ->
  format_s (upstream_topic_template type) [psn; dsn] = Ok (device_topic psn dsn (topic_tail type)).
Proof. destruct type; [reflexivity..|done]. Qed.
Lemma command_name psn dsn id : format_s (upstream_topic_template COMMAND) [psn; dsn; id] = Ok (device_topic psn dsn (topic_tail COMMAND ++ id)).
Proof.
  transitivity (Ok (device_topic psn dsn (topic_tail COMMAND ++ id ++ []))); [reflexivity|by rewrite app_nil_r].
Qed.
Lemma downstream_name type psn dsn : format_s (downstream_topic_template type) [psn; dsn] = Ok (device_topic psn dsn (reply_tail type)).
Proof. destruct type; reflexivity. Qed.
Lemma device_topic_len psn dsn tail : zlen (device_topic psn dsn tail) = 10 + zlen psn + zlen dsn + zlen tail.
Proof. unfold device_topic. rewrite !length_app. cbn [length]. rewrite length_app. change (length (bytes_of "/$system/")) with 9%nat. lia. Qed.
Lemma device_topic_nonzero psn dsn tail : nonzero psn -> nonzero dsn -> nonzero tail -> nonzero (device_topic psn dsn tail).
Proof. intros. unfold device_topic. rewrite !nonzero_app. split_and!; [by repeat constructor|done|]. constructor; [done|]. by apply nonzero_app. Qed.
Lemma tails_ok type : zlen (topic_tail type) <= 40 /\ zlen (reply_tail type) <= 40 /\ nonzero (topic_tail type) /\ nonzero (reply_tail type).
Proof. destruct type; split_and!; try (by repeat constructor); vm_compute; done. Qed.

(** A channel that has memory for everything and delivers a list of texts. *)
Record DmWorld := mkDw { dw_mail : list (DM_Type * bytes) }.
#[export] Instance dw_channel : Channel DmWorld := {
  heap_alloc n w := (Some (replicate (Z.to_nat n) 85), w);
  json_alloc w := (true, w);
  dm_mqtt_publish topic qos text w := (1, w);
  dm_mqtt_subscribe topic qos type w := (1, w);
  dm_next_message timeout w :=
    match dw_mail w with
    | [] => (inr 0, w)
    | (type, text) :: mail => (inl (type, mkDmMsg (text ++ [0]) (zlen text)), mkDw mail)
    end
}.
Lemma dw_memory n (w : DmWorld) : 0 <= n -> exists b w', heap_alloc n w = (Some b, w') /\ zlen b = n.
Proof. intros Hn. eexists _, _. split; [done|]. rewrite length_replicate. lia. Qed.
Lemma squeeze_whole v : well_formed v = true -> squeeze false (show v) = print v.
Proof. intros Hw. pose proof (squeeze_show v [] Hw) as E. by rewrite !app_nil_r in E. Qed.

(** The names of a device that leave room for every topic. *)
Definition names_fit {W CB} (s : @DmSt W CB) : Prop :=
  nonzero (dm_product_sn (handle s)) /\ nonzero (dm_device_sn (handle s)) /\
  zlen (dm_product_sn (handle s)) + zlen (dm_device_sn (handle s)) + 50 < DM_TOPIC_BUF_LEN.

Lemma register_run {W} `{Channel W} {CB} type (cb : CB) (s : @DmSt W CB) : names_fit s ->
  exists r w' s', dm_mqtt_subscribe (device_topic (dm_product_sn (handle s)) (dm_device_sn (handle s)) (reply_tail type)) QOS1 type (channel s) = (r, w') /\
    uiot_register_for type (Some cb) s = Done (0, s') /\ channel s' = w' /\ live s' = live s /\ dm_events s' = dm_events s /\
    names_fit s' /\ callbacks (handle s') type = Some cb /\
    upstream_topic_templates (handle s') type = Some (upstream_topic_template type) /\
    (forall t, t <> type -> callbacks (handle s') t = callbacks (handle s) t /\
      upstream_topic_templates (handle s') t = upstream_topic_templates (handle s) t) /\
    (type <> COMMAND -> topic_of s' type (device_topic (dm_product_sn (handle s)) (dm_device_sn (handle s)) (topic_tail type))).
Proof.
  intros Hfit. pose proof Hfit as (Hp & Hd & Hl). destruct (tails_ok type) as (Ht1 & Ht2 & Hn1 & Hn2).
  set (name := device_topic _ _ _). assert (zlen name < DM_TOPIC_BUF_LEN) as Hname by (unfold name; rewrite device_topic_len; lia).
  assert (nonzero name) as Hnn by by apply device_topic_nonzero.
  destruct (dm_mqtt_subscribe name QOS1 type (channel s)) as [r w'] eqn:Hs. exists r, w'.
  set (h' := mkDMMqtt (dm_product_sn (handle s)) (dm_device_sn (handle s)) (set_at type cb (callbacks (handle s)))
    (set_at type (upstream_topic_template type) (upstream_topic_templates (handle s)))
    (set_at type (downstream_topic_template type) (downstream_topic_templates (handle s)))).
  exists (mkDmSt h' w' (live s) (dm_events s)). split; [done|]. split.
  { unfold uiot_register_for, _dsc_mqtt_register_callback. unfold mbind at 1, DM_bind at 1.
    rewrite (dm_bind _ _ _ (handle s) s) by done. rewrite (dm_bind _ _ _ tt (mkDmSt h' (channel s) (live s) (dm_events s))) by done.
    set (s1 := mkDmSt h' (channel s) (live s) (dm_events s)).
    destruct (print_to_run (replicate (Z.to_nat DM_TOPIC_BUF_LEN) 0) DM_TOPIC_BUF_LEN name s1) as (buf & Hpr & Hh);
      [rewrite length_replicate; unfold DM_TOPIC_BUF_LEN in *; lia|done|].
    assert (_dm_mqtt_gen_topic_name (replicate (Z.to_nat DM_TOPIC_BUF_LEN) 0) DM_TOPIC_BUF_LEN (Some (downstream_topic_template type)) s1 =
      Done ((buf, SUCCESS_RET), s1)) as Hg.
    { unfold _dm_mqtt_gen_topic_name. rewrite (dm_bind _ _ _ h' s1) by done. rewrite (dm_bind _ _ _ (downstream_topic_template type) s1) by done.
      rewrite (dm_bind _ _ _ name s1) by by apply must_ok, downstream_name. rewrite (dm_bind _ _ _ _ _ Hpr).
      rewrite decide_False by lia. done. }
    rewrite (dm_bind _ _ _ _ _ Hg). rewrite decide_False by done. rewrite (dm_bind _ _ _ _ _ (str_run _ _ _ _ Hh)).
    rewrite (dm_bind _ _ _ r (mkDmSt h' w' (live s) (dm_events s))) by (unfold lift; cbn [channel s1]; by rewrite Hs). done. }
  cbn [callbacks upstream_topic_templates handle h' channel live dm_events]. unfold set_at. rewrite !decide_True by done. split_and!; try done.
  - intros t Hne. by rewrite !decide_False by done.
  - intros Hne. exists (upstream_topic_template type). split; [cbn; unfold set_at; by rewrite decide_True by done|].
    change (dm_product_sn (handle _)) with (dm_product_sn (handle s)). change (dm_device_sn (handle (mkDmSt _ _ _ _))) with (dm_device_sn (handle s)).
    split; [by apply upstream_name|]. rewrite device_topic_len. split; [lia|by apply device_topic_nonzero].
Qed.

(** C24: What the device model sends.  A device registers for a kind of message
    with [uiot_register_for_...]: the topic of the replies is subscribed, the
    callback and the topic of the requests are kept, and nothing else changes.
    Then, with memory and names that fit, a request with at least one property
    goes out, on that topic and with QoS 1, as the JSON text of the request, with
    a blank behind every colon and comma: without these blanks it is exactly
    the compact text that [json_lookup_correct] reads.  A report has the
    values of its properties, each in an object with the member Value; a
    request for desired values their names; a deletion their names with
    versions; an event its identifier and the plain values.  The result is
    that of the MQTT client, or FAILURE; no memory is kept. *)
Theorem dm_requests_correct {W} `{Channel W} {CB F} (print_f : F -> bytes) (s : @DmSt W CB) :
  (forall n w, 0 <= n -> exists b w', heap_alloc n w = (Some b, w') /\ zlen b = n) ->
  (forall type (cb : CB), names_fit s ->
    let topic tail := device_topic (dm_product_sn (handle s)) (dm_device_sn (handle s)) tail in
    exists r w' s', dm_mqtt_subscribe (topic (reply_tail type)) QOS1 type (channel s) = (r, w') /\
      uiot_register_for type (Some cb) s = Done (0, s') /\ channel s' = w' /\ live s' = live s /\ dm_events s' = dm_events s /\
      names_fit s' /\ callbacks (handle s') type = Some cb /\
      upstream_topic_templates (handle s') type = Some (upstream_topic_template type) /\
      (forall t, t <> type -> callbacks (handle s') t = callbacks (handle s) t /\
        upstream_topic_templates (handle s') t = upstream_topic_templates (handle s) t) /\
      (type <> COMMAND -> topic_of s' type (topic (topic_tail type)))) /\
  (forall id type ps ts j name, contents print_f true type ps ts j -> ps <> [] -> topic_of s type name ->
    let doc := report_doc type id j in
    well_formed doc = true -> zlen (show doc) < DM_MSG_REPORT_BUF_LEN ->
    squeeze false (show doc) = print doc /\
    exists ret s', IOT_DM_Property_ReportEx print_f type id ps s = Done (ret, s') /\ published name (show doc) s ret s') /\
  (forall id ev ps ts j name, dm_property ev = Some ps -> property_num ev = zlen ps ->
    contents print_f false PROPERTY_POST ps ts j -> ps <> [] -> topic_of s EVENT_POST name ->
    let doc := event_doc id (event_identy ev) j in
    well_formed doc = true -> zlen (show doc) < DM_EVENT_POST_BUF_LEN ->
    squeeze false (show doc) = print doc /\
    exists ret s', IOT_DM_TriggerEventEx print_f id ev s = Done (ret, s') /\ published name (show doc) s ret s') /\
  (forall id payload name, topic_of s PROPERTY_RESTORE name ->
    exists ret s', IOT_DM_Property_Report PROPERTY_RESTORE id payload s = Done (ret, s') /\
      published name (show (JObject [request_id_member id])) s ret s').
Proof.
  intros memory. split_and!.
  - intros type cb Hfit topic. by apply register_run.
  - intros. split; [by apply squeeze_whole|]. by eapply (report_ex_run print_f memory).
  - intros. split; [by apply squeeze_whole|]. by eapply (event_ex_run print_f memory).
  - intros. by apply (restore_run memory).
Qed.

(** A thermostat: a node, a structure and an array.  Floating-point numbers are
    their texts. *)
Definition key (s : String.string) : option bytes := Some (bytes_of s).
Definition temp_prop : DM_Property_t bytes := mkProp TYPE_NODE (dm_node (mkNode TYPE_FLOAT (key "temp") (float32_value (bytes_of "21.5")))) 3.
Definition lamp_prop : DM_Property_t bytes :=
  mkProp TYPE_STRUCT (dm_struct (mkStruct (key "lamp")
    [mkNode TYPE_BOOL (key "on") (bool_value 1); mkNode TYPE_STRING (key "color") (string_value (bytes_of "red"))] 2)) 0.
Definition plan_prop : DM_Property_t bytes :=
  mkProp TYPE_ARRAY_BASE (dm_array_base (mkArrayBase (key "plan") [mkNode TYPE_INT None (int32_value 7); mkNode TYPE_INT None (int32_value (-2))] 2)) 0.
Definition thermostat (w : DmWorld) : @DmSt DmWorld Z :=
  mkDmSt (mkDMMqtt (bytes_of "psn") (bytes_of "dsn") (fun _ => Some 1) (fun t => Some (upstream_topic_template t)) (fun t => Some (downstream_topic_template t)))
    w 2 [].
Definition posted_members : list (bytes * json) :=
  [(bytes_of "temp", JNumber (bytes_of "21.5"));
   (bytes_of "lamp", JObject [(bytes_of "on", JNumber (bytes_of "1")); (bytes_of "color", JString (bytes_of "red"))]);
   (bytes_of "plan", JArray [JNumber (bytes_of "7"); JNumber (bytes_of "-2")])].
Definition posted : json := JObject ((fun m => (m.1, wrap true m.2)) <$> posted_members).

Lemma posted_contents : contents (fun f => f) true PROPERTY_POST [temp_prop; lamp_prop; plan_prop] (entry_of true <$> posted_members) posted.
Proof.
  apply contents_post. constructor; [split; reflexivity|]. constructor; [|constructor; [|by constructor]]; (split; [reflexivity|]).
  - exists [(bytes_of "on", JNumber (bytes_of "1")); (bytes_of "color", JString (bytes_of "red"))]. split; [|reflexivity].
    split_and!; [|reflexivity|done]. constructor; [split; reflexivity|]. constructor; [split; reflexivity|constructor].
  - exists [JNumber (bytes_of "7"); JNumber (bytes_of "-2")].
    split_and!; [|reflexivity|done|reflexivity]. constructor; [split; reflexivity|]. constructor; [split; reflexivity|constructor].
Qed.

Lemma dm_requests_correct_witness :
  exists ret s', IOT_DM_Property_ReportEx (fun f => f) PROPERTY_POST 42 [temp_prop; lamp_prop; plan_prop] (thermostat (mkDw [])) = Done (ret, s') /\
    dm_events s' = [Sent (bytes_of "/$system/psn/dsn/tmodel/property/post") QOS1
      (q "{`RequestID`: `42`, `Property`: {`temp`: {`Value`: 21.5}, `lamp`: {`Value`: {`on`: 1, `color`: `red`}}, `plan`: {`Value`: [7, -2]}}}")].
Proof.
  destruct (dm_requests_correct (fun f : bytes => f) (thermostat (mkDw [])) dw_memory) as (_ & Hreport & _).
  destruct (Hreport 42 _ _ _ posted (bytes_of "/$system/psn/dsn/tmodel/property/post") posted_contents) as (_ & ret & s' & Hr & w & r & w' & Hp & _ & _ & _ & _ & He);
    [done|eexists; split_and!; [reflexivity|reflexivity|by vm_compute|by repeat constructor]|by vm_compute|by vm_compute|].
  exists ret, s'. split; [exact Hr|]. rewrite He. injection Hp as <- _. by vm_compute.
Defined.
