(* ===== verification/DevModelReply.v ===== *)
(** What the device model does with the messages it receives: the handlers of
    [dm_mqtt.c], run on JSON documents. *)

From S2P Require Import Prelude Defs Json CLib JsonConv DevModel DevModelSpec.

(** The document is an object with this member, under no other name that starts
    with [name]. *)
Definition has_field (doc : json) (name : String.string) (v : json) : Prop :=
  value_at [bytes_of name] doc = Some v /\ unambiguous [bytes_of name] doc = true /\ text v <> [].
Definition lacks_field (doc : json) (name : String.string) : Prop :=
  exists ms, doc = JObject ms /\ Forall (fun m => ~ bytes_of name `prefix_of` m.1) ms.
(** The message carries the text, and a 0 stands behind it. *)
Definition carries (message : dm_message) (t : bytes) : Prop :=
  (exists rest, dm_payload message = t ++ 0 :: rest) /\ dm_payload_len message = zlen t /\ zlen t + 1 < 4294967296.

Section handlers.
Context {W : Type} `{Channel W} {CB : Type}.
Abbreviation DmSt := (@DmSt W CB).
Abbreviation DM := (@DM W CB).
Implicit Types s : DmSt.

(** A run that frees [n] blocks at its end. *)
Definition release {A} (n : Z) (o : outcome (A * DmSt)) : outcome (A * DmSt) :=
  match o with
  | Done (r, s) => Done (r, mkDmSt (handle s) (channel s) (live s - n) (dm_events s))
  | Undefined => Undefined
  | Unfinished => Unfinished
  end.
(** The program [m] is the program [m'] in a state with [n] more blocks, which
    are freed behind it. *)
Definition inside {A} (m : DM A) s (n : Z) (m' : DM A) s1 : Prop :=
  handle s1 = handle s /\ live s1 = live s + n /\ dm_events s1 = dm_events s /\ m s = release n (m' s1).

Lemma release_release {A} n k (o : outcome (A * DmSt)) : release n (release k o) = release (n + k) o.
Proof. destruct o as [[r s]| |]; [|done..]. cbn. do 3 f_equal. lia. Qed.
Lemma inside_refl {A} (m : DM A) s : inside m s 0 m s.
Proof.
  split_and!; [done|lia|done|]. destruct (m s) as [[r [h w l e]]| |]; [|done..]. cbn. by rewrite Z.sub_0_r.
Qed.
Lemma inside_trans {A} (m1 m2 m3 : DM A) s1 s2 s3 n k : inside m1 s1 n m2 s2 -> inside m2 s2 k m3 s3 -> inside m1 s1 (n + k) m3 s3.
Proof.
  intros (? & ? & ? & E1) (? & ? & ? & E2). unfold inside. rewrite E1, E2, release_release. split_and!; congruence || lia.
Qed.
(** The blocks that stay allocated while the rest of the program runs. *)
Lemma inside_step {A} (m1 m2 m3 : DM A) s1 s2 n : inside m1 s1 n m2 s2 ->
  (exists k s3, inside m2 s2 k m3 s3) -> exists k s3, inside m1 s1 k m3 s3.
Proof. intros H1 (k & s3 & H2). exists (n + k), s3. by eapply inside_trans. Qed.

Hypothesis memory : forall n w, 0 <= n -> exists b w', heap_alloc n w = (Some b, w') /\ zlen b = n.
Hypothesis json_memory : forall w, (json_alloc w).1 = true.

Lemma with_block_inside {A} size (failure : A) body s : 0 <= size ->
  exists b s1, zlen b = size /\ inside (with_block size failure body) s 1 (body b) s1.
Proof using memory.
  intros Hs. destruct (with_block_run memory size failure body s Hs) as (b & s1 & Hb & ? & ? & ? & E). exists b, s1.
  split; [done|]. split_and!; [done..|]. rewrite E. by destruct (body b s1) as [[]| |].
Qed.

Section document.
Context (doc : json) (junk : bytes) (well : well_formed doc = true).

Lemma with_value_inside name v body s : component (bytes_of name) -> has_field doc name v ->
  exists s1, inside (with_value name (print doc ++ 0 :: junk) body) s 1 (body (text v)) s1.
Proof using json_memory well.
  intros Hc (Hat & Hun & Ht).
  destruct (json_lookup_found json_alloc doc junk (channel s) [bytes_of name] v json_memory well) as [w' Hl]; [done|by constructor|done..|].
  exists (mkDmSt (handle s) w' (live s + 1) (dm_events s)). split_and!; [done..|]. unfold with_value, json_value, lit.
  unfold mbind, DM_bind at 1. cbn [join] in Hl. rewrite Hl. unfold DM_bind. by destruct (body (text v) _) as [[[] ?]| |].
Qed.
Lemma with_value_missing name body s : component (bytes_of name) -> lacks_field doc name ->
  exists s', with_value name (print doc ++ 0 :: junk) body s = Done (tt, s') /\ same s s'.
Proof using well.
  intros Hc (ms & E & Hn). unfold with_value, json_value, lit, mbind, DM_bind. rewrite E.
  rewrite (json_lookup_missing json_alloc junk (channel s) ms (bytes_of name)); [|by rewrite <- E|done..].
  eexists. split; [done|]. split_and!; cbn; lia || done.
Qed.

Lemma with_ret_code_inside rc body s : has_field doc "RetCode" (JNumber (dec rc)) -> -32768 <= rc < 32768 ->
  exists s1, inside (with_ret_code (print doc ++ 0 :: junk) body) s 1 (body (s8 rc)) s1.
Proof using json_memory well.
  intros Hf Hrc. destruct (with_value_inside "RetCode" (JNumber (dec rc))
    (fun c => ret ← must (LITE_get_int8 (c ++ [0])); match ret with None => mret tt | Some rc => body rc end) s) as [s1 Hin]; [by_eval|done|].
  exists s1. destruct Hin as (? & ? & ? & E). split_and!; [done..|]. unfold with_ret_code. rewrite E. f_equal. cbn [text].
  assert (LITE_get_int8 (dec rc ++ [0]) = Ok (Some (s8 rc))) as Hint.
  { unfold LITE_get_int8. by rewrite (scan_i_dec 16 rc 0 []); [|lia|lia|repeat split]. }
  rewrite (dm_bind _ _ _ (Some (s8 rc)) s1) by by apply must_ok. done.
Qed.
End document.

Lemma with_message_inside message t body s : carries message t -> Forall (fun c => c <> 0) t ->
  exists junk s1, inside (with_message message body) s 1 (body (t ++ 0 :: junk)) s1.
Proof using memory.
  intros ([rest Hp] & Hl & Hsz) Ht. unfold with_message. rewrite Hl, u32_small by lia.
  destruct (with_block_inside (zlen t + 1) tt (fun msg => text ← str (dm_payload message); '(msg, _) ← print_to msg (zlen t + 1) text; body msg) s)
    as (b & s1 & Hb & ? & ? & ? & E); [lia|].
  destruct (print_to_run b (zlen t + 1) t s1) as (b' & Hr & junk & Hb' & _); [lia|done|].
  exists junk, s1. split_and!; [done..|]. rewrite E. f_equal.
  rewrite (dm_bind _ _ _ t s1).
  - rewrite (dm_bind _ _ _ _ _ Hr). by rewrite <- Hb'.
  - rewrite Hp. apply (str_run _ _ (zlen (t ++ 0 :: rest))). exists rest. by split_and!.
Qed.

Lemma if_registered_inside type cb body s : callbacks (handle s) type = Some cb -> inside (if_registered type body) s 0 (body cb) s.
Proof.
  intros Hcb. pose proof (inside_refl (body cb) s) as (? & ? & ? & E). split_and!; [done..|]. rewrite <- E.
  unfold if_registered, callback_of, gets, mbind, DM_bind. by rewrite Hcb.
Qed.
Lemma if_registered_none type body s : callbacks (handle s) type = None -> if_registered type body s = Done (tt, s).
Proof. intros Hcb. unfold if_registered, callback_of, gets, mbind, DM_bind. by rewrite Hcb. Qed.

(** ** Handlers *)

Context (restore_cb desired_get_cb : CB -> bytes -> Z -> bytes -> DM Z) (set_cb : CB -> bytes -> bytes -> DM Z).
Context (command_cb : CB -> bytes -> bytes -> bytes -> bytes -> DM (Z * bytes)) (reply_cb : CB -> bytes -> Z -> DM Z).
Abbreviation handler := (dm_handler restore_cb set_cb desired_get_cb command_cb reply_cb).

(** The member that a reply must have besides RequestID and RetCode, and the
    callback that is called with it. *)
Definition reply_field (type : DM_Type) : option String.string :=
  match type with PROPERTY_RESTORE => Some "Property" | PROPERTY_DESIRED_GET => Some "Desired" | _ => None end.
Definition is_reply (type : DM_Type) : bool := negb (bool_decide (type = PROPERTY_SET \/ type = COMMAND)).
Definition reply_call (type : DM_Type) (cb : CB) (id : bytes) (rc : Z) (texts : list bytes) : DM unit :=
  log (Called type id (Some rc) texts);;
  match type, texts with
  | PROPERTY_RESTORE, [property] => restore_cb cb id rc property;; mret tt
  | PROPERTY_DESIRED_GET, [desired] => desired_get_cb cb id rc desired;; mret tt
  | _, _ => reply_cb cb id rc;; mret tt
  end.

Definition set_call (cb : CB) (id property : bytes) : DM unit :=
  log (Called PROPERTY_SET id None [property]);; cb_ret ← set_cb cb id property; set_reply id cb_ret.
Definition command_call (cb : CB) (id identifier input output : bytes) : DM unit :=
  log (Called COMMAND id None [identifier; input]);;
  '(cb_ret, output) ← command_cb cb id identifier input output; command_reply id identifier cb_ret output.

(** The parts of a handler, one inside the other. *)
Definition reaches (m : DM unit) s (m' : DM unit) : Prop := exists n s', inside m s n m' s'.
Lemma registered_then type cb body s m : callbacks (handle s) type = Some cb ->
  reaches (body cb) s m -> reaches (if_registered type body) s m.
Proof. intros Hcb. by eapply inside_step, if_registered_inside. Qed.
Lemma message_then message doc body s m : carries message (print doc) -> well_formed doc = true ->
  (forall junk s1, reaches (body (print doc ++ 0 :: junk)) s1 m) -> reaches (with_message message body) s m.
Proof using memory.
  intros Hm Hw Hb. destruct (with_message_inside message (print doc) body s Hm) as (junk & s1 & Hs1); [by apply print_nonzero|].
  eapply inside_step; [exact Hs1|apply Hb].
Qed.
Lemma field_then doc junk name v body s m : well_formed doc = true -> has_field doc name v -> component (bytes_of name) ->
  (forall s1, reaches (body (text v)) s1 m) -> reaches (with_value name (print doc ++ 0 :: junk) body) s m.
Proof using json_memory.
  intros Hw Hf Hc Hb. destruct (with_value_inside doc junk Hw name v body s Hc Hf) as [s1 Hs1]. eapply inside_step; [exact Hs1|apply Hb].
Qed.
Lemma ret_code_then doc junk rc body s m : well_formed doc = true -> has_field doc "RetCode" (JNumber (dec rc)) -> -32768 <= rc < 32768 ->
  (forall s1, reaches (body (s8 rc)) s1 m) -> reaches (with_ret_code (print doc ++ 0 :: junk) body) s m.
Proof using json_memory.
  intros Hw Hf Hrc Hb. destruct (with_ret_code_inside doc junk Hw rc body s Hf Hrc) as [s1 Hs1]. eapply inside_step; [exact Hs1|apply Hb].
Qed.
Lemma reached m s : reaches m s m.
Proof. exists 0, s. apply inside_refl. Qed.

Lemma reply_reaches type cb message doc s id rc field : is_reply type = true -> callbacks (handle s) type = Some cb ->
  well_formed doc = true -> carries message (print doc) -> has_field doc "RequestID" id ->
  has_field doc "RetCode" (JNumber (dec rc)) -> -32768 <= rc < 32768 ->
  match reply_field type, field with Some name, Some v => has_field doc name v | None, None => True | _, _ => False end ->
  reaches (handler type message) s (reply_call type cb (text id) (s8 rc) (from_option (fun v => [text v]) [] field)).
Proof using memory json_memory.
  intros Hr Hcb Hw Hm Hid Hrc Hrng Hf.
  destruct type; try done; destruct field as [v|]; try done; (eapply registered_then; [done|]);
    (apply (message_then message doc); [done..|]; intros junk s1);
    (apply (ret_code_then doc junk rc); [done..|]; intros s2);
    (apply (field_then doc junk _ id); [done..|by_eval|]; intros s3);
    try (apply (field_then doc junk _ v); [done..|by_eval|]; intros s4);
    apply reached.
Qed.

(** What a handler of requests does up to the call of the application. *)
Lemma set_reaches cb message doc s id property : callbacks (handle s) PROPERTY_SET = Some cb ->
  well_formed doc = true -> carries message (print doc) -> has_field doc "RequestID" id -> has_field doc "Property" property ->
  reaches (handler PROPERTY_SET message) s (set_call cb (text id) (text property)).
Proof using memory json_memory.
  intros Hcb Hw Hm Hid Hp. eapply registered_then; [done|].
  apply (message_then message doc); [done..|]; intros junk s1.
  apply (field_then doc junk _ id); [done..|by_eval|]; intros s2.
  apply (field_then doc junk _ property); [done..|by_eval|]; intros s3. apply reached.
Qed.
Lemma command_reaches cb message doc s id identifier input : callbacks (handle s) COMMAND = Some cb ->
  well_formed doc = true -> carries message (print doc) -> has_field doc "RequestID" id -> has_field doc "Identifier" identifier ->
  has_field doc "Input" input ->
  exists output, zlen output = DM_MSG_REPORT_BUF_LEN /\
    reaches (handler COMMAND message) s (command_call cb (text id) (text identifier) (text input) output).
Proof using memory json_memory.
  intros Hcb Hw Hm Hid Hi Hin.
  destruct (with_message_inside message (print doc) (fun msg =>
    with_value "RequestID" msg (fun request_id => with_value "Identifier" msg (fun identifier => with_value "Input" msg (fun input =>
      with_block DM_MSG_REPORT_BUF_LEN tt (fun output => command_call cb request_id identifier input output))))) s Hm)
    as (junk & s1 & H1); [by apply print_nonzero|].
  destruct (with_value_inside doc junk Hw "RequestID" id (fun request_id =>
    with_value "Identifier" (print doc ++ 0 :: junk) (fun identifier => with_value "Input" (print doc ++ 0 :: junk) (fun input =>
      with_block DM_MSG_REPORT_BUF_LEN tt (fun output => command_call cb request_id identifier input output)))) s1) as [s2 H2]; [by_eval|done|].
  destruct (with_value_inside doc junk Hw "Identifier" identifier (fun identifier => with_value "Input" (print doc ++ 0 :: junk) (fun input =>
      with_block DM_MSG_REPORT_BUF_LEN tt (fun output => command_call cb (text id) identifier input output))) s2) as [s3 H3]; [by_eval|done|].
  destruct (with_value_inside doc junk Hw "Input" input (fun input =>
      with_block DM_MSG_REPORT_BUF_LEN tt (fun output => command_call cb (text id) (text identifier) input output)) s3) as [s4 H4]; [by_eval|done|].
  destruct (with_block_inside DM_MSG_REPORT_BUF_LEN tt (fun output => command_call cb (text id) (text identifier) (text input) output) s4)
    as (output & s5 & Hl & H5); [done|].
  exists output. split; [done|]. eapply registered_then; [done|]. eexists _, s5.
  eapply inside_trans; [exact H1|]. eapply inside_trans; [exact H2|]. eapply inside_trans; [exact H3|].
  eapply inside_trans; [exact H4|]. exact H5.
Qed.

(** A message without one of the members that it must have. *)
Lemma missing_then (m : DM unit) s n (m' : DM unit) s1 s2 : inside m s n m' s1 -> m' s1 = Done (tt, s2) -> same s1 s2 ->
  exists s', m s = Done (tt, s') /\ same s s'.
Proof.
  intros (Hh & Hl & He & ->) -> (H1 & H2 & H3). eexists. split; [done|]. split_and!; cbn; congruence || lia.
Qed.

Definition quiet (m : DM unit) s : Prop := exists s', m s = Done (tt, s') /\ same s s'.
Lemma quiet_then (m : DM unit) s n m' s1 : inside m s n m' s1 -> quiet m' s1 -> quiet m s.
Proof. intros Hin (s2 & Hr & Hs). by eapply missing_then. Qed.
Definition present (doc : json) (name : String.string) : Prop := exists v, has_field doc name v /\
  (name = "RetCode"%string -> exists rc, v = JNumber (dec rc) /\ -32768 <= rc < 32768).
Inductive misses (doc : json) : list String.string -> Prop :=
  | misses_first n l : lacks_field doc n -> misses doc (n :: l)
  | misses_later n l : present doc n -> misses doc l -> misses doc (n :: l).
(** The members that a message must have, in the order in which they are read. *)
Definition fields_of (type : DM_Type) : list String.string :=
  match type with
  | PROPERTY_RESTORE => ["RetCode"; "RequestID"; "Property"]
  | PROPERTY_DESIRED_GET => ["RetCode"; "RequestID"; "Desired"]
  | PROPERTY_SET => ["RequestID"; "Property"]
  | COMMAND => ["RequestID"; "Identifier"; "Input"]
  | _ => ["RetCode"; "RequestID"]
  end%string.

Lemma quiet_field doc junk name l body s : well_formed doc = true -> component (bytes_of name) -> misses doc (name :: l) ->
  (misses doc l -> forall v s1, quiet (body v) s1) -> quiet (with_value name (print doc ++ 0 :: junk) body) s.
Proof using json_memory.
  intros Hw Hc Hm Hb. inversion Hm as [? ? Hl|? ? (v & Hf & _) Hl]; subst.
  - destruct (with_value_missing doc junk Hw name body s Hc Hl) as (s' & Hr & Hs). by exists s'.
  - destruct (with_value_inside doc junk Hw name v body s Hc Hf) as [s1 H1]. eapply quiet_then; [exact H1|]. by apply Hb.
Qed.
Lemma quiet_ret_code doc junk l body s : well_formed doc = true -> misses doc ("RetCode"%string :: l) ->
  (misses doc l -> forall rc s1, quiet (body rc) s1) -> quiet (with_ret_code (print doc ++ 0 :: junk) body) s.
Proof using json_memory.
  intros Hw Hm Hb. inversion Hm as [? ? Hl|? ? (v & Hf & Hrc) Hl]; subst.
  - edestruct (with_value_missing doc junk Hw "RetCode") as (s' & Hr & Hs); [by_eval|done|]. exists s'. split; [exact Hr|done].
  - destruct (Hrc eq_refl) as (rc & -> & Hrng). destruct (with_ret_code_inside doc junk Hw rc body s Hf Hrng) as [s1 H1].
    eapply quiet_then; [exact H1|]. by apply Hb.
Qed.
Lemma misses_quiet type cb message doc s : callbacks (handle s) type = Some cb -> well_formed doc = true ->
  carries message (print doc) -> misses doc (fields_of type) -> quiet (handler type message) s.
Proof using memory json_memory.
  intros Hcb Hw Hm Hmiss.
  assert (forall body : CB -> bytes -> DM unit, (forall junk s1, quiet (body cb (print doc ++ 0 :: junk)) s1) ->
    quiet (if_registered type (fun cb => with_message message (body cb))) s) as Hgo.
  { intros body Hb. eapply quiet_then; [by apply (if_registered_inside type cb)|]. cbv beta.
    destruct (with_message_inside message (print doc) (body cb) s Hm) as (junk & s1 & H1); [by apply print_nonzero|].
    eapply quiet_then; [exact H1|apply Hb]. }
  assert (forall l, misses doc l -> l <> []) as Hnil by by destruct 1.
  destruct type; unfold dm_handler, dm_mqtt_property_restore_cb, dm_mqtt_property_post_cb, dm_mqtt_property_set_cb,
    dm_mqtt_property_desired_get_cb, dm_mqtt_property_desired_delete_cb, dm_mqtt_event_post_cb, dm_mqtt_command_cb, _dm_mqtt_common_reply_cb;
    eapply Hgo; intros junk s1; cbn [fields_of] in Hmiss;
    try (apply (quiet_ret_code doc junk _ _ _ Hw Hmiss); intros H1 rc s2);
    repeat (eapply quiet_field; [exact Hw|by_eval|eassumption|]; intros ? ? ?);
    by match goal with Hx : misses doc [] |- _ => destruct (Hnil _ Hx) end.
Qed.

(** ** The replies *)

Definition set_reply_doc (id : bytes) (r : Z) : json :=
  JObject [(bytes_of "RequestID", JString id); (bytes_of "RetCode", JNumber (dec (s32 r)))].
Definition command_reply_doc (id : bytes) (r : Z) (identifier : bytes) (output : json) : json :=
  JObject [(bytes_of "RequestID", JString id); (bytes_of "RetCode", JNumber (dec (s32 r)));
           (bytes_of "Identifier", JString identifier); (bytes_of "Output", output)].

Lemma published_then t x (m : DM unit) s n m' s1 : inside m s n m' s1 ->
  (exists ret s2, m' s1 = Done (tt, s2) /\ published t x s1 ret s2) -> exists ret s', m s = Done (tt, s') /\ published t x s ret s'.
Proof.
  intros (Hh & Hl & He & ->) (ret & s2 & -> & w & r & w' & ? & ? & ? & ? & ? & ?). eexists ret, _. split; [done|].
  exists w, r, w'. cbn. split_and!; try congruence. lia.
Qed.
Lemma block_then t x size body s : 0 <= size ->
  (forall b s1, zlen b = size -> handle s1 = handle s -> exists ret s2, body b s1 = Done (tt, s2) /\ published t x s1 ret s2) ->
  exists ret s', with_block size tt body s = Done (tt, s') /\ published t x s ret s'.
Proof using memory.
  intros Hs Hb. destruct (with_block_inside size tt body s Hs) as (b & s1 & Hl & Hin). eapply published_then; [exact Hin|].
  destruct Hin as (Hh & _). by apply Hb.
Qed.
Lemma publish_tail topic msg t x size size' s : holds topic t size -> holds msg x size' ->
  exists ret s', (_dm_mqtt_publish topic 1 msg;; mret tt) s = Done (tt, s') /\ published t x s ret s'.
Proof.
  intros Ht Hx. destruct (publish_run topic msg t x size size' s Ht Hx) as (ret & s' & Hr & Hp). exists ret, s'. split; [|done].
  by rewrite (dm_bind _ _ _ _ _ Hr).
Qed.

Lemma set_reply_run id r s name : topic_of s PROPERTY_SET name -> well_formed (set_reply_doc id r) = true ->
  zlen (show (set_reply_doc id r)) < DM_MSG_REPLY_BUF_LEN ->
  exists ret s', set_reply id r s = Done (tt, s') /\ published name (show (set_reply_doc id r)) s ret s'.
Proof using memory.
  intros Htop Hw Hl. pose proof (show_nonzero _ Hw) as Hn.
  assert (E : show (set_reply_doc id r) = q "{`RequestID`: `" ++ id ++ q "`, `RetCode`: " ++ dec (s32 r) ++ [125]).
  { unfold set_reply_doc. cbn [show map joined fst snd]. unfold entry_text. literals. }
  unfold set_reply. rewrite <- E. revert Hl Hn. generalize (show (set_reply_doc id r)). clear E Hw. intros t Hl Hn.
  apply block_then; [done|]. intros msg s1 Hmsg E1. apply block_then; [done|]. intros topic s2 Htopic E2.
  rewrite (dm_bind _ _ _ (handle s2) s2) by done.
  destruct (gen_topic_run topic s2 PROPERTY_SET name) as (topic' & Hr & Hh); [unfold topic_of; by rewrite E2, E1|done|].
  rewrite (dm_bind _ _ _ _ _ Hr). rewrite decide_False by auto.
  destruct (print_to_run msg DM_MSG_REPLY_BUF_LEN t s2) as (msg' & Hp & Hh'); [lia|done|].
  rewrite (dm_bind _ _ _ _ _ Hp). rewrite decide_False by lia. by eapply publish_tail.
Qed.

Lemma command_reply_run id r identifier output o obuf osize s name template : upstream_topic_templates (handle s) COMMAND = Some template ->
  format_s template [dm_product_sn (handle s); dm_device_sn (handle s); id] = Ok name -> zlen name < DM_TOPIC_BUF_LEN -> nonzero name ->
  holds obuf o osize -> show output = 123 :: o ++ [125] ->
  well_formed (command_reply_doc id r identifier output) = true -> zlen (show (command_reply_doc id r identifier output)) < DM_CMD_REPLY_BUF_LEN ->
  exists ret s', command_reply id identifier r obuf s = Done (tt, s') /\ published name (show (command_reply_doc id r identifier output)) s ret s'.
Proof using memory.
  intros Htpl Hname Hnl Hnn Ho Eo Hw Hl. pose proof (show_nonzero _ Hw) as Hn.
  assert (E : show (command_reply_doc id r identifier output) = q "{`RequestID`: `" ++ id ++ q "`, `RetCode`: " ++ dec (s32 r) ++
    q ", `Identifier`: `" ++ identifier ++ q "`, `Output`: {" ++ o ++ q "}}").
  { unfold command_reply_doc. cbn [show map joined fst snd]. rewrite Eo. unfold entry_text. literals. }
  unfold command_reply. revert E Hl Hn. generalize (show (command_reply_doc id r identifier output)). clear Hw. intros t E Hl Hn.
  apply block_then; [done|]. intros msg s1 Hmsg E1. apply block_then; [done|]. intros topic s2 Htopic E2.
  rewrite (dm_bind _ _ _ (handle s2) s2) by done.
  rewrite E2, E1, Htpl. rewrite (dm_bind _ _ _ template s2) by done.
  rewrite (dm_bind _ _ _ name s2) by by apply must_ok.
  destruct (print_to_run topic DM_TOPIC_BUF_LEN name s2) as (topic' & Hr & Hh); [lia|done|].
  rewrite (dm_bind _ _ _ _ _ Hr). rewrite decide_False by lia. rewrite (dm_bind _ _ _ _ _ (str_run _ _ _ _ Ho)). rewrite <- E.
  destruct (print_to_run msg DM_CMD_REPLY_BUF_LEN t s2) as (msg' & Hp & Hh'); [lia|done|].
  rewrite (dm_bind _ _ _ _ _ Hp). rewrite decide_False by lia. by eapply publish_tail.
Qed.
(** The application returns [r] and leaves the client alone. *)
Definition answers {A} (m : DM A) (r : A) : Prop := forall s, exists s', m s = Done (r, s') /\ same s s'.
Definition noted (e : dm_event) s : DmSt := mkDmSt (handle s) (channel s) (live s) (e :: dm_events s).

Lemma set_handled cb message doc s id property r name : callbacks (handle s) PROPERTY_SET = Some cb ->
  well_formed doc = true -> carries message (print doc) -> has_field doc "RequestID" (JString id) -> has_field doc "Property" property ->
  answers (set_cb cb id (text property)) r -> topic_of s PROPERTY_SET name ->
  well_formed (set_reply_doc id r) = true -> zlen (show (set_reply_doc id r)) < DM_MSG_REPLY_BUF_LEN ->
  exists ret s', handler PROPERTY_SET message s = Done (tt, s') /\
    published name (show (set_reply_doc id r)) (noted (Called PROPERTY_SET id None [text property]) s) ret s'.
Proof using memory json_memory.
  intros Hcb Hw Hm Hid Hp Ha Htop Hwr Hl. destruct (set_reaches cb message doc s (JString id) property) as (n & s1 & Hin); [done..|].
  set (e := Called PROPERTY_SET id None [text property]).
  destruct (Ha (noted e s1)) as (s2 & Hr & E2 & L2 & V2).
  pose proof Hin as (E1 & L1 & V1 & E).
  destruct (set_reply_run id r s2 name) as (ret & s3 & Hrun & w & rr & w' & Hpub & -> & E3 & L3 & C3 & V3); [|done..|].
  { unfold topic_of. rewrite E2. cbn [handle noted]. by rewrite E1. }
  rewrite E. unfold set_call. rewrite (dm_bind _ _ _ tt (noted e s1)) by done. cbn [text] in Hr |- *. rewrite (dm_bind _ _ _ _ _ Hr), Hrun.
  eexists (if decide (rr < 0) then FAILURE_RET else rr), _. split; [done|]. exists w, rr, w'.
  cbn [handle live dm_events channel noted release] in *. split_and!; try congruence. lia.
Qed.
Lemma command_handled cb message doc s id identifier input output o obuf osize r name template : callbacks (handle s) COMMAND = Some cb ->
  well_formed doc = true -> carries message (print doc) -> has_field doc "RequestID" (JString id) ->
  has_field doc "Identifier" (JString identifier) -> has_field doc "Input" input ->
  (forall buf, zlen buf = DM_MSG_REPORT_BUF_LEN -> answers (command_cb cb id identifier (text input) buf) (r, obuf)) ->
  holds obuf o osize -> show output = 123 :: o ++ [125] ->
  upstream_topic_templates (handle s) COMMAND = Some template ->
  format_s template [dm_product_sn (handle s); dm_device_sn (handle s); id] = Ok name -> zlen name < DM_TOPIC_BUF_LEN -> nonzero name ->
  let reply := command_reply_doc id r identifier output in
  well_formed reply = true -> zlen (show reply) < DM_CMD_REPLY_BUF_LEN ->
  exists ret s', handler COMMAND message s = Done (tt, s') /\
    published name (show reply) (noted (Called COMMAND id None [identifier; text input]) s) ret s'.
Proof using memory json_memory.
  intros Hcb Hw Hm Hid Hi Hin Ha Ho Eo Htpl Hname Hnl Hnn reply Hwr Hl. subst reply.
  destruct (command_reaches cb message doc s (JString id) (JString identifier) input) as (buf & Hbuf & n & s1 & Hreach); [done..|].
  set (e := Called COMMAND id None [identifier; text input]).
  destruct (Ha buf Hbuf (noted e s1)) as (s2 & Hr & E2 & L2 & V2).
  pose proof Hreach as (E1 & L1 & V1 & E).
  assert (handle s2 = handle s) as Eh by (rewrite E2; cbn [handle noted]; done).
  destruct (command_reply_run id r identifier output o obuf osize s2 name template) as (ret & s3 & Hrun & w & rr & w' & Hpub & -> & E3 & L3 & C3 & V3);
    [by rewrite Eh..|done|done|done|done|done|done|].
  rewrite E. unfold command_call. rewrite (dm_bind _ _ _ tt (noted e s1)) by done. cbn [text] in Hr |- *. rewrite (dm_bind _ _ _ _ _ Hr), Hrun.
  eexists (if decide (rr < 0) then FAILURE_RET else rr), _. split; [done|]. exists w, rr, w'.
  cbn [handle live dm_events channel noted release] in *. split_and!; try congruence. lia.
Qed.
End handlers.

(** C25: What a received message does, with memory.  A message of a kind for
    which nothing is registered, or without one of its members, does nothing.
    A reply whose RetCode fits 16 bits calls the callback of its kind with the
    request's id, the low eight bits of the RetCode with their sign ([s8]: the
    RetCode itself from -128 to 127, but 0, the code of success, for 256) and,
    for a restoration or desired values, these as a text, and that callback
    runs on the client as it was but for the blocks of the handler,
    which are freed behind it.  A property that is set and a command are
    answered: when the application returns, the return code (and the
    command's output) goes out once, with QoS 1, as the JSON text that names
    the request, and no memory is kept. *)
Theorem dm_replies_correct {W} `{Channel W} {CB} (restore_cb desired_get_cb : CB -> bytes -> Z -> bytes -> @DM W CB Z) set_cb command_cb reply_cb
    (message : dm_message) (doc : json) (s : @DmSt W CB) :
  (forall n w, 0 <= n -> exists b w', heap_alloc n w = (Some b, w') /\ zlen b = n) -> (forall w, (json_alloc w).1 = true) ->
  well_formed doc = true -> carries message (print doc) ->
  let handler := dm_handler restore_cb set_cb desired_get_cb command_cb reply_cb in
  (forall type, callbacks (handle s) type = None -> handler type message s = Done (tt, s)) /\
  (forall type cb, callbacks (handle s) type = Some cb -> misses doc (fields_of type) -> quiet (handler type message) s) /\
  (forall type cb id rc field, is_reply type = true -> callbacks (handle s) type = Some cb ->
    has_field doc "RequestID" id -> has_field doc "RetCode" (JNumber (dec rc)) -> -32768 <= rc < 32768 ->
    match reply_field type, field with Some name, Some v => has_field doc name v | None, None => True | _, _ => False end ->
    reaches (handler type message) s
      (reply_call restore_cb desired_get_cb reply_cb type cb (text id) (s8 rc) (from_option (fun v => [text v]) [] field))) /\
  (forall cb id property r name, callbacks (handle s) PROPERTY_SET = Some cb ->
    has_field doc "RequestID" (JString id) -> has_field doc "Property" property ->
    answers (set_cb cb id (text property)) r -> topic_of s PROPERTY_SET name ->
    let reply := set_reply_doc id r in well_formed reply = true -> zlen (show reply) < DM_MSG_REPLY_BUF_LEN ->
    exists ret s', handler PROPERTY_SET message s = Done (tt, s') /\
      published name (show reply) (noted (Called PROPERTY_SET id None [text property]) s) ret s') /\
  (forall cb id identifier input output o obuf osize r name template, callbacks (handle s) COMMAND = Some cb ->
    has_field doc "RequestID" (JString id) -> has_field doc "Identifier" (JString identifier) -> has_field doc "Input" input ->
    (forall buf, zlen buf = DM_MSG_REPORT_BUF_LEN -> answers (command_cb cb id identifier (text input) buf) (r, obuf)) ->
    holds obuf o osize -> show output = 123 :: o ++ [125] ->
    upstream_topic_templates (handle s) COMMAND = Some template ->
    format_s template [dm_product_sn (handle s); dm_device_sn (handle s); id] = Ok name -> zlen name < DM_TOPIC_BUF_LEN -> nonzero name ->
    let reply := command_reply_doc id r identifier output in
    well_formed reply = true -> zlen (show reply) < DM_CMD_REPLY_BUF_LEN ->
    exists ret s', handler COMMAND message s = Done (tt, s') /\
      published name (show reply) (noted (Called COMMAND id None [identifier; text input]) s) ret s').
Proof.
  intros memory json_memory Hw Hm handler. split_and!.
  - intros type Hcb. destruct type; by apply if_registered_none.
  - intros. by eapply misses_quiet.
  - intros. by apply (reply_reaches memory json_memory restore_cb desired_get_cb set_cb command_cb reply_cb type cb message doc).
  - intros cb id property r name; intros.
    by apply (set_handled memory json_memory restore_cb desired_get_cb set_cb command_cb reply_cb cb message doc s id property r name).
  - intros cb id identifier input output o obuf osize r name template; intros.
    by apply (command_handled memory json_memory restore_cb desired_get_cb set_cb command_cb reply_cb cb message doc s id identifier input
      output o obuf osize r name template).
Qed.

(** A lamp that is switched by a property and dimmed by a command. *)
Definition told_property : json := JObject [(bytes_of "RequestID", JString (bytes_of "7")); (bytes_of "Property", JObject [(bytes_of "on", JNumber (bytes_of "1"))])].
Definition told_command : json := JObject [(bytes_of "RequestID", JString (bytes_of "8")); (bytes_of "Identifier", JString (bytes_of "dim"));
  (bytes_of "Input", JObject [(bytes_of "to", JNumber (bytes_of "40"))])].
Definition told (doc : json) : dm_message := mkDmMsg (print doc ++ [0]) (zlen (print doc)).
Definition lamp_handler : DM_Type -> dm_message -> @DM DmWorld Z unit := dm_handler
  (fun cb id rc property => mret 0) (fun cb id property => mret 0) (fun cb id rc desired => mret 0)
  (fun cb id identifier input output => mret (-3, q "`level`: 40" ++ [0])) (fun cb id rc => mret 0).

Definition told_reply : json := JObject [(bytes_of "RequestID", JString (bytes_of "9")); (bytes_of "RetCode", JNumber (bytes_of "256"))].
Lemma dm_replies_correct_witness :
  (exists s', lamp_handler PROPERTY_POST (told told_reply) (thermostat (mkDw [])) = Done (tt, s') /\
    dm_events s' = [Called PROPERTY_POST (bytes_of "9") (Some 0) []]) /\
  (exists s', lamp_handler PROPERTY_SET (told told_property) (thermostat (mkDw [])) = Done (tt, s') /\
    dm_events s' = [Sent (bytes_of "/$system/psn/dsn/tmodel/property/set_reply") QOS1 (q "{`RequestID`: `7`, `RetCode`: 0}");
                    Called PROPERTY_SET (bytes_of "7") None [q "{`on`:1}"]]) /\
  (exists s', lamp_handler COMMAND (told told_command) (thermostat (mkDw [])) = Done (tt, s') /\
    dm_events s' = [Sent (bytes_of "/$system/psn/dsn/tmodel/command_reply/8") QOS1
                      (q "{`RequestID`: `8`, `RetCode`: -3, `Identifier`: `dim`, `Output`: {`level`: 40}}");
                    Called COMMAND (bytes_of "8") None [bytes_of "dim"; q "{`to`:40}"]]).
Proof.
  split_and!.
  - destruct (dm_replies_correct (fun cb id rc property => mret 0) (fun cb id rc desired => mret 0) (fun cb id property => mret 0)
      (fun cb id identifier input output => mret (-3, q "`level`: 40" ++ [0])) (fun cb id rc => mret 0) (told told_reply) told_reply
      (thermostat (mkDw [])) dw_memory) as (_ & _ & Hreply & _); [done|by vm_compute|split_and!; [by exists []|done|by vm_compute]|].
    destruct (Hreply PROPERTY_POST 1 (JString (bytes_of "9")) 256 None eq_refl eq_refl) as (n & s1 & _ & _ & He & Hr);
      [split_and!; by vm_compute|split_and!; by vm_compute|lia|done|].
    eexists. split; [exact Hr|]. transitivity (Called PROPERTY_POST (bytes_of "9") (Some 0) [] :: dm_events s1); [reflexivity|by rewrite He].
  - destruct (dm_replies_correct (fun cb id rc property => mret 0) (fun cb id rc desired => mret 0) (fun cb id property => mret 0)
      (fun cb id identifier input output => mret (-3, q "`level`: 40" ++ [0])) (fun cb id rc => mret 0) (told told_property) told_property
      (thermostat (mkDw [])) dw_memory) as (_ & _ & _ & Hset & _); [done|by vm_compute|split_and!; [by exists []|done|by vm_compute]|].
    destruct (Hset 1 (bytes_of "7") (JObject [(bytes_of "on", JNumber (bytes_of "1"))]) 0 (bytes_of "/$system/psn/dsn/tmodel/property/set_reply"))
      as (ret & s' & Hr & w & r & w' & Hp & _ & _ & _ & _ & He); [done|split_and!; by vm_compute|split_and!; by vm_compute|intros s; by exists s| |by vm_compute..|].
    { eexists; split_and!; [reflexivity|reflexivity|by vm_compute|by repeat constructor]. }
    exists s'. split; [exact Hr|]. rewrite He. injection Hp as <- _. by vm_compute.
  - destruct (dm_replies_correct (fun cb id rc property => mret 0) (fun cb id rc desired => mret 0) (fun cb id property => mret 0)
      (fun cb id identifier input output => mret (-3, q "`level`: 40" ++ [0])) (fun cb id rc => mret 0) (told told_command) told_command
      (thermostat (mkDw [])) dw_memory) as (_ & _ & _ & _ & Hcmd); [done|by vm_compute|split_and!; [by exists []|done|by vm_compute]|].
    destruct (Hcmd 1 (bytes_of "8") (bytes_of "dim") (JObject [(bytes_of "to", JNumber (bytes_of "40"))])
      (JObject [(bytes_of "level", JNumber (bytes_of "40"))]) (q "`level`: 40") (q "`level`: 40" ++ [0]) 12 (-3)
      (bytes_of "/$system/psn/dsn/tmodel/command_reply/8") (upstream_topic_template COMMAND))
      as (ret & s' & Hr & w & r & w' & Hp & _ & _ & _ & _ & He);
      [done|split_and!; by vm_compute|split_and!; by vm_compute|split_and!; by vm_compute|intros buf _ s; by exists s| |by vm_compute|done|
       reflexivity|by vm_compute|by repeat constructor|by vm_compute..|].
    { exists []. split_and!; [done|by vm_compute|by repeat constructor]. }
    exists s'. split; [exact Hr|]. rewrite He. injection Hp as <- _. by vm_compute.
Defined.
