(* ===== verification/DevModelSafe.v ===== *)
(** Memory and bounds of the device model: every block is freed on every path,
    and what happens to texts that do not fit. *)

From S2P Require Import Prelude Defs Json CLib JsonConv DevModel DevModelSpec DevModelReply.

(* ================================================================== *)
(** * Blocks *)

Section balance.
Context {W : Type} `{Channel W} {CB F : Type} (print_f : F -> bytes).
Abbreviation DmSt := (@DmSt W CB).
Abbreviation DM := (@DM W CB).

(** The program frees what it allocates. *)
Definition balanced {A} (m : DM A) : Prop := forall s r s', m s = Done (r, s') -> live s' = live s.

Lemma balanced_ret {A} (a : A) : balanced (mret a : DM A).
Proof. by intros s r s' [= <- <-]. Qed.
Lemma balanced_bind {A B} (m : DM A) (f : A -> DM B) : balanced m -> (forall a, balanced (f a)) -> balanced (m ≫= f).
Proof.
  intros Hm Hf s r s'. unfold mbind, DM_bind. destruct (m s) as [[a s1]| |] eqn:E; [|done..]. intros Hr.
  rewrite (Hf a s1 r s' Hr). by eapply Hm.
Qed.
Lemma balanced_gets {A} (f : DmSt -> A) : balanced (gets f).
Proof. by intros s r s' [= <- <-]. Qed.
Lemma balanced_undefined {A} : balanced (undefined : DM A).
Proof. done. Qed.
Lemma balanced_found {A} (a : option A) : balanced (found a : DM A).
Proof. destruct a; [apply balanced_ret|done]. Qed.
Lemma balanced_must {A} (a : res A) : balanced (must a : DM A).
Proof. destruct a; [apply balanced_ret|done..]. Qed.
Lemma balanced_lift {A} (f : W -> A * W) : balanced (lift f : DM A).
Proof. intros s r s'. unfold lift. destruct (f (channel s)). by intros [= <- <-]. Qed.
Lemma balanced_log e : balanced (log e : DM unit).
Proof. by intros s r s' [= <- <-]. Qed.
Lemma balanced_set_handle h : balanced (set_handle h : DM unit).
Proof. by intros s r s' [= <- <-]. Qed.

(** A block that is freed behind its use. *)
Lemma balanced_malloc {A} size (f : option bytes -> DM A) :
  (forall b s r s', f (Some b) s = Done (r, s') -> live s' = live s - 1) -> balanced (f None) -> balanced (HAL_Malloc size ≫= f).
Proof.
  intros Hs Hn s r s'. unfold HAL_Malloc, lift, count, mbind, DM_bind. destruct (heap_alloc size (channel s)) as [[b|] w].
  - cbn. intros Hr. apply Hs in Hr. cbn in Hr. lia.
  - cbn. intros Hr. apply Hn in Hr. exact Hr.
Qed.
Lemma freed {A B} (m : DM A) (f : A -> B) s r s' : balanced m -> (a ← m; HAL_Free;; mret (f a)) s = Done (r, s') -> live s' = live s - 1.
Proof.
  intros Hm. unfold mbind, DM_bind. destruct (m s) as [[a s1]| |] eqn:E; [|done..]. cbn. intros [= <- <-]. cbn. apply Hm in E. lia.
Qed.
Lemma balanced_block {A} size (failure : A) (body : bytes -> DM A) : (forall b, balanced (body b)) -> balanced (with_block size failure body).
Proof.
  intros Hb. apply balanced_malloc; [|apply balanced_ret]. intros b s r s'. by apply (freed (body b) (fun r => r)).
Qed.
Lemma balanced_value key msg body : (forall v, balanced (body v)) -> balanced (with_value key msg body : DM unit).
Proof.
  intros Hb s r s'. unfold with_value, json_value, mbind, DM_bind. destruct (LITE_json_value_of _ _ _ _) as [[[v|] w]|e|]; [| |done..].
  - destruct (body v _) as [[r1 s1]| |] eqn:E; [|done..]. intros [= <- <-]. apply Hb in E. cbn in *. lia.
  - intros [= <- <-]. cbn. lia.
Qed.

#[local] Hint Resolve balanced_ret balanced_gets balanced_undefined balanced_found balanced_must balanced_lift balanced_log balanced_set_handle : core.
Ltac balance := repeat first
  [ solve [auto] | match goal with
      | |- balanced (with_block _ _ _) => apply balanced_block; intros ?
      | |- balanced (with_value _ _ _) => apply balanced_value; intros ?
      | |- balanced (mbind _ _) => apply balanced_bind; [|intros ?]
      end
  | case_decide | match goal with |- balanced (let '(_, _) := ?p in _) => destruct p end
  | match goal with |- balanced (match ?p with _ => _ end) => destruct p end ].

Lemma balanced_elements_loop {A} (gen : A -> bytes -> DM (bytes * Z)) o c items num n : (forall x b, balanced (gen x b)) ->
  forall loop p i r, balanced (element_loop gen o c items num n loop p i r).
Proof. intros Hg. induction n as [|n IH]; intros loop p i r; cbn [element_loop]; unfold str, print_to, append_to; balance. Qed.
Lemma balanced_elements {A} (gen : A -> bytes -> DM (bytes * Z)) o c items num p : (forall x b, balanced (gen x b)) ->
  balanced (gen_elements gen o c items num p).
Proof. intros Hg. pose proof (@balanced_elements_loop A gen o c items num) as Hl. unfold gen_elements, str, print_to. balance. Qed.
Lemma balanced_node n vk b : balanced (dm_gen_node_payload print_f n vk b).
Proof. unfold dm_gen_node_payload, print_to. balance. Qed.
#[local] Hint Resolve balanced_node : core.
Lemma balanced_struct x vk b : balanced (dm_gen_struct_payload print_f x vk b).
Proof. apply balanced_elements; auto. Qed.
#[local] Hint Resolve balanced_struct : core.
Lemma balanced_property p vk b : balanced (dm_gen_property_post_payload print_f p vk b).
Proof.
  unfold dm_gen_property_post_payload, dm_gen_array_base_payload, dm_gen_array_struct_payload.
  balance; apply balanced_elements; intros; balance.
Qed.
Lemma balanced_key (p : DM_Property_t F) : balanced (property_key p : DM bytes).
Proof. unfold property_key. balance. Qed.
#[local] Hint Resolve balanced_property balanced_key : core.
Lemma balanced_gen_property type vk p b : balanced (gen_property print_f type vk p b).
Proof. unfold gen_property, dm_gen_property_desired_payload, dm_gen_property_delete_payload, print_to. balance. Qed.
#[local] Hint Resolve balanced_gen_property : core.
Lemma balanced_properties ps num type vk b : balanced (dm_gen_properties_payload print_f ps num type vk b).
Proof.
  unfold dm_gen_properties_payload. balance. apply balanced_elements_loop. auto.
Qed.
#[local] Hint Resolve balanced_properties : core.

(** ** Requests *)

Lemma balanced_topic buf n t : balanced (_dm_mqtt_gen_topic_name buf n t : DM (bytes * Z)).
Proof. unfold _dm_mqtt_gen_topic_name, print_to. balance. Qed.
Lemma balanced_publish topic qos msg : balanced (_dm_mqtt_publish topic qos msg : DM Z).
Proof. unfold _dm_mqtt_publish, str. balance. Qed.
Lemma balanced_property_payload buf n type id p : balanced (_dm_mqtt_gen_property_payload buf n type id p : DM (bytes * Z)).
Proof. unfold _dm_mqtt_gen_property_payload, print_to, str. balance. Qed.
Lemma balanced_event_payload buf n id name p : balanced (_dm_mqtt_gen_event_payload buf n id name p : DM (bytes * Z)).
Proof. unfold _dm_mqtt_gen_event_payload, print_to, str. balance. Qed.
#[local] Hint Resolve balanced_topic balanced_publish balanced_property_payload balanced_event_payload : core.

Lemma balanced_report type id p : balanced (dm_mqtt_property_report_publish type id p : DM Z).
Proof. unfold dm_mqtt_property_report_publish. balance. Qed.
Lemma balanced_event id name p : balanced (dm_mqtt_event_publish id name p : DM Z).
Proof. unfold dm_mqtt_event_publish. balance. Qed.
#[local] Hint Resolve balanced_report balanced_event : core.
Lemma balanced_report_ex type id ps : balanced (IOT_DM_Property_ReportEx print_f type id ps : DM Z).
Proof.
  unfold IOT_DM_Property_ReportEx, dm_mqtt_property_report_publish_Ex, with_properties. apply balanced_malloc.
  - intros b s r s'. apply (freed _ (fun r => r)). balance.
  - balance.
Qed.
Lemma balanced_event_ex id e : balanced (IOT_DM_TriggerEventEx print_f id e : DM Z).
Proof. unfold IOT_DM_TriggerEventEx, dm_mqtt_event_publish_Ex. balance. Qed.
Lemma balanced_output output ps : balanced (IOT_DM_GenCommandOutput print_f output ps : DM (option bytes * Z)).
Proof.
  unfold IOT_DM_GenCommandOutput. destruct output as [output|]; [|balance]. apply balanced_malloc.
  - intros b s r s' Hr. apply (freed (dm_gen_properties_payload print_f (Some ps) (zlen ps) PROPERTY_POST false output)
      (fun r => (Some r.1, r.2)) s r s'); [auto|]. rewrite <- Hr. unfold mbind, DM_bind.
    by destruct (dm_gen_properties_payload print_f (Some ps) (zlen ps) PROPERTY_POST false output s) as [[[? ?] ?]| |].
  - balance.
Qed.
Lemma balanced_register type cb : balanced (uiot_register_for type cb : DM Z).
Proof. unfold uiot_register_for, _dsc_mqtt_register_callback, str. balance. Qed.

(** ** Handlers *)

Context (restore_cb desired_get_cb : CB -> bytes -> Z -> bytes -> DM Z) (set_cb : CB -> bytes -> bytes -> DM Z).
Context (command_cb : CB -> bytes -> bytes -> bytes -> bytes -> DM (Z * bytes)) (reply_cb : CB -> bytes -> Z -> DM Z).
Hypothesis restore_balanced : forall cb id rc v, balanced (restore_cb cb id rc v).
Hypothesis desired_balanced : forall cb id rc v, balanced (desired_get_cb cb id rc v).
Hypothesis set_balanced : forall cb id v, balanced (set_cb cb id v).
Hypothesis command_balanced : forall cb id name v buf, balanced (command_cb cb id name v buf).
Hypothesis reply_balanced : forall cb id rc, balanced (reply_cb cb id rc).

Lemma balanced_handler type message : balanced (dm_handler restore_cb set_cb desired_get_cb command_cb reply_cb type message).
Proof using restore_balanced desired_balanced set_balanced command_balanced reply_balanced.
  destruct type; unfold dm_handler, dm_mqtt_property_restore_cb, dm_mqtt_property_post_cb, dm_mqtt_property_set_cb, set_reply,
    dm_mqtt_property_desired_get_cb, dm_mqtt_property_desired_delete_cb, dm_mqtt_event_post_cb, dm_mqtt_command_cb, command_reply,
    _dm_mqtt_common_reply_cb, if_registered, callback_of, with_message, with_ret_code, str, print_to; balance.
Qed.
Lemma balanced_yield fuel timeout : balanced (IOT_DM_Yield restore_cb set_cb desired_get_cb command_cb reply_cb fuel timeout).
Proof using restore_balanced desired_balanced set_balanced command_balanced reply_balanced.
  pose proof balanced_handler. induction fuel as [|fuel IH]; cbn [IOT_DM_Yield]; [done|]. balance. Qed.
End balance.

(* ================================================================== *)
(** * Texts that do not fit *)

Section limits.
Context {W : Type} `{Channel W} {CB F : Type} (print_f : F -> bytes).
Abbreviation DmSt := (@DmSt W CB).
Abbreviation DM := (@DM W CB).
Implicit Types s : DmSt.
Hypothesis memory : forall n w, 0 <= n -> exists b w', heap_alloc n w = (Some b, w') /\ zlen b = n.

(** The buffer of [size] bytes holds what fits of the text [t]. *)
Definition holds_cut (buf t : bytes) (size : Z) : Prop := holds buf (take (Z.to_nat (size - 1)) t) size.

Lemma snprintf_at_cut buf t total size text : holds buf t total -> 0 < size -> zlen t + size <= total -> size <= zlen text -> nonzero text ->
  exists buf', snprintf_at buf (zlen t) size text = Ok (buf', zlen text) /\ holds buf' (t ++ take (Z.to_nat (size - 1)) text) total.
Proof.
  intros Hh Hp Hs Ht Hn. set (cut := take (Z.to_nat (size - 1)) text).
  assert (zlen cut = size - 1) as Hc by (unfold cut; rewrite length_take; lia).
  assert (nonzero cut) as Hcn by (apply Forall_take; exact Hn).
  destruct (snprintf_at_end buf t total size cut Hh) as (buf' & Hw & Hh'); [lia..|done|]. exists buf'. split; [|done].
  revert Hw. unfold snprintf_at. rewrite !decide_False by lia. rewrite snprintf_fits by lia.
  replace (snprintf (Z.min size (zlen text + 1)) text) with cut by (unfold snprintf, cut; do 2 f_equal; lia).
  destruct (write_at buf (zlen t) (cut ++ [0])); [|done..]. cbn [mbind res_bind]. by intros [= ->].
Qed.
Lemma print_to_cut buf size t s : 0 < size -> zlen buf = size -> size <= zlen t -> nonzero t ->
  exists buf', print_to buf size t s = Done ((buf', zlen t), s) /\ holds_cut buf' t size.
Proof.
  intros Hp Hb Hl Hn. set (cut := take (Z.to_nat (size - 1)) t).
  assert (zlen cut = size - 1) as Hc by (unfold cut; rewrite length_take; lia).
  destruct (print_to_run buf size cut s) as (buf' & Hr & Hh); [lia|by apply Forall_take|]. rewrite Hb in Hh.
  exists buf'. split; [|done]. revert Hr. unfold print_to, snprintf_at. rewrite !decide_False by lia. rewrite snprintf_fits by lia.
  replace (snprintf (Z.min size (zlen t + 1)) t) with cut by (unfold snprintf, cut; do 2 f_equal; lia).
  destruct (write_at buf 0 (cut ++ [0])); [|done..]. cbn [mbind res_bind must]. unfold mret, DM_ret. by intros [= ->].
Qed.

(** ** The loop over properties *)

Section loop.
Context {A : Type} (gen : A -> bytes -> DM (bytes * Z)).
Abbreviation loop_over items num := (element_loop gen [] [] items num).

Lemma loop_prefix pre rest num num' n : forall k payload item remain s, (Z.to_nat k + n <= length pre)%nat -> 0 <= k ->
  loop_over (pre ++ rest) num n k payload item remain s = loop_over pre num' n k payload item remain s.
Proof.
  induction n as [|n IH]; intros k payload item remain s Hk Hk0; [done|]. cbn [element_loop].
  rewrite lookup_app_l by lia. destruct (pre !! Z.to_nat k) as [x|]; [|done]. cbn [found].
  rewrite !(dm_bind _ _ _ x s) by done. unfold mbind, DM_bind. destruct (gen x item s) as [[[item' ret] s1]| |]; [|done..].
  case_decide; [done|]. destruct (str item' s1) as [[t s2]| |]; [|done..].
  replace (if decide (k = num - 1) then [] else []) with (@nil Z) by by case_decide.
  replace (if decide (k = num' - 1) then [] else []) with (@nil Z) by by case_decide.
  match goal with |- match ?m with Done _ => _ | Undefined => _ | Unfinished => _ end = _ => destruct m as [[[p r] s3]| |] end; [|done..].
  apply IH; lia.
Qed.
Lemma loop_split items num n m : forall k payload item remain s p' i' r' s',
  loop_over items num n k payload item remain s = Done ((p', i', r', SUCCESS_RET), s') ->
  loop_over items num (n + m) k payload item remain s = loop_over items num m (k + Z.of_nat n) p' i' r' s'.
Proof.
  induction n as [|n IH]; intros k payload item remain s p' i' r' s'; cbn [element_loop Nat.add].
  - intros [= -> -> -> ->]. by rewrite Z.add_0_r.
  - unfold mbind, DM_bind. destruct (found _ s) as [[x s0]| |]; [|done..]. destruct (gen x item s0) as [[[item' ret] s1]| |]; [|done..].
    case_decide as Hret; [by intros [= -> -> -> -> ->]|]. destruct (str item' s1) as [[t s2]| |]; [|done..].
    match goal with |- context [match ?m with Done _ => _ | Undefined => _ | Unfinished => _ end = Done _ -> _] => destruct m as [[[p r] s3]| |] end; [|done..].
    intros Hr. rewrite (IH _ _ _ _ _ _ _ _ _ Hr). f_equal. lia.
Qed.
End loop.

(** One more property behind those that fit: what the loop does with it. *)
Lemma loop_last {A} (gen : A -> bytes -> DM (bytes * Z)) pre tpre x t num payload item s :
  Forall2 (fun x t => writes (gen x) t) pre tpre -> pre <> [] -> zlen (joined tpre) < DM_MSG_REPORT_BUF_LEN ->
  writes (gen x) t -> DM_MSG_REPORT_BUF_LEN <= zlen (joined (tpre ++ [t])) ->
  zlen payload = DM_MSG_REPORT_BUF_LEN -> zlen item = DM_MSG_REPORT_BUF_LEN -> forall rest,
  exists payload' item' s', 
    element_loop gen [] [] (pre ++ x :: rest) num (S (length pre)) 0 payload item 0 s =
      Done ((payload', item', DM_MSG_REPORT_BUF_LEN - zlen (joined (tpre ++ [t])), SUCCESS_RET), s') /\
    same s s' /\ zlen item' = DM_MSG_REPORT_BUF_LEN /\ holds_cut payload' (joined (tpre ++ [t])) DM_MSG_REPORT_BUF_LEN.
Proof.
  intros Hg Hne Hfit Hx Hover Hp Hi rest.
  destruct (element_loop_all gen [] [] pre tpre Hg) with (payload := payload) (item := item) (s := s)
    as (p1 & i1 & r1 & s1 & Hr & Hs1 & Hr1 & Hh & Hi1); [by rewrite app_nil_r|constructor|constructor|done|by left|done|done|].
  cbn [app] in Hr1, Hh. rewrite app_nil_r in Hr1, Hh.
  rewrite <- (loop_prefix gen pre (x :: rest) num (zlen pre)) in Hr by lia.
  replace (S (length pre)) with (length pre + 1)%nat by lia. rewrite (loop_split _ _ _ _ _ _ _ _ _ _ _ _ _ _ Hr).
  cbn [element_loop]. rewrite (dm_bind _ _ _ x s1) by (apply found_some; apply list_lookup_middle; lia).
  destruct (Hx i1 s1 Hi1) as (i2 & s2 & Hgx & Hs2 & Hh2). rewrite (dm_bind _ _ _ _ _ Hgx). rewrite decide_False by auto.
  rewrite (dm_bind _ _ _ _ _ (str_run _ _ _ _ Hh2)).
  assert (pre <> [] -> (0 < length pre)%nat) as Hpos by (destruct pre; [done|cbn; lia]). specialize (Hpos Hne).
  rewrite (decide_False (P := 0 + Z.of_nat (length pre) = 0)) by lia.
  replace (if decide (0 + Z.of_nat (length pre) = num - 1) then [] else []) with (@nil Z) by by case_decide.
  rewrite app_nil_r. assert (tpre <> []) as Htne by (intros ->; by apply Forall2_nil_inv_r in Hg).
  rewrite joined_snoc in Hover |- * by done. pose proof (holds_len _ _ _ Hh) as Hj. pose proof Hh2 as (_ & _ & Hi2 & Htn).
  rewrite length_app in Hover. cbn [length] in Hover. change (bytes_of ", " ++ t) with (44 :: 32 :: t).
  destruct (snprintf_at_cut p1 (joined tpre) DM_MSG_REPORT_BUF_LEN r1 (44 :: 32 :: t) Hh) as (p2 & Hw & Hh');
    [lia|lia|cbn [length]; lia|by repeat (constructor; [done|])|].
  assert (append_to p1 r1 (44 :: 32 :: t) s2 = Done ((p2, zlen (44 :: 32 :: t)), s2)) as Ha.
  { unfold append_to. rewrite (dm_bind _ _ _ (length (joined tpre)) s2) by by rewrite (holds_strlen _ _ _ Hh).
    rewrite u32_small by (unfold DM_MSG_REPORT_BUF_LEN in *; lia). by rewrite Hw. }
  match goal with |- context [(?m ≫= ?f) s2] => rewrite (dm_bind m f s2 (p2, r1 - zlen (44 :: 32 :: t)) s2) by by rewrite (dm_bind _ _ _ _ _ Ha) end.
  exists p2, i2, s2. split_and!.
  - assert (r1 - zlen (44 :: 32 :: t) = DM_MSG_REPORT_BUF_LEN - zlen (joined tpre ++ 44 :: 32 :: t)) as E.
    { rewrite length_app. cbn [length]. lia. }
    by rewrite E.
  - by eapply same_trans.
  - done.
  - unfold holds_cut. replace (take (Z.to_nat (DM_MSG_REPORT_BUF_LEN - 1)) (joined tpre ++ 44 :: 32 :: t))
      with (joined tpre ++ take (Z.to_nat (r1 - 1)) (44 :: 32 :: t)); [done|].
    rewrite take_app_ge by lia. do 2 f_equal. lia.
Qed.

Section properties.
Context (type : DM_Type) (vk : bool) (pre : list (DM_Property_t F)) (tpre : list bytes) (x : DM_Property_t F) (t : bytes).
Abbreviation gen := (gen_property print_f type vk : DM_Property_t F -> bytes -> DM (bytes * Z)).
Hypothesis pre_writes : Forall2 (fun p t => writes (gen p) t) pre tpre.
Hypothesis pre_some : pre <> [].
Hypothesis pre_fits : zlen (joined tpre) < DM_MSG_REPORT_BUF_LEN.
Hypothesis x_writes : writes (gen x) t.
Abbreviation all := (joined (tpre ++ [t])).
Definition run (ps : list (DM_Property_t F)) buf s : outcome (bytes * Z * DmSt) :=
  dm_gen_properties_payload print_f (Some ps) (zlen ps) type vk buf s.

Lemma properties_block n (ps : list (DM_Property_t F)) buf s : length ps = n -> exists item s1, zlen item = DM_MSG_REPORT_BUF_LEN /\ handle s1 = handle s /\ live s1 = live s + 1 /\
  dm_events s1 = dm_events s /\
  run ps buf s =
    match element_loop gen [] [] ps (zlen ps) n 0 buf item 0 s1 with
    | Done ((p, _, remain, ret), s2) => Done ((p, if decide (ret <> SUCCESS_RET) then ret else if decide (remain < 0) then FAILURE_RET else SUCCESS_RET),
        mkDmSt (handle s2) (channel s2) (live s2 - 1) (dm_events s2))
    | Undefined => Undefined
    | Unfinished => Unfinished
    end.
Proof using memory.
  intros <-. unfold run. cbn [dm_gen_properties_payload].
  match goal with |- context [with_block ?n ?f ?b s] => destruct (with_block_run memory n f b s) as (item & s1 & Hi & H1 & H2 & H3 & E); [done|] end.
  exists item, s1. split_and!; [done..|]. rewrite E, Nat2Z.id. unfold mbind at 1, DM_bind at 1.
  destruct (element_loop _ _ _ _ _ _ _ _ _ _ s1) as [[[[[p i] r] ret] s2]| |]; [|done..]. by case_decide.
Qed.

Lemma properties_over buf s : zlen buf = DM_MSG_REPORT_BUF_LEN -> DM_MSG_REPORT_BUF_LEN <= zlen all ->
  exists buf' s', run (pre ++ [x]) buf s =
      Done ((buf', if decide (DM_MSG_REPORT_BUF_LEN < zlen all) then FAILURE_RET else SUCCESS_RET), s') /\
    same s s' /\ holds_cut buf' all DM_MSG_REPORT_BUF_LEN.
Proof using All.
  intros Hb Ho. destruct (properties_block (S (length pre)) (pre ++ [x]) buf s) as (item & s1 & Hi & E1 & E2 & E3 & ->);
    [rewrite length_app; cbn; lia|].
  destruct (loop_last gen pre tpre x t (zlen (pre ++ [x])) buf item s1 pre_writes pre_some pre_fits x_writes Ho Hb Hi [])
    as (p & i & s2 & Hr & (S1 & S2 & S3) & _ & Hh).
  rewrite Hr. rewrite decide_False by auto.
  eexists p, _. split; [|split; [|exact Hh]].
  - do 2 f_equal. f_equal. repeat case_decide; lia || done.
  - split_and!; cbn; congruence || lia.
Qed.
Lemma properties_beyond buf s y u rest : zlen buf = DM_MSG_REPORT_BUF_LEN -> DM_MSG_REPORT_BUF_LEN < zlen all -> writes (gen y) u ->
  run (pre ++ x :: y :: rest) buf s = Undefined.
Proof using All.
  intros Hb Ho Hy. destruct (properties_block (S (length pre) + S (length rest)) (pre ++ x :: y :: rest) buf s) as (item & s1 & Hi & _ & _ & _ & ->);
    [rewrite length_app; cbn; lia|].
  destruct (loop_last gen pre tpre x t (zlen (pre ++ x :: y :: rest)) buf item s1 pre_writes pre_some pre_fits x_writes
    (Z.lt_le_incl _ _ Ho) Hb Hi (y :: rest)) as (p & i & s2 & Hr & _ & Hi2 & Hh).
  rewrite (loop_split gen _ _ _ _ _ _ _ _ _ _ _ _ _ Hr). cbn [element_loop].
  rewrite (dm_bind _ _ _ y s2).
  2: { apply found_some. replace (Z.to_nat _) with (length (pre ++ [x])) by (rewrite length_app; cbn [length]; lia).
       replace (pre ++ x :: y :: rest) with ((pre ++ [x]) ++ y :: rest) by by rewrite <- app_assoc. by apply list_lookup_middle. }
  destruct (Hy i s2 Hi2) as (i3 & s3 & Hg & _ & Hh3). rewrite (dm_bind _ _ _ _ _ Hg). rewrite decide_False by auto.
  rewrite (dm_bind _ _ _ _ _ (str_run _ _ _ _ Hh3)). rewrite decide_False by lia.
  replace (if decide (_ = _) then [] else []) with (@nil Z) by by case_decide. rewrite app_nil_r.
  assert (tpre <> []) as Htne by (intros ->; by apply Forall2_nil_inv_r in pre_writes).
  destruct (x_writes item s1 Hi) as (? & ? & _ & _ & Ht%holds_len). pose proof (holds_len _ _ _ Hh3) as Hu.
  assert (zlen all = zlen (joined tpre) + 2 + zlen t) as Hall by (rewrite joined_snoc by done; rewrite length_app; cbn [length]; lia).
  assert (append_to p (DM_MSG_REPORT_BUF_LEN - zlen all) (bytes_of ", " ++ u) s3 = Undefined) as Ha; [|unfold mbind, DM_bind; by rewrite Ha].
  set (cut := take (Z.to_nat (DM_MSG_REPORT_BUF_LEN - 1)) all) in *.
  assert (zlen cut = DM_MSG_REPORT_BUF_LEN - 1) as Hcut by (unfold cut; rewrite length_take; unfold DM_MSG_REPORT_BUF_LEN in *; lia).
  unfold append_to. unfold holds_cut in Hh. fold cut in Hh. rewrite (dm_bind _ _ _ (length cut) s3) by by rewrite (holds_strlen _ _ _ Hh).
  change (bytes_of ", " ++ u) with (44 :: 32 :: u).
  rewrite (snprintf_at_over p cut DM_MSG_REPORT_BUF_LEN); [done|done| |cbn [length]; lia].
  replace (u32 (DM_MSG_REPORT_BUF_LEN - zlen all)) with (4294967296 + DM_MSG_REPORT_BUF_LEN - zlen all); [cbn [length]; unfold DM_MSG_REPORT_BUF_LEN in *; lia|].
  unfold u32. change (2 ^ 32) with 4294967296. apply Z.mod_unique_pos with (-1); unfold DM_MSG_REPORT_BUF_LEN in *; lia.
Qed.
End properties.

(** A single element of a structure or array is not checked. *)
Lemma single_element {A} (gen : A -> bytes -> DM (bytes * Z)) opening closing x t buf s : writes (gen x) t ->
  zlen buf = DM_MSG_REPORT_BUF_LEN -> DM_MSG_REPORT_BUF_LEN <= zlen (opening ++ t ++ closing) -> nonzero (opening ++ t ++ closing) ->
  exists buf' s', gen_elements gen opening closing [x] 1 buf s = Done ((buf', SUCCESS_RET), s') /\ same s s' /\
    holds_cut buf' (opening ++ t ++ closing) DM_MSG_REPORT_BUF_LEN.
Proof using memory.
  intros Hg Hb Hl Hn. apply with_block_writes; [exact memory|done|]. intros item s1 Hi. rewrite decide_True by done.
  rewrite (dm_bind _ _ _ x s1) by done. destruct (Hg item s1 Hi) as (i2 & s2 & Hr & Hs & Hh). rewrite (dm_bind _ _ _ _ _ Hr).
  rewrite decide_False by auto. rewrite (dm_bind _ _ _ _ _ (str_run _ _ _ _ Hh)).
  destruct (print_to_cut buf DM_MSG_REPORT_BUF_LEN (opening ++ t ++ closing) s2) as (b & Hp & Hhb); [done..|].
  rewrite (dm_bind _ _ _ _ _ Hp). by exists b, s2.
Qed.

(** ** Requests that cannot be made *)

Lemma block_undefined {A} size (failure : A) body s : 0 <= size ->
  (forall b s1, zlen b = size -> handle s1 = handle s -> body b s1 = Undefined) -> with_block size failure body s = Undefined.
Proof using memory.
  intros Hs Hb. destruct (with_block_run memory size failure body s Hs) as (b & s1 & Hl & Hh & _ & _ & ->). by rewrite Hb.
Qed.
Lemma no_topic buf n t s : t = None \/ t = Some (upstream_topic_template COMMAND) ->
  _dm_mqtt_gen_topic_name buf n t s = (Undefined : outcome (bytes * Z * DmSt)).
Proof. unfold _dm_mqtt_gen_topic_name. rewrite (dm_bind _ _ _ (handle s) s) by done. by intros [->| ->]. Qed.
Lemma report_unregistered type id payload s :
  upstream_topic_templates (handle s) type = None \/ upstream_topic_templates (handle s) type = Some (upstream_topic_template COMMAND) ->
  IOT_DM_Property_Report type id payload s = (Undefined : outcome (Z * DmSt)).
Proof using memory.
  intros Ht. apply block_undefined; [done|]. intros msg s1 _ E1. apply block_undefined; [done|]. intros topic s2 _ E2.
  rewrite (dm_bind _ _ _ (handle s2) s2) by done. unfold mbind, DM_bind. rewrite no_topic; [done|]. by rewrite E2, E1.
Qed.
Lemma event_unregistered id name payload s : upstream_topic_templates (handle s) EVENT_POST = None ->
  IOT_DM_TriggerEvent id name payload s = (Undefined : outcome (Z * DmSt)).
Proof using memory.
  intros Ht. apply block_undefined; [done|]. intros msg s1 _ E1. apply block_undefined; [done|]. intros topic s2 _ E2.
  rewrite (dm_bind _ _ _ (handle s2) s2) by done. unfold mbind, DM_bind. rewrite no_topic; [done|]. left. by rewrite E2, E1.
Qed.
Lemma report_refused type id payload s name : type = PROPERTY_SET \/ type = EVENT_POST -> topic_of s type name ->
  exists s', IOT_DM_Property_Report type id payload s = Done (FAILURE_RET, s') /\ same s s'.
Proof using memory.
  intros Ht Htop. destruct (with_block_same memory DM_MSG_REPORT_BUF_LEN FAILURE_RET (fun msg_report =>
    with_block DM_TOPIC_BUF_LEN FAILURE_RET (fun topic =>
      h ← gets handle;
      '(topic, ret) ← _dm_mqtt_gen_topic_name topic DM_TOPIC_BUF_LEN (upstream_topic_templates h type);
      if decide (ret <> SUCCESS_RET) then mret FAILURE_RET
      else
        '(msg_report, ret) ← _dm_mqtt_gen_property_payload msg_report DM_MSG_REPORT_BUF_LEN type id payload;
        if decide (ret < 0) then mret FAILURE_RET else _dm_mqtt_publish topic 1 msg_report)) s (fun r => r = FAILURE_RET))
    as (r & s' & Hr & Hs & ->); [done| |by exists s'].
  intros msg s1 _ (E1 & _). cbn [handle] in E1. apply (with_block_same memory); [done|]. intros topic s2 Hl (E2 & _). cbn [handle] in E2.
  rewrite (dm_bind _ _ _ (handle s2) s2) by done.
  destruct (gen_topic_run topic s2 type name) as (topic' & Hr & _); [unfold topic_of; by rewrite E2, E1|done|].
  rewrite (dm_bind _ _ _ _ _ Hr). rewrite decide_False by auto. exists FAILURE_RET, s2.
  unfold _dm_mqtt_gen_property_payload. by destruct Ht as [-> | ->].
Qed.

(** No property: the text is what the block held before. *)
Lemma no_properties type vk buf s :
  exists s', dm_gen_properties_payload print_f (Some []) 0 type vk buf s = Done ((buf, SUCCESS_RET), s') /\ same s s'.
Proof using memory.
  destruct (properties_block type vk 0 [] buf s eq_refl) as (item & s1 & _ & E1 & E2 & E3 & E). unfold run in E. cbn [length] in E.
  change (Z.of_nat 0) with 0 in E. rewrite E. eexists. split; [done|]. split_and!; cbn; congruence || lia.
Qed.

(** The reply to a command may be one byte too long for its buffer. *)
Lemma command_reply_cut id r identifier o obuf osize s name template : upstream_topic_templates (handle s) COMMAND = Some template ->
  format_s template [dm_product_sn (handle s); dm_device_sn (handle s); id] = Ok name -> zlen name < DM_TOPIC_BUF_LEN -> nonzero name ->
  holds obuf o osize ->
  let t := q "{`RequestID`: `" ++ id ++ q "`, `RetCode`: " ++ dec (s32 r) ++ q ", `Identifier`: `" ++ identifier ++ q "`, `Output`: {" ++ o ++ q "}}" in
  nonzero t -> zlen t = DM_CMD_REPLY_BUF_LEN ->
  exists ret s', command_reply id identifier r obuf s = Done (tt, s') /\ published name (take (Z.to_nat (DM_CMD_REPLY_BUF_LEN - 1)) t) s ret s'.
Proof using memory.
  intros Htpl Hname Hnl Hnn Ho t Hn Hl. unfold command_reply.
  apply (block_then memory); [done|]. intros msg s1 Hmsg E1. apply (block_then memory); [done|]. intros topic s2 Htopic E2.
  rewrite (dm_bind _ _ _ (handle s2) s2) by done.
  rewrite E2, E1, Htpl. rewrite (dm_bind _ _ _ template s2) by done. rewrite (dm_bind _ _ _ name s2) by by apply must_ok.
  destruct (print_to_run topic DM_TOPIC_BUF_LEN name s2) as (topic' & Hr & Hh); [lia|done|].
  rewrite (dm_bind _ _ _ _ _ Hr). rewrite decide_False by lia. rewrite (dm_bind _ _ _ _ _ (str_run _ _ _ _ Ho)).
  destruct (print_to_cut msg DM_CMD_REPLY_BUF_LEN t s2) as (msg' & Hp & Hh'); [done|done|lia|done|].
  fold t. rewrite (dm_bind _ _ _ _ _ Hp). rewrite decide_False by lia. by eapply publish_tail.
Qed.
End limits.

(* ================================================================== *)
(** * The claims *)

(** The calls of an application. *)
Inductive dm_call (CB F : Type) :=
  | Register_For (type : DM_Type) (cb : option CB)
  | Property_Report (type : DM_Type) (request_id : Z) (payload : option bytes)
  | Property_ReportEx (type : DM_Type) (request_id : Z) (properties : list (DM_Property_t F))
  | TriggerEvent (request_id : Z) (identifier : bytes) (payload : option bytes)
  | TriggerEventEx (request_id : Z) (event : DM_Event_t F)
  | GenCommandOutput (output : option bytes) (properties : list (DM_Property_t F))
  | Yield_For (fuel : nat) (timeout_ms : Z).
Arguments Register_For {CB F} _ _.
Arguments Property_Report {CB F} _ _ _.
Arguments Property_ReportEx {CB F} _ _ _.
Arguments TriggerEvent {CB F} _ _ _.
Arguments TriggerEventEx {CB F} _ _.
Arguments GenCommandOutput {CB F} _ _.
Arguments Yield_For {CB F} _ _.

Section program.
Context {W : Type} `{Channel W} {CB F : Type} (print_f : F -> bytes).
Abbreviation DM := (@DM W CB).
Context (restore_cb desired_get_cb : CB -> bytes -> Z -> bytes -> DM Z) (set_cb : CB -> bytes -> bytes -> DM Z).
Context (command_cb : CB -> bytes -> bytes -> bytes -> bytes -> DM (Z * bytes)) (reply_cb : CB -> bytes -> Z -> DM Z).

Definition dm_do (c : dm_call CB F) : DM unit :=
  match c with
  | Register_For type cb => uiot_register_for type cb;; mret tt
  | Property_Report type id payload => IOT_DM_Property_Report type id payload;; mret tt
  | Property_ReportEx type id ps => IOT_DM_Property_ReportEx print_f type id ps;; mret tt
  | TriggerEvent id name payload => IOT_DM_TriggerEvent id name payload;; mret tt
  | TriggerEventEx id event => IOT_DM_TriggerEventEx print_f id event;; mret tt
  | GenCommandOutput output ps => IOT_DM_GenCommandOutput print_f output ps;; mret tt
  | Yield_For fuel timeout => IOT_DM_Yield restore_cb set_cb desired_get_cb command_cb reply_cb fuel timeout;; mret tt
  end.
Fixpoint dm_program (cs : list (dm_call CB F)) : DM unit :=
  match cs with [] => mret tt | c :: cs => dm_do c;; dm_program cs end.

Lemma balanced_program cs :
  (forall cb id rc v, balanced (restore_cb cb id rc v)) -> (forall cb id rc v, balanced (desired_get_cb cb id rc v)) ->
  (forall cb id v, balanced (set_cb cb id v)) -> (forall cb id name v buf, balanced (command_cb cb id name v buf)) ->
  (forall cb id rc, balanced (reply_cb cb id rc)) -> balanced (dm_program cs).
Proof.
  intros. induction cs as [|c cs IH]; [apply balanced_ret|]. apply balanced_bind; [|by intros _].
  destruct c; (apply balanced_bind; [|intros ?; apply balanced_ret]).
  - apply balanced_register.
  - apply balanced_report.
  - apply balanced_report_ex.
  - apply balanced_event.
  - apply balanced_event_ex.
  - apply balanced_output.
  - by apply balanced_yield.
Qed.
End program.

(** C26: Every block is freed.  Whatever the application calls, whatever
    messages come and whichever allocations fail, a device model that was
    initialised and is destroyed leaves no block behind, and in between it
    keeps the two blocks of its handle alone; the callbacks may themselves call
    the device model. *)
Theorem dm_no_leak {W} `{Channel W} {CB F} (print_f : F -> bytes) restore_cb desired_get_cb set_cb command_cb reply_cb
    psn dsn (w w' : W) (s s1 s2 : @DmSt W CB) r (cs : list (dm_call CB F)) :
  (forall cb id rc v, balanced (restore_cb cb id rc v)) -> (forall cb id rc v, balanced (desired_get_cb cb id rc v)) ->
  (forall cb id v, balanced (set_cb cb id v)) -> (forall cb id name v buf, balanced (command_cb cb id name v buf)) ->
  (forall cb id rc, balanced (reply_cb cb id rc)) ->
  IOT_DM_Init psn dsn w = (Some s, w') ->
  dm_program print_f restore_cb desired_get_cb set_cb command_cb reply_cb cs s = Done (tt, s1) ->
  IOT_DM_Destroy s1 = Done (r, s2) ->
  live s = 2 /\ live s1 = 2 /\ live s2 = 0.
Proof.
  intros H1 H2 H3 H4 H5 Hinit Hrun Hdestroy.
  assert (live s = 2) as Hs.
  { revert Hinit. unfold IOT_DM_Init. destruct psn, dsn; try done. destruct (heap_alloc sizeof_dm w) as [[b|] w1]; [|done].
    destruct (heap_alloc sizeof_dm_mqtt w1) as [[b'|] w2]; [|done]. by intros [= <- <-]. }
  assert (live s1 = 2) as Hs1 by (rewrite <- Hs; by eapply (balanced_program print_f restore_cb desired_get_cb set_cb command_cb reply_cb cs)).
  split_and!; [done|done|]. unfold IOT_DM_Destroy in Hdestroy. cbn in Hdestroy. injection Hdestroy as <- <-. cbn. lia.
Qed.

(** The lamp registers, reports, receives a command and another message, and a
    callback reports in turn. *)
Definition lamp_calls : list (dm_call Z bytes) :=
  [Register_For PROPERTY_POST (Some 1); Register_For COMMAND (Some 2); Property_ReportEx PROPERTY_POST 42 [temp_prop; lamp_prop];
   Yield_For 5 100].
Definition lamp_mail : DmWorld := mkDw [(COMMAND, print told_command); (PROPERTY_POST, q "{`RequestID`:`42`,`RetCode`:0}"); (EVENT_POST, [])].
Definition report_again (cb : Z) (id : bytes) (rc : Z) : @DM DmWorld Z Z := IOT_DM_Property_ReportEx (fun f => f) PROPERTY_POST 43 [plan_prop].
Lemma dm_no_leak_witness : exists s s1 s2 : @DmSt DmWorld Z,
  IOT_DM_Init (Some (bytes_of "psn")) (Some (bytes_of "dsn")) lamp_mail = (Some s, lamp_mail) /\
  zlen (dm_events s1) = 5 /\ live s1 = 2 /\ live s2 = 0.
Proof.
  set (s := mkDmSt (mkDMMqtt (bytes_of "psn") (bytes_of "dsn") (fun _ => None) (fun _ => None) (fun _ => None)) lamp_mail 2 [] : @DmSt DmWorld Z).
  set (run := dm_program (fun f => f) (fun cb id rc v => mret 0) (fun cb id rc v => mret 0) (fun cb id v => mret 0)
    (fun cb id name v buf => mret (0, q "`level`: 40" ++ [0])) report_again lamp_calls).
  assert (match run s with Done (_, s1) => Some (zlen (dm_events s1)) | _ => None end = Some 5) as He by (vm_compute; reflexivity).
  destruct (run s) as [[[] s1]| |] eqn:Hrun; [|discriminate He..]. injection He as He.
  assert (exists s2, IOT_DM_Destroy s1 = Done (SUCCESS_RET, s2)) as [s2 Hd] by by eexists.
  exists s, s1, s2. destruct (dm_no_leak (fun f => f) (fun cb id rc v => mret 0) (fun cb id rc v => mret 0) (fun cb id v => mret 0)
    (fun cb id name v buf => mret (0, q "`level`: 40" ++ [0])) report_again (Some (bytes_of "psn")) (Some (bytes_of "dsn"))
    lamp_mail lamp_mail s s1 s2 SUCCESS_RET lamp_calls) as (_ & Hl1 & Hl2);
    [intros; apply balanced_ret..|intros; apply balanced_report_ex|done|exact Hrun|exact Hd|].
  split_and!; [reflexivity|exact He|exact Hl1|exact Hl2].
Defined.

(** C27: What the device model does with requests that do not fit or cannot be
    made, with memory.  (1) Properties of which all but the last fit the
    buffer of 2048 bytes: if the text of all is longer the generator fails, if it is
    exactly as long as the buffer the last character is cut off and the
    generator succeeds; but if another property follows behind a text that is longer,
    it is written outside the buffer (the room left is negative, and
    taken as a huge size).  (2) The only element of a structure or array is cut off
    where the buffer ends, and the generator succeeds.  (3) A request with no
    property sends what the block held before.  (4) A request of a kind that
    was not registered, or a report of the kind COMMAND, reads a format or an
    argument that is not there; reports of the kinds PROPERTY_SET and EVENT_POST
    are refused.  (5) The reply to a command that is one byte too long is sent
    without its last character. *)
Theorem dm_payload_limits {W} `{Channel W} {CB F} (print_f : F -> bytes) (s : @DmSt W CB) :
  (forall n w, 0 <= n -> exists b w', heap_alloc n w = (Some b, w') /\ zlen b = n) ->
  (forall type vk pre tpre x t buf, Forall2 (fun p t => writes (gen_property print_f type vk p : bytes -> @DM W CB (bytes * Z)) t) pre tpre ->
    pre <> [] -> zlen (joined tpre) < DM_MSG_REPORT_BUF_LEN -> writes (gen_property print_f type vk x : bytes -> @DM W CB (bytes * Z)) t ->
    zlen buf = DM_MSG_REPORT_BUF_LEN ->
    let text := joined (tpre ++ [t]) in
    let generate ps := dm_gen_properties_payload print_f (Some ps) (zlen ps) type vk buf s in
    (DM_MSG_REPORT_BUF_LEN <= zlen text -> exists buf' s',
      generate (pre ++ [x]) = Done ((buf', if decide (DM_MSG_REPORT_BUF_LEN < zlen text) then FAILURE_RET else SUCCESS_RET), s') /\
      same s s' /\ holds_cut buf' text DM_MSG_REPORT_BUF_LEN) /\
    (DM_MSG_REPORT_BUF_LEN < zlen text -> forall y u rest, writes (gen_property print_f type vk y : bytes -> @DM W CB (bytes * Z)) u ->
      generate (pre ++ x :: y :: rest) = Undefined)) /\
  (forall A (gen : A -> bytes -> @DM W CB (bytes * Z)) opening closing x t buf, writes (gen x) t -> zlen buf = DM_MSG_REPORT_BUF_LEN ->
    DM_MSG_REPORT_BUF_LEN <= zlen (opening ++ t ++ closing) -> nonzero (opening ++ t ++ closing) ->
    exists buf' s', gen_elements gen opening closing [x] 1 buf s = Done ((buf', SUCCESS_RET), s') /\ same s s' /\
      holds_cut buf' (opening ++ t ++ closing) DM_MSG_REPORT_BUF_LEN) /\
  (forall type vk buf, exists s', dm_gen_properties_payload print_f (Some []) 0 type vk buf s = Done ((buf, SUCCESS_RET), s') /\ same s s') /\
  (forall id payload,
    (forall type, upstream_topic_templates (handle s) type = None \/
        upstream_topic_templates (handle s) type = Some (upstream_topic_template COMMAND) ->
      IOT_DM_Property_Report type id payload s = Undefined) /\
    (forall type name, type = PROPERTY_SET \/ type = EVENT_POST -> topic_of s type name ->
      exists s', IOT_DM_Property_Report type id payload s = Done (FAILURE_RET, s') /\ same s s') /\
    (forall name, upstream_topic_templates (handle s) EVENT_POST = None -> IOT_DM_TriggerEvent id name payload s = Undefined)) /\
  (forall id r identifier o obuf osize name template, upstream_topic_templates (handle s) COMMAND = Some template ->
    format_s template [dm_product_sn (handle s); dm_device_sn (handle s); id] = Ok name -> zlen name < DM_TOPIC_BUF_LEN -> nonzero name ->
    holds obuf o osize ->
    let t := q "{`RequestID`: `" ++ id ++ q "`, `RetCode`: " ++ dec (s32 r) ++ q ", `Identifier`: `" ++ identifier ++ q "`, `Output`: {" ++ o ++ q "}}" in
    nonzero t -> zlen t = DM_CMD_REPLY_BUF_LEN ->
    exists ret s', command_reply id identifier r obuf s = Done (tt, s') /\ published name (take (Z.to_nat (DM_CMD_REPLY_BUF_LEN - 1)) t) s ret s').
Proof.
  intros memory. split_and!.
  - intros type vk pre tpre x t buf Hg Hne Hf Hx Hb. split; intros.
    + by apply (properties_over print_f memory type vk pre tpre x t).
    + by eapply (properties_beyond print_f memory type vk pre tpre x t).
  - intros. by apply single_element.
  - intros. by apply no_properties.
  - intros. split_and!; intros.
    + by apply report_unregistered.
    + by eapply report_refused.
    + by apply event_unregistered.
  - intros. by eapply command_reply_cut.
Qed.

(** Three properties of a thousand characters each. *)
Definition long_prop : DM_Property_t bytes :=
  mkProp TYPE_NODE (dm_node (mkNode TYPE_STRING (key "note") (string_value (replicate 1100 65)))) 0.
Definition long_text : bytes := entry_of true (bytes_of "note", JString (replicate 1100 65)).
Lemma dm_payload_limits_witness :
  dm_gen_properties_payload (fun f => f) (Some [long_prop; long_prop; long_prop]) 3 PROPERTY_POST true (replicate 2048 0) (thermostat (mkDw [])) = Undefined.
Proof.
  destruct (dm_payload_limits (fun f : bytes => f) (thermostat (mkDw [])) dw_memory) as (Hlong & _).
  assert (writes (gen_property (fun f => f) PROPERTY_POST true long_prop : bytes -> @DM DmWorld Z (bytes * Z)) long_text) as Hw.
  { apply (writes_property (fun f => f) dw_memory long_prop true); [by split|by vm_compute|by vm_compute]. }
  destruct (Hlong PROPERTY_POST true [long_prop] [long_text] long_prop long_text (replicate 2048 0)) as [_ Hover];
    [by repeat constructor|done|by vm_compute|done|by vm_compute|].
  apply (Hover ltac:(by vm_compute) long_prop long_text []). exact Hw.
Defined.
