(* ===== verification/Shadow.v ===== *)
(** The device shadow ([uiot/shadow/src/shadow_client.c],
    [shadow_client_manager.c], [shadow_client_common.c]): requests to the cloud
    that wait for their reply, and properties whose wanted values the cloud
    sends.

    The application's properties are objects of its own memory, which the
    client points to; its callbacks are arbitrary programs over the same state,
    so that they may call back into the client.  An iterator over a list is the
    next node it will visit; nodes are never given the same name twice, so that
    the use of a node that a callback removed is undefined. *)

From S2P Require Import Prelude Defs HalTimer Json CLib JsonConv ShadowDoc.

(* ================================================================== *)
(** * The environment *)

Inductive RequestAck := ACK_NONE | ACK_TIMEOUT | ACK_REJECTED | ACK_ACCEPTED.
#[export] Instance RequestAck_eq_dec : EqDecision RequestAck.
Proof. solve_decision. Defined.

(** A message for one of the two topics: the bytes from its payload on, and
    the lengths the MQTT client gives. *)
Inductive subscription := Sync | Downstream.
Record message := mkMsg { m_topic_len : Z; m_payload : bytes; m_payload_len : Z }.

(** What the client calls: the clock, the allocator, and the MQTT client.
    [next_message]: the next message that [IOT_MQTT_Yield] hands to a handler,
    or the result of the yield. *)
Class Cloud (W : Type) := {
  cloud_tick : W -> Z * W;
  ms_to_tick : Z -> Z;
  cloud_malloc : W -> bool * W;
  mutex_create : W -> bool * W;
  IOT_MQTT_IsConnected : W -> bool * W;
  IOT_MQTT_Publish : bytes -> Z -> bytes -> W -> Z * W;
  IOT_MQTT_Subscribe : bytes -> Z -> W -> Z * W;
  IOT_MQTT_Unsubscribe : bytes -> W -> Z * W;
  next_message : Z -> W -> (subscription * message + Z) * W
}.

(* ================================================================== *)
(** * The state *)

Definition MAX_APPENDING_REQUEST_AT_ANY_GIVEN_TIME := 10.
Definition CLOUD_IOT_JSON_RX_BUF_LEN := UIOT_MQTT_RX_BUF_LEN + 1.
Definition MAX_WAIT_TIME_SEC := 1.

(** [C], [P]: the functions of the types [OnRequestCallback], [OnPropRegCallback]. *)
Section data.
Context (C P : Type).

(** [Request], but for the pointer to the freed list of properties. *)
Record Request := mkRequest {
  rq_method : Method;
  rq_callback : option C;
  rq_context : Z;
  rq_timer : Z
}.
Record RequestParams := mkRequestParams {
  method : Method;
  property_delta_list : list positive;
  timeout_sec : Z;
  request_callback : option C;
  user_context : Z
}.
Record PropertyHandler := mkPropertyHandler {
  property : positive;
  callback : option P
}.
End data.
Arguments mkRequest {C} _ _ _ _.
Arguments rq_method {C} r.
Arguments rq_callback {C} r.
Arguments rq_context {C} r.
Arguments rq_timer {C} r.
Arguments mkRequestParams {C} _ _ _ _ _.
Arguments method {C} r.
Arguments property_delta_list {C} r.
Arguments timeout_sec {C} r.
Arguments request_callback {C} r.
Arguments user_context {C} r.
Arguments mkPropertyHandler {P} _ _.
Arguments property {P} p.
Arguments callback {P} p.

(** What happens to requests, and what is published. *)
Inductive event (C : Type) :=
  | Noted (node : positive) (r : Request C)
  | Answered (node : positive) (r : Request C) (ack : RequestAck)
  | Published (topic : bytes) (document : bytes).
Arguments Noted {C} node r.
Arguments Answered {C} node r ack.
Arguments Published {C} topic document.

Section state.
Context {W : Type} `{Cloud W} {C P F : Type}.

(** A mutex is its lock count; a list is its sequence of nodes, [None] when it
    is destroyed. *)
Record UIoT_Shadow := mkShadow {
  product_sn : bytes;
  device_sn : bytes;
  version : Z;
  request_list : list (positive * Request C);
  property_list : option (list (positive * PropertyHandler P));
  request_mutex : Z;
  property_mutex : Z
}.

Record SSt := mkSSt {
  shadow : UIoT_Shadow;
  params : gmap positive (RequestParams C);
  objects : gmap positive DeviceProperty;
  memory : gmap positive (cell F);
  cloud_rcv_buf : bytes;
  cloud_send_method : Method;
  world : W;
  next_node : positive;
  events : list (event C)
}.

Definition SM (A : Type) : Type := SSt -> outcome (A * SSt).
#[export] Instance SM_ret : MRet SM := fun A a s => Done (a, s).
#[export] Instance SM_bind : MBind SM := fun A B f m s =>
  match m s with Done (a, s) => f a s | Undefined => Undefined | Unfinished => Unfinished end.

Definition gets {A} (f : SSt -> A) : SM A := fun s => Done (f s, s).
Definition undefined {A} : SM A := fun _ => Undefined.
Definition unfinished {A} : SM A := fun _ => Unfinished.
Definition must {A} (r : res A) : SM A := match r with Ok a => mret a | _ => undefined end.
Definition lift {A} (f : W -> A * W) : SM A := fun s =>
  let '(a, w) := f (world s) in
  Done (a, mkSSt (shadow s) (params s) (objects s) (memory s) (cloud_rcv_buf s) (cloud_send_method s) w (next_node s) (events s)).
Definition malloc : SM bool := lift cloud_malloc.
Definition log (e : event C) : SM unit := fun s =>
  Done (tt, mkSSt (shadow s) (params s) (objects s) (memory s) (cloud_rcv_buf s) (cloud_send_method s) (world s) (next_node s) (e :: events s)).
(** A function of the JSON library on a text, and one that writes a text. *)
Definition json_call {A} (f : bytes -> W -> res (A * W)) (json : bytes) : SM A := fun s =>
  match f json (world s) with
  | Ok (a, w) => Done (a, mkSSt (shadow s) (params s) (objects s) (memory s) (cloud_rcv_buf s) (cloud_send_method s) w (next_node s) (events s))
  | Oob => Undefined
  | Err _ => Unfinished
  end.

Definition modify (f : UIoT_Shadow -> UIoT_Shadow) : SM unit := fun s =>
  Done (tt, mkSSt (f (shadow s)) (params s) (objects s) (memory s) (cloud_rcv_buf s) (cloud_send_method s) (world s) (next_node s) (events s)).
Definition set_version (v : Z) : SM unit := modify (fun h =>
  mkShadow (product_sn h) (device_sn h) v (request_list h) (property_list h) (request_mutex h) (property_mutex h)).
Definition set_request_list (l : list (positive * Request C)) : SM unit := modify (fun h =>
  mkShadow (product_sn h) (device_sn h) (version h) l (property_list h) (request_mutex h) (property_mutex h)).
Definition set_property_list (l : option (list (positive * PropertyHandler P))) : SM unit := modify (fun h =>
  mkShadow (product_sn h) (device_sn h) (version h) (request_list h) l (request_mutex h) (property_mutex h)).
Definition lock_requests (d : Z) : SM unit := modify (fun h =>
  mkShadow (product_sn h) (device_sn h) (version h) (request_list h) (property_list h) (request_mutex h + d) (property_mutex h)).
Definition lock_properties (d : Z) : SM unit := modify (fun h =>
  mkShadow (product_sn h) (device_sn h) (version h) (request_list h) (property_list h) (request_mutex h) (property_mutex h + d)).

Definition set_send_method (m : Method) : SM unit := fun s =>
  Done (tt, mkSSt (shadow s) (params s) (objects s) (memory s) (cloud_rcv_buf s) m (world s) (next_node s) (events s)).
Definition set_rcv_buf (b : bytes) : SM unit := fun s =>
  Done (tt, mkSSt (shadow s) (params s) (objects s) (memory s) b (cloud_send_method s) (world s) (next_node s) (events s)).
Definition set_params (m : gmap positive (RequestParams C)) : SM unit := fun s =>
  Done (tt, mkSSt (shadow s) m (objects s) (memory s) (cloud_rcv_buf s) (cloud_send_method s) (world s) (next_node s) (events s)).
Definition set_object (p : positive) (o : DeviceProperty) : SM unit := fun s =>
  Done (tt, mkSSt (shadow s) (params s) (<[p := o]> (objects s)) (memory s) (cloud_rcv_buf s) (cloud_send_method s) (world s) (next_node s) (events s)).
Definition new_node : SM positive := fun s =>
  Done (next_node s, mkSSt (shadow s) (params s) (objects s) (memory s) (cloud_rcv_buf s) (cloud_send_method s) (world s) (Pos.succ (next_node s)) (events s)).

(** Following a pointer. *)
Definition found {A} (a : option A) : SM A := match a with Some a => mret a | None => undefined end.
Definition object_at (p : positive) : SM DeviceProperty := m ← gets objects; found (m !! p).
Definition params_at (p : positive) : SM (RequestParams C) := m ← gets params; found (m !! p).
Definition properties : SM (list (positive * PropertyHandler P)) := l ← gets (fun s => property_list (shadow s)); found l.

Definition node_at {A} (p : positive) (l : list (positive * A)) : option A :=
  snd <$> List.find (fun n => bool_decide (n.1 = p)) l.
(** [list_remove] of a node of the list. *)
Definition without {A} (p : positive) (l : list (positive * A)) : list (positive * A) :=
  filter (fun n => n.1 <> p) l.

(** The nodes of a list are visited from its tail: the next node is read off
    before the visit of the current one. *)
Fixpoint before (p : positive) (l : list positive) (prev : option positive) : option (option positive) :=
  match l with
  | [] => None
  | x :: l => if decide (x = p) then Some prev else before p l (Some x)
  end.
Fixpoint traverse (fuel : nat) (nodes : SM (list positive)) (visit : positive -> SM unit) (next : option positive) : SM unit :=
  match next with
  | None => mret tt
  | Some curr =>
      match fuel with
      | O => unfinished
      | S fuel =>
          l ← nodes;
          next ← found (before curr l None);
          visit curr;; traverse fuel nodes visit next
      end
  end.
Definition iterate (nodes : SM (list positive)) (visit : positive -> SM unit) : SM unit :=
  l ← nodes; traverse (S (length l)) nodes visit (last l).

(* ================================================================== *)
(** * [shadow_client_common.c] *)

Definition shadow_common_check_property_match (pProperty : positive) (property_handle : PropertyHandler P) : SM bool :=
  property_in_handle ← object_at (property property_handle);
  property_bak ← object_at pProperty;
  a ← found (prop_key property_in_handle);
  b ← found (prop_key property_bak);
  mret (bool_decide (a = b)).

(** [list_find] with that match: [None] also if there is no memory for the iterator. *)
Fixpoint find_loop (pProperty : positive) (nodes : list (positive * PropertyHandler P)) : SM (option (positive * PropertyHandler P)) :=
  match nodes with
  | [] => mret None
  | node :: nodes =>
      same ← shadow_common_check_property_match pProperty node.2;
      if same : bool then mret (Some node) else find_loop pProperty nodes
  end.
Definition list_find (pProperty : positive) : SM (option (positive * PropertyHandler P)) :=
  l ← properties;
  it ← malloc;
  if it : bool then find_loop pProperty l else mret None.

Definition _add_property_handle_to_list (pProperty : positive) (cb : option P) : SM Z :=
  property_handle ← malloc;
  if property_handle : bool then
    node ← malloc;
    if node : bool then
      l ← properties;
      node ← new_node;
      set_property_list (Some (l ++ [(node, mkPropertyHandler pProperty cb)]));; mret SUCCESS_RET
    else mret FAILURE_RET
  else mret FAILURE_RET.

Definition shadow_common_check_property_existence (pProperty : positive) : SM bool :=
  lock_properties 1;;
  node ← list_find pProperty;
  lock_properties (-1);;
  mret (bool_decide (is_Some node)).

Definition shadow_common_update_property (pProperty : positive) (m : Method) : SM Z :=
  lock_properties 1;;
  node ← list_find pProperty;
  ret ←
    match node with
    | None => mret ERR_SHADOW_NOT_PROPERTY_EXIST
    | Some (_, property_handle) =>
        property_bak ← object_at (property property_handle);
        let set_data d := set_object (property property_handle) (mkProperty (prop_key property_bak) d (prop_type property_bak)) in
        match m with
        | UPDATE | REPLY_CONTROL_UPDATE | UPDATE_AND_RESET_VER =>
            o ← object_at pProperty; set_data (prop_data o);; mret SUCCESS_RET
        | DELETE | REPLY_CONTROL_DELETE => set_data None;; mret SUCCESS_RET
        | _ => mret ERR_PARAM_INVALID
        end
    end;
  lock_properties (-1);;
  mret ret.

Definition shadow_common_remove_property (pProperty : positive) : SM Z :=
  lock_properties 1;;
  node ← list_find pProperty;
  ret ←
    match node with
    | None => mret ERR_SHADOW_NOT_PROPERTY_EXIST
    | Some (node, _) => l ← properties; set_property_list (Some (without node l));; mret SUCCESS_RET
    end;
  lock_properties (-1);;
  mret ret.

Definition shadow_common_register_property_on_delta (pProperty : positive) (cb : option P) : SM Z :=
  match cb with
  | None => mret ERR_PARAM_INVALID
  | Some _ =>
      o ← object_at pProperty;
      if decide (prop_key o = None \/ prop_data o = None) then mret ERR_PARAM_INVALID
      else
        lock_properties 1;;
        ret ← _add_property_handle_to_list pProperty cb;
        lock_properties (-1);;
        mret ret
  end.

Definition request_common_add_delta_property (pParams pProperty : positive) : SM Z :=
  o ← object_at pProperty;
  if decide (prop_key o = None) then mret ERR_PARAM_INVALID
  else
    node ← malloc;
    if node : bool then
      r ← params_at pParams;
      m ← gets params;
      set_params (<[pParams := mkRequestParams (method r) (property_delta_list r ++ [pProperty]) (timeout_sec r)
        (request_callback r) (user_context r)]> m);;
      mret SUCCESS_RET
    else mret FAILURE_RET.

(* ================================================================== *)
(** * [shadow_client_manager.c]: requests *)

Definition uiot_shadow_request_init (m : Method) (cb : option C) (timeout : Z) (context : Z) : SM (option positive) :=
  pParams ← malloc;
  if pParams : bool then
    l ← malloc;
    if l : bool then
      p ← new_node;
      ps ← gets params;
      set_params (<[p := mkRequestParams m [] timeout cb context]> ps);; mret (Some p)
    else mret None
  else mret None.

Definition uiot_shadow_request_destory (request : option positive) : SM unit :=
  match request with
  | None => mret tt
  | Some p => params_at p;; ps ← gets params; set_params (delete p ps)
  end.

Definition shadow_add_request_to_list (pParams : positive) : SM Z :=
  lock_requests 1;;
  l ← gets (fun s => request_list (shadow s));
  if decide (zlen l >= MAX_APPENDING_REQUEST_AT_ANY_GIVEN_TIME) then lock_requests (-1);; mret ERR_MAX_APPENDING_REQUEST
  else
    request ← malloc;
    if request : bool then
      r ← params_at pParams;
      now ← lift cloud_tick;
      node ← malloc;
      if node : bool then
        node ← new_node;
        let request := mkRequest (method r) (request_callback r) (user_context r) (countdown ms_to_tick (timeout_sec r) now) in
        set_request_list (l ++ [(node, request)]);;
        log (Noted node request);;
        lock_requests (-1);;
        mret SUCCESS_RET
      else lock_requests (-1);; mret FAILURE_RET
    else lock_requests (-1);; mret FAILURE_RET.

Definition shadow_topic (name : String.string) (h : UIoT_Shadow) : bytes :=
  bytes_of "/$system/" ++ product_sn h ++ [47] ++ device_sn h ++ bytes_of "/shadow/" ++ bytes_of name.

Definition uiot_shadow_publish_operation_to_cloud (m : Method) (pJsonDoc : bytes) : SM Z :=
  h ← gets shadow;
  let topic := shadow_topic (match m with GET => "get" | _ => "upstream" end) h in
  if decide (zlen topic > MAX_SIZE_OF_CLOUD_TOPIC - 1) then mret FAILURE_RET
  else
    set_send_method m;;
    text ← found (cstr pJsonDoc);
    ret ← lift (IOT_MQTT_Publish topic QOS1 text);
    if decide (ret >= 0) then log (Published topic text);; mret SUCCESS_RET else mret FAILURE_RET.

(** A topic that does not fit the array is cut off. *)
Definition uiot_shadow_subscribe_topic (name : String.string) : SM Z :=
  got ← malloc;
  if got : bool then
    h ← gets shadow; lift (IOT_MQTT_Subscribe (snprintf MAX_SIZE_OF_CLOUD_TOPIC (shadow_topic name h)) QOS1)
  else mret FAILURE_RET.
Definition uiot_shadow_unsubscribe_topic (name : String.string) : SM Z :=
  got ← malloc;
  if got : bool then
    h ← gets shadow; lift (IOT_MQTT_Unsubscribe (snprintf MAX_SIZE_OF_CLOUD_TOPIC (shadow_topic name h)))
  else mret FAILURE_RET.

(** Setting the data of every property to NULL. *)
Fixpoint clear_loop (nodes : list (positive * PropertyHandler P)) : SM unit :=
  match nodes with
  | [] => mret tt
  | (_, property_handle) :: nodes =>
      o ← object_at (property property_handle);
      set_object (property property_handle) (mkProperty (prop_key o) None (prop_type o));;
      clear_loop nodes
  end.
Fixpoint update_loop (nodes : list positive) (m : Method) : SM unit :=
  match nodes with
  | [] => mret tt
  | p :: nodes => shadow_common_update_property p m;; update_loop nodes m
  end.
Definition uiot_shadow_update_property (pParams : positive) : SM Z :=
  r ← params_at pParams;
  match method r with
  | DELETE_ALL =>
      lock_properties 1;;
      l ← properties;
      if decide (l = []) then lock_properties (-1);; mret 0
      else
        iter ← malloc;
        if iter : bool then clear_loop (reverse l);; lock_properties (-1);; mret 0
        else mret ERR_PARAM_INVALID
  | m =>
      if decide (property_delta_list r = []) then mret 0
      else
        iter ← malloc;
        if iter : bool then update_loop (reverse (property_delta_list r)) m;; mret 0 else mret ERR_PARAM_INVALID
  end.

Section floats.
Context (print_f : F -> bytes).

(** The properties of a list, behind their pointers. *)
Fixpoint objects_at (ps : list positive) : SM (list DeviceProperty) :=
  match ps with
  | [] => mret []
  | p :: ps => o ← object_at p; os ← objects_at ps; mret (o :: os)
  end.

(** That the request could not be noted is forgotten. *)
Definition uiot_shadow_make_request (pJsonDoc : bytes) (pParams : option positive) : SM Z :=
  match pParams with
  | None => mret ERR_PARAM_INVALID
  | Some p =>
      shadow_add_request_to_list p;;
      r ← params_at p;
      delta ← objects_at (property_delta_list r);
      mem ← gets memory;
      v ← gets (fun s => version (shadow s));
      '(doc, ret) ← json_call (fun buf w =>
        '(doc, ret, w) ← make_document print_f mem cloud_malloc buf (zlen buf) (method r) delta v w; Ok ((doc, ret), w)) pJsonDoc;
      ret ← (if decide (ret <> SUCCESS_RET) then mret ret
             else
               ret ← uiot_shadow_publish_operation_to_cloud (method r) doc;
               if decide (ret <> SUCCESS_RET) then mret ret else uiot_shadow_update_property p);
      uiot_shadow_request_destory (Some p);;
      mret ret
  end.

(* ================================================================== *)
(** * [shadow_client_manager.c]: replies *)

(** The application's callbacks. *)
Context (on_request : C -> Method -> RequestAck -> bytes -> Z -> SM unit).
Context (on_property : P -> option positive -> bytes -> positive -> SM unit).

Definition property_nodes : SM (list positive) := l ← properties; mret (l.*1).
Definition delta_visit (pParams : option positive) (delta_str : bytes) (node : positive) : SM unit :=
  l ← properties;
  property_handle ← found (node_at node l);
  o ← object_at (property property_handle);
  key ← found (prop_key o);
  property_value ← json_call (fun json => find_value_if_key_match cloud_malloc json key) delta_str;
  match property_value, callback property_handle with
  | Some v, Some cb => on_property cb pParams v (property property_handle)
  | _, _ => mret tt
  end.

(** [delta_str] with the bytes behind it. *)
Definition _handle_delta (delta_str : bytes) : SM unit :=
  m ← gets cloud_send_method;
  pParams ← uiot_shadow_request_init
    (match m with DELETE | DELETE_ALL | REPLY_CONTROL_DELETE => REPLY_CONTROL_DELETE | _ => REPLY_CONTROL_UPDATE end)
    None MAX_WAIT_TIME_SEC 0;
  lock_properties 1;;
  l ← properties;
  let make := lock_properties (-1);; uiot_shadow_make_request (replicate (Z.to_nat CLOUD_IOT_JSON_RX_BUF_LEN) 0) pParams;; mret tt in
  if decide (l = []) then make
  else
    iter ← malloc;
    if iter : bool then iterate property_nodes (delta_visit pParams delta_str);; make
    else mret tt.

Definition request_nodes : SM (list positive) := l ← gets (fun s => request_list (shadow s)); mret (l.*1).
Definition request_at (node : positive) : SM (Request C) :=
  l ← gets (fun s => request_list (shadow s)); found (node_at node l).
Definition answer (node : positive) (request : Request C) (status : RequestAck) : SM unit :=
  log (Answered node request status);;
  (match rq_callback request with
   | Some cb => doc ← gets cloud_rcv_buf; on_request cb (rq_method request) status doc (rq_context request)
   | None => mret tt
   end);;
  request_at node;;
  l ← gets (fun s => request_list (shadow s));
  set_request_list (without node l).

(** The status that a reply of the type stands for. *)
Definition reply_status (pType : bytes) : SM RequestAck :=
  if decide (pType = METHOD_GET_REPLY) then mret ACK_ACCEPTED
  else if decide (pType = METHOD_REPLY \/ pType = METHOD_CONTROL) then
    doc ← gets cloud_rcv_buf;
    result_code ← json_call (parse_shadow_payload_retcode_type cloud_malloc) doc;
    mret match result_code with Some c => if decide (c = 0) then ACK_ACCEPTED else ACK_REJECTED | None => ACK_REJECTED end
  else mret ACK_NONE.
Definition _handle_request_callback (pType : bytes) (node : positive) : SM unit :=
  request ← request_at node;
  status ← reply_status pType;
  answer node request status.
Definition _handle_expired_request_callback (node : positive) : SM unit :=
  request ← request_at node;
  now ← lift cloud_tick;
  if has_expired (rq_timer request) now then answer node request ACK_TIMEOUT else mret tt.

Definition _traverse_list (traverseHandle : positive -> SM unit) : SM unit :=
  lock_requests 1;;
  l ← gets (fun s => request_list (shadow s));
  (if decide (l = []) then mret tt
   else
     iter ← malloc;
     if iter : bool then iterate request_nodes traverseHandle else mret tt);;
  lock_requests (-1).
Definition _handle_expired_request : SM unit := _traverse_list _handle_expired_request_callback.

(** Copying the payload and the byte behind it: [None] if it is too long. *)
Definition receive (m : message) : SM (option bytes) :=
  if decide (m_payload_len m > CLOUD_IOT_JSON_RX_BUF_LEN) then mret None
  else
    let cloud_rcv_len := if decide (CLOUD_IOT_JSON_RX_BUF_LEN - 1 < m_payload_len m) then CLOUD_IOT_JSON_RX_BUF_LEN - 1 else m_payload_len m in
    data ← must (slice_at (m_payload m) 0 (cloud_rcv_len + 1));
    buf ← gets cloud_rcv_buf;
    buf ← must (write_at buf 0 data);
    buf ← must (write_at buf cloud_rcv_len [0]);
    set_rcv_buf buf;; mret (Some buf).

Definition desired_part (parse : bytes -> W -> res (option bytes * W)) (doc : bytes) : SM unit :=
  desired_str ← json_call parse doc;
  match desired_str with
  | Some d => if decide (zlen d > 2) then _handle_delta (d ++ [0]) else mret tt
  | None => mret tt
  end.

Definition topic_request_result_handler (m : message) : SM unit :=
  if decide (m_topic_len m <= 0) then mret tt
  else
    doc ← receive m;
    match doc with
    | None => mret tt
    | Some doc =>
        method_str ← json_call (parse_shadow_method_type cloud_malloc) doc;
        match method_str with
        | None => mret tt
        | Some method_str =>
            version_num ← json_call (parse_version_num cloud_malloc) doc;
            match version_num with
            | None => mret tt
            | Some version_num =>
                set_version version_num;;
                if decide (method_str = METHOD_REPLY) then
                  ret_code ← json_call (parse_shadow_payload_retcode_type cloud_malloc) doc;
                  if decide (ret_code = Some 0) then _traverse_list (_handle_request_callback method_str) else mret tt
                else if decide (method_str = METHOD_CONTROL) then
                  desired_part (parse_shadow_payload_state_desired_state cloud_malloc) doc;;
                  _traverse_list (_handle_request_callback method_str)
                else mret tt
            end
        end
    end.

Definition topic_sync_handler (m : message) : SM unit :=
  if decide (m_topic_len m <= 0) then mret tt
  else
    doc ← receive m;
    match doc with
    | None => mret tt
    | Some doc =>
        version_num ← json_call (parse_version_num cloud_malloc) doc;
        match version_num with
        | None => mret tt
        | Some version_num =>
            set_version version_num;;
            desired_part (parse_shadow_state_desired_type cloud_malloc) doc;;
            _traverse_list (_handle_request_callback METHOD_GET_REPLY)
        end
    end.

(* ================================================================== *)
(** * [shadow_client.c] *)

Definition handle_message (t : subscription) (m : message) : SM unit :=
  match t with Sync => topic_sync_handler m | Downstream => topic_request_result_handler m end.
(** [IOT_MQTT_Yield]: messages are handled until it returns. *)
Fixpoint mqtt_yield (fuel : nat) (timeout_ms : Z) : SM Z :=
  match fuel with
  | O => unfinished
  | S fuel =>
      e ← lift (next_message timeout_ms);
      match e with
      | inr ret => mret ret
      | inl (t, m) => handle_message t m;; mqtt_yield fuel timeout_ms
      end
  end.

Definition IOT_Shadow_Yield (fuel : nat) (timeout_ms : Z) : SM Z :=
  if decide (timeout_ms = 0) then mret ERR_PARAM_INVALID
  else _handle_expired_request;; mqtt_yield fuel timeout_ms.

Definition IOT_Shadow_Register_Property (pProperty : option positive) (cb : option P) : SM Z :=
  match pProperty with
  | None => mret ERR_PARAM_INVALID
  | Some p =>
      up ← lift IOT_MQTT_IsConnected;
      if up : bool then
        l ← properties;
        exists_ ← (if decide (l = []) then mret false else shadow_common_check_property_existence p);
        if exists_ : bool then mret ERR_SHADOW_PROPERTY_EXIST else shadow_common_register_property_on_delta p cb
      else mret ERR_MQTT_NO_CONN
  end.

Definition IOT_Shadow_UnRegister_Property (pProperty : option positive) : SM Z :=
  match pProperty with
  | None => mret ERR_PARAM_INVALID
  | Some p =>
      up ← lift IOT_MQTT_IsConnected;
      if up : bool then
        exists_ ← shadow_common_check_property_existence p;
        if exists_ : bool then shadow_common_remove_property p else mret ERR_SHADOW_NOT_PROPERTY_EXIST
      else mret ERR_MQTT_NO_CONN
  end.

Definition IOT_Shadow_Request_Add_Delta_Property (pParams pProperty : option positive) : SM Z :=
  match pParams, pProperty with
  | Some r, Some p => request_common_add_delta_property r p
  | _, _ => mret ERR_PARAM_INVALID
  end.

(** The documents of the application's requests are written here. *)
Definition JsonDoc : bytes := replicate (Z.to_nat UIOT_MQTT_TX_BUF_LEN) 0.

Definition send_request (pParams : option positive) : SM Z :=
  up ← lift IOT_MQTT_IsConnected;
  if up : bool then uiot_shadow_make_request JsonDoc pParams else mret ERR_MQTT_NO_CONN.

Definition IOT_Shadow_Get_Sync (cb : option C) (timeout context : Z) : SM Z :=
  if decide (timeout = 0) then mret ERR_PARAM_INVALID
  else pParams ← uiot_shadow_request_init GET cb timeout context; send_request pParams.
Definition IOT_Shadow_Delete_All (cb : option C) (timeout context : Z) : SM Z :=
  if decide (timeout = 0) then mret ERR_PARAM_INVALID
  else pParams ← uiot_shadow_request_init DELETE_ALL cb timeout context; send_request pParams.

(** The loop over the variable arguments: whether all could be added. *)
Fixpoint add_loop (pParams : option positive) (args : list (option positive)) : SM bool :=
  match args with
  | [] => mret true
  | None :: args => add_loop pParams args
  | Some p :: args =>
      ret ← IOT_Shadow_Request_Add_Delta_Property pParams (Some p);
      if decide (ret = SUCCESS_RET) then add_loop pParams args else mret false
  end.
Definition property_request (m : Method) (cb : option C) (timeout context : Z) (args : list (option positive)) : SM Z :=
  if decide (timeout = 0) then mret ERR_PARAM_INVALID
  else
    pParams ← uiot_shadow_request_init m cb timeout context;
    added ← add_loop pParams args;
    if added : bool then send_request pParams else mret FAILURE_RET.
Definition IOT_Shadow_Update (cb : option C) (timeout context : Z) (args : list (option positive)) : SM Z :=
  property_request UPDATE cb timeout context args.
Definition IOT_Shadow_Update_And_Reset_Version (cb : option C) (timeout context : Z) (args : list (option positive)) : SM Z :=
  property_request UPDATE_AND_RESET_VER cb timeout context args.
Definition IOT_Shadow_Delete (cb : option C) (timeout context : Z) (args : list (option positive)) : SM Z :=
  property_request DELETE cb timeout context args.

(** ** Construction and destruction *)

Definition uiot_shadow_reset (fuel : nat) : SM unit :=
  set_property_list None;;
  uiot_shadow_unsubscribe_topic "downstream";;
  uiot_shadow_unsubscribe_topic "get_reply";;
  mqtt_yield fuel 200;;
  set_request_list [].
Definition IOT_Shadow_Destroy (fuel : nat) : SM Z := uiot_shadow_reset fuel;; mret SUCCESS_RET.

End floats.

(** [uiot_shadow_init]: whether it succeeds. *)
Definition uiot_shadow_init (w : W) : bool * W :=
  let '(request_mutex, w) := mutex_create w in
  if request_mutex then
    let '(property_mutex, w) := mutex_create w in
    if property_mutex then
      let '(property_list, w) := cloud_malloc w in
      if property_list then cloud_malloc w else (false, w)
    else (false, w)
  else (false, w).

(** The client in a process with the given objects and memory. *)
Definition IOT_Shadow_Construct (psn dsn : option bytes) (objs : gmap positive DeviceProperty) (mem : gmap positive (cell F)) (w : W) :
    outcome (option SSt * W) :=
  match psn, dsn with
  | Some psn, Some dsn =>
      let '(got, w) := cloud_malloc w in
      if got then
        let '(ok, w) := uiot_shadow_init w in
        if ok then
          let s := mkSSt (mkShadow psn dsn 0 [] (Some []) 0 0) ∅ objs mem
            (replicate (Z.to_nat CLOUD_IOT_JSON_RX_BUF_LEN) 0) GET w 1 [] in
          '(ret, s) ← uiot_shadow_subscribe_topic "get_reply" s;
          if decide (ret < 0) then Done (None, world s)
          else
            '(ret, s) ← uiot_shadow_subscribe_topic "downstream" s;
            if decide (ret < 0) then Done (None, world s) else Done (Some s, world s)
        else Done (None, w)
      else Done (None, w)
  | _, _ => Done (None, w)
  end.
End state.

(* ================================================================== *)
(** * The application *)

(** What an application does with the client, and with its own memory. *)
Inductive call (C P F : Type) :=
  | Register_Property (p : option positive) (cb : option P)
  | UnRegister_Property (p : option positive)
  | Request_Add_Delta_Property (r p : option positive)
  | Get_Sync (cb : option C) (timeout context : Z)
  | Update (cb : option C) (timeout context : Z) (args : list (option positive))
  | Update_And_Reset_Version (cb : option C) (timeout context : Z) (args : list (option positive))
  | Delete (cb : option C) (timeout context : Z) (args : list (option positive))
  | Delete_All (cb : option C) (timeout context : Z)
  | Yield (timeout_ms : Z)
  | Assign (a : positive) (c : cell F)
  | Declare_ (p : positive) (o : DeviceProperty).
Arguments Register_Property {C P F} p cb.
Arguments UnRegister_Property {C P F} p.
Arguments Request_Add_Delta_Property {C P F} r p.
Arguments Get_Sync {C P F} cb timeout context.
Arguments Update {C P F} cb timeout context args.
Arguments Update_And_Reset_Version {C P F} cb timeout context args.
Arguments Delete {C P F} cb timeout context args.
Arguments Delete_All {C P F} cb timeout context.
Arguments Yield {C P F} timeout_ms.
Arguments Assign {C P F} a c.
Arguments Declare_ {C P F} p o.

Section application.
Context {W : Type} `{Cloud W} {C P F : Type} (print_f : F -> bytes) (fuel : nat).
Abbreviation SSt := (@SSt W C P F).
Abbreviation SM := (@SM W C P F).

Definition set_cell (a : positive) (c : cell F) : SM unit := fun s =>
  Done (tt, mkSSt (shadow s) (params s) (objects s) (<[a := c]> (memory s)) (cloud_rcv_buf s) (cloud_send_method s) (world s) (next_node s) (events s)).

Definition run_call (on_request : C -> Method -> RequestAck -> bytes -> Z -> SM unit)
    (on_property : P -> option positive -> bytes -> positive -> SM unit) (c : call C P F) : SM Z :=
  match c with
  | Register_Property p cb => IOT_Shadow_Register_Property p cb
  | UnRegister_Property p => IOT_Shadow_UnRegister_Property p
  | Request_Add_Delta_Property r p => IOT_Shadow_Request_Add_Delta_Property r p
  | Get_Sync cb t ctx => IOT_Shadow_Get_Sync print_f cb t ctx
  | Update cb t ctx args => IOT_Shadow_Update print_f cb t ctx args
  | Update_And_Reset_Version cb t ctx args => IOT_Shadow_Update_And_Reset_Version print_f cb t ctx args
  | Delete cb t ctx args => IOT_Shadow_Delete print_f cb t ctx args
  | Delete_All cb t ctx => IOT_Shadow_Delete_All print_f cb t ctx
  | Yield t => IOT_Shadow_Yield print_f on_request on_property fuel t
  | Assign a c => set_cell a c;; mret 0
  | Declare_ p o => set_object p o;; mret 0
  end.
Fixpoint run_each (run : call C P F -> SM Z) (cs : list (call C P F)) : SM unit :=
  match cs with [] => mret tt | c :: cs => run c;; run_each run cs end.

(** The callbacks of the application are programs of such calls, which may
    depend on the state; [depth] bounds how deep callbacks nest. *)
Context (request_script : C -> Method -> RequestAck -> bytes -> Z -> SSt -> list (call C P F)).
Context (property_script : P -> option positive -> bytes -> positive -> SSt -> list (call C P F)).
Fixpoint run_calls (depth : nat) (cs : list (call C P F)) : SM unit :=
  match depth with
  | O => unfinished
  | S depth =>
      run_each (run_call (fun cb m ack doc ctx s => run_calls depth (request_script cb m ack doc ctx s) s)
                         (fun cb r v p s => run_calls depth (property_script cb r v p s) s)) cs
  end.
End application.
