(* ===== verification/ShadowSim.v ===== *)
(** A cloud for the shadow client: a mailbox of messages, a clock, and how
    often [HAL_Malloc] succeeds; and runs of the client with it. *)

From S2P Require Import Prelude Defs HalTimer Json CLib JsonConv ShadowDoc Shadow.

Record ShWorld := mkSh {
  sh_tick : Z;
  sh_memory : Z;
  sh_up : bool;
  sh_mail : list (subscription * bytes);
  sh_topics : list bytes
}.

#[export] Instance sh_cloud : Cloud ShWorld := {
  cloud_tick w := (sh_tick w, w);
  ms_to_tick ms := ms;
  cloud_malloc w := (bool_decide (0 < sh_memory w), mkSh (sh_tick w) (sh_memory w - 1) (sh_up w) (sh_mail w) (sh_topics w));
  mutex_create w := (true, w);
  IOT_MQTT_IsConnected w := (sh_up w, w);
  IOT_MQTT_Publish topic qos text w := (1, w);
  IOT_MQTT_Subscribe topic qos w := (1, mkSh (sh_tick w) (sh_memory w) (sh_up w) (sh_mail w) (sh_topics w ++ [topic]));
  IOT_MQTT_Unsubscribe topic w := (1, mkSh (sh_tick w) (sh_memory w) (sh_up w) (sh_mail w) (filter (fun t => t <> topic) (sh_topics w)));
  next_message t w :=
    match sh_mail w with
    | [] => (inr 0, mkSh (sh_tick w + t) (sh_memory w) (sh_up w) [] (sh_topics w))
    | (sub, text) :: mail => (inl (sub, mkMsg 40 (text ++ [0]) (zlen text)), mkSh (sh_tick w) (sh_memory w) (sh_up w) mail (sh_topics w))
    end
}.

(** Two properties: a temperature and a lamp. *)
Definition temp_p : positive := 1.
Definition lamp_p : positive := 2.
Definition objects0 : gmap positive DeviceProperty := {[temp_p := temp0; lamp_p := lamp0]}.
Definition sh0 (memory : Z) (mail : list (subscription * bytes)) : ShWorld := mkSh 1000 memory true mail [].

Abbreviation sh_call := (call Z positive Empty_set).
Abbreviation sh_state := (@SSt ShWorld Z positive Empty_set).
(** A request's callback numbered 7 asks for the document again; a property's
    callback stores the value 30 and reports it. *)
Definition request_script0 (cb : Z) (m : Method) (ack : RequestAck) (doc : bytes) (ctx : Z) (s : sh_state) : list sh_call :=
  if decide (cb = 7) then [Get_Sync (Some 8) 1 0] else [].
Definition property_script0 (cb : positive) (r : option positive) (v : bytes) (p : positive) (s : sh_state) : list sh_call :=
  [Assign cb (Int 30); Request_Add_Delta_Property r (Some p)].
Definition run0 (memory : Z) (mail : list (subscription * bytes)) (cs : list sh_call) : outcome sh_state :=
  match IOT_Shadow_Construct (Some (bytes_of "psn")) (Some (bytes_of "dsn")) objects0 cells0 (sh0 memory mail) with
  | Done (Some s, _) => '(_, s) ← run_calls no_text 10 request_script0 property_script0 4 cs s; Done s
  | _ => Undefined
  end.

(** What an event says: the method, the answer, or the document. *)
Definition said {C} (e : event C) : (Method * option RequestAck) + bytes :=
  match e with
  | Noted _ r => inl (rq_method r, None)
  | Answered _ r ack => inl (rq_method r, Some ack)
  | Published _ doc => inr doc
  end.
Definition reply (rc : String.string) : bytes := q "{`Method`:`reply`,`Payload`:{`RetCode`:" ++ bytes_of rc ++ q "},`Version`:6}".
Definition control : bytes := q "{`Method`:`control`,`Payload`:{`State`:{`Desired`:{`temp`:30}}},`Version`:9}".

(** What a run says, in order, and what is left: waiting requests, the
    version, and the lock counts of the two mutexes. *)
Definition outcome_of (r : outcome sh_state) :=
  match r with
  | Done s => Some (reverse (said <$> events s), zlen (request_list (shadow s)), version (shadow s),
                    (request_mutex (shadow s), property_mutex (shadow s)))
  | _ => None
  end.
Definition told (m : Method) : (Method * option RequestAck) + bytes := inl (m, None).
Definition ended (m : Method) (ack : RequestAck) : (Method * option RequestAck) + bytes := inl (m, Some ack).
Definition sent (doc : String.string) : (Method * option RequestAck) + bytes := inr (q doc).
Definition start0 : list sh_call := [Register_Property (Some temp_p) (Some 1%positive); Update (Some 7) 2 0 [Some temp_p; Some lamp_p]].

(** A request is accepted; its callback makes the next one. *)
Example accepted_run :
  outcome_of (run0 1000 [(Downstream, reply "0")] (start0 ++ [Yield 200])) =
    Some ([told UPDATE; sent "{`Method`:`update`,`State`:{`Reported`:{`lamp`:`on`,`temp`:21}},`Version`:0}";
           ended UPDATE ACK_ACCEPTED; told GET; sent "{`Method`:`get`}"], 1, 6, (0, 0)).
Proof. vm_compute. reflexivity. Qed.

(** A rejected request waits until its time is over. *)
Example rejected_run :
  outcome_of (run0 1000 [(Downstream, reply "23")] (start0 ++ [Yield 2500; Yield 200])) =
    Some ([told UPDATE; sent "{`Method`:`update`,`State`:{`Reported`:{`lamp`:`on`,`temp`:21}},`Version`:0}";
           ended UPDATE ACK_TIMEOUT; told GET; sent "{`Method`:`get`}"], 1, 6, (0, 0)).
Proof. vm_compute. reflexivity. Qed.

(** The cloud wants another temperature: it is stored and reported, and all
    requests are rejected, the one that reports it first. *)
Example control_run :
  outcome_of (run0 1000 [(Downstream, control)] (start0 ++ [Yield 200])) =
    Some ([told UPDATE; sent "{`Method`:`update`,`State`:{`Reported`:{`lamp`:`on`,`temp`:21}},`Version`:0}";
           told REPLY_CONTROL_UPDATE; sent "{`Method`:`update`,`State`:{`Reported`:{`temp`:30},`Desired`:null},`Version`:9}";
           ended REPLY_CONTROL_UPDATE ACK_REJECTED; ended UPDATE ACK_REJECTED; told GET; sent "{`Method`:`get`}"], 1, 9, (0, 0)).
Proof. vm_compute. reflexivity. Qed.

(** Without memory for the iterator over the properties their mutex stays
    locked, and without memory for a component of a path the client reads
    through NULL. *)
Example lock_lost_run :
  (fun r => (r.1.2, r.2)) <$> outcome_of (run0 23 [(Downstream, control)] (start0 ++ [Yield 200])) = Some (9, (0, 1)).
Proof. vm_compute. reflexivity. Qed.
Example no_memory_run : outcome_of (run0 20 [(Downstream, control)] (start0 ++ [Yield 200])) = None.
Proof. vm_compute. reflexivity. Qed.

(** A cloud that never runs out of memory, at a given time. *)
Definition quiet_cloud_at (now : Z) : Cloud unit := {|
  cloud_tick w := (now, w);
  ms_to_tick ms := ms;
  cloud_malloc w := (true, w);
  mutex_create w := (true, w);
  IOT_MQTT_IsConnected w := (true, w);
  IOT_MQTT_Publish topic qos text w := (1, w);
  IOT_MQTT_Subscribe topic qos w := (1, w);
  IOT_MQTT_Unsubscribe topic w := (1, w);
  next_message t w := (inr 0, w)
|}.
#[export] Instance quiet_cloud : Cloud unit := quiet_cloud_at 1000.
Abbreviation quiet_state := (@SSt unit Z positive Empty_set).
(** A callback that keeps what it is told. *)
Definition keep_request (cb : Z) (m : Method) (ack : RequestAck) (doc : bytes) (ctx : Z) : @SM unit Z positive Empty_set unit :=
  set_cell 9 (Str doc).
Definition no_property (cb : positive) (r : option positive) (v : bytes) (p : positive) : @SM unit Z positive Empty_set unit := mret tt.
Definition quiet_calls : list sh_call := [Get_Sync (Some 1) 2 0; Update (Some 1) 6 0 [Some temp_p]].
Definition quiet_run : outcome quiet_state :=
  match IOT_Shadow_Construct (Some (bytes_of "psn")) (Some (bytes_of "dsn")) objects0 cells0 tt with
  | Done (Some s, _) =>
      '(_, s) ← run_calls no_text 10 (fun _ _ _ _ _ _ => []) (fun _ _ _ _ _ => []) 4 quiet_calls s; Done s
  | _ => Undefined
  end.
