(* ===== verification/ShadowInv.v ===== *)
(** No request to the shadow is lost or answered twice: what the client has
    noted is what it has answered and what still waits, whatever sequence of
    calls the application makes, from its callbacks too. *)

From S2P Require Import Prelude Defs HalTimer Json CLib JsonConv ShadowDoc Shadow ShadowSim.

Section inv.
Context {W : Type} `{Cloud W} {C P F : Type}.
Abbreviation SSt := (@SSt W C P F).
Abbreviation SM := (@SM W C P F).
Implicit Types (s : SSt) (d : list (positive * Request C)).

(** The requests of the events, the latest first. *)
Definition noted_of (e : event C) : list (positive * Request C) := match e with Noted n r => [(n, r)] | _ => [] end.
Definition answered_of (e : event C) : list (positive * Request C) := match e with Answered n r _ => [(n, r)] | _ => [] end.
Fixpoint collect {A} (f : event C -> list A) (es : list (event C)) : list A :=
  match es with [] => [] | e :: es => f e ++ collect f es end.
Definition noted (s : SSt) : list (positive * Request C) := collect noted_of (events s).
Definition answered (s : SSt) : list (positive * Request C) := collect answered_of (events s).
Definition pending (s : SSt) : list (positive * Request C) := request_list (shadow s).

(** [d]: the requests that are being answered. *)
Record Inv (d : list (positive * Request C)) (s : SSt) : Prop := {
  inv_sum : noted s ++ d ≡ₚ answered s ++ pending s;
  inv_noted : NoDup (noted s).*1;
  inv_pending : pending s ⊆ noted s;
  inv_nodes : NoDup (pending s).*1;
  inv_next : Forall (fun x => x.1 < next_node s)%positive (noted s);
  inv_max : zlen (pending s) <= MAX_APPENDING_REQUEST_AT_ANY_GIVEN_TIME
}.

(** A run keeps the invariant, forgets no request, and takes the request mutex
    [k] times more than it releases it. *)
Record moves (k : Z) (s s' : SSt) : Prop := {
  moves_inv : forall d, Inv d s -> Inv d s';
  moves_noted : noted s ⊆ noted s';
  moves_mutex : request_mutex (shadow s') = request_mutex (shadow s) + k
}.
Definition does {A} (k : Z) (m : SM A) : Prop := forall s a s', m s = Done (a, s') -> moves k s s'.

Lemma sm_bind_done {A B} (m : SM A) (f : A -> SM B) s b s' :
  (m ≫= f) s = Done (b, s') <-> exists a s1, m s = Done (a, s1) /\ f a s1 = Done (b, s').
Proof.
  unfold mbind, SM_bind. destruct (m s) as [[a s1]| |]; split; try done; try naive_solver.
Qed.

Lemma does_refl s : moves 0 s s.
Proof. split; [done..|lia]. Qed.
Lemma does_trans j k s1 s2 s3 : moves j s1 s2 -> moves k s2 s3 -> moves (j + k) s1 s3.
Proof. intros [I1 N1 M1] [I2 N2 M2]. split; [auto|by etrans|lia]. Qed.

Lemma does_ret {A} k (a : A) : k = 0 -> does k (mret a).
Proof. intros -> s b s' [= _ <-]. apply does_refl. Qed.
Lemma does_bind {A B} j k (m : SM A) (f : A -> SM B) :
  does j m -> (forall a, does (k - j) (f a)) -> does k (m ≫= f).
Proof.
  intros Hm Hf s b s' (a & s1 & H1 & H2)%sm_bind_done. replace k with (j + (k - j)) by lia.
  eapply does_trans; [by eapply Hm|by eapply Hf].
Qed.
Lemma does_eq {A} j k (m : SM A) : does j m -> j = k -> does k m.
Proof. by intros Hm ->. Qed.
Lemma does_undefined {A} k : does k (@undefined W C P F A).
Proof. by intros s a s' ?. Qed.
Lemma does_unfinished {A} k : does k (@unfinished W C P F A).
Proof. by intros s a s' ?. Qed.
Lemma does_gets {A} (f : SSt -> A) : does 0 (gets f).
Proof. intros s a s' [= _ <-]. apply does_refl. Qed.

(** What touches neither requests nor their log. *)
Lemma moves_frame k s s' :
  pending s' = pending s -> events s' = events s -> request_mutex (shadow s') = request_mutex (shadow s) + k ->
  (next_node s <= next_node s')%positive -> moves k s s'.
Proof.
  intros Hp He Hm Hn. split; [|unfold noted; by rewrite He|done].
  intros d [I1 I2 I3 I4 I5 I6]. unfold noted, answered in *. split; unfold noted, answered; rewrite ?Hp, ?He; try done.
  eapply Forall_impl; [exact I5|]. cbn. intros x Hx. lia.
Qed.

Ltac frame := intros ? ? ? [= _ <-]; apply moves_frame; [done..|cbn; lia|cbn; lia].
Lemma does_lift {A} (f : W -> A * W) : does 0 (@lift W C P F A f).
Proof. intros s a s'. unfold lift. destruct (f (world s)). intros [= _ <-]. apply moves_frame; [done..|cbn; lia|cbn; lia]. Qed.
Lemma does_json {A} (f : bytes -> W -> res (A * W)) json : does 0 (@json_call W C P F A f json).
Proof.
  intros s a s'. unfold json_call. destruct (f json (world s)) as [[]| |]; [|done..].
  intros [= _ <-]. apply moves_frame; [done..|cbn; lia|cbn; lia].
Qed.
Lemma does_malloc : does 0 (@malloc W _ C P F).
Proof. apply does_lift. Qed.
Lemma does_set_version v : does 0 (@set_version W C P F v).
Proof. frame. Qed.
Lemma does_set_property_list l : does 0 (@set_property_list W C P F l).
Proof. frame. Qed.
Lemma does_lock_requests k : does k (@lock_requests W C P F k).
Proof. frame. Qed.
Lemma does_lock_properties k : does 0 (@lock_properties W C P F k).
Proof. frame. Qed.
Lemma does_set_send_method m : does 0 (@set_send_method W C P F m).
Proof. frame. Qed.
Lemma does_set_rcv_buf b : does 0 (@set_rcv_buf W C P F b).
Proof. frame. Qed.
Lemma does_set_params m : does 0 (@set_params W C P F m).
Proof. frame. Qed.
Lemma does_set_object p o : does 0 (@set_object W C P F p o).
Proof. frame. Qed.
Lemma does_new_node : does 0 (@new_node W C P F).
Proof. frame. Qed.
Lemma does_published t x : does 0 (@log W C P F (Published t x)).
Proof.
  intros s a s' [= _ <-]. split; [|done|cbn; lia]. by intros d [? ? ? ? ? ?].
Qed.
Lemma does_found {A} (a : option A) : does 0 (@found W C P F A a).
Proof. destruct a; [by apply does_ret|apply does_undefined]. Qed.
Lemma does_must {A} (r : res A) : does 0 (@must W C P F A r).
Proof. destruct r; [by apply does_ret|apply does_undefined..]. Qed.

Create HintDb shadow.
Hint Resolve does_ret does_undefined does_unfinished does_gets does_lift does_json does_malloc does_set_version
  does_set_property_list does_lock_requests does_lock_properties does_set_send_method does_set_rcv_buf does_set_params
  does_set_object does_new_node does_published does_found does_must : shadow.

(** Programs made of such steps: [k] is added up along each path. *)
Ltac does_it :=
  repeat match goal with
  | |- forall _, _ => intro
  | |- does _ (_ ≫= _) => first [eapply does_bind; [solve [eauto 2 with shadow]|]|apply (does_bind 0)]
  | |- does _ (if ?b then _ else _) => destruct b
  | |- does _ (match ?x with _ => _ end) => destruct x
  | |- does _ (let '_ := ?x in _) => destruct x
  | |- does _ _ => eapply does_eq; [solve [eauto 3 with shadow]|reflexivity]
  end.

Lemma does_object_at p : does 0 (@object_at W C P F p).
Proof. unfold object_at. does_it. Qed.
Lemma does_params_at p : does 0 (@params_at W C P F p).
Proof. unfold params_at. does_it. Qed.
Lemma does_properties : does 0 (@properties W C P F).
Proof. unfold properties. does_it. Qed.
Hint Resolve does_object_at does_params_at does_properties : shadow.

(* ================================================================== *)
(** * The client's own steps *)

(** Noting a request under a new name. *)
Lemma note_moves s r : zlen (pending s) < MAX_APPENDING_REQUEST_AT_ANY_GIVEN_TIME ->
  forall s', (node ← new_node; set_request_list (pending s ++ [(node, r)]);; log (Noted node r)) s = Done (tt, s') -> moves 0 s s'.
Proof.
  intros Hmax s' [= <-]. split; [|by apply list_subseteq_cons|cbn; lia].
  intros d [I1 I2 I3 I4 I5 I6]. unfold noted, answered, pending in *. rewrite Forall_forall in I5.
  assert (Hnew : forall l, l ⊆ noted s -> next_node s ∉ l.*1).
  { intros l Hl (x & Heq & Hin%Hl%I5)%list_elem_of_fmap. lia. }
  split; unfold noted, answered, pending; cbn [collect noted_of answered_of events app fmap list_fmap fst shadow request_list next_node].
  - rewrite I1. by rewrite (Permutation_cons_append (answered s ++ request_list (shadow s)) (next_node s, r)), <- app_assoc.
  - constructor; [|done]. by apply Hnew.
  - intros x [Hx|Hx%list_elem_of_singleton]%elem_of_app; [right; by apply I3|subst; left].
  - rewrite fmap_app. apply NoDup_app. split_and!; [done| |apply NoDup_singleton].
    intros n Hn ->%list_elem_of_singleton. by apply (Hnew _ I3) in Hn.
  - constructor; [cbn; lia|]. apply Forall_forall. intros x Hx%I5. lia.
  - rewrite length_app. cbn [length]. lia.
Qed.

Lemma lift_pending {A} (f : W -> A * W) s a s' : lift f s = Done (a, s') -> pending s' = pending s.
Proof. unfold lift. destruct (f (world s)). by intros [= _ <-]. Qed.
Lemma params_at_pending p s a s' : params_at p s = Done (a, s') -> pending s' = pending s.
Proof.
  intros (m & s1 & [= <- <-] & Hf)%sm_bind_done. destruct (params s !! p); [|done]. by injection Hf as _ <-.
Qed.
(** The first step of a run. *)
Lemma moves_step {A B} j k (m : SM A) (f : A -> SM B) s b s' :
  (m ≫= f) s = Done (b, s') -> does j m ->
  (forall a s1, m s = Done (a, s1) -> f a s1 = Done (b, s') -> moves (k - j) s1 s') -> moves k s s'.
Proof.
  intros (a & s1 & H1 & H2)%sm_bind_done Hm Hf. replace k with (j + (k - j)) by lia.
  eapply does_trans; [by eapply Hm|by eapply Hf].
Qed.

Lemma does_add_request p : does 0 (@shadow_add_request_to_list W _ C P F p).
Proof.
  unfold shadow_add_request_to_list. eapply does_bind; [apply does_lock_requests|intros _].
  intros s a s' Hr. apply sm_bind_done in Hr as (l & s1 & [= <- <-] & Hr). change (request_list (shadow s)) with (pending s) in Hr.
  assert (Hleave : forall ret, does (0 - 1) (lock_requests (-1);; mret ret : SM Z)) by (intros ret; does_it).
  case_decide as Hmax; [by eapply Hleave|].
  eapply (moves_step 0); [exact Hr|apply does_malloc|]. intros [] s1 H1%lift_pending H1'; [|by eapply Hleave].
  eapply (moves_step 0); [exact H1'|apply does_params_at|]. intros r s2 H2%params_at_pending H2'.
  eapply (moves_step 0); [exact H2'|apply does_lift|]. intros now s3 H3%lift_pending H3'.
  eapply (moves_step 0); [exact H3'|apply does_malloc|]. intros [] s4 H4%lift_pending H4'; [|by eapply Hleave].
  replace (pending s) with (pending s4) in H4', Hmax by congruence.
  replace (0 - 1 - 0 - 0 - 0 - 0) with (0 + (0 - 1)) by lia.
  eapply does_trans; [eapply (note_moves s4)|eapply (Hleave SUCCESS_RET); exact H4']; [lia|done].
Qed.
Hint Resolve does_add_request : shadow.

(** ** Requests *)

Lemma does_find_loop p l : does 0 (@find_loop W C P F p l).
Proof. induction l; cbn [find_loop]; unfold shadow_common_check_property_match; does_it. Qed.
Lemma does_list_find p : does 0 (@list_find W _ C P F p).
Proof. pose proof does_find_loop. unfold list_find. does_it. Qed.
Hint Resolve does_list_find : shadow.

Lemma does_update_property p m : does 0 (@shadow_common_update_property W _ C P F p m).
Proof. unfold shadow_common_update_property. does_it. Qed.
Lemma does_remove_property p : does 0 (@shadow_common_remove_property W _ C P F p).
Proof. unfold shadow_common_remove_property. does_it. Qed.
Lemma does_existence p : does 0 (@shadow_common_check_property_existence W _ C P F p).
Proof. unfold shadow_common_check_property_existence. does_it. Qed.
Lemma does_register p cb : does 0 (@shadow_common_register_property_on_delta W _ C P F p cb).
Proof. unfold shadow_common_register_property_on_delta, _add_property_handle_to_list. does_it. Qed.
Lemma does_add_delta r p : does 0 (@request_common_add_delta_property W _ C P F r p).
Proof. unfold request_common_add_delta_property. does_it. Qed.
Lemma does_request_init m cb t c : does 0 (@uiot_shadow_request_init W _ C P F m cb t c).
Proof. unfold uiot_shadow_request_init. does_it. Qed.
Lemma does_request_destory r : does 0 (@uiot_shadow_request_destory W C P F r).
Proof. unfold uiot_shadow_request_destory. does_it. Qed.
Lemma does_publish m doc : does 0 (@uiot_shadow_publish_operation_to_cloud W _ C P F m doc).
Proof. unfold uiot_shadow_publish_operation_to_cloud. does_it. Qed.
Hint Resolve does_update_property does_remove_property does_existence does_register does_add_delta does_request_init
  does_request_destory does_publish : shadow.

Lemma does_clear_loop l : does 0 (@clear_loop W C P F l).
Proof. induction l as [|[] l IH]; cbn [clear_loop]; does_it. Qed.
Lemma does_update_loop l m : does 0 (@update_loop W _ C P F l m).
Proof. induction l; cbn [update_loop]; does_it. Qed.
Hint Resolve does_clear_loop does_update_loop : shadow.
Lemma does_uiot_update_property r : does 0 (@uiot_shadow_update_property W _ C P F r).
Proof. unfold uiot_shadow_update_property. does_it. Qed.
Lemma does_objects_at ps : does 0 (@objects_at W C P F ps).
Proof. induction ps; cbn [objects_at]; does_it. Qed.
Hint Resolve does_uiot_update_property does_objects_at : shadow.
Lemma does_make_request pf doc r : does 0 (@uiot_shadow_make_request W _ C P F pf doc r).
Proof. unfold uiot_shadow_make_request. does_it. Qed.
Hint Resolve does_make_request : shadow.

(* ================================================================== *)
(** * Replies *)

Lemma node_at_elem {A} p (l : list (positive * A)) a : node_at p l = Some a -> (p, a) ∈ l.
Proof.
  unfold node_at. destruct (List.find _ l) as [[p' a']|] eqn:Hf; [|done]. intros [= <-].
  apply find_some in Hf as [Hin Hp]. apply bool_decide_eq_true in Hp. cbn in Hp. subst. by apply list_elem_of_In.
Qed.
Lemma without_fresh {A} p (l : list (positive * A)) : p ∉ l.*1 -> without p l = l.
Proof.
  induction l as [|[n a] l IH]; [done|]. cbn [fmap list_fmap fst]. intros [Hp Hl]%not_elem_of_cons.
  unfold without. rewrite filter_cons_True by (cbn; congruence). f_equal. by apply IH.
Qed.
Lemma without_perm {A} p (l : list (positive * A)) a : NoDup l.*1 -> (p, a) ∈ l -> l ≡ₚ (p, a) :: without p l.
Proof.
  induction l as [|[n b] l IH]; [by intros _ ?%elem_of_nil|]. cbn [fmap list_fmap fst]. intros [Hn Hl]%NoDup_cons Hin.
  apply elem_of_cons in Hin as [[= -> ->]|Hin].
  - unfold without. rewrite filter_cons_False by (cbn; tauto). fold (without n l). by rewrite without_fresh.
  - assert (n <> p). { intros ->. apply Hn, list_elem_of_fmap. by exists (p, a). }
    unfold without. rewrite filter_cons_True by done. fold (without p l). rewrite (IH Hl Hin) at 1. constructor.
Qed.
Lemma names_unique (l : list (positive * Request C)) p a b : NoDup l.*1 -> (p, a) ∈ l -> (p, b) ∈ l -> a = b.
Proof.
  intros Hn [i Hi]%list_elem_of_lookup [j Hj]%list_elem_of_lookup.
  assert (i = j) by (eapply (NoDup_lookup l.*1 i j p); [done|by rewrite list_lookup_fmap, ?Hi, ?Hj..]). naive_solver.
Qed.

Section handlers.
Context (print_f : F -> bytes).
Context (on_request : C -> Method -> RequestAck -> bytes -> Z -> SM unit).
Context (on_property : P -> option positive -> bytes -> positive -> SM unit).
Hypothesis request_does : forall cb m ack doc ctx, does 0 (on_request cb m ack doc ctx).
Hypothesis property_does : forall cb r v p, does 0 (on_property cb r v p).

(** The invariant with the answered request as a debt, until it is unlinked. *)
Definition settles (node : positive) (request : Request C) (m : SM unit) : Prop := forall s a s', m s = Done (a, s') ->
  noted s ⊆ noted s' /\ request_mutex (shadow s') = request_mutex (shadow s) /\
  (forall d, Inv d s -> (node, request) ∈ noted s -> Inv d s').
Lemma answer_settles node request status : settles node request (answer on_request node request status).
Proof.
  intros s [] s' (u & s1 & [= _ <-] & Hr)%sm_bind_done. set (s1 := mkSSt _ _ _ _ _ _ _ _ _) in Hr.
  apply sm_bind_done in Hr as ([] & s2 & H2 & Hr).
  assert (Hm : moves 0 s1 s2).
  { revert H2. generalize s1. clear -request_does.
    assert (Hd : does 0 (match rq_callback request with
      Some cb => doc ← gets cloud_rcv_buf; on_request cb (rq_method request) status doc (rq_context request) | None => mret tt end)) by does_it.
    intros s1 H2. by eapply Hd. }
  destruct Hm as [HI HN HM].
  apply sm_bind_done in Hr as (r' & s3 & H3 & Hr). apply sm_bind_done in H3 as (l & s4 & [= <- <-] & H3).
  destruct (node_at node (request_list (shadow s2))) as [r''|] eqn:Hat; [|done]. injection H3 as -> <-.
  apply sm_bind_done in Hr as (l & s5 & [= <- <-] & [= <-]). split_and!; [done|cbn in *; lia|].
  intros d Hinv Hin. assert (H1 : Inv ((node, request) :: d) s1).
  { destruct Hinv as [I1 I2 I3 I4 I5 I6]. split; try done. unfold noted, answered, pending, s1 in *. cbn [events collect noted_of answered_of app] in *.
    rewrite <- Permutation_middle, I1. done. }
  destruct (HI _ H1) as [I1 I2 I3 I4 I5 I6]. apply node_at_elem in Hat.
  assert (r' = request) as -> by (eapply names_unique; [exact I2|by apply I3|by apply HN]).
  pose proof (without_perm _ _ _ I4 Hat) as Hp. unfold pending in *.
  split; unfold noted, answered, pending in *; cbn [events shadow request_list next_node]; try done.
  - rewrite Hp, <- !Permutation_middle in I1. by apply Permutation_cons_inv in I1.
  - intros x Hx. apply I3. rewrite Hp. by right.
  - rewrite Hp in I4. by apply NoDup_cons in I4 as [_ ?].
  - rewrite Hp in I6. cbn [length] in I6. lia.
Qed.

Lemma settles_does node request m : does 0 m -> settles node request m.
Proof. intros Hm s a s' [HI HN HM]%Hm. split_and!; [done|lia|auto]. Qed.
Lemma settles_bind {A} node request (m : SM A) f : does 0 m -> (forall a, settles node request (f a)) -> settles node request (m ≫= f).
Proof.
  intros Hm Hf s b s' (a & s1 & [HI HN HM]%Hm & (HN2 & HM2 & HI2)%Hf)%sm_bind_done.
  split_and!; [by etrans|lia|]. intros d Hd Hin. apply HI2; auto.
Qed.
(** The request that is looked up is a noted one. *)
Lemma does_request_at node f : (forall request, settles node request (f request)) -> does 0 (r ← request_at node; f r).
Proof.
  intros Hf s a s' (r & s1 & H1 & Hr)%sm_bind_done. apply sm_bind_done in H1 as (l & s2 & [= <- <-] & H1).
  destruct (node_at _ _) as [r'|] eqn:Hat; [|done]. injection H1 as -> <-. apply Hf in Hr as (HN & HM & HI).
  split; [|done|lia]. intros d Hd. apply HI; [done|]. by apply (inv_pending _ _ Hd), node_at_elem.
Qed.

Lemma does_handle_request t node : does 0 (_handle_request_callback on_request t node).
Proof.
  apply does_request_at. intros r. apply settles_bind; [unfold reply_status; does_it|intros st; apply answer_settles].
Qed.
Lemma does_handle_expired node : does 0 (_handle_expired_request_callback on_request node).
Proof.
  apply does_request_at. intros r. apply settles_bind; [does_it|intros now].
  destruct (has_expired _ _); [apply answer_settles|apply settles_does; does_it].
Qed.

Lemma does_traverse nodes visit fuel : does 0 nodes -> (forall p, does 0 (visit p)) -> forall next, does 0 (@traverse W C P F fuel nodes visit next).
Proof. intros Hn Hv. induction fuel as [|fuel IH]; intros [p|]; cbn [traverse]; does_it. Qed.
Lemma does_iterate nodes visit : does 0 nodes -> (forall p, does 0 (visit p)) -> does 0 (@iterate W C P F nodes visit).
Proof. intros Hn Hv. pose proof (does_traverse nodes visit) as Ht. unfold iterate. does_it. Qed.
Lemma does_traverse_list visit : (forall p, does 0 (visit p)) -> does 0 (@_traverse_list W _ C P F visit).
Proof.
  intros Hv. assert (Hn : does 0 (@request_nodes W C P F)) by (unfold request_nodes; does_it).
  pose proof (does_iterate _ _ Hn Hv). unfold _traverse_list. does_it.
Qed.
Hint Resolve does_handle_request does_handle_expired does_traverse_list : shadow.

Lemma does_handle_delta delta : does 0 (_handle_delta print_f on_property delta).
Proof.
  assert (Hn : does 0 (@property_nodes W C P F)) by (unfold property_nodes; does_it).
  assert (Hv : forall r p, does 0 (delta_visit on_property r delta p)) by (intros r p; unfold delta_visit; does_it).
  pose proof (fun r => does_iterate _ _ Hn (Hv r)). unfold _handle_delta. does_it.
Qed.
Hint Resolve does_handle_delta : shadow.
Lemma does_receive m : does 0 (@receive W C P F m).
Proof. unfold receive. does_it. Qed.
Lemma does_desired_part parse doc : does 0 (desired_part print_f on_property parse doc).
Proof. unfold desired_part. does_it. Qed.
Hint Resolve does_receive does_desired_part : shadow.
Lemma does_handle_message t m : does 0 (handle_message print_f on_request on_property t m).
Proof. unfold handle_message, topic_sync_handler, topic_request_result_handler. does_it. Qed.
Hint Resolve does_handle_message : shadow.
Lemma does_mqtt_yield fuel t : does 0 (mqtt_yield print_f on_request on_property fuel t).
Proof. induction fuel; cbn [mqtt_yield]; does_it. Qed.
Hint Resolve does_mqtt_yield : shadow.

(* ================================================================== *)
(** * Calls *)

Lemma does_send_request r : does 0 (@send_request W _ C P F print_f r).
Proof. unfold send_request. does_it. Qed.
Hint Resolve does_send_request : shadow.
Lemma does_add_loop r args : does 0 (@add_loop W _ C P F r args).
Proof. induction args; cbn [add_loop]; unfold IOT_Shadow_Request_Add_Delta_Property; does_it. Qed.
Hint Resolve does_add_loop : shadow.
Lemma does_property_request m cb t ctx args : does 0 (@property_request W _ C P F print_f m cb t ctx args).
Proof. unfold property_request. does_it. Qed.
Hint Resolve does_property_request : shadow.
Lemma does_set_cell a c : does 0 (@set_cell W C P F a c).
Proof. frame. Qed.
Hint Resolve does_set_cell : shadow.

Lemma does_run_call fuel c : does 0 (run_call print_f fuel on_request on_property c).
Proof.
  destruct c; cbn [run_call]; unfold IOT_Shadow_Register_Property, IOT_Shadow_UnRegister_Property,
    IOT_Shadow_Request_Add_Delta_Property, IOT_Shadow_Get_Sync, IOT_Shadow_Update, IOT_Shadow_Update_And_Reset_Version,
    IOT_Shadow_Delete, IOT_Shadow_Delete_All, IOT_Shadow_Yield, _handle_expired_request; does_it.
Qed.
Lemma does_run_each run cs : (forall c, does 0 (run c)) -> does 0 (@run_each W C P F run cs).
Proof. intros Hr. induction cs; cbn [run_each]; does_it. Qed.
End handlers.

Lemma does_run_calls print_f fuel request_script property_script depth : forall cs,
  does 0 (@run_calls W _ C P F print_f fuel request_script property_script depth cs).
Proof.
  induction depth as [|depth IH]; intros cs; cbn [run_calls]; [apply does_unfinished|].
  apply does_run_each. intros c. apply does_run_call.
  - intros cb m ack doc ctx s a s' Hr. by eapply IH.
  - intros cb r v p s a s' Hr. by eapply IH.
Qed.

Lemma does_subscribe name : does 0 (@uiot_shadow_subscribe_topic W _ C P F name).
Proof. unfold uiot_shadow_subscribe_topic. does_it. Qed.

Lemma construct_inv psn dsn objs mem w s w' :
  IOT_Shadow_Construct psn dsn objs mem w = Done (Some s, w') -> Inv [] s /\ request_mutex (shadow s) = 0.
Proof.
  unfold IOT_Shadow_Construct. destruct psn as [psn|], dsn as [dsn|]; try done.
  destruct (cloud_malloc w) as [[] w1]; [|done]. destruct (uiot_shadow_init w1) as [[] w2]; [|done].
  set (s0 := mkSSt _ _ _ _ _ _ _ _ _ : SSt). intros Hr.
  assert (Hs : moves 0 s0 s).
  { destruct (uiot_shadow_subscribe_topic "get_reply" s0) as [[r1 s1]| |] eqn:H1; [|done..].
    cbn [mbind outcome_bind] in Hr. case_decide; [done|].
    destruct (uiot_shadow_subscribe_topic "downstream" s1) as [[r2 s2]| |] eqn:H2; [|done..].
    cbn [mbind outcome_bind] in Hr. case_decide; [done|]. injection Hr as <- _.
    apply (does_trans 0 0 _ s1); [by eapply does_subscribe|by eapply does_subscribe]. }
  destruct Hs as [HI _ HM]. split; [|exact HM]. apply HI. split; try done; try constructor.
Qed.
End inv.

(** C20: no request to the shadow is lost, and none is answered twice.  Whatever
    calls the application makes after [IOT_Shadow_Construct] - from its
    callbacks too, which are any programs of such calls - and whatever messages
    come: as long as nothing undefined happens, the requests that were noted
    are those that were answered and those that wait, no request is noted
    twice, at most ten wait, and the request mutex is released. *)
Theorem shadow_requests_conserved {W} `{Cloud W} {C P F} print_f fuel request_script property_script depth
    psn dsn objs mem w (s0 : @SSt W C P F) w' cs s :
  IOT_Shadow_Construct psn dsn objs mem w = Done (Some s0, w') ->
  run_calls print_f fuel request_script property_script depth cs s0 = Done (tt, s) ->
  noted s ≡ₚ answered s ++ pending s /\ NoDup (noted s).*1 /\
  zlen (pending s) <= MAX_APPENDING_REQUEST_AT_ANY_GIVEN_TIME /\ request_mutex (shadow s) = 0.
Proof.
  intros [Hinv Hm]%construct_inv [HI _ HM]%does_run_calls. destruct (HI _ Hinv) as [I1 I2 _ _ _ I6].
  rewrite app_nil_r in I1. split_and!; [done..|lia].
Qed.

Lemma shadow_requests_conserved_witness :
  exists s0 s w', IOT_Shadow_Construct (Some (bytes_of "psn")) (Some (bytes_of "dsn")) objects0 cells0 (sh0 1000 [(Downstream, control)])
      = Done (Some s0, w') /\
    run_calls no_text 10 request_script0 property_script0 4 (start0 ++ [Yield 200]) s0 = Done (tt, s) /\
    length (noted s) = 3%nat /\ length (answered s) = 2%nat /\ noted s ≡ₚ answered s ++ pending s.
Proof.
  destruct (IOT_Shadow_Construct (C := Z) (P := positive) (Some (bytes_of "psn")) (Some (bytes_of "dsn")) objects0 cells0 (sh0 1000 [(Downstream, control)]))
    as [[[s0|] w']| |] eqn:H0; [|by vm_compute in H0..].
  destruct (run_calls no_text 10 request_script0 property_script0 4 (start0 ++ [Yield 200]) s0) as [[[] s]| |] eqn:Hr.
  - exists s0, s, w'. split_and!; [done..| | |by apply (shadow_requests_conserved _ _ _ _ _ _ _ _ _ _ _ _ _ _ H0 Hr)].
    + vm_compute in H0. injection H0 as <- _. vm_compute in Hr. by injection Hr as <-.
    + vm_compute in H0. injection H0 as <- _. vm_compute in Hr. by injection Hr as <-.
  - exfalso. vm_compute in H0. injection H0 as <- _. by vm_compute in Hr.
  - exfalso. vm_compute in H0. injection H0 as <- _. by vm_compute in Hr.
Defined.
