(* ===== verification/ShadowReply.v ===== *)
(** What a message from the cloud, or the passing of time, does to the requests
    that wait. *)

From S2P Require Import Prelude Defs HalTimer Json CLib JsonConv ShadowDoc Shadow ShadowSim ShadowInv.

Section reply.
Context {W : Type} `{Cloud W} {C P F : Type}.
Abbreviation SSt := (@SSt W C P F).
Abbreviation SM := (@SM W C P F).
Implicit Types (s : SSt) (x : positive * Request C).

(** The answers that were given, the latest first. *)
Definition answer_of (e : event C) : list (positive * Request C * RequestAck) :=
  match e with Answered n r ack => [(n, r, ack)] | _ => [] end.
Definition answers (s : SSt) : list (positive * Request C * RequestAck) := collect answer_of (events s).

(** Nothing happens but that requests are noted. *)
Definition adds (s s' : SSt) : Prop := exists new,
  pending s' = pending s ++ new /\ noted s' = reverse new ++ noted s /\ answers s' = answers s /\
  cloud_rcv_buf s' = cloud_rcv_buf s /\ version (shadow s') = version (shadow s).

(** The requests chosen by [late] are answered with [ack], the newest first;
    the others go on waiting, and those that were noted meanwhile. *)
Definition answers_those (late : positive * Request C -> bool) (ack : RequestAck) (s s' : SSt) : Prop := exists new,
  pending s' = filter (fun x => late x = false) (pending s) ++ new /\ noted s' = reverse new ++ noted s /\
  answers s' = ((., ack) <$> filter (fun x => late x = true) (pending s)) ++ answers s.

Definition in_world (w : W) (s : SSt) : SSt :=
  mkSSt (shadow s) (params s) (objects s) (memory s) (cloud_rcv_buf s) (cloud_send_method s) w (next_node s) (events s).

Lemma without_at {A} n (a : A) pre rest : NoDup (pre ++ (n, a) :: rest).*1 -> without n (pre ++ (n, a) :: rest) = pre ++ rest.
Proof.
  rewrite fmap_app, fmap_cons. intros (_ & Hpre & [Hn _]%NoDup_cons)%NoDup_app. unfold without.
  rewrite filter_app, filter_cons_False by (cbn; tauto). fold (without n pre) (without n rest).
  rewrite !without_fresh; [done|done|]. intros Hin. apply (Hpre n Hin). by left.
Qed.
Lemma node_at_of {A} n (a : A) l : NoDup l.*1 -> (n, a) ∈ l -> node_at n l = Some a.
Proof.
  unfold node_at. induction l as [|[m b] l IH]; [by intros _ ?%elem_of_nil|]. cbn [fmap list_fmap fst]. intros [Hm Hl]%NoDup_cons.
  intros [[= -> ->]|Hin]%elem_of_cons; cbn [List.find fst]; [by rewrite bool_decide_true|].
  assert (m <> n). { intros ->. apply Hm, list_elem_of_fmap. by exists (n, a). }
  rewrite bool_decide_false by done. by apply IH.
Qed.
Lemma before_at n pre rest : NoDup (pre ++ n :: rest) -> forall prev,
  before n (pre ++ n :: rest) prev = Some (match last pre with Some p => Some p | None => prev end).
Proof.
  induction pre as [|m pre IH]; intros Hn prev; cbn [app before]; [by rewrite decide_True|].
  cbn [app] in Hn. apply NoDup_cons in Hn as [Hm Hn]. rewrite decide_False.
  - rewrite IH by done. rewrite last_cons. by destruct (last pre).
  - intros ->. apply Hm, elem_of_app. right. by left.
Qed.

Section sweep.
Context (on_request : C -> Method -> RequestAck -> bytes -> Z -> SM unit).
Hypothesis request_does : forall cb m ack doc ctx, does 0 (on_request cb m ack doc ctx).
Hypothesis request_adds : forall cb m ack doc ctx s, exists s', on_request cb m ack doc ctx s = Done (tt, s') /\ adds s s'.

(** An answer to a request that waits. *)
Lemma answer_run pre n r rest ack s : Inv [] s -> pending s = pre ++ (n, r) :: rest ->
  exists s' new, answer on_request n r ack s = Done (tt, s') /\ Inv [] s' /\ pending s' = pre ++ rest ++ new /\
    noted s' = reverse new ++ noted s /\ answers s' = (n, r, ack) :: answers s /\
    cloud_rcv_buf s' = cloud_rcv_buf s /\ version (shadow s') = version (shadow s).
Proof using request_does request_adds.
  intros Hinv Hp.
  assert (Hrun : exists s', answer on_request n r ack s = Done (tt, s') /\ exists new, pending s' = pre ++ rest ++ new /\
    noted s' = reverse new ++ noted s /\ answers s' = (n, r, ack) :: answers s /\
    cloud_rcv_buf s' = cloud_rcv_buf s /\ version (shadow s') = version (shadow s)).
  { set (s1 := mkSSt (shadow s) (params s) (objects s) (memory s) (cloud_rcv_buf s) (cloud_send_method s) (world s) (next_node s) (Answered n r ack :: events s)).
    assert (Hcb : exists s2, (match rq_callback r with
        Some cb => doc ← gets cloud_rcv_buf; on_request cb (rq_method r) ack doc (rq_context r) | None => mret tt end) s1 = Done (tt, s2)
        /\ adds s1 s2 /\ moves 0 s1 s2).
    { destruct (rq_callback r) as [cb|].
      - destruct (request_adds cb (rq_method r) ack (cloud_rcv_buf s1) (rq_context r) s1) as (s2 & Hr & Ha).
        exists s2. split_and!; [exact Hr|done|by eapply request_does].
      - exists s1. split_and!; [done| |apply does_refl]. exists []. by rewrite app_nil_r. }
    destruct Hcb as (s2 & Hr & (new & Hp2 & Hn2 & Ha2 & Hb2 & Hv2) & [HI _ _]).
    assert (H1 : Inv [(n, r)] s1).
    { destruct Hinv as [I1 I2 I3 I4 I5 I6]. split; try done. unfold noted, answered, pending, s1 in *. cbn [events collect noted_of answered_of app] in *.
      rewrite <- Permutation_middle, I1. done. }
    apply HI, inv_nodes in H1. rewrite Hp2 in H1. change (pending s1) with (pending s) in *. rewrite Hp, <- app_assoc in H1, Hp2. cbn [app] in *.
    exists (mkSSt (mkShadow (product_sn (shadow s2)) (device_sn (shadow s2)) (version (shadow s2)) (without n (pending s2)) (property_list (shadow s2))
      (request_mutex (shadow s2)) (property_mutex (shadow s2))) (params s2) (objects s2) (memory s2) (cloud_rcv_buf s2) (cloud_send_method s2) (world s2)
      (next_node s2) (events s2)). split.
    - unfold answer. unfold mbind at 1, SM_bind at 1. cbn [log]. fold s1. unfold mbind at 1, SM_bind at 1. rewrite Hr.
      unfold mbind, SM_bind, request_at, gets, mbind, SM_bind. fold (pending s2). rewrite Hp2, (node_at_of n r);
        [cbn [found]; unfold mret, SM_ret, set_request_list, modify; fold (pending s2); by rewrite Hp2|done|].
      apply elem_of_app. right. left.
    - exists new. unfold pending at 1. cbn [shadow request_list]. rewrite Hp2, without_at by done. done. }
  destruct Hrun as (s' & Hr & new & Hrun). exists s', new. split; [done|]. split; [|done].
  apply (answer_settles on_request request_does n r ack) in Hr as (_ & _ & HI). apply HI; [done|].
  apply (inv_pending _ _ Hinv). rewrite Hp. apply elem_of_app. right. left.
Qed.

(** ** A sweep over the waiting requests *)

Section visits.
Context (late : positive * Request C -> bool) (ack : RequestAck) (visit : positive -> SM unit) (doc : bytes).
(** A visit answers the request if it is one of those. *)
Hypothesis visit_run : forall s n r, cloud_rcv_buf s = doc -> node_at n (pending s) = Some r ->
  exists w, visit n s = (if late (n, r) then answer on_request n r ack else mret tt) (in_world w s).

Lemma inv_in_world w s : Inv [] s -> Inv [] (in_world w s).
Proof. intros Hi. by destruct (moves_frame 0 s (in_world w s)) as [HI _ _]; [done..|cbn; lia|cbn; lia|apply HI]. Qed.

(** The requests [pre] are still to be visited, [post] have been. *)
Definition swept (s0 : SSt) (pre post : list (positive * Request C)) (s : SSt) : Prop := Inv [] s /\ exists new,
  pending s = pre ++ filter (fun x => late x = false) post ++ new /\ noted s = reverse new ++ noted s0 /\
  answers s = ((., ack) <$> filter (fun x => late x = true) post) ++ answers s0 /\
  cloud_rcv_buf s = doc /\ version (shadow s) = version (shadow s0).

Lemma visit_swept s0 pre n r post s : swept s0 (pre ++ [(n, r)]) post s ->
  exists s', visit n s = Done (tt, s') /\ swept s0 pre ((n, r) :: post) s'.
Proof using All.
  intros (Hinv & new & Hp & Hn & Ha & Hb & Hv). rewrite <- app_assoc in Hp. cbn [app] in Hp.
  assert (Hat : node_at n (pending s) = Some r).
  { apply node_at_of; [apply Hinv|]. rewrite Hp. apply elem_of_app. right. by left. }
  destruct (visit_run s n r Hb Hat) as [w ->]. apply (inv_in_world w) in Hinv. unfold swept.
  destruct (late (n, r)) eqn:Hl.
  - destruct (answer_run pre n r _ ack (in_world w s) Hinv Hp) as (s' & more & -> & Hinv' & Hp' & Hn' & Ha' & Hb' & Hv').
    exists s'. split; [done|]. split; [done|]. exists (new ++ more).
    rewrite filter_cons_False, (filter_cons_True (fun x => late x = true)) by (cbn; congruence).
    split_and!; [by rewrite Hp', <- !app_assoc| | |by rewrite Hb'|by rewrite Hv'].
    + rewrite Hn', reverse_app, <- app_assoc. f_equal. exact Hn.
    + rewrite Ha'. cbn [fmap list_fmap app]. f_equal. exact Ha.
  - exists (in_world w s). split; [done|]. split; [done|]. exists new.
    by rewrite filter_cons_True, (filter_cons_False (fun x => late x = true)) by (cbn; congruence).
Qed.

Lemma traverse_swept s0 pre : forall post s fuel, swept s0 pre post s -> (length pre < fuel)%nat ->
  exists s', traverse fuel request_nodes visit (last pre.*1) s = Done (tt, s') /\ swept s0 [] (pre ++ post) s'.
Proof using All.
  induction pre as [|[n r] pre IH] using rev_ind; intros post s fuel Hs Hf.
  { exists s. split; [by destruct fuel|done]. }
  rewrite fmap_app. change ([(n, r)].*1) with [n]. rewrite last_snoc. destruct fuel as [|fuel]; [lia|]. rewrite length_app in Hf. cbn [length] in Hf.
  destruct (visit_swept _ _ _ _ _ _ Hs) as (s1 & Hv & Hs1). destruct (IH _ s1 fuel Hs1 ltac:(lia)) as (s' & Hr & Hs').
  exists s'. rewrite <- app_assoc. split; [|exact Hs']. cbn [traverse fst]. destruct Hs as (Hinv & new & Hp & _).
  unfold mbind at 1, SM_bind at 1, request_nodes. unfold mbind at 1, SM_bind at 1. cbn [gets]. unfold mret, SM_ret.
  fold (pending s). pose proof (inv_nodes _ _ Hinv) as Hnd. rewrite Hp, <- app_assoc in *. rewrite fmap_app in *. cbn [app fmap list_fmap fst] in *.
  unfold mbind at 1, SM_bind at 1. rewrite before_at by done. cbn [found]. unfold mret, SM_ret. unfold mbind, SM_bind. rewrite Hv.
  rewrite <- Hr. f_equal. by destruct (last pre.*1).
Qed.

(** The whole of [_traverse_list]. *)
Lemma traverse_list_run s : (forall w, (cloud_malloc w).1 = true) -> Inv [] s -> cloud_rcv_buf s = doc ->
  exists s', _traverse_list visit s = Done (tt, s') /\ answers_those late ack s s' /\ version (shadow s') = version (shadow s).
Proof using All.
  intros Hm Hinv Hb.
  set (locked k s := mkSSt (mkShadow (product_sn (shadow s)) (device_sn (shadow s)) (version (shadow s)) (request_list (shadow s))
    (property_list (shadow s)) (request_mutex (shadow s) + k) (property_mutex (shadow s)))
    (params s) (objects s) (memory s) (cloud_rcv_buf s) (cloud_send_method s) (world s) (next_node s) (events s) : SSt).
  assert (Hlock : forall k s', lock_requests k s' = Done (tt, locked k s')) by done.
  assert (Hi : Inv [] (locked 1 s)) by by destruct Hinv.
  unfold _traverse_list. unfold mbind at 1, SM_bind at 1. rewrite Hlock. unfold mbind at 1, SM_bind at 1. cbn [gets].
  change (request_list (shadow (locked 1 s))) with (pending s).
  assert (Hsweep : exists s', (if decide (pending s = []) then mret tt
      else iter ← malloc; if iter : bool then iterate request_nodes visit else mret tt) (locked 1 s) = Done (tt, s')
      /\ swept (locked 1 s) [] (pending s) s').
  { case_decide as He.
    - exists (locked 1 s). split; [done|]. split; [done|]. exists []. by rewrite He, app_nil_r.
    - unfold mbind at 1, SM_bind at 1, malloc, lift. pose proof (Hm (world (locked 1 s))) as Hw.
      destruct (cloud_malloc (world (locked 1 s))) as [got w']. cbn in Hw. subst got. cbn [bool_decide]. fold (in_world w' (locked 1 s)).
      unfold iterate, request_nodes at 1. unfold mbind at 1, SM_bind at 1. unfold mbind at 1, SM_bind at 1. cbn [gets]. unfold mret at 1, SM_ret at 1.
      change (request_list (shadow (in_world w' (locked 1 s)))) with (pending s).
      destruct (traverse_swept (locked 1 s) (pending s) [] (in_world w' (locked 1 s)) (S (length (pending s).*1)))
        as (s' & Hr & Hs'); [|rewrite length_fmap; lia|].
      + split; [by apply inv_in_world|]. exists []. by rewrite app_nil_r.
      + rewrite app_nil_r in Hs'. by exists s'. }
  destruct Hsweep as (s1 & Hr & _ & new & Hp & Hn & Ha & Hb1 & Hv). unfold mbind at 1, SM_bind at 1. rewrite Hr, Hlock.
  eexists. split; [done|]. split; [|exact Hv]. by exists new.
Qed.
End visits.

(* ================================================================== *)
(** * Expiry and messages *)

Lemma request_at_run n r s : node_at n (pending s) = Some r -> request_at n s = Done (r, s).
Proof. intros Hat. unfold request_at, gets, mbind, SM_bind. fold (pending s). by rewrite Hat. Qed.
Lemma lift_run {A} (f : W -> A * W) a s : (forall w, (f w).1 = a) -> exists w, lift f s = Done (a, in_world w s).
Proof. intros Hf. unfold lift. specialize (Hf (world s)). destruct (f (world s)) as [a' w]. cbn in Hf. subst. by exists w. Qed.

Lemma expired_run now s : (forall w, (cloud_malloc w).1 = true) -> (forall w, (cloud_tick w).1 = now) -> Inv [] s ->
  exists s', _handle_expired_request on_request s = Done (tt, s') /\
    answers_those (fun x => has_expired (rq_timer x.2) now) ACK_TIMEOUT s s' /\ version (shadow s') = version (shadow s).
Proof using All.
  intros Hm Hc Hinv. apply (traverse_list_run _ _ _ (cloud_rcv_buf s)); [|done..].
  intros s1 n r _ Hat. unfold _handle_expired_request_callback. unfold mbind at 1, SM_bind at 1. rewrite (request_at_run _ _ _ Hat).
  destruct (lift_run cloud_tick now s1 Hc) as [w Ht]. exists w. unfold mbind, SM_bind. by rewrite Ht.
Qed.

(** What a field of a document is read as, whatever the environment. *)
Definition reads {A} (f : bytes -> W -> res (A * W)) (doc : bytes) (a : A) : Prop := forall w, exists w', f doc w = Ok (a, w').
Lemma json_call_run {A} (f : bytes -> W -> res (A * W)) doc a s : reads f doc a -> exists w, json_call f doc s = Done (a, in_world w s).
Proof. intros Hf. unfold json_call. destruct (Hf (world s)) as [w ->]. by exists w. Qed.

(** The answer that the waiting requests get for a message, if any. *)
Definition verdict (t : subscription) (method : bytes) (rc : option Z) : option RequestAck :=
  let status := if decide (rc = Some 0) then ACK_ACCEPTED else ACK_REJECTED in
  match t with
  | Sync => Some ACK_ACCEPTED
  | Downstream =>
      if decide (method = METHOD_REPLY) then if decide (rc = Some 0) then Some ACK_ACCEPTED else None
      else if decide (method = METHOD_CONTROL) then Some status else None
  end.

Lemma reply_run doc t ack s :
  (forall s, cloud_rcv_buf s = doc -> exists w, reply_status t s = Done (ack, in_world w s)) ->
  (forall w, (cloud_malloc w).1 = true) -> Inv [] s -> cloud_rcv_buf s = doc ->
  exists s', _traverse_list (_handle_request_callback on_request t) s = Done (tt, s') /\
    answers_those (fun _ => true) ack s s' /\ version (shadow s') = version (shadow s).
Proof using All.
  intros Hst Hm Hinv Hb. apply (traverse_list_run _ _ _ doc); [|done..].
  intros s1 n r Hb1 Hat. unfold _handle_request_callback. unfold mbind at 1, SM_bind at 1. rewrite (request_at_run _ _ _ Hat).
  destruct (Hst s1 Hb1) as [w Ht]. exists w. unfold mbind, SM_bind. by rewrite Ht.
Qed.
Lemma reply_status_run doc t rc s : reads (parse_shadow_payload_retcode_type cloud_malloc) doc rc -> t = METHOD_REPLY \/ t = METHOD_CONTROL ->
  cloud_rcv_buf s = doc ->
  exists w, reply_status t s = Done (if decide (rc = Some 0) then ACK_ACCEPTED else ACK_REJECTED, in_world w s).
Proof.
  intros Hr Ht Hb. destruct (json_call_run _ _ _ s Hr) as [w Hj]. exists w. unfold reply_status.
  rewrite decide_False by (destruct Ht as [-> | ->]; by_eval). rewrite decide_True by done.
  unfold mbind at 1, SM_bind at 1. cbn [gets]. rewrite Hb. unfold mbind, SM_bind. rewrite Hj.
  destruct rc as [c|]; [|done]. destruct (decide (c = 0)) as [->|Hc]; [done|]. by rewrite decide_False by congruence.
Qed.

(** A message of the text [txt] that the buffer can take. *)
Definition arrives (m : message) (txt : bytes) (s : SSt) : Prop :=
  0 < m_topic_len m /\ m_payload_len m = zlen txt /\ zlen txt < CLOUD_IOT_JSON_RX_BUF_LEN /\
  zlen (cloud_rcv_buf s) = CLOUD_IOT_JSON_RX_BUF_LEN /\ exists b junk, m_payload m = txt ++ b :: junk.
Definition with_buf (b : bytes) (s : SSt) : SSt :=
  mkSSt (shadow s) (params s) (objects s) (memory s) b (cloud_send_method s) (world s) (next_node s) (events s).
(** What is in the buffer then. *)
Definition received (txt : bytes) (s : SSt) : bytes := txt ++ 0 :: drop (S (length txt)) (cloud_rcv_buf s).

Lemma receive_run m txt s : arrives m txt s -> receive m s = Done (Some (received txt s), with_buf (received txt s) s).
Proof.
  intros (_ & Hl & Ht & Hb & b & junk & Hp). unfold receive. rewrite Hl, decide_False, decide_False by lia. rewrite Hp.
  assert (Hs : slice_at (txt ++ b :: junk) 0 (zlen txt + 1) = Ok (txt ++ [b])).
  { apply slice_at_ok. rewrite length_app. cbn [length]. split_and!; [lia..|]. rewrite drop_0.
    replace (txt ++ b :: junk) with ((txt ++ [b]) ++ junk) by by rewrite <- app_assoc.
    rewrite take_app_length'; [done|]. rewrite length_app. cbn [length]. lia. }
  assert (Hw1 : write_at (cloud_rcv_buf s) 0 (txt ++ [b]) = Ok (txt ++ b :: drop (S (length txt)) (cloud_rcv_buf s))).
  { apply write_at_ok. rewrite length_app. cbn [length]. split_and!; [lia..|]. change (Z.to_nat 0) with O. rewrite take_0, <- app_assoc.
    cbn [app]. do 3 f_equal. lia. }
  assert (Hw2 : write_at (txt ++ b :: drop (S (length txt)) (cloud_rcv_buf s)) (zlen txt) [0] = Ok (received txt s)).
  { apply write_at_ok. rewrite length_app. cbn [length]. split_and!; [lia..|]. rewrite Nat2Z.id, take_app_length, drop_app_ge by lia.
    replace (length txt + 1 - length txt)%nat with 1%nat by lia. done. }
  unfold mbind, SM_bind. rewrite Hs. cbn [must]. unfold mret, SM_ret, gets. rewrite Hw1. cbn [must]. unfold mret, SM_ret. rewrite Hw2.
  done.
Qed.

(** Where the state behind the values that a message brings is looked for. *)
Definition desired_field (t : subscription) : bytes -> W -> res (option bytes * W) :=
  match t with
  | Sync => parse_shadow_state_desired_type cloud_malloc
  | Downstream => parse_shadow_payload_state_desired_state cloud_malloc
  end.
(** The document names its method, its version and nothing that is wanted. *)
Definition says (t : subscription) (doc method : bytes) (ver : Z) (rc : option Z) : Prop :=
  reads (parse_version_num cloud_malloc) doc (Some ver) /\ reads (parse_shadow_method_type cloud_malloc) doc (Some method) /\
  reads (parse_shadow_payload_retcode_type cloud_malloc) doc rc /\
  exists d, reads (desired_field t) doc d /\ zlen (default [] d) <= 2.

Section message.
Context (print_f : F -> bytes) (on_property : P -> option positive -> bytes -> positive -> SM unit).
Hypothesis memory_ok : forall w : W, (cloud_malloc w).1 = true.

Lemma desired_part_run parse doc d s : reads parse doc d -> zlen (default [] d) <= 2 ->
  exists w, desired_part print_f on_property parse doc s = Done (tt, in_world w s).
Proof.
  intros Hr Hd. destruct (json_call_run _ _ _ s Hr) as [w Hj]. exists w. unfold desired_part, mbind, SM_bind. rewrite Hj.
  destruct d as [d|]; [|done]. cbn in Hd. by rewrite decide_False by lia.
Qed.

(** The state after the version was read. *)
Definition noted_version (doc : bytes) (ver : Z) (w : W) (s : SSt) : SSt :=
  mkSSt (mkShadow (product_sn (shadow s)) (device_sn (shadow s)) ver (request_list (shadow s)) (property_list (shadow s))
      (request_mutex (shadow s)) (property_mutex (shadow s)))
    (params s) (objects s) (memory s) doc (cloud_send_method s) w (next_node s) (events s).
Lemma noted_version_inv doc ver w s : Inv [] s -> Inv [] (noted_version doc ver w s).
Proof. intros Hi. by destruct (moves_frame 0 s (noted_version doc ver w s)) as [HI _ _]; [done..|cbn; lia|cbn; lia|apply HI]. Qed.

Lemma sync_run m txt s ver method rc : arrives m txt s -> Inv [] s -> says Sync (received txt s) method ver rc ->
  exists s', topic_sync_handler print_f on_request on_property m s = Done (tt, s') /\
    answers_those (fun _ => true) ACK_ACCEPTED s s' /\ version (shadow s') = ver.
Proof using All.
  intros Ha Hinv (Hv & _ & _ & d & Hd & Hl). unfold topic_sync_handler. rewrite decide_False by (destruct Ha; lia).
  unfold mbind at 1, SM_bind at 1. rewrite (receive_run _ _ _ Ha).
  destruct (json_call_run _ _ _ (with_buf (received txt s) s) Hv) as [w1 Hj]. unfold mbind at 1, SM_bind at 1. rewrite Hj.
  unfold mbind at 1, SM_bind at 1, set_version, modify.
  change (mkSSt (mkShadow _ _ ver _ _ _ _) _ _ _ _ _ _ _ _) with (noted_version (received txt s) ver w1 s).
  destruct (desired_part_run _ _ d (noted_version (received txt s) ver w1 s) Hd Hl) as [w2 Hr].
  unfold mbind, SM_bind. cbn [desired_field] in Hr. rewrite Hr.
  apply (reply_run (received txt s) METHOD_GET_REPLY ACK_ACCEPTED (noted_version (received txt s) ver w2 s)); [|done|by apply noted_version_inv|done].
  intros s1 _. exists (world s1). unfold reply_status. rewrite decide_True by done. by destruct s1.
Qed.

Lemma downstream_run m txt s ver method rc : arrives m txt s -> Inv [] s -> says Downstream (received txt s) method ver rc ->
  exists s', topic_request_result_handler print_f on_request on_property m s = Done (tt, s') /\ version (shadow s') = ver /\
    match verdict Downstream method rc with
    | Some ack => answers_those (fun _ => true) ack s s'
    | None => pending s' = pending s /\ events s' = events s
    end.
Proof using All.
  intros Ha Hinv (Hv & Hm & Hrc & d & Hd & Hl). unfold topic_request_result_handler. rewrite decide_False by (destruct Ha; lia).
  set (doc := received txt s) in *.
  unfold mbind at 1, SM_bind at 1. rewrite (receive_run _ _ _ Ha). fold doc.
  destruct (json_call_run _ _ _ (with_buf doc s) Hm) as [w1 Hj1]. unfold mbind at 1, SM_bind at 1. rewrite Hj1.
  destruct (json_call_run _ _ _ (in_world w1 (with_buf doc s)) Hv) as [w2 Hj2]. unfold mbind at 1, SM_bind at 1. rewrite Hj2.
  unfold mbind at 1, SM_bind at 1, set_version, modify. 
  change (mkSSt (mkShadow _ _ ver _ _ _ _) _ _ _ _ _ _ _ _) with (noted_version doc ver w2 s). cbn [verdict].
  assert (Hreply : forall w ack, method = METHOD_REPLY \/ method = METHOD_CONTROL -> ack = (if decide (rc = Some 0) then ACK_ACCEPTED else ACK_REJECTED) ->
    exists s', _traverse_list (_handle_request_callback on_request method) (noted_version doc ver w s) = Done (tt, s') /\
      version (shadow s') = ver /\ answers_those (fun _ => true) ack s s').
  { intros w ack Hmeth ->. destruct (reply_run doc method (if decide (rc = Some 0) then ACK_ACCEPTED else ACK_REJECTED) (noted_version doc ver w s))
      as (s' & Hr & Hs & Hver); [|done|by apply noted_version_inv|done|by exists s'].
    intros s1 Hb. by apply (reply_status_run doc). }
  destruct (decide (method = METHOD_REPLY)) as [Hrep|Hrep].
  - destruct (json_call_run _ _ _ (noted_version doc ver w2 s) Hrc) as [w3 Hj3]. unfold mbind at 1, SM_bind at 1. rewrite Hj3.
    destruct (decide (rc = Some 0)) as [Hz|Hz]; [|by eexists].
    apply (Hreply w3 ACK_ACCEPTED); [by left|done].
  - destruct (decide (method = METHOD_CONTROL)) as [Hcon|Hcon]; [|by eexists].
    destruct (desired_part_run _ _ d (noted_version doc ver w2 s) Hd Hl) as [w3 Hr]. unfold mbind, SM_bind. cbn [desired_field] in Hr. rewrite Hr.
    apply Hreply; [by right|done].
Qed.
End message.
End sweep.
End reply.

(** Messages: what one does to the requests that wait. *)
Lemma message_settles {W} `{Cloud W} {C P F} (print_f : F -> bytes) on_request on_property
    t m txt ver method rc (s : @SSt W C P F) :
  (forall w, (cloud_malloc w).1 = true) ->
  (forall cb meth ack doc ctx, does 0 (on_request cb meth ack doc ctx)) ->
  (forall cb meth ack doc ctx s, exists s', on_request cb meth ack doc ctx s = Done (tt, s') /\ adds s s') ->
  Inv [] s -> arrives m txt s -> says t (received txt s) method ver rc ->
  exists s', handle_message print_f on_request on_property t m s = Done (tt, s') /\ version (shadow s') = ver /\
    match verdict t method rc with
    | Some ack => answers_those (fun _ => true) ack s s'
    | None => pending s' = pending s /\ events s' = events s
    end.
Proof.
  intros Hm Hd Ha Hinv Har Hs. destruct t; [|by eapply downstream_run].
  destruct (sync_run on_request Hd Ha print_f on_property Hm m txt s ver method rc) as (s' & ? & ? & ?); [done..|by exists s'].
Qed.

(** Yields: the requests whose time is over. *)
Lemma yield_settles {W} `{Cloud W} {C P F} (print_f : F -> bytes) on_request on_property fuel now timeout_ms (s : @SSt W C P F) :
  (forall w, (cloud_malloc w).1 = true) -> (forall w, (cloud_tick w).1 = now) -> timeout_ms <> 0 ->
  (forall cb meth ack doc ctx, does 0 (on_request cb meth ack doc ctx)) ->
  (forall cb meth ack doc ctx s, exists s', on_request cb meth ack doc ctx s = Done (tt, s') /\ adds s s') ->
  Inv [] s ->
  exists s', answers_those (fun x => has_expired (rq_timer x.2) now) ACK_TIMEOUT s s' /\ Inv [] s' /\
    IOT_Shadow_Yield print_f on_request on_property fuel timeout_ms s = mqtt_yield print_f on_request on_property fuel timeout_ms s'.
Proof.
  intros Hm Hc Ht Hd Ha Hinv. destruct (expired_run on_request Hd Ha now s Hm Hc Hinv) as (s' & Hr & Hs & _).
  exists s'. split; [done|]. split.
  - assert (Hdoes : does 0 (_handle_expired_request on_request)) by (apply does_traverse_list; intros; by apply does_handle_expired).
    by destruct (Hdoes _ _ _ Hr) as [HI _ _]; apply HI.
  - unfold IOT_Shadow_Yield. rewrite decide_False by done. unfold mbind, SM_bind. by rewrite Hr.
Qed.

(** C21: how the requests that wait are settled, under four conditions: there is
    memory, the shadow is in a consistent state ([Inv]), and the callbacks of
    requests keep it so and return, with no other effect on the requests than
    to add new ones; and the messages considered are those that fit the receive
    buffer, name their method and their version, and want no values.  Such a
    message is handled: the version is noted, and then the verdict falls on all
    requests at once.  A reply with RetCode 0 accepts every one of them, the
    newest first, whichever it was for; a reply with another RetCode, or none,
    answers no request at all - the one that failed waits until it times out; a
    control message accepts every one if it has a RetCode of 0 and rejects
    every one otherwise; the document that was asked for accepts every one.
    Requests that callbacks make meanwhile wait for the next message.

    Requests that get no reply: at every [IOT_Shadow_Yield] that has time, and
    during which the clock does not move while the list is swept, exactly the
    requests whose time is over are answered, with ACK_TIMEOUT and the newest
    first, before the next message is taken; the others, and those that the
    callbacks make, go on waiting. *)
Theorem shadow_requests_settled {W} `{Cloud W} {C P F} (print_f : F -> bytes) on_request on_property (s : @SSt W C P F) :
  (forall w, (cloud_malloc w).1 = true) ->
  (forall cb meth ack doc ctx, does 0 (on_request cb meth ack doc ctx)) ->
  (forall cb meth ack doc ctx s, exists s', on_request cb meth ack doc ctx s = Done (tt, s') /\ adds s s') ->
  Inv [] s ->
  (forall t m txt ver method rc, arrives m txt s -> says t (received txt s) method ver rc ->
    exists s', handle_message print_f on_request on_property t m s = Done (tt, s') /\ version (shadow s') = ver /\
      match verdict t method rc with
      | Some ack => answers_those (fun _ => true) ack s s'
      | None => pending s' = pending s /\ events s' = events s
      end) /\
  (forall fuel now timeout_ms, (forall w, (cloud_tick w).1 = now) -> timeout_ms <> 0 ->
    exists s', answers_those (fun x => has_expired (rq_timer x.2) now) ACK_TIMEOUT s s' /\ Inv [] s' /\
      IOT_Shadow_Yield print_f on_request on_property fuel timeout_ms s = mqtt_yield print_f on_request on_property fuel timeout_ms s').
Proof. intros Hm Hd Ha Hinv. split; intros; [by eapply message_settles|by apply yield_settles]. Qed.

(** Two requests that wait, one of them too long. *)
Lemma quiet_inv s : quiet_run = Done s -> Inv [] s.
Proof.
  unfold quiet_run. destruct (IOT_Shadow_Construct _ _ objects0 cells0 tt) as [[[s0|] w']| |] eqn:H0; [|done..].
  destruct (run_calls _ _ _ _ 4 quiet_calls s0) as [[[] s1]| |] eqn:Hr; [|done..]. intros [= <-].
  apply construct_inv in H0 as [Hi _]. apply does_run_calls in Hr as [HI _ _]. by apply HI.
Qed.
Lemma keep_does cb meth ack doc ctx : does 0 (keep_request cb meth ack doc ctx).
Proof. apply does_set_cell. Qed.
Lemma keep_adds cb meth ack doc ctx s : exists s', keep_request cb meth ack doc ctx s = Done (tt, s') /\ adds s s'.
Proof. eexists. split; [done|]. exists []. by rewrite app_nil_r. Qed.

Definition replied : bytes := reply "0".
Definition reply_msg : message := mkMsg 40 (replied ++ [0]) (zlen replied).

Lemma quiet_facts : match quiet_run with
  | Done s =>
      let doc := received replied s in
      zlen (cloud_rcv_buf s) = CLOUD_IOT_JSON_RX_BUF_LEN /\
      (fun x => (rq_method x.2, has_expired (rq_timer x.2) 5000)) <$> pending s = [(GET, true); (UPDATE, false)] /\
      parse_version_num cloud_malloc doc tt = Ok (Some 6, tt) /\
      parse_shadow_method_type cloud_malloc doc tt = Ok (Some METHOD_REPLY, tt) /\
      parse_shadow_payload_retcode_type cloud_malloc doc tt = Ok (Some 0, tt) /\
      desired_field Downstream doc tt = Ok (None, tt)
  | _ => False
  end.
Proof. vm_compute. repeat split. Qed.
Opaque quiet_run.

Lemma shadow_requests_settled_witness : exists s s1 s2,
  quiet_run = Done s /\ (fun x => (rq_method x.2, has_expired (rq_timer x.2) 5000)) <$> pending s = [(GET, true); (UPDATE, false)] /\
  handle_message (H := quiet_cloud_at 5000) no_text keep_request no_property Downstream reply_msg s = Done (tt, s1) /\
  version (shadow s1) = 6 /\ answers_those (fun _ => true) ACK_ACCEPTED s s1 /\
  answers_those (fun x => has_expired (rq_timer x.2) 5000) ACK_TIMEOUT s s2 /\
  IOT_Shadow_Yield (H := quiet_cloud_at 5000) no_text keep_request no_property 1 200 s = Done (0, s2).
Proof.
  pose proof quiet_facts as Hf. destruct quiet_run as [s| |] eqn:Hq; [|destruct Hf..]. destruct Hf as (Hb & Hp & Hv & Hm & Hr & Hd).
  destruct (shadow_requests_settled (H := quiet_cloud_at 5000) no_text keep_request no_property s) as [Hreply Hyield];
    [by intros []|exact keep_does|exact keep_adds|by apply quiet_inv|].
  destruct (Hreply Downstream reply_msg replied 6 METHOD_REPLY (Some 0)) as (s1 & Hrun & Hver & Ha).
  - split_and!; [done|done|by vm_compute|done|by exists 0, []].
  - split_and!; [intros []; by eexists..|]. exists None. split; [intros []; by eexists|done].
  - destruct (Hyield 1%nat 5000 200) as (s2 & Ht & _ & Hy); [by intros []|done|].
    exists s, s1, s2. split_and!; [done|exact Hp|exact Hrun|exact Hver|exact Ha|exact Ht|].
    rewrite Hy. destruct s2 as [? ? ? ? ? ? [] ? ?]. done.
Defined.
