(* ===== verification/MqttClient.v ===== *)
(** The receiving half of the MQTT client: [uiot/mqtt/src/mqtt_client_common.c]
    (sending a serialized packet, reading a packet, the handlers of the
    packets the server sends, the read cycle, the ACK lists).

    [fuel] bounds the rounds of the loops that wait for the network; running
    out of it is [NoFuel], never a result. *)

From S2P Require Import Prelude Defs HalTimer MqttWire MqttTopic MqttState.

Section client.
Context {W H : Type} `{Env W} `{EqDecision H}.
Context (app : note H -> @St W H -> @St W H).
Context (fuel : nat).
(** [MQTT_CHECK_REPEAT_MSG] *)
Context (check_repeat : bool).

Local Abbreviation M := (@M W H).

Definition get_next_packet_id : M Z :=
  _ ← HAL_MutexLock Generic;
  _ ← mod_cl (fun c => set_next_packet_id
        (u16 (if decide (MAX_PACKET_ID = next_packet_id c) then 1 else next_packet_id c + 1)) c);
  _ ← HAL_MutexUnlock Generic;
  gets next_packet_id.

Definition set_client_conn_state (connected : Z) : M unit :=
  _ ← HAL_MutexLock Generic;
  _ ← mod_cl (set_is_connected connected);
  HAL_MutexUnlock Generic.

Definition get_client_conn_state : M Z :=
  _ ← HAL_MutexLock Generic;
  is_connected ← gets is_connected;
  _ ← HAL_MutexUnlock Generic;
  mret is_connected.

(* ------------------------------------------------------------------ *)
(** ** Sending *)

(** The bytes from [&write_buf[sent]] on: [read_buf] is the next member of
    the structure, so they may run into it. *)
Definition tx_bytes (sent length : Z) : M bytes :=
  c ← gets (fun c => c);
  mem_access (slice_at (write_buf c ++ read_buf c) sent length).

Fixpoint send_loop (fuel : nat) (length timer sent : Z) : M Z :=
  match fuel with
  | O => no_fuel
  | S fuel =>
      if decide (sent < length) then
        e ← expired timer;
        if e : bool then mret sent
        else
          l ← left timer;
          data ← tx_bytes sent length;
          send_len ← env (net_write data (u32 l));
          if decide (send_len < 0) then mret sent
          else send_loop fuel length timer (u32 (sent + send_len))
      else mret sent
  end.

Definition send_mqtt_packet (length timer : Z) : M Z :=
  size ← gets write_buf_size;
  if decide (length >= size) then mret ERR_MQTT_BUFFER_TOO_SHORT
  else
    sent ← send_loop fuel length timer 0;
    if decide (sent = length) then mret SUCCESS_RET else mret FAILURE_RET.

(* ------------------------------------------------------------------ *)
(** ** Reading *)

(** [read(&network_stack, read_buf + p, len, timeout)] *)
Definition read_into (p len timeout : Z) : M Z :=
  r ← env (fun w => let '(r, data, w) := net_read len (u32 timeout) w in ((r, data), w));
  b ← gets read_buf;
  b ← mem_access (write_at b p r.2);
  _ ← mod_cl (set_read_buf b);
  mret r.1.

(** [timer_left_ms], at least 1. *)
Definition left_pos (timer : Z) : M Z :=
  l ← left timer; mret (if decide (l <= 0) then 1 else l).

Fixpoint decode_net_loop (n : nat) (value multiplier timeout : Z) : M (Z + Z) :=
  match n with
  | O => mret (inr ERR_MQTT_PACKET_READ_ERROR)
  | S n =>
      r ← env (fun w => let '(r, data, w) := net_read 1 (u32 timeout) w in ((r, data), w));
      if decide (r.1 <= 0) then mret (inr FAILURE_RET)
      else
        i ← mem_access (get_at r.2 0);
        let value := u32 (value + (i &&& 127) * multiplier) in
        let multiplier := u32 (multiplier * 128) in
        if decide ((i &&& 128) <> 0) then decode_net_loop n value multiplier timeout
        else mret (inl value)
  end.

Definition _decode_packet_rem_len_with_net_read (timeout : Z) : M (Z + Z) :=
  decode_net_loop MAX_NO_OF_REMAINING_LENGTH_BYTES 0 1 timeout.

(** The [do ... while] that discards a packet larger than the read buffer. *)
Fixpoint drain_loop (n : nat) (rem_len total_bytes_read bytes_to_be_read timeout : Z) : M unit :=
  match n with
  | O => no_fuel
  | S n =>
      read_len ← read_into 0 bytes_to_be_read timeout;
      size ← gets read_buf_size;
      if decide (read_len > 0) then
        let total_bytes_read := u32 (total_bytes_read + read_len) in
        let bytes_to_be_read :=
          if decide (u32 (rem_len - total_bytes_read) >= size) then size
          else u32 (rem_len - total_bytes_read) in
        if decide (total_bytes_read < rem_len) then
          drain_loop n rem_len total_bytes_read bytes_to_be_read timeout
        else mret tt
      else mret tt
  end.

(** Returns the packet type, or an error code. *)
Definition _read_mqtt_packet (timer : Z) : M (Z + Z) :=
  timer_left_ms ← left_pos timer;
  read_len ← read_into 0 1 timer_left_ms;
  if decide (read_len < 0) then mret (inr read_len)
  else if decide (read_len = 0) then mret (inr ERR_MQTT_NOTHING_TO_READ)
  else
    timer_left_ms ← left_pos timer;
    r ← _decode_packet_rem_len_with_net_read (timer_left_ms + UIOT_MQTT_MAX_REMAIN_WAIT_MS);
    match r with
    | inr e => mret (inr e)
    | inl rem_len =>
        size ← gets read_buf_size;
        if decide (rem_len >= size) then
          timer_left_ms ← left_pos timer;
          _ ← drain_loop (S (Z.to_nat rem_len)) rem_len 0 size
                (timer_left_ms + UIOT_MQTT_MAX_REMAIN_WAIT_MS);
          mret (inr ERR_MQTT_BUFFER_TOO_SHORT)
        else
          b ← gets read_buf;
          '(b, n) ← mem_access (mqtt_write_packet_rem_len b 1 rem_len);
          _ ← mod_cl (set_read_buf b);
          let len := 1 + n in
          if decide (rem_len > 0 /\ u32 (len + rem_len) > size) then
            timer_left_ms ← left_pos timer;
            _ ← read_into 0 rem_len (timer_left_ms + UIOT_MQTT_MAX_REMAIN_WAIT_MS);
            mret (inr ERR_MQTT_BUFFER_TOO_SHORT)
          else
            let finish : M (Z + Z) :=
              b ← gets read_buf;
              header ← mem_access (get_at b 0);
              mret (inl (header_type header)) in
            if decide (rem_len > 0) then
              timer_left_ms ← left_pos timer;
              read_len ← read_into len rem_len (timer_left_ms + UIOT_MQTT_MAX_REMAIN_WAIT_MS);
              if decide (read_len < 0) then mret (inr read_len)
              else if decide (read_len = 0) then mret (inr ERR_MQTT_NOTHING_TO_READ)
              else finish
            else finish
    end.

(* ------------------------------------------------------------------ *)
(** ** Delivering a message *)

Fixpoint deliver_loop (idxs : list nat) (topicName : bytes) (topicNameLen : Z)
    (message : MQTTMessage) : M bool :=
  match idxs with
  | [] => mret false
  | i :: idxs =>
      hs ← gets sub_handles;
      match hs !! i with
      | None => ub
      | Some h =>
          match topic_filter h with
          | None => deliver_loop idxs topicName topicNameLen message
          | Some p =>
              filter ← string_at p;
              name ← (match cstr topicName with Some n => mret n | None => ub end);
              matched ← (if _is_topic_equals name filter then mret true
                         else mem_access (_is_topic_matched filter topicName topicNameLen));
              if matched : bool then
                _ ← HAL_MutexUnlock Generic;
                match message_handler h with
                | Some f =>
                    _ ← call app (Delivered f message (message_handler_data h));
                    mret true
                | None =>
                    _ ← HAL_MutexLock Generic;
                    deliver_loop idxs topicName topicNameLen message
                end
              else deliver_loop idxs topicName topicNameLen message
          end
      end
  end.

Definition _deliver_message (topicName : bytes) (topicNameLen : Z) (message : MQTTMessage)
  : M Z :=
  let message := mkMessage (qos message) (retained message) (dup message) (id message)
    topicName topicNameLen (payload message) (payload_len message) in
  _ ← HAL_MutexLock Generic;
  found ← deliver_loop (seq 0 MAX_SUB_TOPICS) topicName topicNameLen message;
  if found : bool then mret SUCCESS_RET
  else
    _ ← HAL_MutexUnlock Generic;
    h ← gets event_handler;
    _ ← (if h : bool then call app (NotifiedMessage message) else mret tt);
    mret SUCCESS_RET.

(* ------------------------------------------------------------------ *)
(** ** The lists of requests that wait for an acknowledgement *)

Definition mark_pub (msgId : Z) (n : positive * UIoTPubInfo) : positive * UIoTPubInfo :=
  let '(p, i) := n in
  (p, if decide (pub_msg_id i = msgId)
      then mkPubInfo (pub_start_time i) MQTT_NODE_STATE_INVALID (pub_msg_id i) (pub_len i) (pub_buf i)
      else i).

Definition _mask_pubInfo_from (msgId : Z) : M Z :=
  _ ← HAL_MutexLock ListPub;
  l ← gets list_pub_wait_ack;
  if decide (l = []) then
    _ ← HAL_MutexUnlock ListPub; mret SUCCESS_RET
  else
    iter ← malloc;
    if iter : bool then
      _ ← mod_cl (set_list_pub_wait_ack (mark_pub msgId <$> l));
      _ ← HAL_MutexUnlock ListPub; mret SUCCESS_RET
    else
      _ ← HAL_MutexUnlock ListPub; mret SUCCESS_RET.

Definition mark_sub (msgId : Z) (n : positive * UIoTSubInfo H) : positive * UIoTSubInfo H :=
  let '(p, i) := n in
  (p, if decide (sub_msg_id i = msgId)
      then mkSubInfo (sub_type i) (sub_msg_id i) (sub_start_time i) MQTT_NODE_STATE_INVALID
             (sub_handler i) (sub_len i) (sub_buf i)
      else i).

(** [*messageHandler] after the loop: the handler of the last matching node of
    the iteration, which runs from the tail; untouched if there is none. *)
Definition found_handler (msgId : Z) (l : list (positive * UIoTSubInfo H))
    (messageHandler : option (SubTopicHandle H)) : option (SubTopicHandle H) :=
  foldl (fun h n => if decide (sub_msg_id n.2 = msgId) then Some (sub_handler n.2) else h)
    messageHandler (reverse l).

(** [messageHandler] is [None] while it is uninitialised. *)
Definition _mask_sub_info_from (msgId : Z) (messageHandler : option (SubTopicHandle H))
  : M (option (SubTopicHandle H)) :=
  _ ← HAL_MutexLock ListSub;
  l ← gets list_sub_wait_ack;
  if decide (length l = 0%nat) then
    _ ← HAL_MutexUnlock ListSub; mret messageHandler
  else
    iter ← malloc;
    if iter : bool then
      _ ← mod_cl (set_list_sub_wait_ack (mark_sub msgId <$> l));
      _ ← HAL_MutexUnlock ListSub; mret (found_handler msgId l messageHandler)
    else
      _ ← HAL_MutexUnlock ListSub; mret messageHandler.

(** [list_remove] of the node at an address: the node must be in the list. *)
Definition remove_pub (p : positive) : M unit :=
  l ← gets list_pub_wait_ack;
  if decide (p ∈ l.*1) then mod_cl (set_list_pub_wait_ack (filter (fun n => n.1 <> p) l)) else ub.
Definition remove_sub (p : positive) : M unit :=
  l ← gets list_sub_wait_ack;
  if decide (p ∈ l.*1) then mod_cl (set_list_sub_wait_ack (filter (fun n => n.1 <> p) l)) else ub.

(** The two allocations are the [sub_info], whose [buf] is the packet, and the
    node of the list.  Without memory for the node the [sub_info] is not freed:
    it leaks. *)
Definition push_sub_info_to (len msgId type : Z) (handler : SubTopicHandle H)
  : M (positive + Z) :=
  _ ← HAL_MutexLock ListSub;
  l ← gets list_sub_wait_ack;
  if decide (zlen l >= Z.of_nat MAX_SUB_TOPICS) then
    _ ← HAL_MutexUnlock ListSub; mret (inr ERR_MQTT_MAX_SUBSCRIPTIONS_REACHED)
  else
    ok ← malloc;
    if negb ok then _ ← HAL_MutexUnlock ListSub; mret (inr FAILURE_RET)
    else
      timeout ← gets command_timeout_ms;
      t ← start_ms timeout;
      b ← gets write_buf;
      buf ← mem_access (slice_at b 0 len);
      ok ← malloc;
      if negb ok then _ ← leak buf; _ ← HAL_MutexUnlock ListSub; mret (inr FAILURE_RET)
      else
        let node := fresh (list_to_set (C := gset positive) l.*1) in
        _ ← mod_cl (set_list_sub_wait_ack
              (l ++ [(node, mkSubInfo type (u16 msgId) t MQTT_NODE_STATE_NORMAL handler (u16 len) buf)]));
        _ ← HAL_MutexUnlock ListSub;
        mret (inl node).

(* ------------------------------------------------------------------ *)
(** ** Packet handlers *)

Definition _handle_puback_packet : M Z :=
  c ← gets (fun c => c);
  r ← wire (deserialize_ack_packet (read_buf c) (read_buf_size c));
  match r with
  | inr e => mret e
  | inl (type, dup, packet_id) =>
      _ ← _mask_pubInfo_from packet_id;
      _ ← notify app MQTT_EVENT_PUBLISH_SUCCESS packet_id;
      mret SUCCESS_RET
  end.

(** [_check_handle_is_identical]; [true] for the return value 0. *)
Definition _check_handle_is_identical (sub_handle1 sub_handle2 : SubTopicHandle H) : M bool :=
  match topic_filter sub_handle1, topic_filter sub_handle2 with
  | Some p1, Some p2 =>
      s1 ← string_at p1;
      s2 ← string_at p2;
      if decide (zlen s1 <> zlen s2) then mret false
      else if decide (s1 <> s2) then mret false
      else if decide (message_handler sub_handle1 <> message_handler sub_handle2) then mret false
      else mret true
  | _, _ => ub
  end.

(** The search for the handle, or for the first free slot: [flag_dup] and
    [i_free] (-1 if there is none). *)
Fixpoint dup_loop (hs : list (SubTopicHandle H)) (i : Z) (sub_handle : SubTopicHandle H)
    (i_free : Z) : M (bool * Z) :=
  match hs with
  | [] => mret (false, i_free)
  | h :: hs =>
      if decide (topic_filter h <> None) then
        same ← _check_handle_is_identical h sub_handle;
        if same : bool then
          _ ← HAL_Free (topic_filter sub_handle);
          mret (true, i_free)
        else dup_loop hs (i + 1) sub_handle i_free
      else dup_loop hs (i + 1) sub_handle (if decide (i_free = -1) then i else i_free)
  end.

Definition _handle_suback_packet : M Z :=
  c ← gets (fun c => c);
  r ← wire (deserialize_suback_packet 1 [QOS0; QOS0; QOS0] (read_buf c) (read_buf_size c));
  match r with
  | inr e => mret e
  | inl (packet_id, count, grantedQoS) =>
      let sub_nack := existsb (Z.eqb 0x80) (u8 <$> take (Z.to_nat count) grantedQoS) in
      _ ← HAL_MutexLock Generic;
      let zero := mkHandle None None 0 0 in
      sub_handle ← _mask_sub_info_from packet_id (Some zero);
      let sub_handle := default zero sub_handle in
      if decide (topic_filter sub_handle = None) then
        _ ← HAL_MutexUnlock Generic; mret ERR_MQTT_SUB_FAILED
      else if sub_nack then
        _ ← notify app MQTT_EVENT_SUBSCRIBE_NACK packet_id;
        _ ← HAL_Free (topic_filter sub_handle);
        _ ← HAL_MutexUnlock Generic; mret ERR_MQTT_SUB_FAILED
      else
        hs ← gets sub_handles;
        '(flag_dup, i_free) ← dup_loop hs 0 sub_handle (-1);
        if decide (flag_dup = false /\ i_free = -1) then
          _ ← HAL_MutexUnlock Generic; mret FAILURE_RET
        else
          _ ← (if flag_dup : bool then mret tt
               else mod_cl (fun c => set_sub_handles
                      (<[Z.to_nat i_free := sub_handle]> (sub_handles c)) c));
          _ ← HAL_MutexUnlock Generic;
          _ ← notify app MQTT_EVENT_SUBSCRIBE_SUCCESS packet_id;
          mret SUCCESS_RET
  end.

Definition _handle_unsuback_packet : M Z :=
  c ← gets (fun c => c);
  r ← wire (deserialize_unsuback_packet (read_buf c) (read_buf_size c));
  match r with
  | inr e => mret e
  | inl packet_id =>
      messageHandler ← _mask_sub_info_from packet_id None;
      _ ← HAL_MutexLock Generic;
      match messageHandler with
      | None => ub
      | Some h =>
          _ ← HAL_Free (topic_filter h);
          _ ← notify app MQTT_EVENT_UNSUBSCRIBE_SUCCESS packet_id;
          _ ← HAL_MutexUnlock Generic;
          mret SUCCESS_RET
      end
  end.

(** The ring of the packet ids received, when [MQTT_CHECK_REPEAT_MSG] is set. *)
Definition MQTT_MAX_REPEAT_BUF_LEN : nat := 50.

Definition _get_packet_id_in_repeat_buf (packet_id : Z) : M Z :=
  s ← get;
  mret (if decide (packet_id ∈ sg_repeat_packet_id_buf s) then packet_id else -1).

Definition _add_packet_id_to_repeat_buf (packet_id : Z) : M unit :=
  r ← _get_packet_id_in_repeat_buf packet_id;
  if decide (r > 0) then mret tt
  else
    modify (fun s =>
      let cnt := current_packet_id_cnt s in
      let buf := <[Z.to_nat cnt := packet_id]> (sg_repeat_packet_id_buf s) in
      let cnt := cnt + 1 in
      let cnt := if decide (cnt >= Z.of_nat MQTT_MAX_REPEAT_BUF_LEN) then cnt `mod` 50 else cnt in
      mkSt (cl s) (heap s) (world s) (trace s) buf cnt).

Definition reset_repeat_packet_id_buffer : M unit :=
  modify (fun s => mkSt (cl s) (heap s) (world s) (trace s)
    (replicate MQTT_MAX_REPEAT_BUF_LEN 0) (current_packet_id_cnt s)).

Definition _handle_publish_packet (timer : Z) : M Z :=
  c ← gets (fun c => c);
  r ← wire (deserialize_publish_packet (read_buf c) (read_buf_size c));
  match r with
  | inr e => mret e
  | inl f =>
      let fix_topic := replicate (Z.to_nat MAX_SIZE_OF_CLOUD_TOPIC) 0 in
      let topic_len := if decide (pk_topic_len f > MAX_SIZE_OF_CLOUD_TOPIC)
                       then MAX_SIZE_OF_CLOUD_TOPIC - 1 else pk_topic_len f in
      topic_name ← mem_access (slice_at (read_buf c) (pk_topic f) topic_len);
      fix_topic ← mem_access (write_at fix_topic 0 topic_name);
      let msg := mkMessage (pk_qos f) (pk_retained f) (pk_dup f) (pk_id f) [] 0
                   (pk_payload f) (pk_payload_len f) in
      if decide (QOS0 = pk_qos f) then _deliver_message fix_topic topic_len msg
      else
        let msg_id := default 0 (pk_id f) in
        ret ← (if check_repeat then
                 repeat_id ← _get_packet_id_in_repeat_buf msg_id;
                 ret ← (if decide (repeat_id < 0) then _deliver_message fix_topic topic_len msg
                        else mret SUCCESS_RET);
                 if decide (SUCCESS_RET <> ret) then mret ret
                 else _ ← _add_packet_id_to_repeat_buf msg_id; mret ret
               else _deliver_message fix_topic topic_len msg);
        if decide (SUCCESS_RET <> ret) then mret ret
        else
          _ ← HAL_MutexLock WriteBuf;
          c ← gets (fun c => c);
          r ← wire (serialize_pub_ack_packet (write_buf c) (write_buf_size c)
                      (if decide (QOS1 = pk_qos f) then PUBACK else PUBREC) 0 msg_id);
          match r with
          | inr e => _ ← HAL_MutexUnlock WriteBuf; mret e
          | inl (b, len) =>
              _ ← mod_cl (set_write_buf b);
              ret ← send_mqtt_packet len timer;
              _ ← HAL_MutexUnlock WriteBuf;
              mret ret
          end
  end.

Definition _handle_pubrec_packet (timer : Z) : M Z :=
  c ← gets (fun c => c);
  r ← wire (deserialize_ack_packet (read_buf c) (read_buf_size c));
  match r with
  | inr e => mret e
  | inl (type, dup, packet_id) =>
      _ ← HAL_MutexLock WriteBuf;
      c ← gets (fun c => c);
      r ← wire (serialize_pub_ack_packet (write_buf c) (write_buf_size c) PUBREL 0 packet_id);
      match r with
      | inr e => _ ← HAL_MutexUnlock WriteBuf; mret e
      | inl (b, len) =>
          _ ← mod_cl (set_write_buf b);
          ret ← send_mqtt_packet len timer;
          _ ← HAL_MutexUnlock WriteBuf;
          mret ret
      end
  end.

Definition _handle_pingresp_packet : M unit :=
  _ ← HAL_MutexLock Generic;
  _ ← mod_cl (set_is_ping_outstanding 0);
  interval ← gets (fun c => keep_alive_interval (options c));
  t ← start_s interval;
  _ ← mod_cl (set_ping_timer t);
  HAL_MutexUnlock Generic.

(* ------------------------------------------------------------------ *)
(** ** The read cycle *)

(** [*packet_type] comes in and goes out: a cycle without a packet leaves it
    unchanged. *)
Definition cycle_for_read (timer packet_type : Z) : M (Z * Z) :=
  r ← _read_mqtt_packet timer;
  match r with
  | inr ret =>
      if decide (ERR_MQTT_NOTHING_TO_READ = ret) then mret (SUCCESS_RET, packet_type)
      else mret (ret, packet_type)
  | inl packet_type =>
      handled ← (match packet_type with
                 | 2 => mret (Some SUCCESS_RET)
                 | 4 => r ← _handle_puback_packet; mret (Some r)
                 | 9 => r ← _handle_suback_packet; mret (Some r)
                 | 11 => r ← _handle_unsuback_packet; mret (Some r)
                 | 3 => r ← _handle_publish_packet timer; mret (Some r)
                 | 5 => r ← _handle_pubrec_packet timer; mret (Some r)
                 | 6 => mret (Some SUCCESS_RET)
                 | 7 => mret (Some SUCCESS_RET)
                 | 13 => mret (Some SUCCESS_RET)
                 | _ => mret None
                 end);
      match handled with
      | None => mret (ERR_MQTT_RX_MESSAGE_PACKET_TYPE_INVALID, packet_type)
      | Some ret =>
          _ ← (if decide (packet_type = PUBACK \/ packet_type = SUBACK \/
                           packet_type = UNSUBACK \/ packet_type = PINGRESP)
               then _handle_pingresp_packet
               else if decide (packet_type = PUBLISH) then
                 _ ← HAL_MutexLock Generic;
                 _ ← mod_cl (set_is_ping_outstanding 0);
                 HAL_MutexUnlock Generic
               else mret tt);
          mret (ret, packet_type)
      end
  end.

Fixpoint wait_loop (n : nat) (packet_type timer read_packet_type : Z) : M Z :=
  match n with
  | O => no_fuel
  | S n =>
      e ← expired timer;
      if e : bool then mret ERR_MQTT_REQUEST_TIMEOUT
      else
        '(ret, read_packet_type) ← cycle_for_read timer read_packet_type;
        if decide (SUCCESS_RET = ret /\ read_packet_type <> packet_type)
        then wait_loop n packet_type timer read_packet_type
        else mret ret
  end.

Definition wait_for_read (packet_type timer : Z) : M Z := wait_loop fuel packet_type timer 0.

End client.
