(* ===== verification/MqttSession.v ===== *)
(** The requesting half of the MQTT client: publish, subscribe, unsubscribe
    ([mqtt_client_publish.c], [mqtt_client_subscribe.c],
    [mqtt_client_unsubscribe.c]), connect, reconnect and disconnect
    ([mqtt_client_connect.c]), and the yield loop with the keep-alive and the
    sweeps of the ACK lists ([mqtt_client_yield.c]). *)

From S2P Require Import Prelude Defs HalTimer MqttWire MqttTopic MqttState MqttClient.

Section session.
Context {W H : Type} `{Env W} `{EqDecision H}.
Context (app : note H -> @St W H -> @St W H).
Context (fuel : nat) (check_repeat : bool).

Local Abbreviation M := (@M W H).
Local Abbreviation send := (send_mqtt_packet fuel).
Local Abbreviation cycle := (cycle_for_read app fuel check_repeat).

(* ------------------------------------------------------------------ *)
(** ** Publish *)

(** [PublishParams]; [p_payload] is the object the pointer leads to. *)
Record PublishParams := mkPublishParams {
  p_qos : Z;
  p_retained : Z;
  p_id : Z;
  p_payload : option bytes;
  p_payload_len : Z
}.

(** The address of the new node, or an error code.  As in [push_sub_info_to],
    without memory for the node the [repubInfo] leaks. *)
Definition _mask_push_pubInfo_to (len msgId : Z) : M (positive + Z) :=
  size ← gets write_buf_size;
  if decide (len < 0 \/ len > size) then mret (inr FAILURE_RET)
  else
    _ ← HAL_MutexLock ListPub;
    l ← gets list_pub_wait_ack;
    if decide (zlen l >= MAX_REPUB_NUM) then
      _ ← HAL_MutexUnlock ListPub; mret (inr FAILURE_RET)
    else
      ok ← malloc;
      if negb ok then _ ← HAL_MutexUnlock ListPub; mret (inr FAILURE_RET)
      else
        timeout ← gets command_timeout_ms;
        t ← start_ms timeout;
        b ← gets write_buf;
        buf ← mem_access (slice_at b 0 len);
        ok ← malloc;
        if negb ok then _ ← leak buf; _ ← HAL_MutexUnlock ListPub; mret (inr FAILURE_RET)
        else
          let node := fresh (list_to_set (C := gset positive) l.*1) in
          _ ← mod_cl (set_list_pub_wait_ack
                (l ++ [(node, mkPubInfo t MQTT_NODE_STATE_NORMAL msgId len buf)]));
          _ ← HAL_MutexUnlock ListPub;
          mret (inl node).

(** A NULL or empty string argument ([STRING_PTR_VALID_CHECK]). *)
Definition string_valid (s : option bytes) : bool :=
  match s with None => false | Some s => negb (bool_decide (zlen s = 0)) end.

Definition uiot_mqtt_publish (topicName : option bytes) (pParams : PublishParams) : M Z :=
  match topicName with
  | None => mret ERR_PARAM_INVALID
  | Some name =>
      if negb (string_valid topicName) then mret ERR_PARAM_INVALID
      else if decide (zlen name > MAX_SIZE_OF_CLOUD_TOPIC) then mret ERR_MAX_TOPIC_LENGTH
      else if decide (p_qos pParams = QOS2) then mret ERR_MQTT_QOS_NOT_SUPPORT
      else
        st ← get_client_conn_state;
        if decide (st = 0) then mret ERR_MQTT_NO_CONN
        else
          c ← gets (fun c => c);
          timer ← start_ms (command_timeout_ms c);
          _ ← HAL_MutexLock WriteBuf;
          pid ← (if decide (p_qos pParams = QOS1) then get_next_packet_id
                 else mret (p_id pParams));
          c ← gets (fun c => c);
          r ← wire (_serialize_publish_packet (write_buf c) (write_buf_size c) 0 (p_qos pParams)
                      (p_retained pParams) pid name (p_payload pParams) (p_payload_len pParams));
          match r with
          | inr e => _ ← HAL_MutexUnlock WriteBuf; mret e
          | inl (b, len) =>
              _ ← mod_cl (set_write_buf b);
              node ← (if decide (p_qos pParams > QOS0) then
                        r ← _mask_push_pubInfo_to (s32 len) pid;
                        mret (match r with inl n => inl (Some n) | inr e => inr e end)
                      else mret (inl None));
              match node with
              | inr e => _ ← HAL_MutexUnlock WriteBuf; mret e
              | inl node =>
                  ret ← send len timer;
                  if decide (SUCCESS_RET <> ret) then
                    _ ← (match node with
                         | Some n =>
                             _ ← HAL_MutexLock ListPub;
                             _ ← remove_pub n;
                             HAL_MutexUnlock ListPub
                         | None => mret tt
                         end);
                    _ ← HAL_MutexUnlock WriteBuf;
                    mret ret
                  else
                    _ ← HAL_MutexUnlock WriteBuf;
                    mret pid
              end
          end
  end.

(* ------------------------------------------------------------------ *)
(** ** Subscribe *)

Record SubscribeParams := mkSubscribeParams {
  s_qos : Z;
  on_message_handler : option H;
  user_data : Z
}.

(** Behind a send that failed: the node is removed, the string freed. *)
Definition undo_request (node : positive) (topic : option positive) : M unit :=
  _ ← HAL_MutexLock ListSub;
  _ ← remove_sub node;
  _ ← HAL_MutexUnlock ListSub;
  _ ← HAL_MutexUnlock WriteBuf;
  HAL_Free topic.

Definition uiot_mqtt_subscribe (topicFilter : option bytes) (pParams : SubscribeParams) : M Z :=
  match topicFilter with
  | None => mret ERR_PARAM_INVALID
  | Some filter =>
      if negb (string_valid topicFilter) then mret ERR_PARAM_INVALID
      else if decide (zlen filter > MAX_SIZE_OF_CLOUD_TOPIC) then mret ERR_MAX_TOPIC_LENGTH
      else if decide (s_qos pParams = QOS2) then mret ERR_MQTT_QOS_NOT_SUPPORT
      else
        st ← get_client_conn_state;
        if decide (st = 0) then mret ERR_MQTT_NO_CONN
        else
          topic_filter_stored ← new_string filter;
          match topic_filter_stored with
          | None => mret FAILURE_RET
          | Some _ =>
              c ← gets (fun c => c);
              timer ← start_ms (command_timeout_ms c);
              _ ← HAL_MutexLock WriteBuf;
              packet_id ← get_next_packet_id;
              c ← gets (fun c => c);
              r ← wire (_serialize_subscribe_packet (write_buf c) (write_buf_size c) 0 packet_id 1
                          filter [s_qos pParams]);
              match r with
              | inr e =>
                  _ ← HAL_MutexUnlock WriteBuf; _ ← HAL_Free topic_filter_stored; mret e
              | inl (b, len) =>
                  _ ← mod_cl (set_write_buf b);
                  r ← push_sub_info_to len packet_id SUBSCRIBE
                        (mkHandle topic_filter_stored (on_message_handler pParams)
                           (user_data pParams) (s_qos pParams));
                  match r with
                  | inr e =>
                      _ ← HAL_MutexUnlock WriteBuf; _ ← HAL_Free topic_filter_stored; mret e
                  | inl node =>
                      ret ← send len timer;
                      if decide (SUCCESS_RET <> ret) then
                        _ ← undo_request node topic_filter_stored; mret ret
                      else _ ← HAL_MutexUnlock WriteBuf; mret packet_id
                  end
              end
          end
  end.

Fixpoint resubscribe_loop (idxs : list nat) : M Z :=
  match idxs with
  | [] => mret SUCCESS_RET
  | i :: idxs =>
      hs ← gets sub_handles;
      match hs !! i with
      | None => ub
      | Some h =>
          match topic_filter h with
          | None => resubscribe_loop idxs
          | Some p =>
              topic ← string_at p;
              ret ← uiot_mqtt_subscribe (Some topic)
                      (mkSubscribeParams (handler_qos h) (message_handler h) (message_handler_data h));
              if decide (ret < 0) then mret ret else resubscribe_loop idxs
          end
      end
  end.

Definition uiot_mqtt_resubscribe : M Z :=
  st ← get_client_conn_state;
  if decide (st = 0) then mret ERR_MQTT_NO_CONN
  else resubscribe_loop (seq 0 MAX_SUB_TOPICS).

(* ------------------------------------------------------------------ *)
(** ** Unsubscribe *)

(** [strstr(s, pat) != NULL] *)
Fixpoint strstr (s pat : bytes) : bool :=
  bool_decide (take (length pat) s = pat) ||
  match s with [] => false | _ :: s => strstr s pat end.

(** The loop over [sub_handles]; the result is [suber_exists]. *)
Fixpoint clear_loop (idxs : list nat) (topicFilter : bytes) (suber_exists : bool) : M bool :=
  match idxs with
  | [] => mret suber_exists
  | i :: idxs =>
      hs ← gets sub_handles;
      match hs !! i with
      | None => ub
      | Some h =>
          same ← (match topic_filter h with
                  | None => mret false
                  | Some p => s ← string_at p; mret (bool_decide (s = topicFilter))
                  end);
          if same || strstr topicFilter (bytes_of "/#") || strstr topicFilter (bytes_of "/+") then
            _ ← HAL_Free (topic_filter h);
            _ ← mod_cl (fun c => set_sub_handles (<[i := mkHandle None (message_handler h)
                  (message_handler_data h) (handler_qos h)]> (sub_handles c)) c);
            clear_loop idxs topicFilter true
          else clear_loop idxs topicFilter suber_exists
      end
  end.

(** The code leaves the [qos] of the local handle uninitialised; it is 0 here.
    Only [uiot_mqtt_resubscribe] reads that field, of handles that were
    installed, which the handle of an unsubscription is not (unless the server
    answers it with a SUBACK). *)
Definition uiot_mqtt_unsubscribe (topicFilter : option bytes) : M Z :=
  match topicFilter with
  | None => mret ERR_PARAM_INVALID
  | Some filter =>
      if negb (string_valid topicFilter) then mret ERR_PARAM_INVALID
      else if decide (zlen filter > MAX_SIZE_OF_CLOUD_TOPIC) then mret ERR_MAX_TOPIC_LENGTH
      else
        _ ← HAL_MutexLock Generic;
        suber_exists ← clear_loop (seq 0 MAX_SUB_TOPICS) filter false;
        _ ← HAL_MutexUnlock Generic;
        if negb suber_exists then mret ERR_MQTT_UNSUB_FAILED
        else
          st ← get_client_conn_state;
          if decide (st = 0) then mret ERR_MQTT_NO_CONN
          else
            topic_filter_stored ← new_string filter;
            match topic_filter_stored with
            | None => mret FAILURE_RET
            | Some _ =>
                c ← gets (fun c => c);
                timer ← start_ms (command_timeout_ms c);
                _ ← HAL_MutexLock WriteBuf;
                packet_id ← get_next_packet_id;
                c ← gets (fun c => c);
                r ← wire (_serialize_unsubscribe_packet (write_buf c) (write_buf_size c) 0
                            packet_id 1 filter);
                match r with
                | inr e =>
                    _ ← HAL_MutexUnlock WriteBuf; _ ← HAL_Free topic_filter_stored; mret e
                | inl (b, len) =>
                    _ ← mod_cl (set_write_buf b);
                    r ← push_sub_info_to len packet_id UNSUBSCRIBE
                          (mkHandle topic_filter_stored None 0 0);
                    match r with
                    | inr e =>
                        _ ← HAL_MutexUnlock WriteBuf; _ ← HAL_Free topic_filter_stored; mret e
                    | inl node =>
                        ret ← send len timer;
                        if decide (SUCCESS_RET <> ret) then
                          _ ← undo_request node topic_filter_stored; mret ret
                        else _ ← HAL_MutexUnlock WriteBuf; mret packet_id
                    end
                end
            end
  end.

(* ------------------------------------------------------------------ *)
(** ** Connect, reconnect, disconnect *)

Definition _copy_connect_params (destination source : MQTTConnectParams) : MQTTConnectParams :=
  mkConnectParams (client_id source) (username source) (password source) (mqtt_version source)
    (keep_alive_interval source) (clean_session source) (auto_connect_enable source).

Definition network_disconnect : M unit := _ ← env net_disconnect; mret tt.

Definition _mqtt_connect (opts : option MQTTConnectParams) : M Z :=
  c ← gets (fun c => c);
  connect_timer ← start_ms (command_timeout_ms c);
  _ ← (match opts with
       | Some o => mod_cl (fun c => set_options (_copy_connect_params (options c) o) c)
       | None => mret tt
       end);
  ret ← env net_connect;
  if decide (SUCCESS_RET <> ret) then mret ret
  else
    _ ← HAL_MutexLock WriteBuf;
    c ← gets (fun c => c);
    r ← wire (_serialize_connect_packet (write_buf c) (write_buf_size c) (options c));
    match r with
    | inr e => _ ← HAL_MutexUnlock WriteBuf; mret e
    | inl (b, len) =>
        _ ← mod_cl (set_write_buf b);
        if decide (0 = len) then _ ← HAL_MutexUnlock WriteBuf; mret SUCCESS_RET
        else
          ret ← send len connect_timer;
          if decide (SUCCESS_RET <> ret) then _ ← HAL_MutexUnlock WriteBuf; mret ret
          else
            _ ← HAL_MutexUnlock WriteBuf;
            ret ← wait_for_read app fuel check_repeat CONNACK connect_timer;
            if decide (SUCCESS_RET <> ret) then mret ret
            else
              c ← gets (fun c => c);
              r ← wire (_deserialize_connack_packet (read_buf c) (read_buf_size c));
              match r with
              | inr e => mret e
              | inl (sessionPresent, connack_rc) =>
                  if decide (MQTT_CONNECTION_ACCEPTED <> connack_rc) then mret connack_rc
                  else
                    _ ← set_client_conn_state 1;
                    _ ← HAL_MutexLock Generic;
                    _ ← mod_cl (set_was_manually_disconnected 0);
                    _ ← mod_cl (set_is_ping_outstanding 0);
                    interval ← gets (fun c => keep_alive_interval (options c));
                    t ← start_s interval;
                    _ ← mod_cl (set_ping_timer t);
                    _ ← HAL_MutexUnlock Generic;
                    mret SUCCESS_RET
              end
    end.

Definition uiot_mqtt_connect (pParams : option MQTTConnectParams) : M Z :=
  match pParams with
  | None => mret ERR_PARAM_INVALID
  | Some _ =>
      st ← get_client_conn_state;
      if decide (st <> 0) then mret MQTT_ALREADY_CONNECTED
      else
        ret ← _mqtt_connect pParams;
        _ ← (if decide (ret <> SUCCESS_RET) then network_disconnect else mret tt);
        mret ret
  end.

Definition uiot_mqtt_attempt_reconnect : M Z :=
  st ← get_client_conn_state;
  if decide (st <> 0) then mret MQTT_ALREADY_CONNECTED
  else
    opts ← gets options;
    ret ← uiot_mqtt_connect (Some opts);
    st ← get_client_conn_state;
    if decide (st = 0) then mret ret
    else
      ret ← uiot_mqtt_resubscribe;
      if decide (ret <> SUCCESS_RET) then mret ret else mret MQTT_RECONNECTED.

Definition uiot_mqtt_disconnect : M Z :=
  st ← get_client_conn_state;
  if decide (st = 0) then mret ERR_MQTT_NO_CONN
  else
    _ ← HAL_MutexLock WriteBuf;
    c ← gets (fun c => c);
    r ← wire (serialize_packet_with_zero_payload (write_buf c) (write_buf_size c) DISCONNECT);
    _ ← (match r with
         | inr e => mret tt
         | inl (b, serialized_len) =>
             _ ← mod_cl (set_write_buf b);
             c ← gets (fun c => c);
             timer ← start_ms (command_timeout_ms c);
             if decide (serialized_len > 0) then _ ← send serialized_len timer; mret tt
             else mret tt
         end);
    _ ← HAL_MutexUnlock WriteBuf;
    _ ← network_disconnect;
    _ ← set_client_conn_state 0;
    _ ← mod_cl (set_was_manually_disconnected 1);
    mret SUCCESS_RET.

(* ------------------------------------------------------------------ *)
(** ** The yield loop *)

Definition _iot_disconnect_callback : M unit := notify app MQTT_EVENT_DISCONNECT 0.
Definition _reconnect_callback : M unit := notify app MQTT_EVENT_RECONNECT 0.

Definition _handle_disconnect : M Z :=
  st ← get_client_conn_state;
  if decide (0 = st) then mret ERR_MQTT_NO_CONN
  else
    ret ← uiot_mqtt_disconnect;
    _ ← (if decide (ret <> SUCCESS_RET) then
           _ ← network_disconnect; set_client_conn_state 0
         else mret tt);
    _ ← _iot_disconnect_callback;
    _ ← mod_cl (set_was_manually_disconnected 0);
    mret ERR_MQTT_NO_CONN.

(** [ENABLE_INFINITE_RECONNECT] is 1. *)
Definition _handle_reconnect : M Z :=
  c ← gets (fun c => c);
  e ← expired (reconnect_delay_timer c);
  if negb e then mret ERR_MQTT_ATTEMPTING_RECONNECT
  else
    ret ← uiot_mqtt_attempt_reconnect;
    if decide (ret = MQTT_RECONNECTED) then
      _ ← _reconnect_callback; mret ret
    else
      _ ← mod_cl (fun c => set_current_reconnect_wait_interval
            (u32 (current_reconnect_wait_interval c * 2)) c);
      _ ← mod_cl (fun c =>
            if decide (MAX_RECONNECT_WAIT_INTERVAL < current_reconnect_wait_interval c)
            then set_current_reconnect_wait_interval MAX_RECONNECT_WAIT_INTERVAL c else c);
      c ← gets (fun c => c);
      t ← start_ms (current_reconnect_wait_interval c);
      _ ← mod_cl (set_reconnect_delay_timer t);
      mret ERR_MQTT_ATTEMPTING_RECONNECT.

(** [do { ... } while (SUCCESS_RET != ret && (i++ < 3))]: at most four sends. *)
Fixpoint ping_loop (n : nat) (serialized_len : Z) : M Z :=
  c ← gets (fun c => c);
  timer ← start_ms (command_timeout_ms c);
  ret ← send serialized_len timer;
  if decide (SUCCESS_RET <> ret) then
    match n with O => mret ret | S n => ping_loop n serialized_len end
  else mret ret.

Definition _mqtt_keep_alive : M Z :=
  c ← gets (fun c => c);
  if decide (0 = keep_alive_interval (options c)) then mret SUCCESS_RET
  else
    e ← expired (ping_timer c);
    if negb e then mret SUCCESS_RET
    else if decide (is_ping_outstanding c >= MQTT_PING_RETRY_TIMES) then _handle_disconnect
    else
      _ ← HAL_MutexLock WriteBuf;
      c ← gets (fun c => c);
      r ← wire (serialize_packet_with_zero_payload (write_buf c) (write_buf_size c) PINGREQ);
      match r with
      | inr e => _ ← HAL_MutexUnlock WriteBuf; mret e
      | inl (b, serialized_len) =>
          _ ← mod_cl (set_write_buf b);
          ret ← ping_loop 3 serialized_len;
          if decide (SUCCESS_RET <> ret) then
            _ ← HAL_MutexUnlock WriteBuf; _handle_disconnect
          else
            _ ← HAL_MutexUnlock WriteBuf;
            _ ← HAL_MutexLock Generic;
            _ ← mod_cl (fun c => set_is_ping_outstanding (u8 (is_ping_outstanding c + 1)) c);
            c ← gets (fun c => c);
            t ← start_s (Z.min 5 (keep_alive_interval (options c) `div` 2));
            _ ← mod_cl (set_ping_timer t);
            _ ← HAL_MutexUnlock Generic;
            mret SUCCESS_RET
      end.

(** The sweep of [uiot_mqtt_pub_info_proc]: [nodes] are the addresses the
    iterator will yield, from the tail; nodes that a callback appends lie
    behind its start. *)
Definition set_pub_timer (p : positive) (t : Z) (l : list (positive * UIoTPubInfo))
  : list (positive * UIoTPubInfo) :=
  (fun n => if decide (n.1 = p)
            then (n.1, mkPubInfo t (pub_node_state n.2) (pub_msg_id n.2) (pub_len n.2) (pub_buf n.2))
            else n) <$> l.

Definition node_at {A} (p : positive) (l : list (positive * A)) : option A :=
  snd <$> List.find (fun n => bool_decide (n.1 = p)) l.

Fixpoint pub_sweep (nodes : list positive) (temp_node : option positive) : M unit :=
  _ ← (match temp_node with Some t => remove_pub t | None => mret tt end);
  match nodes with
  | [] => mret tt
  | node :: nodes =>
      c ← gets (fun c => c);
      match node_at node (list_pub_wait_ack c) with
      | None => ub
      | Some repubInfo =>
          if decide (MQTT_NODE_STATE_INVALID = pub_node_state repubInfo) then
            pub_sweep nodes (Some node)
          else if decide (is_connected c = 0) then pub_sweep nodes None
          else
            l ← left (pub_start_time repubInfo);
            if decide (l > 0) then pub_sweep nodes None
            else
              _ ← HAL_MutexUnlock ListPub;
              t ← start_ms (command_timeout_ms c);
              _ ← mod_cl (fun c => set_list_pub_wait_ack
                    (set_pub_timer node t (list_pub_wait_ack c)) c);
              _ ← HAL_MutexLock ListPub;
              _ ← notify app MQTT_EVENT_PUBLISH_TIMEOUT (pub_msg_id repubInfo);
              pub_sweep nodes (Some node)
      end
  end.

Definition uiot_mqtt_pub_info_proc : M Z :=
  _ ← HAL_MutexLock ListPub;
  l ← gets list_pub_wait_ack;
  _ ← (if decide (length l = 0%nat) then mret tt
       else
         iter ← malloc;
         if iter : bool then pub_sweep (reverse l.*1) None else mret tt);
  _ ← HAL_MutexUnlock ListPub;
  mret SUCCESS_RET.

Fixpoint sub_sweep (nodes : list positive) (temp_node : option positive) : M unit :=
  _ ← (match temp_node with Some t => remove_sub t | None => mret tt end);
  match nodes with
  | [] => mret tt
  | node :: nodes =>
      c ← gets (fun c => c);
      match node_at node (list_sub_wait_ack c) with
      | None => ub
      | Some sub_info =>
          if decide (MQTT_NODE_STATE_INVALID = sub_node_state sub_info) then
            sub_sweep nodes (Some node)
          else if decide (is_connected c <= 0) then sub_sweep nodes None
          else
            l ← left (sub_start_time sub_info);
            if decide (l > 0) then sub_sweep nodes None
            else
              _ ← notify app (if decide (SUBSCRIBE = sub_type sub_info)
                              then MQTT_EVENT_SUBSCRIBE_TIMEOUT else MQTT_EVENT_UNSUBSCRIBE_TIMEOUT)
                    (sub_msg_id sub_info);
              _ ← HAL_Free (topic_filter (sub_handler sub_info));
              sub_sweep nodes (Some node)
      end
  end.

Definition uiot_mqtt_sub_info_proc : M Z :=
  _ ← HAL_MutexLock ListSub;
  l ← gets list_sub_wait_ack;
  _ ← (if decide (length l = 0%nat) then mret tt
       else
         iter ← malloc;
         if iter : bool then sub_sweep (reverse l.*1) None else mret tt);
  _ ← HAL_MutexUnlock ListSub;
  mret SUCCESS_RET.

(** One round of the yield loop: the new [ret], and whether to [break]. *)
Definition yield_round (timer packet_type : Z) : M (Z * Z * bool) :=
  st ← get_client_conn_state;
  if decide (st = 0) then
    c ← gets (fun c => c);
    if decide (current_reconnect_wait_interval c > MAX_RECONNECT_WAIT_INTERVAL) then
      mret (ERR_MQTT_RECONNECT_TIMEOUT, packet_type, true)
    else ret ← _handle_reconnect; mret (ret, packet_type, false)
  else
    _ ← modify (fun s => set_world (HAL_SleepMs 10 (world s)) s);
    '(ret, packet_type) ← cycle timer packet_type;
    ret ← (if decide (ret = SUCCESS_RET) then
             _ ← uiot_mqtt_pub_info_proc;
             _ ← uiot_mqtt_sub_info_proc;
             _mqtt_keep_alive
           else if decide (ret = ERR_SSL_READ_TIMEOUT \/ ret = ERR_SSL_READ_FAILED \/
                           ret = ERR_TCP_PEER_SHUTDOWN \/ ret = ERR_TCP_READ_FAILED) then
             _handle_disconnect
           else if decide (ret = FAILURE_RET) then mret SUCCESS_RET
           else mret ret);
    if decide (ret = ERR_MQTT_NO_CONN) then
      _ ← mod_cl (fun c => set_counter_network_disconnected
            (u32 (counter_network_disconnected c + 1)) c);
      c ← gets (fun c => c);
      if decide (auto_connect_enable (options c) = 1) then
        _ ← mod_cl (set_current_reconnect_wait_interval MIN_RECONNECT_WAIT_INTERVAL);
        t ← start_ms MIN_RECONNECT_WAIT_INTERVAL;
        _ ← mod_cl (set_reconnect_delay_timer t);
        mret (ERR_MQTT_ATTEMPTING_RECONNECT, packet_type, false)
      else mret (ret, packet_type, true)
    else if decide (ret <> SUCCESS_RET) then mret (ret, packet_type, true)
    else mret (ret, packet_type, false).

Fixpoint yield_loop (n : nat) (timer packet_type ret : Z) : M Z :=
  match n with
  | O => no_fuel
  | S n =>
      e ← expired timer;
      if e : bool then mret ret
      else
        '(ret, packet_type, break) ← yield_round timer packet_type;
        if break : bool then mret ret else yield_loop n timer packet_type ret
  end.

Definition uiot_mqtt_yield (timeout_ms : Z) : M Z :=
  if decide (0 = timeout_ms) then mret ERR_PARAM_INVALID
  else
    st ← get_client_conn_state;
    c ← gets (fun c => c);
    if decide (st = 0 /\ was_manually_disconnected c = 1) then mret MQTT_MANUALLY_DISCONNECTED
    else
      st ← get_client_conn_state;
      if decide (st = 0 /\ auto_connect_enable (options c) = 0) then mret ERR_MQTT_NO_CONN
      else
        timer ← start_ms timeout_ms;
        yield_loop fuel timer 0 SUCCESS_RET.

(** Counters and switches of [mqtt_client.c] *)
Definition uiot_mqtt_set_autoreconnect (value : bool) : M Z :=
  _ ← mod_cl (fun c => let o := options c in set_options (mkConnectParams (client_id o) (username o)
        (password o) (mqtt_version o) (keep_alive_interval o) (clean_session o)
        (if value then 1 else 0)) c);
  mret SUCCESS_RET.
Definition uiot_mqtt_is_autoreconnect_enabled : M bool :=
  o ← gets options; mret (bool_decide (auto_connect_enable o = 1)).
Definition uiot_mqtt_get_network_disconnected_count : M Z := gets counter_network_disconnected.
Definition uiot_mqtt_reset_network_disconnected_count : M Z :=
  _ ← mod_cl (set_counter_network_disconnected 0); mret SUCCESS_RET.

End session.
