(* ===== verification/MqttApi.v ===== *)
(** The life of a client: [uiot/mqtt/src/mqtt_client.c].

    Initialisation, construction and destruction create and destroy objects of
    the operating system (mutexes) and blocks of memory (the two lists, the
    strings of the connect parameters); the environment keeps their account.
    The requests of the application are a data type, so that theorems can
    speak about every sequence of them. *)

From S2P Require Import Prelude Defs HalTimer MqttWire MqttTopic MqttState MqttClient MqttSession.

(** [HAL_MutexCreate] (which may fail), [HAL_MutexDestroy], and [HAL_Free] of a
    block that is no topic filter. *)
Class Resources (W : Type) := {
  mutex_create : W -> bool * W;
  mutex_destroy : W -> W;
  block_free : W -> W
}.

Section api.
Context {W H : Type} `{Env W} `{Resources W} `{EqDecision H}.
Context (app : note H -> @St W H -> @St W H).
Context (fuel : nat) (check_repeat : bool).
Local Abbreviation M := (@M W H).

Record MQTTInitParams := mkInitParams {
  product_sn : option bytes;
  device_sn : option bytes;
  product_secret : option bytes;
  device_secret : option bytes;
  command_timeout : Z;
  i_keep_alive_interval : Z;
  i_clean_session : Z;
  i_auto_connect_enable : Z;
  i_event_handler : bool
}.

(* ------------------------------------------------------------------ *)
(** ** Initialisation *)

Definition HOST_STR_LENGTH := 64.
Definition UIOT_MQTT_DIRECT_DOMAIN : bytes := bytes_of "mqtt-cn-sh2.iot.ucloud.cn".

(** [UIoT_Client] after [memset], with the fields that [uiot_mqtt_init] sets
    before it creates anything. *)
Definition fresh_client (timeout : Z) (handler : bool) : @Client H :=
  mkClient 0 0 0 1 timeout 0 0 UIOT_MQTT_TX_BUF_LEN UIOT_MQTT_RX_BUF_LEN
    (replicate (Z.to_nat UIOT_MQTT_TX_BUF_LEN) 0) (replicate (Z.to_nat UIOT_MQTT_RX_BUF_LEN) 0)
    0 0 0 0 [] [] handler (mkConnectParams None None None 0 0 0 0) 0 0
    (replicate MAX_SUB_TOPICS (mkHandle None None 0 0)).

Definition clamp_timeout (command_timeout : Z) : Z :=
  let t := if decide (command_timeout < MIN_COMMAND_TIMEOUT) then MIN_COMMAND_TIMEOUT
           else command_timeout in
  if decide (t > MAX_COMMAND_TIMEOUT) then MAX_COMMAND_TIMEOUT else t.

Definition destroy_mutex : M unit := modify (fun s => set_world (mutex_destroy (world s)) s).
Definition free_block : M unit := modify (fun s => set_world (block_free (world s)) s).
Definition when (b : bool) (m : M unit) : M unit := if b then m else mret tt.

(** The label [error]: each argument says whether the pointer is not NULL. *)
Definition init_error (pub_list sub_list generic list_sub list_pub write : bool) : M Z :=
  _ ← when pub_list free_block;
  _ ← when sub_list free_block;
  _ ← when generic destroy_mutex;
  _ ← when list_sub destroy_mutex;
  _ ← when list_pub destroy_mutex;
  _ ← when write destroy_mutex;
  mret FAILURE_RET.

(** [pParams] is written too: its clamped timeout is [clamp_timeout]. *)
Definition uiot_mqtt_init (pParams : MQTTInitParams) : M Z :=
  let size := zlen UIOT_MQTT_DIRECT_DOMAIN in
  if decide (size < 0 \/ size > HOST_STR_LENGTH - 1) then mret FAILURE_RET
  else
    _ ← mod_cl (fun _ => fresh_client (clamp_timeout (command_timeout pParams))
                          (i_event_handler pParams));
    ok ← env mutex_create;
    if negb ok then mret FAILURE_RET
    else
      _ ← set_client_conn_state 0;
      ok ← env mutex_create;
      if negb ok then init_error false false true false false false
      else
        ok ← env mutex_create;
        if negb ok then init_error false false true false false true
        else
          ok ← env mutex_create;
          if negb ok then init_error false false true true false true
          else
            ok ← malloc;
            if negb ok then init_error false false true true true true
            else
              ok ← malloc;
              if negb ok then init_error true false true true true true
              else
                _ ← mod_cl (set_ping_timer init_timer);
                _ ← mod_cl (set_reconnect_delay_timer init_timer);
                mret SUCCESS_RET.

(* ------------------------------------------------------------------ *)
(** ** Construction *)

Definition STATIC_AUTH := 1.
Definition DYNAMIC_AUTH := 2.

(** ["%s.%s"] and ["%s|%s|%d"]; the buffers are long enough for both. *)
Definition client_id_string (product_sn device_sn : bytes) : bytes :=
  product_sn ++ bytes_of "." ++ device_sn.
Definition username_string (product_sn device_sn : bytes) (auth_mode : Z) : bytes :=
  product_sn ++ bytes_of "|" ++ device_sn ++ bytes_of "|" ++ [48 + auth_mode].

(** The authentication mode, and the password if there is one. *)
Definition select_auth (pParams : MQTTInitParams) : Z * option bytes :=
  match device_secret pParams, product_secret pParams with
  | None, None => (0, None)
  | None, Some s => (DYNAMIC_AUTH, Some s)
  | Some s, _ => (STATIC_AUTH, Some s)
  end.

(** [true] if the client was constructed, [false] for NULL. *)
Definition IOT_MQTT_Construct (pParams : MQTTInitParams) : M bool :=
  match product_sn pParams, device_sn pParams with
  | Some product, Some device =>
    if negb (string_valid (product_sn pParams)) || negb (string_valid (device_sn pParams))
    then mret false
    else
      ok ← malloc;
      if negb ok then mret false
      else
        let fail (strings : nat) : M bool :=
          _ ← modify (fun s => set_world (Nat.iter (S strings) block_free (world s)) s);
          mret false in
        ret ← uiot_mqtt_init pParams;
        if decide (ret <> SUCCESS_RET) then fail 0%nat
        else
          ok ← malloc;
          if negb ok then fail 0%nat
          else
            ok ← malloc;
            if negb ok then fail 1%nat
            else
              let '(auth_mode, password) := select_auth pParams in
              ok ← (match password with Some _ => malloc | None => mret true end);
              if negb ok then fail 2%nat
              else
                let connect_params := mkConnectParams
                  (Some (client_id_string product device))
                  (Some (username_string product device auth_mode))
                  password 4 (u16 (i_keep_alive_interval pParams))
                  (i_clean_session pParams) (i_auto_connect_enable pParams) in
                ret ← uiot_mqtt_connect app fuel check_repeat (Some connect_params);
                if decide (ret <> SUCCESS_RET) then
                  fail (match password with Some _ => 3%nat | None => 2%nat end)
                else mret true
  | _, _ => mret false
  end.

(* ------------------------------------------------------------------ *)
(** ** Destruction *)

(** [list_destroy]: every node and its value, then the list. *)
Definition destroy_list (nodes : nat) : M unit :=
  modify (fun s => set_world (Nat.iter (nodes * 2 + 1) block_free (world s)) s).

Fixpoint free_handles (hs : list (SubTopicHandle H)) : M unit :=
  match hs with
  | [] => mret tt
  | h :: hs => _ ← HAL_Free (topic_filter h); free_handles hs
  end.

Definition IOT_MQTT_Destroy : M Z :=
  ret ← uiot_mqtt_disconnect fuel;
  _ ← (if check_repeat then reset_repeat_packet_id_buffer else mret tt);
  _ ← destroy_mutex; _ ← destroy_mutex; _ ← destroy_mutex; _ ← destroy_mutex;
  c ← gets (fun c => c);
  _ ← destroy_list (length (list_pub_wait_ack c));
  _ ← destroy_list (length (list_sub_wait_ack c));
  _ ← when (bool_decide (username (options c) <> None)) free_block;
  _ ← when (bool_decide (client_id (options c) <> None)) free_block;
  _ ← when (bool_decide (password (options c) <> None)) free_block;
  _ ← free_handles (sub_handles c);
  _ ← free_block;
  mret ret.

(* ------------------------------------------------------------------ *)
(** ** The requests of the application *)

Definition IOT_MQTT_Yield (timeout_ms : Z) : M Z := uiot_mqtt_yield app fuel check_repeat timeout_ms.
Definition IOT_MQTT_Publish (topicName : option bytes) (pParams : PublishParams) : M Z :=
  uiot_mqtt_publish fuel topicName pParams.
Definition IOT_MQTT_Subscribe (topicFilter : option bytes) (pParams : SubscribeParams) : M Z :=
  uiot_mqtt_subscribe fuel topicFilter pParams.
Definition IOT_MQTT_Unsubscribe (topicFilter : option bytes) : M Z :=
  uiot_mqtt_unsubscribe fuel topicFilter.
Definition IOT_MQTT_IsConnected : M bool :=
  st ← get_client_conn_state; mret (bool_decide (st = 1)).

Inductive request :=
  | Yield (timeout_ms : Z)
  | Publish (topicName : option bytes) (pParams : PublishParams)
  | Subscribe (topicFilter : option bytes) (pParams : @SubscribeParams H)
  | Unsubscribe (topicFilter : option bytes)
  | Connect (pParams : option MQTTConnectParams)
  | Reconnect
  | Disconnect
  | SetAutoreconnect (value : bool)
  | ResetDisconnectCount
  | IsConnected.

Definition perform (r : request) : M Z :=
  match r with
  | Yield t => IOT_MQTT_Yield t
  | Publish t p => IOT_MQTT_Publish t p
  | Subscribe t p => IOT_MQTT_Subscribe t p
  | Unsubscribe t => IOT_MQTT_Unsubscribe t
  | Connect p => uiot_mqtt_connect app fuel check_repeat p
  | Reconnect => uiot_mqtt_attempt_reconnect app fuel check_repeat
  | Disconnect => uiot_mqtt_disconnect fuel
  | SetAutoreconnect b => uiot_mqtt_set_autoreconnect b
  | ResetDisconnectCount => uiot_mqtt_reset_network_disconnected_count
  | IsConnected => b ← IOT_MQTT_IsConnected; mret (if b : bool then 1 else 0)
  end.

Fixpoint session (rs : list request) : M (list Z) :=
  match rs with
  | [] => mret []
  | r :: rs => ret ← perform r; rets ← session rs; mret (ret :: rets)
  end.

End api.
