(* ===== verification/MqttSim.v ===== *)
(** A concrete environment for the client: a clock that advances by a fixed
    step at every reading, a connection that delivers given bytes and accepts
    given numbers of bytes, an allocator and mutexes that fail on request.  It
    satisfies the laws of the interfaces, so the theorems that assume them can
    be applied to it. *)

From S2P Require Import Prelude Defs HalTimer MqttWire MqttTopic MqttState MqttClient MqttSession MqttApi.

Record World := mkWorld {
  ticks : Z;
  tick_step : Z;
  inbox : bytes;
  accepts : list Z;
  sent : bytes;
  memory : list bool;
  reachable : bool;
  mutexes : Z;
  mutex_plan : list bool
}.

Definition set_ticks v w := mkWorld v (tick_step w) (inbox w) (accepts w) (sent w) (memory w)
  (reachable w) (mutexes w) (mutex_plan w).
Definition set_inbox v w := mkWorld (ticks w) (tick_step w) v (accepts w) (sent w) (memory w)
  (reachable w) (mutexes w) (mutex_plan w).
Definition set_memory v w := mkWorld (ticks w) (tick_step w) (inbox w) (accepts w) (sent w) v
  (reachable w) (mutexes w) (mutex_plan w).
Definition set_sent a v w := mkWorld (ticks w) (tick_step w) (inbox w) a v (memory w)
  (reachable w) (mutexes w) (mutex_plan w).
Definition set_mutexes n p w := mkWorld (ticks w) (tick_step w) (inbox w) (accepts w) (sent w)
  (memory w) (reachable w) n p.

(** The head of a script; at its end everything succeeds. *)
Definition script (l : list bool) : bool * list bool :=
  match l with [] => (true, []) | b :: l => (b, l) end.

Definition sim_read (len : Z) (w : World) : Z * bytes * World :=
  let data := u8 <$> take (Z.to_nat len) (inbox w) in
  (zlen data, data, set_inbox (drop (Z.to_nat len) (inbox w)) w).

Definition sim_write (data : bytes) (w : World) : Z * World :=
  match accepts w with
  | [] => (zlen data, set_sent [] (sent w ++ data) w)
  | a :: rest =>
      if decide (a <= 0) then (ERR_TCP_WRITE_FAILED, set_sent rest (sent w) w)
      else let n := Z.min a (zlen data) in
           (n, set_sent rest (sent w ++ take (Z.to_nat n) data) w)
  end.

#[export] Instance sim_env : Env World := {
  rt_tick_get w := (u32 (ticks w), set_ticks (ticks w + tick_step w) w);
  rt_tick_from_millisecond ms := ms;
  HAL_SleepMs ms w := set_ticks (ticks w + ms) w;
  malloc_ok w := let '(b, l) := script (memory w) in (b, set_memory l w);
  net_connect w := (if reachable w then SUCCESS_RET else FAILURE_RET, w);
  net_disconnect w := (SUCCESS_RET, w);
  net_read len t w := sim_read len w;
  net_write data t w := sim_write data w
}.

#[export] Instance sim_laws : EnvLaws World.
Proof.
  constructor.
  - intros w. apply u32_range.
  - intros len t w r data w' [= <- <- <-] Hl. split_and!.
    + rewrite length_fmap, length_take. lia.
    + apply Forall_fmap, Forall_forall. intros x _. apply byte_u8.
    + done.
  - intros data t w r w' Hw Hd. cbn in Hw. unfold sim_write in Hw.
    assert (0 < zlen data) by (destruct data; [done|cbn; lia]).
    destruct (accepts w); [injection Hw as <- _; lia|].
    case_decide; injection Hw as <- _; [by left|lia].
Qed.

#[export] Program Instance sim_log : NetLog World := {
  stream := sent;
  incoming w := u8 <$> inbox w
}.
Next Obligation. done. Qed.
Next Obligation. intros w. cbn. by destruct (script (memory w)). Qed.
Next Obligation.
  intros data t w r w' Hw. cbn in Hw. unfold sim_write in Hw. destruct (accepts w).
  - injection Hw as <- <-. cbn. by rewrite Nat2Z.id, firstn_all.
  - case_decide; injection Hw as <- <-; cbn; [|done]. by rewrite app_nil_r.
Qed.
Next Obligation. done. Qed.
Next Obligation.
  intros len t w r data w' [= <- <- <-]. cbn. by rewrite <- fmap_app, take_drop.
Qed.

#[export] Program Instance sim_calm : Calm World := {
  calm w := ticks w = 1000 /\ tick_step w = 0 /\ accepts w = [] /\ memory w = [] /\ reachable w = true;
  calm_now := 1000
}.
Next Obligation. intros w (Ht & Hs & Ha & Hm & Hc). cbn. rewrite Ht, Hs. done. Qed.
Next Obligation. intros w (Ht & Hs & Ha & Hm & Hc). cbn. by rewrite Hm. Qed.
Next Obligation.
  intros data t w (Ht & Hs & Ha & Hm & Hc). cbn. unfold sim_write. by rewrite Ha.
Qed.
Next Obligation.
  intros ms Hms. unfold has_expired, HAL_Timer_Expired, countdown_ms, HAL_Timer_Countdown_ms.
  apply bool_decide_eq_false. cbn. rewrite !u32_small; [lia|lia|rewrite u32_small; lia].
Qed.

#[export] Instance sim_resources : Resources World := {
  mutex_create w := let '(b, l) := script (mutex_plan w) in
    (b, set_mutexes (if b then mutexes w + 1 else mutexes w) l w);
  mutex_destroy w := set_mutexes (mutexes w - 1) (mutex_plan w) w;
  block_free w := w
}.

(** A still clock, an empty connection, nothing fails. *)
Definition world0 : World := mkWorld 1000 0 [] [] [] [] true 0 [].

(** A client that is connected and has sent nothing. *)
Definition client0 : @Client nat := set_is_connected 1 (fresh_client 2000 true).
Definition state0 : @St World nat :=
  mkSt client0 ∅ world0 [] (replicate MQTT_MAX_REPEAT_BUF_LEN 0) 0.

(** The application does nothing in its callbacks. *)
Definition idle (n : note nat) (s : @St World nat) : @St World nat := s.
