(* ===== verification/MqttInv.v ===== *)
(** The invariant of the MQTT client, and that every function keeps it and
    gives back the locks it takes.

    [Inv] is about the client's own data; [J L s] adds that the mutexes are
    held as often as [L] says.  The specification of a function is that from
    [J L] it returns to [J L]: proofs step through its body, unfolding the
    primitives and using the specifications of the functions it calls. *)

From S2P Require Import Prelude Defs HalTimer MqttWire MqttTopic MqttState MqttClient MqttSession MqttApi.

(* ------------------------------------------------------------------ *)
(** ** The serializers keep the length of the buffer *)

Definition keeps_len (b : bytes) (r : res (bytes * Z)) : Prop :=
  forall b' n, r = Ok (b', n) -> length b' = length b.

Lemma keeps_len_write b p src n : keeps_len b (b' ← write_at b p src; Ok (b', n)).
Proof. intros b' m Hr. res_inv. by eapply write_at_len. Qed.
Lemma keeps_len_bind b r (f : bytes * Z -> res (bytes * Z)) :
  keeps_len b r -> (forall b' n, length b' = length b -> keeps_len b' (f (b', n))) ->
  keeps_len b (r ≫= f).
Proof.
  intros Hr Hf b' n Hb. apply res_bind_ok in Hb as ([b1 n1] & Hb1 & Hb2).
  specialize (Hr _ _ Hb1). rewrite <- Hr. by eapply Hf.
Qed.
Lemma keeps_len_ok b n : keeps_len b (Ok (b, n)).
Proof. intros b' m [= -> _]. done. Qed.
Lemma keeps_len_err b e : keeps_len b (Err e).
Proof. by intros b' m. Qed.
Lemma keeps_len_res_bind {A} b (r : res A) f :
  (forall a, keeps_len b (f a)) -> keeps_len b (r ≫= f).
Proof. intros Hf b' n Hb. apply res_bind_ok in Hb as (a & _ & Hb). by eapply Hf. Qed.
Lemma keeps_len_guard b (c : bool) e r : keeps_len b r -> keeps_len b (guard_err c e r).
Proof. unfold guard_err. destruct c; [intros _; apply keeps_len_err|done]. Qed.

Lemma keeps_len_char b p c : keeps_len b (mqtt_write_char b p c).
Proof. apply keeps_len_write. Qed.
Lemma keeps_len_uint16 b p n : keeps_len b (mqtt_write_uint_16 b p n).
Proof.
  intros b' m Hr. unfold mqtt_write_uint_16 in Hr. res_inv.
  repeat match goal with X : write_at _ _ _ = Ok _ |- _ => apply write_at_len in X end. congruence.
Qed.
Lemma keeps_len_utf8 b p s : keeps_len b (mqtt_write_utf8_string b p s).
Proof.
  apply keeps_len_bind; [apply keeps_len_uint16|]. intros b' n Hl. apply keeps_len_write.
Qed.
Lemma keeps_len_rem_loop fuel b p x n : keeps_len b (write_rem_len_loop fuel b p x n).
Proof.
  revert b x n. induction fuel as [|fuel IH]; intros b x n b' m; cbn [write_rem_len_loop]; [done|].
  intros Hr. apply res_bind_ok in Hr as (b1 & H1%write_at_len & H2).
  case_decide; [apply IH in H2; congruence|]. congruence.
Qed.
Lemma keeps_len_rem b p x : keeps_len b (mqtt_write_packet_rem_len b p x).
Proof. apply keeps_len_rem_loop. Qed.

Create HintDb keeps_len.
#[export] Hint Resolve keeps_len_char keeps_len_uint16 keeps_len_utf8 keeps_len_rem keeps_len_ok
  keeps_len_err keeps_len_write : keeps_len.
Ltac keeps_len :=
  repeat match goal with
  | |- keeps_len _ (guard_err _ _ _) => apply keeps_len_guard
  | |- keeps_len _ _ => solve [auto with keeps_len]
  | |- keeps_len ?b (_ ≫= _) => apply keeps_len_bind; [|intros ? ? ?; cbn beta iota]
  | |- keeps_len ?b (_ ≫= _) => apply keeps_len_res_bind; intros ?
  | |- keeps_len _ (match ?x with _ => _ end) => destruct x
  end.

Lemma serialize_empty_len b bl t : keeps_len b (serialize_packet_with_zero_payload b bl t).
Proof. unfold serialize_packet_with_zero_payload. keeps_len. Qed.
Lemma serialize_pub_ack_len b bl t d i : keeps_len b (serialize_pub_ack_packet b bl t d i).
Proof. unfold serialize_pub_ack_packet. keeps_len. Qed.
Lemma serialize_publish_len b bl d q r i t p n :
  keeps_len b (_serialize_publish_packet b bl d q r i t p n).
Proof. unfold _serialize_publish_packet. keeps_len. Qed.
Lemma write_filters_qos_len idxs t q b p : keeps_len b (write_filters_qos idxs t q b p).
Proof.
  revert b p. induction idxs as [|i idxs IH]; intros b p; cbn [write_filters_qos]; keeps_len.
Qed.
Lemma write_filters_len idxs t b p : keeps_len b (write_filters idxs t b p).
Proof.
  revert b p. induction idxs as [|i idxs IH]; intros b p; cbn [write_filters]; keeps_len.
Qed.
#[export] Hint Resolve write_filters_qos_len write_filters_len : keeps_len.
Lemma serialize_subscribe_len b bl d i n t q :
  keeps_len b (_serialize_subscribe_packet b bl d i n t q).
Proof. unfold _serialize_subscribe_packet. keeps_len. Qed.
Lemma serialize_unsubscribe_len b bl d i n t :
  keeps_len b (_serialize_unsubscribe_packet b bl d i n t).
Proof. unfold _serialize_unsubscribe_packet. keeps_len. Qed.
Lemma serialize_connect_len b bl o : keeps_len b (_serialize_connect_packet b bl o).
Proof. unfold _serialize_connect_packet. keeps_len. Qed.
#[export] Hint Resolve serialize_empty_len serialize_pub_ack_len serialize_publish_len
  serialize_subscribe_len serialize_unsubscribe_len serialize_connect_len : keeps_len.

(* ------------------------------------------------------------------ *)
(** ** The invariant *)

Section inv.
Context {W H : Type} `{Env W} `{!EnvLaws W} `{EqDecision H}.
Local Abbreviation St := (@St W H).
Local Abbreviation M := (@M W H).

Definition pub_ok (n : positive * UIoTPubInfo) : Prop :=
  zlen (pub_buf n.2) = pub_len n.2 /\ 0 <= pub_len n.2 <= UIOT_MQTT_TX_BUF_LEN.

Record Inv (c : @Client H) : Prop := {
  inv_wsize : write_buf_size c = UIOT_MQTT_TX_BUF_LEN;
  inv_rsize : read_buf_size c = UIOT_MQTT_RX_BUF_LEN;
  inv_wbuf : zlen (write_buf c) = UIOT_MQTT_TX_BUF_LEN;
  inv_rbuf : zlen (read_buf c) = UIOT_MQTT_RX_BUF_LEN;
  inv_rbytes : Forall byte (read_buf c);
  inv_pid : 1 <= next_packet_id c <= MAX_PACKET_ID;
  inv_pub : zlen (list_pub_wait_ack c) <= MAX_REPUB_NUM;
  inv_pub_nodup : NoDup (list_pub_wait_ack c).*1;
  inv_pub_ok : Forall pub_ok (list_pub_wait_ack c);
  inv_sub : zlen (list_sub_wait_ack c) <= Z.of_nat MAX_SUB_TOPICS;
  inv_sub_nodup : NoDup (list_sub_wait_ack c).*1;
  inv_handles : length (sub_handles c) = MAX_SUB_TOPICS;
  inv_timeout : MIN_COMMAND_TIMEOUT <= command_timeout_ms c <= MAX_COMMAND_TIMEOUT;
  inv_wait : 0 <= current_reconnect_wait_interval c <= MAX_RECONNECT_WAIT_INTERVAL;
  inv_conn : is_connected c = 0 \/ is_connected c = 1;
  inv_ping : 0 <= is_ping_outstanding c <= MQTT_PING_RETRY_TIMES
}.

Definition locks (c : @Client H) (x : mutex) : Z :=
  match x with
  | Generic => lock_generic c
  | WriteBuf => lock_write_buf c
  | ListPub => lock_list_pub c
  | ListSub => lock_list_sub c
  end.

Definition J (L : mutex -> Z) (s : St) : Prop := Inv (cl s) /\ forall x, locks (cl s) x = L x.

#[global] Instance mutex_eq_dec : EqDecision mutex.
Proof. solve_decision. Defined.

Definition addL (x : mutex) (d : Z) (L : mutex -> Z) : mutex -> Z :=
  fun y => L y + (if decide (x = y) then d else 0).

Lemma J_lock L s x d : J L s -> J (addL x d L) (set_cl (lock_add x d (cl s)) s).
Proof.
  intros [Hi Hl]. split.
  - destruct x; destruct Hi; constructor; assumption.
  - intros y. unfold addL. rewrite <- Hl. destruct x, y; cbn; case_decide; try congruence; lia.
Qed.

Lemma J_ext L L' s : (forall x, L x = L' x) -> J L s -> J L' s.
Proof. intros He [Hi Hl]. split; [done|]. intros x. by rewrite Hl. Qed.

(** A change of the client that keeps the invariant and no lock. *)
Lemma J_mod L s f :
  (Inv (cl s) -> Inv (f (cl s))) -> (forall x, locks (f (cl s)) x = locks (cl s) x) ->
  J L s -> J L (set_cl (f (cl s)) s).
Proof. intros Hf Hl [Hi HL]. split; [by apply Hf|]. intros x. cbn. by rewrite Hl. Qed.

Lemma J_world L s w : J L s -> J L (set_world w s).
Proof. done. Qed.
Lemma J_heap L s h : J L s -> J L (set_heap h s).
Proof. done. Qed.
Lemma J_trace L s t : J L s -> J L (set_trace t s).
Proof. done. Qed.
Lemma J_repeat L s b n : J L s -> J L (mkSt (cl s) (heap s) (world s) (trace s) b n).
Proof. done. Qed.

(** The application's callbacks may do what the client's interface lets them
    do: they keep the invariant and hold no lock when they return. *)
Context (app : note H -> St -> St).
Hypothesis app_ok : forall n L s, J L s -> J L (app n s).
Context (fuel : nat) (check_repeat : bool).

Definition ok {A} (m : M A) : Prop := forall L s, J L s -> wp m (fun _ s' => J L s') s.

Lemma ok_use {A B} (m : M A) (f : A -> M B) L Q s :
  ok m -> J L s -> (forall a s', J L s' -> wp (f a) Q s') -> wp (m ≫= f) Q s.
Proof.
  intros Hm Hj Hf. apply wp_bind. eapply wp_mono; [by apply Hm|]. intros a s'. apply Hf.
Qed.


(* ------------------------------------------------------------------ *)
(** ** Steps

    One rule per primitive; after it the state is explicit, so that what was
    read stays connected to what is written. *)

Lemma step_gets {A B} (g : Client -> A) (f : A -> M B) Q s :
  wp (f (g (cl s))) Q s -> wp (gets g ≫= f) Q s.
Proof. done. Qed.
Lemma step_lock {B} x (f : unit -> M B) L Q s :
  J L s -> (forall s', s' = set_cl (lock_add x 1 (cl s)) s -> J (addL x 1 L) s' -> wp (f tt) Q s') ->
  wp (HAL_MutexLock x ≫= f) Q s.
Proof. intros Hj Hf. apply wp_bind, wp_mod_cl. apply Hf; [done|]. by apply J_lock. Qed.
Lemma step_unlock {B} x (f : unit -> M B) L Q s :
  J L s -> (forall s', s' = set_cl (lock_add x (-1) (cl s)) s -> J (addL x (-1) L) s' ->
    wp (f tt) Q s') ->
  wp (HAL_MutexUnlock x ≫= f) Q s.
Proof. intros Hj Hf. apply wp_bind, wp_mod_cl. apply Hf; [done|]. by apply J_lock. Qed.
Lemma step_env {A B} (g : W -> A * W) (f : A -> M B) L Q s :
  J L s -> (forall a w, g (world s) = (a, w) -> J L (set_world w s) -> wp (f a) Q (set_world w s)) ->
  wp (env g ≫= f) Q s.
Proof. intros Hj Hf. apply wp_bind, wp_env. intros a w Hg. by apply Hf. Qed.
Lemma step_mod {B} g (f : unit -> M B) L Q s :
  J L s -> (Inv (cl s) -> Inv (g (cl s))) -> (forall x, locks (g (cl s)) x = locks (cl s) x) ->
  (J L (set_cl (g (cl s)) s) -> wp (f tt) Q (set_cl (g (cl s)) s)) ->
  wp (mod_cl g ≫= f) Q s.
Proof. intros Hj Hi Hl Hf. apply wp_bind, wp_mod_cl, Hf. by apply J_mod. Qed.
Lemma step_wire {A B} (r : res A) (f : A + Z -> M B) Q s :
  (forall a, r = Ok a -> wp (f (inl a)) Q s) -> (forall e, r = Err e -> wp (f (inr e)) Q s) ->
  wp (wire r ≫= f) Q s.
Proof. intros H1 H2. apply wp_bind. by apply wp_wire. Qed.
Lemma step_mem {A B} (r : res A) (f : A -> M B) Q s :
  (forall a, r = Ok a -> wp (f a) Q s) -> wp (mem_access r ≫= f) Q s.
Proof. intros H1. apply wp_bind. by apply wp_mem. Qed.
Lemma step_ret {A B} (a : A) (f : A -> M B) Q s : wp (f a) Q s -> wp (mret a ≫= f) Q s.
Proof. done. Qed.

(** The clock only moves the environment. *)
Lemma step_now {B} (f : Z -> M B) L Q s :
  J L s -> (forall t w, 0 <= t < 4294967296 -> J L (set_world w s) -> wp (f t) Q (set_world w s)) ->
  wp (now ≫= f) Q s.
Proof.
  intros Hj Hf. apply wp_bind, wp_env. intros t w Hg.
  apply Hf; [|done]. pose proof (tick_range (world s)) as Ht. by rewrite Hg in Ht.
Qed.

Lemma step_bind_assoc {A B C} (m : M A) (g : A -> M B) (f : B -> M C) Q s :
  wp (x ← m; g x ≫= f) Q s -> wp ((m ≫= g) ≫= f) Q s.
Proof.
  unfold wp, mbind, M_bind. destruct (m s) as [a s'| |]; [|done..]. by destruct (g a s').
Qed.

(** *** Small functions *)

Lemma notify_ok t msg : ok (notify app t msg).
Proof.
  intros L s Hj. unfold notify. apply step_gets. destruct (event_handler (cl s)); [|by apply wp_ret].
  apply wp_modify. by apply app_ok.
Qed.
Lemma call_ok n : ok (call app n).
Proof. intros L s Hj. apply wp_modify. by apply app_ok. Qed.
Lemma HAL_Free_ok p : ok (HAL_Free p).
Proof.
  intros L s Hj. unfold HAL_Free, wp. destruct p as [p|]; [|done]. by destruct (heap s !! p).
Qed.
Lemma new_string_ok str : ok (new_string str).
Proof.
  intros L s Hj. unfold new_string. eapply step_env; [done|]. intros a w _ Hj'.
  destruct a; [|by apply wp_ret]. apply wp_bind, wp_get, wp_bind, wp_modify. by apply wp_ret.
Qed.
Lemma leak_ok blk : ok (leak blk).
Proof. intros L s Hj. by apply wp_bind, wp_get, wp_modify. Qed.
Lemma string_at_ok p : ok (string_at p).
Proof. intros L s Hj. by apply wp_string_at. Qed.

Lemma tail_unlock x L (Q : unit -> St -> Prop) s :
  J L s -> (forall s', J (addL x (-1) L) s' -> Q tt s') -> wp (HAL_MutexUnlock x) Q s.
Proof. intros Hj Hq. apply wp_mod_cl, Hq. by apply J_lock. Qed.
Lemma tail_use {A} (m : M A) L (Q : A -> St -> Prop) s :
  ok m -> J L s -> (forall a s', J L s' -> Q a s') -> wp m Q s.
Proof. intros Hm Hj Hq. eapply wp_mono; [by apply Hm|]. intros a s'. apply Hq. Qed.

Lemma unlock_ext L x s : J (addL x (-1) (addL x 1 L)) s -> J L s.
Proof. apply J_ext. intros y. unfold addL. case_decide; lia. Qed.

End inv.

Create HintDb client_ok.
#[export] Hint Resolve notify_ok call_ok HAL_Free_ok new_string_ok leak_ok string_at_ok : client_ok.

Ltac cl_cbn :=
  cbn [lock_add is_connected was_manually_disconnected is_ping_outstanding next_packet_id 
    command_timeout_ms current_reconnect_wait_interval counter_network_disconnected 
    write_buf_size read_buf_size write_buf read_buf lock_generic lock_write_buf lock_list_pub 
    lock_list_sub list_pub_wait_ack list_sub_wait_ack event_handler options ping_timer 
    reconnect_delay_timer sub_handles set_is_connected set_was_manually_disconnected 
    set_is_ping_outstanding set_next_packet_id set_current_reconnect_wait_interval 
    set_counter_network_disconnected set_write_buf set_read_buf set_lock_generic 
    set_lock_write_buf set_lock_list_pub set_lock_list_sub set_list_pub_wait_ack 
    set_list_sub_wait_ack set_options set_ping_timer set_reconnect_delay_timer set_sub_handles 
    cl set_cl set_heap set_world set_trace heap world trace] in *.

(** An equation between clients: field by field. *)
Ltac client_eq :=
  cbv [lock_add is_connected was_manually_disconnected is_ping_outstanding next_packet_id 
    command_timeout_ms current_reconnect_wait_interval counter_network_disconnected 
    write_buf_size read_buf_size write_buf read_buf lock_generic lock_write_buf lock_list_pub 
    lock_list_sub list_pub_wait_ack list_sub_wait_ack event_handler options ping_timer 
    reconnect_delay_timer sub_handles set_is_connected set_was_manually_disconnected 
    set_is_ping_outstanding set_next_packet_id set_current_reconnect_wait_interval 
    set_counter_network_disconnected set_write_buf set_read_buf set_lock_generic 
    set_lock_write_buf set_lock_list_pub set_lock_list_sub set_list_pub_wait_ack 
    set_list_sub_wait_ack set_options set_ping_timer set_reconnect_delay_timer set_sub_handles 
    cl set_cl set_heap set_world set_trace heap world trace];
  f_equal; try lia.

(** [inv_mod]: a change of some fields keeps [Inv]; [locks_same]: it touches
    no lock. *)
Ltac inv_mod :=
  let Hi := fresh "Hi" in
  intros Hi; destruct Hi; constructor; cl_cbn; try assumption; try lia; try (split; discriminate); auto.
Ltac locks_same := intros []; reflexivity.

(** One step of a body. *)
Ltac j_use := eapply ok_use; [solve [eauto with client_ok]|eassumption|intros ? ? ?; cbn beta iota].
Ltac j_step :=
  cbn beta iota;
  lazymatch goal with
  | |- wp ((_ ≫= _) ≫= _) _ _ => apply step_bind_assoc
  | |- wp (mret _ ≫= _) _ _ => apply step_ret
  | |- wp (mret _) _ _ => apply wp_ret
  | |- wp (gets _ ≫= _) _ _ => apply step_gets
  | |- wp (HAL_MutexLock _ ≫= _) _ _ => eapply step_lock; [eassumption|intros ? ? ?]
  | |- wp (HAL_MutexUnlock _ ≫= _) _ _ => eapply step_unlock; [eassumption|intros ? ? ?]
  | |- wp (HAL_MutexUnlock _) _ _ => eapply tail_unlock; [eassumption|intros ? ?]
  | |- wp (now ≫= _) _ _ => eapply step_now; [eassumption|intros ? ? ? ?]
  | |- wp (expired _ ≫= _) _ _ => unfold expired
  | |- wp (left _ ≫= _) _ _ => unfold left
  | |- wp (left_pos _ ≫= _) _ _ => unfold left_pos
  | |- wp (start_ms _ ≫= _) _ _ => unfold start_ms
  | |- wp (start_s _ ≫= _) _ _ => unfold start_s
  | |- wp (malloc ≫= _) _ _ => unfold malloc; eapply step_env; [eassumption|intros ? ? ? ?]
  | |- wp (env _ ≫= _) _ _ => eapply step_env; [eassumption|intros ? ? ? ?]
  | |- wp (wire _ ≫= _) _ _ => apply step_wire; intros ? ?
  | |- wp (mem_access _ ≫= _) _ _ => apply step_mem; intros ? ?
  | |- wp (ub ≫= _) _ _ => exact I
  | |- wp (no_fuel ≫= _) _ _ => exact I
  | |- wp ub _ _ => apply wp_ub
  | |- wp no_fuel _ _ => apply wp_no_fuel
  | |- wp ((if decide ?P then _ else _) ≫= _) _ _ => destruct (decide P)
  | |- wp ((if ?b then _ else _) ≫= _) _ _ => destruct b eqn:?
  | |- wp ((match ?x with _ => _ end) ≫= _) _ _ => destruct x eqn:?
  | |- wp (if decide ?P then _ else _) _ _ => destruct (decide P)
  | |- wp (if ?b then _ else _) _ _ => destruct b eqn:?
  | |- wp (match ?x with _ => _ end) _ _ => destruct x eqn:?
  | |- wp (_ ≫= _) _ _ => j_use
  | |- wp _ _ _ => eapply tail_use; [solve [eauto with client_ok]|eassumption|intros ? ? ?]
  end.
Ltac j_done :=
  first [ eassumption
        | eapply J_ext; [|eassumption]; let x := fresh in intros x; unfold addL;
          repeat case_decide; lia ].
Ltac j_auto := repeat j_step; try j_done.

(* ------------------------------------------------------------------ *)
(** ** Every function keeps the invariant *)

Section kept.
Context {W H : Type} `{Env W} `{!EnvLaws W} `{EqDecision H}.
Local Abbreviation St := (@St W H).
Local Abbreviation M := (@M W H).
Context (app : note H -> St -> St).
Hypothesis app_ok : forall n L s, J L s -> J L (app n s).
Context (fuel : nat) (check_repeat : bool).

Lemma get_next_packet_id_ok : ok (get_next_packet_id (W := W) (H := H)).
Proof.
  intros L s Hj. unfold get_next_packet_id. j_step.
  eapply step_mod; [eassumption| |locks_same|intros ?].
  { inv_mod. unfold MAX_PACKET_ID in *. case_decide; rewrite u16_small; lia. }
  j_auto.
Qed.

Lemma set_client_conn_state_ok v : v = 0 \/ v = 1 -> ok (set_client_conn_state (W := W) (H := H) v).
Proof.
  intros Hv L s Hj. unfold set_client_conn_state. j_step.
  eapply step_mod; [eassumption| |locks_same|intros ?]; [inv_mod|]. j_auto.
Qed.

Lemma get_client_conn_state_ok : ok (get_client_conn_state (W := W) (H := H)).
Proof. intros L s Hj. unfold get_client_conn_state. j_auto. Qed.

Lemma tx_bytes_ok sent n : ok (tx_bytes (W := W) (H := H) sent n).
Proof. intros L s Hj. unfold tx_bytes. j_step. by apply wp_mem. Qed.
Hint Resolve get_next_packet_id_ok get_client_conn_state_ok tx_bytes_ok : client_ok.

Lemma send_loop_ok n len timer sent : ok (send_loop (W := W) (H := H) n len timer sent).
Proof.
  revert sent. induction n as [|n IH]; intros sent L s Hj; cbn [send_loop]; j_auto.
Qed.
Hint Resolve send_loop_ok : client_ok.
Lemma send_mqtt_packet_ok len timer : ok (send_mqtt_packet (W := W) (H := H) fuel len timer).
Proof. intros L s Hj. unfold send_mqtt_packet. j_auto. Qed.
Hint Resolve send_mqtt_packet_ok : client_ok.

Lemma read_into_ok p len timeout : 0 <= len -> ok (read_into (W := W) (H := H) p len timeout).
Proof.
  intros Hlen L s Hj. unfold read_into. eapply step_env; [eassumption|].
  intros [r data] w Hr Hj'. destruct (net_read len (u32 timeout) (world s)) as [[r' d'] w'] eqn:E.
  injection Hr as -> -> ->. destruct (read_law _ _ _ _ _ _ E Hlen) as (Hd & Hb & _).
  j_step. apply step_mem. intros b Hw. cbn [fst snd cl set_world] in *.
  eapply step_mod; [eassumption| |locks_same|intros ?]; [|j_auto].
  inv_mod; [apply write_at_len in Hw; cbn in Hw; lia|eapply write_at_byte; [|exact Hb|exact Hw]; assumption].
Qed.

Lemma decode_net_loop_range n v m t L s :
  J L s -> wp (decode_net_loop (W := W) (H := H) n v m t)
    (fun r s' => J L s' /\ match r with inl x => 0 <= x < 4294967296 | inr _ => True end) s.
Proof.
  revert v m s. induction n as [|n IH]; intros v m s Hj; cbn [decode_net_loop]; [by apply wp_ret|].
  repeat j_step; try (split; [j_done|]); try done; [|apply u32_range].
  by apply IH.
Qed.

Lemma drain_loop_ok n rem total bytes t :
  0 <= bytes -> ok (drain_loop (W := W) (H := H) n rem total bytes t).
Proof.
  revert total bytes. induction n as [|n IH]; intros total bytes Hb L s Hj; cbn [drain_loop];
    [by apply wp_no_fuel|].
  eapply ok_use; [by apply read_into_ok|eassumption|]. intros r s1 Hj1. cbn beta.
  j_step. repeat (j_step; try j_done). apply IH; [|done].
  case_decide; [destruct Hj1 as [[] _]; unfold UIOT_MQTT_RX_BUF_LEN in *; lia|apply u32_range].
Qed.

Lemma write_rem_len_byte f b p x n b' k :
  Forall byte b -> 0 <= x -> write_rem_len_loop f b p x n = Ok (b', k) -> Forall byte b'.
Proof.
  revert b x n. induction f as [|f IH]; intros b x n Hb Hx Hw; cbn [write_rem_len_loop] in Hw; [done|].
  apply res_bind_ok in Hw as (b1 & H1 & H2).
  assert (Hb1 : Forall byte b1).
  { eapply write_at_byte; [exact Hb| |exact H1]. constructor; [|done].
    rewrite u8_small by zmod. unfold byte. case_decide; [rewrite lor_128 by zmod; zmod|zmod]. }
  case_decide; [eapply IH; [exact Hb1| |exact H2]; zmod|]. by injection H2 as <- _.
Qed.

Lemma decode_net_ok {B} timeout (f : Z + Z -> M B) L Q s :
  J L s ->
  (forall r s', J L s' -> match r with inl x => 0 <= x < 4294967296 | inr _ => True end ->
     wp (f r) Q s') ->
  wp (_decode_packet_rem_len_with_net_read timeout ≫= f) Q s.
Proof.
  intros Hj Hf. apply wp_bind. eapply wp_mono; [by apply decode_net_loop_range|].
  intros r s' [Hj' Hr]. by apply Hf.
Qed.

(** The part of [_read_mqtt_packet] behind the remaining length. *)
Lemma _read_mqtt_packet_ok timer : ok (_read_mqtt_packet (W := W) (H := H) timer).
Proof.
  intros L s Hj. unfold _read_mqtt_packet. repeat j_step.
  eapply ok_use; [apply read_into_ok; lia|eassumption|intros read_len s1 Hj1].
  do 2 (j_step; [by apply wp_ret|]). repeat j_step.
  eapply decode_net_ok; [eassumption|intros r s2 Hj2 Hr]. j_step; [|j_auto].
  j_step. j_step.
  - repeat (lazymatch goal with |- wp (drain_loop _ _ _ _ _ ≫= _) _ _ => fail | |- _ => j_step end).
    eapply ok_use; [apply drain_loop_ok|eassumption|intros; by apply wp_ret].
    destruct Hj2 as [[] _]. unfold UIOT_MQTT_RX_BUF_LEN in *. cbn in *. lia.
  - do 2 j_step. destruct a as [b cnt].
    eapply step_mod; [eassumption| |locks_same|intros Hj3].
    { lazymatch goal with Hw : mqtt_write_packet_rem_len _ _ _ = Ok _ |- _ =>
        inv_mod; [pose proof (keeps_len_rem _ _ _ _ _ Hw); cl_cbn; lia|];
        eapply write_rem_len_byte; [|..|exact Hw]; [assumption|apply u32_range] end. }
    j_step.
    + repeat j_step. eapply ok_use; [apply read_into_ok; lia|eassumption|intros; by apply wp_ret].
    + j_step; [|j_auto]. repeat j_step.
      eapply ok_use; [apply read_into_ok; lia|eassumption|intros; j_auto].
Qed.

(** The delivery loop starts with [lock_generic] held and gives it back before
    it calls a handler. *)
Lemma deliver_loop_spec idxs name n msg L s :
  J (addL Generic 1 L) s ->
  wp (deliver_loop app idxs name n msg)
    (fun (found : bool) s' => J (if found then L else addL Generic 1 L) s') s.
Proof.
  revert s. induction idxs as [|i idxs IH]; intros s Hj; cbn [deliver_loop]; [by apply wp_ret|].
  repeat (j_step; try done); try (by apply IH); try j_done.
  all: apply IH; eapply J_ext; [|eassumption]; intros x; unfold addL; repeat case_decide; lia.
Qed.

Lemma _deliver_message_ok name n msg : ok (_deliver_message app name n msg).
Proof.
  intros L s Hj. unfold _deliver_message. cbn zeta. j_step.
  apply wp_bind. eapply wp_mono; [by apply deliver_loop_spec|]. intros found s1 Hj1. cbn beta.
  destruct found; j_auto.
Qed.

(** Lists *)
Lemma fst_mark_pub i l : (mark_pub i <$> l).*1 = l.*1.
Proof. rewrite <- list_fmap_compose. apply list_fmap_ext. by intros ? [p x]. Qed.
Lemma fst_mark_sub i (l : list (positive * UIoTSubInfo H)) : (mark_sub i <$> l).*1 = l.*1.
Proof. rewrite <- list_fmap_compose. apply list_fmap_ext. by intros ? [p x]. Qed.
Lemma mark_pub_ok i l : Forall pub_ok l -> Forall pub_ok (mark_pub i <$> l).
Proof.
  intros Hl. apply Forall_fmap. eapply Forall_impl; [exact Hl|].
  intros [p x] Hx. unfold pub_ok, mark_pub in *. cbn in *. by case_decide.
Qed.
Lemma NoDup_filter_fst {A} p (l : list (positive * A)) :
  NoDup l.*1 -> NoDup (filter (fun n => n.1 <> p) l).*1.
Proof.
  induction l as [|[q x] l IH]; [done|]. rewrite fmap_cons, NoDup_cons. intros [Hq Hl].
  rewrite filter_cons. case_decide; [|by apply IH]. rewrite fmap_cons. apply NoDup_cons.
  split; [|by apply IH].
  intros (y & Hqy & Hy)%list_elem_of_fmap. apply Hq. apply list_elem_of_fmap.
  exists y. split; [done|]. by apply list_elem_of_filter in Hy as [_ ?].
Qed.
Lemma Forall_filter_fst {A} (P : positive * A -> Prop) p l :
  Forall P l -> Forall P (filter (fun n => n.1 <> p) l).
Proof. rewrite !Forall_forall. intros Hl x [_ Hx]%list_elem_of_filter. by apply Hl. Qed.
Lemma length_filter_le {A} p (l : list (positive * A)) :
  (length (filter (fun n => n.1 <> p) l) <= length l)%nat.
Proof. apply length_filter. Qed.
Lemma NoDup_snoc_fresh {A} (l : list (positive * A)) x :
  NoDup l.*1 -> NoDup (l ++ [(fresh (list_to_set (C := gset positive) l.*1), x)]).*1.
Proof.
  intros Hl. rewrite fmap_app. apply NoDup_app. split; [done|]. split; [|apply NoDup_singleton].
  intros p Hp. cbn. intros ->%list_elem_of_singleton.
  pose proof (is_fresh (list_to_set (C := gset positive) l.*1)) as Hf.
  by rewrite elem_of_list_to_set in Hf.
Qed.

Lemma _mask_pubInfo_from_ok i : ok (_mask_pubInfo_from (W := W) (H := H) i).
Proof.
  intros L s Hj. unfold _mask_pubInfo_from. repeat (j_step; try j_done).
  eapply step_mod; [eassumption| |locks_same|intros ?]; [|j_auto].
  subst. inv_mod; [by rewrite length_fmap|by rewrite fst_mark_pub|by apply mark_pub_ok].
Qed.

Lemma _mask_sub_info_from_ok i h : ok (_mask_sub_info_from (W := W) (H := H) i h).
Proof.
  intros L s Hj. unfold _mask_sub_info_from. repeat (j_step; try j_done).
  eapply step_mod; [eassumption| |locks_same|intros ?]; [|j_auto].
  subst. inv_mod; [by rewrite length_fmap|by rewrite fst_mark_sub].
Qed.

Lemma remove_pub_ok p : ok (remove_pub (W := W) (H := H) p).
Proof.
  intros L s Hj. unfold remove_pub. repeat j_step. apply wp_mod_cl. apply J_mod; [|locks_same|done].
  inv_mod; [|by apply NoDup_filter_fst|by apply Forall_filter_fst].
  pose proof (length_filter_le p (list_pub_wait_ack (cl s))). lia.
Qed.

Lemma remove_sub_ok p : ok (remove_sub (W := W) (H := H) p).
Proof.
  intros L s Hj. unfold remove_sub. repeat j_step. apply wp_mod_cl. apply J_mod; [|locks_same|done].
  inv_mod; [|by apply NoDup_filter_fst].
  pose proof (length_filter_le p (list_sub_wait_ack (cl s))). lia.
Qed.

Lemma push_sub_info_to_ok len i t h : ok (push_sub_info_to (W := W) (H := H) len i t h).
Proof.
  intros L s Hj. unfold push_sub_info_to. repeat (j_step; try j_done).
  eapply step_mod; [eassumption| |locks_same|intros ?]; [|j_auto].
  subst. inv_mod; [rewrite length_app; cbn [length]; lia|by apply NoDup_snoc_fresh].
Qed.
Hint Resolve _deliver_message_ok _mask_pubInfo_from_ok _mask_sub_info_from_ok remove_pub_ok
  remove_sub_ok push_sub_info_to_ok : client_ok.

Lemma _handle_puback_packet_ok : ok (_handle_puback_packet app).
Proof. intros L s Hj. unfold _handle_puback_packet. j_auto. Qed.

Lemma _check_handle_is_identical_ok h1 h2 : ok (_check_handle_is_identical (W := W) (H := H) h1 h2).
Proof. intros L s Hj. unfold _check_handle_is_identical. j_auto. Qed.
Hint Resolve _handle_puback_packet_ok _check_handle_is_identical_ok : client_ok.

Lemma dup_loop_ok hs i h f : ok (dup_loop (W := W) (H := H) hs i h f).
Proof. revert i f. induction hs as [|h' hs IH]; intros i f L s Hj; cbn [dup_loop]; j_auto. Qed.
Hint Resolve dup_loop_ok : client_ok.

Lemma _handle_suback_packet_ok : ok (_handle_suback_packet app).
Proof.
  intros L s Hj. unfold _handle_suback_packet. cbn zeta. repeat (j_step; try j_done).
  all: try (eapply step_mod; [eassumption| |locks_same|intros ?]; [inv_mod; by rewrite length_insert|]).
  all: j_auto.
Qed.

Lemma _handle_unsuback_packet_ok : ok (_handle_unsuback_packet app).
Proof. intros L s Hj. unfold _handle_unsuback_packet. j_auto. Qed.

Lemma add_repeat_ok i : ok (_add_packet_id_to_repeat_buf (W := W) (H := H) i).
Proof.
  intros L s Hj. unfold _add_packet_id_to_repeat_buf, _get_packet_id_in_repeat_buf.
  apply wp_bind, wp_bind, wp_get, wp_ret. repeat j_step; try done.
Qed.
Lemma get_repeat_ok i : ok (_get_packet_id_in_repeat_buf (W := W) (H := H) i).
Proof. intros L s Hj. by apply wp_bind, wp_get, wp_ret. Qed.
Hint Resolve _handle_suback_packet_ok _handle_unsuback_packet_ok add_repeat_ok get_repeat_ok : client_ok.

(** A serializer's result is stored in the transmit buffer. *)
Lemma step_store {B} (f : unit -> M B) b n r L Q s :
  J L s -> keeps_len (write_buf (cl s)) r -> r = Ok (b, n) ->
  (J L (set_cl (set_write_buf b (cl s)) s) -> wp (f tt) Q (set_cl (set_write_buf b (cl s)) s)) ->
  wp (mod_cl (set_write_buf b) ≫= f) Q s.
Proof.
  intros Hj Hk Hr Hf. eapply step_mod; [eassumption| |locks_same|done].
  inv_mod. rewrite (Hk _ _ Hr). assumption.
Qed.
Ltac j_store :=
  lazymatch goal with
  | Hr : ?r = Ok (?b, ?n) |- wp (mod_cl (set_write_buf ?b) ≫= _) _ _ =>
      eapply (step_store _ b n r); [eassumption|solve [auto with keeps_len]|exact Hr|intros ?]
  end.
Ltac j_all := repeat (first [j_step | j_store]; try j_done); try j_done.

Lemma _handle_publish_packet_ok timer : ok (_handle_publish_packet app fuel check_repeat timer).
Proof. intros L s Hj. unfold _handle_publish_packet. cbn zeta. j_all. Qed.

Lemma _handle_pubrec_packet_ok timer : ok (_handle_pubrec_packet (W := W) (H := H) fuel timer).
Proof. intros L s Hj. unfold _handle_pubrec_packet. cbn zeta. j_all. Qed.

Lemma _handle_pingresp_packet_ok : ok (_handle_pingresp_packet (W := W) (H := H)).
Proof.
  intros L s Hj. unfold _handle_pingresp_packet. j_step.
  eapply step_mod; [eassumption| |locks_same|intros ?].
  { subst. inv_mod. }
  repeat j_step. eapply step_mod; [eassumption| |locks_same|intros ?]; [inv_mod|]. j_all.
Qed.

Hint Resolve _read_mqtt_packet_ok _handle_publish_packet_ok _handle_pubrec_packet_ok
  _handle_pingresp_packet_ok : client_ok.

Lemma cycle_for_read_ok timer pt : ok (cycle_for_read app fuel check_repeat timer pt).
Proof.
  intros L s Hj. unfold cycle_for_read. repeat (j_step; try j_done).
  all: try (eapply step_mod; [eassumption| |locks_same|intros ?]; [subst; inv_mod|]; j_all).
Qed.
Hint Resolve cycle_for_read_ok : client_ok.

Lemma wait_loop_ok n pt timer rpt : ok (wait_loop app fuel check_repeat n pt timer rpt).
Proof. revert rpt. induction n as [|n IH]; intros rpt L s Hj; cbn [wait_loop]; j_all. Qed.
Hint Resolve wait_loop_ok : client_ok.
Lemma wait_for_read_ok pt timer : ok (wait_for_read app fuel check_repeat pt timer).
Proof. intros L s Hj. unfold wait_for_read. j_all. Qed.
Hint Resolve wait_for_read_ok : client_ok.

(** *** The requests *)

Lemma _mask_push_pubInfo_to_ok len i : ok (_mask_push_pubInfo_to (W := W) (H := H) len i).
Proof.
  intros L s Hj. unfold _mask_push_pubInfo_to. repeat (j_step; try j_done).
  eapply step_mod; [eassumption| |locks_same|intros ?]; [|j_all].
  lazymatch goal with Hs : slice_at _ _ _ = Ok ?buf |- _ => pose proof (slice_at_len _ _ _ _ Hs) end.
  subst. inv_mod; [rewrite length_app; cbn [length]; lia|by apply NoDup_snoc_fresh|].
  apply Forall_app. split; [assumption|]. constructor; [|constructor].
  unfold pub_ok. cbn [fst snd pub_buf pub_len]. lia.
Qed.
Hint Resolve _mask_push_pubInfo_to_ok : client_ok.

Lemma uiot_mqtt_publish_ok t p : ok (uiot_mqtt_publish (W := W) (H := H) fuel t p).
Proof. intros L s Hj. unfold uiot_mqtt_publish. cbn zeta. j_all. Qed.

Lemma undo_request_ok n t L s :
  J (addL WriteBuf 1 L) s -> wp (undo_request (W := W) (H := H) n t) (fun _ s' => J L s') s.
Proof. intros Hj. unfold undo_request. j_all. Qed.

Ltac j_undo :=
  apply wp_bind; eapply wp_mono; [by apply undo_request_ok|intros ? ? ?; cbn beta in *; j_all].

Lemma uiot_mqtt_subscribe_ok t p : ok (uiot_mqtt_subscribe (W := W) (H := H) fuel t p).
Proof.
  intros L s Hj. unfold uiot_mqtt_subscribe. cbn zeta. j_all.
  all: j_undo.
Qed.
Hint Resolve uiot_mqtt_publish_ok uiot_mqtt_subscribe_ok : client_ok.

Lemma resubscribe_loop_ok idxs : ok (resubscribe_loop (W := W) (H := H) fuel idxs).
Proof. induction idxs as [|i idxs IH]; intros L s Hj; cbn [resubscribe_loop]; j_all. Qed.
Hint Resolve resubscribe_loop_ok : client_ok.
Lemma uiot_mqtt_resubscribe_ok : ok (uiot_mqtt_resubscribe (W := W) (H := H) fuel).
Proof. intros L s Hj. unfold uiot_mqtt_resubscribe. j_all. Qed.

Lemma clear_loop_ok idxs t b : ok (clear_loop (W := W) (H := H) idxs t b).
Proof.
  revert b. induction idxs as [|i idxs IH]; intros b L s Hj; cbn [clear_loop]; j_all.
  all: eapply step_mod; [eassumption| |locks_same|intros ?]; [inv_mod; by rewrite length_insert|]; j_all.
Qed.
Hint Resolve uiot_mqtt_resubscribe_ok clear_loop_ok : client_ok.

Lemma uiot_mqtt_unsubscribe_ok t : ok (uiot_mqtt_unsubscribe (W := W) (H := H) fuel t).
Proof.
  intros L s Hj. unfold uiot_mqtt_unsubscribe. cbn zeta. j_all.

  all: j_undo.
Qed.

Hint Resolve uiot_mqtt_unsubscribe_ok : client_ok.

(** *** Connect and disconnect *)

Lemma network_disconnect_ok : ok (network_disconnect (W := W) (H := H)).
Proof. intros L s Hj. unfold network_disconnect. j_all. Qed.
Hint Resolve network_disconnect_ok : client_ok.

(** A change of fields [Inv] says nothing about, or whose new value it allows. *)
Ltac j_mod := eapply step_mod; [eassumption|solve [subst; inv_mod]|solve [locks_same]|intros ?].

Lemma _mqtt_connect_ok o : ok (_mqtt_connect app fuel check_repeat o).
Proof.
  assert (Hc : ok (set_client_conn_state (W := W) (H := H) 1)) by (apply set_client_conn_state_ok; lia).
  intros L s Hj. unfold _mqtt_connect. repeat (first [j_step | j_store | j_mod]; try j_done).
Qed.
Hint Resolve _mqtt_connect_ok : client_ok.

Lemma uiot_mqtt_connect_ok o : ok (uiot_mqtt_connect app fuel check_repeat o).
Proof. intros L s Hj. unfold uiot_mqtt_connect. j_all. Qed.
Hint Resolve uiot_mqtt_connect_ok : client_ok.
Lemma uiot_mqtt_attempt_reconnect_ok : ok (uiot_mqtt_attempt_reconnect app fuel check_repeat).
Proof. intros L s Hj. unfold uiot_mqtt_attempt_reconnect. j_all. Qed.
Hint Resolve uiot_mqtt_attempt_reconnect_ok : client_ok.

Lemma uiot_mqtt_disconnect_ok : ok (uiot_mqtt_disconnect (W := W) (H := H) fuel).
Proof.
  assert (Hc : ok (set_client_conn_state (W := W) (H := H) 0)) by (apply set_client_conn_state_ok; lia).
  intros L s Hj. unfold uiot_mqtt_disconnect. repeat (first [j_step | j_store | j_mod]; try j_done).
Qed.
Hint Resolve uiot_mqtt_disconnect_ok : client_ok.

(** *** The yield loop *)

Ltac j_full := repeat (first [j_step | j_store | j_mod]; try j_done); try j_done.

Lemma _handle_disconnect_ok : ok (_handle_disconnect app fuel).
Proof.
  assert (Hc : ok (set_client_conn_state (W := W) (H := H) 0))
    by (apply set_client_conn_state_ok; lia).
  intros L s Hj. unfold _handle_disconnect, _iot_disconnect_callback. j_full.
Qed.
Hint Resolve _handle_disconnect_ok : client_ok.

(** Two changes in a row: the invariant need not hold between them. *)
Lemma step_mod2 {B} f g (k : unit -> M B) Q s :
  wp (mod_cl (fun c => g (f c)) ≫= k) Q s -> wp (mod_cl f ≫= fun _ => mod_cl g ≫= k) Q s.
Proof. done. Qed.

Lemma _handle_reconnect_ok : ok (_handle_reconnect app fuel check_repeat).
Proof.
  intros L s Hj. unfold _handle_reconnect, _reconnect_callback. repeat (j_step; try j_done).
  apply step_mod2. eapply step_mod; [eassumption| | |intros ?].
  - pose proof (u32_range (current_reconnect_wait_interval (cl s') * 2)).
    case_decide; cl_cbn; inv_mod; unfold MAX_RECONNECT_WAIT_INTERVAL in *; lia.
  - by intros []; case_decide.
  - j_full.
Qed.

(** Sending changes the client's data in no way. *)
Definition quiet {A} (m : M A) : Prop := forall s, wp m (fun _ s' => cl s' = cl s) s.

Lemma quiet_bind {A B} (m : M A) (f : A -> M B) :
  quiet m -> (forall a, quiet (f a)) -> quiet (m ≫= f).
Proof.
  intros Hm Hf s. apply wp_bind. eapply wp_mono; [apply Hm|]. intros a s' <-. apply Hf.
Qed.
Lemma quiet_env {A} (g : W -> A * W) : quiet (env (H := H) g).
Proof. intros s. by apply wp_env. Qed.
Lemma quiet_ret {A} (a : A) : quiet (mret a).
Proof. done. Qed.
Lemma quiet_gets {A} (g : Client -> A) : quiet (gets g).
Proof. done. Qed.
Lemma quiet_tx sent n : quiet (tx_bytes (W := W) (H := H) sent n).
Proof. intros s. unfold tx_bytes. apply wp_bind, wp_gets. by apply wp_mem. Qed.
Ltac quiet :=
  repeat (cbn beta iota; lazymatch goal with
  | |- quiet (mret _) => apply quiet_ret
  | |- quiet (gets _) => apply quiet_gets
  | |- quiet (env _) => apply quiet_env
  | |- quiet (tx_bytes _ _) => apply quiet_tx
  | |- quiet (_ ≫= _) => apply quiet_bind; [|intros ?]
  | |- quiet (if decide ?P then _ else _) => destruct (decide P)
  | |- quiet (match ?x with _ => _ end) => destruct x
  end).

Lemma send_loop_quiet n len timer sent : quiet (send_loop (W := W) (H := H) n len timer sent).
Proof.
  revert sent. induction n as [|n IH]; intros sent; cbn [send_loop]; [done|].
  unfold expired, left, now. quiet. apply IH.
Qed.
Lemma send_quiet len timer : quiet (send_mqtt_packet (W := W) (H := H) fuel len timer).
Proof. unfold send_mqtt_packet. quiet. apply send_loop_quiet. Qed.
Lemma ping_loop_quiet n len : quiet (ping_loop (W := W) (H := H) fuel n len).
Proof.
  induction n as [|n IH]; cbn [ping_loop]; unfold start_ms, now; quiet;
    first [apply IH | apply send_quiet].
Qed.

Lemma wp_and {A} (m : M A) (Q Q' : A -> St -> Prop) s :
  wp m Q s -> wp m Q' s -> wp m (fun a s' => Q a s' /\ Q' a s') s.
Proof. unfold wp. destruct (m s); auto. Qed.

Lemma ping_loop_ok n len : ok (ping_loop (W := W) (H := H) fuel n len).
Proof. induction n as [|n IH]; intros L s Hj; cbn [ping_loop]; j_all. Qed.

Lemma _mqtt_keep_alive_ok : ok (_mqtt_keep_alive app fuel).
Proof.
  intros L s Hj. unfold _mqtt_keep_alive. j_all.
  apply wp_bind. eapply wp_mono; [apply wp_and; [by apply ping_loop_ok|apply ping_loop_quiet]|].
  intros ret s1 [Hj1 Hq]. j_step; [j_all|]. repeat j_step.
  assert (is_ping_outstanding (cl s'1) = is_ping_outstanding (cl s)) as Hp.
  { lazymatch goal with E : s'1 = _ |- _ => rewrite E end.
    lazymatch goal with E : s'0 = _ |- _ => rewrite E end. cbn. rewrite Hq. cbn. by subst. }
  eapply step_mod; [eassumption| |locks_same|intros ?]; [|j_full].
  rewrite <- Hp in *. inv_mod. unfold MQTT_PING_RETRY_TIMES in *. rewrite u8_small; lia.
Qed.
Hint Resolve _handle_reconnect_ok _mqtt_keep_alive_ok : client_ok.

(** The sweeps *)
Lemma fst_set_pub_timer p t l : (set_pub_timer p t l).*1 = l.*1.
Proof.
  unfold set_pub_timer. rewrite <- list_fmap_compose. apply list_fmap_ext. intros ? [q x] _. cbn.
  by case_decide.
Qed.
Lemma set_pub_timer_ok p t l : Forall pub_ok l -> Forall pub_ok (set_pub_timer p t l).
Proof.
  intros Hl. apply Forall_fmap. eapply Forall_impl; [exact Hl|].
  intros [q x] Hx. unfold pub_ok in *. cbn in *. by case_decide.
Qed.

Lemma pub_sweep_ok nodes temp : ok (pub_sweep (W := W) (H := H) app nodes temp).
Proof.
  revert temp. induction nodes as [|p nodes IH]; intros temp L s Hj; cbn [pub_sweep]; j_all.
  all: eapply step_mod; [eassumption| |locks_same|intros ?]; [|j_all].
  all: subst; inv_mod; [unfold set_pub_timer; by rewrite length_fmap
    |by rewrite fst_set_pub_timer|by apply set_pub_timer_ok].
Qed.
Lemma sub_sweep_ok nodes temp : ok (sub_sweep (W := W) (H := H) app nodes temp).
Proof.
  revert temp. induction nodes as [|p nodes IH]; intros temp L s Hj; cbn [sub_sweep]; j_all.
Qed.
Hint Resolve pub_sweep_ok sub_sweep_ok : client_ok.
Lemma uiot_mqtt_pub_info_proc_ok : ok (uiot_mqtt_pub_info_proc (W := W) (H := H) app).
Proof. intros L s Hj. unfold uiot_mqtt_pub_info_proc. j_all. Qed.
Lemma uiot_mqtt_sub_info_proc_ok : ok (uiot_mqtt_sub_info_proc (W := W) (H := H) app).
Proof. intros L s Hj. unfold uiot_mqtt_sub_info_proc. j_all. Qed.
Hint Resolve uiot_mqtt_pub_info_proc_ok uiot_mqtt_sub_info_proc_ok : client_ok.

Lemma yield_round_ok timer pt : ok (yield_round app fuel check_repeat timer pt).
Proof.
  intros L s Hj. unfold yield_round. do 2 j_step.
  - j_full.
  - apply wp_bind, wp_modify. eapply ok_use with (L := L); [auto with client_ok|done|intros ? ? ?].
    j_full.
Qed.
Hint Resolve yield_round_ok : client_ok.
Lemma yield_loop_ok n timer pt r : ok (yield_loop app fuel check_repeat n timer pt r).
Proof. revert pt r. induction n as [|n IH]; intros pt r L s Hj; cbn [yield_loop]; j_full. Qed.
Hint Resolve yield_loop_ok : client_ok.
Lemma uiot_mqtt_yield_ok t : ok (uiot_mqtt_yield app fuel check_repeat t).
Proof. intros L s Hj. unfold uiot_mqtt_yield. j_full. Qed.

Lemma set_autoreconnect_ok b : ok (uiot_mqtt_set_autoreconnect (W := W) (H := H) b).
Proof. intros L s Hj. unfold uiot_mqtt_set_autoreconnect. j_full. Qed.
Lemma reset_count_ok : ok (uiot_mqtt_reset_network_disconnected_count (W := W) (H := H)).
Proof. intros L s Hj. unfold uiot_mqtt_reset_network_disconnected_count. j_full. Qed.
#[local] Hint Resolve uiot_mqtt_yield_ok set_autoreconnect_ok reset_count_ok : client_ok.

(** *** Requests *)

Lemma perform_ok r : ok (perform app fuel check_repeat r).
Proof.
  destruct r; cbn [perform]; auto with client_ok.
Qed.

Lemma session_ok rs : ok (session app fuel check_repeat rs).
Proof.
  induction rs as [|r rs IH]; intros L s Hj; cbn [session]; [by apply wp_ret|].
  eapply ok_use; [apply perform_ok|eassumption|intros ? ? ?].
  eapply ok_use; [apply IH|eassumption|intros ? ? ?]. by apply wp_ret.
Qed.

(** *** The invariant is established *)

Lemma fresh_client_inv t b : MIN_COMMAND_TIMEOUT <= t <= MAX_COMMAND_TIMEOUT ->
  Inv (fresh_client (H := H) t b).
Proof.
  intros Ht. constructor; cbn; try done; try lia; try (by left); try apply NoDup_nil_2; try by constructor.
  apply Forall_replicate. by split.
Qed.
Lemma clamp_timeout_range t : MIN_COMMAND_TIMEOUT <= clamp_timeout t <= MAX_COMMAND_TIMEOUT.
Proof. unfold clamp_timeout, MIN_COMMAND_TIMEOUT, MAX_COMMAND_TIMEOUT. repeat case_decide; lia. Qed.

Context `{!Resources W}.

Lemma init_error_ok a b c d e f : ok (init_error (W := W) (H := H) a b c d e f).
Proof. intros L s Hj. unfold init_error, when, free_block, destroy_mutex. by destruct a, b, c, d, e, f. Qed.
Hint Resolve init_error_ok : client_ok.

(** From any state at all, [uiot_mqtt_init] leaves a client that satisfies the
    invariant and whose locks are free. *)
Lemma uiot_mqtt_init_spec p (s : St) :
  wp (uiot_mqtt_init p) (fun _ s' => J (fun _ => 0) s') s.
Proof.
  assert (Hc : ok (set_client_conn_state (W := W) (H := H) 0))
    by (apply set_client_conn_state_ok; lia).
  unfold uiot_mqtt_init. cbn zeta. rewrite decide_False by (intros [Hx | Hx]; discriminate Hx).
  apply wp_bind, wp_mod_cl.
  set (s1 := set_cl _ s). assert (Hj : J (fun _ => 0) s1).
  { split; [apply fresh_client_inv, clamp_timeout_range|]. by intros []. }
  clearbody s1. clear s. j_full.
Qed.

End kept.
