(* ===== verification/MqttSend.v ===== *)
(** What the sending half does on the wire: [send_mqtt_packet] and the
    requests built on it, against any network that obeys [EnvLaws] and is
    observed by [NetLog].  All specifications are total ([twp]): the functions
    return. *)

From S2P Require Import Prelude Defs HalTimer MqttWire MqttTopic MqttState MqttClient MqttSession MqttApi MqttSim MqttInv.

(** The steps that cannot fail. *)
Ltac t_step :=
  cbn beta iota;
  lazymatch goal with
  | |- twp ((_ ≫= _) ≫= _) _ _ => apply twp_assoc
  | |- twp (mret _ ≫= _) _ _ => apply twp_pure
  | |- twp (gets _ ≫= _) _ _ => apply twp_gets
  | |- twp (get ≫= _) _ _ => apply twp_get
  | |- twp (modify _ ≫= _) _ _ => apply twp_modify
  | |- twp (mod_cl _ ≫= _) _ _ => apply twp_mod_cl
  | |- twp (HAL_MutexLock _ ≫= _) _ _ => apply twp_lock
  | |- twp (HAL_MutexUnlock _ ≫= _) _ _ => apply twp_unlock
  | |- twp (expired _ ≫= _) _ _ => apply twp_expired
  | |- twp (left _ ≫= _) _ _ => apply twp_left
  | |- twp (start_ms _ ≫= _) _ _ => apply twp_start_ms
  | |- twp (start_s _ ≫= _) _ _ => apply twp_start_s
  | |- twp (tx_bytes _ _ ≫= _) _ _ => unfold tx_bytes at 1
  end.
Ltac t_steps := repeat t_step; cbn [cl set_cl set_world world] in *.

(** Updates of the state. *)
Section updates.
Context {W H : Type}.
Local Abbreviation St := (@St W H).
Lemma set_cl_same (s : St) : set_cl (cl s) s = s.
Proof. by destruct s. Qed.
Lemma set_cl_twice c c' (s : St) : set_cl c (set_cl c' s) = set_cl c s.
Proof. done. Qed.
Lemma set_world_cl w c (s : St) : set_cl c (set_world w s) = set_world w (set_cl c s).
Proof. done. Qed.
Lemma set_heap_cl h c (s : St) : set_cl c (set_heap h s) = set_heap h (set_cl c s).
Proof. done. Qed.
Lemma set_world_heap w h (s : St) : set_heap h (set_world w s) = set_world w (set_heap h s).
Proof. done. Qed.
Lemma set_world_twice w w' (s : St) : set_world w (set_world w' s) = set_world w s.
Proof. done. Qed.
Lemma set_heap_twice h h' (s : St) : set_heap h (set_heap h' s) = set_heap h s.
Proof. done. Qed.
End updates.

(** Bring a chain of updates into the order environment, heap, client, one of
    each. *)
Ltac st_norm :=
  cbn [cl set_cl heap set_heap set_world world];
  rewrite ?set_world_cl, ?set_heap_cl, ?set_world_heap;
  rewrite ?set_world_twice, ?set_cl_twice, ?set_heap_twice;
  cbn [cl set_cl heap set_heap set_world world].

Section send.
Context {W H : Type} `{Env W} `{!EnvLaws W} `{!NetLog W} `{EqDecision H}.
Local Abbreviation St := (@St W H).
Local Abbreviation M := (@M W H).
Context (fuel : nat).

(** Only the environment moved. *)
Definition moved (s s' : St) : Prop := s' = set_world (world s') s.

Lemma moved_refl s : moved s s.
Proof. by destruct s. Qed.
Lemma moved_world w s : moved s (set_world w s).
Proof. done. Qed.
Lemma moved_trans s1 s2 s3 : moved s1 s2 -> moved s2 s3 -> moved s1 s3.
Proof. unfold moved. intros H1 H2. rewrite H2, H1. done. Qed.
Lemma moved_cl s s' : moved s s' -> cl s' = cl s.
Proof. by intros ->. Qed.

(** Reading the clock moves the environment and sends nothing. *)
Lemma twp_now {B} (f : Z -> M B) Q s :
  (forall t w, stream w = stream (world s) -> twp (f t) Q (set_world w s)) ->
  twp (now ≫= f) Q s.
Proof.
  intros Hf. apply twp_env. intros t w Hw. apply Hf.
  pose proof (tick_stream (world s)) as Hs. by rewrite Hw in Hs.
Qed.
Lemma twp_malloc {B} (f : bool -> M B) Q s :
  (forall b w, stream w = stream (world s) -> twp (f b) Q (set_world w s)) ->
  twp (malloc ≫= f) Q s.
Proof.
  intros Hf. apply twp_env. intros t w Hw. apply Hf.
  pose proof (malloc_stream (world s)) as Hs. by rewrite Hw in Hs.
Qed.

(** The bytes that lie at the transmit buffer, as far as the structure goes. *)
Definition tx (c : @Client H) : bytes := write_buf c ++ read_buf c.

Lemma take_drop_app (l : bytes) i a b :
  take a (drop i l) ++ take b (drop (i + a) l) = take (a + b) (drop i l).
Proof. rewrite <- drop_drop. by rewrite <- take_take_drop. Qed.

Definition bufs_ok (c : @Client H) : Prop :=
  zlen (write_buf c) = UIOT_MQTT_TX_BUF_LEN /\ zlen (read_buf c) = UIOT_MQTT_RX_BUF_LEN /\
  write_buf_size c = UIOT_MQTT_TX_BUF_LEN.

(** [n] bytes of the transmit buffer went out from [s] to [s']. *)
Definition went_out (from n : Z) (s s' : St) : Prop :=
  moved s s' /\
  stream (world s') = stream (world s) ++ take (Z.to_nat n) (drop (Z.to_nat from) (tx (cl s))).

Lemma send_loop_total n len timer sent s :
  bufs_ok (cl s) -> 0 <= sent -> 0 <= len < UIOT_MQTT_TX_BUF_LEN -> Z.max 0 (len - sent) < Z.of_nat n ->
  sent < 2 * len \/ sent = 0 ->
  twp (send_loop n len timer sent)
    (fun r s' => sent <= r /\ (r < 2 * len \/ r = 0) /\ went_out sent (r - sent) s s') s.
Proof.
  unfold UIOT_MQTT_TX_BUF_LEN. intros Hb Hs Hl. revert sent s Hb Hs.
  induction n as [|n IH]; intros sent s Hb Hs Hn Hr; cbn [send_loop].
  all: assert (went_out sent (sent - sent) s s)
    by (split; [apply moved_refl|by rewrite Z.sub_diag, app_nil_r]).
  { lia. }
  destruct (decide (sent < len)) as [Hlt|Hge]; [|apply twp_ret; split_and!; lia || done].
  apply twp_assoc, twp_now. intros t w Hw. apply twp_pure.
  destruct (has_expired timer t).
  { apply twp_ret. split; [lia|]. split; [done|]. split; [done|].
    cbn. by rewrite Hw, Z.sub_diag, app_nil_r. }
  apply twp_assoc, twp_now. intros t' w' Hw'. apply twp_pure, twp_assoc, twp_gets.
  cbn [cl set_world] in *. destruct Hb as (Hb1 & Hb2 & Hb3).
  unfold UIOT_MQTT_TX_BUF_LEN, UIOT_MQTT_RX_BUF_LEN in *.
  set (data := take (Z.to_nat len) (drop (Z.to_nat sent) (tx (cl s)))).
  assert (Hd : slice_at (write_buf (cl s) ++ read_buf (cl s)) sent len = Ok data).
  { apply slice_at_ok. rewrite length_app. split_and!; lia || done. }
  pose proof (slice_at_len _ _ _ _ Hd) as Hdl.
  eapply twp_mem; [exact Hd|]. apply twp_env. intros r w2 Hw2.
  pose proof (write_stream _ _ _ _ _ Hw2) as Hst.
  destruct (write_law _ _ _ _ _ Hw2) as [Hneg | Hpos]; [by intros ->; cbn in Hdl; lia| |].
  - rewrite decide_True by done. apply twp_ret. split; [lia|]. split; [done|].
    split; [done|]. cbn in *. rewrite Hst.
    replace (Z.to_nat r) with 0%nat by lia. rewrite Z.sub_diag. cbn. rewrite !app_nil_r. congruence.
  - rewrite decide_False by lia. rewrite u32_small by lia. eapply twp_mono; [apply IH|].
    + by split_and!.
    + lia.
    + lia.
    + lia.
    + intros r' s' (Hr1 & Hr2 & Hr3 & Hr4). split; [lia|]. split; [done|].
      split; [exact Hr3|]. rewrite Hr4. cbn [world set_world cl] in *.
      rewrite Hst, <- app_assoc. f_equal; [congruence|]. unfold data. rewrite take_take.
      replace (Z.to_nat r `min` Z.to_nat len)%nat with (Z.to_nat r) by lia.
      replace (Z.to_nat (sent + r)) with (Z.to_nat sent + Z.to_nat r)%nat by lia.
      rewrite take_drop_app. f_equal. lia.
Qed.

(** [send_mqtt_packet], for a packet of [len] bytes at the start of the
    transmit buffer. *)
Definition sent_spec (len : Z) (s : St) (ret : Z) (s' : St) : Prop :=
  moved s s' /\
  ((ret = SUCCESS_RET /\ len < UIOT_MQTT_TX_BUF_LEN /\
    stream (world s') = stream (world s) ++ take (Z.to_nat len) (write_buf (cl s))) \/
   (ret = ERR_MQTT_BUFFER_TOO_SHORT /\ UIOT_MQTT_TX_BUF_LEN <= len /\ s' = s) \/
   (ret = FAILURE_RET /\ len < UIOT_MQTT_TX_BUF_LEN /\
    exists n, n <> len /\ (n < 2 * len \/ n = 0) /\ went_out 0 n s s')).

Lemma send_total len timer s :
  bufs_ok (cl s) -> 0 <= len -> UIOT_MQTT_TX_BUF_LEN <= Z.of_nat fuel ->
  twp (send_mqtt_packet fuel len timer) (sent_spec len s) s.
Proof.
  intros Hb Hl Hf. unfold send_mqtt_packet. apply twp_gets.
  destruct Hb as (Hb1 & Hb2 & Hb3). rewrite Hb3.
  destruct (decide (len >= UIOT_MQTT_TX_BUF_LEN)) as [Hge|Hlt].
  { apply twp_ret. split; [apply moved_refl|]. right. left. split_and!; done || lia. }
  eapply twp_use; [apply send_loop_total; [by split_and!|lia..]|].
  intros r s1 (Hr1 & Hr2 & Hr3). destruct (decide (r = len)) as [->|Hne]; apply twp_ret.
  - destruct Hr3 as [Hm Hs]. split; [done|]. left. split; [done|]. split; [lia|].
    rewrite Hs, Z.sub_0_r, drop_0. f_equal. unfold tx. rewrite take_app_le by lia. done.
  - destruct Hr3 as [Hm Hs]. split; [done|]. right. right. split; [done|]. split; [lia|].
    exists r. rewrite Z.sub_0_r in Hs. by split_and!.
Qed.

(* ------------------------------------------------------------------ *)
(** ** Runs of the small functions *)

Lemma lock_unlock x (c : @Client H) : lock_add x (-1) (lock_add x 1 c) = c.
Proof. destruct x, c; client_eq. Qed.
Lemma unlock_lock x (c : @Client H) : lock_add x 1 (lock_add x (-1) c) = c.
Proof. destruct x, c; client_eq. Qed.



Lemma conn_state_run (s : St) : get_client_conn_state s = Ret (is_connected (cl s)) s.
Proof.
  unfold get_client_conn_state, HAL_MutexLock, HAL_MutexUnlock, mod_cl, modify, gets, mret, M_ret,
    mbind, M_bind. cbn [cl set_cl]. rewrite lock_unlock, set_cl_twice, set_cl_same. by destruct (cl s).
Qed.

(** The packet id behind [i]. *)
Definition next_id (i : Z) : Z := if decide (i = MAX_PACKET_ID) then 1 else i + 1.

Lemma next_id_range i : 1 <= i <= MAX_PACKET_ID -> 1 <= next_id i <= MAX_PACKET_ID.
Proof. unfold next_id, MAX_PACKET_ID. case_decide; lia. Qed.

Lemma next_packet_id_run (s : St) : 1 <= next_packet_id (cl s) <= MAX_PACKET_ID ->
  let i := next_id (next_packet_id (cl s)) in
  get_next_packet_id s = Ret i (set_cl (set_next_packet_id i (cl s)) s).
Proof.
  intros Hi. pose proof (next_id_range _ Hi) as Hn. unfold MAX_PACKET_ID in *.
  unfold get_next_packet_id, HAL_MutexLock, HAL_MutexUnlock, mod_cl, modify, gets, mbind, M_bind.
  cbn [cl set_cl]. rewrite !set_cl_twice.
  set (i := next_id (next_packet_id (cl s))).
  replace (u16 _) with i; [f_equal; f_equal; destruct (cl s); client_eq|].
  unfold i, next_id, MAX_PACKET_ID in *. cbn.
  repeat case_decide; rewrite ?u16_small; lia.
Qed.

Lemma twp_run {A B} (m : M A) a s' (f : A -> M B) Q s :
  m s = Ret a s' -> twp (f a) Q s' -> twp (m ≫= f) Q s.
Proof. unfold twp, mbind, M_bind. by intros ->. Qed.

(** [s'] is [s] with its client changed to [c] and the environment moved,
    nothing being sent. *)
Definition becomes (c : @Client H) (s s' : St) : Prop :=
  s' = set_world (world s') (set_cl c s) /\ stream (world s') = stream (world s).

Lemma becomes_stay (s s' : St) : moved s s' -> stream (world s') = stream (world s) ->
  becomes (cl s) s s'.
Proof. intros Hm Hs. split; [|done]. by rewrite set_cl_same. Qed.

(** The node that [_mask_push_pubInfo_to] appends for a packet of [len] bytes. *)
Definition pub_node (node : positive) (t i len : Z) (c : @Client H) : positive * UIoTPubInfo :=
  (node, mkPubInfo t MQTT_NODE_STATE_NORMAL i len (take (Z.to_nat len) (write_buf c))).

(** The block [blk] leaked, which happens when an allocation, the last call to
    the environment, failed. *)
Definition lost (blk : bytes) (hp hp' : gmap positive bytes) (w : W) : Prop :=
  (exists w0, malloc_ok w0 = (false, w)) /\ exists q, hp !! q = None /\ hp' = <[q := blk]> hp.
Definition maybe_lost (blk : bytes) (hp hp' : gmap positive bytes) (e : Z) (w : W) : Prop :=
  hp' = hp \/ (e = FAILURE_RET /\ lost blk hp hp' w).

Lemma leak_run blk (s : St) : exists q, heap s !! q = None /\
  (leak blk : M unit) s = Ret tt (set_heap (<[q := blk]> (heap s)) s).
Proof. exists (fresh (dom (heap s))). split; [apply not_elem_of_dom, is_fresh|done]. Qed.

Definition push_pub_spec (len i : Z) (s : St) (r : positive + Z) (s' : St) : Prop :=
  match r with
  | inl node => (node ∉ (list_pub_wait_ack (cl s)).*1) /\
      zlen (list_pub_wait_ack (cl s)) < MAX_REPUB_NUM /\
      exists t, becomes (set_list_pub_wait_ack
        (list_pub_wait_ack (cl s) ++ [pub_node node t i len (cl s)]) (cl s)) s s'
  | inr e => e = FAILURE_RET /\ exists hp, becomes (cl s) (set_heap hp s) s' /\
      maybe_lost (take (Z.to_nat len) (write_buf (cl s))) (heap s) hp e (world s')
  end.

Lemma fresh_not_in {A} (l : list (positive * A)) :
  fresh (list_to_set (C := gset positive) l.*1) ∉ l.*1.
Proof.
  pose proof (is_fresh (list_to_set (C := gset positive) l.*1)) as Hf.
  by rewrite elem_of_list_to_set in Hf.
Qed.

Lemma push_pub_total len i s :
  bufs_ok (cl s) -> 0 <= len ->
  twp (_mask_push_pubInfo_to len i) (push_pub_spec len i s) s.
Proof.
  intros (Hb1 & Hb2 & Hb3) Hl. unfold _mask_push_pubInfo_to. apply twp_gets. rewrite Hb3.
  assert (Hnone : forall s', becomes (cl s) s s' -> exists hp, becomes (cl s) (set_heap hp s) s' /\
      maybe_lost (take (Z.to_nat len) (write_buf (cl s))) (heap s) hp FAILURE_RET (world s')).
  { intros s' Hs'. exists (heap s). split; [|by left]. by destruct s. }
  destruct (decide _) as [Hd|Hd]; [apply twp_ret; split; [done|by apply Hnone, becomes_stay; [apply moved_refl|]]|].
  unfold HAL_MutexLock, HAL_MutexUnlock. apply twp_mod_cl, twp_gets. cbn [cl set_cl].
  assert (Hback : forall w, becomes (cl s) s (set_cl (lock_add ListPub (-1) (lock_add ListPub 1 (cl s)))
    (set_world w s)) <-> stream w = stream (world s)).
  { intros w. rewrite lock_unlock. split; [by intros [_ ?]|]. by split. }
  destruct (decide _) as [Hfull|Hfull].
  { apply twp_mod_cl, twp_ret. split; [done|]. apply Hnone. by apply (Hback (world s)). }
  apply twp_malloc. intros b1 w1 Hw1. destruct b1; cbn [negb].
  2: { apply twp_mod_cl, twp_ret. split; [done|]. apply Hnone. by apply (Hback w1). }
  apply twp_gets, twp_assoc, twp_now. intros t w2 Hw2. apply twp_pure, twp_gets.
  eapply twp_mem; [apply slice_at_ok; cbn; split_and!; [lia..|]; reflexivity|].
  apply twp_env. intros b2 w3 Hb2w. cbn [world set_world set_cl] in *.
  assert (Hw3 : stream w3 = stream w2) by (pose proof (malloc_stream w2) as Hm; by rewrite Hb2w in Hm).
  destruct b2; cbn [negb].
  2: { destruct (leak_run (take (Z.to_nat len) (write_buf (cl s))) (set_world w3 (set_cl (lock_add ListPub 1 (cl s)) s))) as (q & Hq & Hrun).
       eapply twp_run; [exact Hrun|]. apply twp_mod_cl, twp_ret. split; [done|].
       exists (<[q := take (Z.to_nat len) (write_buf (cl s))]> (heap s)). split.
       - pose proof (proj2 (Hback w3) ltac:(congruence)) as Hb'.
         split; [|cbn; congruence]. cbn [cl set_heap set_world set_cl]. rewrite lock_unlock. by destruct s.
       - right. split; [done|]. split; [by exists w2|]. by exists q. }
  apply twp_mod_cl, twp_mod_cl, twp_ret. split; [apply fresh_not_in|].
  assert (Hlp : list_pub_wait_ack (lock_add ListPub 1 (cl s)) = list_pub_wait_ack (cl s)) by done.
  rewrite Hlp in *. split; [lia|].
  exists (countdown_ms rt_tick_from_millisecond (command_timeout_ms (cl s)) t). split; [|cbn; congruence].
  unfold set_world, set_cl. cbn. f_equal.
  destruct (cl s). by client_eq.
Qed.

(* ------------------------------------------------------------------ *)
(** ** When nothing goes wrong *)

Section calm.
Context `{!Calm W}.

Lemma twp_now_calm {B} (f : Z -> M B) Q s :
  calm (world s) -> (forall w, calm w -> twp (f calm_now) Q (set_world w s)) ->
  twp (now ≫= f) Q s.
Proof.
  intros Hc Hf. apply twp_env. intros t w Hw. destruct (calm_tick (world s) Hc) as [Ht Hc'].
  rewrite Hw in Ht, Hc'. cbn in Ht. subst t. by apply Hf.
Qed.
Lemma twp_malloc_calm {B} (f : bool -> M B) Q s :
  calm (world s) -> (forall w, calm w -> twp (f true) Q (set_world w s)) ->
  twp (malloc ≫= f) Q s.
Proof.
  intros Hc Hf. apply twp_env. intros t w Hw. destruct (calm_malloc (world s) Hc) as [Ht Hc'].
  rewrite Hw in Ht, Hc'. cbn in Ht. subst t. by apply Hf.
Qed.

Lemma send_calm len timer s :
  bufs_ok (cl s) -> 0 < len < UIOT_MQTT_TX_BUF_LEN -> 2 <= Z.of_nat fuel -> calm (world s) ->
  has_expired timer calm_now = false ->
  twp (send_mqtt_packet fuel len timer)
    (fun ret s' => ret = SUCCESS_RET /\ calm (world s') /\ moved s s') s.
Proof.
  intros (Hb1 & Hb2 & Hb3) Hl Hf Hc Ht. unfold send_mqtt_packet. apply twp_gets. rewrite Hb3.
  rewrite decide_False by lia. unfold UIOT_MQTT_TX_BUF_LEN, UIOT_MQTT_RX_BUF_LEN in *.
  destruct fuel as [|[|n]]; [lia..|]. cbn [send_loop]. rewrite decide_True by lia.
  t_steps. apply twp_now_calm; [done|intros w1 Hc1]. t_steps. rewrite Ht.
  t_steps. apply twp_now_calm; [done|intros w2 Hc2]. t_steps.
  set (data := take (Z.to_nat len) (write_buf (cl s) ++ read_buf (cl s))).
  assert (Hd : slice_at (write_buf (cl s) ++ read_buf (cl s)) 0 len = Ok data).
  { apply slice_at_ok. rewrite length_app. split_and!; lia || done. }
  pose proof (slice_at_len _ _ _ _ Hd) as Hdl.
  eapply twp_mem; [exact Hd|]. t_steps. apply twp_env. intros r w3 Hw3.
  destruct (calm_write data (u32 (left_ms timer calm_now)) _ Hc2) as [Hr Hc3].
  cbn [world set_world] in Hw3. rewrite Hw3 in Hr, Hc3. cbn [fst snd] in Hr, Hc3. rewrite Hdl in Hr.
  subst r. rewrite decide_False by lia. rewrite u32_small by lia. rewrite decide_False by lia.
  t_steps. rewrite decide_True by lia. by apply twp_ret.
Qed.

Lemma push_pub_calm len i s :
  bufs_ok (cl s) -> 0 <= len <= UIOT_MQTT_TX_BUF_LEN -> calm (world s) ->
  zlen (list_pub_wait_ack (cl s)) < MAX_REPUB_NUM ->
  twp (_mask_push_pubInfo_to len i)
    (fun r s' => calm (world s') /\ exists node, r = inl node) s.
Proof.
  intros (Hb1 & Hb2 & Hb3) Hl Hc Hlen. unfold _mask_push_pubInfo_to. apply twp_gets. rewrite Hb3.
  rewrite decide_False by lia. unfold HAL_MutexLock, HAL_MutexUnlock.
  apply twp_mod_cl, twp_gets. cbn [cl set_cl lock_add]. rewrite decide_False by (cbn; lia).
  apply twp_malloc_calm; [done|intros w1 Hc1]. cbn [negb].
  apply twp_gets, twp_assoc, twp_now_calm; [done|intros w2 Hc2]. apply twp_pure, twp_gets.
  eapply twp_mem; [apply slice_at_ok; cbn; split_and!; [lia..|]; reflexivity|].
  apply twp_malloc_calm; [done|intros w3 Hc3]. cbn [negb].
  apply twp_mod_cl, twp_mod_cl, twp_ret. split; [done|]. by eexists.
Qed.

End calm.

Lemma twp_and {A} (m : M A) (Q Q' : A -> St -> Prop) s :
  twp m Q s -> twp m Q' s -> twp m (fun a s' => Q a s' /\ Q' a s') s.
Proof. unfold twp. destruct (m s); auto. Qed.

(* ------------------------------------------------------------------ *)
(** ** Publish *)

(** A publish request that can go out: QoS 0 or 1, a topic of 1 to 128 bytes,
    the payload [data] in the object [payload] points to. *)
Record pub_request (name data : bytes) (p : PublishParams) : Prop := {
  pr_qos : p_qos p = QOS0 \/ p_qos p = QOS1;
  pr_retained : byte (p_retained p);
  pr_id : 0 <= p_id p < 65536;
  pr_len : p_payload_len p = zlen data;
  pr_payload : exists payload, p_payload p = Some payload /\ take (length data) payload = data;
  pr_name : 1 <= zlen name <= MAX_SIZE_OF_CLOUD_TOPIC;
  pr_data : zlen data < 4294967000
}.

Definition pub_id (p : PublishParams) (c : @Client H) : Z :=
  if decide (p_qos p = QOS1) then next_id (next_packet_id c) else p_id p.
Definition pid_after (p : PublishParams) (c : @Client H) : Z :=
  if decide (p_qos p = QOS1) then next_id (next_packet_id c) else next_packet_id c.
Definition pub_packet (name data : bytes) (p : PublishParams) (c : @Client H) : bytes :=
  Spec.publish 0 (p_qos p) (p_retained p `mod` 2) (pub_id p c) name data.

(** The client behind a publish: the counter of ids moved for QoS 1, the
    transmit buffer was used, the list is [l]. *)
Definition published (p : PublishParams) (b : bytes) (l : list (positive * UIoTPubInfo))
    (c : @Client H) : @Client H :=
  set_list_pub_wait_ack l (set_write_buf b
    (set_next_packet_id (pid_after p c) c)).

Lemma zlen_pos_string (name : bytes) : 1 <= zlen name -> string_valid (Some name) = true.
Proof. intros Hn. unfold string_valid. rewrite bool_decide_false by lia. done. Qed.

Lemma publish_packet_len name data p c :
  pub_request name data p -> 0 < zlen (pub_packet name data p c).
Proof. intros _. cbn. lia. Qed.
Lemma packet_small name data p (c : @Client H) :
  pub_request name data p ->
  let est := get_mqtt_packet_len (zlen (Spec.publish_body (p_qos p) (pub_id p c) name data)) in
  est <= UIOT_MQTT_TX_BUF_LEN -> zlen (pub_packet name data p c) <= est.
Proof.
  intros [] est He. unfold pub_packet, Spec.publish. set (body := Spec.publish_body _ _ _ _) in *.
  pose proof (packet_fits (replicate (Z.to_nat est) 0) est body) as Hf.
  rewrite length_replicate in Hf. unfold UIOT_MQTT_TX_BUF_LEN, MAX_SIZE_OF_CLOUD_TOPIC in *.
  assert (zlen body < 4294967290) by (unfold body; rewrite publish_body_len; case_decide; lia).
  assert (0 <= est).
  { destruct (get_mqtt_packet_len_bounds (zlen body)) as [Hge _]; [lia|].
    change (get_mqtt_packet_len (zlen body)) with est in Hge. case_decide; lia. }
  rewrite Z2Nat.id in Hf by done. apply Hf; try done; lia.
Qed.

(** Serializing for [publish]. *)
Lemma publish_serialized name data p (c : @Client H) (c' : @Client H) :
  pub_request name data p -> Inv c -> Inv c' ->
  _serialize_publish_packet (write_buf c') (write_buf_size c') 0 (p_qos p) (p_retained p)
    (pub_id p c) name (p_payload p) (p_payload_len p) =
  if decide (get_mqtt_packet_len (zlen (Spec.publish_body (p_qos p) (pub_id p c) name data)) >
             UIOT_MQTT_TX_BUF_LEN)
  then Err ERR_MQTT_BUFFER_TOO_SHORT
  else Ok (wr (write_buf c') (pub_packet name data p c), zlen (pub_packet name data p c)).
Proof.
  intros [] Hi Hi'. destruct pr_payload0 as (payload & -> & Ht).
  pose proof (next_id_range _ (inv_pid _ Hi)) as Hn. destruct Hi'.
  unfold UIOT_MQTT_TX_BUF_LEN, MAX_SIZE_OF_CLOUD_TOPIC, QOS0, QOS1, MAX_PACKET_ID in *.
  rewrite pr_len0, inv_wsize. unfold pub_packet. rewrite serialize_publish_spec; try done; try lia.
  unfold pub_id, QOS1. case_decide; lia.
Qed.

Lemma inv_lock x d (c : @Client H) : Inv c -> Inv (lock_add x d c).
Proof. destruct x; inv_mod. Qed.
Lemma inv_next_id i (c : @Client H) : 1 <= i <= MAX_PACKET_ID -> Inv c -> Inv (set_next_packet_id i c).
Proof. intros Hn. inv_mod. Qed.
Lemma inv_write_buf b (c : @Client H) :
  zlen b = UIOT_MQTT_TX_BUF_LEN -> Inv c -> Inv (set_write_buf b c).
Proof. intros Hn. inv_mod. Qed.
Lemma inv_bufs (c : @Client H) : Inv c -> bufs_ok c.
Proof. intros []. by split_and!. Qed.

Lemma filter_fresh {A} (l : list (positive * A)) n :
  n ∉ l.*1 -> filter (fun m => m.1 <> n) l = l.
Proof.
  induction l as [|[q x] l IH]; [done|]. rewrite fmap_cons, not_elem_of_cons. intros [Hq Hl].
  rewrite filter_cons, decide_True by (cbn in *; congruence). by rewrite IH.
Qed.

Lemma remove_pub_run (s : St) l node x :
  list_pub_wait_ack (cl s) = l ++ [(node, x)] -> node ∉ l.*1 ->
  remove_pub node s = Ret tt (set_cl (set_list_pub_wait_ack l (cl s)) s).
Proof.
  intros Hl Hn. unfold remove_pub, gets, mbind, M_bind. rewrite Hl, decide_True.
  - unfold mod_cl, modify. do 3 f_equal. rewrite filter_app, filter_fresh by done.
    rewrite filter_cons, decide_False by (cbn; congruence). by rewrite filter_nil, app_nil_r.
  - rewrite fmap_app, elem_of_app. right. by apply list_elem_of_singleton.
Qed.

(** The end of [uiot_mqtt_publish]: send, and undo the bookkeeping on failure. *)
Definition publish_end (node : option positive) (len timer pid : Z) : M Z :=
  ret ← send_mqtt_packet fuel len timer;
  if decide (SUCCESS_RET <> ret) then
    _ ← (match node with
         | Some n => _ ← HAL_MutexLock ListPub; _ ← remove_pub n; HAL_MutexUnlock ListPub
         | None => mret tt
         end);
    _ ← HAL_MutexUnlock WriteBuf;
    mret ret
  else _ ← HAL_MutexUnlock WriteBuf; mret pid.

Definition undone (node : option positive) (l l0 : list (positive * UIoTPubInfo)) : Prop :=
  match node with
  | Some n => (n ∉ l0.*1) /\ exists x, l = l0 ++ [(n, x)]
  | None => l = l0
  end.

Lemma publish_end_total node len timer pid l0 s :
  bufs_ok (cl s) -> 0 <= len -> UIOT_MQTT_TX_BUF_LEN <= Z.of_nat fuel ->
  undone node (list_pub_wait_ack (cl s)) l0 ->
  twp (publish_end node len timer pid) (fun ret s' => exists l,
    s' = set_world (world s') (set_cl (lock_add WriteBuf (-1) (set_list_pub_wait_ack l (cl s))) s) /\
    ((ret = pid /\ l = list_pub_wait_ack (cl s) /\
      stream (world s') = stream (world s) ++ take (Z.to_nat len) (write_buf (cl s))) \/
     (ret < 0 /\ l = l0))) s.
Proof.
  intros Hb Hl Hf Hu. unfold publish_end. eapply twp_use; [by apply send_total|].
  intros ret s1 [Hm Hs]. destruct (decide (SUCCESS_RET <> ret)) as [Hr|Hr].
  - assert (ret < 0) by (destruct Hs as [(-> & _) | [(-> & _) | (-> & _)]]; done).
    rewrite Hm. destruct node as [n|]; t_steps.
    + destruct Hu as (Hn & x & Hlx). eapply twp_run; [by apply (remove_pub_run _ l0 n x)|].
      t_steps. apply twp_ret. exists l0. split; [|by right]. unfold set_world, set_cl. cbn. f_equal.
      destruct (cl s). client_eq.
    + apply twp_ret. exists l0. split; [|by right]. cbn in Hu. rewrite <- Hu.
      unfold set_world, set_cl. cbn. by destruct (cl s).
  - destruct Hs as [(-> & _ & Hs) | [(-> & _) | (-> & _)]]; [|by destruct Hr..].
    rewrite Hm. t_steps. apply twp_ret. exists (list_pub_wait_ack (cl s)). split; [|by left].
    unfold set_world, set_cl. cbn. by destruct (cl s).
Qed.

(** The part of [uiot_mqtt_publish] behind the serializer. *)
Definition publish_send (p : PublishParams) (len timer pid : Z) : M Z :=
  node ← (if decide (p_qos p > QOS0) then
            r ← _mask_push_pubInfo_to len pid;
            mret (match r with inl n => inl (Some n) | inr e => inr e end)
          else mret (inl None));
  match node with
  | inr e => _ ← HAL_MutexUnlock WriteBuf; mret e
  | inl node => publish_end node len timer pid
  end.

(** What becomes of the list of pending publishes. *)
Definition pub_listed (p : PublishParams) (pid : Z) (pkt : bytes)
    (l0 l : list (positive * UIoTPubInfo)) : Prop :=
  (p_qos p = QOS0 -> l = l0) /\
  (p_qos p = QOS1 -> exists node t, (node ∉ l0.*1) /\ zlen l0 < MAX_REPUB_NUM /\
     l = l0 ++ [(node, mkPubInfo t MQTT_NODE_STATE_NORMAL pid (zlen pkt) pkt)]).

Lemma publish_send_total p pkt timer pid s :
  bufs_ok (cl s) -> take (Z.to_nat (zlen pkt)) (write_buf (cl s)) = pkt -> 0 < zlen pkt ->
  UIOT_MQTT_TX_BUF_LEN <= Z.of_nat fuel -> p_qos p = QOS0 \/ p_qos p = QOS1 ->
  twp (publish_send p (zlen pkt) timer pid) (fun ret s' => exists l hp,
    s' = set_world (world s') (set_heap hp (set_cl (lock_add WriteBuf (-1) (set_list_pub_wait_ack l (cl s))) s)) /\
    ((ret = pid /\ stream (world s') = stream (world s) ++ pkt /\ hp = heap s /\
      pub_listed p pid pkt (list_pub_wait_ack (cl s)) l) \/
     (ret < 0 /\ l = list_pub_wait_ack (cl s) /\ (p_qos p = QOS0 -> hp = heap s) /\
      maybe_lost pkt (heap s) hp ret (world s')))) s.
Proof.
  intros Hb Hw Hl Hf Hq. unfold publish_send, pub_listed. destruct Hq as [Hq | Hq]; rewrite Hq.
  - rewrite decide_False by done. t_step. eapply twp_mono; [apply (publish_end_total None _ _ _ (list_pub_wait_ack (cl s)));
      [done|lia|done|done]|].
    intros ret s' (l & Hs & Hr). exists l, (heap s). split; [rewrite Hs; by destruct s|]. rewrite Hw in Hr.
    destruct Hr as [(-> & -> & Hr) | (Hr & ->)]; [left|by right; split_and!; [| | |left]]. split_and!; done.
  - rewrite decide_True by done. apply twp_assoc.
    eapply twp_use; [apply push_pub_total; [done|lia]|]. intros r s3 Hr. t_step. destruct r as [node|e].
    + destruct Hr as (Hn1 & Hn2 & t & Hs3 & Hst). rewrite Hs3.
      eapply twp_mono; [apply (publish_end_total (Some node) _ _ _ (list_pub_wait_ack (cl s)));
        [done|lia|done|split; [done|by eexists]]|].
      intros ret s' (l & Hs & Hr). exists l, (heap s). rewrite Hs. cbn [cl set_cl world set_world write_buf] in *.
      split; [done|]. rewrite Hst in Hr. cbn in Hr.
      destruct Hr as [(-> & -> & Hr) | (Hr & ->)]; [left|by right; split_and!; [| | |left]].
      rewrite Hw in Hr. split_and!; try done. intros _. exists node, t. split_and!; try done.
      unfold pub_node. by rewrite Hw.
    + destruct Hr as (-> & hp & [Hs3 Hst] & Hlost). rewrite Hw in Hlost. rewrite Hs3. t_steps. apply twp_ret.
      exists (list_pub_wait_ack (cl s)), hp. split; [|right; by split_and!].
      unfold set_world, set_cl, set_heap. cbn. by destruct (cl s).
Qed.

Lemma pub_id_run (s : St) p : Inv (cl s) ->
  (if decide (p_qos p = QOS1) then get_next_packet_id else mret (p_id p)) s =
  Ret (pub_id p (cl s)) (set_cl (set_next_packet_id (pid_after p (cl s)) (cl s)) s).
Proof.
  intros Hi. unfold pub_id, pid_after. case_decide.
  - apply next_packet_id_run, Hi.
  - unfold mret, M_ret. f_equal. destruct s as [c]. cbn. f_equal. by destruct c.
Qed.

Definition publish_outcome (name data : bytes) (p : PublishParams) (s : St) (ret : Z) (s' : St) : Prop :=
  let c := cl s in
  let list := list_pub_wait_ack c in
  let pkt := pub_packet name data p c in
  exists b l hp, s' = set_world (world s') (set_heap hp (set_cl (published p b l c) s)) /\
  ((ret = pub_id p c /\ stream (world s') = stream (world s) ++ pkt /\ hp = heap s /\
    pub_listed p (pub_id p c) pkt list l) \/
   (ret < 0 /\ l = list /\ (p_qos p = QOS0 -> hp = heap s) /\ maybe_lost pkt (heap s) hp ret (world s'))).

Lemma take_wr_all (b t : bytes) : take (Z.to_nat (zlen t)) (wr b t) = t.
Proof. apply take_wr. Qed.

Lemma publish_total name data p s :
  pub_request name data p -> Inv (cl s) -> is_connected (cl s) <> 0 ->
  UIOT_MQTT_TX_BUF_LEN <= Z.of_nat fuel ->
  twp (uiot_mqtt_publish fuel (Some name) p) (publish_outcome name data p s) s.
Proof.
  intros Hp Hi Hc Hf. pose proof (pr_qos _ _ _ Hp) as Hq. pose proof (pr_name _ _ _ Hp) as Hn.
  unfold uiot_mqtt_publish. rewrite zlen_pos_string by lia. cbn [negb].
  rewrite decide_False by lia.
  rewrite decide_False by (unfold QOS0, QOS1, QOS2 in *; lia).
  eapply twp_run; [apply conn_state_run|]. rewrite decide_False by done.
  t_steps. apply twp_now. intros t0 w0 Hw0. t_steps.
  eapply twp_run; [apply pub_id_run; by apply inv_lock|]. t_steps.
  change (pid_after p (lock_add WriteBuf 1 (cl s))) with (pid_after p (cl s)) in *.
  set (i := pid_after p (cl s)).
  assert (Hrange : 1 <= i <= MAX_PACKET_ID).
  { pose proof (inv_pid _ Hi). unfold i, pid_after. case_decide; [by apply next_id_range|done]. }
  assert (Hi1 : Inv (set_next_packet_id i (lock_add WriteBuf 1 (cl s))))
    by by apply inv_next_id, inv_lock.
  change (pub_id p (lock_add WriteBuf 1 (cl s))) with (pub_id p (cl s)) in *.
  rewrite (publish_serialized name data p (cl s)) by done. pose proof (packet_small name data p (cl s) Hp) as Hsmall.
  pose proof (publish_packet_len name data p (cl s)) as Hpos.
  unfold publish_outcome. set (pkt := pub_packet _ _ _ _) in *. clearbody pkt.
  set (est := get_mqtt_packet_len _).
  destruct (decide (est > UIOT_MQTT_TX_BUF_LEN)) as [He|He]; (apply twp_wire; [done|intros a Ha|intros e Hr]);
    try discriminate; [|].
  - injection Hr as <-. t_steps. apply twp_ret. exists (write_buf (cl s)), (list_pub_wait_ack (cl s)), (heap s).
    split; [|by right; split_and!; [| | |left]]. unfold set_world, set_cl, set_heap. cbn. f_equal. unfold i, published. destruct (cl s). client_eq.
  - injection Ha as <-. t_step. specialize (Hsmall ltac:(lia)). specialize (Hpos Hp).
    assert (Hb : bufs_ok (set_write_buf (wr (write_buf (cl s)) pkt)
      (set_next_packet_id i (lock_add WriteBuf 1 (cl s))))).
    { apply inv_bufs, inv_write_buf; [|done]. rewrite wr_len; [apply Hi|]. rewrite (inv_wbuf _ Hi). lia. }
    rewrite s32_small by (unfold UIOT_MQTT_TX_BUF_LEN in *; lia).
    eapply (twp_mono (publish_send p (zlen pkt) _ (pub_id p (cl s)))).
    { apply (publish_send_total p pkt); [exact Hb|by apply take_wr_all|lia|done|done]. }
    intros ret s' (l & hp & Hs & Hr). rewrite Hs. exists (wr (write_buf (cl s)) pkt), l, hp. split.
    + unfold set_world, set_cl, set_heap, published, i. cbn. f_equal. destruct (cl s). client_eq.
    + by rewrite <- Hw0.
Qed.

Lemma publish_end_calm `{!Calm W} node len timer pid (s : St) :
  bufs_ok (cl s) -> 0 < len < UIOT_MQTT_TX_BUF_LEN -> 2 <= Z.of_nat fuel -> calm (world s) ->
  has_expired timer calm_now = false ->
  twp (publish_end node len timer pid) (fun ret _ => ret = pid) s.
Proof.
  intros Hb Hl Hf Hc Ht. unfold publish_end. eapply twp_use; [by apply send_calm|].
  intros ret s' (-> & _ & _). rewrite decide_False by auto. t_steps. by apply twp_ret.
Qed.

Lemma publish_calm `{!Calm W} name data p (s : St) :
  pub_request name data p -> Inv (cl s) -> is_connected (cl s) <> 0 ->
  UIOT_MQTT_TX_BUF_LEN <= Z.of_nat fuel -> calm (world s) ->
  zlen (list_pub_wait_ack (cl s)) < MAX_REPUB_NUM ->
  get_mqtt_packet_len (zlen (Spec.publish_body (p_qos p) (pub_id p (cl s)) name data)) <
    UIOT_MQTT_TX_BUF_LEN ->
  twp (uiot_mqtt_publish fuel (Some name) p) (fun ret _ => ret = pub_id p (cl s)) s.
Proof.
  intros Hp Hi Hc Hf Hcalm Hfull He.
  pose proof (pr_qos _ _ _ Hp) as Hq. pose proof (pr_name _ _ _ Hp) as Hn.
  assert (Ht : has_expired (countdown_ms rt_tick_from_millisecond (command_timeout_ms (cl s))
    calm_now) calm_now = false).
  { apply calm_deadline. destruct (inv_timeout _ Hi). unfold MIN_COMMAND_TIMEOUT, MAX_COMMAND_TIMEOUT in *. lia. }
  unfold uiot_mqtt_publish. rewrite zlen_pos_string by lia. cbn [negb].
  rewrite decide_False by lia.
  rewrite decide_False by (unfold QOS0, QOS1, QOS2 in *; lia).
  eapply twp_run; [apply conn_state_run|]. rewrite decide_False by done.
  t_steps. apply twp_now_calm; [done|intros w0 Hw0]. t_steps.
  eapply twp_run; [apply pub_id_run; by apply inv_lock|]. t_steps.
  change (pid_after p (lock_add WriteBuf 1 (cl s))) with (pid_after p (cl s)) in *.
  change (pub_id p (lock_add WriteBuf 1 (cl s))) with (pub_id p (cl s)) in *.
  assert (Hi1 : Inv (set_next_packet_id (pid_after p (cl s)) (lock_add WriteBuf 1 (cl s)))).
  { apply inv_next_id; [|by apply inv_lock]. pose proof (inv_pid _ Hi). unfold pid_after.
    case_decide; [by apply next_id_range|done]. }
  rewrite (publish_serialized name data p (cl s)) by done.
  pose proof (packet_small name data p (cl s) Hp ltac:(lia)) as Hsmall.
  pose proof (publish_packet_len name data p (cl s) Hp) as Hpos.
  set (pkt := pub_packet _ _ _ _) in *. clearbody pkt.
  rewrite decide_False by lia. apply twp_wire; [done|intros a Ha|intros e Hr]; [|discriminate].
  injection Ha as <-. t_step.
  rewrite s32_small by (unfold UIOT_MQTT_TX_BUF_LEN in *; lia).
  assert (Hb : bufs_ok (set_write_buf (wr (write_buf (cl s)) pkt)
    (set_next_packet_id (pid_after p (cl s)) (lock_add WriteBuf 1 (cl s))))).
  { apply inv_bufs, inv_write_buf; [|done]. rewrite wr_len; [apply Hi|]. rewrite (inv_wbuf _ Hi). lia. }
  destruct Hq as [Hq | Hq]; rewrite Hq.
  - rewrite decide_False by done. t_step. apply (publish_end_calm None); done || lia.
  - rewrite decide_True by done. apply twp_assoc.
    eapply twp_use; [apply twp_and; [apply push_pub_calm; [exact Hb|lia|done|done]|
      apply push_pub_total; [exact Hb|lia]]|].
    intros r s3 [(Hc3 & node & ->) (_ & _ & t & Hs3 & _)]. t_step.
    apply (publish_end_calm (Some node)); try done; try lia. by rewrite Hs3.
Qed.

(* ------------------------------------------------------------------ *)
(** ** Subscribe and unsubscribe *)

Definition sub_node (node : positive) (type t i : Z) (h : SubTopicHandle H) (len : Z)
    (c : @Client H) : positive * UIoTSubInfo H :=
  (node, mkSubInfo type i t MQTT_NODE_STATE_NORMAL h len (take (Z.to_nat len) (write_buf c))).

Definition push_sub_spec (type len i : Z) (h : SubTopicHandle H) (s : St) (r : positive + Z) (s' : St)
  : Prop :=
  let l := list_sub_wait_ack (cl s) in
  match r with
  | inl node => (node ∉ l.*1) /\ zlen l < Z.of_nat MAX_SUB_TOPICS /\
      exists t, becomes (set_list_sub_wait_ack (l ++ [sub_node node type t i h len (cl s)]) (cl s)) s s'
  | inr e => e < 0 /\ exists hp, becomes (cl s) (set_heap hp s) s' /\
      maybe_lost (take (Z.to_nat len) (write_buf (cl s))) (heap s) hp e (world s')
  end.

Lemma push_sub_total type len i h s :
  bufs_ok (cl s) -> 0 <= len <= UIOT_MQTT_TX_BUF_LEN -> 0 <= i < 65536 ->
  twp (push_sub_info_to len i type h) (push_sub_spec type len i h s) s.
Proof.
  intros (Hb1 & Hb2 & Hb3) Hl Hid. unfold push_sub_info_to. t_steps.
  change (list_sub_wait_ack (lock_add ListSub 1 (cl s))) with (list_sub_wait_ack (cl s)).
  assert (Hback : forall w, stream w = stream (world s) -> becomes (cl s) s
    (set_cl (lock_add ListSub (-1) (lock_add ListSub 1 (cl s))) (set_world w s))).
  { intros w Hw. rewrite lock_unlock. by split. }
  assert (Hnone : forall s' e, becomes (cl s) s s' -> exists hp, becomes (cl s) (set_heap hp s) s' /\
      maybe_lost (take (Z.to_nat len) (write_buf (cl s))) (heap s) hp e (world s')).
  { intros s' e Hs'. exists (heap s). split; [|by left]. by destruct s. }
  destruct (decide _) as [Hfull|Hfull].
  { t_steps. apply twp_ret. split; [done|]. apply Hnone. by apply (Hback (world s)). }
  apply twp_malloc. intros b1 w1 Hw1. destruct b1; cbn [negb].
  2: { t_steps. apply twp_ret. split; [done|]. apply Hnone. by apply (Hback w1). }
  t_steps. apply twp_now. intros t w2 Hw2. t_steps.
  eapply twp_mem; [apply slice_at_ok; cbn; split_and!; [lia..|]; reflexivity|].
  apply twp_env. intros b2 w3 Hb2w. cbn [world set_world set_cl] in *.
  assert (Hw3 : stream w3 = stream w2) by (pose proof (malloc_stream w2) as Hm; by rewrite Hb2w in Hm).
  destruct b2; cbn [negb].
  2: { destruct (leak_run (take (Z.to_nat len) (write_buf (cl s))) (set_world w3 (set_cl (lock_add ListSub 1 (cl s)) s))) as (q & Hq & Hrun).
       eapply twp_run; [exact Hrun|]. t_steps. apply twp_ret. split; [done|].
       exists (<[q := take (Z.to_nat len) (write_buf (cl s))]> (heap s)). split.
       - split; [|cbn; congruence]. cbn [cl set_heap set_world set_cl]. rewrite lock_unlock. by destruct s.
       - right. split; [done|]. split; [by exists w2|]. by exists q. }
  t_steps. apply twp_ret. split; [apply fresh_not_in|]. split; [lia|].
  exists (countdown_ms rt_tick_from_millisecond (command_timeout_ms (cl s)) t). split; [|cbn; congruence].
  unfold UIOT_MQTT_TX_BUF_LEN in *. rewrite !u16_small by lia.
  unfold set_world, set_cl. cbn. f_equal. destruct (cl s). by client_eq.
Qed.

Lemma remove_sub_run (s : St) l node x :
  list_sub_wait_ack (cl s) = l ++ [(node, x)] -> node ∉ l.*1 ->
  remove_sub node s = Ret tt (set_cl (set_list_sub_wait_ack l (cl s)) s).
Proof.
  intros Hl Hn. unfold remove_sub, gets, mbind, M_bind. rewrite Hl, decide_True.
  - unfold mod_cl, modify. do 3 f_equal. rewrite filter_app, filter_fresh by done.
    rewrite filter_cons, decide_False by (cbn; congruence). by rewrite filter_nil, app_nil_r.
  - rewrite fmap_app, elem_of_app. right. by apply list_elem_of_singleton.
Qed.

Lemma free_run (s : St) p str : heap s !! p = Some str ->
  HAL_Free (Some p) s = Ret tt (set_heap (delete p (heap s)) s).
Proof. unfold HAL_Free. by intros ->. Qed.

(** The common end of subscribe and unsubscribe: bookkeeping, send, undo. *)
Definition listed_request (type len timer pid : Z) (handle : SubTopicHandle H) : M Z :=
  r ← push_sub_info_to len pid type handle;
  match r with
  | inr e => _ ← HAL_MutexUnlock WriteBuf; _ ← HAL_Free (topic_filter handle); mret e
  | inl node =>
      ret ← send_mqtt_packet fuel len timer;
      if decide (SUCCESS_RET <> ret) then
        _ ← undo_request node (topic_filter handle); mret ret
      else _ ← HAL_MutexUnlock WriteBuf; mret pid
  end.

(** What became of the list of pending requests and of the heap. *)
Definition request_result (type pid : Z) (pkt : bytes) (h : SubTopicHandle H) (ptr : positive)
    (l0 l : list (positive * UIoTSubInfo H)) (heap0 heap1 : gmap positive bytes) (ret : Z) (out : bytes)
    (s s' : St) : Prop :=
  (ret = pid /\ stream (world s') = stream (world s) ++ out /\ heap1 = heap0 /\
   exists node t, (node ∉ l0.*1) /\ zlen l0 < Z.of_nat MAX_SUB_TOPICS /\
     l = l0 ++ [(node, mkSubInfo type pid t MQTT_NODE_STATE_NORMAL h (zlen pkt) pkt)]) \/
  (ret < 0 /\ l = l0 /\ exists hp, heap1 = delete ptr hp /\ maybe_lost out heap0 hp ret (world s')).

Lemma listed_request_total type pkt timer pid h ptr str s :
  bufs_ok (cl s) -> take (Z.to_nat (zlen pkt)) (write_buf (cl s)) = pkt ->
  zlen pkt <= UIOT_MQTT_TX_BUF_LEN -> 0 <= pid < 65536 -> UIOT_MQTT_TX_BUF_LEN <= Z.of_nat fuel ->
  topic_filter h = Some ptr -> heap s !! ptr = Some str ->
  twp (listed_request type (zlen pkt) timer pid h) (fun ret s' => exists l hp,
    s' = set_world (world s') (set_heap hp (set_cl
           (lock_add WriteBuf (-1) (set_list_sub_wait_ack l (cl s))) s)) /\
    request_result type pid pkt h ptr (list_sub_wait_ack (cl s)) l (heap s) hp ret pkt s s') s.
Proof.
  intros Hb Hw Hl Hid Hf Hh Hp. unfold listed_request.
  eapply twp_use; [by apply push_sub_total; [|lia|]|]. intros r s1 Hr. rewrite Hh.
  destruct r as [node|e].
  - destruct Hr as (Hn & Hlen & t & Hs1 & Hst). rewrite Hs1.
    eapply twp_use; [apply send_total; [exact Hb|lia|done]|].
    intros ret s2 [Hm Hs]. destruct (decide (SUCCESS_RET <> ret)) as [Hne|Hne].
    + assert (ret < 0) by (destruct Hs as [(-> & _) | [(-> & _) | (-> & _)]]; done).
      rewrite Hm. unfold undo_request. t_steps.
      eapply twp_run; [eapply remove_sub_run; [reflexivity|done]|]. t_steps.
      eapply twp_run; [by eapply free_run|]. apply twp_ret.
      exists (list_sub_wait_ack (cl s)), (delete ptr (heap s)).
      split; [|right; split_and!; [done|done|exists (heap s); split; [done|by left]]].
      st_norm. f_equal. f_equal. f_equal. destruct (cl s). client_eq.
    + destruct Hs as [(-> & _ & Hs) | [(-> & _) | (-> & _)]]; [|by destruct Hne..].
      rewrite Hm. t_steps. apply twp_ret.
      exists (list_sub_wait_ack (cl s) ++ [sub_node node type t pid h (zlen pkt) (cl s)]), (heap s).
      split; [unfold set_world, set_cl, set_heap; cbn; by destruct (cl s)|].
      left. split; [done|]. split; [|split; [done|]].
      { cbn in *. rewrite Hs, Hst, Hw. done. }
      exists node, t. split_and!; try done. unfold sub_node. by rewrite Hw.
  - destruct Hr as (Hneg & hp & [Hs1 Hst] & Hlost). rewrite Hw in Hlost. rewrite Hs1. t_steps.
    assert (is_Some (hp !! ptr)) as [str' Hstr].
    { destruct Hlost as [-> | (_ & _ & q & Hq & ->)]; [by exists str|].
      rewrite lookup_insert_ne by congruence. by exists str. }
    eapply twp_run; [by eapply free_run|]. apply twp_ret.
    exists (list_sub_wait_ack (cl s)), (delete ptr hp). split; [|right; split_and!; [done|done|by exists hp]].
    unfold set_world, set_cl, set_heap. cbn. by destruct (cl s).
Qed.

(** What a subscribe or unsubscribe request leaves behind: the packet id
    advanced unless there was no memory for the topic string, the transmit
    buffer used, list and heap as [request_result] says. *)
Definition request_outcome (type : Z) (name pkt : bytes) (h : option positive -> SubTopicHandle H)
    (s : St) (ret : Z) (s' : St) : Prop :=
  let c := cl s in
  let pid := next_id (next_packet_id c) in
  exists b l hp i, s' = set_world (world s') (set_heap hp (set_cl
      (set_list_sub_wait_ack l (set_write_buf b (set_next_packet_id i c))) s)) /\
  ((ret = pid /\ i = pid /\ stream (world s') = stream (world s) ++ pkt /\
    exists node t ptr, (node ∉ (list_sub_wait_ack c).*1) /\
      zlen (list_sub_wait_ack c) < Z.of_nat MAX_SUB_TOPICS /\
      heap s !! ptr = None /\ hp = <[ptr := name]> (heap s) /\
      l = list_sub_wait_ack c ++
          [(node, mkSubInfo type pid t MQTT_NODE_STATE_NORMAL (h (Some ptr)) (zlen pkt) pkt)]) \/
   (ret < 0 /\ l = list_sub_wait_ack c /\ maybe_lost pkt (heap s) hp ret (world s') /\
    (i = pid \/ (i = next_packet_id c /\ ret = FAILURE_RET)))).

(** The common part from the allocation of the topic string on, for a
    serializer that yields [pkt]. *)
Definition topic_request (type : Z) (name : bytes) (h : option positive -> SubTopicHandle H)
    (ser : @Client H -> Z -> res (bytes * Z)) : M Z :=
  topic_filter_stored ← new_string name;
  match topic_filter_stored with
  | None => mret FAILURE_RET
  | Some _ =>
      c ← gets (fun c => c);
      timer ← start_ms (command_timeout_ms c);
      _ ← HAL_MutexLock WriteBuf;
      packet_id ← get_next_packet_id;
      c ← gets (fun c => c);
      r ← wire (ser c packet_id);
      match r with
      | inr e => _ ← HAL_MutexUnlock WriteBuf; _ ← HAL_Free topic_filter_stored; mret e
      | inl (b, len) =>
          _ ← mod_cl (set_write_buf b);
          listed_request type len timer packet_id (h topic_filter_stored)
      end
  end.

Lemma new_string_run name (s : St) :
  twp (new_string name) (fun r s' => stream (world s') = stream (world s) /\
    match r with
    | None => moved s s'
    | Some p => heap s !! p = None /\
                s' = set_world (world s') (set_heap (<[p := name]> (heap s)) s)
    end) s.
Proof.
  unfold new_string. apply twp_malloc. intros b w Hw. destruct b; [|by apply twp_ret].
  t_steps. apply twp_ret. split; [done|]. split; [|done].
  apply not_elem_of_dom. apply is_fresh.
Qed.

Lemma topic_request_total type name pkt h ser s :
  Inv (cl s) -> UIOT_MQTT_TX_BUF_LEN <= Z.of_nat fuel -> 0 < zlen pkt < UIOT_MQTT_TX_BUF_LEN ->
  (forall p, topic_filter (h p) = p) ->
  (forall c', Inv c' -> ser c' (next_id (next_packet_id (cl s))) = Ok (wr (write_buf c') pkt, zlen pkt)) ->
  twp (topic_request type name h ser) (request_outcome type name pkt h s) s.
Proof.
  intros Hi Hf Hp Hh Hser. unfold topic_request.
  eapply twp_use; [apply new_string_run|]. intros r s1 [Hst1 Hr]. destruct r as [ptr|].
  2: { apply twp_ret. rewrite Hr. exists (write_buf (cl s)), (list_sub_wait_ack (cl s)), (heap s),
         (next_packet_id (cl s)). split; [|by right; split_and!; [| |left|right]].
       unfold set_world, set_cl, set_heap. cbn. by destruct (cl s), s. }
  destruct Hr as [Hfresh Hs1]. rewrite Hs1. t_steps. apply twp_now. intros t w2 Hw2. t_steps.
  pose proof (next_id_range _ (inv_pid _ Hi)) as Hid.
  eapply twp_run; [apply next_packet_id_run; apply Hi|]. t_steps. cbn [next_packet_id lock_add] in *.
  change (next_packet_id (lock_add WriteBuf 1 (cl s))) with (next_packet_id (cl s)).
  set (pid := next_id (next_packet_id (cl s))) in *.
  assert (Hi1 : Inv (set_next_packet_id pid (lock_add WriteBuf 1 (cl s))))
    by by apply inv_next_id, inv_lock.
  rewrite Hser by done. apply twp_wire; [done|intros a Ha|discriminate]. injection Ha as <-. t_step.
  eapply twp_mono; [eapply (listed_request_total _ pkt) with (str := name)|].
  - apply inv_bufs, inv_write_buf; [|done]. rewrite wr_len; [apply Hi|]. rewrite (inv_wbuf _ Hi). lia.
  - apply take_wr_all.
  - lia.
  - change (0 <= pid < 65536). unfold MAX_PACKET_ID in *. lia.
  - done.
  - apply Hh.
  - apply lookup_insert_eq.
  - intros ret s' (l & hp & Hs & Hr). exists (wr (write_buf (cl s)) pkt), l, hp, pid. split.
    { rewrite Hs. st_norm. f_equal. f_equal. f_equal. unfold pid. destruct (cl s). client_eq. }
    cbn [cl set_cl heap set_heap set_world world] in Hr.
    destruct Hr as [(-> & Hst & -> & node & tt & Hn & Hlen & ->) | (Hneg & -> & hp0 & -> & Hlost)].
    + left. split_and!; [done|done|rewrite Hst; cbn in *; congruence|].
      exists node, tt, ptr. split_and!; done.
    + right. split_and!; [done|done| |by left].
      destruct Hlost as [-> | (-> & Hm & q & Hq & ->)]; [left; by apply delete_insert_id|right].
      split; [done|]. split; [exact Hm|]. apply lookup_insert_None in Hq as [Hq Hne]. exists q. split; [done|].
      rewrite delete_insert_ne by done. f_equal. by apply delete_insert_id.
Qed.

Definition topic_ok (name : bytes) : Prop := 1 <= zlen name <= MAX_SIZE_OF_CLOUD_TOPIC.

Lemma subscribe_serialized name q (c : @Client H) pid :
  topic_ok name -> q = QOS0 \/ q = QOS1 -> Inv c -> 0 <= pid < 65536 ->
  let pkt := Spec.subscribe 0 pid name q in
  _serialize_subscribe_packet (write_buf c) (write_buf_size c) 0 pid 1 name [q] =
    Ok (wr (write_buf c) pkt, zlen pkt) /\ 0 < zlen pkt < UIOT_MQTT_TX_BUF_LEN.
Proof.
  unfold topic_ok, UIOT_MQTT_TX_BUF_LEN, MAX_SIZE_OF_CLOUD_TOPIC, QOS0, QOS1.
  intros Ht Hq [] Hid. set (pkt := Spec.subscribe 0 pid name q). unfold UIOT_MQTT_TX_BUF_LEN in *. rewrite inv_wsize.
  assert (Hest : get_mqtt_packet_len (5 + zlen name) <= 140).
  { destruct (get_mqtt_packet_len_bounds (5 + zlen name)) as [_ Hb]; [lia|].
    assert (zlen (Spec.rem_len (5 + zlen name)) <= 2); [|lia].
    unfold Spec.rem_len. repeat case_decide; cbn; lia. }
  destruct (serialize_subscribe_spec (write_buf c) 2048 0 pid name q) as [-> _]; try done; try lia.
  { unfold byte. lia. }
  rewrite decide_False by lia. split; [done|]. split; [cbn; lia|].
  unfold pkt, Spec.subscribe. rewrite packet_len.
  set (body := Spec.be16 pid ++ Spec.utf8 name ++ [q]).
  assert (Hbl : zlen body = 5 + zlen name) by (unfold body, Spec.utf8, Spec.be16; rewrite !length_app; cbn; lia).
  rewrite Hbl. unfold Spec.rem_len. repeat case_decide; cbn; lia.
Qed.

Lemma unsubscribe_serialized name (c : @Client H) pid :
  topic_ok name -> Inv c -> 0 <= pid < 65536 ->
  let pkt := Spec.unsubscribe 0 pid name in
  _serialize_unsubscribe_packet (write_buf c) (write_buf_size c) 0 pid 1 name =
    Ok (wr (write_buf c) pkt, zlen pkt) /\ 0 < zlen pkt < UIOT_MQTT_TX_BUF_LEN.
Proof.
  unfold topic_ok, UIOT_MQTT_TX_BUF_LEN, MAX_SIZE_OF_CLOUD_TOPIC.
  intros Ht [] Hid. set (pkt := Spec.unsubscribe 0 pid name). unfold UIOT_MQTT_TX_BUF_LEN in *. rewrite inv_wsize.
  assert (Hest : get_mqtt_packet_len (4 + zlen name) <= 140).
  { destruct (get_mqtt_packet_len_bounds (4 + zlen name)) as [_ Hb]; [lia|].
    assert (zlen (Spec.rem_len (4 + zlen name)) <= 2); [|lia].
    unfold Spec.rem_len. repeat case_decide; cbn; lia. }
  destruct (serialize_subscribe_spec (write_buf c) 2048 0 pid name 0) as [_ ->]; try done; try lia.
  rewrite decide_False by lia. split; [done|]. split; [cbn; lia|].
  unfold pkt, Spec.unsubscribe. rewrite packet_len.
  set (body := Spec.be16 pid ++ Spec.utf8 name).
  assert (Hbl : zlen body = 4 + zlen name) by (unfold body, Spec.utf8, Spec.be16; rewrite !length_app; cbn; lia).
  rewrite Hbl. unfold Spec.rem_len. repeat case_decide; cbn; lia.
Qed.

Definition sub_packet (name : bytes) (q : Z) (c : @Client H) : bytes :=
  Spec.subscribe 0 (next_id (next_packet_id c)) name q.

Lemma subscribe_total name p s :
  topic_ok name -> s_qos p = QOS0 \/ s_qos p = QOS1 -> Inv (cl s) -> is_connected (cl s) <> 0 ->
  UIOT_MQTT_TX_BUF_LEN <= Z.of_nat fuel ->
  twp (uiot_mqtt_subscribe fuel (Some name) p)
    (request_outcome SUBSCRIBE name (sub_packet name (s_qos p) (cl s))
      (fun ptr => mkHandle ptr (on_message_handler p) (user_data p) (s_qos p)) s) s.
Proof.
  intros Ht Hq Hi Hc Hf. unfold uiot_mqtt_subscribe. unfold topic_ok in Ht.
  rewrite zlen_pos_string by lia. cbn [negb]. rewrite decide_False by lia.
  rewrite decide_False by (unfold QOS0, QOS1, QOS2 in *; lia).
  eapply twp_run; [apply conn_state_run|]. rewrite decide_False by done.
  pose proof (next_id_range _ (inv_pid _ Hi)) as Hid. unfold MAX_PACKET_ID in Hid.
  eapply (topic_request_total SUBSCRIBE name _
    (fun ptr => mkHandle ptr (on_message_handler p) (user_data p) (s_qos p))
    (fun c pid => _serialize_subscribe_packet (write_buf c) (write_buf_size c) 0 pid 1 name [s_qos p]));
    try done.
  - by eapply (subscribe_serialized name (s_qos p) (cl s)); [..|lia].
  - intros c' Hc'. by apply subscribe_serialized; [..|lia].
Qed.

End send.
