(* ===== verification/MqttRequest.v ===== *)
(** The correctness of the requests: packet ids, sending, publish, subscribe,
    unsubscribe. *)

From S2P Require Import Prelude Defs HalTimer MqttWire MqttTopic MqttState MqttClient MqttSession MqttApi MqttSim MqttInv MqttSend.

Section request.
Context {W H : Type} `{Env W} `{!EnvLaws W} `{!NetLog W} `{EqDecision H}.
Local Abbreviation St := (@St W H).
Local Abbreviation M := (@M W H).
Context (fuel : nat).

(* ------------------------------------------------------------------ *)
(** ** Unsubscribe: the handles *)

(** The topic filters of the handles are allocated, and no two handles share
    one. *)
Definition handles_ok (hs : list (SubTopicHandle H)) (hp : gmap positive bytes) : Prop :=
  Forall (fun h => match topic_filter h with Some p => is_Some (hp !! p) | None => True end) hs /\
  NoDup (omap topic_filter hs).

(** What [clear_loop] compares with every handle. *)
Definition wildcard (name : bytes) : bool :=
  strstr name (bytes_of "/#") || strstr name (bytes_of "/+").
Definition hit (name : bytes) (hp : gmap positive bytes) (h : SubTopicHandle H) : bool :=
  match topic_filter h with
  | Some p => bool_decide (hp !! p = Some name)
  | None => false
  end || wildcard name.
Definition cleared (name : bytes) (hp : gmap positive bytes) (h : SubTopicHandle H)
  : SubTopicHandle H :=
  if hit name hp h
  then mkHandle None (message_handler h) (message_handler_data h) (handler_qos h) else h.
(** The heap without the strings of the handles that were cleared. *)
Fixpoint freed (name : bytes) (hp : gmap positive bytes) (hs : list (SubTopicHandle H))
  : gmap positive bytes :=
  match hs with
  | [] => hp
  | h :: hs =>
      if hit name hp h
      then match topic_filter h with Some p => delete p (freed name hp hs) | None => freed name hp hs end
      else freed name hp hs
  end.

Lemma freed_other name hp p (hs : list (SubTopicHandle H)) : ~ (p ∈ omap topic_filter hs) -> freed name hp hs !! p = hp !! p.
Proof.
  induction hs as [|h hs IH]; [done|]. cbn. intros Hp.
  destruct (topic_filter h) as [q|] eqn:Eq; [|case_match; by apply IH].
  apply not_elem_of_cons in Hp as [Hq Hp].
  destruct (hit name hp h); [|by apply IH]. rewrite lookup_delete_ne by congruence. by apply IH.
Qed.

Lemma hit_delete name hp p h : topic_filter h <> Some p -> hit name (delete p hp) h = hit name hp h.
Proof.
  unfold hit. destruct (topic_filter h) as [q|]; [|done]. intros Hq.
  rewrite lookup_delete_ne by congruence. done.
Qed.
Lemma cleared_delete name hp p (hs : list (SubTopicHandle H)) :
  ~ (p ∈ omap topic_filter hs) -> cleared name (delete p hp) <$> hs = cleared name hp <$> hs.
Proof.
  intros Hp. apply list_fmap_ext. intros i h Hh. unfold cleared. rewrite hit_delete; [done|].
  intros Hq. apply Hp. apply list_elem_of_omap. exists h. split; [by eapply list_elem_of_lookup_2|done].
Qed.
Lemma freed_delete name hp p (hs : list (SubTopicHandle H)) :
  ~ (p ∈ omap topic_filter hs) -> freed name (delete p hp) hs = delete p (freed name hp hs).
Proof.
  induction hs as [|h hs IH]; [done|]. cbn. intros Hp.
  destruct (topic_filter h) as [q|] eqn:Eq.
  - apply not_elem_of_cons in Hp as [Hq Hp]. rewrite hit_delete by congruence. rewrite IH by done.
    case_match; [|done]. apply delete_delete.
  - rewrite hit_delete by congruence. rewrite IH by done. by case_match.
Qed.

Lemma handles_ok_delete (hs : list (SubTopicHandle H)) hp p :
  ~ (p ∈ omap topic_filter hs) -> handles_ok hs hp -> handles_ok hs (delete p hp).
Proof.
  intros Hp [Hf Hn]. split; [|done]. apply Forall_forall. intros h Hh.
  rewrite Forall_forall in Hf. specialize (Hf h Hh). destruct (topic_filter h) as [q|] eqn:Eq; [|done].
  rewrite lookup_delete_ne; [done|]. intros ->. apply Hp. apply list_elem_of_omap. by exists h.
Qed.

Lemma clear_loop_total name b pre post (s : St) :
  sub_handles (cl s) = pre ++ post -> handles_ok post (heap s) ->
  twp (clear_loop (seq (length pre) (length post)) name b) (fun r s' =>
    r = b || existsb (hit name (heap s)) post /\
    s' = set_heap (freed name (heap s) post)
           (set_cl (set_sub_handles (pre ++ (cleared name (heap s) <$> post)) (cl s)) s)) s.
Proof.
  revert b pre s. induction post as [|h post IH]; intros b pre s Hs Hok.
  - apply twp_ret. rewrite orb_false_r. split; [done|]. cbn. rewrite <- Hs. destruct s as [c]. cbn.
    unfold set_heap, set_cl. cbn. f_equal. by destruct c.
  - cbn [length seq clear_loop]. apply twp_gets. rewrite Hs, list_lookup_middle by done.
    destruct Hok as [Hf Hn]. apply Forall_cons in Hf as [Hh Hf]. cbn in Hn.
    assert (Hhit : twp (match topic_filter h with
        | None => mret false
        | Some p => s ← string_at p; mret (bool_decide (s = name)) end)
      (fun same s' => s' = s /\ same || strstr name (bytes_of "/#") || strstr name (bytes_of "/+") =
                                hit name (heap s) h) s).
    { unfold hit, wildcard. destruct (topic_filter h) as [p|]; [|by apply twp_ret; split].
      destruct Hh as [str Hp]. apply twp_bind. unfold twp, string_at. rewrite Hp. split; [done|].
      rewrite <- orb_assoc. f_equal. apply bool_decide_ext. naive_solver. }
    eapply twp_use; [exact Hhit|]. intros same s' [-> Hsame]. rewrite Hsame. clear Hhit Hsame same.
    set (h' := mkHandle None (message_handler h) (message_handler_data h) (handler_qos h)).
    replace (S (length pre)) with (length (pre ++ [cleared name (heap s) h])) by
      (rewrite length_app; cbn; lia).
    pose proof (eq_refl (cleared name (heap s) h)) as Hcl. unfold cleared in Hcl at 2. fold h' in Hcl.
    revert Hcl.
    cbn [existsb fmap list_fmap freed].
    destruct (hit name (heap s) h) eqn:Eh; cbn [orb]; intros Hcl.
    2: { eapply twp_mono; [apply IH; [by rewrite Hs, Hcl, <- app_assoc|split; [done|]]|].
         - destruct (topic_filter h); [by apply NoDup_cons in Hn as [_ ?]|done].
         - intros r s' [Hr Hs']. split; [done|]. by rewrite Hs', Hcl, <- app_assoc. }
    rewrite orb_true_r. destruct (topic_filter h) as [p|] eqn:Ep.
    + apply NoDup_cons in Hn as [Hp Hn]. destruct Hh as [str Hstr].
      eapply twp_run; [by eapply free_run|]. t_step.
      eapply twp_mono; [apply IH; cbn [cl heap set_cl set_heap sub_handles set_sub_handles]|].
      * rewrite Hs, Hcl, insert_app_r_alt, Nat.sub_diag by lia. by rewrite <- app_assoc.
      * by apply handles_ok_delete.
      * intros r s' [Hr Hs']. split; [by rewrite Hr|]. rewrite Hs'. cbn [heap set_cl set_heap cl].
        rewrite freed_delete, cleared_delete, Hcl, <- app_assoc by done. done.
    + eapply twp_run; [done|]. t_step.
      eapply twp_mono; [apply IH; cbn [cl heap set_cl set_heap sub_handles set_sub_handles]|].
      * rewrite Hs, Hcl, insert_app_r_alt, Nat.sub_diag by lia. by rewrite <- app_assoc.
      * done.
      * intros r s' [Hr Hs']. split; [by rewrite Hr|]. rewrite Hs'. cbn [heap set_cl set_heap cl].
        rewrite Hcl, <- app_assoc. done.
Qed.

(** The state after the handles of [name] are cleared. *)
Definition without (name : bytes) (s : St) : St :=
  set_heap (freed name (heap s) (sub_handles (cl s)))
    (set_cl (set_sub_handles (cleared name (heap s) <$> sub_handles (cl s)) (cl s)) s).
Definition subscribed (name : bytes) (s : St) : bool :=
  existsb (hit name (heap s)) (sub_handles (cl s)).

Lemma without_none name s : subscribed name s = false -> without name s = s.
Proof.
  unfold subscribed, without. intros Hn.
  assert (Hall : forall hs, existsb (hit name (heap s)) hs = false ->
    cleared name (heap s) <$> hs = hs /\ freed name (heap s) hs = heap s).
  { induction hs as [|h hs IH]; [done|]. cbn [existsb]. intros [Hh Hhs]%orb_false_iff.
    destruct (IH Hhs) as [IH1 IH2]. cbn [freed]. rewrite Hh, fmap_cons, IH1, IH2.
    unfold cleared. by rewrite Hh. }
  destruct (Hall _ Hn) as [-> ->]. destruct s as [c]. cbn. unfold set_heap, set_cl. cbn. f_equal.
  by destruct c.
Qed.

Definition unsub_packet (name : bytes) (c : @Client H) : bytes :=
  Spec.unsubscribe 0 (next_id (next_packet_id c)) name.

Definition unsubscribe_outcome (name : bytes) (s : St) (ret : Z) (s' : St) : Prop :=
  if subscribed name s then
    if decide (is_connected (cl s) = 0) then ret = ERR_MQTT_NO_CONN /\ s' = without name s
    else request_outcome UNSUBSCRIBE name (unsub_packet name (cl s))
           (fun ptr => mkHandle ptr None 0 0) (without name s) ret s'
  else ret = ERR_MQTT_UNSUB_FAILED /\ s' = s.

Lemma inv_sub_handles hs (c : @Client H) :
  length hs = MAX_SUB_TOPICS -> Inv c -> Inv (set_sub_handles hs c).
Proof. intros Hn. inv_mod. Qed.

Lemma unsubscribe_total name s :
  topic_ok name -> Inv (cl s) -> handles_ok (sub_handles (cl s)) (heap s) ->
  UIOT_MQTT_TX_BUF_LEN <= Z.of_nat fuel ->
  twp (uiot_mqtt_unsubscribe fuel (Some name)) (unsubscribe_outcome name s) s.
Proof.
  intros Ht Hi Hok Hf. unfold uiot_mqtt_unsubscribe. pose proof Ht as Ht'. unfold topic_ok in Ht'.
  rewrite zlen_pos_string by lia. cbn [negb]. rewrite decide_False by lia. t_step.
  assert (Hlen : length (sub_handles (cl s)) = MAX_SUB_TOPICS) by apply Hi.
  eapply twp_use.
  { rewrite <- Hlen. by apply (clear_loop_total name false [] (sub_handles (cl s))). }
  intros r s1 [-> ->]. cbn [orb heap set_cl cl]. fold (subscribed name s). t_step.
  match goal with |- twp _ _ ?x => replace x with (without name s) end.
  2: { unfold without, set_heap, set_cl. cbn. f_equal. destruct (cl s). client_eq. }
  unfold unsubscribe_outcome. destruct (subscribed name s) eqn:Es; cbn [negb].
  2: { apply twp_ret. split; [done|]. by apply without_none. }
  eapply twp_run; [apply conn_state_run|].
  change (is_connected (cl (without name s))) with (is_connected (cl s)).
  destruct (decide (is_connected (cl s) = 0)) as [Hc|Hc]; [by apply twp_ret|].
  assert (Hi1 : Inv (cl (without name s))).
  { apply inv_sub_handles; [|done]. by rewrite length_fmap. }
  pose proof (next_id_range _ (inv_pid _ Hi)) as Hid. unfold MAX_PACKET_ID in Hid.
  eapply (topic_request_total fuel UNSUBSCRIBE name _ (fun ptr => mkHandle ptr None 0 0)
    (fun c pid => _serialize_unsubscribe_packet (write_buf c) (write_buf_size c) 0 pid 1 name));
    try done.
  - by eapply (unsubscribe_serialized name (cl s)); [..|lia].
  - intros c' Hc'. by apply unsubscribe_serialized; [..|cbn; lia].
Qed.

(* ------------------------------------------------------------------ *)
(** ** When nothing goes wrong *)

Section calm.
Context `{!Calm W}.

Lemma listed_request_calm type len timer pid h (s : St) :
  bufs_ok (cl s) -> 0 < len < UIOT_MQTT_TX_BUF_LEN -> 0 <= pid < 65536 ->
  UIOT_MQTT_TX_BUF_LEN <= Z.of_nat fuel -> calm (world s) ->
  zlen (list_sub_wait_ack (cl s)) < Z.of_nat MAX_SUB_TOPICS ->
  has_expired timer calm_now = false ->
  twp (listed_request fuel type len timer pid h) (fun ret _ => ret = pid) s.
Proof.
  intros (Hb1 & Hb2 & Hb3) Hl Hid Hf Hc Hroom Ht. unfold listed_request, push_sub_info_to. t_steps.
  change (list_sub_wait_ack (lock_add ListSub 1 (cl s))) with (list_sub_wait_ack (cl s)).
  rewrite decide_False by lia. t_step. apply twp_malloc_calm; [done|intros w1 Hc1]. cbn [negb].
  t_steps. apply twp_now_calm; [done|intros w2 Hc2]. t_steps.
  unfold UIOT_MQTT_TX_BUF_LEN in *.
  eapply twp_mem; [apply slice_at_ok; cbn; split_and!; [lia..|]; reflexivity|]. t_step.
  apply twp_malloc_calm; [done|intros w3 Hc3]. cbn [negb]. t_steps.
  eapply twp_use; [apply send_calm; try done; try (unfold UIOT_MQTT_TX_BUF_LEN; lia)|].
  intros ret s' (-> & _ & _). rewrite decide_False by auto. t_steps. by apply twp_ret.
Qed.

Lemma topic_request_calm type name pkt h ser (s : St) :
  Inv (cl s) -> UIOT_MQTT_TX_BUF_LEN <= Z.of_nat fuel -> 0 < zlen pkt < UIOT_MQTT_TX_BUF_LEN ->
  (forall c', Inv c' -> ser c' (next_id (next_packet_id (cl s))) = Ok (wr (write_buf c') pkt, zlen pkt)) ->
  calm (world s) -> zlen (list_sub_wait_ack (cl s)) < Z.of_nat MAX_SUB_TOPICS ->
  twp (topic_request fuel type name h ser) (fun ret _ => ret = next_id (next_packet_id (cl s))) s.
Proof.
  intros Hi Hf Hp Hser Hc Hroom. unfold topic_request, new_string. t_step.
  apply twp_malloc_calm; [done|intros w1 Hc1]. t_steps.
  apply twp_now_calm; [done|intros w2 Hc2]. t_steps.
  pose proof (next_id_range _ (inv_pid _ Hi)) as Hid.
  eapply twp_run; [apply next_packet_id_run; apply Hi|]. t_steps.
  change (next_packet_id (lock_add WriteBuf 1 (cl s))) with (next_packet_id (cl s)).
  set (pid := next_id (next_packet_id (cl s))) in *.
  assert (Hi1 : Inv (set_next_packet_id pid (lock_add WriteBuf 1 (cl s))))
    by by apply inv_next_id, inv_lock.
  rewrite Hser by done. apply twp_wire; [done|intros a Ha|discriminate]. injection Ha as <-. t_step.
  apply listed_request_calm; try done.
  - apply inv_bufs, inv_write_buf; [|done]. rewrite wr_len; [apply Hi|]. rewrite (inv_wbuf _ Hi). lia.
  - change (0 <= pid < 65536). unfold MAX_PACKET_ID in *. lia.
  - apply calm_deadline. destruct (inv_timeout _ Hi). unfold MIN_COMMAND_TIMEOUT, MAX_COMMAND_TIMEOUT in *. cbn. lia.
Qed.

Lemma subscribe_calm name p (s : St) :
  topic_ok name -> s_qos p = QOS0 \/ s_qos p = QOS1 -> Inv (cl s) -> is_connected (cl s) <> 0 ->
  UIOT_MQTT_TX_BUF_LEN <= Z.of_nat fuel -> calm (world s) ->
  zlen (list_sub_wait_ack (cl s)) < Z.of_nat MAX_SUB_TOPICS ->
  twp (uiot_mqtt_subscribe fuel (Some name) p)
    (fun ret _ => ret = next_id (next_packet_id (cl s))) s.
Proof.
  intros Ht Hq Hi Hc Hf Hcalm Hroom. unfold uiot_mqtt_subscribe. pose proof Ht as Ht'. unfold topic_ok in Ht'.
  rewrite zlen_pos_string by lia. cbn [negb]. rewrite decide_False by lia.
  rewrite decide_False by (unfold QOS0, QOS1, QOS2 in *; lia).
  eapply twp_run; [apply conn_state_run|]. rewrite decide_False by done.
  pose proof (next_id_range _ (inv_pid _ Hi)) as Hid. unfold MAX_PACKET_ID in Hid.
  eapply (topic_request_calm SUBSCRIBE name (sub_packet name (s_qos p) (cl s))
    (fun ptr => mkHandle ptr (on_message_handler p) (user_data p) (s_qos p))
    (fun c pid => _serialize_subscribe_packet (write_buf c) (write_buf_size c) 0 pid 1 name [s_qos p]));
    try done.
  - by apply (subscribe_serialized name (s_qos p) (cl s)); [..|lia].
  - intros c' Hc'. by apply subscribe_serialized; [..|lia].
Qed.

End calm.

(* ------------------------------------------------------------------ *)
(** ** Packet ids *)

Fixpoint take_ids (n : nat) : M (list Z) :=
  match n with
  | O => mret []
  | S n => i ← get_next_packet_id; l ← take_ids n; mret (i :: l)
  end.

(** The id handed out after [k] more than the next. *)
Definition id_after (i : Z) (k : nat) : Z := (i + Z.of_nat k) `mod` MAX_PACKET_ID + 1.

Lemma next_id_mod i : 1 <= i <= MAX_PACKET_ID -> next_id i = i `mod` MAX_PACKET_ID + 1.
Proof.
  unfold next_id, MAX_PACKET_ID. intros Hi. case_decide as Hd; [by subst|].
  rewrite Z.mod_small by lia. done.
Qed.

Lemma take_ids_run n (s : St) : 1 <= next_packet_id (cl s) <= MAX_PACKET_ID ->
  exists s', take_ids n s = Ret (id_after (next_packet_id (cl s)) <$> seq 0 n) s'.
Proof.
  revert s. induction n as [|n IH]; intros s Hi; [by eexists|].
  cbn [take_ids]. unfold mbind, M_bind. rewrite next_packet_id_run by done.
  set (i := next_packet_id (cl s)) in *. pose proof (next_id_range _ Hi) as Hn.
  destruct (IH (set_cl (set_next_packet_id (next_id i) (cl s)) s)) as [s' ->]; [done|].
  exists s'. unfold mret, M_ret. f_equal. cbn [seq fmap list_fmap]. f_equal.
  - rewrite next_id_mod by done. unfold id_after. by rewrite Z.add_0_r.
  - rewrite <- fmap_S_seq, <- list_fmap_compose. apply list_fmap_ext. intros j k _.
    cbn. unfold id_after. rewrite next_id_mod by done. unfold MAX_PACKET_ID. zmod.
Qed.

End request.

(* ================================================================== *)
(** * Properties *)

Section properties.
Context {W H : Type} `{Env W} `{!EnvLaws W} `{!NetLog W} `{EqDecision H}.

(** The packet ids a client hands out are between 1 and 65535, and no two
    of any 65535 consecutive ones are equal: the counter passes over 0 and
    returns to 1 behind 65535. *)
Theorem packet_ids_distinct n (s : @St W H) :
  Inv (cl s) -> Z.of_nat n <= 65535 ->
  exists ids s', take_ids n s = Ret ids s' /\ length ids = n /\
    Forall (fun i => 1 <= i <= 65535) ids /\ NoDup ids.
Proof.
  intros Hi Hn. destruct (take_ids_run n s (inv_pid _ Hi)) as [s' Hr].
  eexists _, s'. split; [exact Hr|]. split; [by rewrite length_fmap, length_seq|]. split.
  - apply Forall_fmap, Forall_forall. intros k _. cbn. unfold id_after, MAX_PACKET_ID. zmod.
  - apply NoDup_fmap_2_strong; [|apply NoDup_ListNoDup, seq_NoDup].
    intros j k Hj Hk He. apply elem_of_seq in Hj, Hk. unfold id_after, MAX_PACKET_ID in He.
    revert He. pose proof (inv_pid _ Hi). generalize (next_packet_id (cl s)). clear - Hj Hk Hn.
    intros i He. zmod.
Qed.

(** C6: sending a packet of the transmit buffer always returns, changes nothing
    of the client, and succeeds only if exactly the packet's bytes, all of them
    and in order, were taken by the network, however the network splits them;
    a packet as large as the buffer is refused unsent; otherwise it fails and
    some other number of bytes went out. *)
Theorem send_mqtt_packet_correct fuel len timer (s : @St W H) :
  Inv (cl s) -> 0 <= len -> UIOT_MQTT_TX_BUF_LEN <= Z.of_nat fuel ->
  exists ret s', send_mqtt_packet fuel len timer s = Ret ret s' /\ sent_spec len s ret s'.
Proof. intros Hi Hl Hf. apply twp_elim, send_total; [by apply inv_bufs|done|done]. Qed.

(** C2: publishing (QoS 0 or 1, connected) always returns.  If it returns the
    packet id, the network has taken exactly the MQTT 3.1.1 PUBLISH packet and,
    for QoS 1, the packet is noted under that id in the list of publishes that
    wait for their PUBACK, which had room; otherwise it returns an error and
    that list is what it was.  Nothing else of the client changes, and no lock
    stays taken; in the heap, only the record of a QoS 1 request for which there
    was no list node may stay behind.  When the environment is calm, the list has room and the
    packet fits, it succeeds. *)
Theorem publish_correct `{!Calm W} fuel name data p (s : @St W H) :
  pub_request name data p -> Inv (cl s) -> is_connected (cl s) <> 0 ->
  UIOT_MQTT_TX_BUF_LEN <= Z.of_nat fuel ->
  exists ret s', uiot_mqtt_publish fuel (Some name) p s = Ret ret s' /\
    publish_outcome name data p s ret s' /\
    (calm (world s) -> zlen (list_pub_wait_ack (cl s)) < MAX_REPUB_NUM ->
     get_mqtt_packet_len (zlen (Spec.publish_body (p_qos p) (pub_id p (cl s)) name data)) <
       UIOT_MQTT_TX_BUF_LEN -> ret = pub_id p (cl s)).
Proof.
  intros Hp Hi Hc Hf. destruct (twp_elim _ _ _ (publish_total fuel name data p s Hp Hi Hc Hf))
    as (ret & s' & Hr & Ho).
  exists ret, s'. split; [done|]. split; [done|]. intros Hcalm Hl He.
  pose proof (publish_calm fuel name data p s Hp Hi Hc Hf Hcalm Hl He) as Hw.
  unfold twp in Hw. by rewrite Hr in Hw.
Qed.

(** C3: subscribing (QoS 0 or 1, connected) always returns.  If it returns a
    packet id, the network has taken exactly the SUBSCRIBE packet, and the
    request, with a fresh copy of the topic filter, is noted in the list of
    requests that wait for an acknowledgement, which had room; otherwise it
    returns an error, the list is what it was, and its copy of the filter is
    freed: the heap is what it was too, but for one case.  If the last thing
    that happened was an allocation that failed, one block with the packet may
    stay behind: the record of the request, which the code does not free when
    there is no memory for the list's node ([subscribe_leaks]).  When the
    environment is calm and the list has room, it succeeds. *)
Theorem subscribe_correct `{!Calm W} fuel name p (s : @St W H) :
  topic_ok name -> s_qos p = QOS0 \/ s_qos p = QOS1 -> Inv (cl s) -> is_connected (cl s) <> 0 ->
  UIOT_MQTT_TX_BUF_LEN <= Z.of_nat fuel ->
  exists ret s', uiot_mqtt_subscribe fuel (Some name) p s = Ret ret s' /\
    request_outcome SUBSCRIBE name (sub_packet name (s_qos p) (cl s))
      (fun ptr => mkHandle ptr (on_message_handler p) (user_data p) (s_qos p)) s ret s' /\
    (calm (world s) -> zlen (list_sub_wait_ack (cl s)) < Z.of_nat MAX_SUB_TOPICS ->
     ret = next_id (next_packet_id (cl s))).
Proof.
  intros Ht Hq Hi Hc Hf.
  destruct (twp_elim _ _ _ (subscribe_total fuel name p s Ht Hq Hi Hc Hf)) as (ret & s' & Hr & Ho).
  exists ret, s'. split; [done|]. split; [done|]. intros Hcalm Hroom.
  pose proof (subscribe_calm fuel name p s Ht Hq Hi Hc Hf Hcalm Hroom) as Hw.
  unfold twp in Hw. by rewrite Hr in Hw.
Qed.

(** C4: unsubscribing always returns.  It first removes every handle whose
    filter is the given one (every handle at all if the filter contains "/#"
    or "/+") and frees its string; with none it fails and changes nothing.
    Only then it looks at the connection: when there is none it fails with the
    handles already gone; otherwise the UNSUBSCRIBE packet is sent and noted
    like a subscription, whose record it may lose in the same way. *)
Theorem unsubscribe_correct fuel name (s : @St W H) :
  topic_ok name -> Inv (cl s) -> handles_ok (sub_handles (cl s)) (heap s) ->
  UIOT_MQTT_TX_BUF_LEN <= Z.of_nat fuel ->
  exists ret s', uiot_mqtt_unsubscribe fuel (Some name) s = Ret ret s' /\
    unsubscribe_outcome name s ret s'.
Proof. intros. by apply twp_elim, unsubscribe_total. Qed.

(** C1: from [uiot_mqtt_init] on, whatever sequence of requests the application
    makes and whatever the network delivers, a run that returns leaves a client
    whose data satisfies the invariant (buffer sizes, packet ids never 0, at
    most 20 pending publishes with packets of the length recorded, at most 10
    pending requests and exactly 10 handles, bounded back-off and ping count,
    distinct list nodes) and every one of its four mutexes unlocked as often as
    it was locked, on every path, errors included.  Callbacks may call back
    into the client. *)
Theorem client_stays_consistent `{!Resources W} app fuel check_repeat params
    (rs : list request) (s s' : @St W H) rets :
  (forall n L s, J L s -> J L (app n s)) ->
  (ret ← uiot_mqtt_init params;
   if decide (ret = SUCCESS_RET) then session app fuel check_repeat rs else mret []) s = Ret rets s' ->
  Inv (cl s') /\ forall x, locks (cl s') x = 0.
Proof.
  intros Happ Hr. change (J (fun _ => 0) s').
  eapply (wp_elim _ (fun _ s' => J (fun _ => 0) s')); [|exact Hr].
  apply wp_bind. eapply wp_mono; [apply uiot_mqtt_init_spec|]. intros ret s1 Hj. cbn beta.
  destruct (decide (ret = SUCCESS_RET)); [by apply session_ok|by apply wp_ret].
Qed.

End properties.

(* ================================================================== *)
(** * Witnesses *)

Definition fuel0 : nat := Z.to_nat 2048.
Definition topic_ab : bytes := bytes_of "a/b".

Lemma client0_inv : Inv client0.
Proof.
  unfold client0. generalize (fresh_client_inv (H := nat) 2000 true).
  generalize (fresh_client (H := nat) 2000 true). intros c Hc. specialize (Hc ltac:(by split)).
  revert Hc. inv_mod.
Qed.

Lemma fuel0_ok : UIOT_MQTT_TX_BUF_LEN <= Z.of_nat fuel0.
Proof. unfold fuel0, UIOT_MQTT_TX_BUF_LEN. lia. Qed.

Lemma packet_ids_distinct_witness :
  exists ids s', take_ids 5 state0 = Ret ids s' /\ length ids = 5%nat /\
    Forall (fun i => 1 <= i <= 65535) ids /\ NoDup ids.
Proof. apply (packet_ids_distinct 5 state0); [exact client0_inv|discriminate]. Defined.

Lemma send_mqtt_packet_correct_witness :
  exists ret s', send_mqtt_packet fuel0 100 5000 state0 = Ret ret s' /\ sent_spec 100 state0 ret s'.
Proof. apply (send_mqtt_packet_correct fuel0 100 5000 state0); [exact client0_inv|discriminate|exact fuel0_ok]. Defined.

Definition hello : bytes := bytes_of "hello".
Definition publish_qos1 : PublishParams := mkPublishParams QOS1 0 0 (Some (hello ++ [0])) 5.

Lemma publish_qos1_ok : pub_request topic_ab hello publish_qos1.
Proof. constructor; try done; [by right|by eexists]. Qed.

Lemma publish_correct_witness :
  exists ret s', uiot_mqtt_publish fuel0 (Some topic_ab) publish_qos1 state0 = Ret ret s' /\
    publish_outcome topic_ab hello publish_qos1 state0 ret s' /\ ret = 2.
Proof.
  destruct (publish_correct fuel0 topic_ab hello publish_qos1 state0) as (ret & s' & Hr & Ho & Hc).
  - exact publish_qos1_ok.
  - exact client0_inv.
  - discriminate.
  - exact fuel0_ok.
  - exists ret, s'. split; [exact Hr|]. split; [exact Ho|].
    rewrite Hc; [reflexivity|repeat split|vm_compute; reflexivity..].
Defined.

Lemma subscribe_correct_witness :
  exists ret s', uiot_mqtt_subscribe fuel0 (Some topic_ab) (mkSubscribeParams QOS1 (Some 7%nat) 0) state0
    = Ret ret s' /\ ret = 2.
Proof.
  destruct (subscribe_correct fuel0 topic_ab (mkSubscribeParams QOS1 (Some 7%nat) 0) state0)
    as (ret & s' & Hr & Ho & Hc).
  - by split.
  - by right.
  - exact client0_inv.
  - discriminate.
  - exact fuel0_ok.
  - exists ret, s'. split; [exact Hr|].
    rewrite Hc; [reflexivity|repeat split|vm_compute; reflexivity].
Defined.

(** Memory for the filter and for the record of the request, none for the node
    of the list: the request fails, and the record is lost. *)
Lemma subscribe_leaks : exists s',
  uiot_mqtt_subscribe fuel0 (Some topic_ab) (mkSubscribeParams QOS1 (Some 7%nat) 0)
    (set_world (mkWorld 1000 0 [] [] [] [true; true; false] true 0 []) state0) = Ret FAILURE_RET s' /\
  list_sub_wait_ack (cl s') = [] /\ map_to_list (heap s') = [(2%positive, Spec.subscribe 0 2 topic_ab 1)].
Proof. eexists. vm_compute. split_and!; reflexivity. Qed.

Definition handle_ab : SubTopicHandle nat := mkHandle (Some 1%positive) (Some 7%nat) 0 1.
Definition state_ab : @St World nat :=
  set_heap {[1%positive := topic_ab]}
    (set_cl (set_sub_handles (handle_ab :: replicate 9 (mkHandle None None 0 0)) client0) state0).

Lemma unsubscribe_correct_witness :
  exists ret s', uiot_mqtt_unsubscribe fuel0 (Some topic_ab) state_ab = Ret ret s' /\
    unsubscribe_outcome topic_ab state_ab ret s'.
Proof.
  apply (unsubscribe_correct fuel0 topic_ab state_ab).
  - by split.
  - apply inv_sub_handles; [done|exact client0_inv].
  - split; [|by_eval]. repeat constructor. by eexists.
  - exact fuel0_ok.
Defined.

(** An application that publishes from every callback. *)
Definition echo (n : note nat) (s : @St World nat) : @St World nat :=
  match uiot_mqtt_publish fuel0 (Some topic_ab) publish_qos1 s with Ret _ s' => s' | _ => s end.

Lemma echo_ok n L s : J L s -> J L (echo n s).
Proof.
  intros Hj. unfold echo. pose proof (uiot_mqtt_publish_ok fuel0 (Some topic_ab) publish_qos1 L s Hj) as Hw.
  unfold wp in Hw. by destruct (uiot_mqtt_publish _ _ _ s).
Qed.

Definition init_params : MQTTInitParams := mkInitParams None None None None 2000 240 1 1 true.
(** The server's answers: CONNACK, SUBACK for id 2, and a PUBLISH of QoS 0 for
    "a/b" with the payload "hello". *)
Definition world_server : World :=
  mkWorld 1000 10 ([32; 2; 0; 0] ++ [144; 3; 0; 2; 1] ++ Spec.publish 0 0 0 0 topic_ab hello)
    [] [] [] true 0 [].
Definition connect_params : MQTTConnectParams :=
  mkConnectParams (Some (bytes_of "id")) (Some (bytes_of "user")) (Some (bytes_of "secret")) 4 240 1 1.
Definition session0 : list (@request nat) :=
  [Connect (Some connect_params); Subscribe (Some topic_ab) (mkSubscribeParams QOS1 (Some 7%nat) 0);
   Yield 1000; Disconnect].
Local Abbreviation run0 := ((ret ← uiot_mqtt_init init_params;
  if decide (ret = SUCCESS_RET) then session echo fuel0 false session0 else mret [])
    (set_world world_server state0)).
(** It runs through: connected, subscribed, the message delivered to handler 7,
    and the two publishes of the callbacks waiting for their PUBACK. *)
Lemma run0_result : exists s', run0 = Ret [0; 2; 0; 0] s' /\ length (trace s') = 2%nat /\
  length (list_pub_wait_ack (cl s')) = 2%nat.
Proof. eexists. vm_compute. auto. Qed.

Lemma client_stays_consistent_witness :
  exists s', run0 = Ret [0; 2; 0; 0] s' /\ Inv (cl s') /\ forall x, locks (cl s') x = 0.
Proof.
  destruct run0_result as (s' & Hr & _). exists s'. split; [exact Hr|].
  apply (client_stays_consistent echo fuel0 false init_params session0 (set_world world_server state0) s'
    [0; 2; 0; 0]); [exact echo_ok|exact Hr].
Defined.
