(* ===== verification/MqttRecv.v ===== *)
(** The receiving half: reading a packet off the connection, against any
    network that obeys [EnvLaws].  The specifications are total: the reader
    returns and never touches memory outside the receive buffer. *)

From S2P Require Import Prelude Defs HalTimer MqttWire MqttTopic MqttState MqttClient MqttSession MqttApi MqttSim MqttInv MqttSend.

(** The value of a remaining-length field, least significant group first, and
    when the field is complete. *)
Fixpoint var_value (ls : bytes) : Z :=
  match ls with [] => 0 | c :: ls => c `mod` 128 + 128 * var_value ls end.
Fixpoint var_complete (ls : bytes) : Prop :=
  match ls with
  | [] => False
  | [c] => c < 128
  | c :: ls => 128 <= c /\ var_complete ls
  end.

Lemma land_128 i : byte i -> (i &&& 128) <> 0 <-> 128 <= i.
Proof.
  intros Hi. assert (Hb : Bool.eqb (negb ((i &&& 128) =? 0)) (128 <=? i) = true).
  { revert i Hi. byte_decide. }
  apply eqb_prop in Hb. destruct (Z.eqb_spec (i &&& 128) 0), (Z.leb_spec 128 i); cbn in Hb;
    split; intros; try done; lia.
Qed.

Section recv.
Context {W H : Type} `{Env W} `{!EnvLaws W} `{!NetLog W} `{EqDecision H}.
Local Abbreviation St := (@St W H).
Local Abbreviation M := (@M W H).
Implicit Types s : St.

(** Only the receive buffer and the environment differ, and the buffer is
    still one. *)
Definition received (s s' : St) : Prop :=
  exists b, s' = set_world (world s') (set_cl (set_read_buf b (cl s)) s) /\
    zlen b = UIOT_MQTT_RX_BUF_LEN /\ Forall byte b.

Definition rx_ok (c : @Client H) : Prop :=
  zlen (read_buf c) = UIOT_MQTT_RX_BUF_LEN /\ Forall byte (read_buf c) /\
  read_buf_size c = UIOT_MQTT_RX_BUF_LEN.

Lemma received_refl s w : rx_ok (cl s) -> received s (set_world w s).
Proof.
  intros (H1 & H2 & _). exists (read_buf (cl s)). split_and!; [|done|done].
  unfold set_world, set_cl. cbn. f_equal. by destruct (cl s).
Qed.
Lemma received_trans s1 s2 s3 : received s1 s2 -> received s2 s3 -> received s1 s3.
Proof.
  intros (b1 & E1 & _ & _) (b2 & E2 & Hb & Hf). exists b2. split_and!; [|done|done].
  rewrite E2, E1. done.
Qed.
Lemma received_rx s s' : received s s' -> rx_ok (cl s) -> rx_ok (cl s').
Proof. intros (b & -> & Hb & Hf) (_ & _ & Hs). by split_and!. Qed.

(** The clock. *)
Lemma twp_now_in {B} (f : Z -> M B) Q s :
  (forall t w, incoming w = incoming (world s) -> twp (f t) Q (set_world w s)) ->
  twp (now ≫= f) Q s.
Proof.
  intros Hf. apply twp_env. intros t w Hw. apply Hf.
  pose proof (tick_incoming (world s)) as Hs. by rewrite Hw in Hs.
Qed.
Lemma left_pos_run timer s :
  twp (left_pos timer) (fun _ s' => exists w, s' = set_world w s /\ incoming w = incoming (world s)) s.
Proof.
  unfold left_pos. t_step. apply twp_now_in. intros t w Hw. apply twp_ret. by exists w.
Qed.

(** A read of at most [len] bytes at [p]. *)
Lemma read_into_run p len timeout s :
  rx_ok (cl s) -> 0 <= p -> 0 <= len -> p + len <= UIOT_MQTT_RX_BUF_LEN ->
  twp (read_into p len timeout) (fun r s' => exists data,
    received s s' /\ incoming (world s) = data ++ incoming (world s') /\
    zlen data <= len /\ Forall byte data /\ (0 < r -> zlen data = r) /\
    write_at (read_buf (cl s)) p data = Ok (read_buf (cl s'))) s.
Proof.
  intros (Hb & Hf & Hsz) Hp Hl Hfit. unfold read_into. apply twp_env. intros [r data] w Hr.
  destruct (net_read len (u32 timeout) (world s)) as [[r' d'] w'] eqn:E.
  injection Hr as -> -> ->. destruct (read_law _ _ _ _ _ _ E Hl) as (Hd & Hbd & Hrd).
  pose proof (read_incoming _ _ _ _ _ _ E) as Hin. t_steps. cbn [snd fst].
  destruct (write_at (read_buf (cl s)) p data) as [b|e|] eqn:Ew.
  2: by apply write_at_not_err in Ew.
  2: { unfold write_at in Ew. rewrite decide_True in Ew by lia. done. }
  eapply twp_mem; [reflexivity|]. t_steps. apply twp_ret. exists data. split_and!; try done.
  exists b. split_and!; [done| |].
  - apply write_at_len in Ew. cbn in Ew. lia.
  - eapply write_at_byte; [| |exact Ew]; done.
Qed.

(** The remaining-length field, byte by byte. *)
Lemma decode_net_run n value mult timeout s :
  0 <= value < mult -> 128 ^ Z.of_nat n * mult <= 4294967296 -> (0 < n)%nat ->
  twp (decode_net_loop n value mult timeout) (fun r s' =>
    (exists w, s' = set_world w s) /\ exists ls, incoming (world s) = ls ++ incoming (world s') /\
      match r with
      | inl x => var_complete ls /\ x = value + mult * var_value ls /\ Forall byte ls /\
                 (length ls <= n)%nat
      | inr e => e = FAILURE_RET \/ e = ERR_MQTT_PACKET_READ_ERROR
      end) s.
Proof.
  revert value mult s. induction n as [|n IH]; intros value mult s Hv Hfit Hn; [lia|].
  cbn [decode_net_loop]. apply twp_env. intros [r data] w Hr.
  destruct (net_read 1 (u32 timeout) (world s)) as [[r' d'] w'] eqn:E.
  injection Hr as -> -> ->. destruct (read_law _ _ _ _ _ _ E) as (Hd & Hbd & Hrd); [lia|].
  pose proof (read_incoming _ _ _ _ _ _ E) as Hin. cbn [fst snd].
  destruct (decide (r <= 0)) as [Hr0|Hr0].
  { apply twp_ret. split; [by eexists|]. exists data. split; [done|by left]. }
  assert (exists i, data = [i]) as [i ->].
  { destruct data as [|i [|]]; cbn in *; [lia|by exists i|lia]. }
  eapply twp_mem; [reflexivity|]. cbn beta zeta. assert (Hbi : byte i) by (by inversion Hbd).
  assert (Hi : (i &&& 127) = i `mod` 128) by (change 127 with (Z.ones 7); apply Z.land_ones; lia).
  assert (Hi' : (i &&& 128) <> 0 <-> 128 <= i).
  { exact (land_128 i Hbi). }
  rewrite Hi. rewrite Nat2Z.inj_succ, Z.pow_succ_r in Hfit by lia.
  assert (0 <= i `mod` 128 < 128) by zmod.
  assert (0 < 128 ^ Z.of_nat n) by (apply Z.pow_pos_nonneg; lia).
  assert (i `mod` 128 * mult <= 127 * mult) by nia.
  assert (128 * mult <= 128 * 128 ^ Z.of_nat n * mult) by nia.
  rewrite (u32_small (value + _)) by nia.
  destruct (decide ((i &&& 128) <> 0)) as [Hc|Hc].
  - apply Hi' in Hc. destruct n as [|n].
    { cbn [decode_net_loop]. apply twp_ret. split; [by eexists|]. exists [i]. split; [done|by right]. }
    assert (1 <= 128 ^ Z.of_nat n) by (pose proof (Z.pow_pos_nonneg 128 (Z.of_nat n)); lia).
    rewrite Nat2Z.inj_succ, Z.pow_succ_r in Hfit by lia.
    rewrite u32_small by nia.
    eapply twp_mono; [apply IH; try lia; rewrite ?Nat2Z.inj_succ, ?Z.pow_succ_r by lia; nia|]. intros r' s' [[w2 Hw2] (ls & Hls & Hr')].
    split; [exists w2; by rewrite Hw2|]. exists (i :: ls). split.
    { cbn [world set_world] in *. rewrite Hin, Hls. done. }
    destruct r' as [x|e]; [|done]. destruct Hr' as (Hcm & -> & Hfb & Hlen). split_and!.
    + cbn. by destruct ls.
    + cbn [var_value]. ring.
    + by constructor.
    + cbn. lia.
  - apply twp_ret. split; [by eexists|]. exists [i]. split; [done|]. split_and!.
    + cbn. lia.
    + cbn [var_value]. ring.
    + by constructor.
    + cbn. lia.
Qed.

(** Discarding a packet that is too large. *)
Lemma drain_loop_run n rem total bytes timeout s :
  rx_ok (cl s) -> 0 <= total < rem -> rem < 4294967296 -> rem - total < Z.of_nat n ->
  0 < bytes <= UIOT_MQTT_RX_BUF_LEN -> bytes <= rem - total ->
  twp (drain_loop n rem total bytes timeout) (fun _ s' => received s s') s.
Proof.
  revert total bytes s. induction n as [|n IH]; intros total bytes s Hrx Ht Hr Hn Hb Hbt; [lia|].
  cbn [drain_loop]. eapply twp_use; [apply read_into_run; [done|lia..]|].
  intros r s1 (data & Hrec & _ & Hd & _ & Hrd & _). t_step.
  pose proof (received_rx _ _ Hrec Hrx) as Hrx1. destruct Hrx1 as (Hb1 & Hf1 & Hs1). rewrite Hs1.
  destruct (decide (r > 0)) as [Hr0|Hr0]; [|by apply twp_ret].
  specialize (Hrd ltac:(lia)). cbn zeta. rewrite (u32_small (total + r)) by lia.
  rewrite u32_small by lia.
  destruct (decide (total + r < rem)) as [Hlt|Hge]; [|by apply twp_ret].
  eapply twp_mono; [apply IH; [by split_and!|lia|done|lia|..]; case_decide; unfold UIOT_MQTT_RX_BUF_LEN in *; lia|].
  intros ? s2 Hrec2. by eapply received_trans.
Qed.

Lemma write_at_0 (b t : bytes) : zlen t <= zlen b -> write_at b 0 t = Ok (wr b t).
Proof. intros Ht. rewrite <- (wr_nil b) at 1. by apply write_next. Qed.

(** What [_read_mqtt_packet] does: a packet type, with the packet at the start
    of the receive buffer under its canonical length field, or an error. *)
Definition read_outcome (s : St) (r : Z + Z) (s' : St) : Prop :=
  received s s' /\
  match r with
  | inr e => e < 0
  | inl type => exists b0 ls data,
      let rem := var_value ls in
      incoming (world s) = b0 :: ls ++ data ++ incoming (world s') /\
      var_complete ls /\ (length ls <= 4)%nat /\ zlen data <= rem /\
      1 + zlen (Spec.rem_len rem) + rem <= UIOT_MQTT_RX_BUF_LEN /\
      take (1 + length (Spec.rem_len rem) + length data) (read_buf (cl s')) =
        b0 :: Spec.rem_len rem ++ data /\
      type = header_type b0
  end.

Lemma var_value_range ls : Forall byte ls -> (length ls <= 4)%nat -> 0 <= var_value ls < 268435456.
Proof.
  intros Hf Hl. assert (Hv : 0 <= var_value ls < 128 ^ zlen ls).
  { clear Hl. induction Hf as [|c l Hc _ IH]; [done|]. cbn [var_value length].
    rewrite Nat2Z.inj_succ, Z.pow_succ_r by lia. assert (0 <= c `mod` 128 < 128) by zmod. nia. }
  assert (128 ^ zlen ls <= 128 ^ 4) by (apply Z.pow_le_mono_r; lia). lia.
Qed.

Lemma received_write_buf s w b :
  rx_ok (cl s) -> zlen b = UIOT_MQTT_RX_BUF_LEN -> Forall byte b ->
  received s (set_cl (set_read_buf b (cl s)) (set_world w s)).
Proof. intros _ Hb Hf. exists b. by split_and!. Qed.

(** The end of the reader, when the packet fits: [t] is the fixed header, which
    is in the buffer already. *)
Definition read_body (rem_len len timer : Z) : M (Z + Z) :=
  let finish : M (Z + Z) :=
    b ← gets read_buf; header ← mem_access (get_at b 0); mret (inl (header_type header)) in
  if decide (rem_len > 0) then
    timer_left_ms ← left_pos timer;
    read_len ← read_into len rem_len (timer_left_ms + UIOT_MQTT_MAX_REMAIN_WAIT_MS);
    if decide (read_len < 0) then mret (inr read_len)
    else if decide (read_len = 0) then mret (inr ERR_MQTT_NOTHING_TO_READ)
    else finish
  else finish.

Lemma finish_run b0 t b s :
  read_buf (cl s) = wr b (b0 :: t) ->
  twp (b ← gets read_buf; header ← mem_access (get_at b 0); mret (inl (header_type header)))
    (fun r s' => s' = s /\ r = inl (A := Z) (B := Z) (header_type b0)) s.
Proof.
  intros Hb. t_step. rewrite Hb. eapply twp_mem; [by apply get_at_ok; split|]. by apply twp_ret.
Qed.

Lemma read_body_run rem len timer b0 t b s :
  rx_ok (cl s) -> read_buf (cl s) = wr b (b0 :: t) -> zlen b = UIOT_MQTT_RX_BUF_LEN ->
  len = zlen (b0 :: t) -> 0 <= rem -> len + rem <= UIOT_MQTT_RX_BUF_LEN ->
  twp (read_body rem len timer) (fun r s' => received s s' /\
    match r with
    | inr e => e < 0
    | inl type => type = header_type b0 /\ exists data,
        incoming (world s) = data ++ incoming (world s') /\ zlen data <= rem /\
        read_buf (cl s') = wr b (b0 :: t ++ data)
    end) s.
Proof.
  intros Hrx Hb Hbl Hlen Hrem Hfit. unfold read_body. cbn zeta.
  destruct (decide (rem > 0)) as [Hr0|Hr0].
  - eapply twp_use; [apply left_pos_run|]. intros tl s1 (w1 & -> & Hw1). cbn [length] in *.
    eapply twp_use; [apply read_into_run; try done; lia|].
    intros r s2 (data & Hrec & Hin & Hd & Hbd & Hrd & Hwr). cbn [cl set_world world] in *.
    assert (Hrec2 : received s s2).
    { destruct Hrec as (b2 & -> & ? & ?). by exists b2. }
    destruct (decide (r < 0)) as [Hn|Hn]; [by apply twp_ret|].
    destruct (decide (r = 0)) as [Hz|Hz]; [by apply twp_ret|].
    rewrite Hb in Hwr. rewrite write_next in Hwr by (cbn; lia). injection Hwr as Hwr.
    eapply twp_mono; [eapply (finish_run b0 (t ++ data) b); by rewrite <- Hwr|].
    intros r' s' [-> ->]. split; [done|]. split; [done|]. exists data. split_and!; [congruence|done|by rewrite <- Hwr].
  - eapply twp_mono; [by apply (finish_run b0 t b)|]. intros r' s' [-> ->].
    split; [|split; [done|exists []; split_and!; [done|done|by rewrite app_nil_r]]].
    exists (read_buf (cl s)). destruct Hrx as (? & ? & ?). split_and!; [|done|done].
    destruct s as [c]. unfold set_world, set_cl. cbn. f_equal. by destruct c.
Qed.

(** From the point where the length is known to fit the buffer. *)
Definition read_rest (rem_len timer : Z) : M (Z + Z) :=
  b ← gets read_buf;
  '(b, n) ← mem_access (mqtt_write_packet_rem_len b 1 rem_len);
  _ ← mod_cl (set_read_buf b);
  if decide (rem_len > 0 /\ u32 (1 + n + rem_len) > UIOT_MQTT_RX_BUF_LEN) then
    timer_left_ms ← left_pos timer;
    _ ← read_into 0 rem_len (timer_left_ms + UIOT_MQTT_MAX_REMAIN_WAIT_MS);
    mret (inr ERR_MQTT_BUFFER_TOO_SHORT)
  else read_body rem_len (1 + n) timer.

Lemma read_rest_run rem timer b0 b s :
  rx_ok (cl s) -> read_buf (cl s) = wr b [b0] -> zlen b = UIOT_MQTT_RX_BUF_LEN ->
  0 <= rem < UIOT_MQTT_RX_BUF_LEN ->
  twp (read_rest rem timer) (fun r s' => received s s' /\
    match r with
    | inr e => e < 0
    | inl type => type = header_type b0 /\
        1 + zlen (Spec.rem_len rem) + rem <= UIOT_MQTT_RX_BUF_LEN /\ exists data,
        incoming (world s) = data ++ incoming (world s') /\ zlen data <= rem /\
        read_buf (cl s') = wr b (b0 :: Spec.rem_len rem ++ data)
    end) s.
Proof.
  unfold UIOT_MQTT_RX_BUF_LEN. intros Hrx Hb Hbl Hrem. unfold read_rest. t_step. rewrite Hb.
  assert (Hrl : 1 <= zlen (Spec.rem_len rem) <= 2).
  { unfold Spec.rem_len. repeat case_decide; cbn; lia. }
  pose proof (write_rem_len_wr b [b0] 1 rem eq_refl ltac:(lia) ltac:(cbn; lia)) as Hw.
  eapply twp_mem; [exact Hw|]. t_step. set (b1 := wr b ([b0] ++ Spec.rem_len rem)) in *.
  destruct Hrx as (Hrl0 & Hrf & Hrs).
  assert (Hb1 : zlen b1 = 2048) by (unfold b1; rewrite wr_len; [done|rewrite length_app; cbn; lia]).
  assert (Hf1 : Forall byte b1).
  { rewrite Hb in Hrf. eapply write_rem_len_byte; [exact Hrf| |exact Hw]. apply u32_range. }
  assert (Hrec : received s (set_cl (set_read_buf b1 (cl s)) s)).
  { exists b1. split_and!; [by destruct s|done|done]. }
  rewrite u32_small by lia. unfold UIOT_MQTT_RX_BUF_LEN.
  destruct (decide (rem > 0 /\ 1 + zlen (Spec.rem_len rem) + rem > 2048)) as [Hbig|Hfit].
  - eapply twp_use; [apply left_pos_run|]. intros tl s1 (w1 & -> & Hw1).
    eapply twp_use; [apply read_into_run; [split_and!; [exact Hb1|exact Hf1|exact Hrs]|..]; unfold UIOT_MQTT_RX_BUF_LEN; lia|].
    intros r s2 (data & Hrec2 & _). apply twp_ret. split; [|done].
    destruct Hrec2 as (b2 & -> & ? & ?). by exists b2.
  - eapply twp_mono; [eapply (read_body_run rem _ timer b0 (Spec.rem_len rem) b);
      [split_and!; [exact Hb1|exact Hf1|exact Hrs]|done|done|cbn [length]; lia|lia|]|].
    + unfold UIOT_MQTT_RX_BUF_LEN. lia.
    + intros r s' (Hrec' & Hr). split; [exact (received_trans _ _ _ Hrec Hrec')|]. destruct r as [type|e]; [|done].
      destruct Hr as (-> & data & Hin & Hd & Hbuf). split; [done|]. split; [lia|]. by exists data.
Qed.

Lemma _read_mqtt_packet_total timer s :
  rx_ok (cl s) -> twp (_read_mqtt_packet timer) (read_outcome s) s.
Proof.
  intros Hrx. unfold _read_mqtt_packet.
  eapply twp_use; [apply left_pos_run|]. intros tl s1 (w1 & -> & Hw1).
  destruct Hrx as (Hbl & Hbf & Hsz). unfold UIOT_MQTT_RX_BUF_LEN in *.
  eapply twp_use; [apply read_into_run; done|].
  intros r s2 (data & Hrec & Hin & Hd & Hbd & Hrd & Hwr). cbn [cl set_world world] in *.
  assert (Hrec2 : received s s2) by (destruct Hrec as (b2 & -> & ? & ?); by exists b2).
  destruct (decide (r < 0)) as [Hn|Hn]; [by apply twp_ret; split|].
  destruct (decide (r = 0)) as [Hz|Hz]; [by apply twp_ret; split|].
  assert (exists b0, data = [b0]) as [b0 ->].
  { specialize (Hrd ltac:(lia)). destruct data as [|b0 [|]]; cbn in *; [lia|by exists b0|lia]. }
  rewrite write_at_0 in Hwr by (cbn; lia). injection Hwr as Hb2.
  eapply twp_use; [apply left_pos_run|]. intros tl2 s3 (w3 & -> & Hw3).
  unfold _decode_packet_rem_len_with_net_read.
  eapply twp_use; [apply decode_net_run; [lia|vm_compute; discriminate|apply Nat.lt_0_succ]|]. intros r3 s4 ((w4 & ->) & ls & Hls & Hr3).
  cbn [cl set_world world] in *.
  assert (Hmove : forall w, received s (set_world w s2)) by (intros w; by destruct Hrec2 as (b2 & -> & ? & ?); exists b2).
  destruct r3 as [rem|e]; [|apply twp_ret; split; [apply (Hmove w4)|by destruct Hr3 as [-> | ->]]].
  destruct Hr3 as (Hcm & -> & Hfb & Hlen). pose proof (var_value_range ls Hfb Hlen) as Hrange.
  rewrite Z.add_0_l, Z.mul_1_l. set (rem := var_value ls) in *. t_step.
  assert (Hrx2 : rx_ok (cl s2)) by (by apply (received_rx s); [|split_and!]).
  destruct Hrx2 as (Hbl2 & Hbf2 & Hsz2). cbn [cl set_world]. rewrite Hsz2. unfold UIOT_MQTT_RX_BUF_LEN in *.
  destruct (decide (rem >= 2048)) as [Hbig|Hsmall].
  { eapply twp_use; [apply left_pos_run|]. intros tl4 s5 (w5 & -> & Hw5).
    eapply twp_use; [apply drain_loop_run; try (split_and!; done); unfold UIOT_MQTT_RX_BUF_LEN; lia|].
    intros ? s6 Hrec6. apply twp_ret. split; [|done].
    eapply received_trans; [apply (Hmove w5)|exact Hrec6]. }
  t_step. eapply twp_mono.
  { apply (read_rest_run rem timer b0 (read_buf (cl s)) (set_world w4 (set_world w3 s2)));
      [by split_and!|done|done|unfold UIOT_MQTT_RX_BUF_LEN; lia]. }
  intros r' s' (Hrec' & Hr'). split; [eapply received_trans; [apply (Hmove w4)|exact Hrec']|].
  destruct r' as [type|e]; [|done]. destruct Hr' as (-> & Hfit & data & Hdin & Hdl & Hbuf).
  exists b0, ls, data. cbn zeta. fold rem. cbn [world set_world] in Hdin. split_and!; try done.
  - rewrite <- Hw1, Hin, <- Hw3, Hls, Hdin. done.
  - rewrite Hbuf. unfold wr. apply take_app_length'. cbn [length]. rewrite length_app. lia.
Qed.

End recv.
