(* ===== verification/MqttHandle.v ===== *)
(** What the client does with a packet it has received: delivery of a message
    to the handlers, the acknowledgement of a PUBLISH, and the packets that
    acknowledge the client's own requests. *)

From S2P Require Import Prelude Defs HalTimer MqttWire MqttTopic MqttState MqttClient MqttSession MqttApi MqttSim MqttInv MqttSend MqttRequest MqttRecv.

Section handle.
Context {W H : Type} `{Env W} `{!EnvLaws W} `{!NetLog W} `{EqDecision H}.
Local Abbreviation St := (@St W H).
Local Abbreviation M := (@M W H).
Context (app : note H -> St -> St).
Context (fuel : nat).
Implicit Types s : St.

(* ------------------------------------------------------------------ *)
(** ** Delivery *)

(** Does the handle's filter take the topic [name], by the two tests of the code? *)
Definition filter_takes (filter name : bytes) : bool :=
  _is_topic_equals name filter || bool_decide (_is_topic_matched filter name (zlen name) = Ok true).

(** The function and data of the first handle with a function whose filter
    takes [name]. *)
Fixpoint receiver (hp : gmap positive bytes) (name : bytes) (hs : list (SubTopicHandle H))
  : option (H * Z) :=
  match hs with
  | [] => None
  | h :: hs =>
      match topic_filter h ≫= (hp !!.), message_handler h with
      | Some filter, Some f =>
          if filter_takes filter name then Some (f, message_handler_data h) else receiver hp name hs
      | _, _ => receiver hp name hs
      end
  end.

Definition allocated (hp : gmap positive bytes) (h : SubTopicHandle H) : Prop :=
  match topic_filter h with Some p => is_Some (hp !! p) | None => True end.

(** The application is called with [n]. *)
Definition called (n : note H) (s : St) : St := app n (set_trace (trace s ++ [n]) s).

Lemma matched_code (name post filter : bytes) :
  name <> [] -> exists b, _is_topic_matched filter (name ++ post) (zlen name) = Ok b /\
    b = bool_decide (_is_topic_matched filter name (zlen name) = Ok true).
Proof.
  intros Hn. destruct (amatch_defined filter [] name Hn) as [b Hb]. exists b.
  pose proof (is_topic_matched_amatch filter name []) as Hm. rewrite app_nil_r in Hm.
  rewrite is_topic_matched_amatch, Hm, Hb. split; [done|]. by destruct b.
Qed.

Lemma deliver_loop_total pre post name rest msg s :
  sub_handles (cl s) = pre ++ post -> name <> [] -> Forall cchar name ->
  Forall (allocated (heap s)) post ->
  twp (deliver_loop app (seq (length pre) (length post)) (name ++ 0 :: rest) (zlen name) msg)
    (fun found s' =>
      match receiver (heap s) name post with
      | Some (f, d) => found = true /\
          s' = called (Delivered f msg d) (set_cl (lock_add Generic (-1) (cl s)) s)
      | None => found = false /\ s' = s
      end) s.
Proof.
  revert pre s. induction post as [|h post IH]; intros pre s Hs Hn Hc Ha; [by apply twp_ret|].
  cbn [length seq deliver_loop receiver]. t_step. rewrite Hs, list_lookup_middle by done.
  apply Forall_cons in Ha as [Hh Ha]. unfold allocated in Hh.
  assert (Hnext : forall m, m = s -> twp (deliver_loop app (seq (S (length pre)) (length post))
    (name ++ 0 :: rest) (zlen name) msg) (fun found s' => match receiver (heap s) name post with
      | Some (f, d) => found = true /\ s' = called (Delivered f msg d) (set_cl (lock_add Generic (-1) (cl s)) s)
      | None => found = false /\ s' = s end) m).
  { intros m ->. replace (S (length pre)) with (length (pre ++ [h])) by (rewrite length_app; cbn; lia).
    apply IH; [by rewrite Hs, <- app_assoc|done..]. }
  destruct (topic_filter h) as [p|]; cbn [mbind option_bind]; [|by apply Hnext].
  destruct Hh as [filter Hf]. rewrite Hf.
  apply twp_bind. unfold twp at 1, string_at. rewrite Hf. rewrite cstr_app by done. t_step.
  assert (Hm : twp (if _is_topic_equals name filter then mret true
      else mem_access (_is_topic_matched filter (name ++ 0 :: rest) (zlen name)))
    (fun b s' => s' = s /\ b = filter_takes filter name) s).
  { unfold filter_takes. destruct (_is_topic_equals name filter); [by apply twp_ret|].
    destruct (matched_code name (0 :: rest) filter Hn) as (b & Hb & Hbd).
    unfold twp, mem_access. rewrite Hb. split; [done|]. by rewrite orb_false_l. }
  eapply twp_use; [exact Hm|]. intros b s' [-> ->]. clear Hm.
  destruct (filter_takes filter name).
  - t_step. destruct (message_handler h) as [f|].
    + apply twp_modify, twp_ret. split; [done|]. done.
    + t_step. refine (Hnext _ _). cbn [cl set_cl]. rewrite unlock_lock, set_cl_twice. apply set_cl_same.
  - destruct (message_handler h); by apply Hnext.
Qed.

(** The message as it reaches the application. *)
Definition addressed (topicName : bytes) (n : Z) (msg : MQTTMessage) : MQTTMessage :=
  mkMessage (qos msg) (retained msg) (dup msg) (id msg) topicName n (payload msg) (payload_len msg).

(** The state after delivery: one call, or none. *)
Definition delivered (name topicName : bytes) (msg : MQTTMessage) (s : St) : St :=
  let m := addressed topicName (zlen name) msg in
  match receiver (heap s) name (sub_handles (cl s)) with
  | Some (f, d) => called (Delivered f m d) s
  | None => if event_handler (cl s) then called (NotifiedMessage m) s else s
  end.

Lemma deliver_message_run name rest msg s :
  length (sub_handles (cl s)) = MAX_SUB_TOPICS -> name <> [] -> Forall cchar name ->
  Forall (allocated (heap s)) (sub_handles (cl s)) ->
  twp (_deliver_message app (name ++ 0 :: rest) (zlen name) msg)
    (fun ret s' => ret = SUCCESS_RET /\ s' = delivered name (name ++ 0 :: rest) msg s) s.
Proof.
  intros Hl Hn Hc Ha. unfold _deliver_message. cbn zeta. t_step.
  eapply twp_use.
  { rewrite <- Hl. apply (deliver_loop_total [] (sub_handles (cl s)) name rest); try done. }
  intros found s' Hr. unfold delivered. cbn [heap set_cl] in Hr.
  destruct (receiver (heap s) name (sub_handles (cl s))) as [[f d]|].
  - destruct Hr as [-> ->]. apply twp_ret. split; [done|]. unfold addressed. f_equal.
    cbn [cl set_cl]. rewrite lock_unlock, set_cl_twice. apply set_cl_same.
  - destruct Hr as [-> ->]. t_steps. rewrite lock_unlock, set_cl_twice, set_cl_same.
    destruct (event_handler (cl s)) eqn:Ee; [|by apply twp_ret].
    apply twp_modify, twp_ret. done.
Qed.

Hypothesis app_ok : forall n L s, J L s -> J L (app n s).

Lemma called_inv n s : Inv (cl s) -> Inv (cl (called n s)).
Proof.
  intros Hi. assert (Hj : J (locks (cl s)) s) by by split.
  by destruct (app_ok n _ (set_trace (trace s ++ [n]) s) Hj).
Qed.
Lemma delivered_inv name t msg s : Inv (cl s) -> Inv (cl (delivered name t msg s)).
Proof.
  intros Hi. unfold delivered. destruct (receiver _ _ _) as [[f d]|]; [by apply called_inv|].
  destruct (event_handler (cl s)); [by apply called_inv|done].
Qed.

(* ------------------------------------------------------------------ *)
(** ** The acknowledgement of a PUBLISH *)

(** The ring of packet ids after [id] was received. *)
Definition remember (i : Z) (s : St) : St :=
  if decide (i ∈ sg_repeat_packet_id_buf s /\ i > 0) then s
  else
    let cnt := current_packet_id_cnt s in
    mkSt (cl s) (heap s) (world s) (trace s) (<[Z.to_nat cnt := i]> (sg_repeat_packet_id_buf s))
      (if decide (cnt + 1 >= Z.of_nat MQTT_MAX_REPEAT_BUF_LEN) then (cnt + 1) `mod` 50 else cnt + 1).

Lemma remember_run i s : _add_packet_id_to_repeat_buf i s = Ret tt (remember i s).
Proof.
  unfold _add_packet_id_to_repeat_buf, _get_packet_id_in_repeat_buf, remember, get, mbind, M_bind, mret, M_ret.
  destruct (decide (i ∈ sg_repeat_packet_id_buf s)) as [Hi|Hi].
  - destruct (decide (i > 0)) as [Hp|Hp]; [by rewrite decide_True|].
    rewrite decide_False by naive_solver. done.
  - rewrite decide_False by lia. rewrite decide_False by naive_solver. done.
Qed.

(** An acknowledgement [pkt] was built and sent, or could not be sent. *)
Definition acked (pkt : bytes) (s : St) (ret : Z) (s' : St) : Prop :=
  s' = set_world (world s') (set_cl (set_write_buf (wr (write_buf (cl s)) pkt) (cl s)) s) /\
  ((ret = SUCCESS_RET /\ stream (world s') = stream (world s) ++ pkt) \/ ret = FAILURE_RET).

Lemma ack_len type dup q i : 0 <= i < 65536 -> zlen (Spec.ack type dup q i) = 4.
Proof. done. Qed.

Lemma ack_run type i timer s :
  Inv (cl s) -> 1 <= type <= 14 -> 0 <= i < 65536 -> UIOT_MQTT_TX_BUF_LEN <= Z.of_nat fuel ->
  twp (_ ← HAL_MutexLock WriteBuf;
       c ← gets (fun c => c);
       r ← wire (serialize_pub_ack_packet (write_buf c) (write_buf_size c) type 0 i);
       match r with
       | inr e => _ ← HAL_MutexUnlock WriteBuf; mret e
       | inl (b, len) =>
           _ ← mod_cl (set_write_buf b);
           ret ← send_mqtt_packet fuel len timer;
           _ ← HAL_MutexUnlock WriteBuf;
           mret ret
       end)
    (acked (Spec.ack type 0 (if decide (PUBREL = type) then 1 else 0) i) s) s.
Proof.
  intros Hi Ht Hid Hf. t_steps. destruct (inv_bufs _ Hi) as (Hb1 & Hb2 & Hb3).
  unfold UIOT_MQTT_TX_BUF_LEN, UIOT_MQTT_RX_BUF_LEN in *.
  set (pkt := Spec.ack type 0 _ i).
  change (serialize_pub_ack_packet _ _ type 0 i) with
    (serialize_pub_ack_packet (write_buf (cl s)) (write_buf_size (cl s)) type 0 i).
  rewrite (serialize_pub_ack_spec (write_buf (cl s)) (write_buf_size (cl s)) type 0 i) by (done || lia).
  change (0 `mod` 2) with 0. fold pkt. assert (Hpl : zlen pkt = 4) by done. clearbody pkt.
  apply twp_wire; [done|intros a Ha|discriminate]. injection Ha as <-. t_step.
  eapply twp_use; [apply send_total; [split_and!|lia|done]|].
  - change (zlen (wr (write_buf (cl s)) pkt) = UIOT_MQTT_TX_BUF_LEN). rewrite wr_len; lia || done.
  - done.
  - done.
  - intros ret s1 [Hm Hs]. t_step. apply twp_ret. cbn [cl set_cl write_buf set_write_buf world] in Hs.
    split.
    + rewrite Hm. unfold set_world, set_cl. cbn. f_equal. destruct (cl s). client_eq.
    + destruct Hs as [(-> & _ & Hs) | [(_ & Hl & _) | (-> & _)]].
      * left. split; [done|]. cbn [world set_cl]. rewrite Hs. f_equal. rewrite <- Hpl. apply take_wr.
      * unfold UIOT_MQTT_TX_BUF_LEN in Hl. lia.
      * by right.
Qed.

(** A PUBLISH that the server may send, with a topic that fits [fix_topic]. *)
Record pub_received (dup q ret i : Z) (name data : bytes) : Prop := {
  rc_dup : 0 <= dup < 2;
  rc_qos : 0 <= q <= 2;
  rc_ret : 0 <= ret < 2;
  rc_id : 0 <= i < 65536;
  rc_name : 1 <= zlen name < MAX_SIZE_OF_CLOUD_TOPIC;
  rc_chars : Forall cchar name;
  rc_data : zlen data < 268400000
}.

(** The message the application is given: the payload lies in the receive
    buffer, behind the fixed header, the topic and, for QoS > 0, the id. *)
Definition message_of (dup q ret i : Z) (name data : bytes) : MQTTMessage :=
  let body := Spec.publish_body q i name data in
  mkMessage q ret dup (if decide (q > 0) then Some i else None) [] 0
    (1 + zlen (Spec.rem_len (zlen body)) + 2 + zlen name + (if decide (q > 0) then 2 else 0))
    (zlen data).
Definition fixed_topic (name : bytes) : bytes :=
  name ++ 0 :: replicate (127 - length name) 0.

(** The state after the message itself is dealt with: delivered, unless the id
    is in the ring of ids received and the ring is used. *)
Definition taken (check_repeat : bool) (dup q ret i : Z) (name data : bytes) (s : St) : St :=
  let s1 := delivered name (fixed_topic name) (message_of dup q ret i name data) s in
  if decide (q = 0) then s1
  else if check_repeat then
    remember i (if decide (i ∈ sg_repeat_packet_id_buf s) then s else s1)
  else s1.

Lemma remember_inv i s : Inv (cl s) -> Inv (cl (remember i s)).
Proof. unfold remember. by case_decide. Qed.

Lemma topic_slice dup q ret i (name data rest : bytes) :
  let body := Spec.publish_body q i name data in
  slice_at (Spec.publish dup q ret i name data ++ rest)
    (1 + zlen (Spec.rem_len (zlen body)) + 2) (zlen name) = Ok name.
Proof.
  intros body. set (pre := Spec.first_byte 3 dup q ret :: Spec.rem_len (zlen body) ++ Spec.be16 (zlen name)).
  set (post := (if decide (q > 0) then Spec.be16 i else []) ++ data ++ rest).
  replace (Spec.publish dup q ret i name data ++ rest) with (pre ++ name ++ post).
  - apply slice_mid; [|done]. unfold pre. cbn [length]. rewrite length_app. cbn [length Spec.be16]. lia.
  - unfold pre, post, body, Spec.publish, Spec.packet, Spec.publish_body, Spec.utf8.
    generalize (Spec.be16 (zlen name)) (Spec.first_byte 3 dup q ret). intros l f.
    rewrite <- !app_comm_cons, <- !app_assoc. done.
Qed.

Lemma fixed_topic_write name : 1 <= zlen name < 128 ->
  write_at (replicate 128 0) 0 name = Ok (fixed_topic name).
Proof.
  intros Hn. rewrite write_at_0 by (rewrite length_replicate; lia). f_equal. unfold wr, fixed_topic.
  f_equal. rewrite drop_replicate. destruct (128 - length name)%nat as [|k] eqn:Ek; [lia|].
  cbn [replicate]. do 2 f_equal. lia.
Qed.

Lemma handle_publish_run check_repeat dup q ret i name data rest timer s :
  pub_received dup q ret i name data ->
  read_buf (cl s) = Spec.publish dup q ret i name data ++ rest ->
  Inv (cl s) -> Forall (allocated (heap s)) (sub_handles (cl s)) ->
  UIOT_MQTT_TX_BUF_LEN <= Z.of_nat fuel ->
  twp (_handle_publish_packet app fuel check_repeat timer) (fun r s' =>
    let s1 := taken check_repeat dup q ret i name data s in
    if decide (q = 0) then r = SUCCESS_RET /\ s' = s1
    else acked (Spec.ack (if decide (q = 1) then PUBACK else PUBREC) 0 0 i) s1 r s') s.
Proof.
  intros [] Hb Hi Ha Hf. unfold _handle_publish_packet. t_step. rewrite Hb, (inv_rsize _ Hi).
  unfold MAX_SIZE_OF_CLOUD_TOPIC in *.
  rewrite deserialize_publish_spec by (try done; unfold UIOT_MQTT_RX_BUF_LEN; lia).
  set (rl := 1 + zlen (Spec.rem_len (zlen (Spec.publish_body q i name data)))).
  pose proof (topic_slice dup q ret i name data rest) as Hts. cbn zeta in Hts. fold rl in Hts.
  apply twp_wire; [done|intros a Ha'|discriminate]. injection Ha' as <-.
  set (msg := message_of dup q ret i name data).
  change (mkMessage _ _ _ _ [] 0 _ _) with msg.
  cbn [pk_topic_len pk_topic pk_qos pk_id]. unfold MAX_SIZE_OF_CLOUD_TOPIC.
  rewrite decide_False by lia. eapply twp_mem; [exact Hts|]. eapply twp_mem; [by apply fixed_topic_write|].
  assert (Hdel : twp (_deliver_message app (fixed_topic name) (zlen name) msg)
    (fun r s' => r = SUCCESS_RET /\ s' = delivered name (fixed_topic name) msg s) s).
  { apply deliver_message_run; [apply Hi|intros ->; cbn in *; lia|done|done]. }
  unfold taken. fold msg. clearbody msg.
  destruct (decide (q = 0)) as [Hq|Hq]; [rewrite Hq; exact Hdel|].
  change QOS0 with 0. rewrite decide_False by congruence. rewrite (decide_True (P := q > 0)) by lia.
  cbn [default option_rect from_option]. set (s1 := delivered _ _ _ _) in *.
  eapply (twp_use _ _ (fun r s' => r = SUCCESS_RET /\ s' = (if check_repeat
    then remember i (if decide (i ∈ sg_repeat_packet_id_buf s) then s else s1) else s1))).
  { destruct check_repeat; [|exact Hdel]. unfold _get_packet_id_in_repeat_buf, Datatypes.id. t_steps.
    destruct (decide (i ∈ sg_repeat_packet_id_buf s)) as [Hin|Hin].
    - rewrite (decide_False (P := i < 0)) by lia. t_step. rewrite decide_False by auto.
      eapply twp_run; [apply remember_run|]. by apply twp_ret.
    - rewrite decide_True by done. eapply twp_use; [exact Hdel|]. intros r s' [-> ->].
      rewrite decide_False by auto. eapply twp_run; [apply remember_run|]. by apply twp_ret. }
  intros r s' [-> ->]. rewrite decide_False by auto.
  change QOS1 with 1.
  assert (Hinv : Inv (cl (if check_repeat
    then remember i (if decide (i ∈ sg_repeat_packet_id_buf s) then s else s1) else s1))).
  { assert (Inv (cl s1)) by by apply delivered_inv. destruct check_repeat; [|done].
    apply remember_inv. by case_decide. }
  destruct (decide (q = 1)) as [Hq1|Hq1].
  - rewrite decide_True by done. by apply (ack_run PUBACK).
  - rewrite decide_False by congruence. by apply (ack_run PUBREC).
Qed.

End handle.

(* ------------------------------------------------------------------ *)
(** ** The list of publishes that wait for their PUBACK

    Here the application only watches: its callbacks leave the state alone. *)

Section pending.
Context {W H : Type} `{Env W} `{!EnvLaws W} `{!NetLog W} `{EqDecision H}.
Local Abbreviation St := (@St W H).
Local Abbreviation M := (@M W H).
Context (react : note H -> St -> St).
Hypothesis react_idle : forall n (s : St), react n s = s.
Implicit Types s : St.

(** The application, if it watches, is told [n] and reacts. *)
Definition told (n : note H) (s : St) : St :=
  if event_handler (cl s) then react n (set_trace (trace s ++ [n]) s) else s.
Lemma told_run t i s : notify react t i s = Ret tt (told (Notified t i) s).
Proof. unfold notify, told, gets, mbind, M_bind. by destruct (event_handler (cl s)). Qed.

Definition noted (n : note H) (s : St) : St :=
  if event_handler (cl s) then set_trace (trace s ++ [n]) s else s.

Lemma notify_run t i s : notify react t i s = Ret tt (noted (Notified t i) s).
Proof.
  unfold notify, noted, gets, mbind, M_bind, call, modify. destruct (event_handler (cl s)); [|done].
  by rewrite react_idle.
Qed.

Lemma filter_middle {A} (front back : list (positive * A)) t x :
  NoDup (front ++ (t, x) :: back).*1 ->
  filter (fun n => n.1 <> t) (front ++ (t, x) :: back) = front ++ back.
Proof.
  rewrite fmap_app, fmap_cons. intros (Hf & Hd & Hb)%NoDup_app. cbn in Hb. apply NoDup_cons in Hb as [Ht _].
  rewrite filter_app, filter_cons, decide_False by (cbn; congruence).
  rewrite !filter_fresh; [done|done|]. intros Hin. by eapply Hd; [exact Hin|left].
Qed.

(** One pass over the list, in the order of the pass, from the environment [w]:
    the nodes that stay, the events, and the environment behind it.  An
    acknowledged node goes silently.  Of a connected client each other node
    reads the clock: if its time is up, it goes with an event (and the clock is
    read once more), else it stays; without a connection all others stay. *)
Fixpoint pass (connected : bool) (l : list (positive * UIoTPubInfo)) (w : W)
  : list (positive * UIoTPubInfo) * list (note H) * W :=
  match l with
  | [] => ([], [], w)
  | (p, x) :: l =>
      match pub_node_state x with
      | MQTT_NODE_STATE_INVALID => pass connected l w
      | MQTT_NODE_STATE_NORMAL =>
          if connected then
            let '(t, w1) := rt_tick_get w in
            if decide (left_ms (pub_start_time x) t > 0) then
              let '(kept, ev, w') := pass connected l w1 in ((p, x) :: kept, ev, w')
            else
              let '(kept, ev, w') := pass connected l (rt_tick_get w1).2 in
              (kept, Notified MQTT_EVENT_PUBLISH_TIMEOUT (pub_msg_id x) :: ev, w')
          else
            let '(kept, ev, w') := pass connected l w in ((p, x) :: kept, ev, w')
      end
  end.

Definition watched (c : @Client H) (ev : list (note H)) : list (note H) :=
  if event_handler c then ev else [].

(** The list became [l], the environment moved and [ev] was noted. *)
Definition pub_step (l : list (positive * UIoTPubInfo)) (ev : list (note H)) (s s' : St) : Prop :=
  s' = set_trace (trace s ++ watched (cl s) ev)
         (set_world (world s') (set_cl (set_list_pub_wait_ack l (cl s)) s)).

Definition as_temp (temp : option positive) (l : list (positive * UIoTPubInfo)) : Prop :=
  match temp with Some t => exists x, l = [(t, x)] | None => l = [] end.

Lemma remove_temp front temps back temp s :
  NoDup (front ++ temps ++ back).*1 -> list_pub_wait_ack (cl s) = front ++ temps ++ back ->
  as_temp temp temps ->
  (match temp with Some t => remove_pub t | None => mret tt end) s =
  Ret tt (set_cl (set_list_pub_wait_ack (front ++ back) (cl s)) s).
Proof.
  intros Hn Hl Ht. destruct temp as [t|].
  - destruct Ht as [x ->]. cbn [app] in *. unfold remove_pub, gets, mbind, M_bind. rewrite Hl.
    rewrite decide_True.
    + unfold mod_cl, modify. rewrite filter_middle by done. done.
    + rewrite fmap_app, elem_of_app. right. left.
  - cbn in Ht. subst temps. cbn in Hl. rewrite <- Hl. unfold mret, M_ret. f_equal.
    destruct s as [c]. unfold set_cl. cbn. f_equal. by destruct c.
Qed.

Lemma node_at_last {A} (front back : list (positive * A)) p x :
  NoDup (front ++ (p, x) :: back).*1 -> node_at p (front ++ (p, x) :: back) = Some x.
Proof.
  unfold node_at. intros Hn. induction front as [|[q y] front IH]; cbn.
  - by rewrite bool_decide_true.
  - cbn in Hn. apply NoDup_cons in Hn as [Hq Hn]. rewrite bool_decide_false; [by apply IH|].
    intros ->. apply Hq. rewrite fmap_app, fmap_cons, elem_of_app. right. left.
Qed.

Lemma set_timer_middle front back p x t :
  NoDup (front ++ (p, x) :: back).*1 ->
  exists x', set_pub_timer p t (front ++ (p, x) :: back) = front ++ (p, x') :: back.
Proof.
  rewrite fmap_app, fmap_cons. intros (Hf & Hd & Hb)%NoDup_app. cbn in Hb.
  apply NoDup_cons in Hb as [Hp _]. eexists. unfold set_pub_timer.
  rewrite fmap_app, fmap_cons. cbn [fst]. rewrite decide_True by done. f_equal; [|f_equal].
  - transitivity (Datatypes.id <$> front); [|by rewrite list_fmap_id]. apply list_fmap_ext.
    intros i [q y] Hi. cbn. rewrite decide_False; [done|]. intros ->. apply (Hd p); [|left].
    apply list_elem_of_fmap. exists (p, y). split; [done|]. by eapply list_elem_of_lookup_2.
  - transitivity (Datatypes.id <$> back); [|by rewrite list_fmap_id]. apply list_fmap_ext.
    intros i [q y] Hi. cbn. rewrite decide_False; [done|]. intros ->. apply Hp.
    apply list_elem_of_fmap. exists (p, y). split; [done|]. by eapply list_elem_of_lookup_2.
Qed.

Lemma watched_app (c : @Client H) n ev : watched c (n :: ev) = watched c [n] ++ watched c ev.
Proof. unfold watched. by destruct (event_handler c). Qed.

Lemma pub_step_trans l1 l2 ev1 ev2 s1 s2 s3 :
  pub_step l1 ev1 s1 s2 -> pub_step l2 ev2 s2 s3 -> pub_step l2 (ev1 ++ ev2) s1 s3.
Proof.
  unfold pub_step. intros H2 H3. rewrite H3, H2. cbn [cl trace heap set_trace set_world set_cl world].
  unfold set_trace, set_world, set_cl. cbn. f_equal. unfold watched.
  change (event_handler (set_list_pub_wait_ack l1 (cl s1))) with (event_handler (cl s1)).
  destruct (event_handler (cl s1)); rewrite <- app_assoc; done.
Qed.
Lemma pub_step_now l s : pub_step l [] s (set_cl (set_list_pub_wait_ack l (cl s)) s).
Proof.
  unfold pub_step, set_trace, set_world, set_cl, watched. cbn. case_match; rewrite app_nil_r; done.
Qed.
Lemma pub_step_world l ev s s' w : pub_step l ev s s' -> pub_step l ev s (set_world w s').
Proof. unfold pub_step. intros ->. done. Qed.

Lemma pub_step_conn l ev s s' : pub_step l ev s s' -> is_connected (cl s') = is_connected (cl s).
Proof. by intros ->. Qed.

Lemma pub_step_list l ev s s' : pub_step l ev s s' -> list_pub_wait_ack (cl s') = l.
Proof. by intros ->. Qed.

Lemma noted_step l n s w s' :
  s' = set_world w (set_cl (set_list_pub_wait_ack l (cl s)) s) -> pub_step l [n] s (noted n s').
Proof.
  intros ->. unfold pub_step, noted, watched.
  change (event_handler (cl (set_world w _))) with (event_handler (cl s)).
  destruct (event_handler (cl s)); [done|]. by rewrite app_nil_r; destruct s.
Qed.

Lemma nodup_skip {A} (front temps back : list (positive * A)) n :
  NoDup ((front ++ [n]) ++ temps ++ back).*1 -> NoDup (front ++ n :: back).*1.
Proof.
  rewrite <- app_assoc. cbn [app]. rewrite !fmap_app, !fmap_cons, !fmap_app. intros (Hf & Hd & Hb)%NoDup_app.
  apply NoDup_app. apply NoDup_cons in Hb as [Hp Hb]. split_and!; [done| |].
  - intros q Hq Hin. apply (Hd q Hq). apply elem_of_cons in Hin as [-> | Hin]; [left|].
    right. apply elem_of_app. by right.
  - apply NoDup_cons. split; [|by apply NoDup_app in Hb as (_ & _ & ?)].
    intros Hin. apply Hp. apply elem_of_app. by right.
Qed.

(** A step of the pass that took [ev] and left the rest to do. *)
Lemma rest_next l back s0 s1 s2 s' ev :
  pub_step (list_pub_wait_ack (cl s2)) ev s0 s2 -> world s2 = world s1 ->
  (let '(kept, ev', w) := pass (bool_decide (is_connected (cl s2) <> 0)) l (world s2) in
   pub_step (reverse kept ++ back) ev' s2 s' /\ world s' = w) ->
  let '(kept, ev', w) := pass (bool_decide (is_connected (cl s0) <> 0)) l (world s1) in
  pub_step (reverse kept ++ back) (ev ++ ev') s0 s' /\ world s' = w.
Proof.
  intros Hs Hw. rewrite (pub_step_conn _ _ _ _ Hs), Hw.
  destruct (pass _ l (world s1)) as [[kept ev'] w]. intros [Hstep Hw']. split; [|done].
  exact (pub_step_trans _ _ _ _ _ _ _ Hs Hstep).
Qed.

(** Which nodes are behind the pass, and what it still does to those before. *)
Lemma pub_sweep_run front temps back temp s :
  NoDup (front ++ temps ++ back).*1 -> list_pub_wait_ack (cl s) = front ++ temps ++ back ->
  as_temp temp temps ->
  twp (pub_sweep react (reverse front.*1) temp) (fun _ s' =>
    let '(kept, ev, w) := pass (bool_decide (is_connected (cl s) <> 0)) (reverse front) (world s) in
    pub_step (reverse kept ++ back) ev s s' /\ world s' = w) s.
Proof.
  revert temps back temp s. induction front as [|[p x] front IH] using rev_ind;
    intros temps back temp s Hn Hl Ht.
  - cbn [reverse fmap list_fmap pub_sweep pass]. eapply twp_run; [by eapply remove_temp|].
    apply twp_ret. split; [apply pub_step_now|done].
  - rewrite fmap_app. cbn [fmap list_fmap fst]. rewrite !reverse_snoc. cbn [pub_sweep pass].
    eapply twp_run; [by eapply remove_temp|]. t_step.
    pose proof (nodup_skip _ _ _ _ Hn) as Hn1.
    rewrite <- !app_assoc in *. cbn [app] in *. set (s1 := set_cl _ s).
    assert (Hn2 : NoDup (front ++ [] ++ (p, x) :: back).*1) by done.
    assert (Hl1 : list_pub_wait_ack (cl s1) = front ++ (p, x) :: back) by done.
    rewrite Hl1, node_at_last by done.
    assert (Hs1 : forall w, pub_step (list_pub_wait_ack (cl (set_world w s1))) [] s (set_world w s1)).
    { intros w. apply pub_step_world. apply pub_step_now. }
    assert (Hkeep : forall w,
      twp (pub_sweep react (reverse front.*1) None) (fun _ s' =>
        let '(kept, ev, w') := pass (bool_decide (is_connected (cl s) <> 0)) (reverse front) w in
        pub_step (reverse ((p, x) :: kept) ++ back) ev s s' /\ world s' = w') (set_world w s1)).
    { intros w. eapply twp_mono; [apply (IH [] ((p, x) :: back) None (set_world w s1) Hn2 Hl1 eq_refl)|].
      intros ? s' Hsw. pose proof (rest_next _ _ s (set_world w s1) _ _ _ (Hs1 w) eq_refl Hsw) as Hr.
      cbn [world set_world] in Hr. destruct (pass _ (reverse front) w) as [[kept ev] w'].
      rewrite reverse_cons, <- app_assoc. exact Hr. }
    assert (Hw1 : set_world (world s1) s1 = s1) by done.
    destruct (pub_node_state x) eqn:Ex.
    + rewrite decide_False by done. change (is_connected (cl s1)) with (is_connected (cl s)).
      destruct (decide (is_connected (cl s) = 0)) as [Hc|Hc].
      { rewrite bool_decide_false in * by (by intros Hx). pose proof (Hkeep (world s1)) as Hk.
        rewrite Hw1 in Hk. change (world s1) with (world s) in Hk.
        destruct (pass false (reverse front) (world s)) as [[kept ev] w']. exact Hk. }
      rewrite (bool_decide_true (is_connected (cl s) <> 0)) in * by done.
      t_step. apply twp_env. intros t w Hw. change (world s1) with (world s) in Hw. rewrite Hw.
      destruct (decide (left_ms (pub_start_time x) t > 0)) as [Hleft|Hleft].
      { pose proof (Hkeep w) as Hk. destruct (pass true (reverse front) w) as [[kept ev] w']. exact Hk. }
      t_step. t_step. apply twp_env. intros t2 w2 Hw2. cbn [world set_world set_cl] in Hw2. rewrite Hw2. cbn [snd]. t_steps.
      eapply twp_run; [apply notify_run|].
      set (s3 := noted _ _).
      destruct (set_timer_middle front back p x (countdown_ms rt_tick_from_millisecond
        (command_timeout_ms (cl s)) t2) Hn1) as [x' Hx'].
      assert (Hs3 : pub_step (front ++ (p, x') :: back)
        [Notified MQTT_EVENT_PUBLISH_TIMEOUT (pub_msg_id x)] s s3).
      { unfold s3. change (list_pub_wait_ack (lock_add ListPub (-1) (cl s1))) with (front ++ (p, x) :: back).
        change (command_timeout_ms (cl s1)) with (command_timeout_ms (cl s)). rewrite Hx'.
        apply (noted_step _ _ s w2). unfold s1, set_world, set_cl. cbn. f_equal. clear.
        destruct (cl s). client_eq. }
      assert (Hw3 : world s3 = w2) by (unfold s3, noted; by case_match).
      pose proof (pub_step_list _ _ _ _ Hs3) as Hl3. rewrite <- Hl3 in Hs3.
      eapply twp_mono; [apply (IH [(p, x')] back (Some p) s3)|].
      * revert Hn1. by rewrite !fmap_app, !fmap_cons.
      * done.
      * by exists x'.
      * intros ? s' Hsw. pose proof (rest_next _ _ s s3 s3 _ _ Hs3 eq_refl Hsw) as Hr.
        rewrite Hw3, (bool_decide_true (is_connected (cl s) <> 0)) in Hr by done.
        destruct (pass true (reverse front) w2) as [[kept ev] w']. exact Hr.
    + rewrite decide_True by done. rewrite <- Hw1.
      eapply twp_mono; [apply (IH [(p, x)] back (Some p) s1 Hn1 Hl1); by exists x|].
      intros ? s' Hsw. exact (rest_next _ _ s s1 s1 _ _ (Hs1 (world s1)) eq_refl Hsw).
Qed.

(** The environment behind the request for an iterator, which only a list that
    is not empty makes, and whether it was granted. *)
Definition searched {A} (l : list A) (w : W) : W := if decide (l = []) then w else (malloc_ok w).2.

(** A pass over the pending publishes: nothing happens if the iterator cannot
    be allocated. *)
Definition pub_pass (s s' : St) : Prop :=
  let l := list_pub_wait_ack (cl s) in
  let w1 := searched l (world s) in
  if (malloc_ok (world s)).1 then
    let '(kept, ev, w) := pass (bool_decide (is_connected (cl s) <> 0)) (reverse l) w1 in
    s' = set_trace (trace s ++ watched (cl s) ev)
           (set_world w (set_cl (set_list_pub_wait_ack (reverse kept) (cl s)) s))
  else s' = set_world w1 s.

Lemma pub_step_world_eq l ev s s' w : pub_step l ev s s' -> world s' = w ->
  s' = set_trace (trace s ++ watched (cl s) ev) (set_world w (set_cl (set_list_pub_wait_ack l (cl s)) s)).
Proof. by intros Hs <-. Qed.

Lemma pub_info_proc_run s : NoDup (list_pub_wait_ack (cl s)).*1 ->
  twp (uiot_mqtt_pub_info_proc react) (fun ret s' => ret = SUCCESS_RET /\ pub_pass s s') s.
Proof.
  intros Hn. unfold uiot_mqtt_pub_info_proc, pub_pass, searched. cbn zeta. t_steps.
  change (list_pub_wait_ack (lock_add ListPub 1 (cl s))) with (list_pub_wait_ack (cl s)).
  case_decide as Hl.
  - apply length_zero_iff_nil in Hl. t_steps. apply twp_ret. split; [done|]. rewrite lock_unlock, Hl.
    rewrite set_cl_twice, set_cl_same. change (reverse []) with (@nil (positive * UIoTPubInfo)). cbn [pass].
    rewrite decide_True by done. destruct (malloc_ok (world s)).1; [|by destruct s].
    unfold watched, set_trace, set_world, set_cl. clear Hn.
    destruct s as [c]; cbn in *. destruct (event_handler c); rewrite app_nil_r; f_equal;
      destruct c; cbn in Hl; by subst.
  - t_step. rewrite decide_False by (intros Hx; apply Hl; by rewrite Hx).
    apply twp_env. intros b w Hb. cbn [world set_cl] in Hb. rewrite Hb. cbn [fst snd].
    destruct b; t_steps.
    + set (s1 := set_world w _).
      eapply twp_use.
      { apply (pub_sweep_run (list_pub_wait_ack (cl s)) [] [] None s1); [by rewrite app_nil_r| |done].
        by rewrite app_nil_r. }
      intros ? s2 Hsw. change (is_connected (cl s1)) with (is_connected (cl s)) in Hsw.
      change (world s1) with w in Hsw. destruct (pass _ _ w) as [[kept ev] w'].
      destruct Hsw as [Hstep Hw2]. rewrite app_nil_r in Hstep. t_step. apply twp_ret.
      split; [done|]. rewrite (pub_step_world_eq _ _ _ _ _ Hstep Hw2).
      unfold s1, watched, set_trace, set_world, set_cl. cbn. f_equal. destruct (cl s). client_eq.
    + apply twp_ret. split; [done|]. unfold set_world, set_cl. cbn. f_equal. destruct (cl s). client_eq.
Qed.

End pending.
