(* ===== verification/MqttAck.v ===== *)
(** The answers to subscribe and unsubscribe requests, and what goes wrong
    when the server answers twice or too late. *)

From S2P Require Import Prelude Defs HalTimer MqttWire MqttTopic MqttState MqttClient MqttSession MqttApi MqttSim MqttInv MqttSend MqttRequest MqttRecv MqttHandle.

Section ack.
Context {W H : Type} `{Env W} `{!EnvLaws W} `{!NetLog W} `{EqDecision H}.
Local Abbreviation St := (@St W H).
Local Abbreviation M := (@M W H).
Context (react : note H -> St -> St).
Implicit Types s : St.

(** Can the iterator that looks for a request be allocated? *)
Definition has_memory (s : St) : bool := (malloc_ok (world s)).1.

(** Entry by entry, an answer to [i]: the entry stays at its address, its state
    becomes invalid if it has the id (and the iterator was there), and all
    else of it stays. *)
Definition pub_answered (found : bool) (i : Z) (n n' : positive * UIoTPubInfo) : Prop :=
  n'.1 = n.1 /\ pub_msg_id n'.2 = pub_msg_id n.2 /\ pub_start_time n'.2 = pub_start_time n.2 /\
  pub_len n'.2 = pub_len n.2 /\ pub_buf n'.2 = pub_buf n.2 /\
  pub_node_state n'.2 =
    if found && bool_decide (pub_msg_id n.2 = i) then MQTT_NODE_STATE_INVALID else pub_node_state n.2.
Definition sub_answered (found : bool) (i : Z) (n n' : positive * UIoTSubInfo H) : Prop :=
  n'.1 = n.1 /\ sub_type n'.2 = sub_type n.2 /\ sub_msg_id n'.2 = sub_msg_id n.2 /\
  sub_start_time n'.2 = sub_start_time n.2 /\ sub_handler n'.2 = sub_handler n.2 /\
  sub_len n'.2 = sub_len n.2 /\ sub_buf n'.2 = sub_buf n.2 /\
  sub_node_state n'.2 =
    if found && bool_decide (sub_msg_id n.2 = i) then MQTT_NODE_STATE_INVALID else sub_node_state n.2.

(** The handle of the request that [i] answers: of several with that id the
    oldest; there is none if no request has the id or without memory. *)
Definition requested (i : Z) (s : St) (o : option (SubTopicHandle H)) : Prop :=
  match o with
  | Some h => has_memory s = true /\ exists older p x newer,
      list_sub_wait_ack (cl s) = older ++ (p, x) :: newer /\ sub_msg_id x = i /\ sub_handler x = h /\
      Forall (fun n => sub_msg_id n.2 <> i) older
  | None => has_memory s = false \/ Forall (fun n => sub_msg_id n.2 <> i) (list_sub_wait_ack (cl s))
  end.

(** The state in which the lists of pending requests are as given. *)
Definition pubs_now (l : list (positive * UIoTPubInfo)) (s : St) : St :=
  set_world (searched (list_pub_wait_ack (cl s)) (world s)) (set_cl (set_list_pub_wait_ack l (cl s)) s).
Definition subs_now (l : list (positive * UIoTSubInfo H)) (s : St) : St :=
  set_world (searched (list_sub_wait_ack (cl s)) (world s)) (set_cl (set_list_sub_wait_ack l (cl s)) s).

Lemma pubs_locked l s :
  set_cl (lock_add ListPub (-1) (set_list_pub_wait_ack l (lock_add ListPub 1 (cl s)))) s =
  set_cl (set_list_pub_wait_ack l (cl s)) s.
Proof. unfold set_cl. f_equal. destruct (cl s). client_eq. Qed.
Lemma pubs_same s : set_cl (set_list_pub_wait_ack (list_pub_wait_ack (cl s)) (cl s)) s = s.
Proof. unfold set_cl. destruct s as [c]. cbn. f_equal. by destruct c. Qed.
Lemma subs_locked l s :
  set_cl (lock_add ListSub (-1) (set_list_sub_wait_ack l (lock_add ListSub 1 (cl s)))) s =
  set_cl (set_list_sub_wait_ack l (cl s)) s.
Proof. unfold set_cl. f_equal. destruct (cl s). client_eq. Qed.
Lemma subs_same s : set_cl (set_list_sub_wait_ack (list_sub_wait_ack (cl s)) (cl s)) s = s.
Proof. unfold set_cl. destruct s as [c]. cbn. f_equal. by destruct c. Qed.
Lemma locked_only x s : set_cl (lock_add x (-1) (lock_add x 1 (cl s))) s = s.
Proof. rewrite lock_unlock. apply set_cl_same. Qed.
Lemma world_only s : set_world (world s) s = s.
Proof. by destruct s. Qed.

Lemma pubs_unanswered i l : Forall2 (pub_answered false i) l l.
Proof. induction l as [|[p x] l IH]; constructor; [|done]. unfold pub_answered. by split_and!. Qed.
Lemma pubs_answered i l : Forall2 (pub_answered true i) l (mark_pub i <$> l).
Proof.
  apply Forall2_fmap_r, Forall_Forall2_diag, Forall_forall. intros [p x] _. unfold pub_answered, mark_pub.
  cbn. case_decide; [rewrite bool_decide_true by done|rewrite bool_decide_false by done]; by split_and!.
Qed.
Lemma subs_unanswered i (l : list (positive * UIoTSubInfo H)) : Forall2 (sub_answered false i) l l.
Proof. induction l as [|[p x] l IH]; constructor; [|done]. unfold sub_answered. by split_and!. Qed.
Lemma subs_answered i (l : list (positive * UIoTSubInfo H)) : Forall2 (sub_answered true i) l (mark_sub i <$> l).
Proof.
  apply Forall2_fmap_r, Forall_Forall2_diag, Forall_forall. intros [p x] _. unfold sub_answered, mark_sub.
  cbn. case_decide; [rewrite bool_decide_true by done|rewrite bool_decide_false by done]; by split_and!.
Qed.

Lemma mask_pub_run i s :
  exists l, Forall2 (pub_answered (has_memory s) i) (list_pub_wait_ack (cl s)) l /\
    _mask_pubInfo_from i s = Ret SUCCESS_RET (pubs_now l s).
Proof.
  unfold _mask_pubInfo_from, has_memory, pubs_now, searched, HAL_MutexLock, HAL_MutexUnlock, mod_cl, modify,
    gets, env, malloc, mbind, M_bind, mret, M_ret, env. cbn [cl set_cl world].
  change (list_pub_wait_ack (lock_add ListPub 1 (cl s))) with (list_pub_wait_ack (cl s)).
  destruct (decide (list_pub_wait_ack (cl s) = [])) as [Hl|Hl].
  - exists []. split; [by rewrite Hl|]. f_equal. rewrite set_cl_twice. cbn [cl set_cl]. rewrite locked_only, <- Hl, pubs_same.
    by rewrite world_only.
  - change (world (set_cl (lock_add ListPub 1 (cl s)) s)) with (world s).
    destruct (malloc_ok (world s)) as [b w]. cbn [fst snd]. destruct b.
    + exists (mark_pub i <$> list_pub_wait_ack (cl s)). split; [apply pubs_answered|]. f_equal.
      exact (pubs_locked _ (set_world w s)).
    + exists (list_pub_wait_ack (cl s)). split; [apply pubs_unanswered|]. f_equal.
      rewrite pubs_same. exact (locked_only ListPub (set_world w s)).
Qed.

Lemma found_handler_spec i (l : list (positive * UIoTSubInfo H)) h0 :
  (Forall (fun n => sub_msg_id n.2 <> i) l /\ found_handler i l h0 = h0) \/
  exists older p x newer, l = older ++ (p, x) :: newer /\ sub_msg_id x = i /\
    Forall (fun n => sub_msg_id n.2 <> i) older /\ found_handler i l h0 = Some (sub_handler x).
Proof.
  unfold found_handler. induction l as [|[p x] l IH]; [by left|].
  rewrite reverse_cons, foldl_app. cbn [foldl snd].
  destruct (decide (sub_msg_id x = i)) as [Hx|Hx].
  - right. exists [], p, x, l. split_and!; done || constructor.
  - destruct IH as [(Ha & ->) | (older & q & y & newer & -> & Hy & Hall & ->)]; [left|right].
    + split; [by constructor|done].
    + exists ((p, x) :: older), q, y, newer. split_and!; [done|done|by constructor|done].
Qed.

Lemma mask_sub_run i h0 s :
  exists o l, requested i s o /\ Forall2 (sub_answered (has_memory s) i) (list_sub_wait_ack (cl s)) l /\
    _mask_sub_info_from i h0 s = Ret (match o with Some h => Some h | None => h0 end) (subs_now l s).
Proof.
  unfold _mask_sub_info_from, requested, has_memory, subs_now, searched, HAL_MutexLock, HAL_MutexUnlock, mod_cl, modify,
    gets, env, malloc, mbind, M_bind, mret, M_ret, env. cbn [cl set_cl world].
  change (list_sub_wait_ack (lock_add ListSub 1 (cl s))) with (list_sub_wait_ack (cl s)).
  destruct (decide (length (list_sub_wait_ack (cl s)) = 0%nat)) as [Hl|Hl].
  - apply length_zero_iff_nil in Hl. exists None, []. split_and!; [right; by rewrite Hl|by rewrite Hl|].
    rewrite decide_True by done. f_equal. rewrite set_cl_twice. cbn [cl set_cl]. by rewrite locked_only, <- Hl, subs_same, world_only.
  - rewrite decide_False by (intros Hx; apply Hl; by rewrite Hx).
    change (world (set_cl (lock_add ListSub 1 (cl s)) s)) with (world s).
    destruct (malloc_ok (world s)) as [b w]. cbn [fst snd]. destruct b.
    + pose proof (subs_answered i (list_sub_wait_ack (cl s))) as Hf.
      pose proof (subs_locked (mark_sub i <$> list_sub_wait_ack (cl s)) (set_world w s)) as Hs.
      destruct (found_handler_spec i (list_sub_wait_ack (cl s)) h0)
        as [(Ha & Hh) | (older & p & x & newer & Hll & Hx & Ha & Hh)].
      * exists None, (mark_sub i <$> list_sub_wait_ack (cl s)). split_and!; [by right|done|].
        rewrite Hh. f_equal. exact Hs.
      * exists (Some (sub_handler x)), (mark_sub i <$> list_sub_wait_ack (cl s)).
        split_and!; [done|by exists older, p, x, newer|done|]. rewrite Hh. f_equal. exact Hs.
    + exists None, (list_sub_wait_ack (cl s)). split_and!; [by left|apply subs_unanswered|]. f_equal.
      rewrite subs_same. exact (locked_only ListSub (set_world w s)).
Qed.

(** The same filter and the same function. *)
Definition same_handle (hp : gmap positive bytes) (h1 h2 : SubTopicHandle H) : bool :=
  bool_decide (topic_filter h1 ≫= (hp !!.) = topic_filter h2 ≫= (hp !!.)) &&
  bool_decide (message_handler h1 = message_handler h2).

(** The scan of the handles: a duplicate, or the first free slot. *)
Fixpoint scan (hp : gmap positive bytes) (hs : list (SubTopicHandle H)) (i : Z)
    (h0 : SubTopicHandle H) (i_free : Z) : bool * Z :=
  match hs with
  | [] => (false, i_free)
  | h :: hs =>
      if decide (topic_filter h <> None) then
        if same_handle hp h h0 then (true, i_free) else scan hp hs (i + 1) h0 i_free
      else scan hp hs (i + 1) h0 (if decide (i_free = -1) then i else i_free)
  end.

Lemma identical_run h1 h2 p1 p2 str1 str2 s :
  topic_filter h1 = Some p1 -> topic_filter h2 = Some p2 ->
  heap s !! p1 = Some str1 -> heap s !! p2 = Some str2 ->
  _check_handle_is_identical h1 h2 s = Ret (same_handle (heap s) h1 h2) s.
Proof.
  intros Hp1 Hp2 H1 H2. unfold _check_handle_is_identical, same_handle. rewrite Hp1, Hp2.
  cbn [mbind option_bind]. unfold mbind, M_bind, string_at. rewrite H1, H2.
  destruct (decide (zlen str1 <> zlen str2)) as [Hl|Hl].
  { rewrite bool_decide_false; [done|]. congruence. }
  destruct (decide (str1 <> str2)) as [Hs|Hs].
  { rewrite bool_decide_false; [done|]. congruence. }
  apply dec_stable in Hs. subst str2. rewrite (bool_decide_true (Some str1 = Some str1)) by done.
  destruct (decide (message_handler h1 <> message_handler h2)) as [Hm|Hm].
  - by rewrite bool_decide_false.
  - apply dec_stable in Hm. by rewrite bool_decide_true.
Qed.

Lemma dup_loop_run hs i h0 p0 str0 i_free s :
  topic_filter h0 = Some p0 -> heap s !! p0 = Some str0 -> Forall (allocated (heap s)) hs ->
  dup_loop hs i h0 i_free s =
  let r := scan (heap s) hs i h0 i_free in
  Ret r (if r.1 : bool then set_heap (delete p0 (heap s)) s else s).
Proof.
  intros Hp0 Hstr0 Ha. revert i i_free. induction Ha as [|h hs Hh Ha IH]; intros i i_free; [done|].
  cbn [dup_loop scan]. unfold allocated in Hh. destruct (topic_filter h) as [p|] eqn:Ep.
  - rewrite !decide_True by done. destruct Hh as [str Hstr]. unfold mbind, M_bind.
    rewrite (identical_run h h0 p p0 str str0) by done.
    destruct (same_handle (heap s) h h0); [|apply IH].
    rewrite Hp0, (free_run s p0 str0) by done. done.
  - rewrite !decide_False by (intros Hx; by apply Hx). apply IH.
Qed.

(** What the scan finds. *)
Lemma scan_spec hp hs h0 : forall i i_free, 0 <= i -> i_free = -1 \/ 0 <= i_free < i ->
  let '(dup, f) := scan hp hs i h0 i_free in
  dup = existsb (fun h => bool_decide (topic_filter h <> None) && same_handle hp h h0) hs /\
  (dup = false -> if decide (i_free = -1)
     then (f = -1 /\ Forall (fun h => topic_filter h <> None) hs) \/
          (exists k h, f = i + Z.of_nat k /\ hs !! k = Some h /\ topic_filter h = None /\
             Forall (fun h => topic_filter h <> None) (take k hs))
     else f = i_free).
Proof.
  induction hs as [|h hs IH]; intros i i_free Hi Hf; cbn [scan existsb].
  - split; [done|]. intros _. case_decide; [by left|done].
  - destruct (topic_filter h) as [p|] eqn:Ep.
    + rewrite (decide_True (P := Some p <> None)) by done. rewrite bool_decide_true by done.
      destruct (same_handle hp h h0); [by split|]. cbn [andb orb].
      specialize (IH (i + 1) i_free ltac:(lia) ltac:(lia)).
      destruct (scan hp hs (i + 1) h0 i_free) as [dup f]. destruct IH as [-> IH]. split; [done|].
      intros Hd. specialize (IH Hd). case_decide; [|done].
      destruct IH as [(-> & IH) | (k & h' & -> & Hk & Ht & Hall)].
      * left. split; [done|]. by constructor; [rewrite Ep|].
      * right. exists (S k), h'. split_and!; [lia|done|done|]. cbn. by constructor; [rewrite Ep|].
    + rewrite (decide_False (P := None <> None)) by auto.
      rewrite (bool_decide_false (None <> None)) by auto. cbn [andb orb].
      specialize (IH (i + 1) (if decide (i_free = -1) then i else i_free) ltac:(lia)
        ltac:(case_decide; lia)).
      destruct (scan hp hs (i + 1) h0 _) as [dup f]. destruct IH as [-> IH]. split; [done|].
      intros Hd. specialize (IH Hd). destruct (decide (i_free = -1)) as [->|Hne].
      * rewrite decide_False in IH by lia. right. exists 0%nat, h. split_and!; [lia|done|done|]. by cbn.
      * by rewrite decide_False in IH by done.
Qed.

(** Behind an answer to a subscription: the duplicate, or the first slot that
    is free. *)
Lemma scan_slots hp hs h :
  let r := scan hp hs 0 h (-1) in
  r.1 = existsb (fun h' => bool_decide (topic_filter h' <> None) && same_handle hp h' h) hs /\
  (r.1 = false -> match list_find (fun h' => topic_filter h' = None) hs with
    | None => r.2 = -1
    | Some (k, _) => r.2 = Z.of_nat k
    end).
Proof.
  pose proof (scan_spec hp hs h 0 (-1) ltac:(lia) ltac:(lia)) as Hs. cbn zeta.
  destruct (scan hp hs 0 h (-1)) as [dup f]. destruct Hs as [-> Hs]. cbn [fst snd]. split; [done|].
  intros Hd. specialize (Hs Hd). rewrite decide_True in Hs by done.
  destruct Hs as [(-> & Hall) | (k & h' & -> & Hk & Hn & Hall)].
  - destruct (list_find _ hs) as [[k h']|] eqn:Ef; [|done]. apply list_find_Some in Ef as (Hk & Hn & _).
    rewrite Forall_lookup in Hall. by destruct (Hall k h' Hk).
  - assert (list_find (fun h' => topic_filter h' = None) hs = Some (k, h')) as ->; [|lia].
    apply list_find_Some. split_and!; [done|done|]. intros j y Hj Hlt.
    rewrite Forall_lookup in Hall. apply (Hall j). by rewrite lookup_take_lt.
Qed.

Definition no_handle : SubTopicHandle H := mkHandle None None 0 0.

(** What an answer to the subscription [i] does, whose request's handle is [o]:
    [codes] are the return codes, [s] the state before, [s1] the state in
    which the request is done.  A refusal is told while the client's mutex is
    held. *)
Definition suback_result (i : Z) (codes : bytes) (o : option (SubTopicHandle H)) (s s1 : St) : Z * St :=
  match o with
  | Some (mkHandle (Some p) _ _ _ as h) =>
      if existsb (Z.eqb 0x80) codes then
        let s2 := told react (Notified MQTT_EVENT_SUBSCRIBE_NACK i) (set_cl (lock_add Generic 1 (cl s1)) s1) in
        (ERR_MQTT_SUB_FAILED, set_cl (lock_add Generic (-1) (cl s2)) (set_heap (delete p (heap s2)) s2))
      else if existsb (fun h' => bool_decide (topic_filter h' <> None) && same_handle (heap s) h' h)
                (sub_handles (cl s)) then
        (SUCCESS_RET, told react (Notified MQTT_EVENT_SUBSCRIBE_SUCCESS i) (set_heap (delete p (heap s)) s1))
      else
        match list_find (fun h' => topic_filter h' = None) (sub_handles (cl s)) with
        | None => (FAILURE_RET, s1)
        | Some (k, _) =>
            (SUCCESS_RET, told react (Notified MQTT_EVENT_SUBSCRIBE_SUCCESS i)
               (set_cl (set_sub_handles (<[k := h]> (sub_handles (cl s))) (cl s1)) s1))
        end
  | _ => (ERR_MQTT_SUB_FAILED, s1)
  end.

Lemma generic_twice s : set_cl (lock_add Generic (-1) (cl (set_cl (lock_add Generic 1 (cl s)) s)))
  (set_cl (lock_add Generic 1 (cl s)) s) = s.
Proof. cbn [cl set_cl]. by rewrite lock_unlock, set_cl_twice, set_cl_same. Qed.

Lemma handle_suback_run i count granted s :
  (forall n s p, is_Some (heap s !! p) -> is_Some (heap (react n s) !! p)) ->
  deserialize_suback_packet 1 [QOS0; QOS0; QOS0] (read_buf (cl s)) (read_buf_size (cl s)) =
    Ok (i, count, granted) ->
  Forall (allocated (heap s)) (sub_handles (cl s)) ->
  (forall h, requested i s (Some h) -> allocated (heap s) h) ->
  exists o l, requested i s o /\ Forall2 (sub_answered (has_memory s) i) (list_sub_wait_ack (cl s)) l /\
    twp (_handle_suback_packet react) (fun ret s' =>
      (ret, s') = suback_result i (u8 <$> take (Z.to_nat count) granted) o s (subs_now l s)) s.
Proof.
  intros Hreact Hd Ha Hh. set (s0 := set_cl (lock_add Generic 1 (cl s)) s).
  destruct (mask_sub_run i (Some no_handle) s0) as (o & l & Ho & Hl & Hrun).
  exists o, l. split; [exact Ho|]. split; [exact Hl|]. specialize (Hh (default no_handle o)).
  unfold _handle_suback_packet. t_step. rewrite Hd.
  apply twp_wire; [done|intros a [= <-]|done]. cbn zeta. t_step.
  change (mkHandle None None 0 0) with no_handle. eapply twp_run; [exact Hrun|]. clear Hrun Hl.
  set (s1 := subs_now l s).
  assert (Hs1 : subs_now l s0 = set_cl (lock_add Generic 1 (cl s1)) s1).
  { unfold s0, s1, subs_now, set_cl, set_world. cbn. f_equal. }
  assert (Hend : set_cl (lock_add Generic (-1) (cl (subs_now l s0))) (subs_now l s0) = s1) by (by rewrite Hs1, generic_twice).
  assert (Hheap : heap (subs_now l s0) = heap s) by done.
  assert (Hhs : sub_handles (cl (subs_now l s0)) = sub_handles (cl s)) by by rewrite Hs1.
  destruct o as [h|]; cbn [suback_result].
  2: { rewrite decide_True by done. t_step. apply twp_ret. by rewrite Hend. }
  specialize (Hh Ho). cbn [default from_option] in Hh. unfold allocated, id in Hh.
  destruct h as [[p|] fn d q]; cbn [topic_filter] in *.
  2: { rewrite decide_True by done. t_step. apply twp_ret. by rewrite Hend. }
  set (h := mkHandle (Some p) fn d q). rewrite decide_False by discriminate. destruct Hh as [str Hstr].
  destruct (existsb (Z.eqb 128) _).
  - eapply twp_run; [by apply told_run|]. rewrite Hs1. set (s2 := told react _ _).
    assert (is_Some (heap s2 !! p)) as [str2 Hs2].
    { unfold s2, told. case_match; [apply Hreact|]; by exists str. }
    eapply twp_run; [apply (free_run _ p str2), Hs2|]. t_step. by apply twp_ret.
  - t_step. rewrite Hhs.
    eapply twp_run; [apply (dup_loop_run _ 0 h p str); by rewrite ?Hheap|]. rewrite Hheap.
    pose proof (scan_slots (heap s) (sub_handles (cl s)) h) as Hscan. cbn zeta in *.
    destruct (scan (heap s) (sub_handles (cl s)) 0 h (-1)) as [dup f]. cbn [fst snd] in *.
    destruct Hscan as [<- Hf]. destruct dup.
    + rewrite decide_False by naive_solver. t_steps.
      eapply twp_run; [by apply told_run|]. apply twp_ret. do 2 f_equal.
      transitivity (set_heap (delete p (heap s)) (set_cl (lock_add Generic (-1) (cl (subs_now l s0))) (subs_now l s0))); [done|].
      by rewrite Hend.
    + specialize (Hf eq_refl). destruct (list_find _ _) as [[k h']|].
      * rewrite decide_False by lia. t_steps. eapply twp_run; [by apply told_run|]. apply twp_ret.
        rewrite Hf, Nat2Z.id. do 2 f_equal. rewrite Hs1. unfold set_cl. cbn. f_equal. destruct (cl s). client_eq.
      * rewrite decide_True by done. t_step. apply twp_ret. by rewrite Hend.
Qed.

(** The answer to an unsubscription: the request's copy of the filter is freed
    and the application is told, while the client's mutex is held.  If no
    pending request has the id, the handler is read uninitialised. *)
Lemma handle_unsuback_run i s :
  deserialize_unsuback_packet (read_buf (cl s)) (read_buf_size (cl s)) = Ok i ->
  exists o l, requested i s o /\ Forall2 (sub_answered (has_memory s) i) (list_sub_wait_ack (cl s)) l /\
    match o with
    | None => _handle_unsuback_packet react s = Ub
    | Some h => allocated (heap s) h ->
        let s1 := subs_now l s in
        let s2 := told react (Notified MQTT_EVENT_UNSUBSCRIBE_SUCCESS i)
          (set_cl (lock_add Generic 1 (cl s1))
            (match topic_filter h with Some p => set_heap (delete p (heap s)) s1 | None => s1 end)) in
        _handle_unsuback_packet react s = Ret SUCCESS_RET (set_cl (lock_add Generic (-1) (cl s2)) s2)
    end.
Proof.
  intros Hd. destruct (mask_sub_run i None s) as (o & l & Ho & Hl & Hrun). exists o, l. split; [done|].
  split; [done|]. unfold _handle_unsuback_packet, gets, mbind, M_bind. rewrite Hd. cbn [wire].
  change (wire (Ok i) s) with (@Ret W H (Z + Z) (inl i) s). cbn beta iota. rewrite Hrun.
  destruct o as [h|]; [|done]. cbn beta iota. unfold HAL_MutexLock, mod_cl, modify. cbn beta iota.
  intros Ha. unfold allocated in Ha. cbn zeta. destruct (topic_filter h) as [p|].
  - destruct Ha as [str Hstr]. rewrite (free_run _ p str) by exact Hstr. rewrite told_run. done.
  - unfold HAL_Free. rewrite told_run. done.
Qed.

(** A PUBACK; a packet that is none changes nothing. *)
Lemma handle_puback_run s :
  match deserialize_ack_packet (read_buf (cl s)) (read_buf_size (cl s)) with
  | Ok (_, _, i) => exists l, Forall2 (pub_answered (has_memory s) i) (list_pub_wait_ack (cl s)) l /\
      _handle_puback_packet react s =
        Ret SUCCESS_RET (told react (Notified MQTT_EVENT_PUBLISH_SUCCESS i) (pubs_now l s))
  | Err e => _handle_puback_packet react s = Ret e s
  | Oob => _handle_puback_packet react s = Ub
  end.
Proof.
  unfold _handle_puback_packet, gets, mbind, M_bind.
  destruct (deserialize_ack_packet (read_buf (cl s)) (read_buf_size (cl s))) as [[[t d] i]|e|]; [|done|done].
  destruct (mask_pub_run i s) as (l & Hl & Hrun). exists l. split; [done|].
  change (wire (Ok (t, d, i)) s) with (@Ret W H (Z * Z * Z + Z) (inl (t, d, i)) s).
  cbn beta iota. by rewrite Hrun, told_run.
Qed.

Lemma handle_suback_ends i count granted s :
  (forall n s p, is_Some (heap s !! p) -> is_Some (heap (react n s) !! p)) ->
  deserialize_suback_packet 1 [QOS0; QOS0; QOS0] (read_buf (cl s)) (read_buf_size (cl s)) =
    Ok (i, count, granted) ->
  Forall (allocated (heap s)) (sub_handles (cl s)) ->
  (forall h, requested i s (Some h) -> allocated (heap s) h) ->
  exists o l ret s', requested i s o /\ Forall2 (sub_answered (has_memory s) i) (list_sub_wait_ack (cl s)) l /\
    _handle_suback_packet react s = Ret ret s' /\
    (ret, s') = suback_result i (u8 <$> take (Z.to_nat count) granted) o s (subs_now l s).
Proof.
  intros Hr Hd Ha Hh. destruct (handle_suback_run i count granted s Hr Hd Ha Hh) as (o & l & Ho & Hl & Hrun).
  destruct (twp_elim _ _ _ Hrun) as (ret & s' & H1 & H2). by exists o, l, ret, s'.
Qed.

End ack.

(* ================================================================== *)
(** * Properties *)

Section properties.
Context {W H : Type} `{Env W} `{!EnvLaws W} `{!NetLog W} `{EqDecision H}.

(** C7: whatever the network does, reading a packet returns, stays inside the
    receive buffer, and changes nothing but that buffer.  If it returns a
    packet type, the bytes taken from the connection were a first byte of that
    type, a complete remaining-length field and at most that many bytes, which
    now lie at the start of the buffer behind the canonical length field, and
    the whole packet fits the buffer. *)
Theorem read_packet_correct timer (s : @St W H) :
  Inv (cl s) -> exists r s', _read_mqtt_packet timer s = Ret r s' /\ read_outcome s r s'.
Proof. intros [] . apply twp_elim, _read_mqtt_packet_total. by split_and!. Qed.

(** A message goes to exactly one receiver: the function of the first
    handle that has one and whose filter takes the topic, else the event
    handler; it is given the topic, its length and the message unchanged; no
    lock is held during the call nor behind it. *)
Lemma deliver_message_ends app name rest msg (s : @St W H) :
  length (sub_handles (cl s)) = MAX_SUB_TOPICS -> name <> [] -> Forall cchar name ->
  Forall (allocated (heap s)) (sub_handles (cl s)) ->
  _deliver_message app (name ++ 0 :: rest) (zlen name) msg s =
    Ret SUCCESS_RET (delivered app name (name ++ 0 :: rest) msg s).
Proof.
  intros Hl Hn Hc Ha.
  by destruct (twp_elim _ _ _ (deliver_message_run app name rest msg s Hl Hn Hc Ha)) as (r & s' & Hr & -> & ->).
Qed.

(** C5: a PUBLISH in the receive buffer, with a topic of 1 to 127 characters,
    reaches its receiver with its own topic, QoS, flags, id, and the extent of
    its payload; a QoS 1 message is acknowledged with PUBACK and a QoS 2 one
    with PUBREC, under its id, behind the delivery; with the repeat filter on,
    a message whose id is in the ring is acknowledged but not delivered again. *)
Theorem received_publish_correct app fuel check_repeat dup q ret i name data rest timer (s : @St W H) :
  (forall n L s, J L s -> J L (app n s)) ->
  pub_received dup q ret i name data ->
  read_buf (cl s) = Spec.publish dup q ret i name data ++ rest ->
  Inv (cl s) -> Forall (allocated (heap s)) (sub_handles (cl s)) ->
  UIOT_MQTT_TX_BUF_LEN <= Z.of_nat fuel ->
  exists r s', _handle_publish_packet app fuel check_repeat timer s = Ret r s' /\
    let s1 := taken app check_repeat dup q ret i name data s in
    if decide (q = 0) then r = SUCCESS_RET /\ s' = s1
    else acked (Spec.ack (if decide (q = 1) then PUBACK else PUBREC) 0 0 i) s1 r s'.
Proof. intros. by apply twp_elim, (handle_publish_run app fuel) with (rest := rest). Qed.

(** C10: a pass over the pending publishes, with a callback that only takes note
    (it calls nothing of the client): the nodes are taken newest first.  One
    that was acknowledged goes without a word; of a connected client each
    other one reads the clock, stays if its time is not up, and goes with one
    timeout event if it is; without a connection nothing times out.  The list
    that is left, the events, the calls to the environment and the rest of the
    state are exactly those; without memory for the iterator nothing happens. *)
Theorem pub_info_proc_correct react (s : @St W H) :
  (forall n (s : @St W H), react n s = s) -> Inv (cl s) ->
  exists s', uiot_mqtt_pub_info_proc react s = Ret SUCCESS_RET s' /\ pub_pass s s'.
Proof.
  intros Hr Hi.
  destruct (twp_elim _ _ _ (pub_info_proc_run react Hr s (inv_pub_nodup _ Hi))) as (ret & s' & Hrun & -> & Hp).
  by exists s'.
Qed.

(** C9: the answers to requests, whatever the event callback does.  Of the
    pending requests of a list exactly those with the id become invalid, all
    else of them stays (without memory for the iterator all stay as they are).
    (1) A PUBACK marks so the publishes, and success is reported once.  (2) To
    a subscription: without a pending request of its id it is an error.  A
    refusal (return code 0x80) is reported, fails, and frees the request's
    copy of the filter.  An acceptance is reported and the handle of the
    oldest request with the id goes into the first free slot, or, if a handle
    with the same filter and function is there already, its filter is freed;
    with ten handles taken it fails silently.  (The filters of the handles
    and of the request are allocated, and the callback frees none.)  (3) To an
    unsubscription: it frees the request's copy of the filter and is reported;
    but one without a pending request of its id (it comes after the request
    timed out, or twice, or there is no memory) makes the client use an
    uninitialised handler: undefined behaviour.  A packet that cannot be
    decoded changes nothing. *)
Theorem acks_correct react i (s : @St W H) :
  match deserialize_ack_packet (read_buf (cl s)) (read_buf_size (cl s)) with
  | Ok (_, _, i) => exists l, Forall2 (pub_answered (has_memory s) i) (list_pub_wait_ack (cl s)) l /\
      _handle_puback_packet react s =
        Ret SUCCESS_RET (told react (Notified MQTT_EVENT_PUBLISH_SUCCESS i) (pubs_now l s))
  | Err e => _handle_puback_packet react s = Ret e s
  | Oob => _handle_puback_packet react s = Ub
  end /\
  (forall count granted,
    (forall n s p, is_Some (heap s !! p) -> is_Some (heap (react n s) !! p)) ->
    deserialize_suback_packet 1 [QOS0; QOS0; QOS0] (read_buf (cl s)) (read_buf_size (cl s)) = Ok (i, count, granted) ->
    Forall (allocated (heap s)) (sub_handles (cl s)) ->
    (forall h, requested i s (Some h) -> allocated (heap s) h) ->
    exists o l ret s', requested i s o /\ Forall2 (sub_answered (has_memory s) i) (list_sub_wait_ack (cl s)) l /\
      _handle_suback_packet react s = Ret ret s' /\
      (ret, s') = suback_result react i (u8 <$> take (Z.to_nat count) granted) o s (subs_now l s)) /\
  (forall e, deserialize_suback_packet 1 [QOS0; QOS0; QOS0] (read_buf (cl s)) (read_buf_size (cl s)) = Err e ->
    _handle_suback_packet react s = Ret e s) /\
  (deserialize_unsuback_packet (read_buf (cl s)) (read_buf_size (cl s)) = Ok i ->
    exists o l, requested i s o /\ Forall2 (sub_answered (has_memory s) i) (list_sub_wait_ack (cl s)) l /\
    match o with
    | None => _handle_unsuback_packet react s = Ub
    | Some h => allocated (heap s) h ->
        let s1 := subs_now l s in
        let s2 := told react (Notified MQTT_EVENT_UNSUBSCRIBE_SUCCESS i)
          (set_cl (lock_add Generic 1 (cl s1))
            (match topic_filter h with Some p => set_heap (delete p (heap s)) s1 | None => s1 end)) in
        _handle_unsuback_packet react s = Ret SUCCESS_RET (set_cl (lock_add Generic (-1) (cl s2)) s2)
    end) /\
  (forall e, deserialize_unsuback_packet (read_buf (cl s)) (read_buf_size (cl s)) = Err e ->
    _handle_unsuback_packet react s = Ret e s).
Proof.
  split_and!.
  - apply handle_puback_run.
  - intros. by apply handle_suback_ends.
  - intros e He. unfold _handle_suback_packet, gets, mbind, M_bind. by rewrite He.
  - apply handle_unsuback_run.
  - intros e He. unfold _handle_unsuback_packet, gets, mbind, M_bind. by rewrite He.
Qed.

End properties.

(* ================================================================== *)
(** * Witnesses and counterexamples *)

(** A client whose receive buffer starts with [pkt]. *)
Definition rx (pkt : bytes) (s : @St World nat) : @St World nat :=
  set_cl (set_read_buf (pkt ++ replicate (2048 - length pkt) 0) (cl s)) s.
Definition inbox_of (l : bytes) : @St World nat :=
  set_world (set_inbox l world0) state0.

Lemma rx_inv pkt s : zlen pkt <= 2048 -> Forall byte pkt -> Inv (cl s) -> Inv (cl (rx pkt s)).
Proof.
  intros Hl Hb. unfold rx. inv_mod.
  - rewrite length_app, length_replicate. unfold UIOT_MQTT_RX_BUF_LEN. lia.
  - apply Forall_app. split; [done|]. apply Forall_replicate. by split.
Qed.

Lemma read_packet_correct_witness :
  exists s', _read_mqtt_packet 5000 (inbox_of (Spec.ack PUBACK 0 0 7)) = Ret (inl PUBACK) s' /\
    read_outcome (inbox_of (Spec.ack PUBACK 0 0 7)) (inl PUBACK) s'.
Proof.
  destruct (read_packet_correct 5000 (inbox_of (Spec.ack PUBACK 0 0 7))) as (r & s' & Hr & Ho).
  - exact client0_inv.
  - exists s'. assert (r = inl PUBACK) as ->.
    { assert (Hx : match _read_mqtt_packet 5000 (inbox_of (Spec.ack PUBACK 0 0 7)) with
        | Ret r _ => r = inl PUBACK | _ => False end) by (vm_compute; reflexivity).
      rewrite Hr in Hx. exact Hx. }
    split; [exact Hr|exact Ho].
Defined.

(** A packet that announces ten bytes of which three arrive is accepted: the
    reader takes any positive number of bytes for the whole packet. *)
Theorem short_read_accepted :
  exists s', _read_mqtt_packet 5000 (inbox_of [48; 10; 0; 1; 97]) = Ret (inl PUBLISH) s' /\
    inbox (world s') = [].
Proof. eexists. vm_compute. split; reflexivity. Qed.

Definition msg0 : MQTTMessage := mkMessage 0 0 0 None [] 0 10 5.

Lemma allocated_ab : Forall (allocated (heap state_ab)) (sub_handles (cl state_ab)).
Proof. repeat constructor. by eexists. Qed.

Example deliver_message_ab :
  _deliver_message idle (topic_ab ++ [0]) (zlen topic_ab) msg0 state_ab =
    Ret SUCCESS_RET (set_trace [Delivered 7%nat (addressed (topic_ab ++ [0]) 3 msg0) 0] state_ab).
Proof.
  refine (deliver_message_ends idle topic_ab [] msg0 state_ab _ _ _ _).
  - reflexivity.
  - discriminate.
  - repeat constructor.
  - exact allocated_ab.
Defined.

Definition state_publish : @St World nat := rx (Spec.publish 0 1 0 9 topic_ab hello) state_ab.

Lemma state_publish_inv : Inv (cl state_publish).
Proof.
  apply rx_inv; [discriminate|by_eval|]. apply inv_sub_handles; [done|exact client0_inv].
Qed.

Lemma idle_ok n L s : J L s -> J L (idle n s).
Proof. done. Qed.

Lemma received_publish_correct_witness :
  exists r s', _handle_publish_packet idle fuel0 false 5000 state_publish = Ret r s' /\
    acked (Spec.ack PUBACK 0 0 9) (taken idle false 0 1 0 9 topic_ab hello state_publish) r s'.
Proof.
  refine (received_publish_correct idle fuel0 false 0 1 0 9 topic_ab hello
    (replicate 2034 0) 5000 state_publish _ _ _ _ _ _).
  - exact idle_ok.
  - constructor; by_eval || (repeat constructor).
  - reflexivity.
  - exact state_publish_inv.
  - exact allocated_ab.
  - exact fuel0_ok.
Defined.

Definition pending0 : list (positive * UIoTPubInfo) :=
  [(1%positive, mkPubInfo 5000 MQTT_NODE_STATE_NORMAL 2 0 []);
   (2%positive, mkPubInfo 5000 MQTT_NODE_STATE_INVALID 3 0 []);
   (3%positive, mkPubInfo 500 MQTT_NODE_STATE_NORMAL 4 0 [])].
Definition state_pending : @St World nat :=
  set_cl (set_list_pub_wait_ack pending0 client0) state0.

Lemma state_pending_inv : Inv (cl state_pending).
Proof.
  unfold state_pending. cbn [cl set_cl]. pose proof client0_inv as Hc. revert Hc.
  generalize client0. intros c Hc. revert Hc. inv_mod; by_eval.
Qed.

Lemma pub_info_proc_correct_witness :
  exists s', uiot_mqtt_pub_info_proc idle state_pending = Ret SUCCESS_RET s' /\ pub_pass state_pending s' /\
    (list_pub_wait_ack (cl s')).*1 = [1%positive] /\ trace s' = [Notified MQTT_EVENT_PUBLISH_TIMEOUT 4].
Proof.
  destruct (pub_info_proc_correct idle state_pending) as (s' & Hrun & Hp).
  - done.
  - exact state_pending_inv.
  - exists s'. split; [exact Hrun|]. split; [exact Hp|]. revert Hp. unfold pub_pass.
    vm_compute. intros ->. vm_compute. by split.
Defined.

(** A subscription of "a/b" under id 2 waits for its answer, which is in the
    receive buffer. *)
Definition request_ab : UIoTSubInfo nat :=
  mkSubInfo SUBSCRIBE 2 5000 MQTT_NODE_STATE_NORMAL handle_ab 0 [].
Definition state_suback : @St World nat :=
  rx [144; 3; 0; 2; 1] (set_heap {[1%positive := topic_ab]}
    (set_cl (set_list_sub_wait_ack [(1%positive, request_ab)] client0) state0)).

Definition state_unsuback : @St World nat :=
  rx [176; 2; 0; 2] (set_heap {[1%positive := topic_ab]}
    (set_cl (set_list_sub_wait_ack [(1%positive, request_ab)] client0) state0)).

Lemma acks_correct_witness :
  (exists l, Forall2 (pub_answered true 9) [] l /\
    _handle_puback_packet idle (rx (Spec.ack PUBACK 0 0 9) state0) =
      Ret SUCCESS_RET (told idle (Notified MQTT_EVENT_PUBLISH_SUCCESS 9) (pubs_now l (rx (Spec.ack PUBACK 0 0 9) state0)))) /\
  (exists o l ret s', requested 2 state_suback o /\
    Forall2 (sub_answered true 2) (list_sub_wait_ack (cl state_suback)) l /\
    _handle_suback_packet idle state_suback = Ret ret s' /\
    (ret, s') = suback_result idle 2 [1] o state_suback (subs_now l state_suback)) /\
  exists o l, requested 2 state_unsuback o /\
    Forall2 (sub_answered true 2) (list_sub_wait_ack (cl state_unsuback)) l.
Proof.
  split_and!.
  - destruct (acks_correct idle 0 (rx (Spec.ack PUBACK 0 0 9) state0)) as [Hpub _]. exact Hpub.
  - destruct (acks_correct idle 2 state_suback) as (_ & Hsub & _). refine (Hsub 1 [1; 0; 0] _ _ _ _).
    + done.
    + reflexivity.
    + repeat constructor.
    + intros h [_ (older & p & x & newer & Hl & _ & <- & _)]. destruct older as [|? [|]]; [|discriminate|discriminate].
      injection Hl as <- <- <-. by eexists.
  - destruct (acks_correct idle 2 state_unsuback) as (_ & _ & _ & Hunsub & _).
    destruct (Hunsub eq_refl) as (o & l & Ho & Hl & _). exists o, l. split; [exact Ho|exact Hl].
Defined.

(** Two SUBACKs for one request: the first installs the request's handle,
    the second finds the same handle installed, takes it for a duplicate and
    frees the filter that the installed handle uses; the next message reads
    the freed string: undefined behaviour. *)
Theorem double_suback_use_after_free :
  (exists s', (r1 ← _handle_suback_packet idle; r2 ← _handle_suback_packet idle; mret (r1, r2))
     state_suback = Ret (SUCCESS_RET, SUCCESS_RET) s' /\
     (topic_filter <$> sub_handles (cl s') !! 0%nat) = Some (Some 1%positive) /\
     heap s' !! 1%positive = None) /\
  (_ ← _handle_suback_packet idle; _ ← _handle_suback_packet idle;
   _deliver_message idle (topic_ab ++ [0]) 3 msg0) state_suback = Ub.
Proof. split; [eexists|]; vm_compute; auto. Qed.
