(* ===== verification/MqttLife.v ===== *)
(** The connection's life: disconnecting, the keep-alive, the back-off of
    reconnection, and what it takes to count as connected. *)

From S2P Require Import Prelude Defs HalTimer MqttWire MqttTopic MqttState MqttClient MqttSession MqttApi MqttSim MqttInv MqttSend MqttRequest MqttRecv MqttHandle MqttAck.

Section life.
Context {W H : Type} `{Env W} `{!EnvLaws W} `{!NetLog W} `{EqDecision H}.
Local Abbreviation St := (@St W H).
Local Abbreviation M := (@M W H).
Context (react : note H -> St -> St).
Hypothesis react_idle : forall n (s : St), react n s = s.
Context (fuel : nat) (check_repeat : bool).
Implicit Types s : St.

(** The client with [pkt] written into its transmit buffer. *)
Definition written (pkt : bytes) (c : @Client H) : @Client H :=
  set_write_buf (wr (write_buf c) pkt) c.

Lemma written_bufs pkt (c : @Client H) :
  Inv c -> zlen pkt <= UIOT_MQTT_TX_BUF_LEN -> bufs_ok (written pkt c).
Proof.
  intros Hi Hp. apply inv_bufs, inv_write_buf; [|done]. rewrite wr_len; [apply Hi|].
  rewrite (inv_wbuf _ Hi). done.
Qed.

Lemma written_client pkt (c : @Client H) :
  lock_add WriteBuf (-1) (set_write_buf (wr (write_buf c) pkt) (lock_add WriteBuf 1 c)) = written pkt c.
Proof. unfold written. destruct c. client_eq. Qed.

Lemma set_conn_run v s :
  set_client_conn_state v s = Ret tt (set_cl (set_is_connected v (cl s)) s).
Proof.
  unfold set_client_conn_state, HAL_MutexLock, HAL_MutexUnlock, mod_cl, modify, mbind, M_bind.
  f_equal. unfold set_cl. cbn. f_equal. destruct (cl s). client_eq.
Qed.

(* ------------------------------------------------------------------ *)
(** ** Disconnecting *)

Definition disconnect_packet : bytes := Spec.empty DISCONNECT.

(** The client behind a disconnect that the application asked for. *)
Definition gone (c : @Client H) : @Client H :=
  set_was_manually_disconnected 1 (set_is_connected 0 (written disconnect_packet c)).

Lemma sent_out len s r s' :
  bufs_ok (cl s) -> 0 < len < UIOT_MQTT_TX_BUF_LEN -> sent_spec len s r s' ->
  s' = set_world (world s') s /\ exists out, stream (world s') = stream (world s) ++ out /\
    ((r = SUCCESS_RET /\ out = take (Z.to_nat len) (write_buf (cl s))) \/
     (r = FAILURE_RET /\ zlen out <> len)).
Proof.
  intros (Hb1 & Hb2 & _) Hl [Hm Hs]. split; [done|].
  unfold UIOT_MQTT_TX_BUF_LEN, UIOT_MQTT_RX_BUF_LEN in *.
  destruct Hs as [(-> & _ & Hs) | [(_ & Hbad & _) | (-> & _ & n & Hn & Hn2 & _ & Hs)]].
  - eexists. split; [exact Hs|]. by left.
  - lia.
  - eexists. split; [exact Hs|]. right. split; [done|]. unfold tx.
    rewrite drop_0, length_take, length_app. lia.
Qed.

(** The client about to send [pkt]: it lies in the transmit buffer, whose lock
    is held. *)
Definition transmitting (pkt : bytes) (s : St) : St :=
  set_cl (lock_add WriteBuf 1 (written pkt (cl s))) s.

(** One attempt to send the two bytes [pkt]: the clock is read for the deadline
    and [send_mqtt_packet] is called.  If that succeeds, the packet went out;
    if it fails, some other number of bytes did. *)
Definition attempt (pkt : bytes) (s : St) (r : Z) (s' : St) : Prop :=
  let '(t, w) := rt_tick_get (world s) in
  send_mqtt_packet fuel 2 (countdown_ms rt_tick_from_millisecond (command_timeout_ms (cl s)) t)
    (set_world w s) = Ret r s' /\
  exists out, stream (world s') = stream (world s) ++ out /\
    ((r = SUCCESS_RET /\ out = pkt) \/ (r = FAILURE_RET /\ zlen out <> 2)).

(** The connection is closed, whatever came of the attempt to send DISCONNECT,
    and the client counts as disconnected. *)
Definition disconnected (s s' : St) : Prop :=
  exists r s1, attempt disconnect_packet (transmitting disconnect_packet s) r s1 /\
    s' = set_world (net_disconnect (world s1)).2 (set_cl (gone (cl s)) s).

Definition loaded (pkt : bytes) (s : St) : Prop :=
  bufs_ok (cl s) /\ zlen pkt = 2 /\ take 2 (write_buf (cl s)) = pkt /\ UIOT_MQTT_TX_BUF_LEN <= Z.of_nat fuel.

Lemma attempt_run pkt s t w : loaded pkt s -> rt_tick_get (world s) = (t, w) ->
  exists r s', send_mqtt_packet fuel 2 (countdown_ms rt_tick_from_millisecond (command_timeout_ms (cl s)) t)
      (set_world w s) = Ret r s' /\ attempt pkt s r s' /\ s' = set_world (world s') s /\
    (r = SUCCESS_RET \/ r = FAILURE_RET).
Proof.
  intros (Hb & Hp & Hw & Hf) Htw.
  pose proof (tick_stream (world s)) as Hst. rewrite Htw in Hst. cbn [snd] in Hst.
  set (timer := countdown_ms _ _ _).
  destruct (twp_elim _ _ _ (send_total fuel 2 timer (set_world w s) Hb ltac:(lia) Hf)) as (r & s' & Hrun & Hs).
  destruct (sent_out 2 (set_world w s) r s' Hb ltac:(unfold UIOT_MQTT_TX_BUF_LEN; lia) Hs) as (Hm & out & Hout & Hr).
  exists r, s'. split; [done|]. split_and!.
  - unfold attempt. rewrite Htw. split; [exact Hrun|]. exists out. cbn [world set_world] in Hout.
    rewrite <- Hst. split; [done|]. destruct Hr as [[-> ->] | [-> Hr]]; [left|by right].
    split; [done|]. cbn [cl set_world]. by rewrite <- Hw.
  - rewrite Hm. by destruct s.
  - destruct Hr as [[-> _] | [-> _]]; auto.
Qed.

Lemma transmitting_loaded pkt s :
  Inv (cl s) -> zlen pkt = 2 -> UIOT_MQTT_TX_BUF_LEN <= Z.of_nat fuel -> loaded pkt (transmitting pkt s).
Proof.
  intros Hi Hp Hf. split_and!; [|done| |done].
  - apply (written_bufs pkt (lock_add WriteBuf 1 (cl s))); [by apply inv_lock|].
    unfold UIOT_MQTT_TX_BUF_LEN. lia.
  - pose proof (take_wr (write_buf (cl s)) pkt) as Ht. rewrite Hp in Ht. exact Ht.
Qed.

Lemma transmitting_unfold pkt s :
  set_cl (set_write_buf (wr (write_buf (cl s)) pkt) (lock_add WriteBuf 1 (cl s))) s = transmitting pkt s.
Proof. unfold transmitting, written. f_equal. Qed.

Lemma disconnect_run s :
  Inv (cl s) -> is_connected (cl s) <> 0 -> UIOT_MQTT_TX_BUF_LEN <= Z.of_nat fuel ->
  twp (uiot_mqtt_disconnect fuel) (fun ret s' => ret = SUCCESS_RET /\ disconnected s s') s.
Proof.
  intros Hi Hc Hf. unfold uiot_mqtt_disconnect. eapply twp_run; [apply conn_state_run|].
  rewrite decide_False by done. t_steps.
  change (serialize_packet_with_zero_payload _ _ DISCONNECT) with
    (serialize_packet_with_zero_payload (write_buf (cl s)) (write_buf_size (cl s)) DISCONNECT).
  destruct (inv_bufs _ Hi) as (Hb1 & Hb2 & Hb3). unfold UIOT_MQTT_TX_BUF_LEN in *.
  rewrite serialize_empty_spec by (rewrite ?Hb1, ?Hb3; unfold DISCONNECT; lia || done).
  change (Spec.empty DISCONNECT) with disconnect_packet.
  apply twp_wire; [done|intros a [= <-]|done]. t_steps.
  rewrite !set_cl_twice, transmitting_unfold. set (s0 := transmitting disconnect_packet s).
  pose proof (transmitting_loaded disconnect_packet s Hi eq_refl Hf) as Hload.
  apply twp_env. intros t w Htw. rewrite decide_True by done. t_step.
  change (command_timeout_ms (set_write_buf _ _)) with (command_timeout_ms (cl s0)).
  destruct (attempt_run _ s0 t w Hload Htw) as (r & s1 & Hrun & Ha & Hm & _).
  eapply twp_run; [exact Hrun|]. t_steps. unfold network_disconnect. t_step. apply twp_env. intros rd wd Hwd. t_step.
  eapply twp_run; [apply set_conn_run|]. t_step. apply twp_ret. split; [done|].
  exists r, s1. split; [done|]. cbn [world set_cl] in Hwd. rewrite Hwd. cbn [snd].
  rewrite Hm. unfold s0, transmitting, gone, written, set_world, set_cl. cbn. f_equal. destruct (cl s). client_eq.
Qed.

Lemma inv_gone (c : @Client H) : Inv c -> Inv (gone c).
Proof.
  intros Hi. unfold gone, written. assert (Hi' : Inv (set_write_buf (wr (write_buf c) disconnect_packet) c)).
  { apply inv_write_buf; [|done]. rewrite wr_len; [apply Hi|]. by rewrite (inv_wbuf _ Hi). }
  revert Hi'. generalize (set_write_buf (wr (write_buf c) disconnect_packet) c). intros c' Hc'.
  revert Hc'. inv_mod.
Qed.

(** The client dropped the connection itself: it disconnects, tells the
    application, whatever that does, and the drop does not count as manual. *)
Definition dropped (s : St) (ret : Z) (s' : St) : Prop :=
  ret = ERR_MQTT_NO_CONN /\ exists s1, disconnected s s1 /\
    let s2 := told react (Notified MQTT_EVENT_DISCONNECT 0) s1 in
    s' = set_cl (set_was_manually_disconnected 0 (cl s2)) s2.

Lemma handle_disconnect_run s :
  Inv (cl s) -> is_connected (cl s) <> 0 -> UIOT_MQTT_TX_BUF_LEN <= Z.of_nat fuel ->
  twp (_handle_disconnect react fuel) (dropped s) s.
Proof.
  intros Hi Hc Hf. unfold _handle_disconnect, _iot_disconnect_callback.
  eapply twp_run; [apply conn_state_run|]. rewrite decide_False by auto.
  eapply twp_use; [by apply disconnect_run|]. intros r s1 (-> & Hs1).
  rewrite decide_False by auto. t_step. eapply twp_run; [apply told_run|]. t_step.
  apply twp_ret. split; [done|]. by exists s1.
Qed.

(* ------------------------------------------------------------------ *)
(** ** Keep-alive *)

Definition ping_packet : bytes := Spec.empty PINGREQ.

(** The calls of a ping, with [n] more tries: each is an attempt to send
    PINGREQ, the next one only behind a failed one; the result is that of the
    last attempt. *)
Inductive pings : nat -> St -> Z -> St -> Prop :=
  | ping_sent n s s' : attempt ping_packet s SUCCESS_RET s' -> pings n s SUCCESS_RET s'
  | ping_again n s s1 r s' : attempt ping_packet s FAILURE_RET s1 -> pings n s1 r s' -> pings (S n) s r s'
  | ping_failed s s' : attempt ping_packet s FAILURE_RET s' -> pings O s FAILURE_RET s'.

Lemma ping_loop_run n s :
  loaded ping_packet s ->
  twp (ping_loop fuel n 2) (fun ret s' => s' = set_world (world s') s /\ pings n s ret s' /\
    (ret = SUCCESS_RET \/ ret = FAILURE_RET)) s.
Proof.
  revert s. induction n as [|n IH]; intros s Hl; cbn [ping_loop]; t_steps;
    apply twp_env; intros t w Hst;
    destruct (attempt_run _ s t w Hl Hst) as (r & s2 & Hrun & Ha & Hm & [-> | ->]);
    (eapply twp_run; [exact Hrun|]).
  1,3: rewrite decide_False by auto; apply twp_ret; split_and!; [done|by constructor|by left].
  - rewrite decide_True by done. apply twp_ret. split_and!; [done|by constructor|by right].
  - rewrite decide_True by done. eapply twp_mono; [apply IH; by rewrite Hm|].
    intros r s' (Hm' & Hp & Hr'). split_and!; [by rewrite Hm', Hm| |done]. by eapply ping_again.
Qed.

(** The client behind a ping that was sent at [t]. *)
Definition pinged (t : Z) (c : @Client H) : @Client H :=
  set_ping_timer (countdown rt_tick_from_millisecond
      (Z.min 5 (keep_alive_interval (options c) `div` 2)) t)
    (set_is_ping_outstanding (is_ping_outstanding c + 1) (written ping_packet c)).

Lemma pinged_client t (c : @Client H) :
  Inv c ->
  let c1 := lock_add Generic 1 (lock_add WriteBuf (-1) (set_write_buf (wr (write_buf c) ping_packet)
              (lock_add WriteBuf 1 c))) in
  let c2 := set_is_ping_outstanding (u8 (is_ping_outstanding c1 + 1)) c1 in
  lock_add Generic (-1) (set_ping_timer (countdown rt_tick_from_millisecond
      (Z.min 5 (keep_alive_interval (options c2) `div` 2)) t) c2) = pinged t c.
Proof.
  intros Hi. pose proof (inv_ping _ Hi) as Hp. unfold MQTT_PING_RETRY_TIMES in Hp.
  unfold pinged, written. generalize ping_packet. intros pkt. clear Hi. revert Hp. destruct c as [????????????????????]. intros Hp.
  cbn in Hp. cbv beta zeta. client_eq. rewrite u8_small by lia.
  f_equal; lia.
Qed.

Definition keep_alive_outcome (s : St) (ret : Z) (s' : St) : Prop :=
  let c := cl s in
  if decide (keep_alive_interval (options c) = 0) then ret = SUCCESS_RET /\ s' = s
  else
    let '(t, w) := rt_tick_get (world s) in
    if has_expired (ping_timer c) t then
      if decide (is_ping_outstanding c >= 2) then dropped (set_world w s) ret s'
      else exists r s1, pings 3 (transmitting ping_packet (set_world w s)) r s1 /\
        if decide (r = SUCCESS_RET) then
          let '(t2, w2) := rt_tick_get (world s1) in
          ret = SUCCESS_RET /\ s' = set_world w2 (set_cl (pinged t2 c) s)
        else dropped (set_world (world s1) (set_cl (written ping_packet c) s)) ret s'
    else ret = SUCCESS_RET /\ s' = set_world w s.

Lemma keep_alive_run s :
  Inv (cl s) -> is_connected (cl s) <> 0 -> UIOT_MQTT_TX_BUF_LEN <= Z.of_nat fuel ->
  twp (_mqtt_keep_alive react fuel) (keep_alive_outcome s) s.
Proof.
  intros Hi Hc Hf. unfold _mqtt_keep_alive, keep_alive_outcome. cbn zeta. t_step.
  destruct (decide (keep_alive_interval (options (cl s)) = 0)) as [Hk|Hk].
  { rewrite decide_True by done. by apply twp_ret. }
  rewrite decide_False by auto. t_step. apply twp_env. intros t w Htw. rewrite Htw.
  destruct (has_expired (ping_timer (cl s)) t); cbn [negb]; [|by apply twp_ret].
  change MQTT_PING_RETRY_TIMES with 2.
  destruct (decide (is_ping_outstanding (cl s) >= 2)) as [Ho|Ho]; [by apply handle_disconnect_run|].
  t_steps.
  change (serialize_packet_with_zero_payload _ _ PINGREQ) with
    (serialize_packet_with_zero_payload (write_buf (cl s)) (write_buf_size (cl s)) PINGREQ).
  destruct (inv_bufs _ Hi) as (Hb1 & Hb2 & Hb3). unfold UIOT_MQTT_TX_BUF_LEN in *.
  rewrite serialize_empty_spec by (rewrite ?Hb1, ?Hb3; unfold PINGREQ; lia || done).
  change (Spec.empty PINGREQ) with ping_packet.
  apply twp_wire; [done|intros a [= <-]|done]. t_steps.
  rewrite set_cl_twice. pose proof (transmitting_unfold ping_packet (set_world w s)) as Hun.
  cbn [cl set_world] in Hun. rewrite Hun. set (s0 := transmitting ping_packet (set_world w s)).
  eapply twp_use; [apply ping_loop_run; by apply (transmitting_loaded ping_packet (set_world w s))|].
  intros ret s1 (Hm & Hp & Hr). rewrite Hm.
  destruct Hr as [-> | ->].
  - rewrite decide_False by auto. t_steps. apply twp_env. intros t2 w2 Hw2. t_steps. apply twp_ret.
    exists SUCCESS_RET, s1. split; [done|]. rewrite decide_True by done. cbn [world set_cl set_world] in Hw2.
    rewrite Hw2. split; [done|].
    rewrite !set_world_cl, !set_cl_twice. unfold s0, transmitting. rewrite <- (pinged_client t2 (cl s) Hi).
    unfold set_world, set_cl, written. cbn. f_equal.
  - rewrite decide_True by done. t_step.
    match goal with |- twp _ _ ?x =>
      assert (Hx : x = set_world (world s1) (set_cl (written ping_packet (cl s)) s)) end.
    { unfold s0, transmitting, set_world, set_cl, written. cbn. f_equal. destruct (cl s). client_eq. }
    rewrite Hx. eapply twp_mono; [apply handle_disconnect_run; [|done|done]|].
    + apply inv_write_buf; [|exact Hi]. rewrite wr_len; [apply Hi|]. by rewrite (inv_wbuf _ Hi).
    + intros r s' Hd. exists FAILURE_RET, s1. split; [done|]. by rewrite decide_False.
Qed.

(* ------------------------------------------------------------------ *)
(** ** Reconnection *)

(** The wait before the next attempt: doubled, at most a minute. *)
Definition backoff (i : Z) : Z := Z.min (2 * i) MAX_RECONNECT_WAIT_INTERVAL.

Lemma handle_reconnect_run s r s1 :
  Inv (cl s) ->
  let w := (rt_tick_get (world s)).2 in
  uiot_mqtt_attempt_reconnect react fuel check_repeat (set_world w s) = Ret r s1 -> Inv (cl s1) ->
  _handle_reconnect react fuel check_repeat s =
  if has_expired (reconnect_delay_timer (cl s)) (rt_tick_get (world s)).1 then
    if decide (r = MQTT_RECONNECTED) then
      Ret MQTT_RECONNECTED (noted (Notified MQTT_EVENT_RECONNECT 0) s1)
    else
      let i := backoff (current_reconnect_wait_interval (cl s1)) in
      let '(t, w1) := rt_tick_get (world s1) in
      Ret ERR_MQTT_ATTEMPTING_RECONNECT
        (set_world w1 (set_cl (set_reconnect_delay_timer (countdown_ms rt_tick_from_millisecond i t)
          (set_current_reconnect_wait_interval i (cl s1))) s1))
  else Ret ERR_MQTT_ATTEMPTING_RECONNECT (set_world w s).
Proof.
  intros Hi w Hr Hi1. unfold _handle_reconnect, expired, now, env, gets, mbind, M_bind, mret, M_ret.
  unfold w in Hr. destruct (rt_tick_get (world s)) as [t0 w0]. cbn [fst snd] in *.
  destruct (has_expired (reconnect_delay_timer (cl s)) t0); cbn [negb]; [|done].
  rewrite Hr. case_decide as Hrc.
  - subst r. unfold _reconnect_callback. by rewrite notify_run.
  - pose proof (inv_wait _ Hi1) as Hw. unfold MAX_RECONNECT_WAIT_INTERVAL in *.
    unfold mod_cl, modify, start_ms, now, env, mbind, M_bind, mret, M_ret. cbn [cl set_cl world].
    assert (Hb : u32 (current_reconnect_wait_interval (cl s1) * 2) =
      2 * current_reconnect_wait_interval (cl s1)) by (rewrite u32_small by lia; lia).
    rewrite Hb. unfold backoff, MAX_RECONNECT_WAIT_INTERVAL.
    set (i := current_reconnect_wait_interval (cl s1)) in *.
    change (current_reconnect_wait_interval (set_current_reconnect_wait_interval (2 * i) (cl s1))) with (2 * i).
    destruct (rt_tick_get (world s1)) as [t1 w1] eqn:Et.
    case_decide as Hc; [rewrite Z.min_r by lia|rewrite Z.min_l by lia]; cbn [world set_cl cl];
      rewrite ?Et; reflexivity.
Qed.

(** In a calm environment the attempt succeeds. *)
Lemma disconnected_calm `{!Calm W} s s' :
  Inv (cl s) -> UIOT_MQTT_TX_BUF_LEN <= Z.of_nat fuel -> calm (world s) -> disconnected s s' ->
  exists w, stream w = stream (world s) ++ disconnect_packet /\ world s' = (net_disconnect w).2.
Proof.
  intros Hi Hf Hcalm (r & s1 & Ha & ->). unfold attempt in Ha. cbn [world transmitting set_cl] in Ha.
  destruct (calm_tick (world s) Hcalm) as [Ht Hw]. destruct (rt_tick_get (world s)) as [t w]. cbn [fst snd] in *. subst t.
  destruct Ha as (Hrun & out & Hout & Hr). exists (world s1). split; [|done]. rewrite Hout.
  destruct Hr as [[_ ->] | [-> _]]; [done|].
  destruct (transmitting_loaded disconnect_packet s Hi eq_refl Hf) as (Hb & _).
  assert (Hd : has_expired (countdown_ms rt_tick_from_millisecond (command_timeout_ms (cl s)) calm_now) calm_now = false).
  { apply calm_deadline. destruct (inv_timeout _ Hi). unfold MIN_COMMAND_TIMEOUT, MAX_COMMAND_TIMEOUT in *. lia. }
  pose proof (send_calm fuel 2 (countdown_ms rt_tick_from_millisecond
      (command_timeout_ms (cl (transmitting disconnect_packet s))) calm_now) (set_world w (transmitting disconnect_packet s)) Hb
    ltac:(unfold UIOT_MQTT_TX_BUF_LEN; lia) ltac:(unfold UIOT_MQTT_TX_BUF_LEN in *; lia) Hw Hd) as Hs.
  unfold twp in Hs. rewrite Hrun in Hs. by destruct Hs as [Hs _].
Qed.

End life.

(* ================================================================== *)
(** * Properties *)

Section properties.
Context {W H : Type} `{Env W} `{!EnvLaws W} `{!NetLog W} `{EqDecision H}.

(** C13: disconnecting a connected client always succeeds: the DISCONNECT packet
    is written into the transmit buffer, one attempt is made to send it (the
    real call of [send_mqtt_packet], with the command timeout), the network
    connection is closed whatever came of it, and the client counts as
    disconnected, by the application's own wish.  Nothing else of it changes,
    and no lock stays taken.  When the environment is calm, exactly the packet
    goes out before the connection is closed. *)
Theorem disconnect_correct `{!Calm W} fuel (s : @St W H) :
  Inv (cl s) -> is_connected (cl s) <> 0 -> UIOT_MQTT_TX_BUF_LEN <= Z.of_nat fuel ->
  exists s', uiot_mqtt_disconnect fuel s = Ret SUCCESS_RET s' /\ disconnected fuel s s' /\
    (calm (world s) -> exists w, stream w = stream (world s) ++ disconnect_packet /\
       world s' = (net_disconnect w).2).
Proof.
  intros Hi Hc Hf. destruct (twp_elim _ _ _ (disconnect_run fuel s Hi Hc Hf)) as (r & s' & Hr & -> & Hs).
  exists s'. split; [done|]. split; [done|]. intros Hcalm. by apply (disconnected_calm fuel).
Qed.

(** C11: the keep-alive of a connected client always returns, whatever the
    network and the application's callback do.  Without a
    keep-alive interval, or before the ping timer expires, it does nothing.
    Then, with fewer than two outstanding pings, it attempts to send PINGREQ,
    up to four times, the next time only if the last one failed.  If one
    succeeds, one more ping is outstanding and the timer is restarted
    with half the interval, at most five seconds.  Only if all four fail, or if
    two pings are outstanding already (none is then sent), it drops the
    connection: DISCONNECT, the network closed, the application told, and the
    loss not counted as the application's wish, so that the client reconnects. *)
Theorem keep_alive_correct (react : note H -> @St W H -> @St W H) fuel (s : @St W H) :
  Inv (cl s) -> is_connected (cl s) <> 0 -> UIOT_MQTT_TX_BUF_LEN <= Z.of_nat fuel ->
  exists ret s', _mqtt_keep_alive react fuel s = Ret ret s' /\ keep_alive_outcome react fuel s ret s'.
Proof. intros. by apply twp_elim, keep_alive_run. Qed.

(** C12: while the delay of reconnection runs, nothing is attempted.  Then one
    attempt is made; success is told to the application; a failure of any kind
    doubles the wait before the next attempt, up to a minute, and starts the
    delay timer with it. *)
Theorem reconnect_backoff_correct (react : note H -> @St W H -> @St W H) fuel check_repeat
    (s s1 : @St W H) r :
  (forall n s, react n s = s) -> Inv (cl s) ->
  let '(t, w) := rt_tick_get (world s) in
  uiot_mqtt_attempt_reconnect react fuel check_repeat (set_world w s) = Ret r s1 ->
  _handle_reconnect react fuel check_repeat s =
  if has_expired (reconnect_delay_timer (cl s)) t then
    if decide (r = MQTT_RECONNECTED) then
      Ret MQTT_RECONNECTED (noted (Notified MQTT_EVENT_RECONNECT 0) s1)
    else
      let i := Z.min (2 * current_reconnect_wait_interval (cl s1)) 60000 in
      let '(t1, w1) := rt_tick_get (world s1) in
      Ret ERR_MQTT_ATTEMPTING_RECONNECT
        (set_world w1 (set_cl (set_reconnect_delay_timer (countdown_ms rt_tick_from_millisecond i t1)
          (set_current_reconnect_wait_interval i (cl s1))) s1))
  else Ret ERR_MQTT_ATTEMPTING_RECONNECT (set_world w s).
Proof.
  intros Hre Hi. pose proof (handle_reconnect_run react Hre fuel check_repeat s r s1 Hi) as Hrun.
  destruct (rt_tick_get (world s)) as [t w]. intros Hr. apply Hrun; [exact Hr|].
  assert (Hj : J (locks (cl s)) (set_world w s)) by by split.
  assert (Happ : forall n L s, J L s -> J L (react n s)) by (intros; by rewrite Hre).
  exact (proj1 (wp_elim _ _ _ _ _ (uiot_mqtt_attempt_reconnect_ok react Happ fuel check_repeat _ _ Hj) Hr)).
Qed.

End properties.

(* ================================================================== *)
(** * Witnesses *)

Lemma disconnect_correct_witness :
  exists s', uiot_mqtt_disconnect fuel0 state0 = Ret SUCCESS_RET s' /\ disconnected fuel0 state0 s' /\
    exists w, stream w = stream (world state0) ++ disconnect_packet /\ world s' = (net_disconnect w).2.
Proof.
  destruct (disconnect_correct fuel0 state0) as (s' & Hr & Hs & Hcalm).
  - exact client0_inv.
  - discriminate.
  - exact fuel0_ok.
  - exists s'. split; [exact Hr|]. split; [exact Hs|]. apply Hcalm. by split_and!.
Defined.

(** A connected client whose keep-alive interval is 240 s and whose ping timer
    ran out at tick 900. *)
Definition state_ping : @St World nat :=
  set_cl (set_ping_timer 900 (set_options (mkConnectParams None None None 4 240 1 1) client0)) state0.

Lemma keep_alive_correct_witness :
  exists ret s', _mqtt_keep_alive idle fuel0 state_ping = Ret ret s' /\
    keep_alive_outcome idle fuel0 state_ping ret s' /\
    has_expired (ping_timer (cl state_ping)) (rt_tick_get (world state_ping)).1 = true.
Proof.
  destruct (keep_alive_correct idle fuel0 state_ping) as (ret & s' & Hr & Ho).
  - generalize client0_inv. unfold state_ping. cbn [cl set_cl]. generalize client0. intros c. inv_mod.
  - discriminate.
  - exact fuel0_ok.
  - exists ret, s'. split; [exact Hr|]. split; [exact Ho|reflexivity].
Defined.

(** A client that lost its connection, waits 1000 ms between attempts, and
    cannot reach the server. *)
Definition state_lost : @St World nat :=
  set_world (mkWorld 1000 0 [] [] [] [] false 0 [])
    (set_cl (set_reconnect_delay_timer 900 (set_current_reconnect_wait_interval 1000
      (set_is_connected 0 client0))) state0).

Definition state_lost1 : @St World nat :=
  match uiot_mqtt_attempt_reconnect idle fuel0 false state_lost with Ret _ s => s | _ => state_lost end.
Lemma state_lost_run :
  uiot_mqtt_attempt_reconnect idle fuel0 false state_lost = Ret FAILURE_RET state_lost1.
Proof. vm_compute. reflexivity. Qed.
Lemma state_lost_inv : Inv (cl state_lost).
Proof.
  generalize client0_inv. unfold state_lost. cbn [cl set_cl set_world]. generalize client0. intros c. inv_mod.
Qed.

Lemma reconnect_backoff_correct_witness :
  _handle_reconnect idle fuel0 false state_lost = Ret ERR_MQTT_ATTEMPTING_RECONNECT
    (set_cl (set_reconnect_delay_timer 3000 (set_current_reconnect_wait_interval 2000 (cl state_lost1)))
       state_lost1).
Proof.
  refine (eq_trans (reconnect_backoff_correct idle fuel0 false state_lost state_lost1 FAILURE_RET
    (fun _ _ => eq_refl) state_lost_inv state_lost_run) _).
  vm_compute. reflexivity.
Defined.
