(* ===== verification/MqttConnect.v ===== *)
(** The handshake: CONNECT goes out, the CONNACK comes in, and the client is
    connected exactly when the server accepted it. *)

From S2P Require Import Prelude Defs HalTimer MqttWire MqttTopic MqttState MqttClient MqttSession MqttApi MqttSim MqttInv MqttSend MqttRequest MqttRecv MqttHandle MqttAck MqttLife.

(** A calm environment whose server answers: connecting succeeds, bytes that
    are there are delivered when they are asked for, and nothing but reading
    consumes them. *)
Class Attentive (W : Type) `{Env W} `{!NetLog W} `{!Calm W} := {
  calm_read : forall len t w, calm w -> 0 < len <= zlen (incoming w) ->
    (net_read len t w).1.1 = len /\ calm (net_read len t w).2;
  read_stream : forall len t w, stream (net_read len t w).2 = stream w;
  calm_connect : forall w, calm w -> (net_connect w).1 = SUCCESS_RET /\ calm (net_connect w).2;
  connect_stream : forall w, stream (net_connect w).2 = stream w;
  connect_incoming : forall w, incoming (net_connect w).2 = incoming w;
  malloc_incoming : forall w, incoming (malloc_ok w).2 = incoming w;
  write_incoming : forall data t w, incoming (net_write data t w).2 = incoming w
}.

Section connect.
Context {W H : Type} `{Env W} `{!EnvLaws W} `{!NetLog W} `{!Calm W} `{!Attentive W} `{EqDecision H}.
Local Abbreviation St := (@St W H).
Local Abbreviation M := (@M W H).
Context (react : note H -> St -> St).
Context (fuel : nat) (check_repeat : bool).
Implicit Types s : St.

(** The calm states in which the server is going to say [inc]. *)
Program Definition hearing (inc : bytes) : Calm W :=
  {| calm w := calm w /\ incoming w = inc; calm_now := calm_now |}.
Next Obligation. intros inc w [Hc <-]. destruct (calm_tick w Hc). rewrite tick_incoming. done. Qed.
Next Obligation. intros inc w [Hc <-]. destruct (calm_malloc w Hc). rewrite malloc_incoming. done. Qed.
Next Obligation.
  intros inc data t w [Hc <-]. destruct (calm_write data t w Hc). rewrite write_incoming. done.
Qed.
Next Obligation. intros inc. exact calm_deadline. Qed.

Definition still (inc : bytes) (out : bytes) (w : W) : Prop :=
  calm w /\ incoming w = inc /\ stream w = out.

Lemma twp_now_still {B} inc out (f : Z -> M B) Q s :
  still inc out (world s) -> (forall w, still inc out w -> twp (f calm_now) Q (set_world w s)) ->
  twp (now ≫= f) Q s.
Proof.
  intros (Hc & <- & <-) Hf. apply twp_env. intros t w Hw. destruct (calm_tick (world s) Hc) as [Ht Hc'].
  pose proof (tick_incoming (world s)) as Hi. pose proof (tick_stream (world s)) as Hs.
  rewrite Hw in Ht, Hc', Hi, Hs. cbn [fst snd] in *. subst t. by apply Hf.
Qed.

Lemma send_still inc out len timer s :
  bufs_ok (cl s) -> 0 < len < UIOT_MQTT_TX_BUF_LEN -> UIOT_MQTT_TX_BUF_LEN <= Z.of_nat fuel ->
  still inc out (world s) -> has_expired timer calm_now = false ->
  twp (send_mqtt_packet fuel len timer) (fun ret s' => ret = SUCCESS_RET /\
    s' = set_world (world s') s /\
    still inc (out ++ take (Z.to_nat len) (write_buf (cl s))) (world s')) s.
Proof.
  intros Hb Hl Hf (Hc & Hin & Hout) Ht. unfold UIOT_MQTT_TX_BUF_LEN in *.
  pose proof (send_calm (Calm0 := hearing inc) fuel len timer s Hb Hl ltac:(lia) (conj Hc Hin) Ht) as H1.
  pose proof (send_total fuel len timer s Hb ltac:(lia) Hf) as H2.
  eapply twp_mono; [apply (twp_and _ _ _ _ H1 H2)|].
  intros r s' [(-> & [Hc' Hin'] & Hm) Hs]. split; [done|].
  destruct (sent_out _ _ _ _ Hb Hl Hs) as (_ & o & Ho & [[_ ->] | [? _]]); [|done].
  split; [exact Hm|]. split; [done|]. split; [done|]. by rewrite Ho, Hout.
Qed.

(** Reading [d] when the server says [d] next. *)
Lemma net_read_still d rest out t w :
  d <> [] -> still (d ++ rest) out w ->
  exists w', net_read (zlen d) t w = (zlen d, d, w') /\ still rest out w'.
Proof.
  intros Hd (Hc & Hin & Hout). assert (0 < zlen d) by (destruct d; [done|cbn; lia]).
  destruct (calm_read (zlen d) t w Hc) as [Hr Hc'].
  { rewrite Hin, length_app. lia. }
  pose proof (read_stream (zlen d) t w) as Hs.
  destruct (net_read (zlen d) t w) as [[r data] w'] eqn:E. cbn [fst snd] in *. subst r.
  destruct (read_law _ _ _ _ _ _ E) as (_ & _ & Hlen); [lia|]. specialize (Hlen ltac:(lia)).
  pose proof (read_incoming _ _ _ _ _ _ E) as Hi. rewrite Hin in Hi.
  apply app_inj_1 in Hi as [<- Hrest]; [|lia]. exists w'. split; [done|]. destruct Hout.
  by repeat split.
Qed.

Lemma read_into_still p d rest out t s b' :
  d <> [] -> still (d ++ rest) out (world s) -> write_at (read_buf (cl s)) p d = Ok b' ->
  twp (read_into p (zlen d) t) (fun r s' => r = zlen d /\ exists w, still rest out w /\
    s' = set_world w (set_cl (set_read_buf b' (cl s)) s)) s.
Proof.
  intros Hd Hq Hw. unfold read_into. destruct (net_read_still d rest out (u32 t) (world s) Hd Hq) as (w & Hr & Hq').
  apply twp_env. rewrite Hr. intros ? ? [= <- <-]. t_steps. eapply twp_mem; [exact Hw|]. t_steps.
  apply twp_ret. split; [done|]. by exists w.
Qed.

Lemma left_pos_still inc out timer s :
  still inc out (world s) ->
  twp (left_pos timer) (fun _ s' => exists w, s' = set_world w s /\ still inc out w) s.
Proof.
  intros Hq. unfold left_pos. t_step. eapply twp_now_still; [done|]. intros w Hw. apply twp_ret. by exists w.
Qed.

(** The client that has read [pkt]. *)
Definition read_in (pkt : bytes) (c : @Client H) : @Client H := set_read_buf (wr (read_buf c) pkt) c.

Lemma read_connack_run fl rc rest out timer s :
  rx_ok (cl s) -> still (connack fl rc ++ rest) out (world s) ->
  twp (_read_mqtt_packet timer) (fun r s' => r = inl CONNACK /\ exists w, still rest out w /\
    s' = set_world w (set_cl (read_in (connack fl rc) (cl s)) s)) s.
Proof.
  intros (Hb & Hf & Hs) Hq. unfold UIOT_MQTT_RX_BUF_LEN in *. unfold _read_mqtt_packet.
  eapply twp_use; [by eapply left_pos_still|]. intros tl s1 (w1 & -> & Hq1).
  eapply twp_use; [eapply (read_into_still 0 [32] ([2; fl; rc] ++ rest)); [done|exact Hq1|by apply write_at_0; cbn in *; lia]|].
  intros r s2 (-> & w2 & Hq2 & ->). change (zlen [32]) with 1. do 2 (rewrite decide_False by lia).
  eapply twp_use; [by eapply left_pos_still|]. intros tl2 s3 (w3 & -> & Hq3).
  destruct (net_read_still [2] ([fl; rc] ++ rest) out (u32 (tl2 + UIOT_MQTT_MAX_REMAIN_WAIT_MS)) w3)
    as (w4 & Hr4 & Hq4); [done|exact Hq3|].
  unfold _decode_packet_rem_len_with_net_read, MAX_NO_OF_REMAINING_LENGTH_BYTES. cbn [decode_net_loop].
  t_steps. change (zlen [2]) with 1 in Hr4. apply twp_env. cbn [world set_world set_cl]. rewrite Hr4. intros ? ? [= <- <-]. cbn [fst snd].
  rewrite decide_False by lia. t_step. eapply twp_mem; [reflexivity|]. cbn beta zeta.
  rewrite (decide_False (P := (2 &&& 128) <> 0)) by (intros Hx; by apply Hx). t_steps.
  change (u32 (0 + (2 &&& 127) * 1)) with 2. set (b0 := read_buf (cl s)) in *.
  change (read_buf_size (set_read_buf (wr b0 [32]) (cl s))) with (read_buf_size (cl s)).
  rewrite Hs. rewrite decide_False by lia. t_steps.
  change (read_buf (set_read_buf (wr b0 [32]) (cl s))) with (wr b0 [32]).
  eapply twp_mem; [apply (write_rem_len_wr b0 [32] 1 2); [done|done|rewrite Hb; by vm_compute]|]. t_steps.
  change (Spec.rem_len 2) with [2]. change ([32] ++ [2]) with [32; 2]. change (zlen [2]) with 1.
  rewrite decide_False by (vm_compute; intros [? ?]; done). rewrite decide_True by done.
  eapply twp_use; [eapply left_pos_still; exact Hq4|]. intros tl5 s5 (w5 & -> & Hq5).
  eapply twp_use; [apply (read_into_still 2 [fl; rc] rest out); [done|exact Hq5|]|].
  { apply (write_next b0 [32; 2] 2 [fl; rc]); [done|cbn in *; lia]. }
  intros r6 s6 (-> & w6 & Hq6 & ->). change (zlen [fl; rc]) with 2.
  do 2 (rewrite decide_False by lia). t_steps. eapply twp_mem; [reflexivity|]. apply twp_ret.
  split; [done|]. by exists w6.
Qed.

Lemma connack_refused rc : rc <> 0 -> connack_code rc <> MQTT_CONNECTION_ACCEPTED /\ connack_code rc < 0.
Proof. intros Hrc. unfold connack_code. rewrite decide_False by done. by repeat case_decide. Qed.

Lemma connack_decode fl rc b buflen :
  byte rc -> 4 <= buflen ->
  _deserialize_connack_packet (wr b (connack fl rc)) buflen = Ok (fl &&& 1, connack_code rc).
Proof. apply connack_decode_run. Qed.

(** Options that fit a CONNECT packet of the transmit buffer. *)
Record connect_request (o : MQTTConnectParams) (cid : bytes) : Prop := {
  cr_id : client_id o = Some cid;
  cr_id_len : 0 < zlen cid < 65536;
  cr_version : mqtt_version o = 4;
  cr_user : olen (username o) < 65536;
  cr_password : olen (password o) < 65536;
  cr_keep_alive : 0 <= keep_alive_interval o < 65536;
  cr_fit : get_mqtt_packet_len (zlen (connect_body o cid)) < UIOT_MQTT_TX_BUF_LEN
}.

Definition connect_packet (o : MQTTConnectParams) (cid : bytes) : bytes :=
  Spec.packet (Spec.first_byte 1 0 0 0) (connect_body o cid).

Lemma connect_packet_small o cid :
  connect_request o cid -> 0 < zlen (connect_packet o cid) < UIOT_MQTT_TX_BUF_LEN.
Proof.
  intros [_ Hidl _ Hu Hp _ Hfit]. unfold connect_packet. rewrite packet_len. unfold UIOT_MQTT_TX_BUF_LEN in *.
  assert (Hb : zlen (connect_body o cid) < 4294967290).
  { rewrite connect_body_len, !opt_utf8_length. destruct (username o), (password o); cbn [olen] in *; lia. }
  pose proof (get_mqtt_packet_len_bounds (zlen (connect_body o cid)) ltac:(lia)). case_decide; lia.
Qed.

Lemma connect_serialized o cid (c : @Client H) :
  connect_request o cid -> Inv c ->
  _serialize_connect_packet (write_buf c) (write_buf_size c) o =
  Ok (wr (write_buf c) (connect_packet o cid), zlen (connect_packet o cid)).
Proof.
  intros [Hid Hidl Hv Hu Hp Hk Hfit] Hi. destruct (inv_bufs _ Hi) as (Hb1 & Hb2 & Hb3).
  rewrite (serialize_connect_spec _ _ o cid) by
    (rewrite ?Hb1, ?Hb3; unfold UIOT_MQTT_TX_BUF_LEN in *; done || lia).
  cbn zeta. rewrite decide_False by (rewrite Hb3; lia). done.
Qed.

(** The client behind a finished handshake, whatever the answer. *)
Definition heard (o : MQTTConnectParams) (pkt answer : bytes) (c : @Client H) : @Client H :=
  read_in answer (written pkt (set_options o c)).
(** The client behind an accepted one. *)
Definition connected (c : @Client H) : @Client H :=
  set_ping_timer (countdown rt_tick_from_millisecond (keep_alive_interval (options c)) calm_now)
    (set_is_ping_outstanding 0 (set_was_manually_disconnected 0 (set_is_connected 1 c))).

Lemma connected_client t (c : @Client H) :
  lock_add Generic (-1) (set_ping_timer t (set_is_ping_outstanding 0 (set_was_manually_disconnected 0
    (lock_add Generic 1 (set_is_connected 1 c))))) =
  set_ping_timer t (set_is_ping_outstanding 0 (set_was_manually_disconnected 0 (set_is_connected 1 c))).
Proof. destruct c. client_eq. Qed.

Lemma mqtt_connect_run o cid fl rc rest s :
  connect_request o cid -> byte rc -> Inv (cl s) -> UIOT_MQTT_TX_BUF_LEN <= Z.of_nat fuel ->
  calm (world s) -> incoming (world s) = connack fl rc ++ rest ->
  let pkt := connect_packet o cid in
  twp (_mqtt_connect react fuel check_repeat (Some o)) (fun ret s' =>
    ret = (if decide (rc = 0) then SUCCESS_RET else connack_code rc) /\
    still rest (stream (world s) ++ pkt) (world s') /\
    s' = set_world (world s') (set_cl (let c := heard o pkt (connack fl rc) (cl s) in
           if decide (rc = 0) then connected c else c) s)) s.
Proof.
  intros Ho Hrc Hi Hf Hcalm Hin pkt. unfold _mqtt_connect.
  assert (Hq : still (connack fl rc ++ rest) (stream (world s)) (world s)) by done.
  set (out := stream (world s)) in *. clearbody out. pose proof (connect_packet_small o cid Ho) as Hsm.
  pose proof (fun c => connect_serialized o cid c Ho) as Hser. fold pkt in Hsm, Hser. clearbody pkt.
  t_steps. eapply twp_now_still; [exact Hq|]. intros w1 Hq1. t_steps.
  set (timer := countdown_ms _ _ _).
  assert (Ht : has_expired timer calm_now = false).
  { apply calm_deadline. destruct (inv_timeout _ Hi). unfold MIN_COMMAND_TIMEOUT, MAX_COMMAND_TIMEOUT in *. lia. }
  assert (Hcopy : _copy_connect_params (options (cl s)) o = o) by by destruct o.
  rewrite Hcopy. apply twp_env. cbn [world set_cl set_world]. intros r w2 Hw2.
  assert (Hq2 : r = SUCCESS_RET /\ still (connack fl rc ++ rest) out w2).
  { destruct Hq1 as (Hc1 & Hi1 & Ho1). destruct (calm_connect w1 Hc1) as [Hr Hc2].
    pose proof (connect_stream w1). pose proof (connect_incoming w1). rewrite Hw2 in *. cbn [fst snd] in *.
    split; [done|]. split; [done|]. split; congruence. }
  clear Hw2. destruct Hq2 as [-> Hq2]. rewrite decide_False by auto. t_steps.
  set (c1 := lock_add WriteBuf 1 (set_options o (cl s))).
  assert (Hi1 : Inv c1) by (apply inv_lock; revert Hi; generalize (cl s); intros c; inv_mod).
  change (options c1) with o.
  apply twp_wire; rewrite (Hser c1 Hi1); [done|intros a [= <-]|done]. t_steps.
  rewrite decide_False by lia.
  assert (Hb1 : bufs_ok (set_write_buf (wr (write_buf c1) pkt) c1)).
  { apply (written_bufs pkt c1 Hi1). lia. }
  eapply twp_use; [eapply send_still; [exact Hb1|exact Hsm|exact Hf|exact Hq2|exact Ht]|].
  intros r s2 (-> & Hm & Hq3). rewrite decide_False by auto. rewrite Hm. t_steps.
  remember (world s2) as w3 eqn:Hw3. clear Hw3 Hm s2.
  change (write_buf (set_write_buf (wr (write_buf (cl s)) pkt) c1)) with (wr (write_buf (cl s)) pkt) in Hq3.
  rewrite take_wr in Hq3.
  st_norm. unfold c1. pose proof (written_client pkt (set_options o (cl s))) as Hc2.
  change (write_buf (set_options o (cl s))) with (write_buf (cl s)) in Hc2. rewrite Hc2. clear Hc2.
  set (c2 := written pkt (set_options o (cl s))).
  unfold wait_for_read. destruct fuel as [|n] eqn:Efuel.
  { unfold UIOT_MQTT_TX_BUF_LEN in *. lia. }
  cbn [wait_loop]. t_steps. eapply twp_now_still; [exact Hq3|]. intros w4 Hq4. t_steps. rewrite Ht.
  unfold cycle_for_read. t_steps.
  eapply twp_use; [eapply (read_connack_run fl rc rest); [|exact Hq4]|].
  { cbn [cl set_cl set_world]. destruct Hi. by repeat split. }
  intros r s5 (-> & w5 & Hq5 & ->). st_norm. change CONNACK with 2. cbn match. t_steps.
  rewrite decide_False by (intros [?|[?|[?|?]]]; done). rewrite decide_False by done. t_steps.
  rewrite decide_False by (intros [_ Hx]; by apply Hx). t_steps. rewrite decide_False by auto. t_steps.
  set (c3 := read_in (connack fl rc) c2).
  change (read_buf c3) with (wr (read_buf c2) (connack fl rc)).
  apply twp_wire; rewrite (connack_decode fl rc (read_buf c2) (read_buf_size c3) Hrc);
    try (change (read_buf_size c3) with (read_buf_size (cl s)); rewrite (inv_rsize _ Hi); done).
  1: done.
  2: done.
  intros a [= <-]. destruct (decide (rc = 0)) as [->|Hrefused].
  - rewrite decide_False by (intros Hx; by apply Hx).
    eapply twp_run; [apply set_conn_run|]. t_steps. eapply twp_now_still; [exact Hq5|].
    intros w6 Hq6. t_steps. apply twp_ret. split; [done|]. split; [exact Hq6|].
    st_norm. rewrite connected_client. done.
  - destruct (connack_refused rc Hrefused) as [Hna _]. rewrite decide_True by auto. apply twp_ret.
    split; [done|]. split; [exact Hq5|]. done.
Qed.

End connect.

(* ================================================================== *)
(** * Properties *)

(** C8: connecting to a server that answers with a CONNACK always returns.  The
    network has taken exactly the CONNECT packet of the given options.  If the
    server accepted (return code 0), the call succeeds and the client counts as
    connected, not manually disconnected, with no ping outstanding and the ping
    timer started with the keep-alive interval; what follows the CONNACK is
    still to be read.  If it refused, the call returns the error of that code,
    the network connection is closed again and the client still counts as
    disconnected.  The lists, the handles and the locks are as before. *)
Theorem connect_handshake {W H} `{Env W} `{!EnvLaws W} `{!NetLog W} `{!Calm W} `{!Attentive W}
    `{EqDecision H} react fuel check_repeat o cid flags rc rest (s : @St W H) :
  connect_request o cid -> byte rc -> Inv (cl s) -> is_connected (cl s) = 0 ->
  UIOT_MQTT_TX_BUF_LEN <= Z.of_nat fuel ->
  calm (world s) -> incoming (world s) = connack flags rc ++ rest ->
  let out := stream (world s) ++ connect_packet o cid in
  let c := heard o (connect_packet o cid) (connack flags rc) (cl s) in
  exists w,
    uiot_mqtt_connect react fuel check_repeat (Some o) s =
      (if decide (rc = 0) then Ret SUCCESS_RET (set_world w (set_cl (connected c) s))
       else Ret (connack_code rc) (set_world (net_disconnect w).2 (set_cl c s))) /\
    stream w = out /\ incoming w = rest /\ is_connected c = 0.
Proof.
  intros Ho Hrc Hi Hconn Hf Hcalm Hin out c.
  destruct (twp_elim _ _ _ (mqtt_connect_run react fuel check_repeat o cid flags rc rest s Ho Hrc Hi Hf Hcalm Hin))
    as (r & s' & Hr & Hret & (_ & Hrest & Hout) & Hs').
  exists (world s'). split; [|by split_and!]. unfold uiot_mqtt_connect, mbind, M_bind.
  rewrite conn_state_run, Hconn. rewrite decide_False by auto. rewrite Hr, Hret.
  destruct (decide (rc = 0)) as [->|Hrefused]; [by rewrite decide_False, Hs' by auto|].
  destruct (connack_refused rc Hrefused) as [_ Hneg]. rewrite decide_True by (unfold SUCCESS_RET; lia).
  unfold network_disconnect, env, mbind, M_bind, mret, M_ret. rewrite Hs'. cbn [world set_world].
  by destruct (net_disconnect (world s')).
Qed.

(* ================================================================== *)
(** * Witnesses *)

#[export] Program Instance sim_attentive : Attentive World.
Next Obligation.
  intros len t w (? & ? & ? & ? & ?) Hl. cbn in *. rewrite length_fmap in *. rewrite length_take.
  split; [lia|done].
Qed.
Next Obligation. done. Qed.
Next Obligation. intros w (? & ? & ? & ? & Hr). cbn. by rewrite Hr. Qed.
Next Obligation. done. Qed.
Next Obligation. done. Qed.
Next Obligation. intros w. cbn. by destruct (script (memory w)). Qed.
Next Obligation.
  intros data t w. cbn. unfold sim_write. destruct (accepts w); [done|]. by case_decide.
Qed.

(** A fresh client whose server accepts. *)
Definition state_fresh : @St World nat :=
  set_world (set_inbox ([32; 2; 0; 0] ++ [208; 0]) world0) (set_cl (fresh_client 2000 true) state0).

Lemma connect_params_ok : connect_request connect_params (bytes_of "id").
Proof. by constructor. Qed.

Lemma connect_handshake_witness :
  exists w, uiot_mqtt_connect idle fuel0 false (Some connect_params) state_fresh =
    Ret SUCCESS_RET (set_world w (set_cl (connected
      (heard connect_params (connect_packet connect_params (bytes_of "id")) (connack 0 0) (cl state_fresh)))
      state_fresh)) /\ incoming w = [208; 0].
Proof.
  destruct (connect_handshake idle fuel0 false connect_params (bytes_of "id") 0 0 [208; 0] state_fresh)
    as (w & Hr & _ & Hin & _).
  - exact connect_params_ok.
  - by split.
  - apply (fresh_client_inv 2000 true). by split.
  - reflexivity.
  - exact fuel0_ok.
  - by repeat split.
  - reflexivity.
  - exists w. by split.
Defined.
