(* ===== verification/MqttTcp.v ===== *)
(** The MQTT client over the socket port: what the theorems about the client
    say of the whole stack, because [HalTcp] satisfies the laws of the client's
    environment, and a run of it from [uiot_mqtt_connect] down to [send] and
    [recv]. *)

From S2P Require Import Prelude Defs HalTimer MqttWire MqttTopic MqttState MqttClient MqttSession MqttApi MqttSim HalTcp MqttInv MqttSend MqttRequest MqttRecv MqttHandle MqttAck MqttLife MqttConnect.

(** Over any socket layer that behaves as documented, a session keeps the
    client consistent. *)
Lemma tcp_session_consistent {W H} `{EqDecision H} `{RtosLaws W} rounds app fuel check_repeat rs
    (s s' : @St (utils_network * W) H) rets :
  (forall n L s, J L s -> J L (app n s)) -> J (fun _ => 0) s ->
  session (W := utils_network * W) (H0 := tcp_env rounds) app fuel check_repeat rs s = Ret rets s' -> J (fun _ => 0) s'.
Proof.
  intros Happ Hj Hr. eapply (wp_elim _ (fun _ s' => J (fun _ => 0) s')); [|exact Hr].
  by apply (session_ok (H0 := tcp_env rounds)).
Qed.

(** ** A run *)

#[local] Instance stack_env : Env (utils_network * TcpWorld) := tcp_env 4000.
Definition stack0 (inbox : bytes) : @St (utils_network * TcpWorld) nat :=
  mkSt (fresh_client 2000 true) ∅ (net0, mkTcp 1000 inbox 3 [] ∅ 3 false) [] (replicate MQTT_MAX_REPEAT_BUF_LEN 0) 0.
Definition still_app (n : note nat) (s : @St (utils_network * TcpWorld) nat) : @St (utils_network * TcpWorld) nat := s.

(** The server accepts and acknowledges; the answers arrive in pieces of at
    most three bytes.  The stack sends CONNECT, SUBSCRIBE, PUBLISH and
    DISCONNECT, and leaves no socket open. *)
Example stack_run :
  match session still_app fuel0 false
    [Connect (Some connect_params); Subscribe (Some topic_ab) (mkSubscribeParams QOS1 (Some 7%nat) 0);
     Publish (Some topic_ab) publish_qos1; Yield 100; Disconnect]
    (stack0 ([32; 2; 0; 0] ++ [144; 3; 0; 2; 1] ++ [64; 2; 0; 3] ++ Spec.publish 0 0 0 0 topic_ab hello)) with
  | Ret rets s =>
      rets = [0; 2; 3; 0; 0] /\ length (trace s) = 3%nat /\ t_open (world s).2 = ∅ /\ t_inbox (world s).2 = [] /\
      t_sent (world s).2 = connect_packet connect_params (bytes_of "id") ++ Spec.subscribe 0 2 topic_ab 1 ++
        Spec.publish 0 1 0 3 topic_ab hello ++ Spec.empty DISCONNECT
  | _ => False
  end.
Proof. vm_compute. auto 10. Qed.
