(* ===== verification/MqttRegister.v ===== *)
(** Dynamic registration: [IOT_MQTT_Dynamic_Register] of
    [uiot/mqtt/src/mqtt_client.c], which connects with the product's secret,
    asks for the secret of the device and keeps what the reply says.

    The static arrays of the port stand beside the client's environment
    ([DeviceInfo * W]): only the callback of the reply writes them. *)

From S2P Require Import Prelude Defs HalTimer Json CLib JsonConv HalDevice MqttWire MqttTopic MqttState MqttClient MqttSession MqttApi MqttSim MqttInv MqttSend MqttRequest MqttRecv MqttHandle MqttAck MqttLife.

(* ================================================================== *)
(** * The reply *)

Section reply.
Context {W : Type} (malloc : W -> bool * W) (free : W -> W).

(** The number, or [None] for [false]; too large a number is undefined. *)
Definition parse_mqtt_payload_retcode_type (pJsonDoc : bytes) (w : W) : res (option Z * W) :=
  '(ret_code, w) ← LITE_json_value_of malloc (lit "RetCode") pJsonDoc w;
  match ret_code with
  | None => Ok (None, w)
  | Some ret_code => n ← scan_u 32 (ret_code ++ [0]); Ok (n, free w)
  end.
Definition parse_mqtt_state_request_id_type (pJsonDoc : bytes) (w : W) : res (option bytes * W) :=
  LITE_json_value_of malloc (lit "RequestID") pJsonDoc w.
Definition parse_mqtt_state_password_type (pJsonDoc : bytes) (w : W) : res (option bytes * W) :=
  LITE_json_value_of malloc (lit "Password") pJsonDoc w.

(** [payload]: the memory from the payload on. *)
Definition on_message_callback_get_device_secret (payload : bytes) (d : DeviceInfo) (w : W) : res (DeviceInfo * W) :=
  '(RetCode, w) ← parse_mqtt_payload_retcode_type payload w;
  match RetCode with
  | None => Ok (d, w)
  | Some RetCode =>
      if decide (SUCCESS_RET <> RetCode) then Ok (d, w)
      else
        '(Request_id, w) ← parse_mqtt_state_request_id_type payload w;
        match Request_id with
        | None => Ok (d, w)
        | Some Request_id =>
            if decide (Request_id <> bytes_of "1") then Ok (d, free w)
            else
              '(Password, w) ← parse_mqtt_state_password_type payload w;
              match Password with
              | None => Ok (d, free w)
              | Some Password => '(_, d) ← HAL_SetDeviceSecret (Password ++ [0]) d; Ok (d, free (free w))
              end
        end
  end.
End reply.

(* ================================================================== *)
(** * The registration *)

(** The client's environment with the static arrays beside it. *)
#[export] Instance device_env {W} `{Env W} : Env (DeviceInfo * W) := {
  rt_tick_get s := let '(t, w) := rt_tick_get s.2 in (t, (s.1, w));
  rt_tick_from_millisecond := rt_tick_from_millisecond;
  HAL_SleepMs ms s := (s.1, HAL_SleepMs ms s.2);
  malloc_ok s := let '(b, w) := malloc_ok s.2 in (b, (s.1, w));
  net_connect s := let '(r, w) := net_connect s.2 in (r, (s.1, w));
  net_disconnect s := let '(r, w) := net_disconnect s.2 in (r, (s.1, w));
  net_read len t s := let '(r, data, w) := net_read len t s.2 in (r, data, (s.1, w));
  net_write data t s := let '(r, w) := net_write data t s.2 in (r, (s.1, w))
}.
#[export] Instance device_resources {W} `{Resources W} : Resources (DeviceInfo * W) := {
  mutex_create s := let '(b, w) := mutex_create s.2 in (b, (s.1, w));
  mutex_destroy s := (s.1, mutex_destroy s.2);
  block_free s := (s.1, block_free s.2)
}.

Section register.
Context {W H : Type} `{Env W} `{Resources W} `{EqDecision H}.
Local Abbreviation St := (@St (DeviceInfo * W) H).
Local Abbreviation M := (@M (DeviceInfo * W) H).
Context (app : note H -> St -> St).
(** The address of [on_message_callback_get_device_secret], and what the
    machine does to the arrays and the environment when the callback does
    something undefined. *)
Context (get_device_secret : H) (stray : DeviceInfo * W -> DeviceInfo * W).
Context (fuel : nat) (check_repeat : bool).

(** The callbacks of the client: this one, and those of the application. *)
Definition callbacks (n : note H) (s : St) : St :=
  match n with
  | Delivered h m _ =>
      if decide (h = get_device_secret) then
        match on_message_callback_get_device_secret malloc_ok block_free
                (drop (Z.to_nat (payload m)) (read_buf (cl s))) (world s).1 (world s).2 with
        | Ok w => set_world w s
        | _ => set_world (stray (world s)) s
        end
      else app n s
  | _ => app n s
  end.

(** The two templates; [HAL_Snprintf] cuts the names. *)
Definition pub_topic (product_sn device_sn : bytes) : bytes :=
  snprintf MAX_SIZE_OF_CLOUD_TOPIC (bytes_of "/$system/" ++ product_sn ++ bytes_of "/" ++ device_sn ++ bytes_of "/password").
Definition sub_topic (product_sn device_sn : bytes) : bytes :=
  snprintf MAX_SIZE_OF_CLOUD_TOPIC (bytes_of "/$system/" ++ product_sn ++ bytes_of "/" ++ device_sn ++ bytes_of "/password_reply").
Definition auth_msg : bytes := q "{`RequestID`:`1`}".

(** From the subscription to the label [end]. *)
Definition register_steps (pub_name sub_name : bytes) (device_sn_addr : Z) : M Z :=
  ret ← IOT_MQTT_Subscribe fuel (Some sub_name) (mkSubscribeParams QOS1 (Some get_device_secret) device_sn_addr);
  if decide (ret <= 0) then mret ret
  else
    _ ← IOT_MQTT_Yield callbacks fuel check_repeat 200;
    _ ← IOT_MQTT_Publish fuel (Some pub_name) (mkPublishParams QOS1 0 0 (Some auth_msg) (zlen auth_msg));
    ret ← IOT_MQTT_Yield callbacks fuel check_repeat 5000;
    if decide (SUCCESS_RET <> ret) then mret ret
    else
      _ ← IOT_MQTT_Unsubscribe fuel (Some sub_name);
      IOT_MQTT_Yield callbacks fuel check_repeat 200.

(** [device_sn_addr]: the pointer [pParams->device_sn] as the callback's
    user data, which it does not look at. *)
Definition IOT_MQTT_Dynamic_Register (pParams : MQTTInitParams) (device_sn_addr : Z) : M Z :=
  client ← IOT_MQTT_Construct callbacks fuel check_repeat pParams;
  if negb client then mret FAILURE_RET
  else
    ok ← malloc;
    if negb ok then _ ← IOT_MQTT_Destroy fuel check_repeat; mret FAILURE_RET
    else
      let product := default [] (product_sn pParams) in
      let device := default [] (device_sn pParams) in
      ok ← malloc;
      if negb ok then _ ← free_block; _ ← IOT_MQTT_Destroy fuel check_repeat; mret FAILURE_RET
      else
        ret ← register_steps (pub_topic product device) (sub_topic product device) device_sn_addr;
        _ ← free_block; _ ← free_block;
        _ ← IOT_MQTT_Destroy fuel check_repeat;
        mret ret.
End register.

(* ================================================================== *)
(** * What a reply teaches the device *)

Section learning.
Context {W : Type} (malloc : W -> bool * W) (free : W -> W).
(** An account of the blocks. *)
Context (blocks : W -> Z).
Hypothesis malloc_blocks : forall w, blocks (malloc w).2 = blocks w + if (malloc w).1 then 1 else 0.
Hypothesis free_blocks : forall w, blocks (free w) = blocks w - 1.

(** A name without a dot: only the value is allocated. *)
Lemma plain_lookup_blocks key src w r w' : strchr key 46 = Ok None ->
  LITE_json_value_of malloc key src w = Ok (r, w') -> blocks w' = blocks w + match r with Some _ => 1 | None => 0 end.
Proof using malloc_blocks.
  intros Hk E. unfold LITE_json_value_of in E. cbn [path_loop] in E. rewrite Hk in E. cbn [mbind res_bind] in E.
  destruct (value_of src key (-1)) as [[[v|] len]|e|]; cbn [mbind res_bind] in E; [|injection E as <- <-; lia|done..].
  pose proof (malloc_blocks w) as Hm. destruct (malloc w) as [[] w1]; cbn in Hm; [|injection E as <- <-; lia].
  destruct (snprintf_s _ _) as [t|e|]; cbn [mbind res_bind] in E; [|done..]. by injection E as <- <-.
Qed.

Lemma retcode_blocks doc w rc w' : parse_mqtt_payload_retcode_type malloc free doc w = Ok (rc, w') -> blocks w' = blocks w.
Proof using malloc_blocks free_blocks.
  unfold parse_mqtt_payload_retcode_type. intros E.
  destruct (LITE_json_value_of malloc (lit "RetCode") doc w) as [[v w1]|e|] eqn:Ev; cbn [mbind res_bind] in E; [|done..].
  apply plain_lookup_blocks in Ev; [|done]. destruct v as [v|]; [|injection E as <- <-; lia].
  destruct (scan_u 32 _) as [n|e|]; cbn [mbind res_bind] in E; [|done..]. injection E as <- <-. rewrite free_blocks. lia.
Qed.

(** Whatever is received: every block is given back, and nothing but the
    device's secret changes, to a text that fits. *)
Lemma reply_account payload d w d' w' known :
  knows d known -> on_message_callback_get_device_secret malloc free payload d w = Ok (d', w') ->
  blocks w' = blocks w /\ exists secret, knows d' (learned DeviceSecret secret known).
Proof using malloc_blocks free_blocks.
  intros Hk E. unfold on_message_callback_get_device_secret in E.
  assert (Hsame : knows d (learned DeviceSecret (known DeviceSecret) known)).
  { intros i. unfold learned. case_decide as Hi; [subst i|]; apply Hk. }
  destruct (parse_mqtt_payload_retcode_type malloc free payload w) as [[rc w1]|e|] eqn:E1; cbn [mbind res_bind] in E; [|done..].
  apply retcode_blocks in E1. destruct rc as [rc|]; [|injection E as <- <-; by eauto].
  case_decide; [injection E as <- <-; by eauto|].
  destruct (parse_mqtt_state_request_id_type malloc payload w1) as [[id w2]|e|] eqn:E2; cbn [mbind res_bind] in E; [|done..].
  apply plain_lookup_blocks in E2; [|done]. destruct id as [id|]; [|injection E as <- <-; split; [lia|by eauto]].
  case_decide; [injection E as <- <-; rewrite free_blocks; split; [lia|by eauto]|].
  destruct (parse_mqtt_state_password_type malloc payload w2) as [[pw w3]|e|] eqn:E3; cbn [mbind res_bind] in E; [|done..].
  apply plain_lookup_blocks in E3; [|done]. destruct pw as [pw|]; [|injection E as <- <-; rewrite free_blocks; split; [lia|by eauto]].
  destruct (cstr (pw ++ [0])) as [t|] eqn:Et; [|unfold HAL_SetDeviceSecret, set_text in E; by rewrite Et in E].
  pose proof (setter_run d known DeviceSecret _ t Hk Et) as Hs. cbn [setter item_len] in Hs. case_decide.
  - destruct Hs as (d1 & Hs & Hd). rewrite Hs in E. injection E as <- <-. rewrite !free_blocks. split; [lia|by eauto].
  - rewrite Hs in E. injection E as <- <-. rewrite !free_blocks. split; [lia|by eauto].
Qed.

(** ** Replies that are JSON *)

(** What the document says of a member: nothing under a name that begins so,
    a string, or a number. *)
Definition says (n : String.string) (ms : list (bytes * json)) (v : option json) : Prop :=
  match v with
  | Some v => value_at [bytes_of n] (JObject ms) = Some v /\ unambiguous [bytes_of n] (JObject ms) = true /\ text v <> []
  | None => Forall (fun m => ~ bytes_of n `prefix_of` m.1) ms
  end.
Hypothesis memory : forall w, (malloc w).1 = true.

Lemma says_lookup n ms junk v w : well_formed (JObject ms) = true -> component (bytes_of n) -> says n ms v ->
  exists w', LITE_json_value_of malloc (lit n) (print (JObject ms) ++ 0 :: junk) w = Ok (text <$> v, w').
Proof using memory.
  intros Hw Hc Hs. destruct v as [v|]; cbn [says] in Hs.
  - destruct Hs as (Hv & Hu & Hne). apply (json_lookup_found malloc (JObject ms) junk w [bytes_of n] v memory Hw); [done| |done..].
    by constructor.
  - exists w. by apply json_lookup_missing.
Qed.

Lemma member_well_formed n ms v : well_formed (JObject ms) = true -> value_at [n] (JObject ms) = Some v -> well_formed v = true.
Proof using.
  rewrite well_formed_members. intros Hw Hv. cbn [value_at] in Hv.
  destruct (list_find (fun m => m.1 = n) ms) as [[i m]|] eqn:E; [|done]. cbn in Hv. injection Hv as <-.
  apply list_find_Some in E as (Hi & _ & _). by apply (Forall_lookup_1 _ _ _ _ Hw Hi).
Qed.

(** The secret of a reply: RetCode 0, RequestID 1 and a password. *)
Definition secret_in (rc : option Z) (id password : option bytes) : option bytes :=
  match rc, id, password with
  | Some rc, Some id, Some password =>
      if decide (rc = 0 /\ id = bytes_of "1" /\ zlen password <= IOT_DEVICE_SECRET_LEN) then Some password else None
  | _, _, _ => None
  end.

Lemma retcode_run ms junk rc w : well_formed (JObject ms) = true ->
  says "RetCode" ms (JNumber ∘ dec <$> rc) -> (forall n, rc = Some n -> 0 <= n < 2 ^ 32) ->
  exists w', parse_mqtt_payload_retcode_type malloc free (print (JObject ms) ++ 0 :: junk) w = Ok (rc, w').
Proof using memory.
  intros Hw Hs Hn. destruct (says_lookup "RetCode" ms junk _ w Hw ltac:(by_eval) Hs) as [w' E].
  unfold parse_mqtt_payload_retcode_type. rewrite E. destruct rc as [n|]; [|by eexists].
  cbn [mbind res_bind option_map fmap option_fmap compose text print]. rewrite scan_u_dec; [by eexists|by apply Hn|auto|by_eval].
Qed.

Lemma secret_reply_run ms junk rc id password d w known :
  well_formed (JObject ms) = true -> knows d known ->
  says "RetCode" ms (JNumber ∘ dec <$> rc) -> (forall n, rc = Some n -> 0 <= n < 2 ^ 32) ->
  says "RequestID" ms (JString <$> id) -> says "Password" ms (JString <$> password) ->
  exists d' w', on_message_callback_get_device_secret malloc free (print (JObject ms) ++ 0 :: junk) d w = Ok (d', w') /\
    match secret_in rc id password with
    | Some secret => knows d' (learned DeviceSecret secret known)
    | None => d' = d
    end.
Proof using memory.
  intros Hw Hk Hrc Hn Hid Hpw. unfold on_message_callback_get_device_secret.
  destruct (retcode_run ms junk rc w Hw Hrc Hn) as [w1 ->]. cbn [mbind res_bind].
  destruct rc as [rc|]; [|by eexists _, _]. cbn [secret_in]. unfold SUCCESS_RET.
  destruct (decide (0 <> rc)) as [Hne|Heq].
  { eexists _, _. split; [done|]. destruct id, password; try done. by rewrite decide_False by (intros [? _]; lia). }
  unfold parse_mqtt_state_request_id_type. destruct (says_lookup "RequestID" ms junk _ w1 Hw ltac:(by_eval) Hid) as [w2 ->].
  destruct id as [id|]; cbn [mbind res_bind fmap option_fmap option_map text]; [|by eexists _, _].
  destruct (decide (id <> bytes_of "1")) as [Hi|Hi].
  { eexists _, _. split; [done|]. destruct password; try done. by rewrite decide_False by (intros (_ & ? & _); done). }
  unfold parse_mqtt_state_password_type. destruct (says_lookup "Password" ms junk _ w2 Hw ltac:(by_eval) Hpw) as [w3 ->].
  destruct password as [pw|]; cbn [mbind res_bind fmap option_fmap option_map text]; [|by eexists _, _].
  assert (Hz : Forall (fun c => c <> 0) pw).
  { destruct Hpw as (Hv & _ & _). exact (text_nonzero _ (member_well_formed (bytes_of "Password") ms (JString pw) Hw Hv)). }
  pose proof (setter_run d known DeviceSecret (pw ++ [0]) pw Hk) as Hs. rewrite cstr_text in Hs by done. specialize (Hs eq_refl).
  cbn [setter item_len] in Hs. destruct (decide (zlen pw <= IOT_DEVICE_SECRET_LEN)) as [Hl|Hl].
  - destruct Hs as (d' & -> & Hd). eexists _, _. split; [done|]. rewrite decide_True; [done|].
    split_and!; [lia|by apply dec_stable|done].
  - rewrite Hs. eexists _, _. split; [done|]. by rewrite decide_False by (intros (_ & _ & ?); done).
Qed.
End learning.

(* ================================================================== *)
(** * The registration keeps the client consistent *)

#[export] Program Instance device_laws {W} `{EnvLaws W} : EnvLaws (DeviceInfo * W).
Next Obligation. intros W E L [d w]. cbn. pose proof (tick_range w). by destruct (rt_tick_get w). Qed.
Next Obligation.
  intros W E L len t [d w] r data w' Hr Hl. cbn in Hr. destruct (net_read len t w) as [[r1 d1] w1] eqn:En.
  injection Hr as <- <- <-. exact (read_law _ _ _ _ _ _ En Hl).
Qed.
Next Obligation.
  intros W E L data t [d w] r w' Hr Hd. cbn in Hr. destruct (net_write data t w) as [r1 w1] eqn:En.
  injection Hr as <- <-. exact (write_law _ _ _ _ _ En Hd).
Qed.
#[export] Program Instance device_log {W} `{NetLog W} : NetLog (DeviceInfo * W) := {
  stream s := stream s.2; incoming s := incoming s.2
}.
Next Obligation. intros W E L [d w]. cbn. pose proof (tick_stream w). by destruct (rt_tick_get w). Qed.
Next Obligation. intros W E L [d w]. cbn. pose proof (malloc_stream w). by destruct (malloc_ok w). Qed.
Next Obligation.
  intros W E L data t [d w] r w' Hr. cbn in Hr. destruct (net_write data t w) as [r1 w1] eqn:En.
  injection Hr as <- <-. exact (write_stream _ _ _ _ _ En).
Qed.
Next Obligation. intros W E L [d w]. cbn. pose proof (tick_incoming w). by destruct (rt_tick_get w). Qed.
Next Obligation.
  intros W E L len t [d w] r data w' Hr. cbn in Hr. destruct (net_read len t w) as [[r1 d1] w1] eqn:En.
  injection Hr as <- <- <-. exact (read_incoming _ _ _ _ _ _ En).
Qed.

Section consistent.
Context {W H : Type} `{Env W} `{!EnvLaws W} `{!NetLog W} `{!Resources W} `{EqDecision H}.
Local Abbreviation St := (@St (DeviceInfo * W) H).
Local Abbreviation M := (@M (DeviceInfo * W) H).
Context (app : note H -> St -> St) (get_device_secret : H) (stray : DeviceInfo * W -> DeviceInfo * W).
Hypothesis app_ok : forall n L s, J L s -> J L (app n s).
Context (fuel : nat) (check_repeat : bool).
Local Abbreviation free_locks := (fun _ : mutex => 0).

Lemma callbacks_ok n L (s : St) : J L s -> J L (callbacks app get_device_secret stray n s).
Proof using app_ok.
  intros Hj. destruct n; [by apply app_ok..|]. cbn [callbacks]. case_decide; [|by apply app_ok].
  destruct (on_message_callback_get_device_secret _ _ _ _ _); by apply J_world.
Qed.
Hint Resolve callbacks_ok : core.

Lemma world_ok f : ok (modify (fun s : St => set_world (f (world s)) s)).
Proof using. intros L s Hj. by apply J_world. Qed.
Lemma free_handles_ok hs : ok (free_handles (W := DeviceInfo * W) (H := H) hs).
Proof using.
  induction hs as [|h hs IH]; intros L s Hj; cbn [free_handles]; [by apply wp_ret|].
  eapply ok_use; [apply HAL_Free_ok|exact Hj|]. intros [] s' Hj'. by apply IH.
Qed.
Hint Resolve world_ok free_handles_ok uiot_mqtt_yield_ok uiot_mqtt_publish_ok uiot_mqtt_subscribe_ok uiot_mqtt_unsubscribe_ok
  uiot_mqtt_connect_ok uiot_mqtt_disconnect_ok : client_ok.
Hint Unfold free_block destroy_mutex IOT_MQTT_Yield IOT_MQTT_Publish IOT_MQTT_Subscribe IOT_MQTT_Unsubscribe : client_ok.

Lemma construct_ok p (s : St) : J free_locks s ->
  wp (IOT_MQTT_Construct (callbacks app get_device_secret stray) fuel check_repeat p) (fun _ s' => J free_locks s') s.
Proof using app_ok EnvLaws0.
  intros Hj. unfold IOT_MQTT_Construct. destruct (product_sn p) as [product|]; [|by apply wp_ret].
  destruct (device_sn p) as [device|]; [|by apply wp_ret]. case_match; [by apply wp_ret|].
  eapply step_env; [exact Hj|]. intros ok1 w1 _ Hj1. destruct ok1; cbn [negb]; [|by apply wp_ret].
  assert (Hfail : forall n, ok (_ ← modify (fun s : St => set_world (Nat.iter (S n) block_free (world s)) s); mret false : M bool)).
  { intros n L s' Hs. apply wp_bind, wp_modify, wp_ret. by apply J_world. }
  apply wp_bind. eapply wp_mono; [apply uiot_mqtt_init_spec|]. intros ret s2 Hj2.
  case_decide; [by apply Hfail|].
  eapply step_env; [exact Hj2|]. intros ok2 w2 _ Hj3. destruct ok2; cbn [negb]; [|by apply Hfail].
  eapply step_env; [exact Hj3|]. intros ok3 w3 _ Hj4. destruct ok3; cbn [negb]; [|by apply Hfail].
  destruct (select_auth p) as [mode password].
  assert (Hm : ok (match password with Some _ => malloc | None => mret true end : M bool)).
  { intros L s' Hs. destruct password; [|by apply wp_ret]. unfold malloc. apply wp_env. intros a w _. by apply J_world. }
  eapply ok_use; [exact Hm|exact Hj4|]. intros ok4 s4 Hj5. destruct ok4; cbn [negb]; [|by apply Hfail].
  eapply ok_use; [apply uiot_mqtt_connect_ok, callbacks_ok|exact Hj5|]. intros r s5 Hj6. case_decide; [by apply Hfail|by apply wp_ret].
Qed.

Lemma steps_ok pub sub addr : ok (register_steps app get_device_secret stray fuel check_repeat pub sub addr).
Proof using app_ok EnvLaws0.
  intros L s Hj. unfold register_steps, IOT_MQTT_Subscribe, IOT_MQTT_Publish, IOT_MQTT_Unsubscribe, IOT_MQTT_Yield.
  eapply ok_use; [apply uiot_mqtt_subscribe_ok|exact Hj|]. intros r s1 Hj1. case_decide; [by apply wp_ret|].
  eapply ok_use; [apply uiot_mqtt_yield_ok, callbacks_ok|exact Hj1|]. intros r1 s2 Hj2.
  eapply ok_use; [apply uiot_mqtt_publish_ok|exact Hj2|]. intros r2 s3 Hj3.
  eapply ok_use; [apply uiot_mqtt_yield_ok, callbacks_ok|exact Hj3|]. intros r3 s4 Hj4. case_decide; [by apply wp_ret|].
  eapply ok_use; [apply uiot_mqtt_unsubscribe_ok|exact Hj4|]. intros r4 s5 Hj5. by apply uiot_mqtt_yield_ok; [apply callbacks_ok|].
Qed.

(** Destroying ends every connection. *)
Definition ended (s : St) : Prop := J free_locks s /\ is_connected (cl s) = 0.
Definition ends {A} (m : M A) : Prop := forall s, ended s -> wp m (fun _ s' => ended s') s.
Lemma ends_use {A B} (m : M A) (f : A -> M B) s : ends m -> ended s -> (forall a s', ended s' -> wp (f a) (fun _ s' => ended s') s') ->
  wp (m ≫= f) (fun _ s' => ended s') s.
Proof using. intros Hm Hs Hf. apply wp_bind. eapply wp_mono; [by apply Hm|]. intros a s'. apply Hf. Qed.
Lemma ends_world f : ends (modify (fun s : St => set_world (f (world s)) s)).
Proof using. intros s [Hj Hc]. split; [by apply J_world|done]. Qed.
Lemma ends_free p : ends (HAL_Free (W := DeviceInfo * W) (H := H) p).
Proof using.
  intros s [Hj Hc]. unfold wp, HAL_Free. destruct p as [p|]; [|done]. destruct (heap s !! p); [|done].
  split; [by apply J_heap|done].
Qed.
Lemma ends_handles hs : ends (free_handles (W := DeviceInfo * W) (H := H) hs).
Proof using.
  induction hs as [|h hs IH]; intros s Hs; cbn [free_handles]; [by apply wp_ret|].
  apply ends_use; [apply ends_free|exact Hs|]. intros [] s' Hs'. by apply IH.
Qed.
Lemma ends_when b m : ends m -> ends (when b m).
Proof using. intros Hm s Hs. destruct b; [by apply Hm|by apply wp_ret]. Qed.

Hypothesis enough : UIOT_MQTT_TX_BUF_LEN <= Z.of_nat fuel.

Lemma disconnect_ends (s : St) : J free_locks s -> wp (uiot_mqtt_disconnect fuel) (fun _ s' => ended s') s.
Proof using enough EnvLaws0 NetLog0.
  intros Hj. destruct (decide (is_connected (cl s) = 0)) as [Hc|Hc].
  - unfold uiot_mqtt_disconnect. apply wp_bind. unfold wp at 1. rewrite conn_state_run. rewrite decide_True by done. by apply wp_ret.
  - assert (Hok : wp (uiot_mqtt_disconnect fuel) (fun _ s' => J free_locks s') s) by by apply uiot_mqtt_disconnect_ok.
    destruct (twp_elim _ _ _ (disconnect_run fuel s (proj1 Hj) Hc enough)) as (r & s' & Hr & _ & r1 & s1 & _ & Hs').
    unfold wp in *. rewrite Hr in *. split; [done|]. by rewrite Hs'.
Qed.

Lemma destroy_ends (s : St) : J free_locks s -> wp (IOT_MQTT_Destroy fuel check_repeat) (fun _ s' => ended s') s.
Proof using enough EnvLaws0 NetLog0.
  intros Hj. unfold IOT_MQTT_Destroy, destroy_mutex, destroy_list, free_block.
  apply wp_bind. eapply wp_mono; [by apply disconnect_ends|]. intros r s1 H1.
  apply ends_use; [|exact H1|].
  { destruct check_repeat; intros s2 [Hj2 Hc2]; [|by apply wp_ret]. split; [by apply J_repeat|done]. }
  do 4 (clear dependent s1; intros [] s1 H1; apply ends_use; [apply ends_world|exact H1|]).
  clear dependent s1. intros [] s1 H1. apply step_gets.
  do 2 (apply ends_use; [apply ends_world|eassumption|]; intros [] ? ?).
  do 3 (apply ends_use; [apply ends_when, ends_world|eassumption|]; intros [] ? ?).
  apply ends_use; [apply ends_handles|eassumption|]. intros [] ? ?.
  apply ends_use; [apply ends_world|eassumption|]. intros [] ? ?. by apply wp_ret.
Qed.

(** What it returns, and what is left behind. *)
Lemma registration_run p addr (s s' : St) ret : J free_locks s ->
  IOT_MQTT_Dynamic_Register app get_device_secret stray fuel check_repeat p addr s = Ret ret s' ->
  exists constructed s1, IOT_MQTT_Construct (callbacks app get_device_secret stray) fuel check_repeat p s = Ret constructed s1 /\
    J free_locks s' /\ if constructed : bool then is_connected (cl s') = 0 else ret = FAILURE_RET /\ s' = s1.
Proof using app_ok enough EnvLaws0 NetLog0.
  intros Hj E. pose proof (construct_ok p s Hj) as Hc. unfold wp in Hc.
  unfold IOT_MQTT_Dynamic_Register, mbind at 1, M_bind in E.
  destruct (IOT_MQTT_Construct _ _ _ p s) as [[] s1| |]; [|by injection E as <- <-; exists false, s1|done..].
  exists true, s1. split; [done|]. cbn [negb] in E. revert E. apply wp_elim with (Q := fun _ s' => ended s').
  assert (Hend : forall A (r : A) (s : St), J free_locks s -> wp (_ ← IOT_MQTT_Destroy fuel check_repeat; mret r) (fun _ s' => ended s') s).
  { intros A r s2 Hs2. apply wp_bind. eapply wp_mono; [by apply destroy_ends|]. intros ? s3 H3. by apply wp_ret. }
  eapply step_env; [exact Hc|]. intros [] w1 _ Hj1; cbn [negb]; [|by apply Hend].
  eapply step_env; [exact Hj1|]. intros [] w2 _ Hj2; cbn [negb]; unfold free_block.
  - eapply ok_use; [apply steps_ok|exact Hj2|]. intros r s2 Hj3.
    do 2 (eapply ok_use; [apply world_ok|eassumption|]; intros [] ? ?). by apply Hend.
  - eapply ok_use; [apply world_ok|exact Hj2|]. intros [] ? ?. by apply Hend.
Qed.
End consistent.

(* ================================================================== *)
(** * Runs *)

(** A server that answers every packet by the type in its first byte, and a
    clock that advances by 20 at every reading. *)
Record Server := mkServer { v_ticks : Z; v_inbox : bytes; v_sent : bytes; v_answer : list (Z * bytes) }.
Definition answer_to (data : bytes) (v : Server) : bytes :=
  match data with
  | b :: _ => match list_find (fun a => a.1 = b) (v_answer v) with Some (_, a) => a.2 | None => [] end
  | [] => []
  end.
#[export] Instance server_env : Env Server := {
  rt_tick_get v := (u32 (v_ticks v), mkServer (v_ticks v + 20) (v_inbox v) (v_sent v) (v_answer v));
  rt_tick_from_millisecond ms := ms;
  HAL_SleepMs ms v := mkServer (v_ticks v + ms) (v_inbox v) (v_sent v) (v_answer v);
  malloc_ok v := (true, v);
  net_connect v := (SUCCESS_RET, v);
  net_disconnect v := (SUCCESS_RET, v);
  net_read len t v :=
    let data := u8 <$> take (Z.to_nat len) (v_inbox v) in
    (zlen data, data, mkServer (v_ticks v) (drop (Z.to_nat len) (v_inbox v)) (v_sent v) (v_answer v));
  net_write data t v :=
    (zlen data, mkServer (v_ticks v) (v_inbox v ++ answer_to data v) (v_sent v ++ data) (v_answer v))
}.
#[export] Instance server_laws : EnvLaws Server.
Proof.
  constructor.
  - intros v. apply u32_range.
  - intros len t v r data v' [= <- <- <-] Hl. split_and!.
    + rewrite length_fmap, length_take. lia.
    + apply Forall_fmap, Forall_forall. intros x _. apply byte_u8.
    + done.
  - intros data t v r v' [= <- <-] Hd. assert (0 < zlen data) by (destruct data; [done|cbn; lia]). lia.
Qed.
#[export] Program Instance server_log : NetLog Server := { stream := v_sent; incoming v := u8 <$> v_inbox v }.
Next Obligation. done. Qed.
Next Obligation. done. Qed.
Next Obligation. intros data t v r v' [= <- <-]. cbn. by rewrite Nat2Z.id, firstn_all. Qed.
Next Obligation. done. Qed.
Next Obligation. intros len t v r data v' [= <- <- <-]. cbn. by rewrite <- fmap_app, take_drop. Qed.
#[export] Instance server_resources : Resources Server := {
  mutex_create v := (true, v);
  mutex_destroy v := v;
  block_free v := v
}.

Definition register_params : MQTTInitParams :=
  mkInitParams (Some (bytes_of "prod")) (Some (bytes_of "dev1")) (Some (bytes_of "psecret")) None 2000 240 1 1 false.
Definition register_state (answer : list (Z * bytes)) : @St (DeviceInfo * Server) nat :=
  mkSt (fresh_client 2000 true) ∅ (device0, mkServer 1000 [] [] answer) [] (replicate MQTT_MAX_REPEAT_BUF_LEN 0) 0.
Definition silent (n : note nat) (s : @St (DeviceInfo * Server) nat) : @St (DeviceInfo * Server) nat := s.
Local Abbreviation registered answer :=
  (IOT_MQTT_Dynamic_Register silent 7%nat (fun w => w) fuel0 false register_params 0 (register_state answer)).

(** CONNACK, SUBACK, UNSUBACK, and what follows the PUBACK of the request. *)
Definition server_answers (published : bytes) : list (Z * bytes) :=
  [(16, [32; 2; 0; 0]); (130, [144; 3; 0; 2; 1]); (50, [64; 2; 0; 3] ++ published); (162, [176; 2; 0; 4])].
Definition reply_packet (text : String.string) : bytes :=
  Spec.publish 0 0 0 0 (sub_topic (bytes_of "prod") (bytes_of "dev1")) (q text).

(** The result of a run: what it returned, the device's secret, and what the
    server received. *)
Definition result_of (o : @MqttState.out (DeviceInfo * Server) nat Z) : option (Z * option bytes * bytes) :=
  match o with
  | Ret ret s => Some (ret, cstr (sg_device_secret (world s).1), v_sent (world s).2)
  | _ => None
  end.
(** CONNECT with the product's secret, SUBSCRIBE to the reply, the request,
    UNSUBSCRIBE, DISCONNECT. *)
Definition register_packets : bytes :=
  let reply := sub_topic (bytes_of "prod") (bytes_of "dev1") in
  Spec.connect true 240 (bytes_of "prod.dev1") (Some (bytes_of "prod|dev1|2")) (Some (bytes_of "psecret")) ++
  Spec.subscribe 0 2 reply 1 ++ Spec.publish 0 1 0 3 (pub_topic (bytes_of "prod") (bytes_of "dev1")) auth_msg ++
  Spec.unsubscribe 0 4 reply ++ Spec.empty DISCONNECT.

Lemma registered_runs :
  result_of (registered (server_answers (reply_packet "{`RetCode`:0,`RequestID`:`1`,`Password`:`abcdefgh12345678`}"))) =
    Some (SUCCESS_RET, Some (bytes_of "abcdefgh12345678"), register_packets) /\
  result_of (registered (server_answers [])) = Some (SUCCESS_RET, Some (bytes_of "DEVICE_SECRET"), register_packets) /\
  result_of (registered (server_answers (reply_packet "{`RetCode`:1,`RequestID`:`1`}"))) =
    Some (SUCCESS_RET, Some (bytes_of "DEVICE_SECRET"), register_packets) /\
  result_of (registered (server_answers (reply_packet "{`RetCode`:0,`RequestID`:`1`,`Password`:`abcdefgh123456789`}"))) =
    Some (SUCCESS_RET, Some (bytes_of "DEVICE_SECRET"), register_packets) /\
  result_of (registered [(16, [32; 2; 0; 5])]) = Some (FAILURE_RET, Some (bytes_of "DEVICE_SECRET"), take 45 register_packets).
Proof. vm_compute. repeat split. Qed.

(* ================================================================== *)
(** * Properties *)

(** C14: dynamic registration, over any environment and with any application
    whose callbacks keep the client consistent.

    - A registration that returns leaves a consistent client whose locks are
      free.  If the client could not be constructed, the result is the failure;
      otherwise, whatever happened since, the client is destroyed at the end
      and not connected.
    - The callback of the reply gives back every block it takes, whatever it
      receives, and changes nothing the device knows but its secret.
    - On a reply that is JSON (under the conditions of [json_lookup_correct]),
      the device learns the password exactly if RetCode is 0, RequestID is 1,
      and the password fits the array of 16 characters; otherwise it keeps the
      secret it has.
    - An item that is set is what the getter copies out, with zeros behind it;
      a text that is too long is refused and nothing changes.
    - With a server that answers as it should, the packets are CONNECT with
      the product's secret, SUBSCRIBE, the request, UNSUBSCRIBE and DISCONNECT,
      and the device knows its secret.  The result does not tell: it is the
      success, too, when no reply came, when the server refused, and when the
      secret was too long. *)
Theorem dynamic_register_correct :
  (forall W H (E : Env W) (L : EnvLaws W) (N : NetLog W) (R : Resources W) (D : EqDecision H)
      app h stray fuel check_repeat p addr (s s' : @St (DeviceInfo * W) H) ret,
    (forall n L s, J L s -> J L (app n s)) -> UIOT_MQTT_TX_BUF_LEN <= Z.of_nat fuel -> J (fun _ => 0) s ->
    IOT_MQTT_Dynamic_Register app h stray fuel check_repeat p addr s = Ret ret s' ->
    exists constructed s1, IOT_MQTT_Construct (callbacks app h stray) fuel check_repeat p s = Ret constructed s1 /\
      J (fun _ => 0) s' /\ if constructed : bool then is_connected (cl s') = 0 else ret = FAILURE_RET /\ s' = s1) /\
  (forall W (malloc : W -> bool * W) free (blocks : W -> Z) payload d w d' w' known,
    (forall w, blocks (malloc w).2 = blocks w + if (malloc w).1 then 1 else 0) -> (forall w, blocks (free w) = blocks w - 1) ->
    knows d known -> on_message_callback_get_device_secret malloc free payload d w = Ok (d', w') ->
    blocks w' = blocks w /\ exists secret, knows d' (learned DeviceSecret secret known)) /\
  (forall W (malloc : W -> bool * W) free ms junk rc id password d w known,
    (forall w, (malloc w).1 = true) -> well_formed (JObject ms) = true -> knows d known ->
    says "RetCode" ms (JNumber ∘ dec <$> rc) -> (forall n, rc = Some n -> 0 <= n < 2 ^ 32) ->
    says "RequestID" ms (JString <$> id) -> says "Password" ms (JString <$> password) ->
    exists d' w', on_message_callback_get_device_secret malloc free (print (JObject ms) ++ 0 :: junk) d w = Ok (d', w') /\
      match secret_in rc id password with
      | Some secret => knows d' (learned DeviceSecret secret known)
      | None => d' = d
      end) /\
  (forall d known i src text dst, knows d known -> cstr src = Some text -> item_len i < zlen dst ->
    if decide (zlen text <= item_len i)
    then exists d', setter i src d = Ok (SUCCESS_RET, d') /\ knows d' (learned i text known) /\
      getter i d' dst = Ok (SUCCESS_RET, array (item_len i + 1) text ++ drop (Z.to_nat (item_len i + 1)) dst)
    else setter i src d = Ok (FAILURE_RET, d)) /\
  result_of (registered (server_answers (reply_packet "{`RetCode`:0,`RequestID`:`1`,`Password`:`abcdefgh12345678`}"))) =
    Some (SUCCESS_RET, Some (bytes_of "abcdefgh12345678"), register_packets) /\
  result_of (registered (server_answers [])) = Some (SUCCESS_RET, Some (bytes_of "DEVICE_SECRET"), register_packets) /\
  result_of (registered (server_answers (reply_packet "{`RetCode`:1,`RequestID`:`1`}"))) =
    Some (SUCCESS_RET, Some (bytes_of "DEVICE_SECRET"), register_packets) /\
  result_of (registered (server_answers (reply_packet "{`RetCode`:0,`RequestID`:`1`,`Password`:`abcdefgh123456789`}"))) =
    Some (SUCCESS_RET, Some (bytes_of "DEVICE_SECRET"), register_packets) /\
  result_of (registered [(16, [32; 2; 0; 5])]) = Some (FAILURE_RET, Some (bytes_of "DEVICE_SECRET"), take 45 register_packets).
Proof.
  split_and!; try apply registered_runs.
  - intros. by eapply registration_run.
  - intros. by eapply reply_account.
  - intros. by apply secret_reply_run.
  - intros d known i src text dst Hk Hs Hd. pose proof (setter_run d known i src text Hk Hs) as Hr. case_decide; [|done].
    destruct Hr as (d' & Hr & Hk'). exists d'. split_and!; [done..|]. rewrite (getter_run d' _ i dst Hk' Hd).
    unfold learned. by rewrite decide_True.
Qed.

(** The reply of the run, and a client that was refused. *)
Definition reply_members : list (bytes * json) :=
  [(bytes_of "RetCode", JNumber (bytes_of "0")); (bytes_of "RequestID", JString (bytes_of "1"));
   (bytes_of "Password", JString (bytes_of "abcdefgh12345678"))].
Definition count_malloc (n : Z) : bool * Z := (true, n + 1).

Lemma refused_run : exists s', registered [(16, [32; 2; 0; 5])] = Ret FAILURE_RET s'.
Proof. eexists. vm_compute. reflexivity. Qed.

Lemma dynamic_register_correct_witness :
  (exists s', registered [(16, [32; 2; 0; 5])] = Ret FAILURE_RET s' /\ J (fun _ => 0) s') /\
  (exists d' n, on_message_callback_get_device_secret count_malloc (fun n => n - 1) (print (JObject reply_members) ++ [0]) device0 5 =
     Ok (d', n) /\ n = 5 /\ cstr (sg_device_secret d') = Some (bytes_of "abcdefgh12345678")) /\
  exists d', HAL_SetDeviceSN (bytes_of "sn" ++ [0]) device0 = Ok (SUCCESS_RET, d') /\
    HAL_GetDeviceSN d' (replicate 66 9) = Ok (SUCCESS_RET, bytes_of "sn" ++ replicate 63 0 ++ [9]).
Proof.
  destruct dynamic_register_correct as (Hrun & Hacc & Hjson & Hset & _). split_and!.
  - destruct refused_run as [s' E]. exists s'. split; [exact E|].
    destruct (Hrun Server nat _ _ server_log _ _ silent 7%nat (fun w => w) fuel0 false register_params 0
      (register_state [(16, [32; 2; 0; 5])]) s' FAILURE_RET) as (b & s1 & _ & Hj & _);
      [intros n L s Hs; exact Hs|exact fuel0_ok| |exact E|exact Hj].
    split; [apply fresh_client_inv; by_eval|by intros []].
  - destruct (Hjson Z count_malloc (fun n => n - 1) reply_members [] (Some 0) (Some (bytes_of "1"))
      (Some (bytes_of "abcdefgh12345678")) device0 5 known0) as (d' & n & E & Hd);
      [done|by_eval|exact device0_knows|split_and!; by vm_compute|intros n [= <-]; by_eval|split_and!; by vm_compute|split_and!; by vm_compute|].
    exists d', n. split; [exact E|]. split.
    + apply (Hacc Z count_malloc (fun n => n - 1) (fun n => n) (print (JObject reply_members) ++ [0]) device0 5 d' n known0); [done|done|exact device0_knows|exact E].
    + destruct (Hd DeviceSecret) as (_ & _ & Hs). cbn [item_of] in Hs. rewrite Hs. by_eval.
  - pose proof (Hset device0 known0 DeviceSN (bytes_of "sn" ++ [0]) (bytes_of "sn") (replicate 66 9) device0_knows eq_refl) as Hr.
    rewrite decide_True in Hr by by_eval. destruct Hr as (d' & Hs & _ & Hg); [by_eval|]. exists d'. split; [exact Hs|].
    refine (eq_trans Hg _). by_eval.
Defined.
